(* ===== verification/_CoqProject ===== *)
-Q . S2P
Prelude.v
GoStrings.v
NetIP.v
Config.v
IpAddr.v
UserDb.v
OpenDb.v
Wire.v
Passphrase.v
UserMgt.v
Auth.v
Base64.v
KnownHosts.v
Halter.v
Tower.v
Tricorder.v
IdleTimer.v
Flow.v
Channel.v
Mux.v
FlowControl.v
Direct.v
Session.v
Forwards.v
Tunnels.v
Negotiate.v
Transport.v
Cbc.v
Kex.v
Keys.v
KexAlgo.v
KeyMaterial.v
AuthorizedKeys.v
HostsFile.v
Signers.v
Keyring.v
Agent.v
AgentForward.v
Utf8.v
Terminal.v
Lines.v
ServerSetup.v
Login.v
ClientAuth.v
ClientConn.v
Conversation.v
Connect.v
Esshd.v
