(* ===== verification/Prelude.v ===== *)
(** * sshego: a verification development

    sshego (src/) is an SSH tunnel, client and embedded server in Go. Its server
    logs a user in on two factors, a public key and a one-time code with a
    passphrase; its client trusts servers by a known_hosts file; both rest on
    the author's fork of the Go ssh library
    (src/xendor/github.com/glycerine/xcryptossh, X/ below), in which channels got
    idle timers and halters. This library models the parts that carry the
    program's own logic as executable functions, and proves what makes them
    correct.

    ** The files, and what each models

    General:
    - [Prelude]: outcomes of a Go call (value, error, panic, a call that never
      returns), machine integers, automation, generic lemmas.
    - [GoStrings], [NetIP], [Base64], [Utf8]: the functions of Go's strings, strconv,
      net, encoding/base64 and unicode/utf8 that the code calls, on [string].

    The program's configuration and users:
    - [Config]: config.go, mailgun.go. [SaveConfig], [LoadConfig] (the line reader
      included), [ValidateConfig], [DefineFlags], [ParseAddr], [subEnv].
    - [IpAddr]: ipaddr.go. A host and port taken apart, the address of this host.
    - [UserDb]: user.go, amap.go, rsa.go, filedb.go. A database is the persisted map
      of users and the files of the disk. [AddUser] (by [finishUserBuildout],
      [build_totp], [build_rsa]), [DelUser], [ValidLogin].
    - [OpenDb]: user.go from [NewHostDb] on: a database is opened, or made with a
      host key; what is kept from one process to the next.
    - [Passphrase]: cryrand.go, dict/pass.go, prompt.go. Random numbers are
      arguments; standard input is a list of chunks.
    - [UserMgt]: usermgt.go, netcli.go, tcplock.go and the command socket of
      server.go. A command runs on the files of the disk; the attempts to get the
      port and what comes back over the socket are arguments.
    - [ServerSetup]: the algorithms that server.go and sshutil.go configure, host
      keys, keys from files (rsacrypt.go too).

    Logins:
    - [Auth]: server.go ([PublicKeyCallback], [KeyboardInteractiveCallback],
      [AuthLogCallback] of a [PerAttempt]) and X/server.go ([serverAuthenticate], the
      cache of keys). The requests of the client are a list of events; the loop
      needs no fuel, for it is structural on them. [Login] is [Auth] with the real
      keys of [Keys] and [AuthorizedKeys].
    - [ClientAuth]: X/client_auth.go and the challenger of sshutil.go, on a list of
      packets and with a trace of what the client does; every round reads a packet,
      so that their number is fuel enough.
    - [Conversation]: the server's end on packets: [serverHandshake] reads them one by
      one, asks its questions and writes its answers, and refines the authentication
      of [Auth] on parsed requests; both composed with [ClientAuth].
    - [ClientConn]: X/client.go, from the configuration to a connection: versions,
      first exchange, login. [Connect]: the client of the program with its server.
    - [Esshd]: server.go, listen.go. The goroutine that accepts and the one that
      receives commands, as the step relation [sys_step].

    Trust in servers:
    - [KnownHosts]: knownhosts.go, and the decision of sshutil.go
      ([HostAlreadyKnown], [AddNeeded], the callback that [SSHConnect] installs).
      A mutex of a record is a boolean of it: a second lock is [Blocked].
    - [HostsFile]: X/knownhosts, the files of OpenSSH.
    - [Tricorder]: tri.go, with [DeriveNewConfig] and [Dial] of cli.go, [SSHConnect]
      and [mySSHDial] of sshutil.go. The attempts to connect are a list of what
      each meets; the goroutine's select is the step relation [tri_step].

    Messages and keys:
    - [Wire]: X/messages.go, the append helpers of X/common.go, signatures of
      X/certs.go. A message type is its tags and field kinds, as the two
      reflective loops read the struct; [Unmarshal] reads what [Marshal] wrote, and
      [decode] does for the types whose number is their own or that it prefers;
      [decode] panics on no non-empty packet.
    - [Keys]: X/keys.go, X/certs.go. Public keys of all kinds and certificates:
      read, written, verified, checked. A certificate nests at most as deep as
      its bytes are many, which is the fuel of [ParsePublicKey].
    - [AuthorizedKeys]: the files of keys of X/keys.go, with options and quotes.
    - [Signers]: the private half of X/keys.go, certificates that sign, fingerprints.
    - [Keyring], [Agent], [AgentForward]: X/agent. The keys in memory, with the
      array that is rearranged while it is gone through; the protocol, with the
      class [Agent] between the server and what it serves and the class [Conn]
      between the client and its connection; one keyring on many channels as the
      step relation [forward_step].

    The transport:
    - [Negotiate]: the choice of algorithms (X/common.go).
    - [Transport]: X/cipher.go (stream ciphers with a MAC, AES-GCM), X/transport.go
      (sequence numbers, the change of keys, the exchange of versions). The class
      [PacketCipher] is the Go interface, [PacketCipherLaws] what a conversation
      needs of it; both kinds of cipher are instances, and so is [Cbc].
    - [Kex]: X/handshake.go. The handshake transport with its writers and its loop
      is the step relation [kex_step]. [KexAlgo]: X/kex.go, the key agreements.
      [KeyMaterial]: the keys and ciphers made of what they agree on.

    Channels:
    - [Flow]: [Window] (X/common.go), [Buffer] (X/buffer.go), [ChanList] (X/mux.go). A
      call that waits takes the list of what others do meanwhile, each wakeup
      with the idle timer's answer; [None] is a call that waits longer.
    - [Channel]: X/channel.go, every operation of a channel. The transport's
      answer to a packet is the parameter [conn]; the packets it accepted are
      returned. Calls on the idle timers are recorded in [idleCalls]. When a
      [select] has a choice, [pick] is it.
    - [Mux]: X/mux.go. Channels are shared by pointer and live in a heap; the
      channel list holds pointers. [onePacket], [openChannel] with [await_open],
      [loop] with [finish].
    - [FlowControl]: two ends of a channel and the packets between them, as a
      step relation.
    - [Direct]: direct.go, ud.go, pty.go, the dialling of X/tcpip.go: connections
      through the server. [Session]: X/session.go. [Forwards]: ports forwarded to
      the client, with the list of forwards and its Go channels as a step relation.
      [Tunnels]: shovel.go and the tunnels of sshutil.go, as a step relation; an end
      is a socket, whose Close wakes who reads or writes it, or an ssh channel,
      whose Close does not, and writes may take a part and wait for the peer.

    Goroutines of the program and tools:
    - [Halter]: X/halter.go. All halters live in one map, with the set of mutexes
      held; [RequestStop] recurses down the graph with fuel, and a rank of the
      graph bounds what it needs. [MAD] is a step relation.
    - [Tower]: buzz.go, uhp.go. Subscribers' Go channels live in a map; the
      choices of select and rand are arguments.
    - [IdleTimer]: X/idle.go. The background goroutine as a function [handle] on
      its events; [run] is a sequence of them.
    - [Terminal], [Lines]: X/terminal/terminal.go. The line editor and its screen;
      lines and passwords read from a connection that holds chunks of bytes. A read
      takes a chunk or more than 200 bytes of one, which bounds the rounds
      ([weight]); a key takes a byte, which bounds the inner loop.

    ** What the groups of theorems show

    Safety of logins ([Auth], and with real keys [Login]): who is logged in has
    presented what the configuration asks for. On the other side the client uses
    a private key only on the server's acknowledgement and always returns
    ([ClientAuth]); the two sides together log the user in with both factors
    ([Conversation]), a connection of a client stands on all its checks
    ([ClientConn]), and the program's client connects to the program's server
    ([Connect]). Integrity of the stored data ([UserDb], [OpenDb], [Config],
    [KnownHosts]), also when commands and a server share it ([UserMgt], [Esshd]);
    faithful messages, keys and files ([Wire], [Keys], [AuthorizedKeys], [HostsFile],
    [Signers]); trust in servers ([KnownHosts], [HostsFile], [Kex], and for a client
    that reconnects [Tricorder]); an agent that the protocol does not change, whose
    signatures verify and whose lock holds ([Agent], [AgentForward]); orderly
    shutdown ([Halter], [IdleTimer], [Tricorder], [Tunnels]); delivery of broadcasts
    ([Tower]); a line editor that is a function of the keys, however their bytes are
    cut, and shows no passwords ([Terminal], [Lines]).

    For the transport: both ends agree on what to use ([Negotiate], [Kex],
    [ServerSetup]) and on a secret that neither can force to be degenerate
    ([KexAlgo]); the keys made of it carry packets both ways ([KeyMaterial]); packets
    arrive as they were sent whatever cipher satisfies the interface, also over a
    change of keys ([Transport], [Cbc]); writers keep their order over key exchanges
    ([Kex]). For channels the chain goes from parts to whole: [Flow] gives each part
    its contract, [Channel] shows that a write is cut into packets without loss, that
    the other end unpacks them, and that the window never exceeds its initial size;
    [Mux] that no packet panics in any reachable state and that a packet concerns
    one channel only; [FlowControl] that opening a channel leads to two ends for
    which, however calls and arrivals interleave, data arrives in order and
    complete, no packet is refused, and no window is lost. Above the channels:
    connections end where the user asked ([Direct]), the fate of a command is
    reported ([Session]), a forwarded connection reaches the listener that was
    asked for ([Forwards]), tunnels copy faithfully and end, but for a copy that waits
    for a peer of a channel that stays silent ([Tunnels]).

    Some theorems record what the code does against its comments, or against what
    it means to do. Of logins: an unsigned query of a key counts as the first
    factor, and any key is accepted after it; an Ed25519 key of the wrong length
    stops the server; a silent client blocks the server for all. Of the program:
    a known key under a new name deadlocks; a user added beside a running server is
    lost; a database without users cannot be used after a restart; the guard
    against reconnecting too soon never acts; a failed start of the reconnecting
    client blocks its parent; a tunnel to a silent server stops its listener, and one
    whose server does not close its channel keeps a goroutine for ever; a request
    for port 1 stops the server; keys
    are written in the clear where a password is given. Of the library: an idle
    timer set to the same duration never fires again; a deadline in the past
    panics; a write of 4 GiB never ends; data of an unknown stream shrinks the
    window for good; an empty request panics an agent; a failed forward of an agent
    hangs all channels that the server opens; the terminal shows an unfinished
    password when the history is recalled, and spins on an endless escape sequence.

    ** Parameters

    What is not under src/ is a parameter of the definitions that use it:
    the greenpack encoding of users and of the database (with its round trip as
    hypothesis where it is needed), scrypt, one-time codes, RSA key generation,
    PEM and DER with their encryption, block ciphers, RC4, AEAD modes and hashes,
    the points of elliptic curves and the equations of the signature schemes, the
    word lists, snappy-compressed JSON and gob, the clock, the random source, the
    order in which Go ranges over a map, the answers of the network and of the
    system to listen, dial, exec, write and remove files. A hypothesis on one of them states what its
    documentation promises, and a witness instantiates it.

    ** Not modelled

    - Sockets, processes and the system calls on terminals (pty_unix.go,
      pty_windows.go, X/terminal/util*.go): there is no logic in them but that of the
      system. Copying a stream is an event with its error; [Tunnels] alone models it.
    - The report of a new user and its mail (usermgt.go from line 119 on, the sending
      of mailgun_unix.go): output only.
    - Generated code (user_gen.go, amap_gen.go, cli_gen.go, filedb_gen.go) and the
      calls of encoding libraries (perjson.go, pergob.go): written by or in the
      libraries that are parameters.
    - Zones of IPv6 addresses and the positions in the errors of base64, which no
      decision of the program depends on.
    - Command-line entry points, logging, test helpers (cmd/, verbose.go, testutil.go
      but for [WaitUntilAddrAvailable], X/util.go), and the vendored packages. *)
From stdpp Require Export base tactics numbers list option strings gmap pretty.
From Stdlib Require Export ZArith Lia Ascii String.

#[export] Set Default Goal Selector "!".
#[global] Open Scope string_scope.
#[global] Open Scope list_scope.
#[global] Open Scope Z_scope.

#[global] Arguments String.append : simpl nomatch.

(** ** Outcomes of a Go call

    [Ok] is a normal return with a nil error, [Err] a return with a non-nil
    error carrying the text [err.Error()], [Panic] a run-time panic with its
    message, and [Blocked] a call that never returns because the goroutine
    waits for a lock it already holds. *)

Abbreviation error := string (only parsing).
(** An [error] that may be nil, where a call returns nothing else. *)
Abbreviation error_ := (option string) (only parsing).
(** io.EOF and io.ErrUnexpectedEOF. *)
Definition EOF : string := "EOF".
Definition ErrUnexpectedEOF : string := "unexpected EOF".

Inductive outcome (A : Type) : Type :=
| Ok (a : A)
| Err (e : string)
| Panic (msg : string)
| Blocked.
Arguments Ok {A} a.
Arguments Err {A} e.
Arguments Panic {A} msg.
Arguments Blocked {A}.

Declare Scope go_scope.
Delimit Scope go_scope with go.

Definition obind {A B} (m : outcome A) (k : A -> outcome B) : outcome B :=
  match m with
  | Ok a => k a
  | Err e => Err e
  | Panic s => Panic s
  | Blocked => Blocked
  end.

Notation "'let?' x := m 'in' k" := (obind m (fun x => k))
  (at level 10, x name, m at level 100, k at level 200) : go_scope.
Notation "'let?' ' p := m 'in' k" := (obind m (fun x => match x with p => k end))
  (at level 10, p strict pattern, m at level 100, k at level 200) : go_scope.
#[global] Open Scope go_scope.

(** [panicOn(err)] (panic_on_err.go): an error becomes a panic. *)
Definition panicOn {A} (m : outcome A) : outcome A :=
  match m with
  | Err e => Panic e
  | _ => m
  end.

Lemma obind_ok {A B} (m : outcome A) (k : A -> outcome B) b :
  obind m k = Ok b <-> exists a, m = Ok a /\ k a = Ok b.
Proof. destruct m; simpl; naive_solver. Qed.

Lemma panicOn_ok {A} (m : outcome A) a : panicOn m = Ok a <-> m = Ok a.
Proof. destruct m; simpl; naive_solver. Qed.

Lemma panicOn_not_err {A} (m : outcome A) e : panicOn m <> Err e.
Proof. destruct m; simpl; naive_solver. Qed.

#[export] Instance outcome_eq_dec `{EqDecision A} : EqDecision (outcome A).
Proof. solve_decision. Defined.

(** ** Machine integers *)

(** Conversion of an unbounded integer to Go's [int64] and [uint32]. *)
Definition to_int64 (x : Z) : Z := (x + 2 ^ 63) mod 2 ^ 64 - 2 ^ 63.
Definition to_uint32 (x : Z) : Z := x mod 2 ^ 32.

Definition min_int64 : Z := - 2 ^ 63.
Definition max_int64 : Z := 2 ^ 63 - 1.
Definition in_int64 (x : Z) : Prop := min_int64 <= x <= max_int64.
Definition in_uint32 (x : Z) : Prop := 0 <= x < 2 ^ 32.

Lemma to_int64_id x : in_int64 x -> to_int64 x = x.
Proof.
  unfold in_int64, min_int64, max_int64, to_int64. intros H.
  rewrite Z.mod_small; lia.
Qed.

Lemma to_int64_range x : in_int64 (to_int64 x).
Proof.
  unfold in_int64, min_int64, max_int64, to_int64.
  pose proof (Z.mod_pos_bound (x + 2 ^ 63) (2 ^ 64)). lia.
Qed.

Lemma to_uint32_id x : in_uint32 x -> to_uint32 x = x.
Proof. unfold in_uint32, to_uint32. intros H. apply Z.mod_small. lia. Qed.

Lemma to_uint32_range x : in_uint32 (to_uint32 x).
Proof. unfold in_uint32, to_uint32. apply Z.mod_pos_bound. lia. Qed.

(** ** Automation shared by the components *)

(** The database of the lemmas that close the common cases. *)
Create HintDb sshego.
Create Rewrite HintDb sshego.
#[export] Hint Resolve to_int64_range to_uint32_range : sshego.
#[export] Hint Rewrite @panicOn_ok @obind_ok : sshego.

(** Case analysis on the innermost [match] or [if] of the goal or of a
    hypothesis, with the equations simplified. *)
Ltac case_step :=
  match goal with
  | |- context [match ?x with _ => _ end] =>
      lazymatch x with context [match _ with _ => _ end] => fail | _ => idtac end;
      destruct x eqn:?
  end; simplify_eq/=.
Ltac case_step_in H :=
  match type of H with
  | context [match ?x with _ => _ end] =>
      lazymatch x with context [match _ with _ => _ end] => fail | _ => idtac end;
      destruct x eqn:?
  end; simplify_eq/=.
Ltac cases := repeat (case_step; try done).
Ltac cases_in H := repeat (case_step_in H; try done).

(** Booleans of the code as propositions. *)
Ltac bool_prop :=
  repeat match goal with
  | H : _ && _ = true |- _ => apply andb_true_iff in H; destruct H
  | H : _ || _ = false |- _ => apply orb_false_iff in H; destruct H
  | H : negb _ = true |- _ => apply negb_true_iff in H
  | H : negb _ = false |- _ => apply negb_false_iff in H
  | H : (_ =? _)%string = true |- _ => apply String.eqb_eq in H
  | H : (_ =? _)%string = false |- _ => apply String.eqb_neq in H
  | H : Ascii.eqb _ _ = true |- _ => apply Ascii.eqb_eq in H
  | H : Ascii.eqb _ _ = false |- _ => apply Ascii.eqb_neq in H
  | H : bool_decide _ = true |- _ => apply bool_decide_eq_true in H
  | H : bool_decide _ = false |- _ => apply bool_decide_eq_false in H
  end; simplify_eq.

(** Comparisons of the code as inequalities. *)
Ltac z_prop :=
  repeat match goal with
  | H : (_ <? _) = true |- _ => apply Z.ltb_lt in H
  | H : (_ <? _) = false |- _ => apply Z.ltb_ge in H
  | H : (_ <=? _) = true |- _ => apply Z.leb_le in H
  | H : (_ <=? _) = false |- _ => apply Z.leb_gt in H
  | H : (_ =? _) = true |- _ => apply Z.eqb_eq in H
  | H : (_ =? _) = false |- _ => apply Z.eqb_neq in H
  end.

(** ** Reflexive transitive closure is stdpp's [rtc]; an invariant that
    holds initially and is preserved by every step holds of every reachable
    state. *)
Lemma rtc_invariant {S} (R : S -> S -> Prop) (P : S -> Prop) x y :
  (forall a b, P a -> R a b -> P b) -> rtc R x y -> P x -> P y.
Proof. intros Hstep Hr. induction Hr; eauto. Qed.

(** ** Generic lemmas on lists *)

Lemma fold_left_invariant {A B} (P : A -> Prop) (f : A -> B -> A) l a :
  P a -> (forall a b, P a -> b ∈ l -> P (f a b)) -> P (fold_left f l a).
Proof.
  revert a. induction l as [|b l IH]; intros a Ha Hf; [done|]. simpl.
  apply IH; [apply Hf; [done|left]|]. intros; apply Hf; [done|by right].
Qed.
