(* ===== verification/GoStrings.v ===== *)
(** Operations of Go's [strings], [strconv], [net] and [regexp] packages
    that the source uses, on strings as sequences of bytes, with the lemmas
    the components share.

    Error texts are those of the Go library; where Go prints an argument with
    [%q] the text here holds the argument itself. *)
From S2P Require Import Prelude.

(** ** Bytes and slices *)

Definition nl_byte : ascii := "010".
Definition dq_byte : ascii := "034".
Definition nl : string := String nl_byte "".
Definition dq : string := String dq_byte "".
(** The cutset of newline, carriage return, tab and space that the source
    trims with. *)
Definition ws : string := String "010" (String "013" (String "009" (String " " ""))).
#[global] Arguments nl : simpl never.
#[global] Arguments dq : simpl never.
#[global] Arguments ws : simpl never.
#[global] Arguments nl_byte : simpl never.
#[global] Arguments dq_byte : simpl never.

Fixpoint sall (p : ascii -> bool) (s : string) : bool :=
  match s with
  | "" => true
  | String c s' => p c && sall p s'
  end.

(** [lacks c s]: the byte [c] does not occur in [s]. *)
Definition lacks (c : ascii) (s : string) : bool := sall (fun x => negb (Ascii.eqb x c)) s.

(** [in_set cut c]: the byte [c] is one of the bytes of the cutset. *)
Fixpoint in_set (cut : string) (c : ascii) : bool :=
  match cut with
  | "" => false
  | String d cut' => Ascii.eqb d c || in_set cut' c
  end.

(** ASCII white space. *)
Definition space_bytes : string :=
  String "009" (String "010" (String "011" (String "012" (String "013" (String " " ""))))).
Definition is_space (c : ascii) : bool := in_set space_bytes c.

(** [s[n:]] and [s[:n]]. *)
Fixpoint sdrop (n : nat) (s : string) : string :=
  match n, s with
  | O, _ => s
  | S n', String _ s' => sdrop n' s'
  | S _, "" => ""
  end.

Fixpoint stake (n : nat) (s : string) : string :=
  match n, s with
  | O, _ => ""
  | S n', String c s' => String c (stake n' s')
  | S _, "" => ""
  end.

(** Index of the first and of the last occurrence of a byte. *)
Fixpoint index_byte (c : ascii) (s : string) : option nat :=
  match s with
  | "" => None
  | String d s' => if Ascii.eqb d c then Some O else S <$> index_byte c s'
  end.

Fixpoint last_index_byte (c : ascii) (s : string) : option nat :=
  match s with
  | "" => None
  | String d s' =>
      match last_index_byte c s' with
      | Some i => Some (S i)
      | None => if Ascii.eqb d c then Some O else None
      end
  end.

(** ** strings *)

Fixpoint trim_left (p : ascii -> bool) (s : string) : string :=
  match s with
  | "" => ""
  | String c s' => if p c then trim_left p s' else s
  end.

Fixpoint trim_right (p : ascii -> bool) (s : string) : string :=
  match s with
  | "" => ""
  | String c s' =>
      match trim_right p s' with
      | "" => if p c then "" else String c ""
      | r => String c r
      end
  end.

(** [strings.Trim(s, cutset)]. *)
Definition Trim (s cutset : string) : string :=
  trim_right (in_set cutset) (trim_left (in_set cutset) s).

(** [bytes.TrimSpace]. *)
Definition TrimSpace (s : string) : string := trim_right is_space (trim_left is_space s).

(** [bytes.Fields]; [cur] is the field being read. *)
Fixpoint fields_go (cur s : string) : list string :=
  match s with
  | "" => if (cur =? "")%string then [] else [cur]
  | String c s =>
      if is_space c then (if (cur =? "")%string then [] else [cur]) ++ fields_go "" s
      else fields_go (cur +:+ String c "") s
  end.
Definition Fields (s : string) : list string := fields_go "" s.

(** [strings.Split(s, sep)] for a one-byte separator. *)
Fixpoint Split (sep : ascii) (s : string) : list string :=
  match s with
  | "" => [""]
  | String c s' =>
      if Ascii.eqb c sep then "" :: Split sep s'
      else match Split sep s' with
           | [] => [String c ""]
           | h :: t => String c h :: t
           end
  end.

(** The part before the first [sep] and, if there is one, the part after. *)
Fixpoint cut (sep : ascii) (s : string) : string * option string :=
  match s with
  | "" => ("", None)
  | String c s' =>
      if Ascii.eqb c sep then ("", Some s')
      else let '(b, a) := cut sep s' in (String c b, a)
  end.

(** [strings.SplitN(s, sep, 2)]. *)
Definition SplitN2 (s : string) (sep : ascii) : list string :=
  match cut sep s with
  | (b, Some a) => [b; a]
  | (b, None) => [b]
  end.

Definition HasPrefix (s pre : string) : bool := String.prefix pre s.

Definition HasSuffix (s suf : string) : bool :=
  (String.length suf <=? String.length s)%nat &&
  (sdrop (String.length s - String.length suf) s =? suf)%string.

Fixpoint Contains (s sub : string) : bool :=
  String.prefix sub s ||
  match s with
  | "" => false
  | String _ s' => Contains s' sub
  end.

(** [strings.ToLower] on ASCII letters. The source compares its result with
    lower-case ASCII words only. *)
Definition lower_byte (c : ascii) : ascii :=
  let n := Ascii.nat_of_ascii c in
  if ((65 <=? n) && (n <=? 90))%nat then Ascii.ascii_of_nat (n + 32) else c.

Fixpoint ToLower (s : string) : string :=
  match s with
  | "" => ""
  | String c s' => String (lower_byte c) (ToLower s')
  end.

(** Deletion of a byte ([strings.NewReplacer(c, "")]). *)
Fixpoint remove_byte (c : ascii) (s : string) : string :=
  match s with
  | "" => ""
  | String d s' => if Ascii.eqb d c then remove_byte c s' else String d (remove_byte c s')
  end.

(** ** strconv *)

Definition digit_val (c : ascii) : option Z :=
  let n := Z.of_nat (Ascii.nat_of_ascii c) in
  if (48 <=? n) && (n <=? 57) then Some (n - 48) else None.

Inductive num_error := ErrSyntax | ErrRange.

Definition num_error_text (e : num_error) : string :=
  match e with
  | ErrSyntax => "invalid syntax"
  | ErrRange => "value out of range"
  end.

Definition NumError (fn s : string) (e : num_error) : string :=
  "strconv." +:+ fn +:+ ": parsing " +:+ dq +:+ s +:+ dq +:+ ": " +:+ num_error_text e.

(** The digit loop of [ParseUint] in base 10: it stops at the first byte that
    is no digit, or as soon as the value exceeds [maxVal]. *)
Fixpoint parse_digits (maxVal acc : Z) (s : string) : Z + num_error :=
  match s with
  | "" => inl acc
  | String c s' =>
      match digit_val c with
      | None => inr ErrSyntax
      | Some d =>
          let n1 := acc * 10 + d in
          if n1 >? maxVal then inr ErrRange else parse_digits maxVal n1 s'
      end
  end.

Definition parse_uint (maxVal : Z) (s : string) : Z + num_error :=
  match s with
  | "" => inr ErrSyntax
  | _ => parse_digits maxVal 0 s
  end.

(** [strconv.ParseUint(s, 10, bits)]: the value and the error. *)
Definition ParseUint (s : string) (bits : Z) : Z * option string :=
  let maxVal := 2 ^ bits - 1 in
  match parse_uint maxVal s with
  | inl n => (n, None)
  | inr ErrSyntax => (0, Some (NumError "ParseUint" s ErrSyntax))
  | inr ErrRange => (maxVal, Some (NumError "ParseUint" s ErrRange))
  end.

(** [strconv.Atoi(s)] for a 64-bit [int]. *)
Definition Atoi (s : string) : outcome Z :=
  let '(neg, body) :=
    match s with
    | String "-" b => (true, b)
    | String "+" b => (false, b)
    | _ => (false, s)
    end in
  match parse_uint (2 ^ 64 - 1) body with
  | inr e => Err (NumError "Atoi" s e)
  | inl un =>
      if neg then if un >? 2 ^ 63 then Err (NumError "Atoi" s ErrRange) else Ok (- un)
      else if un >=? 2 ^ 63 then Err (NumError "Atoi" s ErrRange) else Ok un
  end.

(** [fmt.Sprintf("%d", x)] and [("%v", x)] on an integer. *)
Definition itoa (x : Z) : string := pretty x.

(** ** net *)

(** The text of a [net.AddrError]. *)
Definition addr_error (addr why : string) : string :=
  if (addr =? "")%string then why else "address " +:+ addr +:+ ": " +:+ why.

(** [net.SplitHostPort]. *)
Definition SplitHostPort (hostport : string) : outcome (string * string) :=
  let addrErr why := Err (addr_error hostport why) in
  match last_index_byte ":" hostport with
  | None => addrErr "missing port in address"
  | Some i =>
      let check (host : string) (j k : nat) :=
        if negb (lacks "[" (sdrop j hostport)) then addrErr "unexpected '[' in address"
        else if negb (lacks "]" (sdrop k hostport)) then addrErr "unexpected ']' in address"
        else Ok (host, sdrop (S i) hostport) in
      match hostport with
      | String "[" _ =>
          match index_byte "]" hostport with
          | None => addrErr "missing ']' in address"
          | Some e =>
              if (S e =? String.length hostport)%nat then addrErr "missing port in address"
              else if (S e =? i)%nat then check (stake (e - 1) (sdrop 1 hostport)) 1%nat (S e)
              else match String.get (S e) hostport with
                   | Some ":"%char => addrErr "too many colons in address"
                   | _ => addrErr "missing port in address"
                   end
          end
      | _ =>
          let host := stake i hostport in
          if negb (lacks ":" host) then addrErr "too many colons in address"
          else check host 0%nat 0%nat
      end
  end.

(** ** Lemmas on strings *)

Lemma string_app_nil_r s : s +:+ "" = s.
Proof. induction s; simpl; congruence. Qed.

Lemma string_app_assoc a b c : (a +:+ b) +:+ c = a +:+ (b +:+ c).
Proof. induction a; simpl; congruence. Qed.

Lemma string_app_length a b :
  String.length (a +:+ b) = (String.length a + String.length b)%nat.
Proof. induction a; simpl; congruence. Qed.

Lemma sall_app p a b : sall p (a +:+ b) = sall p a && sall p b.
Proof. induction a; simpl; [done|]. by rewrite IHa, andb_assoc. Qed.

Lemma sall_impl (p q : ascii -> bool) s :
  (forall c, p c = true -> q c = true) -> sall p s = true -> sall q s = true.
Proof. intros Hpq. induction s; simpl; [done|]. intros. bool_prop. rewrite (Hpq a); auto. Qed.

Lemma lacks_app c a b : lacks c (a +:+ b) = lacks c a && lacks c b.
Proof. apply sall_app. Qed.

Lemma lacks_cons c d s : lacks c (String d s) = negb (Ascii.eqb d c) && lacks c s.
Proof. done. Qed.

Lemma sdrop_app a b : sdrop (String.length a) (a +:+ b) = b.
Proof. induction a; simpl; done. Qed.

Lemma stake_app a b : stake (String.length a) (a +:+ b) = a.
Proof. induction a; simpl; congruence. Qed.

Lemma stake_all s : stake (String.length s) s = s.
Proof. induction s; simpl; congruence. Qed.

Lemma stake_sdrop n s : stake n s +:+ sdrop n s = s.
Proof. revert s. induction n as [|n IH]; intros [|c s]; simpl; try done. by rewrite IH. Qed.

Lemma stake_length n s : String.length (stake n s) = Nat.min n (String.length s).
Proof. revert s. induction n as [|n IH]; intros [|c s]; simpl; try done. by rewrite IH. Qed.

Lemma sdrop_all s : sdrop (String.length s) s = "".
Proof. induction s; simpl; done. Qed.

Lemma prefix_app a b : String.prefix a (a +:+ b) = true.
Proof. induction a as [|c a IH]; simpl; [by destruct b|]. by destruct (ascii_dec c c). Qed.

Lemma prefix_spec a s : String.prefix a s = true <-> exists b, s = a +:+ b.
Proof.
  split.
  - revert s. induction a as [|c a IH]; intros s; simpl; [by exists s|].
    destruct s as [|d s]; [done|]. simpl. destruct (ascii_dec c d) as [->|]; [|done].
    intros [b ->]%IH. by exists b.
  - intros [b ->]. apply prefix_app.
Qed.

Lemma Contains_here s sub b : s = sub +:+ b -> Contains s sub = true.
Proof. intros ->. pose proof (prefix_app sub b) as H. destruct (sub +:+ b); cbn [Contains]; by rewrite H. Qed.
Lemma Contains_spec s sub : Contains s sub = true <-> exists a b, s = a +:+ sub +:+ b.
Proof.
  split; [|intros (a & b & ->); induction a as [|c a IH]; [by eapply Contains_here|simpl; by rewrite IH, orb_true_r]].
  induction s as [|c s IH]; cbn [Contains]; intros H; apply orb_true_iff in H as [[b ->]%prefix_spec|H]; [by exists "", b|done|by exists "", b|].
  destruct (IH H) as (a & b & ->). by exists (String c a), b.
Qed.
Lemma Contains_before s b sub : Contains s sub = true -> Contains (s +:+ b) sub = true.
Proof. rewrite !Contains_spec. intros (a & c & ->). exists a, (c +:+ b). by rewrite !string_app_assoc. Qed.
Lemma Contains_after a s sub : Contains s sub = true -> Contains (a +:+ s) sub = true.
Proof. intros H. induction a as [|c a IH]; [done|]. simpl. by rewrite IH, orb_true_r. Qed.

Lemma lacks_Split sep s : lacks sep s = true -> Split sep s = [s].
Proof.
  unfold lacks. induction s as [|c s IH]; simpl; [done|].
  intros H. bool_prop. destruct (Ascii.eqb_spec c sep); [congruence|]. by rewrite IH.
Qed.

Lemma Split_app sep a b :
  lacks sep a = true -> Split sep (a +:+ String sep b) = a :: Split sep b.
Proof.
  unfold lacks. induction a as [|c a IH]; simpl.
  - by rewrite Ascii.eqb_refl.
  - intros H. bool_prop. destruct (Ascii.eqb_spec c sep); [congruence|]. by rewrite IH.
Qed.

Lemma Split_lacks sep s : Forall (fun x => lacks sep x = true) (Split sep s).
Proof.
  induction s as [|c s IH]; simpl; [by repeat constructor|].
  destruct (Ascii.eqb c sep) eqn:E; [by constructor|].
  destruct (Split sep s) as [|h t]; [constructor; [|constructor]|].
  - unfold lacks; simpl. by rewrite E.
  - inversion IH; subst. constructor; [|done]. rewrite lacks_cons, E. done.
Qed.

Lemma Split_nonnil sep s : Split sep s <> [].
Proof. induction s; simpl; [done|]. destruct (Ascii.eqb _ _); [done|]. by destruct (Split sep s). Qed.

(** Joining the pieces with the separator gives the string back. *)
Fixpoint join (sep : string) (l : list string) : string :=
  match l with
  | [] => ""
  | [x] => x
  | x :: l' => x +:+ sep +:+ join sep l'
  end.

Lemma join_Split sep s : join (String sep "") (Split sep s) = s.
Proof.
  induction s as [|c s IH]; [done|]. simpl.
  pose proof (Split_nonnil sep s). destruct (Ascii.eqb_spec c sep); simplify_eq.
  - destruct (Split sep s) as [|h t]; [done|]. by rewrite <- IH.
  - destruct (Split sep s) as [|h [|h' t]]; simpl in *; [done| |]; by rewrite <- IH.
Qed.

Lemma Split_join sep l : l <> [] -> Forall (fun x => lacks sep x = true) l -> Split sep (join (String sep "") l) = l.
Proof.
  intros Hl H. induction l as [|x l IH]; [done|]. apply Forall_cons in H as [Hx H]. destruct l as [|y l]; [by apply lacks_Split|].
  change (join (String sep "") (x :: y :: l)) with (x +:+ String sep (join (String sep "") (y :: l))). by rewrite Split_app, IH.
Qed.

Lemma cut_app sep a b : lacks sep a = true -> cut sep (a +:+ String sep b) = (a, Some b).
Proof.
  unfold lacks. induction a as [|c a IH]; simpl.
  - by rewrite Ascii.eqb_refl.
  - intros H. bool_prop. destruct (Ascii.eqb_spec c sep); [congruence|]. by rewrite IH.
Qed.

(** *** Trim *)

Lemma trim_left_id p s :
  match s with "" => True | String c _ => p c = false end -> trim_left p s = s.
Proof. destruct s; simpl; [done|]. by intros ->. Qed.

Lemma trim_right_last p s c : p c = false -> trim_right p (s +:+ String c "") = s +:+ String c "".
Proof.
  intros Hc. induction s as [|d s IH]; simpl; [by rewrite Hc|].
  rewrite IH. by destruct s.
Qed.

Lemma trim_right_cut p s c : p c = true -> trim_right p (s +:+ String c "") = trim_right p s.
Proof.
  intros Hc. induction s as [|d s IH]; simpl; [by rewrite Hc|]. by rewrite IH.
Qed.

(** A string that begins and ends with bytes outside the cutset is left
    alone by [Trim]. *)
Lemma Trim_id cutset c d s :
  in_set cutset c = false -> in_set cutset d = false ->
  Trim (String c (s +:+ String d "")) cutset = String c (s +:+ String d "").
Proof.
  intros Hc Hd. unfold Trim. rewrite trim_left_id by done.
  change (String c (s +:+ String d "")) with ((String c s) +:+ String d "").
  by rewrite trim_right_last.
Qed.

Lemma trim_right_none p s : sall (fun c => negb (p c)) s = true -> trim_right p s = s.
Proof.
  induction s as [|c s IH]; simpl; [done|]. intros H. bool_prop. rewrite IH by done.
  destruct s; [by rewrite H|done].
Qed.

Lemma Trim_none cutset s :
  sall (fun c => negb (in_set cutset c)) s = true -> Trim s cutset = s.
Proof.
  intros H. unfold Trim. rewrite trim_left_id.
  - by apply trim_right_none.
  - destruct s; [done|]. simpl in H. bool_prop. by rewrite H.
Qed.

(** A text that neither begins nor ends with white space. *)
Definition trimmed (s : string) : bool := (TrimSpace s =? s)%string.

Lemma trim_right_app p a b :
  trim_right p (a +:+ b) = if (trim_right p b =? "")%string then trim_right p a else a +:+ trim_right p b.
Proof.
  induction a as [|c a IH]; simpl; [by destruct (trim_right p b)|]. rewrite IH.
  destruct (String.eqb_spec (trim_right p b) ""); [done|]. by destruct a; simpl; [destruct (trim_right p b)|].
Qed.

Lemma trim_right_length p s : (String.length (trim_right p s) <= String.length s)%nat.
Proof. induction s as [|c s IH]; simpl; [done|]. destruct (trim_right p s); [destruct (p c)|]; simpl in *; lia. Qed.
Lemma trim_left_length p s : (String.length (trim_left p s) <= String.length s)%nat.
Proof. induction s as [|c s IH]; simpl; [done|]. destruct (p c); simpl; lia. Qed.

Lemma trimmed_first c s : trimmed (String c s) = true -> is_space c = false.
Proof.
  unfold trimmed, TrimSpace. intros H%String.eqb_eq. destruct (is_space c) eqn:E; [|done]. simpl in H. rewrite E in H.
  apply (f_equal String.length) in H. pose proof (trim_right_length is_space (trim_left is_space s)).
  pose proof (trim_left_length is_space s). simpl in H. lia.
Qed.

(** What begins and ends as a text does. *)
Lemma TrimSpace_app a b :
  a <> "" -> b <> "" -> trim_left is_space a = a -> trim_right is_space b = b -> TrimSpace (a +:+ b) = a +:+ b.
Proof.
  intros Ha Hb Hl Hr. unfold TrimSpace. destruct a as [|c a]; [done|].
  assert (is_space c = false) as Hc.
  { destruct (is_space c) eqn:E; [|done]. simpl in Hl. rewrite E in Hl. apply (f_equal String.length) in Hl.
    pose proof (trim_left_length is_space a). simpl in Hl. lia. }
  rewrite trim_left_id by done. rewrite trim_right_app, Hr. by destruct b.
Qed.

Lemma trimmed_right s : trimmed s = true -> trim_right is_space s = s.
Proof.
  destruct s as [|c s]; [done|]. intros H. pose proof (trimmed_first _ _ H) as Hc. unfold trimmed in H.
  apply String.eqb_eq in H. unfold TrimSpace in H. by rewrite trim_left_id in H.
Qed.
Lemma trimmed_left s : trimmed s = true -> trim_left is_space s = s.
Proof. destruct s as [|c s]; [done|]. intros H. eapply trim_left_id, trimmed_first, H. Qed.

(** Words are non-empty and have no white space. *)
Definition word (s : string) : bool := negb (s =? "")%string && sall (fun c => negb (is_space c)) s.

Lemma word_trimmed s : word s = true -> trimmed s = true.
Proof.
  unfold word, trimmed, TrimSpace. intros [_ H]%andb_true_iff. rewrite trim_left_id.
  - rewrite trim_right_none by done. apply String.eqb_refl.
  - destruct s; [done|]. cbn [sall] in H. by bool_prop.
Qed.

Lemma fields_go_word cur w s :
  sall (fun c => negb (is_space c)) w = true -> fields_go cur (w +:+ s) = fields_go (cur +:+ w) s.
Proof.
  revert cur. induction w as [|c w IH]; intros cur; cbn [sall]; intros H; [by rewrite string_app_nil_r|].
  bool_prop. change (String c w +:+ s) with (String c (w +:+ s)). cbn [fields_go]. match goal with H : is_space c = false |- _ => rewrite H end.
  rewrite IH by done. by rewrite string_app_assoc.
Qed.

(** Words with one blank between them are the fields of the line. *)
Lemma Fields_join l : Forall (fun w => word w = true) l -> Fields (join " " l) = l.
Proof.
  unfold Fields. induction l as [|w l IH]; [done|]. intros [Hw Hl]%Forall_cons. unfold word in Hw. bool_prop.
  destruct l as [|w' l].
  - cbn [join]. rewrite <- (string_app_nil_r w) at 1. rewrite fields_go_word by done. simpl.
    by destruct (String.eqb_spec w "").
  - change (join " " (w :: w' :: l)) with (w +:+ String " " (join " " (w' :: l))).
    rewrite fields_go_word by done. change ("" +:+ w) with w.
    cbn [fields_go]. change (is_space " ") with true. cbv iota. rewrite IH by done.
    by destruct (String.eqb_spec w "").
Qed.

(** *** Last occurrence of a byte *)

Lemma last_index_byte_lacks c s : lacks c s = true -> last_index_byte c s = None.
Proof.
  unfold lacks. induction s as [|d s IH]; simpl; [done|]. intros H. bool_prop.
  rewrite IH by done. by destruct (Ascii.eqb_spec d c).
Qed.

Lemma last_index_byte_app c a b :
  lacks c b = true -> last_index_byte c (a +:+ String c b) = Some (String.length a).
Proof.
  intros H. induction a as [|d a IH]; simpl.
  - by rewrite (last_index_byte_lacks c b H), Ascii.eqb_refl.
  - by rewrite IH.
Qed.

(** *** Decimal numbers *)

Definition is_digit (c : ascii) : bool := match digit_val c with Some _ => true | None => false end.

Lemma digit_val_char (x : N) : (x < 10)%N -> digit_val (pretty_N_char x) = Some (Z.of_N x).
Proof.
  intros H.
  assert (x = 0 \/ x = 1 \/ x = 2 \/ x = 3 \/ x = 4 \/ x = 5 \/ x = 6 \/ x = 7
    \/ x = 8 \/ x = 9)%N as Hx by lia.
  destruct_or! Hx; subst; reflexivity.
Qed.

Lemma parse_digits_pretty_go maxv (x : N) s :
  Z.of_N x <= maxv ->
  parse_digits maxv 0 (pretty_N_go x s) = parse_digits maxv (Z.of_N x) s.
Proof.
  revert s. induction (N.lt_wf_0 x) as [x _ IH]. intros s Hx.
  destruct (decide (x = 0)%N) as [->|Hne]; [done|].
  rewrite pretty_N_go_step by lia.
  assert (x / 10 < x)%N as Hlt by (apply N.div_lt; lia).
  rewrite IH by (done || lia). simpl.
  pose proof (N.mod_lt x 10) as Hm.
  rewrite digit_val_char by lia.
  replace (Z.of_N (x / 10) * 10 + Z.of_N (x `mod` 10)) with (Z.of_N x)
    by (pose proof (N.div_mod x 10); lia).
  destruct (Z.gtb_spec (Z.of_N x) maxv); [lia|done].
Qed.

Lemma pretty_N_go_nonempty x s : (0 < x)%N \/ s <> "" -> pretty_N_go x s <> "".
Proof.
  revert s. induction (N.lt_wf_0 x) as [x _ IH]. intros s H.
  destruct (decide (x = 0)%N) as [->|Hne]; [rewrite pretty_N_go_0; naive_solver lia|].
  rewrite pretty_N_go_step by lia. apply IH; [apply N.div_lt; lia|by right].
Qed.

Lemma pretty_N_go_all p x s :
  (forall y, (y < 10)%N -> p (pretty_N_char y) = true) ->
  sall p s = true -> sall p (pretty_N_go x s) = true.
Proof.
  intros Hp. revert s. induction (N.lt_wf_0 x) as [x _ IH]. intros s Hs.
  destruct (decide (x = 0)%N) as [->|Hne]; [done|].
  rewrite pretty_N_go_step by lia. apply IH; [apply N.div_lt; lia|].
  simpl. rewrite Hs, Hp by (apply N.mod_lt; lia). done.
Qed.

Lemma pretty_N_nonempty (x : N) : pretty x <> "".
Proof.
  unfold pretty, pretty_N. case_decide; [done|]. apply pretty_N_go_nonempty. lia.
Qed.

Lemma pretty_N_digits (x : N) : sall is_digit (pretty x) = true.
Proof.
  unfold pretty, pretty_N. case_decide; [done|].
  apply pretty_N_go_all; [|done]. intros y Hy. unfold is_digit. by rewrite digit_val_char.
Qed.

Lemma parse_uint_pretty maxv (x : N) :
  Z.of_N x <= maxv -> parse_uint maxv (pretty x) = inl (Z.of_N x).
Proof.
  intros Hx. pose proof (pretty_N_nonempty x) as Hne.
  assert (parse_digits maxv 0 (pretty x) = inl (Z.of_N x)) as Hp.
  { unfold pretty, pretty_N. case_decide as H0.
    - subst. change (parse_digits maxv 0 "0") with
        (if 0 >? maxv then inr ErrRange else inl 0 : Z + num_error).
      by destruct (Z.gtb_spec 0 maxv); [lia|].
    - by rewrite parse_digits_pretty_go. }
  unfold parse_uint. by destruct (pretty x).
Qed.

Lemma parse_digits_bound maxv acc s n :
  parse_digits maxv acc s = inl n -> 0 <= acc <= maxv -> 0 <= n <= maxv.
Proof.
  revert acc. induction s as [|c s IH]; intros acc; simpl; [naive_solver|].
  unfold digit_val. destruct (_ && _) eqn:E; [|done]. apply andb_true_iff in E as [E1 E2].
  apply Z.leb_le in E1, E2.
  destruct (Z.gtb_spec (acc * 10 + (Z.of_nat (Ascii.nat_of_ascii c) - 48)) maxv); [done|].
  intros Hp Ha. eapply IH; [exact Hp|]. lia.
Qed.

Lemma parse_uint_bound maxv s n : 0 <= maxv -> parse_uint maxv s = inl n -> 0 <= n <= maxv.
Proof. intros Hm. destruct s; [done|]. intros H. eapply parse_digits_bound; [exact H|lia]. Qed.

Lemma ParseUint_ok bits (x : N) :
  Z.of_N x < 2 ^ bits -> ParseUint (pretty x) bits = (Z.of_N x, None).
Proof. intros H. unfold ParseUint. rewrite parse_uint_pretty by lia. done. Qed.

Lemma ParseUint_bound s bits : 0 <= bits -> 0 <= (ParseUint s bits).1 <= 2 ^ bits - 1.
Proof.
  intros Hb. unfold ParseUint.
  pose proof (Z.pow_pos_nonneg 2 bits).
  destruct (parse_uint _ s) as [n|[]] eqn:E; simpl; [|lia|lia].
  apply parse_uint_bound in E; lia.
Qed.

Lemma itoa_pos p : itoa (Z.pos p) = pretty (N.pos p).
Proof. done. Qed.

Lemma itoa_neg p : itoa (Z.neg p) = "-" +:+ pretty (N.pos p).
Proof. done. Qed.

Lemma Atoi_digits s :
  sall is_digit s = true ->
  Atoi s = match parse_uint (2 ^ 64 - 1) s with
           | inr e => Err (NumError "Atoi" s e)
           | inl un => if un >=? 2 ^ 63 then Err (NumError "Atoi" s ErrRange) else Ok un
           end.
Proof.
  intros H. unfold Atoi. destruct s as [|c s']; [done|]. simpl in H. bool_prop.
  by destruct c as [[] [] [] [] [] [] [] []].
Qed.

Lemma Atoi_result s : (exists n, Atoi s = Ok n) \/ (exists e, Atoi s = Err e).
Proof. unfold Atoi. repeat case_match; eauto. Qed.

(** [Atoi] reads back what [Sprintf("%v")] prints. *)
Lemma Atoi_itoa x : in_int64 x -> Atoi (itoa x) = Ok x.
Proof.
  unfold in_int64, min_int64, max_int64. intros Hx.
  destruct x as [|p|p]; [done| |].
  - rewrite itoa_pos, Atoi_digits by apply pretty_N_digits. rewrite parse_uint_pretty by lia.
    simpl. by destruct (Z.geb_spec (Z.pos p) (2 ^ 63)); [lia|].
  - rewrite itoa_neg. unfold Atoi. cbn -[parse_uint Z.pow NumError].
    rewrite parse_uint_pretty by lia. change (Z.of_N (N.pos p)) with (Z.pos p).
    by destruct (Z.gtb_spec (Z.pos p) (2 ^ 63)); [lia|].
Qed.

Lemma itoa_all p x :
  p "-"%char = true -> (forall c, is_digit c = true -> p c = true) -> sall p (itoa x) = true.
Proof.
  intros Hm Hd. destruct x as [|q|q].
  - cbn. by rewrite Hd.
  - rewrite itoa_pos. eapply sall_impl; [exact Hd|]. apply pretty_N_digits.
  - rewrite itoa_neg. simpl. rewrite Hm. eapply sall_impl; [exact Hd|]. apply pretty_N_digits.
Qed.

Lemma itoa_nonneg x : 0 <= x -> itoa x = pretty (Z.to_N x).
Proof. destruct x as [|p|p]; intros; [done|by rewrite itoa_pos|lia]. Qed.

(** *** net.SplitHostPort *)

(** A host that needs no brackets in front of a port. *)
Definition plain_host (h : string) : bool := lacks ":" h && lacks "[" h && lacks "]" h.

Lemma digits_plain (n : N) :
  lacks ":" (pretty n) = true /\ lacks "[" (pretty n) = true /\ lacks "]" (pretty n) = true.
Proof.
  repeat split; (eapply sall_impl; [|apply pretty_N_digits]);
    intros c; unfold is_digit; by destruct c as [[] [] [] [] [] [] [] []].
Qed.

(** A host and a port free of [:], [[] and []] are found again in
    [host:port]. *)
Lemma SplitHostPort_join host port :
  lacks ":" host = true -> lacks "[" host = true -> lacks "]" host = true ->
  lacks ":" port = true -> lacks "[" port = true -> lacks "]" port = true ->
  SplitHostPort (host +:+ String ":" port) = Ok (host, port).
Proof.
  intros. unfold SplitHostPort. rewrite last_index_byte_app by done.
  assert (stake (String.length host) (host +:+ String ":" port) = host) as Hst by apply stake_app.
  assert (sdrop (S (String.length host)) (host +:+ String ":" port) = port) as Hsd.
  { clear. induction host; simpl in *; done. }
  assert (negb (lacks "[" (host +:+ String ":" port)) = false) as Hl.
  { rewrite lacks_app, lacks_cons. by repeat match goal with H : lacks _ _ = true |- _ => rewrite H; clear H end. }
  assert (negb (lacks "]" (host +:+ String ":" port)) = false) as Hr.
  { rewrite lacks_app, lacks_cons. by repeat match goal with H : lacks _ _ = true |- _ => rewrite H; clear H end. }
  set (hp := host +:+ String ":" port) in *.
  assert (forall b, hp <> String "[" b) as Hnb.
  { intros b Hb. rewrite Hb in Hl. discriminate. }
  destruct hp as [|c hp'] eqn:Ehp.
  - by destruct host.
  - assert (c <> "["%char) as Hc by (intros ->; by apply (Hnb hp')).
    destruct c as [[] [] [] [] [] [] [] []]; try done;
      rewrite Hst; match goal with H : lacks ":" host = true |- _ => rewrite H end;
      change (sdrop 0 ?s) with s; rewrite Hl, Hr, Hsd; done.
Qed.
