(* ===== verification/NetIP.v ===== *)
(** IP addresses as the net package of Go reads and prints them: what tcpip.go of
    the ssh library uses of it. An address is the eight groups of its sixteen
    bytes; one of version 4 is kept in the last two, as [net.IPv4] does. *)
From S2P Require Import Prelude.
From S2P Require Import GoStrings.

(** ** Numbers *)

Definition hex_val (c : ascii) : option Z :=
  let n := Z.of_nat (nat_of_ascii c) in
  if (48 <=? n) && (n <=? 57) then Some (n - 48)
  else if (97 <=? n) && (n <=? 102) then Some (n - 87)
  else if (65 <=? n) && (n <=? 70) then Some (n - 55)
  else None.

Definition big : Z := 0xFFFFFF.

(** The digits at the start of a text, and the rest; too many are refused. *)
Fixpoint digits_go (digit : ascii -> option Z) (base n : Z) (s : string) : option (Z * string) :=
  match s with
  | "" => Some (n, "")
  | String c r =>
      match digit c with
      | None => Some (n, s)
      | Some d => let n := n * base + d in if big <=? n then None else digits_go digit base n r
      end
  end.
Definition number (digit : ascii -> option Z) (base : Z) (s : string) : option (Z * string) :=
  match s with
  | "" => None
  | String c _ => match digit c with None => None | Some _ => digits_go digit base 0 s end
  end.
Definition dtoi : string -> option (Z * string) := number digit_val 10.
Definition xtoi : string -> option (Z * string) := number hex_val 16.

(** ** Reading *)

Definition IP := list Z.
Definition v4InV6Prefix : list Z := [0; 0; 0; 0; 0; 0xFFFF].
Definition IPv4 (a b c d : Z) : IP := v4InV6Prefix ++ [a * 256 + b; c * 256 + d].

(** [n] more bytes in decimal; all but the first of an address follow a dot. *)
Fixpoint ipv4_go (n : nat) (dot : bool) (s : string) : option (list Z * string) :=
  match n with
  | O => Some ([], s)
  | S n =>
      s ← (if dot then match s with String "." r => Some r | _ => None end else Some s);
      '(x, r) ← dtoi s;
      if 0xFF <? x then None else '(xs, r) ← ipv4_go n true r; Some (x :: xs, r)
  end.
Definition parseIPv4 (s : string) : option IP :=
  match ipv4_go 4 false s with
  | Some ([a; b; c; d], "") => Some (IPv4 a b c d)
  | _ => None
  end.

(** The groups that are read, where the ellipsis stands, what is left. *)
Definition groups := (list Z * option nat * string)%type.

Fixpoint ipv6_go (fuel : nat) (acc : list Z) (ellipsis : option nat) (s : string) : option groups :=
  match fuel with
  | O => Some (acc, ellipsis, s)
  | S fuel =>
      '(n, rest) ← xtoi s;
      if 0xFFFF <? n then None
      else
        match rest with
        | "" => Some (acc ++ [n], ellipsis, "")
        | String c s1 =>
            if Ascii.eqb c "." then
              if (match ellipsis with None => negb (List.length acc =? 6)%nat | _ => false end) || (6 <? List.length acc)%nat then None
              else ip4 ← parseIPv4 s; Some (acc ++ drop 6 ip4, ellipsis, "")
            else
              let acc := acc ++ [n] in
              if negb (Ascii.eqb c ":") then None
              else
                match s1 with
                | "" => None
                | String c s2 =>
                    if Ascii.eqb c ":" then
                      match ellipsis with
                      | Some _ => None
                      | None =>
                          if (s2 =? "")%string then Some (acc, Some (List.length acc), "") else ipv6_go fuel acc (Some (List.length acc)) s2
                      end
                    else ipv6_go fuel acc ellipsis s1
                end
        end
  end.

Definition expand (g : groups) : option IP :=
  match g with
  | (l, ellipsis, "") =>
      if (List.length l <? 8)%nat then
        match ellipsis with
        | None => None
        | Some e => Some (take e l ++ repeat 0 (8 - List.length l) ++ drop e l)
        end
      else match ellipsis with None => Some l | Some _ => None end
  | _ => None
  end.

Definition parseIPv6 (s : string) : option IP :=
  if HasPrefix s "::" then
    let r := sdrop 2 s in if (r =? "")%string then Some (repeat 0 8) else ipv6_go 8 [] (Some 0%nat) r ≫= expand
  else ipv6_go 8 [] None s ≫= expand.

(** The first dot or colon tells the version. *)
Fixpoint version (s : string) : option bool :=
  match s with
  | "" => None
  | String c r => if Ascii.eqb c "." then Some false else if Ascii.eqb c ":" then Some true else version r
  end.
Definition ParseIP (s : string) : option IP :=
  match version s with None => None | Some false => parseIPv4 s | Some true => parseIPv6 s end.

(** ** Printing *)

Definition hex_digit (d : Z) : ascii := ascii_of_nat (Z.to_nat (if d <? 10 then d + 48 else d + 87)).
Definition hex (n : Z) : string :=
  let d i := hex_digit (Z.land (Z.shiftr n i) 15) in
  if n <? 16 then String (d 0) ""
  else if n <? 256 then String (d 4) (String (d 0) "")
  else if n <? 4096 then String (d 8) (String (d 4) (String (d 0) ""))
  else String (d 12) (String (d 8) (String (d 4) (String (d 0) ""))).

(** The number of groups at the start that are 0. *)
Fixpoint zeros (l : list Z) : nat := match l with 0 :: l => S (zeros l) | _ => O end.

(** The first of the longest runs of groups that are 0, and its length: [i] is the
    place of [l]. A run is skipped with the group after it, which is not 0. *)
Fixpoint zero_run (fuel i : nat) (l : list Z) (best : nat * nat) : nat * nat :=
  match fuel, l with
  | S fuel, _ :: tl =>
      let n := zeros l in
      if (best.2 <? n)%nat then zero_run fuel (i + n + 1) (drop (n + 1) l) (i, n)
      else zero_run fuel (i + 1) tl best
  | _, _ => best
  end.

Definition ipv4_text (a b c d : Z) : string := itoa a +:+ String "." (itoa b +:+ String "." (itoa c +:+ String "." (itoa d))).
Definition ipv6_text (l : IP) : string :=
  let '(e, n) := zero_run 8 0 l (0%nat, 0%nat) in
  if (n <=? 1)%nat then join ":" (hex <$> l) else join ":" (hex <$> take e l) +:+ String ":" (String ":" (join ":" (hex <$> drop (e + n) l))).
Definition IP_String (ip : IP) : string :=
  if bool_decide (take 6 ip = v4InV6Prefix) then
    match drop 6 ip with
    | [x; y] => ipv4_text (x / 256) (x mod 256) (y / 256) (y mod 256)
    | _ => ipv6_text ip
    end
  else ipv6_text ip.

Example ip_texts :
  IP_String [0x2001; 0xdb8; 0; 0; 1; 0; 0; 1] = "2001:db8::1:0:0:1" /\ IP_String [0; 0; 0; 0; 0; 0; 0; 1] = "::1" /\
  IP_String (IPv4 10 0 0 7) = "10.0.0.7" /\ IP_String (repeat 0 8) = "::" /\ ParseIP "::ffff:10.0.0.7" = Some (IPv4 10 0 0 7) /\
  ParseIP "1:2:3:4:5:6:7:8:9" = None /\ ParseIP "1::2::3" = None /\ ParseIP "localhost" = None /\ IP_String [1; 0; 2; 3; 4; 5; 6; 7] = "1:0:2:3:4:5:6:7".
Proof. vm_compute. by split_and!. Qed.

(** ** What is printed is read *)

(** What may follow a number. *)
Definition ends_with (digit : ascii -> option Z) (r : string) : Prop :=
  match r with "" => True | String c _ => digit c = None end.

Lemma digits_go_end digit base n r : ends_with digit r -> digits_go digit base n r = Some (n, r).
Proof. destruct r as [|c r]; [done|]. simpl. by intros ->. Qed.

Lemma dtoi_itoa (n : nat) r : (n < 256)%nat -> ends_with digit_val r -> dtoi (itoa (Z.of_nat n) +:+ r) = Some (Z.of_nat n, r).
Proof.
  intros Hn Hr. pose proof (digits_go_end digit_val 10 (Z.of_nat n) r Hr) as HE. revert HE.
  do 256 (destruct n as [|n]; [intros HE; exact HE|]). lia.
Qed.

Lemma byte_read x r : 0 <= x < 256 -> ends_with digit_val r -> dtoi (itoa x +:+ r) = Some (x, r).
Proof. intros Hx Hr. pose proof (dtoi_itoa (Z.to_nat x) r ltac:(lia) Hr) as H. by rewrite Z2Nat.id in H by lia. Qed.

Lemma parseIPv4_text a b c d :
  0 <= a < 256 -> 0 <= b < 256 -> 0 <= c < 256 -> 0 <= d < 256 -> parseIPv4 (ipv4_text a b c d) = Some (IPv4 a b c d).
Proof.
  intros Ha Hb Hc Hd. unfold parseIPv4, ipv4_text. cbn [ipv4_go mbind option_bind].
  do 3 (rewrite byte_read by done; cbn [mbind option_bind]; rewrite (proj2 (Z.ltb_ge _ _)) by lia; cbn [mbind option_bind]).
  rewrite <- (string_app_nil_r (itoa d)), byte_read by done. cbn [mbind option_bind]. by rewrite (proj2 (Z.ltb_ge _ _)) by lia.
Qed.

Lemma hex_digit_val d : 0 <= d < 16 -> hex_val (hex_digit d) = Some d.
Proof.
  intros H. assert (Forall (fun k => hex_val (hex_digit (Z.of_nat k)) = Some (Z.of_nat k)) (seq 0 16)) as HF by (repeat constructor).
  rewrite Forall_forall in HF. specialize (HF (Z.to_nat d)). rewrite Z2Nat.id in HF by lia. apply HF. apply elem_of_seq. lia.
Qed.

Lemma nibble n i : 0 <= Z.land (Z.shiftr n i) 15 < 16.
Proof. change 15 with (Z.ones 4). rewrite Z.land_ones by lia. apply Z.mod_pos_bound. lia. Qed.

Lemma digits_go_step digit base n c d r :
  digit c = Some d -> n * base + d < big -> digits_go digit base n (String c r) = digits_go digit base (n * base + d) r.
Proof. intros Hc Hb. cbn [digits_go]. rewrite Hc. by rewrite (proj2 (Z.leb_gt _ _)). Qed.

Lemma hex_read n r : 0 <= n < 2 ^ 16 -> ends_with hex_val r -> xtoi (hex n +:+ r) = Some (n, r).
Proof.
  intros Hn Hr. unfold hex. set (d := fun i => Z.land (Z.shiftr n i) 15).
  assert (forall i, hex_val (hex_digit (d i)) = Some (d i)) as Hd by (intros; apply hex_digit_val, nibble).
  assert (forall i, 0 <= d i < 16) as Hr16 by (intros; apply nibble).
  assert (forall i, 0 <= i -> d i = (n / 2 ^ i) mod 16) as He.
  { intros i Hi. unfold d. change 15 with (Z.ones 4). rewrite Z.land_ones, Z.shiftr_div_pow2 by lia. done. }
  pose proof (He 0 ltac:(lia)) as H0. pose proof (He 4 ltac:(lia)) as H4. pose proof (He 8 ltac:(lia)) as H8. pose proof (He 12 ltac:(lia)) as H12.
  pose proof (Hr16 0). pose proof (Hr16 4). pose proof (Hr16 8). pose proof (Hr16 12).
  change (2 ^ 0) with 1 in H0. change (2 ^ 4) with 16 in H4. change (2 ^ 8) with 256 in H8. change (2 ^ 12) with 4096 in H12. change (2 ^ 16) with 65536 in Hn.
  unfold xtoi, number. fold (d 0) (d 4) (d 8) (d 12).
  assert (forall i s, digits_go hex_val 16 0 (String (hex_digit (d i)) s) = digits_go hex_val 16 (d i) s) as Hfirst.
  { intros i s. rewrite (digits_go_step _ _ _ _ (d i)); [f_equal; lia|done|unfold big; specialize (Hr16 i); lia]. }
  destruct (Z.ltb_spec n 16); [|destruct (Z.ltb_spec n 256); [|destruct (Z.ltb_spec n 4096)]]; cbn [String.append]; rewrite Hd, Hfirst;
    repeat (rewrite (digits_go_step _ _ _ _ _ _ (Hd _)) by (unfold big; lia)); rewrite digits_go_end by done; do 2 f_equal; clear Hfirst Hd Hr16 He Hr; clearbody d; Z.div_mod_to_equations; lia.
Qed.

(** *** Version 6 *)

Definition group_ok (n : Z) : Prop := 0 <= n < 2 ^ 16.
Definition hexes (l : list Z) : string := join ":" (hex <$> l).

Lemma hex_head n : 0 <= n < 2 ^ 16 -> exists c t d, hex n = String c t /\ hex_val c = Some d.
Proof.
  intros Hn. pose proof (hex_read n "" Hn I) as H. rewrite string_app_nil_r in H. unfold xtoi, number in H.
  destruct (hex n) as [|c t]; [done|]. exists c, t. destruct (hex_val c) as [d|]; [|done]. by exists d.
Qed.

Lemma hex_not_sep c d : hex_val c = Some d -> Ascii.eqb c ":" = false /\ Ascii.eqb c "." = false.
Proof. intros H. split; (destruct (Ascii.eqb_spec c ":") as [->|]; [discriminate|]) || idtac; try done. by destruct (Ascii.eqb_spec c ".") as [->|]. Qed.

Lemma hexes_head n l : group_ok n -> exists c t, hexes (n :: l) = String c t /\ Ascii.eqb c ":" = false.
Proof.
  intros H. destruct (hex_head n H) as (c & t & d & E & Hd). unfold hexes. rewrite fmap_cons. cbn [join]. rewrite E.
  destruct (hex <$> l); eexists c, _; (split; [reflexivity|]); by apply (hex_not_sep c d).
Qed.

(** The groups up to a text [tl] that does not begin with a digit. *)
Lemma ipv6_go_one fuel acc e n s :
  group_ok n -> ipv6_go (S fuel) acc e (hex n +:+ String ":" s) =
    match s with
    | "" => None
    | String c s2 =>
        if Ascii.eqb c ":" then
          match e with
          | Some _ => None
          | None => if (s2 =? "")%string then Some (acc ++ [n], Some (List.length (acc ++ [n])), "")
                    else ipv6_go fuel (acc ++ [n]) (Some (List.length (acc ++ [n]))) s2
          end
        else ipv6_go fuel (acc ++ [n]) e s
    end.
Proof.
  intros Hn. cbn [ipv6_go]. rewrite hex_read by done. cbn [mbind option_bind]. rewrite (proj2 (Z.ltb_ge _ _)) by (unfold group_ok in Hn; lia).
  done.
Qed.

Lemma ipv6_go_last fuel acc e n : group_ok n -> ipv6_go (S fuel) acc e (hex n) = Some (acc ++ [n], e, "").
Proof.
  intros Hn. cbn [ipv6_go]. rewrite <- (string_app_nil_r (hex n)), hex_read by done. cbn [mbind option_bind].
  by rewrite (proj2 (Z.ltb_ge _ _)) by (unfold group_ok in Hn; lia).
Qed.

Lemma ipv6_go_groups l : forall fuel acc e,
  Forall group_ok l -> l <> [] -> (List.length l <= fuel)%nat -> ipv6_go fuel acc e (hexes l) = Some (acc ++ l, e, "").
Proof.
  induction l as [|n [|m l] IH]; intros fuel acc e HF Hne Hf; [done| |]; apply Forall_cons in HF as [Hn HF]; destruct fuel as [|fuel]; simpl in Hf; try lia.
  - by apply ipv6_go_last.
  - change (hexes (n :: m :: l)) with (hex n +:+ String ":" (hexes (m :: l))). rewrite ipv6_go_one by done.
    destruct (hexes_head m l) as (c & t & E & Hc); [by apply Forall_cons in HF as [? _]|]. rewrite E, Hc, <- E, IH by (done || simpl; lia).
    by rewrite <- app_assoc.
Qed.

Lemma ipv6_go_ellipsis l r : forall fuel acc,
  Forall group_ok l -> l <> [] -> (List.length l <= fuel)%nat ->
  ipv6_go fuel acc None (hexes l +:+ String ":" (String ":" r)) =
    if (r =? "")%string then Some (acc ++ l, Some (List.length (acc ++ l)), "")
    else ipv6_go (fuel - List.length l) (acc ++ l) (Some (List.length (acc ++ l))) r.
Proof.
  induction l as [|n [|m l] IH]; intros fuel acc HF Hne Hf; [done| |]; apply Forall_cons in HF as [Hn HF]; destruct fuel as [|fuel]; simpl in Hf; try lia.
  - change (hexes [n]) with (hex n). rewrite ipv6_go_one by done. change (Ascii.eqb ":" ":") with true. cbn iota.
    change (List.length [n]) with 1%nat. by replace (S fuel - 1)%nat with fuel by lia.
  - change (hexes (n :: m :: l)) with (hex n +:+ String ":" (hexes (m :: l))). rewrite string_app_assoc. cbn [String.append]. rewrite ipv6_go_one by done.
    destruct (hexes_head m l) as (c & t & E & Hc); [by apply Forall_cons in HF as [? _]|].
    rewrite E. cbn [String.append]. rewrite Hc. change (String c (t +:+ ?x)) with (String c t +:+ x). rewrite <- E, IH by (done || simpl; lia).
    rewrite <- app_assoc. by change (S fuel - List.length (n :: m :: l))%nat with (fuel - List.length (m :: l))%nat.
Qed.

Lemma zeros_spec l : take (zeros l) l = repeat 0 (zeros l) /\ (zeros l <= List.length l)%nat.
Proof. induction l as [|[| |] l [IH1 IH2]]; simpl; try (split; [done|lia]). split; [by rewrite IH1|lia]. Qed.

(** A run of groups that are 0. *)
Definition run_of (l : list Z) (r : nat * nat) : Prop := take r.2 (drop r.1 l) = repeat 0 r.2 /\ (r.1 + r.2 <= List.length l)%nat.

Lemma zero_run_spec fuel i full best : run_of full best -> run_of full (zero_run fuel i (drop i full) best).
Proof.
  revert i best. induction fuel as [|fuel IH]; intros i best Hb; [done|]. cbn [zero_run].
  destruct (drop i full) as [|g tl] eqn:E; [done|]. assert (List.length full = i + S (List.length tl))%nat as Hl.
  { assert (List.length (drop i full) = S (List.length tl)) as H by by rewrite E. rewrite length_drop in H. lia. }
  destruct (zeros_spec (g :: tl)) as [Z1 Z2]. destruct (best.2 <? zeros (g :: tl))%nat.
  - rewrite <- E, drop_drop, Nat.add_assoc. apply IH. rewrite E. split; cbn [fst snd]; [by rewrite E|simpl List.length in Z2; lia].
  - assert (drop (i + 1) full = tl) as <- by (rewrite <- drop_drop, E; reflexivity). by apply IH.
Qed.

(** *** Both versions *)

Definition no_sep (c : ascii) : bool := negb (Ascii.eqb c ".") && negb (Ascii.eqb c ":").

Lemma version_app s c r : sall no_sep s = true -> version (s +:+ String c r) = version (String c r).
Proof.
  intros H. induction s as [|d s IH]; [done|]. cbn [sall] in H. apply andb_prop in H as [H1 H2]. unfold no_sep in H1.
  apply andb_prop in H1 as [H0 H1]. apply negb_true_iff in H0, H1. cbn [String.append version]. rewrite H0, H1. by apply IH.
Qed.

Lemma hex_no_sep n : sall no_sep (hex n) = true.
Proof.
  assert (forall i, no_sep (hex_digit (Z.land (Z.shiftr n i) 15)) = true) as Hd.
  { intros i. pose proof (hex_digit_val _ (nibble n i)) as H. apply hex_not_sep in H as [H1 H2]. unfold no_sep. by rewrite H1, H2. }
  unfold hex. repeat case_match; cbn [sall]; by rewrite ?Hd.
Qed.

Lemma byte_no_sep x : 0 <= x < 256 -> sall no_sep (itoa x) = true.
Proof.
  intros H. assert (Forall (fun k => sall no_sep (itoa (Z.of_nat k)) = true) (seq 0 256)) as HF by (apply Forall_forall; apply Forall_forall; repeat constructor).
  rewrite Forall_forall in HF. specialize (HF (Z.to_nat x)). rewrite Z2Nat.id in HF by lia. apply HF. apply elem_of_seq. lia.
Qed.

Lemma hexes_nil l : Forall group_ok l -> (hexes l =? "")%string = bool_decide (l = []).
Proof. intros H. destruct l as [|n l]; [done|]. apply Forall_cons in H as [H _]. destruct (hexes_head n l H) as (c & t & -> & _). done. Qed.

Lemma hexes_prefix n l tl : group_ok n -> HasPrefix (hexes (n :: l) +:+ tl) "::" = false.
Proof.
  intros H. destruct (hexes_head n l H) as (c & t & -> & Hc). unfold HasPrefix. cbn [String.append String.prefix].
  destruct (ascii_dec ":" c) as [<-|]; [discriminate|done].
Qed.

Lemma expand_full l : List.length l = 8%nat -> expand (l, None, "") = Some l.
Proof. intros H. unfold expand. by rewrite H. Qed.
Lemma expand_run xs n ys :
  (0 < n)%nat -> (List.length xs + n + List.length ys = 8)%nat ->
  expand (xs ++ ys, Some (List.length xs), "") = Some (xs ++ repeat 0 n ++ ys).
Proof.
  intros Hn Hl. unfold expand. rewrite length_app. rewrite (proj2 (Nat.ltb_lt _ _)) by lia. rewrite take_app_length, drop_app_length.
  by replace (8 - (List.length xs + List.length ys))%nat with n by lia.
Qed.

(** The text with the run [n] of groups between [xs] and [ys] left out. *)
Lemma parseIPv6_run xs n ys :
  Forall group_ok xs -> Forall group_ok ys -> (0 < n)%nat -> (List.length xs + n + List.length ys = 8)%nat ->
  parseIPv6 (hexes xs +:+ String ":" (String ":" (hexes ys))) = Some (xs ++ repeat 0 n ++ ys).
Proof.
  intros Hx Hy Hn Hl. rewrite <- (expand_run xs n ys) by done. unfold parseIPv6. destruct xs as [|x xs].
  - change (HasPrefix (hexes [] +:+ _) "::") with (HasPrefix (hexes ys) ""). assert (forall s, HasPrefix s "" = true) as -> by (by intros []).
    change (sdrop 2 _) with (hexes ys). rewrite hexes_nil by done. case_bool_decide as Hys.
    + subst ys. simpl in Hl. by replace n with 8%nat by lia.
    + rewrite ipv6_go_groups by (done || simpl in Hl; lia). done.
  - rewrite hexes_prefix by (by apply Forall_cons in Hx as [? _]). rewrite ipv6_go_ellipsis by (done || lia).
    rewrite hexes_nil by done. case_bool_decide as Hys; [subst ys; by rewrite !app_nil_r|].
    by rewrite ipv6_go_groups by (done || lia).
Qed.

Lemma parseIPv6_text l : List.length l = 8%nat -> Forall group_ok l -> parseIPv6 (ipv6_text l) = Some l.
Proof.
  intros Hl HF. unfold ipv6_text. pose proof (zero_run_spec 8 0 l (0%nat, 0%nat)) as HR. rewrite drop_0 in HR.
  destruct (zero_run 8 0 l (0%nat, 0%nat)) as [e n]. destruct HR as [HR Hen]; [split; [done|simpl; lia]|]. cbn [fst snd] in HR, Hen.
  destruct (Nat.leb_spec n 1).
  - fold (hexes l). unfold parseIPv6. destruct l as [|g l]; [done|]. pose proof (proj1 (proj1 (Forall_cons _ _ _) HF)) as Hg.
    pose proof (hexes_prefix g l "" Hg) as HP. rewrite string_app_nil_r in HP. rewrite HP, ipv6_go_groups by (done || lia). by apply expand_full.
  - fold (hexes (take e l)) (hexes (drop (e + n) l)). rewrite (parseIPv6_run _ n).
    + f_equal. rewrite <- HR. rewrite <- drop_drop. by rewrite take_drop, take_drop.
    + by apply Forall_take.
    + by apply Forall_drop.
    + lia.
    + rewrite length_take, length_drop. lia.
Qed.

Lemma ipv6_version l : List.length l = 8%nat -> version (ipv6_text l) = Some true.
Proof.
  intros Hl. unfold ipv6_text. assert (forall g h t tl, version (hexes (g :: h :: t) +:+ tl) = Some true) as HV.
  { intros g h t tl. change (hexes (g :: h :: t)) with (hex g +:+ String ":" (hexes (h :: t))). rewrite string_app_assoc. cbn [String.append].
    by rewrite version_app by apply hex_no_sep. }
  destruct (zero_run 8 0 l (0%nat, 0%nat)) as [e n]. destruct (n <=? 1)%nat.
  - destruct l as [|g [|h l]]; [done..|]. rewrite <- (string_app_nil_r (join _ _)). apply HV.
  - fold (hexes (take e l)). destruct (take e l) as [|g [|h t]]; [done| |apply HV].
    change (hexes [g]) with (hex g). by rewrite version_app by apply hex_no_sep.
Qed.

(** An address that is printed is read back. *)
Lemma ParseIP_String l : List.length l = 8%nat -> Forall group_ok l -> ParseIP (IP_String l) = Some l.
Proof.
  intros Hl HF. assert (forall m, m = l -> ParseIP (ipv6_text m) = Some l) as H6.
  { intros m ->. unfold ParseIP. by rewrite ipv6_version, parseIPv6_text. }
  unfold IP_String. case_bool_decide as H4; [|by apply H6]. rewrite <- (take_drop 6 l) in Hl, HF |- *. rewrite H4 in *.
  destruct (drop 6 l) as [|x [|y [|z t]]] eqn:E; try done. change (drop 6 (v4InV6Prefix ++ [x; y])) with [x; y]. cbn iota.
  apply Forall_app in HF as [_ [Hx [Hy _]%Forall_cons]%Forall_cons]. unfold group_ok in Hx, Hy. change (2 ^ 16) with 65536 in *.
  assert (forall z, 0 <= z < 65536 -> 0 <= z / 256 < 256 /\ 0 <= z mod 256 < 256 /\ z / 256 * 256 + z mod 256 = z) as HB.
  { intros z Hz. Z.div_mod_to_equations. lia. }
  destruct (HB x Hx) as (X1 & X2 & X3), (HB y Hy) as (Y1 & Y2 & Y3). unfold ParseIP, ipv4_text at 1.
  rewrite version_app by by apply byte_no_sep. change (version (String "." _)) with (Some false). cbn iota.
  rewrite parseIPv4_text by done. unfold IPv4. by rewrite X3, Y3.
Qed.
