(* ===== verification/Config.v ===== *)
(** Configuration (config.go, mailgun.go): tunnel endpoints and their
    parser, the [KEY=value] configuration file reader and writer, the
    command-line defaults and the validation of a configuration. *)
From S2P Require Import Prelude.
From S2P Require Import GoStrings.

(** ** Data *)

(** One end of a tunnel (config.go, [AddrHostPort]). *)
Record AddrHostPort := mkAddr {
  Title : string;
  Addr : string;
  Host : string;
  Port : Z;
  UnixDomainPath : string;
  Required : bool;
}.

(** A forward or a reverse tunnel. *)
Record TunnelSpec := mkTunnel { Listen : AddrHostPort; Remote : AddrHostPort }.

(** mailgun.go, [MailgunConfig]. *)
Record MailgunConfig := mkMail {
  Domain : string;
  PublicApiKey : string;
  SecretApiKey : string;
}.

(** The fields of [SshegoConfig] that the flags, the configuration file and
    the validation read or write. *)
Record SshegoConfig := mkCfg {
  ConfigPath : string;
  SSHdServer : AddrHostPort;
  LocalToRemote : TunnelSpec;
  RemoteToLocal : TunnelSpec;
  Debug : bool;
  AddIfNotKnown : bool;
  Username : string;
  PrivateKeyPath : string;
  ClientKnownHostsPath : string;
  WriteConfigOut : string;
  WriteConfigOnly : bool;
  Quiet : bool;
  EmbeddedSSHdHostDbPath : string;
  EmbeddedSSHd : AddrHostPort;
  AddUserFlag : string;
  DelUserFlag : string;
  SshegoSystemMutexPortString : string;
  SshegoSystemMutexPort : Z;
  MailCfg : MailgunConfig;
  SkipTOTP : bool;
  SkipPassphrase : bool;
  SkipRSA : bool;
  BitLenRSAkeys : Z;
  ShowVersion : bool;
}.

(** Assignments to single fields. *)

Definition set_Title (v : string) (c : AddrHostPort) : AddrHostPort :=
  let 'mkAddr _ x1 x2 x3 x4 x5 := c in mkAddr v x1 x2 x3 x4 x5.
Definition set_Addr (v : string) (c : AddrHostPort) : AddrHostPort :=
  let 'mkAddr x0 _ x2 x3 x4 x5 := c in mkAddr x0 v x2 x3 x4 x5.
Definition set_Host (v : string) (c : AddrHostPort) : AddrHostPort :=
  let 'mkAddr x0 x1 _ x3 x4 x5 := c in mkAddr x0 x1 v x3 x4 x5.
Definition set_Port (v : Z) (c : AddrHostPort) : AddrHostPort :=
  let 'mkAddr x0 x1 x2 _ x4 x5 := c in mkAddr x0 x1 x2 v x4 x5.
Definition set_UnixDomainPath (v : string) (c : AddrHostPort) : AddrHostPort :=
  let 'mkAddr x0 x1 x2 x3 _ x5 := c in mkAddr x0 x1 x2 x3 v x5.
Definition set_Required (v : bool) (c : AddrHostPort) : AddrHostPort :=
  let 'mkAddr x0 x1 x2 x3 x4 _ := c in mkAddr x0 x1 x2 x3 x4 v.
Definition set_Listen (v : AddrHostPort) (c : TunnelSpec) : TunnelSpec :=
  let 'mkTunnel _ x1 := c in mkTunnel v x1.
Definition set_Remote (v : AddrHostPort) (c : TunnelSpec) : TunnelSpec :=
  let 'mkTunnel x0 _ := c in mkTunnel x0 v.
Definition set_Domain (v : string) (c : MailgunConfig) : MailgunConfig :=
  let 'mkMail _ x1 x2 := c in mkMail v x1 x2.
Definition set_PublicApiKey (v : string) (c : MailgunConfig) : MailgunConfig :=
  let 'mkMail x0 _ x2 := c in mkMail x0 v x2.
Definition set_SecretApiKey (v : string) (c : MailgunConfig) : MailgunConfig :=
  let 'mkMail x0 x1 _ := c in mkMail x0 x1 v.
Definition set_ConfigPath (v : string) (c : SshegoConfig) : SshegoConfig :=
  let 'mkCfg _ x1 x2 x3 x4 x5 x6 x7 x8 x9 x10 x11 x12 x13 x14 x15 x16 x17 x18 x19 x20 x21 x22 x23 := c in mkCfg v x1 x2 x3 x4 x5 x6 x7 x8 x9 x10 x11 x12 x13 x14 x15 x16 x17 x18 x19 x20 x21 x22 x23.
Definition set_SSHdServer (v : AddrHostPort) (c : SshegoConfig) : SshegoConfig :=
  let 'mkCfg x0 _ x2 x3 x4 x5 x6 x7 x8 x9 x10 x11 x12 x13 x14 x15 x16 x17 x18 x19 x20 x21 x22 x23 := c in mkCfg x0 v x2 x3 x4 x5 x6 x7 x8 x9 x10 x11 x12 x13 x14 x15 x16 x17 x18 x19 x20 x21 x22 x23.
Definition set_LocalToRemote (v : TunnelSpec) (c : SshegoConfig) : SshegoConfig :=
  let 'mkCfg x0 x1 _ x3 x4 x5 x6 x7 x8 x9 x10 x11 x12 x13 x14 x15 x16 x17 x18 x19 x20 x21 x22 x23 := c in mkCfg x0 x1 v x3 x4 x5 x6 x7 x8 x9 x10 x11 x12 x13 x14 x15 x16 x17 x18 x19 x20 x21 x22 x23.
Definition set_RemoteToLocal (v : TunnelSpec) (c : SshegoConfig) : SshegoConfig :=
  let 'mkCfg x0 x1 x2 _ x4 x5 x6 x7 x8 x9 x10 x11 x12 x13 x14 x15 x16 x17 x18 x19 x20 x21 x22 x23 := c in mkCfg x0 x1 x2 v x4 x5 x6 x7 x8 x9 x10 x11 x12 x13 x14 x15 x16 x17 x18 x19 x20 x21 x22 x23.
Definition set_Debug (v : bool) (c : SshegoConfig) : SshegoConfig :=
  let 'mkCfg x0 x1 x2 x3 _ x5 x6 x7 x8 x9 x10 x11 x12 x13 x14 x15 x16 x17 x18 x19 x20 x21 x22 x23 := c in mkCfg x0 x1 x2 x3 v x5 x6 x7 x8 x9 x10 x11 x12 x13 x14 x15 x16 x17 x18 x19 x20 x21 x22 x23.
Definition set_AddIfNotKnown (v : bool) (c : SshegoConfig) : SshegoConfig :=
  let 'mkCfg x0 x1 x2 x3 x4 _ x6 x7 x8 x9 x10 x11 x12 x13 x14 x15 x16 x17 x18 x19 x20 x21 x22 x23 := c in mkCfg x0 x1 x2 x3 x4 v x6 x7 x8 x9 x10 x11 x12 x13 x14 x15 x16 x17 x18 x19 x20 x21 x22 x23.
Definition set_Username (v : string) (c : SshegoConfig) : SshegoConfig :=
  let 'mkCfg x0 x1 x2 x3 x4 x5 _ x7 x8 x9 x10 x11 x12 x13 x14 x15 x16 x17 x18 x19 x20 x21 x22 x23 := c in mkCfg x0 x1 x2 x3 x4 x5 v x7 x8 x9 x10 x11 x12 x13 x14 x15 x16 x17 x18 x19 x20 x21 x22 x23.
Definition set_PrivateKeyPath (v : string) (c : SshegoConfig) : SshegoConfig :=
  let 'mkCfg x0 x1 x2 x3 x4 x5 x6 _ x8 x9 x10 x11 x12 x13 x14 x15 x16 x17 x18 x19 x20 x21 x22 x23 := c in mkCfg x0 x1 x2 x3 x4 x5 x6 v x8 x9 x10 x11 x12 x13 x14 x15 x16 x17 x18 x19 x20 x21 x22 x23.
Definition set_ClientKnownHostsPath (v : string) (c : SshegoConfig) : SshegoConfig :=
  let 'mkCfg x0 x1 x2 x3 x4 x5 x6 x7 _ x9 x10 x11 x12 x13 x14 x15 x16 x17 x18 x19 x20 x21 x22 x23 := c in mkCfg x0 x1 x2 x3 x4 x5 x6 x7 v x9 x10 x11 x12 x13 x14 x15 x16 x17 x18 x19 x20 x21 x22 x23.
Definition set_WriteConfigOut (v : string) (c : SshegoConfig) : SshegoConfig :=
  let 'mkCfg x0 x1 x2 x3 x4 x5 x6 x7 x8 _ x10 x11 x12 x13 x14 x15 x16 x17 x18 x19 x20 x21 x22 x23 := c in mkCfg x0 x1 x2 x3 x4 x5 x6 x7 x8 v x10 x11 x12 x13 x14 x15 x16 x17 x18 x19 x20 x21 x22 x23.
Definition set_WriteConfigOnly (v : bool) (c : SshegoConfig) : SshegoConfig :=
  let 'mkCfg x0 x1 x2 x3 x4 x5 x6 x7 x8 x9 _ x11 x12 x13 x14 x15 x16 x17 x18 x19 x20 x21 x22 x23 := c in mkCfg x0 x1 x2 x3 x4 x5 x6 x7 x8 x9 v x11 x12 x13 x14 x15 x16 x17 x18 x19 x20 x21 x22 x23.
Definition set_Quiet (v : bool) (c : SshegoConfig) : SshegoConfig :=
  let 'mkCfg x0 x1 x2 x3 x4 x5 x6 x7 x8 x9 x10 _ x12 x13 x14 x15 x16 x17 x18 x19 x20 x21 x22 x23 := c in mkCfg x0 x1 x2 x3 x4 x5 x6 x7 x8 x9 x10 v x12 x13 x14 x15 x16 x17 x18 x19 x20 x21 x22 x23.
Definition set_EmbeddedSSHdHostDbPath (v : string) (c : SshegoConfig) : SshegoConfig :=
  let 'mkCfg x0 x1 x2 x3 x4 x5 x6 x7 x8 x9 x10 x11 _ x13 x14 x15 x16 x17 x18 x19 x20 x21 x22 x23 := c in mkCfg x0 x1 x2 x3 x4 x5 x6 x7 x8 x9 x10 x11 v x13 x14 x15 x16 x17 x18 x19 x20 x21 x22 x23.
Definition set_EmbeddedSSHd (v : AddrHostPort) (c : SshegoConfig) : SshegoConfig :=
  let 'mkCfg x0 x1 x2 x3 x4 x5 x6 x7 x8 x9 x10 x11 x12 _ x14 x15 x16 x17 x18 x19 x20 x21 x22 x23 := c in mkCfg x0 x1 x2 x3 x4 x5 x6 x7 x8 x9 x10 x11 x12 v x14 x15 x16 x17 x18 x19 x20 x21 x22 x23.
Definition set_AddUserFlag (v : string) (c : SshegoConfig) : SshegoConfig :=
  let 'mkCfg x0 x1 x2 x3 x4 x5 x6 x7 x8 x9 x10 x11 x12 x13 _ x15 x16 x17 x18 x19 x20 x21 x22 x23 := c in mkCfg x0 x1 x2 x3 x4 x5 x6 x7 x8 x9 x10 x11 x12 x13 v x15 x16 x17 x18 x19 x20 x21 x22 x23.
Definition set_DelUserFlag (v : string) (c : SshegoConfig) : SshegoConfig :=
  let 'mkCfg x0 x1 x2 x3 x4 x5 x6 x7 x8 x9 x10 x11 x12 x13 x14 _ x16 x17 x18 x19 x20 x21 x22 x23 := c in mkCfg x0 x1 x2 x3 x4 x5 x6 x7 x8 x9 x10 x11 x12 x13 x14 v x16 x17 x18 x19 x20 x21 x22 x23.
Definition set_SshegoSystemMutexPortString (v : string) (c : SshegoConfig) : SshegoConfig :=
  let 'mkCfg x0 x1 x2 x3 x4 x5 x6 x7 x8 x9 x10 x11 x12 x13 x14 x15 _ x17 x18 x19 x20 x21 x22 x23 := c in mkCfg x0 x1 x2 x3 x4 x5 x6 x7 x8 x9 x10 x11 x12 x13 x14 x15 v x17 x18 x19 x20 x21 x22 x23.
Definition set_SshegoSystemMutexPort (v : Z) (c : SshegoConfig) : SshegoConfig :=
  let 'mkCfg x0 x1 x2 x3 x4 x5 x6 x7 x8 x9 x10 x11 x12 x13 x14 x15 x16 _ x18 x19 x20 x21 x22 x23 := c in mkCfg x0 x1 x2 x3 x4 x5 x6 x7 x8 x9 x10 x11 x12 x13 x14 x15 x16 v x18 x19 x20 x21 x22 x23.
Definition set_MailCfg (v : MailgunConfig) (c : SshegoConfig) : SshegoConfig :=
  let 'mkCfg x0 x1 x2 x3 x4 x5 x6 x7 x8 x9 x10 x11 x12 x13 x14 x15 x16 x17 _ x19 x20 x21 x22 x23 := c in mkCfg x0 x1 x2 x3 x4 x5 x6 x7 x8 x9 x10 x11 x12 x13 x14 x15 x16 x17 v x19 x20 x21 x22 x23.
Definition set_SkipTOTP (v : bool) (c : SshegoConfig) : SshegoConfig :=
  let 'mkCfg x0 x1 x2 x3 x4 x5 x6 x7 x8 x9 x10 x11 x12 x13 x14 x15 x16 x17 x18 _ x20 x21 x22 x23 := c in mkCfg x0 x1 x2 x3 x4 x5 x6 x7 x8 x9 x10 x11 x12 x13 x14 x15 x16 x17 x18 v x20 x21 x22 x23.
Definition set_SkipPassphrase (v : bool) (c : SshegoConfig) : SshegoConfig :=
  let 'mkCfg x0 x1 x2 x3 x4 x5 x6 x7 x8 x9 x10 x11 x12 x13 x14 x15 x16 x17 x18 x19 _ x21 x22 x23 := c in mkCfg x0 x1 x2 x3 x4 x5 x6 x7 x8 x9 x10 x11 x12 x13 x14 x15 x16 x17 x18 x19 v x21 x22 x23.
Definition set_SkipRSA (v : bool) (c : SshegoConfig) : SshegoConfig :=
  let 'mkCfg x0 x1 x2 x3 x4 x5 x6 x7 x8 x9 x10 x11 x12 x13 x14 x15 x16 x17 x18 x19 x20 _ x22 x23 := c in mkCfg x0 x1 x2 x3 x4 x5 x6 x7 x8 x9 x10 x11 x12 x13 x14 x15 x16 x17 x18 x19 x20 v x22 x23.
Definition set_BitLenRSAkeys (v : Z) (c : SshegoConfig) : SshegoConfig :=
  let 'mkCfg x0 x1 x2 x3 x4 x5 x6 x7 x8 x9 x10 x11 x12 x13 x14 x15 x16 x17 x18 x19 x20 x21 _ x23 := c in mkCfg x0 x1 x2 x3 x4 x5 x6 x7 x8 x9 x10 x11 x12 x13 x14 x15 x16 x17 x18 x19 x20 x21 v x23.
Definition set_ShowVersion (v : bool) (c : SshegoConfig) : SshegoConfig :=
  let 'mkCfg x0 x1 x2 x3 x4 x5 x6 x7 x8 x9 x10 x11 x12 x13 x14 x15 x16 x17 x18 x19 x20 x21 x22 _ := c in mkCfg x0 x1 x2 x3 x4 x5 x6 x7 x8 x9 x10 x11 x12 x13 x14 x15 x16 x17 x18 x19 x20 x21 x22 v.

(** ** Endpoints *)

(** [AddrHostPort.ParseAddr]: the receiver after the call and the error. *)
Definition ParseAddr (a : AddrHostPort) : AddrHostPort * option string :=
  if (Addr a =? "")%string then
    if Required a then (a, Some ("provide -" +:+ Title a +:+ " ip:port")) else (a, None)
  else
    match SplitHostPort (Addr a) with
    | Ok (host, port) =>
        let a := set_Host (if (host =? "")%string then "127.0.0.1" else host) a in
        match port with
        | "" => (a, Some ("empty -" +:+ Title a +:+ " port; no port found in '" +:+ Addr a +:+ "'"))
        | String "/" _ => (set_UnixDomainPath port a, None)
        | _ =>
            let '(prt, err) := ParseUint port 16 in
            let a := set_Port (to_int64 prt) a in
            match err with
            | Some e =>
                (a, Some ("bad -" +:+ Title a +:+
                          " port given; could not convert to integer: " +:+ e))
            | None => (a, None)
            end
        end
    | Err e =>
        (a, Some ("bad -" +:+ Title a +:+ " ip:port given; net.SplitHostPort() gave: " +:+ e))
    | _ => (a, None)
    end.

(** ** Values of the configuration file *)

Fixpoint last_byte (s : string) : option ascii :=
  match s with
  | "" => None
  | String c "" => Some c
  | String _ s' => last_byte s'
  end.

(** [trim]: one trailing newline and one pair of enclosing quotes. *)
Definition trim (s : string) : string :=
  if (s =? "")%string then s
  else
    let s := if bool_decide (last_byte s = Some nl_byte)
             then stake (String.length s - 1) s else s in
    if (String.length s <? 2)%nat then s
    else if bool_decide (String.get 0 s = Some dq_byte) &&
            bool_decide (last_byte s = Some dq_byte)
         then stake (String.length s - 2) (sdrop 1 s)
         else s.

Definition boolToString (b : bool) : string := if b then "true" else "false".
Definition stringToBool (s : string) : bool := (ToLower s =? "true")%string.

(** *** subEnv: [regexp.MustCompile("\$" + fromEnv).ReplaceAllString(src, home)] *)

Definition name_byte (c : ascii) : bool :=
  let n := Ascii.nat_of_ascii c in
  (((48 <=? n) && (n <=? 57)) || ((65 <=? n) && (n <=? 90)) ||
   ((97 <=? n) && (n <=? 122)) || (n =? 95))%nat.

Fixpoint span (p : ascii -> bool) (s : string) : string * string :=
  match s with
  | String c s' => if p c then let '(a, b) := span p s' in (String c a, b) else ("", s)
  | "" => ("", "")
  end.

(** The name and the rest of a reference [$name] or [${name}] of a replacement
    template, given what follows the dollar sign. *)
Definition extract (str : string) : option (string * string) :=
  let '(brace, str) := match str with String "{" s' => (true, s') | _ => (false, str) end in
  let '(name, rest) := span name_byte str in
  if (name =? "")%string then None
  else if brace then
    match rest with
    | String "}" rest' => Some (name, rest')
    | _ => None
    end
  else Some (name, rest).

(** [Regexp.Expand] for an expression without groups: [$0] is the matched
    text, every other reference is empty. *)
Fixpoint expand (fuel : nat) (matched template : string) : string :=
  match fuel with
  | O => ""
  | S fuel =>
      match template with
      | "" => ""
      | String "$" rest =>
          match rest with
          | String "$" rest' => String "$" (expand fuel matched rest')
          | _ =>
              match extract rest with
              | None => String "$" (expand fuel matched rest)
              | Some (name, rest') =>
                  (if (name =? "0")%string then matched else "") +:+ expand fuel matched rest'
              end
          end
      | String c rest => String c (expand fuel matched rest)
      end
  end.

(** Replacement of the non-overlapping occurrences of [pat], from the left;
    [skip] bytes belong to an occurrence already replaced. *)
Fixpoint replace_all (pat repl : string) (skip : nat) (s : string) : string :=
  match s with
  | "" => ""
  | String c s' =>
      match skip with
      | S k => replace_all pat repl k s'
      | O =>
          if String.prefix pat s
          then repl +:+ replace_all pat repl (String.length pat - 1) s'
          else String c (replace_all pat repl O s')
      end
  end.

Definition subEnv (getenv : string -> string) (src fromEnv : string) : string :=
  let pat := String "$" fromEnv in
  let home := getenv fromEnv in
  replace_all pat (expand (S (String.length home)) pat home) O src.

(** ** Reading the configuration file *)

(** The file system as the readers see it. *)
Inductive file :=
| Absent
| Unreadable (e : string)
| Contents (text : string).

Definition fileExists (f : file) : bool := match f with Absent => false | _ => true end.

(** The chunks that [bufio.Reader.ReadBytes('\n')] returns until end of file:
    each ends with the newline, except a last nonempty one without it. *)
Fixpoint read_chunks (s : string) : list string :=
  match s with
  | "" => []
  | String c s' =>
      if Ascii.eqb c nl_byte then nl :: read_chunks s'
      else match read_chunks s' with
           | [] => [String c ""]
           | h :: t => String c h :: t
           end
  end.

(** What the loop of [LoadConfig] makes of one chunk: a comment, a line
    without [=], or a key and its value. *)
Inductive config_line :=
| Comment
| Malformed
| KeyVal (key val : string).

Definition parse_line (lastLine : string) : config_line :=
  let line := Trim lastLine ws in
  match line with
  | String "#" _ => Comment
  | _ =>
      match SplitN2 line "=" with
      | [k; v] => KeyVal (Trim k ws) (trim (Trim v ws))
      | _ => Malformed
      end
  end.

(** The [switch key] of [SshegoConfig.LoadConfig]. *)
Definition assign_key (getenv : string -> string) (key val : string)
    (c : SshegoConfig) : outcome SshegoConfig :=
  if (key =? "SSHD_ADDR")%string then
    Ok (set_SSHdServer (set_Addr val (SSHdServer c)) c)
  else if (key =? "FWD_LISTEN_ADDR")%string then
    Ok (set_LocalToRemote (set_Listen (set_Addr val (Listen (LocalToRemote c))) (LocalToRemote c)) c)
  else if (key =? "FWD_REMOTE_ADDR")%string then
    Ok (set_LocalToRemote (set_Remote (set_Addr val (Remote (LocalToRemote c))) (LocalToRemote c)) c)
  else if (key =? "REV_LISTEN_ADDR")%string then
    Ok (set_RemoteToLocal (set_Listen (set_Addr val (Listen (RemoteToLocal c))) (RemoteToLocal c)) c)
  else if (key =? "REV_REMOTE_ADDR")%string then
    Ok (set_RemoteToLocal (set_Remote (set_Addr val (Remote (RemoteToLocal c))) (RemoteToLocal c)) c)
  else if (key =? "SSHD_LOGIN_USERNAME")%string then Ok (set_Username (subEnv getenv val "USER") c)
  else if (key =? "SSH_PRIVATE_KEY_PATH")%string then Ok (set_PrivateKeyPath (subEnv getenv val "HOME") c)
  else if (key =? "SSH_KNOWN_HOSTS_PATH")%string then
    Ok (set_ClientKnownHostsPath (subEnv getenv val "HOME") c)
  else if (key =? "QUIET")%string then Ok (set_Quiet (stringToBool val) c)
  else if (key =? "EMBEDDED_SSHD_HOST_DB_PATH")%string then
    Ok (set_EmbeddedSSHdHostDbPath (subEnv getenv val "HOME") c)
  else if (key =? "EMBEDDED_SSHD_LISTEN_ADDR")%string then
    Ok (set_EmbeddedSSHd (set_Addr val (EmbeddedSSHd c)) c)
  else if (key =? "EMBEDDED_SSHD_COMMAND_XPORT")%string then
    let? prt := panicOn (Atoi val) in
    Ok (set_SshegoSystemMutexPort prt (set_SshegoSystemMutexPortString val c))
  else if (key =? "AUTH_OPTION_SKIP_TOTP")%string then Ok (set_SkipTOTP (stringToBool val) c)
  else if (key =? "AUTH_OPTION_SKIP_PASSPHRASE")%string then Ok (set_SkipPassphrase (stringToBool val) c)
  else if (key =? "AUTH_OPTION_SKIP_RSA")%string then Ok (set_SkipRSA (stringToBool val) c)
  else if (key =? "KEYGEN_RSA_BITS")%string then
    let? bits := panicOn (Atoi val) in Ok (set_BitLenRSAkeys bits c)
  else Ok c.

(** The loop over the lines, for a given [switch]. *)
Fixpoint load_lines {C} (assign : string -> string -> C -> outcome C)
    (lines : list string) (c : C) : outcome C :=
  match lines with
  | [] => Ok c
  | l :: rest =>
      match parse_line l with
      | KeyVal k v => let? c := assign k v c in load_lines assign rest c
      | _ => load_lines assign rest c
      end
  end.

(** mailgun.go, the [switch key] and [MailgunConfig.LoadConfig]. *)
Definition mail_assign_key (key val : string) (c : MailgunConfig) : outcome MailgunConfig :=
  if (key =? "MAILGUN_DOMAIN")%string then Ok (set_Domain val c)
  else if (key =? "MAILGUN_PUBLIC_API_KEY")%string then Ok (set_PublicApiKey val c)
  else if (key =? "MAILGUN_SECRET_API_KEY")%string then Ok (set_SecretApiKey val c)
  else Ok c.

Definition path_missing (path : string) : string := "path '" +:+ path +:+ "' does not exist".

Definition MailgunLoadConfig (fs : string -> file) (path : string) (c : MailgunConfig)
    : outcome MailgunConfig :=
  match fs path with
  | Absent => Err (path_missing path)
  | Unreadable e => Err e
  | Contents text => load_lines mail_assign_key (read_chunks text) c
  end.

(** [SshegoConfig.LoadConfig]. *)
Definition LoadConfig (getenv : string -> string) (fs : string -> file) (path : string)
    (c : SshegoConfig) : outcome SshegoConfig :=
  match fs path with
  | Absent => Err (path_missing path)
  | Unreadable e => Err e
  | Contents text =>
      let? c := load_lines (assign_key getenv) (read_chunks text) c in
      match MailgunLoadConfig fs path (MailCfg c) with
      | Ok m => Ok (set_MailCfg m c)
      | Err e => Err ("path '" +:+ path +:+ "' gave error on loading MailgunConfig: " +:+ e)
      | Panic s => Panic s
      | Blocked => Blocked
      end
  end.

(** ** Writing the configuration file *)

Definition kv_line (key val : string) : string := key +:+ "=" +:+ dq +:+ val +:+ dq +:+ nl.
Definition comment_line (text : string) : string := "#" +:+ text +:+ nl.
Definition text_of (lines : list string) : string := foldr String.append "" lines.

(** mailgun.go, [MailgunConfig.SaveConfig]. *)
Definition MailgunSaveConfig (c : MailgunConfig) : list string :=
  [comment_line ""; comment_line " config for Mailgun:"; comment_line "";
   kv_line "MAILGUN_DOMAIN" (Domain c);
   kv_line "MAILGUN_PUBLIC_API_KEY" (PublicApiKey c);
   kv_line "MAILGUN_SECRET_API_KEY" (SecretApiKey c)].

(** [SshegoConfig.SaveConfig] on a writer that takes every write: the receiver
    afterwards and the lines written. *)
Definition SaveConfig (c : SshegoConfig) : SshegoConfig * list string :=
  let c := set_SshegoSystemMutexPortString (itoa (SshegoSystemMutexPort c)) c in
  (c,
   [comment_line ""; comment_line " config file sshego:"; comment_line "";
    kv_line "SSHD_ADDR" (Addr (SSHdServer c));
    kv_line "FWD_LISTEN_ADDR" (Addr (Listen (LocalToRemote c)));
    kv_line "FWD_REMOTE_ADDR" (Addr (Remote (LocalToRemote c)));
    kv_line "REV_LISTEN_ADDR" (Addr (Listen (RemoteToLocal c)));
    kv_line "REV_REMOTE_ADDR" (Addr (Remote (RemoteToLocal c)));
    kv_line "SSHD_LOGIN_USERNAME" (Username c);
    kv_line "SSH_PRIVATE_KEY_PATH" (PrivateKeyPath c);
    kv_line "SSH_KNOWN_HOSTS_PATH" (ClientKnownHostsPath c);
    kv_line "QUIET" (boolToString (Quiet c));
    comment_line ""; comment_line " optional sshd server config"; comment_line "";
    kv_line "EMBEDDED_SSHD_HOST_DB_PATH" (EmbeddedSSHdHostDbPath c);
    kv_line "EMBEDDED_SSHD_LISTEN_ADDR" (Addr (EmbeddedSSHd c));
    kv_line "EMBEDDED_SSHD_COMMAND_XPORT" (SshegoSystemMutexPortString c);
    comment_line ""; comment_line " auth config"; comment_line "";
    kv_line "AUTH_OPTION_SKIP_TOTP" (boolToString (SkipTOTP c));
    kv_line "AUTH_OPTION_SKIP_PASSPHRASE" (boolToString (SkipPassphrase c));
    kv_line "AUTH_OPTION_SKIP_RSA" (boolToString (SkipRSA c));
    kv_line "KEYGEN_RSA_BITS" (itoa (BitLenRSAkeys c))]
   ++ MailgunSaveConfig (MailCfg c)).

(** ** Flags and validation *)

Definition blank_addr (title addr : string) : AddrHostPort :=
  mkAddr title addr "" 0 "" false.

(** [DefineFlags]: the defaults the flags leave in a fresh configuration. *)
Definition DefineFlags (getenv : string -> string) : SshegoConfig :=
  let home := getenv "HOME" in
  {| ConfigPath := "";
     SSHdServer := blank_addr "sshd" "";
     LocalToRemote := mkTunnel (blank_addr "listen" "") (blank_addr "remote" "");
     RemoteToLocal := mkTunnel (blank_addr "revlisten" "") (blank_addr "revremote" "127.0.0.1:22");
     Debug := false;
     AddIfNotKnown := false;
     Username := getenv "USER";
     PrivateKeyPath := home +:+ "/.ssh/id_rsa_nopw";
     ClientKnownHostsPath := home +:+ "/.ssh/.sshego.cli.known.hosts";
     WriteConfigOut := "";
     WriteConfigOnly := false;
     Quiet := false;
     EmbeddedSSHdHostDbPath := home +:+ "/.ssh/.sshego.sshd.db";
     EmbeddedSSHd := blank_addr "esshd" "";
     AddUserFlag := "";
     DelUserFlag := "";
     SshegoSystemMutexPortString := "";
     SshegoSystemMutexPort := 33355;
     MailCfg := mkMail "" "" "";
     SkipTOTP := false;
     SkipPassphrase := false;
     SkipRSA := false;
     BitLenRSAkeys := 4096;
     ShowVersion := false |}.

(** [MailgunConfig.ValidateConfig] accepts everything. *)
Definition MailgunValidateConfig (c : MailgunConfig) : option string := None.

(** The part of [ValidateConfig] after the configuration file was read. *)
Definition validate_addrs (c : SshegoConfig) : SshegoConfig * option string :=
  let '(a, err) := ParseAddr (Listen (LocalToRemote c)) in
  let c := set_LocalToRemote (set_Listen a (LocalToRemote c)) c in
  match err with Some e => (c, Some e) | None =>
  let '(a, err) := ParseAddr (Remote (LocalToRemote c)) in
  let c := set_LocalToRemote (set_Remote a (LocalToRemote c)) c in
  match err with Some e => (c, Some e) | None =>
  if negb (Addr (Listen (LocalToRemote c)) =? "")%string &&
     (Addr (Remote (LocalToRemote c)) =? "")%string
  then (c, Some "incomplete config: have -listen but not -remote") else
  let '(a, err) := ParseAddr (Listen (RemoteToLocal c)) in
  let c := set_RemoteToLocal (set_Listen a (RemoteToLocal c)) c in
  match err with Some e => (c, Some e) | None =>
  let '(a, err) := ParseAddr (Remote (RemoteToLocal c)) in
  let c := set_RemoteToLocal (set_Remote a (RemoteToLocal c)) c in
  match err with Some e => (c, Some e) | None =>
  if negb (Addr (Listen (RemoteToLocal c)) =? "")%string &&
     (Addr (Remote (RemoteToLocal c)) =? "")%string
  then (c, Some "incomplete config: have -revlisten but not -revfwd") else
  let idle := (Addr (Listen (RemoteToLocal c)) =? "")%string &&
              (Addr (Listen (LocalToRemote c)) =? "")%string &&
              (Addr (EmbeddedSSHd c) =? "")%string &&
              (AddUserFlag c =? "")%string && (DelUserFlag c =? "")%string in
  if idle && (WriteConfigOut c =? "")%string
  then (c, Some "no tunnels requested; one of -listen or -revlisten or -esshd is required") else
  let c := if idle then set_WriteConfigOnly true c else c in
  let '(a, err) := ParseAddr (SSHdServer c) in
  let c := set_SSHdServer a c in
  match err with Some e => (c, Some e) | None =>
  (c, MailgunValidateConfig (MailCfg c))
  end end end end end.

(** [ValidateConfig]: the receiver afterwards and the outcome. *)
Definition ValidateConfig (getenv : string -> string) (fs : string -> file)
    (c : SshegoConfig) : outcome (SshegoConfig * option string) :=
  if (ConfigPath c =? "")%string then Ok (validate_addrs c)
  else match LoadConfig getenv fs (ConfigPath c) c with
       | Ok c => Ok (validate_addrs c)
       | Err e => Ok (c, Some e)
       | Panic s => Panic s
       | Blocked => Blocked
       end.

(** [GenAuthString]: the factors in force, in words. *)
Definition GenAuthString (c : SshegoConfig) : string :=
  let count := (if SkipRSA c then 0 else 1) + (if SkipTOTP c then 0 else 1) +
               (if SkipPassphrase c then 0 else 1) in
  let '(s, added) := if SkipRSA c then ("", 0) else ("RSA", 1) in
  let '(s, added) :=
    if SkipTOTP c then (s, added)
    else
      let s := if added >? 0
               then if count =? 1 then s
                    else if count =? 2 then s +:+ " and " else s +:+ ", "
               else s in
      (s +:+ "phone-app", added + 1) in
  if SkipPassphrase c then s
  else
    let s := if added =? 0 then s
             else if added =? 1 then s +:+ " and "
             else if added =? 2 then s +:+ ", and" else s in
    s +:+ "memorable pass-phrase".

(** ** Lemmas on the file format *)

Lemma last_byte_app s c : last_byte (s +:+ String c "") = Some c.
Proof.
  induction s as [|d s IH]; [done|]. simpl. rewrite IH. by destruct s.
Qed.

Lemma trim_quoted v : trim (dq +:+ v +:+ dq) = v.
Proof.
  remember (dq +:+ v +:+ dq) as t eqn:Et.
  assert (last_byte t = Some dq_byte) as Hl.
  { subst t. apply (last_byte_app (String dq_byte v)). }
  assert (String.length t = S (S (String.length v))) as Hlen.
  { subst t. simpl. rewrite string_app_length. simpl. lia. }
  assert (String.get 0 t = Some dq_byte /\ sdrop 1 t = v +:+ dq) as [Hg Hd] by by subst t.
  assert ((t =? "")%string = false) as Hne by by subst t.
  unfold trim. rewrite Hne, Hl. cbv zeta.
  rewrite bool_decide_false by done. rewrite Hlen, Hg, Hl, Hd.
  rewrite !bool_decide_true by done. simpl.
  rewrite Nat.sub_0_r. apply stake_app.
Qed.

Lemma trim_right_first p c s : p c = false -> trim_right p (String c s) = String c (trim_right p s).
Proof. intros H. simpl. rewrite H. by destruct (trim_right p s). Qed.

Lemma read_chunks_line l rest :
  lacks nl_byte l = true -> read_chunks (l +:+ nl +:+ rest) = (l +:+ nl) :: read_chunks rest.
Proof.
  change (nl +:+ rest) with (String nl_byte rest).
  unfold lacks. induction l as [|c l IH]; [done|]. simpl. intros H. bool_prop.
  destruct (Ascii.eqb_spec c nl_byte); [done|]. by rewrite IH.
Qed.

(** A line: no newline but the one at its end. *)
Definition is_line (l : string) : Prop := exists l0, l = l0 +:+ nl /\ lacks nl_byte l0 = true.

Lemma read_chunks_text lines : Forall is_line lines -> read_chunks (text_of lines) = lines.
Proof.
  induction 1 as [|l lines [l0 [-> Hl]] _ IH]; [done|].
  change (read_chunks ((l0 +:+ nl) +:+ text_of lines) = (l0 +:+ nl) :: lines).
  rewrite string_app_assoc, read_chunks_line by done. by rewrite IH.
Qed.

Lemma comment_is_line t : lacks nl_byte t = true -> is_line (comment_line t).
Proof. intros H. exists ("#" +:+ t). split; [done|]. by rewrite lacks_app, H. Qed.

Lemma kv_is_line k v :
  lacks nl_byte k = true -> lacks nl_byte v = true -> is_line (kv_line k v).
Proof.
  intros Hk Hv. exists (k +:+ "=" +:+ dq +:+ v +:+ dq). split.
  - unfold kv_line. by rewrite !string_app_assoc.
  - by rewrite !lacks_app, Hk, Hv.
Qed.

(** The bytes of the keys: neither white space, nor [=], nor [#]. *)
Definition key_byte (c : ascii) : bool :=
  negb (in_set ws c) && negb (Ascii.eqb c "=") && negb (Ascii.eqb c "#").

Lemma key_byte_inv c :
  key_byte c = true ->
  negb (in_set ws c) = true /\ negb (Ascii.eqb c "=") = true /\ negb (Ascii.eqb c "#") = true.
Proof. unfold key_byte. rewrite !andb_true_iff. naive_solver. Qed.

Lemma parse_comment t : parse_line (comment_line t) = Comment.
Proof.
  unfold parse_line, comment_line, Trim. rewrite trim_left_id by done.
  change ("#" +:+ t +:+ nl) with (String "#" (t +:+ nl)). by rewrite trim_right_first.
Qed.

Lemma parse_kv c k v :
  sall key_byte (String c k) = true ->
  parse_line (kv_line (String c k) v) = KeyVal (String c k) v.
Proof.
  intros Hk. assert (key_byte c = true) as (Hc & _ & Hh)%key_byte_inv.
  { simpl in Hk. by apply andb_true_iff in Hk as [? _]. }
  apply negb_true_iff in Hc.
  assert (Trim (kv_line (String c k) v) ws = String c k +:+ String "=" (dq +:+ v +:+ dq)) as Hl.
  { unfold kv_line, Trim. rewrite trim_left_id by done.
    replace (String c k +:+ "=" +:+ dq +:+ v +:+ dq +:+ nl)
      with (((String c k +:+ String "=" (dq +:+ v)) +:+ String dq_byte "") +:+ String nl_byte "")
      by (unfold nl, dq; rewrite !string_app_assoc; done).
    rewrite trim_right_cut, trim_right_last by done.
    rewrite !string_app_assoc. simpl. by rewrite ?string_app_assoc. }
  assert (SplitN2 (String c k +:+ String "=" (dq +:+ v +:+ dq)) "=" =
          [String c k; dq +:+ v +:+ dq]) as Hs.
  { unfold SplitN2. rewrite cut_app; [done|].
    eapply sall_impl; [|exact Hk]. apply key_byte_inv. }
  assert (Trim (String c k) ws = String c k) as Ht.
  { apply Trim_none. eapply sall_impl; [|exact Hk]. apply key_byte_inv. }
  assert (Trim (dq +:+ v +:+ dq) ws = dq +:+ v +:+ dq) as Hd by (by apply (Trim_id ws dq_byte dq_byte v)).
  unfold parse_line. rewrite Hl, Hs, Ht, Hd, trim_quoted.
  destruct c as [[] [] [] [] [] [] [] []]; done.
Qed.

Section LoadLines.
Context {C : Type} (assign : string -> string -> C -> outcome C).

Lemma load_comment t rest c :
  load_lines assign (comment_line t :: rest) c = load_lines assign rest c.
Proof. simpl. by rewrite parse_comment. Qed.

Lemma load_kv a k v rest c :
  sall key_byte (String a k) = true ->
  load_lines assign (kv_line (String a k) v :: rest) c =
  obind (assign (String a k) v c) (load_lines assign rest).
Proof. intros H. simpl load_lines. by rewrite parse_kv. Qed.
End LoadLines.

Lemma replace_all_lacks pat repl c s :
  String.length pat <> 0%nat -> String.get 0 pat = Some c -> lacks c s = true ->
  replace_all pat repl 0 s = s.
Proof.
  intros _ Hg. unfold lacks. induction s as [|d s IH]; [done|]. simpl. intros H. bool_prop.
  rewrite IH by done. destruct pat as [|e pat]; simpl in *; [done|]. simplify_eq.
  destruct (ascii_dec c d); [congruence|done].
Qed.

Lemma subEnv_id getenv v name : lacks "$" v = true -> subEnv getenv v name = v.
Proof. intros H. unfold subEnv. by apply (replace_all_lacks _ _ "$"). Qed.

Lemma stringToBool_boolToString b : stringToBool (boolToString b) = b.
Proof. by destruct b. Qed.

(** ** The round trip through the configuration file *)

Definition config_strings (c : SshegoConfig) : list string :=
  [Addr (SSHdServer c); Addr (Listen (LocalToRemote c)); Addr (Remote (LocalToRemote c));
   Addr (Listen (RemoteToLocal c)); Addr (Remote (RemoteToLocal c)); Username c;
   PrivateKeyPath c; ClientKnownHostsPath c; EmbeddedSSHdHostDbPath c; Addr (EmbeddedSSHd c);
   Domain (MailCfg c); PublicApiKey (MailCfg c); SecretApiKey (MailCfg c)].

Definition env_strings (c : SshegoConfig) : list string :=
  [Username c; PrivateKeyPath c; ClientKnownHostsPath c; EmbeddedSSHdHostDbPath c].

(** What [SaveConfig] can write so that it is read back: no newline in a
    value, no dollar sign where the reader substitutes the environment, and
    numbers of Go's [int]. *)
Definition storable (c : SshegoConfig) : Prop :=
  Forall (fun s => lacks nl_byte s = true) (config_strings c) /\
  Forall (fun s => lacks "$" s = true) (env_strings c) /\
  in_int64 (SshegoSystemMutexPort c) /\ in_int64 (BitLenRSAkeys c).

(** [c0] with the fields of the file taken from [c]. *)
Definition with_saved (c c0 : SshegoConfig) : SshegoConfig :=
  let tun t t0 := mkTunnel (set_Addr (Addr (Listen t)) (Listen t0))
                           (set_Addr (Addr (Remote t)) (Remote t0)) in
  {| ConfigPath := ConfigPath c0;
     SSHdServer := set_Addr (Addr (SSHdServer c)) (SSHdServer c0);
     LocalToRemote := tun (LocalToRemote c) (LocalToRemote c0);
     RemoteToLocal := tun (RemoteToLocal c) (RemoteToLocal c0);
     Debug := Debug c0;
     AddIfNotKnown := AddIfNotKnown c0;
     Username := Username c;
     PrivateKeyPath := PrivateKeyPath c;
     ClientKnownHostsPath := ClientKnownHostsPath c;
     WriteConfigOut := WriteConfigOut c0;
     WriteConfigOnly := WriteConfigOnly c0;
     Quiet := Quiet c;
     EmbeddedSSHdHostDbPath := EmbeddedSSHdHostDbPath c;
     EmbeddedSSHd := set_Addr (Addr (EmbeddedSSHd c)) (EmbeddedSSHd c0);
     AddUserFlag := AddUserFlag c0;
     DelUserFlag := DelUserFlag c0;
     SshegoSystemMutexPortString := itoa (SshegoSystemMutexPort c);
     SshegoSystemMutexPort := SshegoSystemMutexPort c;
     MailCfg := MailCfg c;
     SkipTOTP := SkipTOTP c;
     SkipPassphrase := SkipPassphrase c;
     SkipRSA := SkipRSA c;
     BitLenRSAkeys := BitLenRSAkeys c;
     ShowVersion := ShowVersion c0 |}.

Lemma itoa_no_nl x : lacks nl_byte (itoa x) = true.
Proof.
  apply itoa_all; [done|]. intros c. unfold is_digit. by destruct c as [[] [] [] [] [] [] [] []].
Qed.

Lemma boolToString_no_nl b : lacks nl_byte (boolToString b) = true.
Proof. by destruct b. Qed.

#[export] Hint Resolve itoa_no_nl boolToString_no_nl kv_is_line comment_is_line : sshego.

Lemma saved_lines c : storable c -> Forall is_line (SaveConfig c).2.
Proof.
  intros (Hs & _). unfold config_strings in Hs. rewrite !Forall_cons in Hs. destruct_and! Hs.
  destruct c. simpl in *.
  repeat (apply List.Forall_cons; [eauto with sshego|]). done.
Qed.

Ltac load_step :=
  first [ rewrite load_comment
        | rewrite load_kv by reflexivity;
          lazymatch goal with
          | |- obind (assign_key ?g ?k ?v ?c) _ = _ =>
              let r := eval cbn [assign_key String.eqb Ascii.eqb Bool.eqb]
                       in (assign_key g k v c) in
              change (assign_key g k v c) with r
          | |- obind (mail_assign_key ?k ?v ?c) _ = _ =>
              let r := eval cbn [mail_assign_key String.eqb Ascii.eqb Bool.eqb]
                       in (mail_assign_key k v c) in
              change (mail_assign_key k v c) with r
          end; rewrite ?Atoi_itoa by done; cbn [obind panicOn] ].

Lemma load_saved_lines getenv c c0 :
  storable c ->
  load_lines (assign_key getenv) (SaveConfig c).2 c0 =
  Ok (set_MailCfg (MailCfg c0) (with_saved c c0)).
Proof.
  intros (_ & He & Hp & Hb). unfold env_strings in He. rewrite !Forall_cons in He. destruct_and! He.
  destruct c. simpl in Hp, Hb. cbn -[load_lines kv_line comment_line itoa boolToString].
  unfold MailgunSaveConfig.
  repeat load_step.
  simpl in *. rewrite !subEnv_id, !stringToBool_boolToString by done.
  by destruct c0 as [? [] [[] []] [[] []] ? ? ? ? ? ? ? ? ? [] ? ? ? ? ? ? ? ? ? ?].
Qed.

Lemma load_saved_mail c m : load_lines mail_assign_key (SaveConfig c).2 m = Ok (MailCfg c).
Proof.
  destruct c. cbn -[load_lines kv_line comment_line itoa boolToString].
  unfold MailgunSaveConfig.
  repeat load_step. cbn. by destruct m, MailCfg0.
Qed.

(** C39: What [SaveConfig] writes, [LoadConfig] reads back: every field of the file is
    restored and every other field is left as it was, when the configuration is
    [storable]: no newline in a value, numbers of Go's int, and no dollar sign in the
    four values that the reader expands from the environment. *)
Theorem save_load_roundtrip getenv fs path c c0 :
  storable c ->
  fs path = Contents (text_of (SaveConfig c).2) ->
  LoadConfig getenv fs path c0 = Ok (with_saved c c0).
Proof.
  intros Hc Hf. unfold LoadConfig, MailgunLoadConfig. rewrite Hf.
  rewrite read_chunks_text by (by apply saved_lines).
  rewrite load_saved_lines by done. cbn [obind]. rewrite load_saved_mail. by destruct c, c0.
Qed.

Definition sample_config : SshegoConfig :=
  set_SSHdServer (blank_addr "sshd" "1.2.3.4:22")
    (set_LocalToRemote (mkTunnel (blank_addr "listen" "127.0.0.1:8888") (blank_addr "remote" "127.0.0.1:22"))
      (set_SshegoSystemMutexPort (-1) (DefineFlags (fun v => if (v =? "HOME")%string then "/home/al" else "al")))).

Lemma save_load_roundtrip_witness :
  LoadConfig (fun _ => "") (fun _ => Contents (text_of (SaveConfig sample_config).2)) "cfg"
    (DefineFlags (fun _ => "")) = Ok (with_saved sample_config (DefineFlags (fun _ => ""))).
Proof.
  apply save_load_roundtrip; [|reflexivity].
  unfold storable, in_int64. repeat split; repeat constructor; vm_compute; congruence.
Defined.

(** A number the reader cannot parse stops the program. *)
Definition int_keys : list string := ["EMBEDDED_SSHD_COMMAND_XPORT"; "KEYGEN_RSA_BITS"].

(** [LoadConfig] fails only when the file cannot be read: on a readable
    file it returns a configuration, or panics on a number. *)
Theorem load_config_total getenv fs path text c :
  fs path = Contents text ->
  (exists c', LoadConfig getenv fs path c = Ok c') \/
  (exists msg, LoadConfig getenv fs path c = Panic msg).
Proof.
  intros Hf. unfold LoadConfig, MailgunLoadConfig. rewrite Hf.
  assert (forall l m, exists m', load_lines mail_assign_key l m = Ok m') as Hm.
  { induction l as [|x l IH]; intros m; simpl; [eauto|].
    destruct (parse_line x); [done..|]. unfold mail_assign_key. cases; apply IH. }
  assert (forall l c0, (exists c', load_lines (assign_key getenv) l c0 = Ok c') \/
                      (exists msg, load_lines (assign_key getenv) l c0 = Panic msg)) as Hl.
  { induction l as [|x l IH]; intros c0; simpl; [eauto|].
    destruct (parse_line x) as [| |k v]; [done..|]. unfold assign_key.
    repeat case_match; simpl; try apply IH;
      (destruct (Atoi_result v) as [[n ->]|[e ->]]; simpl; [apply IH|eauto]). }
  destruct (Hl (read_chunks text) c) as [[c' ->]|[msg ->]]; simpl; [|eauto].
  destruct (Hm (read_chunks text) (MailCfg c')) as [m' ->]. eauto.
Qed.

Lemma load_config_total_witness :
  (exists c', LoadConfig (fun _ => "") (fun _ => Contents ("QUIET=TRUE" +:+ nl)) "p" sample_config = Ok c') \/
  (exists msg, LoadConfig (fun _ => "") (fun _ => Contents ("QUIET=TRUE" +:+ nl)) "p" sample_config = Panic msg).
Proof. apply (load_config_total _ _ _ ("QUIET=TRUE" +:+ nl)). reflexivity. Defined.

(** ** Endpoints *)

Lemma digits_first (n : N) : exists c s, pretty n = String c s /\ is_digit c = true.
Proof.
  pose proof (pretty_N_digits n) as Hd. pose proof (pretty_N_nonempty n) as Hne.
  destruct (pretty n) as [|c s]; [done|]. simpl in Hd. bool_prop. eauto.
Qed.

(** An address [host:port] with a decimal port below 65536 is split into
    its parts without an error, an empty host standing for 127.0.0.1. *)
Theorem parse_addr_host_port a host (port : N) :
  plain_host host = true -> Z.of_N port < 65536 ->
  Addr a = host +:+ ":" +:+ pretty port ->
  ParseAddr a =
  (set_Port (Z.of_N port) (set_Host (if (host =? "")%string then "127.0.0.1" else host) a), None).
Proof.
  unfold plain_host. intros Hh Hp Ha. bool_prop. destruct (digits_plain port) as (? & ? & ?).
  unfold ParseAddr. rewrite Ha.
  assert ((host +:+ ":" +:+ pretty port =? "")%string = false) as -> by by destruct host.
  change (":" +:+ pretty port) with (String ":" (pretty port)).
  rewrite SplitHostPort_join by done.
  pose proof (ParseUint_ok 16 port ltac:(simpl; lia)) as HP.
  destruct (digits_first port) as (c & s & Hs & Hd). rewrite Hs in *.
  assert (c <> "/"%char) as Hc by (by intros ->).
  destruct c as [[] [] [] [] [] [] [] []]; try done; rewrite HP, to_int64_id; try done;
    unfold in_int64, min_int64, max_int64; lia.
Qed.

Lemma parse_addr_host_port_witness :
  ParseAddr (blank_addr "sshd" ":2022") = (set_Port 2022 (set_Host "127.0.0.1" (blank_addr "sshd" ":2022")), None).
Proof. apply (parse_addr_host_port _ "" 2022); vm_compute; reflexivity. Defined.

(** Whatever the address, with or without an error, the port of an endpoint
    stays a 16-bit number. *)
Theorem parse_addr_port_bound a :
  0 <= Port a <= 65535 -> 0 <= Port (ParseAddr a).1 <= 65535.
Proof.
  intros Ha. unfold ParseAddr.
  assert (forall p, 0 <= to_int64 (ParseUint p 16).1 <= 65535) as Hp.
  { intros p. pose proof (ParseUint_bound p 16 ltac:(lia)).
    rewrite to_int64_id; unfold in_int64, min_int64, max_int64; lia. }
  destruct (_ =? _)%string; [by destruct (Required a)|].
  destruct (SplitHostPort _) as [[h p]| | |]; try done. destruct a; simpl in *.
  destruct p as [|c p]; [done|]. specialize (Hp (String c p)).
  destruct (ParseUint _ _) as [n [e|]]; simpl in *;
    destruct c as [[] [] [] [] [] [] [] []]; done.
Qed.

Lemma parse_addr_port_bound_witness :
  0 <= Port (ParseAddr (blank_addr "sshd" "h:99999")).1 <= 65535.
Proof. apply parse_addr_port_bound. simpl. lia. Defined.

(** ** Validation *)

(** A configuration that passes validation has a destination for every
    tunnel it listens for, and something to do. *)
Theorem validate_config_sound getenv fs c c' :
  ValidateConfig getenv fs c = Ok (c', None) ->
  (Addr (Listen (LocalToRemote c')) <> "" -> Addr (Remote (LocalToRemote c')) <> "") /\
  (Addr (Listen (RemoteToLocal c')) <> "" -> Addr (Remote (RemoteToLocal c')) <> "") /\
  (Addr (Listen (RemoteToLocal c')) <> "" \/ Addr (Listen (LocalToRemote c')) <> "" \/
   Addr (EmbeddedSSHd c') <> "" \/ AddUserFlag c' <> "" \/ DelUserFlag c' <> "" \/
   (WriteConfigOut c' <> "" /\ WriteConfigOnly c' = true)).
Proof.
  assert (forall c, validate_addrs c = (c', None) ->
    (Addr (Listen (LocalToRemote c')) <> "" -> Addr (Remote (LocalToRemote c')) <> "") /\
    (Addr (Listen (RemoteToLocal c')) <> "" -> Addr (Remote (RemoteToLocal c')) <> "") /\
    (Addr (Listen (RemoteToLocal c')) <> "" \/ Addr (Listen (LocalToRemote c')) <> "" \/
     Addr (EmbeddedSSHd c') <> "" \/ AddUserFlag c' <> "" \/ DelUserFlag c' <> "" \/
     (WriteConfigOut c' <> "" /\ WriteConfigOnly c' = true))) as Hv.
  { clear c. intros c. destruct c. unfold validate_addrs.
    cbn -[ParseAddr String.eqb andb negb]. intros H.
    repeat (case_match; try discriminate; try (injection H as <-)); cbn -[String.eqb] in *;
      repeat match goal with
      | E : context [(?x =? ?y)%string] |- _ => destruct (String.eqb_spec x y); simpl in E
      end; naive_solver. }
  unfold ValidateConfig. intros H.
  destruct (ConfigPath c =? "")%string; [by apply (Hv c); simplify_eq|].
  destruct (LoadConfig _ _ _ _) as [c1| | |]; simplify_eq. by apply (Hv c1).
Qed.

Lemma validate_config_sound_witness :
  Addr (Remote (LocalToRemote (validate_addrs sample_config).1)) <> "".
Proof.
  refine (proj1 (validate_config_sound (fun _ => "") (fun _ => Absent) sample_config _ _) _).
  - vm_compute. reflexivity.
  - vm_compute. discriminate.
Defined.

(** ** Substitution of the environment *)

Lemma expand_lacks n m t :
  lacks "$" t = true -> (String.length t < n)%nat -> expand n m t = t.
Proof.
  revert t. induction n as [|n IH]; [lia|]. intros [|c t] Hl Hn; [done|].
  unfold lacks in Hl. simpl in *. bool_prop.
  assert (expand n m t = t) as E by (apply IH; [done|lia]).
  destruct c as [[] [] [] [] [] [] [] []]; rewrite ?E; done.
Qed.

Lemma replace_all_skip pat repl s t : replace_all pat repl (String.length s) (s +:+ t) = replace_all pat repl 0 t.
Proof. induction s as [|c s IH]; [done|]. exact IH. Qed.

Lemma replace_all_other d pat repl c s :
  c <> d -> replace_all (String d pat) repl 0 (String c s) = String c (replace_all (String d pat) repl 0 s).
Proof. intros H. simpl. by destruct (ascii_dec d c); [congruence|]. Qed.

(** In a value of the configuration file the reference to the environment
    variable is replaced by its value, the text around it is kept. *)
Theorem sub_env_replaces getenv pre post name :
  lacks "$" pre = true -> lacks "$" post = true -> lacks "$" (getenv name) = true ->
  subEnv getenv (pre +:+ String "$" name +:+ post) name = pre +:+ getenv name +:+ post.
Proof.
  intros Hpre Hpost Henv. unfold subEnv. rewrite expand_lacks by (done || lia).
  induction pre as [|c pre IH].
  - change ("" +:+ ?x) with x. change (String "$" name +:+ post) with (String "$" (name +:+ post)).
    simpl replace_all. change (String "$" (name +:+ post)) with (String "$" name +:+ post).
    rewrite prefix_app. f_equal. rewrite Nat.sub_0_r, replace_all_skip.
    by apply (replace_all_lacks _ _ "$").
  - rewrite lacks_cons in Hpre. bool_prop.
    change (String c pre +:+ ?x) with (String c (pre +:+ x)).
    rewrite replace_all_other by done. f_equal. by apply IH.
Qed.

Lemma sub_env_replaces_witness :
  subEnv (fun _ => "/home/al") "$HOME/.ssh/id" "HOME" = "/home/al/.ssh/id".
Proof. apply (sub_env_replaces (fun _ => "/home/al") "" "/.ssh/id" "HOME"); reflexivity. Defined.

(** With all three factors in force the words run together. *)
Lemma gen_auth_string_three c :
  SkipRSA c = false -> SkipTOTP c = false -> SkipPassphrase c = false ->
  GenAuthString c = "RSA, phone-app, andmemorable pass-phrase".
Proof. intros H1 H2 H3. unfold GenAuthString. by rewrite H1, H2, H3. Qed.
