(* ===== verification/IpAddr.v ===== *)
(** Addresses (ipaddr.go): a host and port taken apart, and the address of this
    host that is told to users. *)
From S2P Require Import Prelude.
From S2P Require Import GoStrings.

(** ** A host and its port *)

(** An error of the last step is returned with the host, which callers do not
    use. *)
Definition SplitHostPort (hostport : string) : outcome (string * Z) :=
  match GoStrings.SplitHostPort hostport with
  | Err e => Err ("bad addr '" +:+ hostport +:+ "': net.SplitHostPort() gave: " +:+ e)
  | Panic s => Panic s
  | Blocked => Blocked
  | Ok (host, sPort) =>
      let host := if (host =? "")%string then "127.0.0.1" else host in
      if (sPort =? "")%string then Err ("no port found in '" +:+ hostport +:+ "'")
      else match ParseUint sPort 64 with
           | (_, Some e) => Err e
           | (prt, None) => Ok (host, to_int64 prt)
           end
  end.

(** ** The address of this host *)

(** Four groups of digits. *)
Definition digits (s : string) : bool := negb (s =? "")%string && sall is_digit s.
Definition validIPv4addr (ip : string) : bool :=
  match Split "." ip with
  | [a; b; c; d] => forallb digits [a; b; c; d]
  | _ => false
  end.

(** A prefix, a byte of a range, a dot. *)
Definition prefix_class (pre : string) (lo hi : ascii) (ip : string) : bool :=
  HasPrefix ip pre &&
  match sdrop (String.length pre) ip with
  | String c rest => (nat_of_ascii lo <=? nat_of_ascii c)%nat && (nat_of_ascii c <=? nat_of_ascii hi)%nat && HasPrefix rest "."
  | "" => false
  end.

Definition privateIPv4addr (ip : string) : bool :=
  HasPrefix ip "127.0.0.1" || HasPrefix ip "10." || prefix_class "172.1" "6" "9" ip || prefix_class "172.2" "0" "9" ip ||
  prefix_class "172.3" "0" "1" ip || HasPrefix ip "192.168.".

Definition IsRoutableIPv4 (ip : string) : bool := negb (privateIPv4addr ip).

(** The addresses of the interfaces, each with whether it is a loopback. *)
Definition valid_addrs (addrs : list (string * bool)) : list string :=
  (fun a => a.1) <$> filter (fun a => negb a.2 && validIPv4addr a.1 && negb (a.1 =? "127.0.0.1")%string = true) addrs.

Definition GetExternalIP (addrs : list (string * bool)) : string :=
  match valid_addrs addrs with
  | [] => "127.0.0.1"
  | [ip] => ip
  | (ip :: _) as valid => default ip (List.find IsRoutableIPv4 valid)
  end.

(** ** Properties *)

(** The address that is told to users is one of this host's IPv4 addresses
    that are not loopbacks, and a routable one if there is any; without such an
    address it is 127.0.0.1. *)
Theorem external_ip_spec addrs :
  (valid_addrs addrs = [] -> GetExternalIP addrs = "127.0.0.1") /\
  (valid_addrs addrs <> [] -> (GetExternalIP addrs, false) ∈ addrs /\ validIPv4addr (GetExternalIP addrs) = true) /\
  (forall ip, ip ∈ valid_addrs addrs -> IsRoutableIPv4 ip = true -> IsRoutableIPv4 (GetExternalIP addrs) = true).
Proof.
  unfold GetExternalIP. split; [by intros ->|].
  assert (forall ip, ip ∈ valid_addrs addrs -> (ip, false) ∈ addrs /\ validIPv4addr ip = true) as Hv.
  { unfold valid_addrs. intros ip ([a lo] & -> & Hin%list_elem_of_filter)%list_elem_of_fmap. destruct Hin as [Hp Hin]. cbn in *.
    by destruct lo, (validIPv4addr a). }
  assert (forall f l (ip : string), List.find f l = Some ip -> ip ∈ l /\ f ip = true) as Hf.
  { clear. intros f l ip [? ?]%List.find_some. split; [by apply list_elem_of_In|done]. }
  destruct (valid_addrs addrs) as [|ip [|ip2 l]] eqn:E; [split; [done|]; intros ip H; by apply elem_of_nil in H|..].
  - split; [intros _; apply Hv, list_elem_of_here|]. by intros ip' ->%list_elem_of_singleton.
  - set (all := ip :: ip2 :: l) in *. destruct (List.find IsRoutableIPv4 all) as [x|] eqn:Ef.
    + apply Hf in Ef as [Hx Hr]. split; [intros _; by apply Hv|done].
    + split; [intros _; apply Hv, list_elem_of_here|]. intros ip' Hin Hr.
      apply list_elem_of_In, (List.find_none _ _ Ef) in Hin. by rewrite Hr in Hin.
Qed.

(** An address that is taken apart is a host without a default and a port of
    digits, of up to 64 bits: numbers that are no port pass, and from 2^63 on
    the port is negative. *)
Theorem split_host_port_spec host port :
  lacks ":" host = true -> lacks "[" host = true -> lacks "]" host = true -> 0 <= port < 2 ^ 64 ->
  SplitHostPort (host +:+ ":" +:+ itoa port) =
    Ok (if (host =? "")%string then "127.0.0.1" else host, if port <? 2 ^ 63 then port else port - 2 ^ 64).
Proof.
  intros H1 H2 H3 Hp. unfold SplitHostPort. change (":" +:+ itoa port) with (String ":" (itoa port)).
  assert (itoa port = pretty (Z.to_N port)) as Hi by (apply itoa_nonneg; lia).
  assert (sall is_digit (itoa port) = true) as Hd by (rewrite Hi; apply pretty_N_digits).
  rewrite SplitHostPort_join; [|first [done|(eapply sall_impl; [|exact Hd]); intros c Hc; by destruct c as [[] [] [] [] [] [] [] []]]..].
  assert (itoa port <> "") as Hne by (rewrite Hi; apply pretty_N_nonempty). apply String.eqb_neq in Hne as ->.
  rewrite Hi. rewrite ParseUint_ok by lia. do 2 f_equal. unfold to_int64.
  rewrite Z2N.id by lia. destruct (Z.ltb_spec port (2 ^ 63)).
  - rewrite Z.mod_small; lia.
  - replace (port + 2 ^ 63) with (port - 2 ^ 63 + 1 * 2 ^ 64) by lia. rewrite Z.mod_add by lia. rewrite Z.mod_small; lia.
Qed.

Lemma split_host_port_spec_witness : SplitHostPort "db:18446744073709551615" = Ok ("db", -1).
Proof. apply (split_host_port_spec "db" 18446744073709551615); [reflexivity..|lia]. Defined.
