(* ===== verification/UserDb.v ===== *)
(** The user database of the embedded sshd (user.go, amap.go, and the
    functions of server.go, rsa.go and filedb.go that store its files): users,
    logins and emails, [AddUser], [finishUserBuildout], [DelUser]. *)
From S2P Require Import Prelude.
From S2P Require Import GoStrings.

(** ** Data *)

(** Instants are nanoseconds since Go's zero time, so [IsZero] is [0]. *)
Definition IsZero (t : Z) : bool := t =? 0.

(** user.go, [LoginRecord]: one per public key. *)
Record LoginRecord := mkLogin {
  FirstTm : Z;
  LastTm : Z;
  SeenCount : Z;
  AcceptedCount : Z;
  PubFinger : string;
}.

Definition zero_login : LoginRecord := mkLogin 0 0 0 0 "".

(** user.go, [User]. [oneTime] is nil until the TOTP key is made or restored;
    it holds the key's URL. The parsed [PublicKey] is never read back. *)
Record User := mkUser {
  MyEmail : string;
  MyFullname : string;
  MyLogin : string;
  PublicKeyPath : string;
  PrivKeyPath : string;
  TOTPpath : string;
  QrPath : string;
  Issuer : string;
  SeenPubKey : gmap string LoginRecord;
  ScryptedPassword : string;
  ClearPw : string;
  TOTPorig : string;
  oneTime : option string;
  FirstLoginTime : Z;
  LastLoginTime : Z;
  LastLoginAddr : string;
  IPwhitelist : list string;
  DisabledAcct : bool;
}.

Definition set_PublicKeyPath (v : string) (u : User) : User :=
  let 'mkUser x0 x1 x2 _ x4 x5 x6 x7 x8 x9 x10 x11 x12 x13 x14 x15 x16 x17 := u in mkUser x0 x1 x2 v x4 x5 x6 x7 x8 x9 x10 x11 x12 x13 x14 x15 x16 x17.
Definition set_PrivKeyPath (v : string) (u : User) : User :=
  let 'mkUser x0 x1 x2 x3 _ x5 x6 x7 x8 x9 x10 x11 x12 x13 x14 x15 x16 x17 := u in mkUser x0 x1 x2 x3 v x5 x6 x7 x8 x9 x10 x11 x12 x13 x14 x15 x16 x17.
Definition set_TOTPpath (v : string) (u : User) : User :=
  let 'mkUser x0 x1 x2 x3 x4 _ x6 x7 x8 x9 x10 x11 x12 x13 x14 x15 x16 x17 := u in mkUser x0 x1 x2 x3 x4 v x6 x7 x8 x9 x10 x11 x12 x13 x14 x15 x16 x17.
Definition set_QrPath (v : string) (u : User) : User :=
  let 'mkUser x0 x1 x2 x3 x4 x5 _ x7 x8 x9 x10 x11 x12 x13 x14 x15 x16 x17 := u in mkUser x0 x1 x2 x3 x4 x5 v x7 x8 x9 x10 x11 x12 x13 x14 x15 x16 x17.
Definition set_SeenPubKey (v : gmap string LoginRecord) (u : User) : User :=
  let 'mkUser x0 x1 x2 x3 x4 x5 x6 x7 _ x9 x10 x11 x12 x13 x14 x15 x16 x17 := u in mkUser x0 x1 x2 x3 x4 x5 x6 x7 v x9 x10 x11 x12 x13 x14 x15 x16 x17.
Definition set_ScryptedPassword (v : string) (u : User) : User :=
  let 'mkUser x0 x1 x2 x3 x4 x5 x6 x7 x8 _ x10 x11 x12 x13 x14 x15 x16 x17 := u in mkUser x0 x1 x2 x3 x4 x5 x6 x7 x8 v x10 x11 x12 x13 x14 x15 x16 x17.
Definition set_ClearPw (v : string) (u : User) : User :=
  let 'mkUser x0 x1 x2 x3 x4 x5 x6 x7 x8 x9 _ x11 x12 x13 x14 x15 x16 x17 := u in mkUser x0 x1 x2 x3 x4 x5 x6 x7 x8 x9 v x11 x12 x13 x14 x15 x16 x17.
Definition set_TOTPorig (v : string) (u : User) : User :=
  let 'mkUser x0 x1 x2 x3 x4 x5 x6 x7 x8 x9 x10 _ x12 x13 x14 x15 x16 x17 := u in mkUser x0 x1 x2 x3 x4 x5 x6 x7 x8 x9 x10 v x12 x13 x14 x15 x16 x17.
Definition set_oneTime (v : option string) (u : User) : User :=
  let 'mkUser x0 x1 x2 x3 x4 x5 x6 x7 x8 x9 x10 x11 _ x13 x14 x15 x16 x17 := u in mkUser x0 x1 x2 x3 x4 x5 x6 x7 x8 x9 x10 x11 v x13 x14 x15 x16 x17.
Definition set_LastLoginTime (v : Z) (u : User) : User :=
  let 'mkUser x0 x1 x2 x3 x4 x5 x6 x7 x8 x9 x10 x11 x12 x13 _ x15 x16 x17 := u in mkUser x0 x1 x2 x3 x4 x5 x6 x7 x8 x9 x10 x11 x12 x13 v x15 x16 x17.
Definition set_LastLoginAddr (v : string) (u : User) : User :=
  let 'mkUser x0 x1 x2 x3 x4 x5 x6 x7 x8 x9 x10 x11 x12 x13 x14 _ x16 x17 := u in mkUser x0 x1 x2 x3 x4 x5 x6 x7 x8 x9 x10 x11 x12 x13 x14 v x16 x17.

Definition NewUser : User :=
  mkUser "" "" "" "" "" "" "" "" ∅ "" "" "" None 0 0 "" [] false.

(** ** The atomic map (amap.go)

    [None] is Go's nil map: reads find nothing, a write panics. *)
Module AtomicUserMap.
Definition t := option (gmap string User).

Definition NewAtomicUserMap : t := Some ∅.

Definition Get2 (m : t) (key : string) : option User := m ≫= (fun u => u !! key).

Definition Set_ (m : t) (key : string) (v : User) : outcome t :=
  match m with
  | Some u => Ok (Some (<[key := v]> u))
  | None => Panic "assignment to entry in nil map"
  end.

Definition Del (m : t) (key : string) : t := delete key <$> m.

(** A write through the pointer that [Get2] returned. *)
Definition update (m : t) (key : string) (f : User -> User) : t := alter f key <$> m.

Lemma Get2_Set m key v m' k :
  Set_ m key v = Ok m' -> Get2 m' k = if decide (key = k) then Some v else Get2 m k.
Proof. destruct m; simpl; intros; simplify_eq. simpl. by rewrite lookup_insert. Qed.

Lemma Get2_Del m key k : Get2 (Del m key) k = if decide (key = k) then None else Get2 m k.
Proof. destruct m; simpl; [by rewrite lookup_delete|by case_decide]. Qed.

Lemma Get2_update m key f k :
  Get2 (update m key f) k = if decide (key = k) then f <$> Get2 m k else Get2 m k.
Proof. destruct m; simpl; [|by case_decide]. rewrite lookup_alter. by destruct (decide (key = k)) as [->|]. Qed.

Lemma Set_some m key v u : Get2 m key = Some u -> exists m', Set_ m key v = Ok m'.
Proof. destruct m; simpl; [eauto|done]. Qed.

Lemma Del_Set m key v m' : Set_ m key v = Ok m' -> Get2 m key = None -> Del m' key = m.
Proof.
  destruct m; simpl; intros; simplify_eq. simpl. by rewrite delete_insert_eq, delete_id.
Qed.
End AtomicUserMap.
Import AtomicUserMap.

(** ** Logins and emails *)

Definition in_range (lo hi c : ascii) : bool :=
  ((Ascii.nat_of_ascii lo <=? Ascii.nat_of_ascii c) &&
   (Ascii.nat_of_ascii c <=? Ascii.nat_of_ascii hi))%nat.

(** [[-_a-z0-9]]. *)
Definition login_class (c : ascii) : bool :=
  Ascii.eqb c "-" || Ascii.eqb c "_" || in_range "a" "z" c || in_range "0" "9" c.

(** [loginRE]: [^[a-z][-_a-z0-9]{0,31}$]. *)
Definition loginRE (s : string) : bool :=
  match s with
  | "" => false
  | String c s' => in_range "a" "z" c && sall login_class s' && (String.length s' <=? 31)%nat
  end.

Definition alnum (c : ascii) : bool :=
  in_range "a" "z" c || in_range "A" "Z" c || in_range "0" "9" c.

(** [[\+-_.a-zA-Z0-9]]: [\+-_] is the range from the plus sign to the underscore. *)
Definition email_class (c : ascii) : bool := in_range "+" "_" c || Ascii.eqb c "." || alnum c.

(** [[-_.a-zA-Z0-9]]. *)
Definition domain_class (c : ascii) : bool :=
  Ascii.eqb c "-" || Ascii.eqb c "_" || Ascii.eqb c "." || alnum c.

Definition email_local (s : string) : bool :=
  match s with
  | "" => false
  | String c s' => alnum c && sall email_class s' && (String.length s' <=? 63)%nat
  end.

Definition email_domain (s : string) : bool :=
  (1 <=? String.length s)%nat && (String.length s <=? 255)%nat && sall domain_class s.

(** [emailAddressRE]: some [@] splits the text into a local part and a
    domain. *)
Definition emailAddressRE (s : string) : bool :=
  existsb (fun i => bool_decide (String.get i s = Some "@"%char) &&
                    email_local (stake i s) && email_domain (sdrop (S i) s))
          (seq 0 (String.length s)).

Definition loginREstring : string := "^[a-z][-_a-z0-9]{0,31}$".
Definition bad_login (login : string) : string :=
  "bad login: '" +:+ login +:+ "' did not conform to '" +:+ loginREstring +:+ "'".

Definition ValidLogin (login : string) : outcome unit :=
  if loginRE login then Ok tt else Err (bad_login login).

Definition ValidEmail (myemail : string) : outcome unit :=
  if emailAddressRE myemail then Ok tt
  else Err ("bad email: '" +:+ myemail +:+ "' did not conform").

(** ** The database and its files *)

Record HostDbPersist := mkPersist {
  Users : AtomicUserMap.t;
  HostPrivateKeyPath : string;
}.

(** The part of the configuration that the database reads. *)
Record HostCfg := mkHostCfg {
  EmbeddedSSHdHostDbPath : string;
  SkipTOTP : bool;
  SkipPassphrase : bool;
  SkipRSA : bool;
  BitLenRSAkeys : Z;
}.

(** The database in memory and the regular files on disk. *)
Record HostDb := mkHostDb {
  Persist : HostDbPersist;
  files : gmap string string;
}.

Definition with_users (m : AtomicUserMap.t) (h : HostDb) : HostDb :=
  mkHostDb (mkPersist m (HostPrivateKeyPath (Persist h))) (files h).
Definition with_files (f : gmap string string) (h : HostDb) : HostDb := mkHostDb (Persist h) f.

Section HostDb.
(** The libraries outside the repository and the operating system: the
    hash of a password, a fresh TOTP key (its URL and QR image), a fresh
    RSA key pair (private and public file contents), the encodings of the
    database, and whether a path can be opened for writing. *)
Context (scrypt_hash : string -> string)
        (new_totp : string -> string -> outcome (string * string))
        (gen_rsa : Z -> string -> outcome (string * string))
        (encode_db encode_json : HostDbPersist -> string)
        (can_write can_remove : string -> bool).
Context (cfg : HostCfg).

Definition msgpath : string := EmbeddedSSHdHostDbPath cfg +:+ "/msgp.db".
Definition userpath (username : string) : string :=
  EmbeddedSSHdHostDbPath cfg +:+ "/users/" +:+ username.
Definition Rsapath (username : string) : string := userpath username +:+ "/id_rsa".
Definition toptpath (username : string) : string := userpath username +:+ "/topt".

(** Writing a file whole; the error is the operating system's. *)
Definition write_file (path text : string) (h : HostDb) : outcome HostDb :=
  if can_write path then Ok (with_files (<[path := text]> (files h)) h)
  else Err ("open " +:+ path +:+ ": permission denied").

Definition file_exists (path : string) (h : HostDb) : bool :=
  bool_decide (is_Some (files h !! path)).

(** filedb.go, [SaveToDisk]: both files are opened (and created) first. *)
Definition SaveToDisk (h : HostDb) : HostDb * outcome unit :=
  match write_file msgpath "" h with
  | Ok h1 =>
      match write_file (msgpath +:+ ".json") "" h1 with
      | Ok h2 =>
          (with_files (<[msgpath := encode_db (Persist h)]>
                      (<[msgpath +:+ ".json" := encode_json (Persist h)]> (files h2))) h2, Ok tt)
      | Err e => (h1, Err e)
      | o => (h1, Panic "unreachable")
      end
  | Err e => (h, Err e)
  | o => (h, Panic "unreachable")
  end.

(** [HostDb.save]. *)
Definition save (h : HostDb) : HostDb * outcome unit :=
  let '(h', r) := SaveToDisk h in
  match r with
  | Err e => (h', Err ("HostDb: h.db.storeHostDb(h) gave error = '" +:+ e +:+ "'"))
  | _ => (h', r)
  end.

(** server.go, [TOTP.SaveToFile]: the secret and, when there is one, the
    QR code. *)
Definition SaveToFile (key png path : string) (h : HostDb) : outcome (HostDb * string) :=
  let? h := write_file path (key +:+ nl) h in
  if (png =? "")%string then Ok (h, "")
  else let qrPath := path +:+ "-qrcode.png" in
       let? h := write_file qrPath png h in Ok (h, qrPath).

(** rsa.go, [GenRSAKeyPair] with a path: both files are written or it
    panics. *)
Definition GenRSAKeyPair (rsaFile : string) (email : string) (h : HostDb) : outcome HostDb :=
  let? '(priv, pub) := panicOn (gen_rsa (BitLenRSAkeys cfg) email) in
  let? h := panicOn (write_file rsaFile priv h) in
  panicOn (write_file (rsaFile +:+ ".pub") pub h).

Definition built := (string * string * string)%type.

(** The two-factor and key parts of [finishUserBuildout]: the database, the
    user with its fields filled in, and the three paths. *)
Definition build_totp (user : User) (h : HostDb) : outcome (HostDb * User * string * string) :=
  if SkipTOTP cfg then Ok (h, user, "", "")
  else
    let? '(key, png) :=
      panicOn (new_totp (MyEmail user) (MyLogin user +:+ "/" +:+ Issuer user)) in
    let path := toptpath (MyLogin user) in
    let? '(h, qrPath) := panicOn (SaveToFile key png path h) in
    Ok (h, set_QrPath qrPath (set_oneTime (Some key) (set_TOTPorig key (set_TOTPpath path user))),
        path, qrPath).

Definition build_rsa (user : User) (h : HostDb) : outcome (HostDb * User * string) :=
  if SkipRSA cfg then Ok (h, user, "")
  else if negb (PrivKeyPath user =? "")%string && file_exists (PrivKeyPath user) h
  then Ok (h, user, PrivKeyPath user)
  else
    let rsaPath := Rsapath (MyLogin user) in
    let user := set_PublicKeyPath (rsaPath +:+ ".pub") (set_PrivKeyPath rsaPath user) in
    let? h := GenRSAKeyPair rsaPath (MyEmail user) h in
    Ok (h, user, rsaPath).

(** [finishUserBuildout]: the state afterwards and the result. A panic
    leaves no state worth describing. *)
Definition finishUserBuildout (user : User) (h : HostDb) : outcome (HostDb * outcome built) :=
  let user := if SkipPassphrase cfg then user
              else set_ScryptedPassword (scrypt_hash (ClearPw user)) user in
  let? '(h, user, toptPath, qrPath) := build_totp user h in
  let? '(h, user, rsaPath) := build_rsa user h in
  let user := set_ClearPw "" user in
  let? m := Set_ (Users (Persist h)) (MyLogin user) user in
  let '(h, r) := save (with_users m h) in
  Ok (h, let? _ := r in Ok (toptPath, qrPath, rsaPath)).

(** [AddUser]. *)
Definition AddUser (mylogin myemail pw issuer fullname extantPrivateKeyPath : string)
    (h : HostDb) : outcome (HostDb * outcome built) :=
  match ValidLogin mylogin with
  | Ok _ =>
      match Get2 (Users (Persist h)) mylogin with
      | Some _ =>
          Ok (h, Err ("user already exists; manually -deluser '" +:+ mylogin +:+ "' first!"))
      | None =>
          let rsaPath := if (extantPrivateKeyPath =? "")%string then Rsapath mylogin
                         else extantPrivateKeyPath in
          let '(priv, pub) := if SkipRSA cfg then ("", "") else (rsaPath, rsaPath +:+ ".pub") in
          finishUserBuildout
            (mkUser myemail fullname mylogin pub priv "" "" issuer ∅ "" pw "" None 0 0 "" [] false) h
      end
  | Err e => Ok (h, Err e)
  | Panic s => Panic s
  | Blocked => Blocked
  end.

(** [os.RemoveAll]: the path and everything below it, as far as it can be removed; the
    error when something is left. *)
Definition below (dir path : string) : bool :=
  (path =? dir)%string || String.prefix (dir +:+ "/") path.

Definition RemoveAll (dir : string) (h : HostDb) : HostDb * error_ :=
  let left := filter (fun pf => below dir pf.1 && can_remove pf.1 = false) (files h) in
  (with_files left h,
   if bool_decide (filter (fun pf => below dir pf.1 = true) left = ∅) then None else Some ("unlinkat " +:+ dir)).

(** [DelUser]. *)
Definition DelUser (mylogin : string) (h : HostDb) : HostDb * outcome unit :=
  match ValidLogin mylogin with
  | Ok _ =>
      match Get2 (Users (Persist h)) mylogin with
      | Some _ =>
          let '(h, err) := RemoveAll (userpath mylogin) h in
          let h := with_users (Del (Users (Persist h)) mylogin) h in
          match err with Some e => (h, Panic e) | None => save h end
      | None => (h, Err ("error in -userdel '" +:+ mylogin +:+ "': user not found."))
      end
  | Err e => (h, Err e)
  | _ => (h, Blocked)
  end.

Definition UserExists (mylogin : string) (h : HostDb) : bool :=
  bool_decide (is_Some (Get2 (Users (Persist h)) mylogin)).
End HostDb.

(** ** Logins are path components *)

Lemma loginRE_spec s :
  loginRE s = true <->
  exists c s', s = String c s' /\ in_range "a" "z" c = true /\ sall login_class s' = true /\
               (String.length s' <= 31)%nat.
Proof.
  destruct s as [|c s']; simpl; [naive_solver|].
  rewrite !andb_true_iff, Nat.leb_le. naive_solver.
Qed.

Lemma login_class_not_slash c : login_class c = true -> c <> "/"%char /\ c <> "."%char.
Proof. intros H. split; intros ->; vm_compute in H; discriminate. Qed.

Lemma login_no_slash s : loginRE s = true -> lacks "/" s = true /\ lacks "." s = true.
Proof.
  intros (c & s' & -> & Hc & Hs & _)%loginRE_spec. rewrite !lacks_cons.
  assert (login_class c = true) as Hc' by (unfold login_class; rewrite Hc; by rewrite !orb_true_r).
  destruct (login_class_not_slash c Hc').
  split; apply andb_true_iff; split; try (apply negb_true_iff; by apply Ascii.eqb_neq);
    (eapply sall_impl; [|exact Hs]); intros d Hd; apply login_class_not_slash in Hd;
    apply negb_true_iff, Ascii.eqb_neq; naive_solver.
Qed.

Lemma prefix_slash_inj a b x y :
  lacks "/" a = true -> lacks "/" b = true ->
  a +:+ String "/" x = b +:+ String "/" y -> a = b.
Proof.
  unfold lacks. revert b. induction a as [|c a IH]; intros [|d b] Ha Hb H; simpl in *.
  - done.
  - injection H as <- _. simpl in Hb. discriminate.
  - injection H as -> _. simpl in Ha. discriminate.
  - injection H as -> H. bool_prop. f_equal. by apply (IH b).
Qed.

Lemma app_inj_l (p a b : string) : p +:+ a = p +:+ b -> a = b.
Proof. induction p as [|c p IH]; simpl; [done|]. intros H. injection H as H. by apply IH. Qed.

(** No valid login's directory lies below another's. *)
Lemma userpath_disjoint cfg l1 l2 x :
  loginRE l1 = true -> loginRE l2 = true -> l1 <> l2 ->
  below (userpath cfg l1) (userpath cfg l2 +:+ "/" +:+ x) = false.
Proof.
  intros [H1 _]%login_no_slash [H2 _]%login_no_slash Hne.
  unfold below, userpath. rewrite !string_app_assoc. apply orb_false_iff. split.
  - apply String.eqb_neq. intros H%app_inj_l%app_inj_l.
    rewrite <- H, !lacks_app in H1. by rewrite andb_false_r in H1.
  - apply not_true_is_false. intros [y H]%prefix_spec. rewrite !string_app_assoc in H.
    apply app_inj_l, app_inj_l in H.
    change ("/" +:+ x) with (String "/" x) in H. change ("/" +:+ y) with (String "/" y) in H.
    symmetry in H. by apply prefix_slash_inj in H.
Qed.

(** The expression for emails admits path separators: an address can climb out
    of a directory that its name is used in. *)
Theorem valid_email_admits_paths :
  ValidEmail "a/../../../etc/cron.d/x@y" = Ok tt /\ ValidEmail "a@b@c" = Ok tt /\
  ValidLogin "a/../x" <> Ok tt.
Proof. vm_compute. repeat split; congruence. Qed.

(** ** The operations *)

Section HostDbFacts.
Context (scrypt_hash : string -> string)
        (new_totp : string -> string -> outcome (string * string))
        (gen_rsa : Z -> string -> outcome (string * string))
        (encode_db encode_json : HostDbPersist -> string)
        (can_write : string -> bool).
Context (cfg : HostCfg).

Abbreviation users h := (Users (Persist h)).
Abbreviation finish := (finishUserBuildout scrypt_hash new_totp gen_rsa encode_db encode_json can_write cfg).
Abbreviation add := (AddUser scrypt_hash new_totp gen_rsa encode_db encode_json can_write cfg).

Lemma write_file_persist p t h h' : write_file can_write p t h = Ok h' -> Persist h' = Persist h.
Proof. unfold write_file. case_match; intros; simplify_eq; done. Qed.

Lemma save_persist h : Persist (save encode_db encode_json can_write cfg h).1 = Persist h.
Proof.
  unfold save, SaveToDisk, write_file.
  by destruct (can_write (msgpath cfg)), (can_write (msgpath cfg +:+ ".json")).
Qed.

Lemma save_not_blocked h r :
  (save encode_db encode_json can_write cfg h).2 = r -> r = Ok tt \/ exists e, r = Err e.
Proof.
  intros <-. unfold save, SaveToDisk, write_file.
  destruct (can_write (msgpath cfg)), (can_write (msgpath cfg +:+ ".json")); simpl; eauto.
Qed.

Lemma build_totp_frame u h h' u' a b :
  build_totp new_totp can_write cfg u h = Ok (h', u', a, b) ->
  Persist h' = Persist h /\ MyLogin u' = MyLogin u /\ ScryptedPassword u' = ScryptedPassword u /\
  PrivKeyPath u' = PrivKeyPath u.
Proof.
  unfold build_totp, SaveToFile. destruct (SkipTOTP cfg); [naive_solver|].
  intros ([key png] & _ & H)%obind_ok. apply obind_ok in H as ([h1 q] & H1 & H).
  apply panicOn_ok, obind_ok in H1 as (h2 & H2%write_file_persist & H1).
  assert (Persist h1 = Persist h2) as Hp.
  { destruct (png =? "")%string; [naive_solver|].
    apply obind_ok in H1 as (h3 & H3%write_file_persist & ?). naive_solver. }
  destruct u. simpl in *. simplify_eq/=. split_and!; congruence.
Qed.

Lemma build_rsa_frame u h h' u' a :
  build_rsa gen_rsa can_write cfg u h = Ok (h', u', a) ->
  Persist h' = Persist h /\ MyLogin u' = MyLogin u /\ ScryptedPassword u' = ScryptedPassword u.
Proof.
  unfold build_rsa, GenRSAKeyPair. destruct (SkipRSA cfg); [naive_solver|].
  destruct (negb _ && _); [naive_solver|].
  intros (h1 & H1 & H)%obind_ok. apply obind_ok in H1 as ([priv pub] & _ & H1).
  apply obind_ok in H1 as (h2 & H2%panicOn_ok%write_file_persist & H3%panicOn_ok%write_file_persist).
  destruct u. simpl in *. simplify_eq/=. split_and!; congruence.
Qed.

(** What [finishUserBuildout] leaves in the map when it returns. *)
Lemma finish_users u h h' r :
  finish u h = Ok (h', r) ->
  exists u', MyLogin u' = MyLogin u /\ ClearPw u' = "" /\
    ScryptedPassword u' =
      (if SkipPassphrase cfg then ScryptedPassword u else scrypt_hash (ClearPw u)) /\
    forall k, Get2 (users h') k = if decide (MyLogin u = k) then Some u' else Get2 (users h) k.
Proof.
  unfold finishUserBuildout. set (u0 := if SkipPassphrase cfg then u else _).
  intros ([[[h1 u1] a] b] & (P1 & L1 & S1 & _)%build_totp_frame & H)%obind_ok.
  apply obind_ok in H as ([[h2 u2] c] & (P2 & L2 & S2)%build_rsa_frame & H).
  apply obind_ok in H as (m & Hm & H).
  destruct (save _ _ _ _ (with_users m h2)) as [h3 r3] eqn:Hs. simplify_eq.
  pose proof (save_persist (with_users m h2)) as Hp. rewrite Hs in Hp. simpl in Hp.
  assert (MyLogin u0 = MyLogin u /\ ScryptedPassword u0 =
    (if SkipPassphrase cfg then ScryptedPassword u else scrypt_hash (ClearPw u))) as [L0 S0].
  { subst u0. destruct (SkipPassphrase cfg), u; done. }
  exists (set_ClearPw "" u2).
  assert (MyLogin u2 = MyLogin u) as L by congruence.
  rewrite L0, <- L0, <- L1, <- L2 in *. rewrite <- S0, <- S1, <- S2. clear L0 L1 L2 S0 S1 S2.
  split_and!; [by destruct u2|by destruct u2|by destruct u2|].
  intros k. rewrite Hp. simpl. rewrite (Get2_Set _ _ _ _ _ Hm).
  assert (MyLogin (set_ClearPw "" u2) = MyLogin u2) as -> by (by destruct u2).
  by rewrite P2, P1.
Qed.

(** The invariant of the database: every key is a valid login and the login
    of its user, and no clear-text passphrase is held. *)
Definition wf_db (h : HostDb) : Prop :=
  forall k u, Get2 (users h) k = Some u ->
    loginRE k = true /\ MyLogin u = k /\ ClearPw u = "".

(** [AddUser] adds exactly one user, under a valid login that was free, with
    the hash of the passphrase and without the passphrase; every other user
    is untouched. *)
Theorem add_user_spec login email pw issuer full key h h' paths :
  add login email pw issuer full key h = Ok (h', Ok paths) ->
  loginRE login = true /\ Get2 (users h) login = None /\
  (exists u, Get2 (users h') login = Some u /\ MyLogin u = login /\ ClearPw u = "" /\
     (SkipPassphrase cfg = false -> ScryptedPassword u = scrypt_hash pw)) /\
  (forall k, k <> login -> Get2 (users h') k = Get2 (users h) k).
Proof.
  unfold AddUser, ValidLogin. destruct (loginRE login) eqn:HL; [|done].
  destruct (Get2 (users h) login) eqn:HG; [done|].
  destruct (if SkipRSA cfg then _ else _) as [priv pub].
  intros (u & Hl & Hc & Hs & Hk)%finish_users. simpl in *.
  split_and!; [done|done| |].
  - exists u. rewrite Hk, decide_True by done. split_and!; try done. intros E. by rewrite E in Hs.
  - intros k Hne. rewrite Hk. by rewrite decide_False.
Qed.

(** A taken or malformed login is refused and changes nothing. *)
Theorem add_user_refused login email pw issuer full key h :
  is_Some (Get2 (users h) login) \/ loginRE login = false ->
  exists e, add login email pw issuer full key h = Ok (h, Err e).
Proof.
  unfold AddUser, ValidLogin. intros [[u Hu]| -> ]; [|eauto].
  destruct (loginRE login); [|eauto]. rewrite Hu. eauto.
Qed.

Context (can_remove : string -> bool).
Abbreviation del := (DelUser encode_db encode_json can_write can_remove cfg).

(** Deleting takes the user out of memory, whether or not all files could be removed. *)
Lemma del_users login h u : loginRE login = true -> Get2 (users h) login = Some u ->
  users (del login h).1 = Del (users h) login.
Proof.
  intros HL HG. unfold DelUser, ValidLogin. rewrite HL, HG. cbn [RemoveAll]. unfold RemoveAll.
  destruct (bool_decide _); [by rewrite save_persist|done].
Qed.

(** C12: [AddUser], whether it succeeds or fails, and [DelUser] keep the
    invariant of the database. *)
Theorem user_db_invariant h :
  wf_db h ->
  (forall login email pw issuer full key h' r,
     add login email pw issuer full key h = Ok (h', r) -> wf_db h') /\
  (forall login, wf_db (del login h).1).
Proof.
  intros Hwf. split.
  - intros login email pw issuer full key h' r. unfold AddUser, ValidLogin.
    destruct (loginRE login) eqn:HL; [|naive_solver].
    destruct (Get2 (users h) login) eqn:HG; [naive_solver|].
    destruct (if SkipRSA cfg then _ else _) as [priv pub].
    intros (u & Hl & Hc & _ & Hk)%finish_users k v. rewrite Hk. simpl in *.
    case_decide; [|apply Hwf]. intros. by simplify_eq.
  - intros login k v. destruct (loginRE login) eqn:HL; [|unfold DelUser, ValidLogin; rewrite HL; exact (Hwf k v)].
    destruct (Get2 (users h) login) eqn:HG; [|unfold DelUser, ValidLogin; rewrite HL, HG; exact (Hwf k v)].
    rewrite (del_users login h u HL HG), Get2_Del. case_decide; [done|]. exact (Hwf k v).
Qed.

(** Deleting a user removes that user and everything below the user's directory that
    can be removed, and neither another user nor another user's files. *)
Theorem del_user_spec login h u :
  loginRE login = true -> Get2 (users h) login = Some u ->
  (forall k, Get2 (users (del login h).1) k =
             if decide (login = k) then None else Get2 (users h) k) /\
  (forall other x, loginRE other = true -> other <> login ->
     let p := userpath cfg other +:+ "/" +:+ x in
     p <> msgpath cfg -> p <> msgpath cfg +:+ ".json" ->
     files (del login h).1 !! p = files h !! p) /\
  (forall p, below (userpath cfg login) p = true -> p <> msgpath cfg -> p <> msgpath cfg +:+ ".json" ->
     files (del login h).1 !! p = None \/ can_remove p = false /\ files (del login h).1 !! p = files h !! p).
Proof.
  intros HL HG. split; [intros k; rewrite (del_users login h u HL HG); apply Get2_Del|].
  assert (forall p, p <> msgpath cfg -> p <> msgpath cfg +:+ ".json" ->
    files (del login h).1 !! p = files (RemoveAll can_remove (userpath cfg login) h).1 !! p) as Hs.
  { intros p H1 H2. unfold DelUser, ValidLogin. rewrite HL, HG. destruct (RemoveAll _ _ h) as [h1 [e|]]; [done|]. cbn [fst].
    unfold save, SaveToDisk, write_file.
    destruct (can_write (msgpath cfg)), (can_write (msgpath cfg +:+ ".json")); simpl; by rewrite ?lookup_insert_ne by done. }
  split.
  - intros other x HO Hne p Hp1 Hp2.
    rewrite (Hs p Hp1 Hp2). cbn [RemoveAll fst with_files files]. destruct (files h !! p) eqn:Hf.
    + apply map_lookup_filter_Some. split; [done|]. cbn [fst]. apply andb_false_iff. left. by apply userpath_disjoint.
    + apply map_lookup_filter_None. by left.
  - intros p Hb H1 H2. rewrite (Hs p H1 H2). cbn [RemoveAll fst with_files files]. destruct (can_remove p) eqn:Hc.
    + left. apply map_lookup_filter_None. right. intros x Hx. cbn [fst]. by rewrite Hb, Hc.
    + right. split; [done|]. destruct (files h !! p) eqn:Hf; [|apply map_lookup_filter_None; by left].
      apply map_lookup_filter_Some. split; [done|]. cbn [fst]. by rewrite Hc, andb_false_r.
Qed.

(** Adding a user and deleting it again restores the set of users. *)
Theorem add_del_roundtrip login email pw issuer full key h h' r :
  add login email pw issuer full key h = Ok (h', r) ->
  Get2 (users h) login = None -> loginRE login = true ->
  forall k, Get2 (users (del login h').1) k = Get2 (users h) k.
Proof.
  unfold AddUser, ValidLogin. intros H HG HL k. rewrite HL, HG in H.
  destruct (if SkipRSA cfg then _ else _) as [priv pub].
  apply finish_users in H as (u & _ & _ & _ & Hk). simpl in Hk.
  rewrite (del_users login h' u HL) by (by rewrite Hk, decide_True).
  rewrite Get2_Del, Hk. by case_decide; subst.
Qed.

(** A database read from a file that held no users has a nil map: the next
    [AddUser] panics. *)
Lemma add_user_nil_map u h : users h = None -> forall h' r, finish u h <> Ok (h', r).
Proof.
  intros Hn h' r H. unfold finishUserBuildout in H.
  apply obind_ok in H as ([[[h1 u1] a] b] & (P1 & _)%build_totp_frame & H).
  apply obind_ok in H as ([[h2 u2] c] & (P2 & _)%build_rsa_frame & H).
  rewrite P2, P1, Hn in H. done.
Qed.
End HostDbFacts.

(** ** Concrete instances *)

Definition demo_cfg : HostCfg := mkHostCfg "/db" false false false 4096.
Definition demo_db : HostDb := mkHostDb (mkPersist NewAtomicUserMap "/db.hostkey") ∅.
Definition demo_hash (pw : string) : string := "hash:" +:+ pw.
Definition demo_totp (mail issuer : string) : outcome (string * string) := Ok ("otpauth:" +:+ mail, "png").
Definition demo_rsa (bits : Z) (email : string) : outcome (string * string) := Ok ("priv", "pub").
Definition demo_encode (p : HostDbPersist) : string := "db".
Definition demo_add (login : string) (h : HostDb) : outcome (HostDb * outcome built) :=
  AddUser demo_hash demo_totp demo_rsa demo_encode demo_encode (fun _ => true) demo_cfg
    login "bob@example.com" "correct horse" "gosshtun" "Bob" "" h.

(** The database with one user, [bob]. *)
Definition demo_db_bob : HostDb :=
  match demo_add "bob" demo_db with Ok (h, _) => h | _ => demo_db end.

Lemma add_user_spec_witness :
  loginRE "bob" = true /\ Get2 (Users (Persist demo_db)) "bob" = None.
Proof.
  destruct (add_user_spec demo_hash demo_totp demo_rsa demo_encode demo_encode (fun _ => true) demo_cfg
    "bob" "bob@example.com" "correct horse" "gosshtun" "Bob" "" demo_db demo_db_bob
    ("/db/users/bob/topt", "/db/users/bob/topt-qrcode.png", "/db/users/bob/id_rsa"))
    as (H1 & H2 & _); [vm_compute; reflexivity|]. split; [exact H1|exact H2].
Defined.

Lemma add_user_refused_witness :
  exists e, demo_add "bob" demo_db_bob = Ok (demo_db_bob, Err e).
Proof. apply add_user_refused. left. vm_compute. eexists. reflexivity. Defined.

Lemma demo_db_wf : wf_db demo_db.
Proof. intros k u H. vm_compute in H. discriminate. Qed.

Lemma user_db_invariant_witness : wf_db demo_db_bob.
Proof.
  apply (proj1 (user_db_invariant demo_hash demo_totp demo_rsa demo_encode demo_encode (fun _ => true)
    demo_cfg (fun _ => true) demo_db demo_db_wf) "bob" "bob@example.com" "correct horse" "gosshtun" "Bob" "" demo_db_bob
    (Ok ("/db/users/bob/topt", "/db/users/bob/topt-qrcode.png", "/db/users/bob/id_rsa"))).
  vm_compute. reflexivity.
Defined.

Lemma del_user_spec_witness :
  Get2 (Users (Persist (DelUser demo_encode demo_encode (fun _ => true) (fun _ => true) demo_cfg "bob" demo_db_bob).1)) "bob" = None.
Proof.
  destruct (Get2 (Users (Persist demo_db_bob)) "bob") as [u|] eqn:E; [|vm_compute in E; discriminate].
  rewrite (proj1 (del_user_spec demo_encode demo_encode (fun _ => true) demo_cfg (fun _ => true) "bob" demo_db_bob u
    eq_refl E) "bob"). reflexivity.
Defined.

Lemma add_del_roundtrip_witness :
  Get2 (Users (Persist (DelUser demo_encode demo_encode (fun _ => true) (fun _ => true) demo_cfg "bob" demo_db_bob).1)) "al" =
  Get2 (Users (Persist demo_db)) "al".
Proof.
  apply (add_del_roundtrip demo_hash demo_totp demo_rsa demo_encode demo_encode (fun _ => true) demo_cfg (fun _ => true)
    "bob" "bob@example.com" "correct horse" "gosshtun" "Bob" "" demo_db demo_db_bob
    (Ok ("/db/users/bob/topt", "/db/users/bob/topt-qrcode.png", "/db/users/bob/id_rsa")));
    vm_compute; reflexivity.
Defined.

Definition demo_finish (u : User) (h : HostDb) : outcome (HostDb * outcome built) :=
  finishUserBuildout demo_hash demo_totp demo_rsa demo_encode demo_encode (fun _ => true) demo_cfg u h.

Definition intruder (login : string) : User :=
  mkUser "x@y" "" login "" "" "" "" "" ∅ "" "other" "" None 0 0 "" [] false.

(** The server hands the user of an add command straight to
    [finishUserBuildout], which checks neither the login nor whether it is
    taken: the invariant can be broken, and a user replaced. *)
Theorem finish_user_unchecked :
  (exists h r, demo_finish (intruder "../../root") demo_db = Ok (h, r) /\ ~ wf_db h) /\
  (exists h r u, demo_finish (intruder "bob") demo_db_bob = Ok (h, r) /\
     Get2 (Users (Persist h)) "bob" = Some u /\ ScryptedPassword u = demo_hash "other").
Proof.
  split.
  - destruct (demo_finish (intruder "../../root") demo_db) as [[h r]|e|m|] eqn:E;
      [|exfalso; vm_compute in E; discriminate..].
    exists h, r. split; [done|]. intros Hwf.
    apply finish_users in E as (u & _ & _ & _ & Hk).
    destruct (Hwf "../../root" u) as [H _]; [by rewrite Hk|]. vm_compute in H. discriminate.
  - destruct (demo_finish (intruder "bob") demo_db_bob) as [[h r]|e|m|] eqn:E;
      [|exfalso; vm_compute in E; discriminate..].
    exists h, r. apply finish_users in E as (u & _ & _ & Hs & Hk).
    exists u. split; [done|]. split; [by rewrite Hk|]. exact Hs.
Qed.
