(* ===== verification/OpenDb.v ===== *)
(** Opening the user database (user.go: [NewHostDb], [init], [loadOrCreate],
    [opendb], [gendir], [generateHostKey], [adoptNewHostKeyFromPath]; filedb.go:
    [NewFiledb]; rsa.go: [LoadRSAPrivateKey]). *)
From S2P Require Import Prelude.
From S2P Require Import GoStrings.
From S2P Require Import UserDb.
Import AtomicUserMap.

Section OpenDb.
(** Outside the repository: a fresh RSA key pair and its private key as it is
    read back, the encodings, what a file of the database holds ([None]: no
    database in it), directories, which paths can be opened for writing, the
    host's name. *)
Context (Signer : Type).
Context (gen_rsa : Z -> string -> outcome (string * string)) (ParsePrivateKey : string -> outcome Signer).
Context (encode_db encode_json : HostDbPersist -> string) (decode_db : string -> outcome (option HostDbPersist)).
Context (dirExists : string -> bool) (MkdirAll : string -> error_) (can_write : string -> bool) (Hostname : string).
Context (cfg : HostCfg).
Abbreviation path := (EmbeddedSSHdHostDbPath cfg).

Definition privpath : string := path +:+ ".hostkey".

Definition gendir : outcome unit :=
  if dirExists path then Ok tt
  else match MkdirAll path with
       | None => Ok tt
       | Some e => Err ("HostDb: MkdirAll on '" +:+ path +:+ "' failed: " +:+ e)
       end.

(** filedb.go, outside Windows: the file is opened, or created empty, and read.
    The "./" in front of a relative path names the same file. *)
Definition NewFiledb (filepath : string) (fs : gmap string string)
  : gmap string string * outcome (option HostDbPersist) :=
  match filepath with
  | "" => (fs, Err "filepath must not be empty string")
  | String c _ =>
      if can_write filepath then
        let fs := match fs !! filepath with Some _ => fs | None => <[filepath := ""]> fs end in
        (fs, decode_db (default "" (fs !! filepath)))
      else
        let filepath := if negb (Ascii.eqb c "/") && negb (Ascii.eqb c ".") then "./" +:+ filepath else filepath in
        (fs, Err ("error opening Filedb: '" +:+ filepath +:+ "'"))
  end.

Definition opendb (h : HostDb) : HostDb * outcome unit :=
  if (path =? "")%string then (h, Panic "opendb() called on empty h.cfg.EmbeddedSSHdHostDbPath")
  else
    match gendir with
    | Ok _ =>
        let '(fs, r) := NewFiledb (msgpath cfg) (files h) in
        let h := with_files fs h in
        match r with
        | Ok (Some persist) => (mkHostDb persist fs, Ok tt)
        | Ok None => (h, Ok tt)
        | Err e => (h, Err ("HostDb.opendb: create newFiledb at '" +:+ msgpath cfg +:+ "' failed: " +:+ e))
        | Panic s => (h, Panic s)
        | Blocked => (h, Blocked)
        end
    | Err e => (h, Err e)
    | Panic s => (h, Panic s)
    | Blocked => (h, Blocked)
    end.

Definition generateHostKey (h : HostDb) : outcome HostDb :=
  let? _ := gendir in
  let? h := GenRSAKeyPair gen_rsa can_write cfg privpath Hostname h in
  Ok (mkHostDb (mkPersist (Users (Persist h)) privpath) (files h)).

Definition LoadRSAPrivateKey (path : string) (h : HostDb) : outcome Signer :=
  match files h !! path with
  | None => Err ("got error 'open " +:+ path +:+ ": no such file or directory' trying to read path '" +:+ path +:+ "'")
  | Some buf =>
      match ParsePrivateKey buf with
      | Err e => Err ("got error '" +:+ e +:+ "' trying to parse private key from path '" +:+ path +:+ "'")
      | r => r
      end
  end.

Definition adoptNewHostKeyFromPath (path : string) (h : HostDb) : outcome (HostDb * Signer) :=
  if negb (file_exists path h)
  then Err ("error in adoptNewHostKeyFromPath: path '" +:+ path +:+ "' does not exist")
  else
    match LoadRSAPrivateKey path h with
    | Ok sshPrivKey => Ok (mkHostDb (mkPersist (Users (Persist h)) path) (files h), sshPrivKey)
    | Err e => Err ("error in adoptNewHostKeyFromPath: loading path '" +:+ path +:+
                    "' with LoadRSAPrivateKey() resulted in error '" +:+ e +:+ "'")
    | Panic s => Panic s
    | Blocked => Blocked
    end.

(** The database with its host key, or why there is none. A panic or an error on
    the way leaves a server that does not start. *)
Definition loadOrCreate (h : HostDb) : outcome (HostDb * Signer) :=
  let '(h, r) := opendb h in
  let? _ := panicOn r in
  let? h :=
    if negb (HostPrivateKeyPath (Persist h) =? "")%string && file_exists (HostPrivateKeyPath (Persist h)) h
    then Ok h
    else
      let? h := generateHostKey h in
      let '(h, r) := save encode_db encode_json can_write cfg h in
      match r with
      | Err e => Err ("HostDb.Save MarshalMsg failed: " +:+ e)
      | _ => let? _ := r in Ok h
      end in
  if file_exists (HostPrivateKeyPath (Persist h)) h
  then adoptNewHostKeyFromPath (HostPrivateKeyPath (Persist h)) h
  else Panic ("missing h.Persist.HostPrivateKeyPath='" +:+ HostPrivateKeyPath (Persist h) +:+ "'").

(** [NewHostDb] with [init], on the files of the disk. *)
Definition NewHostDb (fs : gmap string string) : outcome (HostDb * Signer) :=
  loadOrCreate (mkHostDb (mkPersist NewAtomicUserMap privpath) fs).
End OpenDb.

(** ** What is kept *)

(** Of a user everything but the TOTP object is stored; a map without users is
    read back as a nil map. *)
Definition saved_users (m : AtomicUserMap.t) : AtomicUserMap.t :=
  match m with
  | Some u => if decide (u = ∅) then None else Some (set_oneTime None <$> u)
  | None => None
  end.
Definition saved (p : HostDbPersist) : HostDbPersist := mkPersist (saved_users (Users p)) (HostPrivateKeyPath p).

Lemma Get2_saved m k : Get2 (saved_users m) k = set_oneTime None <$> Get2 m k.
Proof.
  destruct m as [u|]; [|done]. simpl. case_decide as E; simpl; [by rewrite E, lookup_empty|]. by rewrite lookup_fmap.
Qed.

Section Facts.
Context {Signer : Type} (gen_rsa : Z -> string -> outcome (string * string)) (ParsePrivateKey : string -> outcome Signer).
Context (encode_db encode_json : HostDbPersist -> string) (decode_db : string -> outcome (option HostDbPersist)).
Context (dirExists : string -> bool) (MkdirAll : string -> error_) (can_write : string -> bool) (Hostname : string).
Context (cfg : HostCfg).
Abbreviation NewHostDb := (NewHostDb Signer gen_rsa ParsePrivateKey encode_db encode_json decode_db dirExists MkdirAll can_write Hostname cfg).
Abbreviation path := (EmbeddedSSHdHostDbPath cfg).
Abbreviation privpath := (privpath cfg).
Abbreviation msgpath := (msgpath cfg).

(** The encoding as greenpack documents it: what was stored is read back, and
    an empty file holds no database. *)
Context (decode_encode : forall p, decode_db (encode_db p) = Ok (Some (saved p))).
Context (decode_empty : decode_db "" = Ok None).
Context (path_set : path <> "") (dir_made : gendir dirExists MkdirAll cfg = Ok tt).

Lemma paths_differ : privpath <> msgpath /\ privpath <> msgpath +:+ ".json" /\ privpath +:+ ".pub" <> msgpath /\
  privpath +:+ ".pub" <> msgpath +:+ ".json" /\ privpath <> privpath +:+ ".pub" /\ msgpath <> msgpath +:+ ".json".
Proof.
  unfold OpenDb.privpath, UserDb.msgpath. rewrite !string_app_assoc.
  split_and!; intros E; apply app_inj_l in E; done.
Qed.

Lemma NewFiledb_present text fs :
  can_write msgpath = true -> fs !! msgpath = Some text -> NewFiledb decode_db can_write msgpath fs = (fs, decode_db text).
Proof.
  intros Hw Hf. unfold NewFiledb. destruct msgpath as [|c s] eqn:E; [unfold UserDb.msgpath in E; by destruct path|].
  rewrite Hw, Hf. by rewrite Hf.
Qed.

Lemma file_exists_some p h text : files h !! p = Some text -> file_exists p h = true.
Proof. intros H. unfold file_exists. apply bool_decide_true. by eexists. Qed.
Lemma file_exists_none p h : files h !! p = None -> file_exists p h = false.
Proof. intros H. unfold file_exists. apply bool_decide_false. rewrite H. by intros [? ?]. Qed.

Lemma save_spec h h' :
  save encode_db encode_json can_write cfg h = (h', Ok tt) ->
  Persist h' = Persist h /\ files h' !! msgpath = Some (encode_db (Persist h)).
Proof.
  intros H. split; [by rewrite <- (save_persist encode_db encode_json can_write cfg h), H|].
  unfold save, SaveToDisk, write_file in H. destruct (can_write msgpath); [|done].
  destruct (can_write (msgpath +:+ ".json")); [|done]. injection H as <-. cbn. by rewrite lookup_insert_eq.
Qed.

(** A database on disk, with its key, is opened as it is. *)
Lemma open_existing h key s :
  can_write msgpath = true -> files h !! msgpath = Some (encode_db (Persist h)) ->
  HostPrivateKeyPath (Persist h) <> "" -> files h !! HostPrivateKeyPath (Persist h) = Some key ->
  ParsePrivateKey key = Ok s ->
  NewHostDb (files h) = Ok (mkHostDb (saved (Persist h)) (files h), s).
Proof.
  intros Hw Hf Hp Hk Hs. unfold OpenDb.NewHostDb, loadOrCreate, opendb. rewrite (proj2 (String.eqb_neq _ _) path_set).
  rewrite dir_made. cbn [files]. rewrite (NewFiledb_present _ _ Hw Hf), decode_encode.
  cbn [panicOn obind Persist files]. unfold file_exists. cbn [files]. unfold saved at 1 2. cbn [HostPrivateKeyPath].
  apply String.eqb_neq in Hp as ->. cbn [negb andb]. rewrite bool_decide_true by (by eexists). cbn [obind Persist HostPrivateKeyPath saved].
  unfold adoptNewHostKeyFromPath, file_exists, LoadRSAPrivateKey. cbn [files]. rewrite bool_decide_true by (by eexists).
  cbn [negb]. rewrite Hk, Hs. done.
Qed.

(** Whatever the state of the database, once it has been saved, a new
    process that opens it finds the same users, each with everything that was
    known of it, and the same host key, and changes no file. *)
Theorem reopen_roundtrip h key s h' :
  can_write msgpath = true -> HostPrivateKeyPath (Persist h) <> "" ->
  save encode_db encode_json can_write cfg h = (h', Ok tt) ->
  files h' !! HostPrivateKeyPath (Persist h) = Some key -> ParsePrivateKey key = Ok s ->
  exists h'', NewHostDb (files h') = Ok (h'', s) /\ files h'' = files h' /\
    HostPrivateKeyPath (Persist h'') = HostPrivateKeyPath (Persist h) /\
    forall k, Get2 (Users (Persist h'')) k = set_oneTime None <$> Get2 (Users (Persist h)) k.
Proof.
  intros Hw Hp Hsave Hk Hs. destruct (save_spec _ _ Hsave) as [HP Hf].
  eexists. split; [apply (open_existing h' key s); rewrite ?HP; done|]. cbn. rewrite HP.
  split_and!; try done. intros k. apply Get2_saved.
Qed.

(** The files of a new database. *)
Definition new_files : list string := [msgpath; msgpath +:+ ".json"; privpath; privpath +:+ ".pub"].

Lemma NewFiledb_absent fs :
  can_write msgpath = true -> fs !! msgpath = None ->
  NewFiledb decode_db can_write msgpath fs = (<[msgpath := ""]> fs, Ok None).
Proof.
  intros Hw Hf. unfold NewFiledb. destruct msgpath as [|c s] eqn:E; [unfold UserDb.msgpath in E; by destruct path|].
  rewrite Hw, Hf, lookup_insert_eq. simpl. by rewrite decode_empty.
Qed.

Lemma create fs priv pub s :
  Forall (fun p => can_write p = true) new_files -> fs !! msgpath = None -> fs !! privpath = None ->
  gen_rsa (BitLenRSAkeys cfg) Hostname = Ok (priv, pub) -> ParsePrivateKey priv = Ok s ->
  let p := mkPersist NewAtomicUserMap privpath in
  NewHostDb fs = Ok (mkHostDb p (<[msgpath := encode_db p]> (<[msgpath +:+ ".json" := encode_json p]>
    (<[msgpath +:+ ".json" := ""]> (<[msgpath := ""]>
    (<[privpath +:+ ".pub" := pub]> (<[privpath := priv]> (<[msgpath := ""]> fs))))))), s).
Proof.
  intros Hw Hm Hpk Hg Hs p. unfold new_files in Hw. rewrite !Forall_cons in Hw. destruct Hw as (Hw1 & Hw2 & Hw3 & Hw4 & _).
  destruct paths_differ as (D1 & D2 & D3 & D4 & D5 & D6).
  unfold OpenDb.NewHostDb, loadOrCreate, opendb. rewrite (proj2 (String.eqb_neq _ _) path_set), dir_made. cbn [files].
  rewrite (NewFiledb_absent _ Hw1 Hm). cbn [panicOn obind with_files Persist HostPrivateKeyPath files].
  rewrite (file_exists_none privpath) by (cbn; by rewrite lookup_insert_ne). rewrite andb_false_r.
  unfold generateHostKey. rewrite dir_made. unfold GenRSAKeyPair. rewrite Hg. unfold write_file. rewrite Hw3, Hw4.
  cbn [panicOn obind with_files Persist Users files]. unfold save, SaveToDisk, write_file. rewrite Hw1, Hw2.
  cbn [obind with_files Persist Users files HostPrivateKeyPath].
  assert (forall a b c d : string, (<[msgpath := a]> (<[msgpath +:+ ".json" := b]> (<[msgpath +:+ ".json" := c]> (<[msgpath := d]>
    (<[privpath +:+ ".pub" := pub]> (<[privpath := priv]> (<[msgpath := ""]> fs)))))) : gmap string string) !! privpath = Some priv) as HL.
  { intros a b c d. rewrite !lookup_insert_ne by done. by rewrite lookup_insert_eq. }
  unfold adoptNewHostKeyFromPath. rewrite (file_exists_some privpath _ priv) by apply HL. cbn [negb].
  unfold LoadRSAPrivateKey. unfold with_files. cbn [files Persist Users]. rewrite HL, Hs. done.
Qed.

(** Where there is neither a database nor a host key, opening makes both: no
    users, a fresh host key which the server uses, both on disk; no other file
    is touched. *)
Theorem database_created fs priv pub s :
  Forall (fun p => can_write p = true) new_files -> fs !! msgpath = None -> fs !! privpath = None ->
  gen_rsa (BitLenRSAkeys cfg) Hostname = Ok (priv, pub) -> ParsePrivateKey priv = Ok s ->
  exists h, NewHostDb fs = Ok (h, s) /\ (forall k, Get2 (Users (Persist h)) k = None) /\
    HostPrivateKeyPath (Persist h) = privpath /\ files h !! privpath = Some priv /\
    files h !! msgpath = Some (encode_db (Persist h)) /\
    forall p, p ∉ new_files -> files h !! p = fs !! p.
Proof.
  intros Hw Hm Hpk Hg Hs. eexists. split; [by apply (create fs priv pub s)|].
  destruct paths_differ as (D1 & D2 & D3 & D4 & D5 & D6). cbn [Persist Users HostPrivateKeyPath files].
  split_and!; try done.
  - rewrite !lookup_insert_ne by done. by rewrite lookup_insert_eq.
  - by rewrite lookup_insert_eq.
  - intros p Hp. unfold new_files in Hp. rewrite !not_elem_of_cons in Hp. destruct Hp as (H1 & H2 & H3 & H4 & _).
    by rewrite !lookup_insert_ne by done.
Qed.

(** A database that is opened again before it has a user is read back with
    a nil map of users: no user can be added to it, every attempt ends in a
    panic. *)
Theorem first_user_after_restart_panics scrypt_hash new_totp fs priv pub s :
  Forall (fun p => can_write p = true) new_files -> fs !! msgpath = None -> fs !! privpath = None ->
  gen_rsa (BitLenRSAkeys cfg) Hostname = Ok (priv, pub) -> ParsePrivateKey priv = Ok s ->
  exists h h', NewHostDb fs = Ok (h, s) /\ NewHostDb (files h) = Ok (h', s) /\
    forall login email pw issuer full key h'', loginRE login = true ->
      forall r, AddUser scrypt_hash new_totp gen_rsa encode_db encode_json can_write cfg login email pw issuer full key h' <> Ok (h'', r).
Proof.
  intros Hw Hm Hpk Hg Hs. destruct paths_differ as (D1 & D2 & D3 & D4 & D5 & D6).
  eexists _, (mkHostDb (saved (mkPersist NewAtomicUserMap privpath)) _).
  split; [by apply (create fs priv pub s)|].
  split.
  { refine (open_existing (mkHostDb (mkPersist NewAtomicUserMap privpath) _) priv s _ _ _ _ Hs).
    - unfold new_files in Hw. rewrite Forall_cons in Hw. by destruct Hw.
    - cbn [files Persist]. by rewrite lookup_insert_eq.
    - cbn [Persist HostPrivateKeyPath]. unfold OpenDb.privpath. by destruct path.
    - cbn [files Persist HostPrivateKeyPath]. rewrite !lookup_insert_ne by done. by rewrite lookup_insert_eq. }
  intros login email pw issuer full key h'' Hl r. unfold AddUser, ValidLogin. rewrite Hl. cbn [Persist Users saved saved_users].
  destruct (if SkipRSA cfg then _ else _) as [pr pu]. apply add_user_nil_map. done.
Qed.
End Facts.

(** ** A concrete encoding *)

(** Numbers as text, by their bits. *)
Fixpoint pos_text (p : positive) : string :=
  match p with xH => "" | xO p => String "0" (pos_text p) | xI p => String "1" (pos_text p) end.
Fixpoint text_pos (s : string) : positive :=
  match s with "" => xH | String c s => if Ascii.eqb c "1" then xI (text_pos s) else xO (text_pos s) end.
Lemma text_pos_text p : text_pos (pos_text p) = p.
Proof. induction p as [p IH|p IH|]; simpl; by rewrite ?IH. Qed.

#[export] Instance LoginRecord_eq_dec : EqDecision LoginRecord.
Proof. solve_decision. Defined.
(** A record as the list of its fields: the encoding stays small. *)
#[export] Instance LoginRecord_countable : Countable LoginRecord.
Proof.
  refine (inj_countable (fun '(mkLogin a b c d e) => [countable.encode a; countable.encode b; countable.encode c; countable.encode d; countable.encode e])
    (fun l => match l with
              | [a; b; c; d; e] =>
                  a ← countable.decode a; b ← countable.decode b; c ← countable.decode c; d ← countable.decode d;
                  e ← countable.decode e; Some (mkLogin a b c d e)
              | _ => None
              end) _).
  intros []. by rewrite !countable.decode_encode.
Defined.
#[export] Instance User_eq_dec : EqDecision User.
Proof. solve_decision. Defined.
#[export] Instance User_countable : Countable User.
Proof.
  refine (inj_countable (fun '(mkUser a b c d e f g h i j k l m n o p q r) =>
      [countable.encode a; countable.encode b; countable.encode c; countable.encode d; countable.encode e; countable.encode f; countable.encode g; countable.encode h; countable.encode i;
       countable.encode j; countable.encode k; countable.encode l; countable.encode m; countable.encode n; countable.encode o; countable.encode p; countable.encode q; countable.encode r])
    (fun l => match l with
              | [a; b; c; d; e; f; g; h; i; j; k; l; m; n; o; p; q; r] =>
                  a ← countable.decode a; b ← countable.decode b; c ← countable.decode c; d ← countable.decode d; e ← countable.decode e; f ← countable.decode f;
                  g ← countable.decode g; h ← countable.decode h; i ← countable.decode i; j ← countable.decode j; k ← countable.decode k; l ← countable.decode l;
                  m ← countable.decode m; n ← countable.decode n; o ← countable.decode o; p ← countable.decode p; q ← countable.decode q; r ← countable.decode r;
                  Some (mkUser a b c d e f g h i j k l m n o p q r)
              | _ => None
              end) _).
  intros []. by rewrite !countable.decode_encode.
Defined.

Definition code (p : HostDbPersist) : string :=
  String "d" (pos_text (countable.encode (saved_users (Users p), HostPrivateKeyPath p))).
Definition uncode (s : string) : outcome (option HostDbPersist) :=
  match s with
  | "" => Ok None
  | String _ s =>
      match countable.decode (text_pos s) with
      | Some (m, k) => Ok (Some (mkPersist m k))
      | None => Err "bad file"
      end
  end.
Lemma uncode_code p : uncode (code p) = Ok (Some (saved p)).
Proof. unfold uncode, code. by rewrite text_pos_text, countable.decode_encode. Qed.

Definition key_of (key : string) : outcome string := if (key =? "")%string then Err "no key" else Ok key.
Definition disk_dir : gendir (fun _ => true) (fun _ => None) demo_cfg = Ok tt := eq_refl.
Definition demo_open : gmap string string -> outcome (HostDb * string) :=
  NewHostDb string demo_rsa key_of code code uncode (fun _ => true) (fun _ => None) (fun _ => true) "host" demo_cfg.

Lemma database_created_witness :
  exists h, demo_open ∅ = Ok (h, "priv") /\ Get2 (Users (Persist h)) "bob" = None.
Proof.
  destruct (database_created demo_rsa key_of code code uncode (fun _ => true) (fun _ => None) (fun _ => true) "host" demo_cfg
    eq_refl ltac:(discriminate) disk_dir ∅ "priv" "pub" "priv" ltac:(by repeat constructor) eq_refl eq_refl eq_refl eq_refl)
    as (h & Hh & Hu & _). exists h. split; [exact Hh|apply Hu].
Defined.

Definition demo_stored : HostDb := mkHostDb (mkPersist (Some {["bob" := NewUser]}) "/key") {["/key" := "priv"]}.
Lemma reopen_roundtrip_witness :
  exists h, demo_open (files (save code code (fun _ => true) demo_cfg demo_stored).1) = Ok (h, "priv") /\
    Get2 (Users (Persist h)) "bob" = Some NewUser.
Proof.
  destruct (reopen_roundtrip demo_rsa key_of code code uncode (fun _ => true) (fun _ => None) (fun _ => true) "host" demo_cfg
    uncode_code ltac:(discriminate) disk_dir demo_stored "priv" "priv" (save code code (fun _ => true) demo_cfg demo_stored).1
    eq_refl ltac:(discriminate) eq_refl eq_refl eq_refl) as (h & Hh & _ & _ & Hu).
  exists h. split; [exact Hh|]. rewrite Hu. reflexivity.
Defined.

Lemma first_user_after_restart_panics_witness :
  exists h h', demo_open ∅ = Ok (h, "priv") /\ demo_open (files h) = Ok (h', "priv").
Proof.
  destruct (first_user_after_restart_panics demo_rsa key_of code code uncode (fun _ => true) (fun _ => None) (fun _ => true) "host" demo_cfg
    uncode_code eq_refl ltac:(discriminate) disk_dir demo_hash demo_totp ∅ "priv" "pub" "priv"
    ltac:(by repeat constructor) eq_refl eq_refl eq_refl eq_refl) as (h & h' & H1 & H2 & _).
  exists h, h'. split; [exact H1|exact H2].
Defined.
