(* ===== verification/Wire.v ===== *)
(** The SSH wire format (xendor/github.com/glycerine/xcryptossh: messages.go,
    the append helpers of common.go, the signatures of certs.go): the message
    types, [Marshal], [Unmarshal] and [decode]. A byte slice is a [string]. *)
From S2P Require Import Prelude.
From S2P Require Import GoStrings.

(** ** Bytes and big-endian numbers *)

Definition byte (z : Z) : ascii := ascii_of_N (Z.to_N (z mod 256)).
Definition val (c : ascii) : Z := Z.of_N (N_of_ascii c).
Definition slen (s : string) : Z := Z.of_nat (String.length s).

(** The [k] low bytes of [n], most significant first. *)
Fixpoint be_bytes (k : nat) (n : Z) : string :=
  match k with
  | O => ""
  | S k' => String (byte (Z.shiftr n (8 * Z.of_nat k'))) (be_bytes k' n)
  end.

Fixpoint be_go (acc : Z) (s : string) : Z :=
  match s with
  | "" => acc
  | String c s' => be_go (acc * 256 + val c) s'
  end.
Definition be (s : string) : Z := be_go 0 s.

(** common.go: the append helpers. *)
Definition appendU16 (buf : string) (n : Z) : string := buf +:+ be_bytes 2 n.
Definition appendU32 (buf : string) (n : Z) : string := buf +:+ be_bytes 4 n.
Definition appendU64 (buf : string) (n : Z) : string := buf +:+ be_bytes 8 n.
Definition appendInt (buf : string) (n : Z) : string := appendU32 buf (to_uint32 n).
Definition appendString (buf s : string) : string := appendInt buf (slen s) +:+ s.
Definition appendBool (buf : string) (b : bool) : string :=
  buf +:+ String (byte (if b then 1 else 0)) "".

(** messages.go: the parsers of the basic types; [None] is [ok = false]. *)
Definition parseUint32 (data : string) : option (Z * string) :=
  if slen data <? 4 then None else Some (be (stake 4 data), sdrop 4 data).

Definition parseUint64 (data : string) : option (Z * string) :=
  if slen data <? 8 then None else Some (be (stake 8 data), sdrop 8 data).

Definition parseString (data : string) : option (string * string) :=
  if slen data <? 4 then None
  else
    let length := be (stake 4 data) in
    let data := sdrop 4 data in
    if to_uint32 (slen data) <? length then None
    else Some (stake (Z.to_nat length) data, sdrop (Z.to_nat length) data).

Definition comma : ascii := ",".

Definition parseNameList (data : string) : option (list string * string) :=
  match parseString data with
  | None => None
  | Some (contents, rest) =>
      if (contents =? "")%string then Some ([], rest) else Some (Split comma contents, rest)
  end.

(** *** Multiple-precision integers *)

(** [big.Int.BitLen] and [big.Int.Bytes], of the absolute value. *)
Definition BitLen (n : Z) : Z := if n =? 0 then 0 else Z.log2 (Z.abs n) + 1.
Definition Bytes (n : Z) : string := be_bytes (Z.to_nat ((BitLen n + 7) / 8)) (Z.abs n).

(** [b & 0x80 != 0] and [b ^ 0xff]. *)
Definition hi (c : ascii) : bool := Z.land (val c) 128 =? 128.
Definition flip (c : ascii) : ascii := byte (Z.lxor (val c) 255).
Fixpoint smap (f : ascii -> ascii) (s : string) : string :=
  match s with "" => "" | String c s' => String (f c) (smap f s') end.
Definition hi_first (s : string) : bool :=
  match s with "" => false | String c _ => hi c end.

Definition parseInt (data : string) : option (Z * string) :=
  match parseString data with
  | None => None
  | Some (contents, rest) =>
      Some (if hi_first contents then - (be (smap flip contents) + 1) else be contents, rest)
  end.

(** The content that [marshalInt] writes after the length. *)
Definition int_content (n : Z) : string :=
  if n <? 0 then
    let bytes := smap flip (Bytes (- n - 1)) in
    if (bytes =? "")%string || negb (hi_first bytes) then String (byte 255) bytes else bytes
  else if n =? 0 then ""
  else
    let bytes := Bytes n in
    if negb (bytes =? "")%string && hi_first bytes then String (byte 0) bytes else bytes.

Definition marshalInt (n : Z) : string :=
  be_bytes 4 (slen (int_content n)) +:+ int_content n.

(** The room that [marshalStruct] reserves for it. *)
Definition intLength (n : Z) : Z :=
  4 + (if n <? 0 then
         let bitLen := BitLen (- n - 1) in
         (if bitLen mod 8 =? 0 then 1 else 0) + (bitLen + 7) / 8
       else if n =? 0 then 0
       else
         let bitLen := BitLen n in
         (if bitLen mod 8 =? 0 then 1 else 0) + (bitLen + 7) / 8).

(** ** Message types *)

(** The kinds of field that the two reflective loops accept, and their values. *)
Inductive kind :=
| KBool | KArray (n : nat) | KUint64 | KUint32 | KUint8 | KString | KBytes | KRest | KNames | KInt.

Inductive value :=
| VBool (b : bool)
| VArray (s : string)
| VUint64 (n : Z)
| VUint32 (n : Z)
| VUint8 (n : Z)
| VString (s : string)
| VBytes (s : string)
| VRest (s : string)
| VNames (l : list string)
| VInt (n : Z).

(** A struct type: its name, its [sshtype] tags and its fields. *)
Record msg_type := mkType {
  t_name : string;
  typeTags : list Z;
  t_fields : list (string * kind);
}.

#[export] Instance kind_eq_dec : EqDecision kind.
Proof. solve_decision. Defined.
#[export] Instance value_eq_dec : EqDecision value.
Proof. solve_decision. Defined.
#[export] Instance msg_type_eq_dec : EqDecision msg_type.
Proof. solve_decision. Defined.

Definition disconnectMsg := mkType "disconnectMsg" [1]
  [("Reason", KUint32); ("Message", KString); ("Language", KString)].
Definition kexInitMsg := mkType "kexInitMsg" [20]
  [("Cookie", KArray 16); ("KexAlgos", KNames); ("ServerHostKeyAlgos", KNames);
   ("CiphersClientServer", KNames); ("CiphersServerClient", KNames);
   ("MACsClientServer", KNames); ("MACsServerClient", KNames);
   ("CompressionClientServer", KNames); ("CompressionServerClient", KNames);
   ("LanguagesClientServer", KNames); ("LanguagesServerClient", KNames);
   ("FirstKexFollows", KBool); ("Reserved", KUint32)].
Definition kexDHInitMsg := mkType "kexDHInitMsg" [30] [("X", KInt)].
Definition kexECDHInitMsg := mkType "kexECDHInitMsg" [30] [("ClientPubKey", KBytes)].
Definition kexECDHReplyMsg := mkType "kexECDHReplyMsg" [31]
  [("HostKey", KBytes); ("EphemeralPubKey", KBytes); ("Signature", KBytes)].
Definition kexDHReplyMsg := mkType "kexDHReplyMsg" [31]
  [("HostKey", KBytes); ("Y", KInt); ("Signature", KBytes)].
Definition serviceRequestMsg := mkType "serviceRequestMsg" [5] [("Service", KString)].
Definition serviceAcceptMsg := mkType "serviceAcceptMsg" [6] [("Service", KString)].
Definition userAuthRequestMsg := mkType "userAuthRequestMsg" [50]
  [("User", KString); ("Service", KString); ("Method", KString); ("Payload", KRest)].
Definition userAuthSuccessMsg := mkType "userAuthSuccessMsg" [] [].
Definition userAuthFailureMsg := mkType "userAuthFailureMsg" [51]
  [("Methods", KNames); ("PartialSuccess", KBool)].
Definition userAuthInfoRequestMsg := mkType "userAuthInfoRequestMsg" [60]
  [("User", KString); ("Instruction", KString); ("DeprecatedLanguage", KString);
   ("NumPrompts", KUint32); ("Prompts", KRest)].
Definition channelOpenMsg := mkType "channelOpenMsg" [90]
  [("ChanType", KString); ("PeersId", KUint32); ("PeersWindow", KUint32);
   ("MaxPacketSize", KUint32); ("TypeSpecificData", KRest)].
Definition channelDataMsg := mkType "channelDataMsg" [94]
  [("PeersId", KUint32); ("Length", KUint32); ("Rest", KRest)].
Definition channelOpenConfirmMsg := mkType "channelOpenConfirmMsg" [91]
  [("PeersId", KUint32); ("MyId", KUint32); ("MyWindow", KUint32);
   ("MaxPacketSize", KUint32); ("TypeSpecificData", KRest)].
Definition channelOpenFailureMsg := mkType "channelOpenFailureMsg" [92]
  [("PeersId", KUint32); ("Reason", KUint32); ("Message", KString); ("Language", KString)].
Definition channelRequestMsg := mkType "channelRequestMsg" [98]
  [("PeersId", KUint32); ("Request", KString); ("WantReply", KBool);
   ("RequestSpecificData", KRest)].
Definition channelRequestSuccessMsg := mkType "channelRequestSuccessMsg" [99] [("PeersId", KUint32)].
Definition channelRequestFailureMsg := mkType "channelRequestFailureMsg" [100] [("PeersId", KUint32)].
Definition channelCloseMsg := mkType "channelCloseMsg" [97] [("PeersId", KUint32)].
Definition channelEOFMsg := mkType "channelEOFMsg" [96] [("PeersId", KUint32)].
Definition globalRequestMsg := mkType "globalRequestMsg" [80]
  [("Type", KString); ("WantReply", KBool); ("Data", KRest)].
Definition globalRequestSuccessMsg := mkType "globalRequestSuccessMsg" [81] [("Data", KRest)].
Definition globalRequestFailureMsg := mkType "globalRequestFailureMsg" [82] [("Data", KRest)].
Definition windowAdjustMsg := mkType "windowAdjustMsg" [93]
  [("PeersId", KUint32); ("AdditionalBytes", KUint32)].
Definition userAuthPubKeyOkMsg := mkType "userAuthPubKeyOkMsg" [60]
  [("Algo", KString); ("PubKey", KBytes)].

(** ** Marshal *)

Definition marshalField (out : string) (v : value) : string :=
  match v with
  | VBool b => appendBool out b
  | VArray s => out +:+ s
  | VUint32 n => appendU32 out n
  | VUint64 n => appendU64 out n
  | VUint8 n => out +:+ String (byte n) ""
  | VString s => appendString out s
  | VBytes s => appendString out s
  | VRest s => out +:+ s
  | VNames l => appendString out (join "," l)
  | VInt n => out +:+ marshalInt n
  end.

Definition marshalStruct (out : string) (t : msg_type) (vs : list value) : string :=
  let out := match typeTags t with [] => out | tag :: _ => out +:+ String (byte tag) "" end in
  fold_left marshalField vs out.

(** Of a type with fields; [typeTags] looks at the first field, so that of a type
    without fields there is no encoding, see [try_Marshal]. *)
Definition Marshal (t : msg_type) (vs : list value) : string := marshalStruct "" t vs.

Definition no_field : string := "reflect: Field index out of bounds".

Definition try_Marshal (t : msg_type) (vs : list value) : outcome string :=
  if bool_decide (t_fields t = []) then Panic no_field else Ok (Marshal t vs).

(** ** Unmarshal *)

Definition parseError (tag : Z) : string := "ssh: parse error in message type " +:+ itoa tag.
Definition unexpectedMessageError (expected got : Z) : string :=
  "ssh: unexpected message type " +:+ itoa got +:+ " (expected " +:+ itoa expected +:+ ")".
Definition fieldError (t : msg_type) (field : string) : string :=
  "ssh: unmarshal error for field " +:+ field +:+ " of type " +:+ t_name t.
Definition errShortRead : string := "ssh: short read".

(** [ok] of a parser, or the error. *)
Definition or_err {A} (o : option A) (e : string) : outcome A :=
  match o with Some a => Ok a | None => Err e end.

Definition unmarshalField (t : msg_type) (name : string) (k : kind) (data : string)
  : outcome (value * string) :=
  match k with
  | KBool =>
      match data with
      | "" => Err errShortRead
      | String c data' => Ok (VBool (negb (val c =? 0)), data')
      end
  | KArray n =>
      if (String.length data <? n)%nat then Err errShortRead
      else Ok (VArray (stake n data), sdrop n data)
  | KUint64 => let? '(n, data) := or_err (parseUint64 data) errShortRead in Ok (VUint64 n, data)
  | KUint32 => let? '(n, data) := or_err (parseUint32 data) errShortRead in Ok (VUint32 n, data)
  | KUint8 =>
      match data with
      | "" => Err errShortRead
      | String c data' => Ok (VUint8 (val c), data')
      end
  | KString => let? '(s, data) := or_err (parseString data) (fieldError t name) in Ok (VString s, data)
  | KBytes => let? '(s, data) := or_err (parseString data) errShortRead in Ok (VBytes s, data)
  | KRest => Ok (VRest data, "")
  | KNames => let? '(l, data) := or_err (parseNameList data) errShortRead in Ok (VNames l, data)
  | KInt => let? '(n, data) := or_err (parseInt data) errShortRead in Ok (VInt n, data)
  end.

Fixpoint unmarshalFields (t : msg_type) (fs : list (string * kind)) (data : string)
  : outcome (list value * string) :=
  match fs with
  | [] => Ok ([], data)
  | (name, k) :: fs =>
      let? '(v, data) := unmarshalField t name k data in
      let? '(vs, data) := unmarshalFields t fs data in
      Ok (v :: vs, data)
  end.

(** Whether the packet starts with one of the expected types. *)
Definition goodType (expectedTypes : list Z) (first : Z) : bool :=
  existsb (fun e => (0 <? e) && (first =? e)) expectedTypes.

Definition Unmarshal (data : string) (t : msg_type) : outcome (list value) :=
  if bool_decide (t_fields t = []) then Panic no_field else
  let expectedTypes := typeTags t in
  let expectedType := match expectedTypes with [] => 0 | e :: _ => e end in
  match data with
  | "" => Err (parseError expectedType)
  | String first rest =>
      let? data :=
        match expectedTypes with
        | [] => Ok data
        | _ =>
            if goodType expectedTypes (val first) then Ok rest
            else Err ("ssh: unexpected message type " +:+ itoa (val first) +:+
                      " (expected one of [" +:+ join " " (map itoa expectedTypes) +:+ "])")
        end in
      let? '(vs, data) := unmarshalFields t (t_fields t) data in
      if (data =? "")%string then Ok vs else Err (parseError expectedType)
  end.

(** ** decode *)

(** The switch of [decode] on the first byte. *)
Definition message_of (first : Z) : option msg_type :=
  match first with
  | 1 => Some disconnectMsg
  | 5 => Some serviceRequestMsg
  | 6 => Some serviceAcceptMsg
  | 20 => Some kexInitMsg
  | 30 => Some kexDHInitMsg
  | 31 => Some kexDHReplyMsg
  | 50 => Some userAuthRequestMsg
  | 51 => Some userAuthFailureMsg
  | 52 => Some userAuthSuccessMsg
  | 60 => Some userAuthPubKeyOkMsg
  | 80 => Some globalRequestMsg
  | 81 => Some globalRequestSuccessMsg
  | 82 => Some globalRequestFailureMsg
  | 90 => Some channelOpenMsg
  | 91 => Some channelOpenConfirmMsg
  | 92 => Some channelOpenFailureMsg
  | 93 => Some windowAdjustMsg
  | 94 => Some channelDataMsg
  | 96 => Some channelEOFMsg
  | 97 => Some channelCloseMsg
  | 98 => Some channelRequestMsg
  | 99 => Some channelRequestSuccessMsg
  | 100 => Some channelRequestFailureMsg
  | _ => None
  end.

Definition decode (packet : string) : outcome (msg_type * list value) :=
  match packet with
  | "" => Panic "index out of range"
  | String c _ =>
      match message_of (val c) with
      | None => Err (unexpectedMessageError 0 (val c))
      | Some t =>
          if val c =? 52 then Ok (userAuthSuccessMsg, [])
          else let? vs := Unmarshal packet t in Ok (t, vs)
      end
  end.

(** ** Signatures (certs.go) and the data that is signed (common.go) *)

Record Signature := mkSignature { Format : string; Blob : string }.

Definition parseSignatureBody (data : string) : option (Signature * string) :=
  match parseString data with
  | None => None
  | Some (format, data) =>
      match parseString data with
      | None => None
      | Some (blob, data) => Some (mkSignature format blob, data)
      end
  end.

Definition parseSignature (data : string) : option (Signature * string) :=
  match parseString data with
  | None => None
  | Some (sigBytes, rest) =>
      match parseSignatureBody sigBytes with
      | Some (out, "") => Some (out, rest)
      | _ => None
      end
  end.

Definition signedData := mkType "" []
  [("Session", KBytes); ("Type", KUint8); ("User", KString); ("Service", KString);
   ("Method", KString); ("Sign", KBool); ("Algo", KBytes); ("PubKey", KBytes)].

Definition buildDataSignedForAuth (sessionId user service method algo pubKey : string) : string :=
  Marshal signedData
    [VBytes sessionId; VUint8 50; VString user; VString service; VString method;
     VBool true; VBytes algo; VBytes pubKey].

(** ** Bytes *)

Lemma val_range c : 0 <= val c < 256.
Proof.
  unfold val. pose proof (N_ascii_bounded c). lia.
Qed.

Lemma val_byte z : val (byte z) = z mod 256.
Proof.
  unfold val, byte. pose proof (Z.mod_pos_bound z 256 ltac:(lia)).
  rewrite N_ascii_embedding by lia. lia.
Qed.

Lemma byte_val c : byte (val c) = c.
Proof.
  unfold byte. pose proof (val_range c). rewrite Z.mod_small by lia. unfold val.
  by rewrite N2Z.id, ascii_N_embedding.
Qed.

Lemma be_go_app acc a b : be_go acc (a +:+ b) = be_go (be_go acc a) b.
Proof. revert acc. induction a as [|c a IH]; intros acc; simpl; [done|apply IH]. Qed.

Lemma be_go_bytes k n acc :
  be_go acc (be_bytes k n) = acc * 256 ^ Z.of_nat k + n mod 256 ^ Z.of_nat k.
Proof.
  revert acc. induction k as [|k IH]; intros acc.
  - simpl. rewrite Z.mod_1_r. lia.
  - cbn [be_bytes be_go]. rewrite IH, val_byte, Z.shiftr_div_pow2 by lia.
    replace (2 ^ (8 * Z.of_nat k)) with (256 ^ Z.of_nat k)
      by (rewrite Z.pow_mul_r by lia; reflexivity).
    rewrite Nat2Z.inj_succ, Z.pow_succ_r by lia.
    assert (0 < 256 ^ Z.of_nat k) by (apply Z.pow_pos_nonneg; lia).
    rewrite (Z.mul_comm 256 (256 ^ _)), Z.rem_mul_r by lia. lia.
Qed.

Lemma be_be_bytes k n : 0 <= n < 256 ^ Z.of_nat k -> be (be_bytes k n) = n.
Proof. intros H. unfold be. rewrite be_go_bytes, Z.mod_small by lia. lia. Qed.

Lemma be_bytes_length k n : String.length (be_bytes k n) = k.
Proof. induction k; simpl; congruence. Qed.

Lemma slen_app a b : slen (a +:+ b) = slen a + slen b.
Proof. unfold slen. rewrite string_app_length. lia. Qed.

Lemma slen_be_bytes k n : slen (be_bytes k n) = Z.of_nat k.
Proof. unfold slen. by rewrite be_bytes_length. Qed.

Lemma slen_nonneg s : 0 <= slen s.
Proof. unfold slen. lia. Qed.

(** Every test on one byte is decided by running it on all of them. *)
Ltac all_bytes c := destruct c as [[] [] [] [] [] [] [] []]; vm_compute; reflexivity.

Lemma flip_flip c : flip (flip c) = c.
Proof. all_bytes c. Qed.

Lemma hi_flip c : hi (flip c) = negb (hi c).
Proof. all_bytes c. Qed.

Lemma hi_val c : hi c = (128 <=? val c).
Proof. all_bytes c. Qed.

Lemma smap_flip_flip s : smap flip (smap flip s) = s.
Proof. induction s as [|c s IH]; simpl; [done|]. by rewrite flip_flip, IH. Qed.

Lemma smap_length f s : String.length (smap f s) = String.length s.
Proof. induction s; simpl; congruence. Qed.

(** ** Parsers undo the append helpers *)

Lemma stake_app_len n a b : String.length a = n -> stake n (a +:+ b) = a.
Proof. intros <-. apply stake_app. Qed.
Lemma sdrop_app_len n a b : String.length a = n -> sdrop n (a +:+ b) = b.
Proof. intros <-. apply sdrop_app. Qed.

Lemma parseUint32_be n rest : in_uint32 n -> parseUint32 (be_bytes 4 n +:+ rest) = Some (n, rest).
Proof.
  intros H. unfold parseUint32. rewrite slen_app, slen_be_bytes.
  pose proof (slen_nonneg rest). destruct (Z.ltb_spec (Z.of_nat 4 + slen rest) 4); [lia|].
  rewrite stake_app_len, sdrop_app_len by apply be_bytes_length.
  by rewrite be_be_bytes by exact H.
Qed.

Lemma parseUint64_be n rest :
  0 <= n < 2 ^ 64 -> parseUint64 (be_bytes 8 n +:+ rest) = Some (n, rest).
Proof.
  intros H. unfold parseUint64. rewrite slen_app, slen_be_bytes.
  pose proof (slen_nonneg rest). destruct (Z.ltb_spec (Z.of_nat 8 + slen rest) 8); [lia|].
  rewrite stake_app_len, sdrop_app_len by apply be_bytes_length.
  by rewrite be_be_bytes by exact H.
Qed.

Lemma parseString_be s rest :
  slen s + slen rest < 2 ^ 32 -> parseString (be_bytes 4 (slen s) +:+ (s +:+ rest)) = Some (s, rest).
Proof.
  intros H. unfold parseString. pose proof (slen_nonneg rest). pose proof (slen_nonneg s).
  rewrite !slen_app, slen_be_bytes.
  destruct (Z.ltb_spec (Z.of_nat 4 + (slen s + slen rest)) 4); [lia|].
  rewrite stake_app_len, sdrop_app_len by apply be_bytes_length.
  rewrite be_be_bytes by (change (256 ^ Z.of_nat 4) with (2 ^ 32); lia).
  rewrite slen_app, to_uint32_id by (unfold in_uint32; lia).
  destruct (Z.ltb_spec (slen s + slen rest) (slen s)); [lia|].
  unfold slen at 1 2. rewrite Nat2Z.id. by rewrite stake_app, sdrop_app.
Qed.

(** The name lists that survive: no name holds a comma, and the list is not
    the one empty name, which reads back as no name. *)
Definition names_ok (l : list string) : Prop :=
  l <> [""] /\ Forall (fun s => lacks comma s = true) l.

Lemma join_nonempty l : names_ok l -> l <> [] -> join "," l <> "".
Proof.
  intros [H1 _] H2. destruct l as [|s [|s' l]]; [done| |]; simpl; [naive_solver|].
  by destruct s.
Qed.

Lemma parseNameList_be l rest :
  names_ok l -> slen (join "," l) + slen rest < 2 ^ 32 ->
  parseNameList (be_bytes 4 (slen (join "," l)) +:+ (join "," l +:+ rest)) = Some (l, rest).
Proof.
  intros Hl H. unfold parseNameList. rewrite parseString_be by done.
  destruct (decide (l = [])) as [->|Hn]; [done|].
  apply join_nonempty in Hn as Hj; [|done]. apply String.eqb_neq in Hj as ->.
  by rewrite (Split_join comma) by apply Hl || done.
Qed.

(** *** Multiple-precision integers *)

Lemma BitLen_spec n : 0 < n -> 2 ^ (BitLen n - 1) <= n < 2 ^ BitLen n.
Proof.
  intros H. unfold BitLen. destruct (Z.eqb_spec n 0); [lia|]. rewrite Z.abs_eq by lia.
  pose proof (Z.log2_spec n H). rewrite <- Z.add_1_r in H0.
  replace (Z.log2 n + 1 - 1) with (Z.log2 n) by lia. done.
Qed.

Lemma BitLen_pos n : 0 < n -> 0 < BitLen n.
Proof.
  intros H. unfold BitLen. destruct (Z.eqb_spec n 0); [lia|]. pose proof (Z.log2_nonneg (Z.abs n)). lia.
Qed.

Lemma BitLen_nonneg n : 0 <= BitLen n.
Proof.
  unfold BitLen. destruct (Z.eqb_spec n 0); [lia|]. pose proof (Z.log2_nonneg (Z.abs n)). lia.
Qed.

Lemma be_Bytes n : 0 <= n -> be (Bytes n) = n.
Proof.
  intros H. unfold Bytes. rewrite Z.abs_eq by done. apply be_be_bytes.
  destruct (decide (n = 0)) as [->|]; [done|].
  pose proof (BitLen_spec n ltac:(lia)) as [_ Hb]. pose proof (BitLen_pos n ltac:(lia)).
  rewrite Z2Nat.id by (apply Z.div_pos; lia).
  split; [done|]. eapply Z.lt_le_trans; [exact Hb|].
  change 256 with (2 ^ 8). rewrite <- Z.pow_mul_r by (try apply Z.div_pos; lia).
  apply Z.pow_le_mono_r; [lia|]. pose proof (Z.div_mod (BitLen n + 7) 8 ltac:(lia)).
  pose proof (Z.mod_pos_bound (BitLen n + 7) 8 ltac:(lia)). lia.
Qed.

Lemma be_cons0 s : be (String (byte 0) s) = be s.
Proof. done. Qed.

(** The content of an integer reads back as the integer. *)
Lemma int_content_value n :
  (if hi_first (int_content n) then - (be (smap flip (int_content n)) + 1)
   else be (int_content n)) = n.
Proof.
  unfold int_content. destruct (Z.ltb_spec n 0) as [Hn|Hn].
  - set (m := Bytes (- n - 1)). assert (be m = - n - 1) as Hm by (apply be_Bytes; lia).
    destruct ((smap flip m =? "")%string || negb (hi_first (smap flip m))) eqn:E.
    + cbn [hi_first]. rewrite hi_val, val_byte. cbn [smap].
      replace (128 <=? 255 mod 256) with true by reflexivity.
      change (flip (byte 255)) with (byte 0). rewrite be_cons0, smap_flip_flip, Hm. lia.
    + apply orb_false_iff in E as [_ E%negb_false_iff]. rewrite E, smap_flip_flip, Hm. lia.
  - destruct (Z.eqb_spec n 0) as [->|Hz]; [done|].
    assert (be (Bytes n) = n) as Hb by (by apply be_Bytes).
    destruct (negb (Bytes n =? "")%string && hi_first (Bytes n)) eqn:E; [by rewrite be_cons0|].
    destruct (Bytes n) as [|c s] eqn:EB; [done|]. simpl in E. cbn [hi_first]. by rewrite E.
Qed.

Lemma parseInt_be n rest :
  slen (int_content n) + slen rest < 2 ^ 32 -> parseInt (marshalInt n +:+ rest) = Some (n, rest).
Proof.
  intros H. unfold parseInt, marshalInt. rewrite string_app_assoc, parseString_be by done.
  by rewrite int_content_value.
Qed.

(** The number of bytes that an integer of [L] bits takes, and its top bit. *)
Lemma Bytes_hi n :
  0 < n -> hi_first (Bytes n) = (BitLen n mod 8 =? 0) /\ slen (Bytes n) = (BitLen n + 7) / 8 /\
           Bytes n <> "".
Proof.
  intros H. pose proof (BitLen_pos n H) as HL. pose proof (BitLen_spec n H) as HB.
  set (L := BitLen n) in *. unfold Bytes. fold L. rewrite Z.abs_eq by lia.
  rewrite slen_be_bytes. set (q := (L - 1) / 8). set (r := (L - 1) mod 8).
  pose proof (Z.div_mod (L - 1) 8 ltac:(lia)) as HD. fold q r in HD.
  pose proof (Z.mod_pos_bound (L - 1) 8 ltac:(lia)) as HR. fold r in HR.
  assert (0 <= q) by (apply Z.div_pos; lia).
  assert ((L + 7) / 8 = q + 1) as Hk
    by (replace (L + 7) with (r + (q + 1) * 8) by lia; rewrite Z.div_add, Z.div_small; lia).
  rewrite Hk. replace (Z.to_nat (q + 1)) with (S (Z.to_nat q)) by lia.
  split_and!; [|lia|done]. cbn [be_bytes hi_first]. rewrite hi_val, val_byte, Z2Nat.id by done.
  rewrite Z.shiftr_div_pow2 by lia.
  assert (2 ^ r <= n / 2 ^ (8 * q) < 2 * 2 ^ r) as [Hlo Hhi].
  { replace (L - 1) with (8 * q + r) in HB by lia. replace L with (8 * q + Z.succ r) in HB by lia.
    rewrite !Z.pow_add_r, Z.pow_succ_r in HB by lia.
    assert (0 < 2 ^ (8 * q)) by (apply Z.pow_pos_nonneg; lia).
    split; [apply Z.div_le_lower_bound; lia|apply Z.div_lt_upper_bound; lia]. }
  assert (L mod 8 = (r + 1) mod 8) as ->
    by (replace L with (r + 1 + q * 8) by lia; apply Z.mod_add; lia).
  assert (r = 0 \/ r = 1 \/ r = 2 \/ r = 3 \/ r = 4 \/ r = 5 \/ r = 6 \/ r = 7) as Hr by lia.
  clearbody r. repeat destruct Hr as [->|Hr]; [..|subst r]; simpl in Hlo, Hhi;
    rewrite Z.mod_small by lia; cbn; first [apply Z.leb_gt; lia|apply Z.leb_le; lia].
Qed.

(** [intLength] is exactly what [marshalInt] writes, so that the slice
    [marshalStruct] extends the buffer by is filled and never overrun. *)
Theorem int_length_exact n : slen (marshalInt n) = intLength n.
Proof.
  unfold marshalInt, intLength, int_content. rewrite slen_app, slen_be_bytes. f_equal.
  destruct (Z.ltb_spec n 0) as [Hn|Hn].
  - set (m := - n - 1). destruct (decide (m = 0)) as [->|Hm]; [done|].
    destruct (Bytes_hi m ltac:(lia)) as (Hh & Hl & Hne).
    assert (slen (smap flip (Bytes m)) = (BitLen m + 7) / 8) as Hl'
      by (unfold slen in *; by rewrite smap_length).
    destruct (Bytes m) as [|c s] eqn:EB; [done|]. cbn [smap hi_first String.eqb orb] in *.
    rewrite hi_flip, negb_involutive, Hh.
    destruct (BitLen m mod 8 =? 0); [|by rewrite Hl'].
    rewrite <- Hl'. unfold slen. cbn [String.length]. lia.
  - destruct (Z.eqb_spec n 0) as [->|Hz]; [done|].
    destruct (Bytes_hi n ltac:(lia)) as (Hh & Hl & Hne).
    destruct (Bytes n) as [|c s] eqn:EB; [done|]. rewrite Hh. cbn [String.eqb negb andb].
    destruct (BitLen n mod 8 =? 0); [|by rewrite Hl].
    rewrite <- Hl. unfold slen. cbn [String.length]. lia.
Qed.

(** ** Messages *)

(** A value of a kind, within the width of the Go type. *)
Definition typed (k : kind) (v : value) : Prop :=
  match k, v with
  | KBool, VBool _ => True
  | KArray n, VArray s => String.length s = n
  | KUint64, VUint64 n => 0 <= n < 2 ^ 64
  | KUint32, VUint32 n => in_uint32 n
  | KUint8, VUint8 n => 0 <= n < 256
  | KString, VString _ | KBytes, VBytes _ | KRest, VRest _ | KInt, VInt _ => True
  | KNames, VNames l => names_ok l
  | _, _ => False
  end.

(** What one field adds to the packet. *)
Definition field_bytes (v : value) : string := marshalField "" v.

Lemma marshalField_app out v : marshalField out v = out +:+ field_bytes v.
Proof.
  destruct v; cbn; unfold appendString, appendInt, appendU32, appendBool;
    by rewrite ?string_app_assoc.
Qed.

Fixpoint fields_bytes (vs : list value) : string :=
  match vs with [] => "" | v :: vs => field_bytes v +:+ fields_bytes vs end.

Lemma fold_marshalField vs out : fold_left marshalField vs out = out +:+ fields_bytes vs.
Proof.
  revert out. induction vs as [|v vs IH]; intros out; simpl; [by rewrite string_app_nil_r|].
  by rewrite IH, marshalField_app, string_app_assoc.
Qed.

Lemma string_app_nil_l s : "" +:+ s = s.
Proof. done. Qed.

Lemma unmarshalField_be t name k v rest :
  typed k v -> k <> KRest -> slen (field_bytes v) + slen rest < 2 ^ 32 ->
  unmarshalField t name k (field_bytes v +:+ rest) = Ok (v, rest).
Proof.
  pose proof (slen_nonneg rest).
  destruct k, v; cbn [typed field_bytes marshalField unmarshalField]; try done; intros Ht Hk Hl.
  - by destruct b.
  - simpl. rewrite string_app_length. destruct (Nat.ltb_spec (String.length s + String.length rest) n); [lia|].
    by rewrite stake_app_len, sdrop_app_len.
  - unfold appendU64. rewrite string_app_nil_l. by rewrite parseUint64_be.
  - unfold appendU32. rewrite string_app_nil_l. by rewrite parseUint32_be.
  - simpl. rewrite val_byte, Z.mod_small by done. done.
  - unfold appendString, appendInt, appendU32 in *. rewrite string_app_nil_l in *.
    rewrite slen_app, slen_be_bytes in Hl. pose proof (slen_nonneg s).
    rewrite string_app_assoc, to_uint32_id by (unfold in_uint32; lia).
    rewrite parseString_be by lia. done.
  - unfold appendString, appendInt, appendU32 in *. rewrite string_app_nil_l in *.
    rewrite slen_app, slen_be_bytes in Hl. pose proof (slen_nonneg s).
    rewrite string_app_assoc, to_uint32_id by (unfold in_uint32; lia).
    rewrite parseString_be by lia. done.
  - unfold appendString, appendInt, appendU32 in *. rewrite string_app_nil_l in *.
    rewrite slen_app, slen_be_bytes in Hl. pose proof (slen_nonneg (join "," l)).
    rewrite string_app_assoc, to_uint32_id by (unfold in_uint32; lia).
    by rewrite parseNameList_be by (done || lia).
  - rewrite string_app_nil_l in *. unfold marshalInt in Hl. rewrite slen_app, slen_be_bytes in Hl.
    rewrite parseInt_be by lia. done.
Qed.

(** A struct type whose [rest] field, if any, is the last one. *)
Fixpoint rest_last (fs : list (string * kind)) : bool :=
  match fs with
  | [] => true
  | [_] => true
  | (_, k) :: fs => negb (bool_decide (k = KRest)) && rest_last fs
  end.

Definition typed_fields (fs : list (string * kind)) (vs : list value) : Prop :=
  Forall2 (fun f v => typed f.2 v) fs vs.

Lemma unmarshalFields_be t fs vs :
  typed_fields fs vs -> rest_last fs = true -> slen (fields_bytes vs) < 2 ^ 32 ->
  unmarshalFields t fs (fields_bytes vs) = Ok (vs, "").
Proof.
  intros H. induction H as [|[name k] v fs vs Hv H IH]; intros Hr Hl; [done|].
  cbn [fields_bytes] in *. rewrite slen_app in Hl.
  pose proof (slen_nonneg (field_bytes v)). pose proof (slen_nonneg (fields_bytes vs)).
  destruct (decide (k = KRest)) as [->|Hk].
  - destruct fs; [|by destruct fs].
    inversion H; subst. destruct v; try done. cbn. by rewrite string_app_nil_r.
  - cbn [unmarshalFields]. rewrite unmarshalField_be by done. cbn [obind].
    rewrite IH; [done| |lia]. destruct fs; [done|]. simpl in Hr. by apply andb_true_iff in Hr as [_ ?].
Qed.

(** A type that [Marshal] and [Unmarshal] handle: it has a field, its tags are single
    bytes and a [rest] field comes last. *)
Definition wf_type (t : msg_type) : bool :=
  negb (bool_decide (t_fields t = [])) && rest_last (t_fields t) && forallb (fun e => (0 <? e) && (e <? 256)) (typeTags t) &&
  negb (bool_decide (typeTags t = [])).

Definition typed_msg (t : msg_type) (vs : list value) : Prop :=
  typed_fields (t_fields t) vs /\ slen (fields_bytes vs) < 2 ^ 32.

Lemma Marshal_eq t vs tag tags :
  typeTags t = tag :: tags -> Marshal t vs = String (byte tag) (fields_bytes vs).
Proof. intros H. unfold Marshal, marshalStruct. rewrite H, fold_marshalField. done. Qed.

Lemma Unmarshal_Marshal t vs :
  wf_type t = true -> typed_msg t vs -> Unmarshal (Marshal t vs) t = Ok vs.
Proof.
  unfold wf_type. intros Hw [Ht Hl]. bool_prop.
  destruct (typeTags t) as [|tag tags] eqn:E; [done|].
  rewrite (Marshal_eq t vs tag tags) by done. simpl in *. bool_prop. z_prop.
  unfold Unmarshal. rewrite bool_decide_eq_false_2 by done. rewrite E. cbn [goodType existsb]. rewrite val_byte, Z.mod_small by lia.
  rewrite Z.eqb_refl. replace (0 <? tag) with true by (symmetry; by apply Z.ltb_lt). cbn [andb orb obind].
  rewrite unmarshalFields_be by done. done.
Qed.

(** A struct without a type byte. *)
Lemma Unmarshal_struct t vs :
  typeTags t = [] -> rest_last (t_fields t) = true -> typed_fields (t_fields t) vs -> 0 < slen (fields_bytes vs) < 2 ^ 32 ->
  Marshal t vs = fields_bytes vs /\ Unmarshal (Marshal t vs) t = Ok vs.
Proof.
  intros Ht Hr Hty Hs. assert (Marshal t vs = fields_bytes vs) as E by (unfold Marshal, marshalStruct; by rewrite Ht, fold_marshalField).
  split; [done|]. rewrite E. unfold Unmarshal. rewrite bool_decide_eq_false_2 by (intros Hf; rewrite Hf in Hty; inversion Hty; subst; change (slen (fields_bytes [])) with 0 in Hs; lia). rewrite Ht. destruct (fields_bytes vs) as [|b s] eqn:Ef; [change (slen "") with 0 in Hs; lia|].
  cbn [obind]. rewrite <- Ef. rewrite unmarshalFields_be; [done..|rewrite Ef; lia].
Qed.

(** [Unmarshal] reads back every message that [Marshal] writes. *)
Theorem marshal_unmarshal t vs :
  wf_type t = true -> typed_msg t vs -> Unmarshal (Marshal t vs) t = Ok vs.
Proof. apply Unmarshal_Marshal. Qed.

(** The messages that [decode] reads, but for the one without fields. *)
Definition wire_messages : list msg_type :=
  [disconnectMsg; serviceRequestMsg; serviceAcceptMsg; kexInitMsg; kexDHInitMsg; kexDHReplyMsg;
   userAuthRequestMsg; userAuthFailureMsg; userAuthPubKeyOkMsg; globalRequestMsg;
   globalRequestSuccessMsg; globalRequestFailureMsg; channelOpenMsg; channelOpenConfirmMsg;
   channelOpenFailureMsg; windowAdjustMsg; channelDataMsg; channelEOFMsg; channelCloseMsg;
   channelRequestMsg; channelRequestSuccessMsg; channelRequestFailureMsg].

Definition decoded (t : msg_type) : bool :=
  match typeTags t with
  | [tag] => bool_decide (message_of tag = Some t) && negb (tag =? 52) && wf_type t && (tag <? 256) && (0 <? tag)
  | _ => false
  end.

Lemma wire_messages_decoded t : t ∈ wire_messages -> decoded t = true.
Proof.
  intros H. assert (forallb decoded wire_messages = true) as Hall by (vm_compute; reflexivity).
  rewrite forallb_forall in Hall. apply Hall. by apply list_elem_of_In.
Qed.

(** A marshalled message, decoded. *)
Lemma decode_Marshal t vs :
  t ∈ wire_messages -> typed_msg t vs -> decode (Marshal t vs) = Ok (t, vs).
Proof.
  intros H%wire_messages_decoded Ht. unfold decoded in H.
  destruct (typeTags t) as [|tag [|]] eqn:Htag; try done. bool_prop. z_prop.
  pose proof (Marshal_eq t vs _ _ Htag) as Heq.
  unfold decode. rewrite Heq. rewrite val_byte, Z.mod_small by lia.
  replace (message_of tag) with (Some t) by done.
  destruct (Z.eqb_spec tag 52); [done|]. rewrite <- Heq, Unmarshal_Marshal by done. done.
Qed.

(** The types that share their number with another one, which [decode] takes for it. *)
Definition namesakes : list (msg_type * msg_type) :=
  [(kexECDHInitMsg, kexDHInitMsg); (kexECDHReplyMsg, kexDHReplyMsg); (userAuthInfoRequestMsg, userAuthPubKeyOkMsg)].

Lemma namesake_decoded t t' : (t, t') ∈ namesakes ->
  wf_type t = true /\ exists tag, typeTags t = [tag] /\ 0 < tag < 256 /\ tag <> 52 /\ message_of tag = Some t'.
Proof.
  unfold namesakes. intros H. repeat (apply elem_of_cons in H as [[= -> ->]|H]; [split; [done|by eexists]|]). by apply elem_of_nil in H.
Qed.

Lemma try_Marshal_ok t vs : wf_type t = true -> try_Marshal t vs = Ok (Marshal t vs).
Proof. unfold wf_type, try_Marshal. intros H. bool_prop. by rewrite bool_decide_eq_false_2. Qed.

Lemma wire_message_wf t : t ∈ wire_messages -> wf_type t = true.
Proof. intros H%wire_messages_decoded. unfold decoded in H. destruct (typeTags t) as [|? [|]]; try done. by bool_prop. Qed.

Lemma decode_namesake t t' vs : (t, t') ∈ namesakes ->
  decode (Marshal t vs) = let? vs' := Unmarshal (Marshal t vs) t' in Ok (t', vs').
Proof.
  intros (_ & tag & Ht & Hr & H52 & Hm)%namesake_decoded. unfold decode. rewrite (Marshal_eq t vs _ _ Ht).
  rewrite val_byte, Z.mod_small by lia. rewrite Hm. by apply Z.eqb_neq in H52 as ->.
Qed.

(** C15: Every message of a type with a number, written by the peer, is read back with
    its fields by who expects its type. [decode], which goes by the first byte alone,
    recognises the 22 types of [wire_messages]; the other three share their number
    (30, 31, 60) with one of those and are read as that. *)
Theorem decode_marshal t vs :
  t ∈ wire_messages \/ t ∈ namesakes.*1 -> typed_msg t vs ->
  exists p, try_Marshal t vs = Ok p /\ Unmarshal p t = Ok vs /\
    (t ∈ wire_messages -> decode p = Ok (t, vs)) /\
    (forall t', (t, t') ∈ namesakes -> t' ∈ wire_messages /\ decode p = let? vs' := Unmarshal p t' in Ok (t', vs')).
Proof.
  intros Ht Hvs. assert (wf_type t = true) as Hw.
  { destruct Ht as [?%wire_message_wf|([? t'] & -> & ?%namesake_decoded)%list_elem_of_fmap]; [done|by destruct_and?]. }
  exists (Marshal t vs). split; [by apply try_Marshal_ok|]. split; [by apply Unmarshal_Marshal|].
  split; [intros; by apply decode_Marshal|]. intros t' H. split; [|by apply decode_namesake].
  unfold namesakes in H. unfold wire_messages. set_solver.
Qed.

(** ** What any packet decodes to *)

Definition has_kind (k : kind) (v : value) : bool :=
  match k, v with
  | KBool, VBool _ | KArray _, VArray _ | KUint64, VUint64 _ | KUint32, VUint32 _ | KUint8, VUint8 _
  | KString, VString _ | KBytes, VBytes _ | KRest, VRest _ | KNames, VNames _ | KInt, VInt _ => true
  | _, _ => false
  end.
Definition fields_of (t : msg_type) (vs : list value) : Prop :=
  Forall2 (fun f v => has_kind f.2 v = true) (t_fields t) vs.

(** A result that is a value or an error. *)
Definition returns {A} (m : outcome A) (P : A -> Prop) : Prop :=
  match m with Ok a => P a | Err _ => True | _ => False end.

Lemma returns_bind {A B} (m : outcome A) (k : A -> outcome B) P Q :
  returns m P -> (forall a, P a -> returns (k a) Q) -> returns (obind m k) Q.
Proof. destruct m; simpl; auto. Qed.

Lemma returns_or_err {A} (o : option A) e (P : A -> Prop) : (forall a, P a) -> returns (or_err o e) P.
Proof. destruct o; simpl; auto. Qed.

Lemma unmarshalField_kind t name k data : returns (unmarshalField t name k data) (fun r => has_kind k r.1 = true).
Proof.
  destruct k; simpl; try done; try (by repeat case_match);
    apply (returns_bind _ _ (fun _ => True)); try (by apply returns_or_err); by intros [? ?].
Qed.

Lemma unmarshalFields_kinds t fs data :
  returns (unmarshalFields t fs data) (fun r => Forall2 (fun f v => has_kind f.2 v = true) fs r.1).
Proof.
  revert data. induction fs as [|[name k] fs IH]; intros data; simpl; [by apply Forall2_nil|].
  eapply returns_bind; [apply unmarshalField_kind|]. intros [v d] Hv. simpl in *.
  eapply returns_bind; [apply IH|]. intros [vs d'] Hvs. simpl in *. by apply Forall2_cons.
Qed.

Lemma Unmarshal_fields data t : t_fields t <> [] -> returns (Unmarshal data t) (fields_of t).
Proof.
  intros Hf. unfold Unmarshal. rewrite bool_decide_eq_false_2 by done. destruct data as [|c data]; [done|].
  apply (returns_bind _ _ (fun _ => True)); [by repeat case_match|]. intros d _.
  eapply returns_bind; [apply unmarshalFields_kinds|]. intros [vs d'] H. simpl. by case_match.
Qed.

Lemma message_of_wire tag t : message_of tag = Some t -> tag <> 52 -> t ∈ wire_messages.
Proof.
  intros H Ht. assert (forallb (fun tag => match message_of tag with
      Some t => (tag =? 52) || bool_decide (t ∈ wire_messages) | None => true end) (map Z.of_nat (seq 0 128)) = true) as Hall
    by (vm_compute; reflexivity).
  rewrite forallb_forall in Hall. assert (0 <= tag < 128) as Hr.
  { destruct (decide (0 <= tag < 128)) as [|Hn]; [done|]. destruct tag as [|p|p]; [done| |done].
    do 7 (destruct p; try done). }
  specialize (Hall tag). rewrite H in Hall. apply Z.eqb_neq in Ht. rewrite Ht in Hall.
  eapply bool_decide_eq_true, Hall. apply in_map_iff. exists (Z.to_nat tag). split; [lia|]. apply in_seq. lia.
Qed.

Lemma message_of_fields tag t : message_of tag = Some t -> tag <> 52 -> t_fields t <> [].
Proof. intros Hm Ht. pose proof (wire_message_wf t (message_of_wire tag t Hm Ht)) as H. unfold wf_type in H. by bool_prop. Qed.

Lemma decode_returns packet :
  packet <> "" -> returns (decode packet) (fun m => fields_of m.1 m.2 /\
    exists c rest, packet = String c rest /\ message_of (val c) = Some m.1).
Proof.
  destruct packet as [|c rest]; [done|]. intros _. unfold decode.
  destruct (message_of (val c)) as [t|] eqn:E; [|done].
  destruct (Z.eqb_spec (val c) 52) as [E52|E52].
  - rewrite E52 in E. injection E as <-. simpl. split; [by apply Forall2_nil|]. exists c, rest. by rewrite E52.
  - eapply returns_bind; [exact (Unmarshal_fields _ _ (message_of_fields _ _ E E52))|]. intros vs H. simpl. split; [done|]. by exists c, rest.
Qed.

Lemma decode_fields packet t vs : decode packet = Ok (t, vs) -> fields_of t vs.
Proof.
  intros H. assert (packet <> "") as Hp by (by intros ->). apply decode_returns in Hp. rewrite H in Hp. by destruct Hp.
Qed.
Lemma decode_type packet t vs :
  decode packet = Ok (t, vs) -> exists c rest, packet = String c rest /\ message_of (val c) = Some t.
Proof.
  intros H. assert (packet <> "") as Hp by (by intros ->). apply decode_returns in Hp. rewrite H in Hp. by destruct Hp.
Qed.
Lemma decode_no_panic packet s : packet <> "" -> decode packet <> Panic s.
Proof. intros Hp%decode_returns H. by rewrite H in Hp. Qed.
Lemma decode_not_blocked packet : decode packet <> Blocked.
Proof.
  destruct (decide (packet = "")) as [->|Hp]; [done|]. intros H. apply decode_returns in Hp. by rewrite H in Hp.
Qed.

(** Values that are read are within the width of their types. *)
Lemma be_go_range acc s : 0 <= acc -> 0 <= be_go acc s < (acc + 1) * 256 ^ slen s.
Proof.
  unfold slen. revert acc. induction s as [|c s IH]; intros acc Ha; [simpl; lia|].
  cbn [be_go]. pose proof (val_range c). specialize (IH (acc * 256 + val c) ltac:(lia)).
  cbn [String.length]. rewrite Nat2Z.inj_succ, Z.pow_succ_r by lia.
  pose proof (Z.pow_pos_nonneg 256 (Z.of_nat (String.length s)) ltac:(lia) ltac:(lia)). nia.
Qed.

Lemma be_stake_range k data : (k <= String.length data)%nat -> 0 <= be (stake k data) < 256 ^ Z.of_nat k.
Proof.
  intros H. unfold be. pose proof (be_go_range 0 (stake k data) ltac:(lia)) as Hr. unfold slen in Hr.
  rewrite stake_length, Nat.min_l in Hr by done. lia.
Qed.

Lemma names_split s : s <> "" -> names_ok (Split comma s).
Proof.
  intros Hs. split; [|apply Split_lacks]. intros E. apply Hs. by rewrite <- (join_Split comma s), E.
Qed.

Lemma unmarshalField_typed t name k data : returns (unmarshalField t name k data) (fun r => typed k r.1).
Proof.
  destruct k; simpl; try done.
  - by destruct data.
  - destruct (_ <? _)%nat eqn:E; [done|]. apply Nat.ltb_ge in E. simpl. rewrite stake_length. lia.
  - unfold parseUint64. destruct (slen data <? 8) eqn:E; [done|]. z_prop. unfold slen in E. simpl.
    apply (be_stake_range 8). lia.
  - unfold parseUint32. destruct (slen data <? 4) eqn:E; [done|]. z_prop. unfold slen in E. simpl.
    apply (be_stake_range 4). lia.
  - destruct data as [|c data]; [done|]. simpl. apply val_range.
  - by destruct (parseString data) as [[? ?]|].
  - by destruct (parseString data) as [[? ?]|].
  - unfold parseNameList. destruct (parseString data) as [[s r]|]; [|done].
    destruct (String.eqb_spec s ""); simpl; [by split|by apply names_split].
  - by destruct (parseInt data) as [[? ?]|].
Qed.

Lemma unmarshalFields_typed t fs data :
  returns (unmarshalFields t fs data) (fun r => typed_fields fs r.1).
Proof.
  revert data. induction fs as [|[name k] fs IH]; intros data; simpl; [by apply Forall2_nil|].
  eapply returns_bind; [apply unmarshalField_typed|]. intros [v d] Hv. simpl in *.
  eapply returns_bind; [apply IH|]. intros [vs d'] Hvs. simpl in *. by apply Forall2_cons.
Qed.

Lemma Unmarshal_typed data t : t_fields t <> [] -> returns (Unmarshal data t) (typed_fields (t_fields t)).
Proof.
  intros Hf. unfold Unmarshal. rewrite bool_decide_eq_false_2 by done. destruct data as [|c data]; [done|].
  apply (returns_bind _ _ (fun _ => True)); [by repeat case_match|]. intros d _.
  eapply returns_bind; [apply unmarshalFields_typed|]. intros [vs d'] H. simpl. by case_match.
Qed.

(** C40: What [decode] reads is well typed: every value is of the kind of its field and
    within its width, no name of a list holds a comma. But for userAuthSuccessMsg, which
    has no fields and which [Marshal] panics at, a message that was read, of fewer than
    2^32 bytes when it is written again, reads back the same. *)
Theorem decode_well_typed packet t vs :
  decode packet = Ok (t, vs) ->
  typed_fields (t_fields t) vs /\
  if decide (t = userAuthSuccessMsg) then vs = [] /\ try_Marshal t vs = Panic no_field
  else t ∈ wire_messages /\
    (slen (fields_bytes vs) < 2 ^ 32 -> exists p, try_Marshal t vs = Ok p /\ decode p = Ok (t, vs)).
Proof.
  intros H. unfold decode in H. destruct packet as [|c rest]; [done|].
  destruct (message_of (val c)) as [t'|] eqn:Em; [|done].
  destruct (Z.eqb_spec (val c) 52) as [E|E]; [injection H as <- <-; split; [by apply Forall2_nil|done]|].
  pose proof (Unmarshal_typed (String c rest) t' (message_of_fields _ _ Em E)) as HU.
  destruct (Unmarshal _ t') as [vs'| | |]; try done. injection H as <- <-. simpl in HU.
  pose proof (message_of_wire _ _ Em E) as Hw. split; [done|].
  rewrite decide_False by (intros ->; unfold wire_messages in Hw; set_solver).
  split; [done|]. intros Hl. exists (Marshal t' vs'). split; [by apply try_Marshal_ok, wire_message_wf|by apply decode_Marshal].
Qed.

(** *** Concrete instances *)

Definition demo_request : list value :=
  [VString "bob"; VString "ssh-connection"; VString "none"; VRest "xyz"].

Lemma demo_request_typed : typed_msg userAuthRequestMsg demo_request.
Proof. split; [repeat constructor|vm_compute; reflexivity]. Qed.

Lemma marshal_unmarshal_witness :
  Unmarshal (Marshal userAuthRequestMsg demo_request) userAuthRequestMsg = Ok demo_request.
Proof. apply (marshal_unmarshal userAuthRequestMsg demo_request eq_refl demo_request_typed). Defined.

Definition demo_dh : list value := [VBytes "host"; VInt (-129); VBytes "sig"].

Lemma decode_marshal_witness :
  (exists p, try_Marshal kexDHReplyMsg demo_dh = Ok p /\ decode p = Ok (kexDHReplyMsg, demo_dh)) /\
  exists p, try_Marshal kexECDHInitMsg [VBytes "key"] = Ok p /\ Unmarshal p kexECDHInitMsg = Ok [VBytes "key"] /\
    decode p = Ok (kexDHInitMsg, [VInt (be "key")]).
Proof.
  split.
  - destruct (decode_marshal kexDHReplyMsg demo_dh) as (p & H1 & _ & H3 & _);
      [left; unfold wire_messages; set_solver|split; [repeat constructor|vm_compute; reflexivity]|].
    exists p. split; [done|]. apply H3. unfold wire_messages. set_solver.
  - destruct (decode_marshal kexECDHInitMsg [VBytes "key"]) as (p & H1 & H2 & _ & H4);
      [right; unfold namesakes; set_solver|split; [repeat constructor|vm_compute; reflexivity]|].
    exists p. split; [done|]. split; [done|]. destruct (H4 kexDHInitMsg) as [_ ->]; [unfold namesakes; set_solver|].
    injection H1 as <-. vm_compute. reflexivity.
Defined.

Lemma decode_well_typed_witness :
  exists vs, decode (Marshal userAuthRequestMsg demo_request) = Ok (userAuthRequestMsg, vs) /\
    typed_fields (t_fields userAuthRequestMsg) vs.
Proof.
  exists demo_request. split; [vm_compute; reflexivity|].
  refine (proj1 (decode_well_typed (Marshal userAuthRequestMsg demo_request) _ _ _)). vm_compute. reflexivity.
Defined.
