(* ===== verification/Passphrase.v ===== *)
(** Random strings and the prompt for a passphrase (cryrand.go, dict/pass.go,
    prompt.go). Random numbers are arguments; standard input is the list of the
    chunks in which reads get it, a line each from a terminal. *)
From S2P Require Import Prelude.
From S2P Require Import GoStrings.
From S2P Require Import Wire.

(** ** Random numbers *)

(** [binary.LittleEndian.Uint64] of eight random bytes. *)
Fixpoint le (s : string) : Z := match s with "" => 0 | String c s => val c + 256 * le s end.
Definition CryptoRandInt64 (b : string) : Z := to_int64 (le b).

(** [-x] wraps at the least integer. *)
Definition abs (x : Z) : Z := if x <? 0 then to_int64 (- x) else x.

Definition CryptoRandNonNegInt (n x : Z) : Z := Z.rem (abs x) n.

(** An element at an index that may be negative. *)
Definition at_index {A} (l : list A) (i : Z) : outcome A :=
  if i <? 0 then Panic "index out of range"
  else match l !! Z.to_nat i with Some x => Ok x | None => Panic "index out of range" end.

Definition ch : list ascii := list_ascii_of_string "0123456789abcdefghijklmnopqrstuvwxyz".

Definition RandomString (randoms : list Z) : outcome string :=
  foldr (fun r k => let? a := at_index ch (Z.rem (abs r) 36) in let? s := k in Ok (String a s)) (Ok "") randoms.

Section Words.
(** The three word lists of dict. *)
Context (Adjectives ProperNames Verbs : list string).

Definition word_at (l : list string) (r : Z) : outcome string := at_index l (Z.rem (abs r) (Z.of_nat (List.length l))).

Definition GetNewPasswordStarter (r1 r2 r3 : Z) : outcome string :=
  let? a := word_at Adjectives r1 in
  let? p := word_at ProperNames r2 in
  let? v := word_at Verbs r3 in
  Ok (a +:+ " " +:+ p +:+ " " +:+ v).
Definition getNewPasswordStarter (r1 r2 r3 : Z) : outcome string :=
  let? s := GetNewPasswordStarter r1 r2 r3 in Ok (s +:+ " ").
End Words.

(** ** Reading lines *)

(** [bufio.Reader.ReadString] of a newline: [buf] is what the reader holds. *)
Fixpoint ReadString (buf : string) (stdin : list string) : outcome (string * string * list string) :=
  match cut nl_byte buf with
  | (line, Some rest) => Ok (line +:+ nl, rest, stdin)
  | (_, None) =>
      match stdin with
      | [] => Err EOF
      | chunk :: stdin => ReadString (buf +:+ chunk) stdin
      end
  end.

(** The first index at which two strings differ. *)
Fixpoint first_diff (i : Z) (a b : string) : Z :=
  match a, b with
  | String c a, String d b => if Ascii.eqb c d then first_diff (i + 1) a b else i
  | _, _ => i
  end.
Definition firstDiff (a b : string) : Z := if (a =? "")%string || (b =? "")%string then 0 else first_diff 0 a b.

Definition too_short : string := "alert! completion of phrase too short, must be 3-100 characters".
Definition too_long : string := "alert! completion of phrase too long, must be 3-100 characters".
Definition no_match (pw pw2 : string) : string :=
  "alert! passphrases don't match at position " +:+ itoa (firstDiff pw pw2 + 1) +:+ ": '" +:+ pw +:+ "' versus '" +:+ pw2 +:+ "'".

Definition crlf : string := String "010" (String "013" "").

(** One try, with a reader of its own that is dropped with what it holds: the
    passphrase or the error that the next try prints, and the rest of the
    input. *)
Definition one_try (start : string) (stdin : list string) : outcome ((string + string) * list string) :=
  let? '(line, buf, stdin) := panicOn (ReadString "" stdin) in
  let ending := Trim line crlf in
  if slen ending <? 3 then Ok (inr too_short, stdin)
  else if 100 <? slen ending then Ok (inr too_long, stdin)
  else
    let pw := start +:+ ending in
    let? '(line, buf, stdin) := panicOn (ReadString buf stdin) in
    let pw2 := Trim line crlf in
    if negb (pw =? pw2)%string then Ok (inr (no_match pw pw2), stdin) else Ok (inl pw, stdin).

Fixpoint prompt_loop (tries : nat) (err start : string) (stdin : list string) : outcome (outcome string * list string) :=
  match tries with
  | O => Ok (Err err, stdin)
  | S tries =>
      let? '(r, stdin) := one_try start stdin in
      match r with
      | inl pw => Ok (Ok pw, stdin)
      | inr err => prompt_loop tries err start stdin
      end
  end.
Definition numTry : nat := 3.
Definition PromptForPassword (start : string) (stdin : list string) : outcome (outcome string * list string) :=
  prompt_loop numTry "" start stdin.

(** ** Random choices *)

Lemma abs_spec x : in_int64 x -> abs x = if decide (x = min_int64) then min_int64 else Z.abs x.
Proof.
  unfold in_int64, abs, min_int64, max_int64, to_int64. intros H. case_decide as E; [by subst x|].
  destruct (Z.ltb_spec x 0); [rewrite Z.mod_small by lia; lia|lia].
Qed.

Lemma at_index_some {A} (l : list A) i :
  0 <= i < Z.of_nat (List.length l) -> exists x, at_index l i = Ok x /\ x ∈ l.
Proof.
  intros H. unfold at_index. destruct (Z.ltb_spec i 0); [lia|].
  destruct (lookup_lt_is_Some_2 l (Z.to_nat i)) as [x Hx]; [lia|]. rewrite Hx. exists x. split; [done|].
  by eapply list_elem_of_lookup_2.
Qed.

Lemma rem_index x n : in_int64 x -> x <> min_int64 -> 0 < n -> 0 <= Z.rem (abs x) n < n.
Proof. intros Hx Hm Hn. rewrite abs_spec by done. rewrite decide_False by done. apply Z.rem_bound_pos; lia. Qed.

(** A random string has the length asked for and only digits and lower-case
    letters; but one random number in 2^64, the least integer, has no absolute
    value, and indexes below the alphabet: that call panics. *)
Theorem random_string_spec randoms :
  Forall in_int64 randoms ->
  (Forall (fun r => r <> min_int64) randoms /\
     exists s, RandomString randoms = Ok s /\ String.length s = List.length randoms /\
               sall (fun c => bool_decide (c ∈ ch)) s = true) \/
  (Exists (fun r => r = min_int64) randoms /\ RandomString randoms = Panic "index out of range").
Proof.
  induction 1 as [|r randoms Hr H IH]; [left; split; [by constructor|]; by exists ""|].
  destruct (decide (r = min_int64)) as [->|Hm]; [right; split; [by left|done]|].
  cbn [RandomString foldr]. fold (RandomString randoms).
  pose proof (at_index_some ch (Z.rem (abs r) 36) (rem_index r 36 Hr Hm eq_refl)) as (a & Ha & Hin). rewrite Ha. cbn [obind].
  destruct IH as [(Hall & s & Hs & Hl & Hc)|(Hex & Hp)].
  - left. split; [by constructor|]. exists (String a s). rewrite Hs. cbn [obind]. split; [done|].
    split; [simpl; by rewrite Hl|]. cbn [sall]. rewrite Hc, andb_true_r. by apply bool_decide_eq_true.
  - right. split; [by right|]. by rewrite Hp.
Qed.

(** Of a word list every word may come, unless the random number is the least
    integer. *)
Lemma word_at_some l r : l <> [] -> in_int64 r -> r <> min_int64 -> exists w, word_at l r = Ok w /\ w ∈ l.
Proof. intros Hl Hr Hm. apply at_index_some, rem_index; [done..|]. destruct l; [done|]. simpl. lia. Qed.

Lemma starter_spec adj prop verbs r1 r2 r3 :
  adj <> [] -> prop <> [] -> verbs <> [] -> Forall (fun r => in_int64 r /\ r <> min_int64) [r1; r2; r3] ->
  exists a p v, getNewPasswordStarter adj prop verbs r1 r2 r3 = Ok ((a +:+ " " +:+ p +:+ " " +:+ v) +:+ " ") /\
    a ∈ adj /\ p ∈ prop /\ v ∈ verbs.
Proof.
  intros Ha Hp Hv. rewrite !Forall_cons. intros ((H1 & N1) & (H2 & N2) & (H3 & N3) & _).
  destruct (word_at_some adj r1) as (a & Ea & Ia); [done..|]. destruct (word_at_some prop r2) as (p & Ep & Ip); [done..|].
  destruct (word_at_some verbs r3) as (v & Ev & Iv); [done..|]. exists a, p, v.
  unfold getNewPasswordStarter, GetNewPasswordStarter. by rewrite Ea, Ep, Ev.
Qed.

Lemma rand_nonneg_spec n x : 0 < n -> in_int64 x ->
  if decide (x = min_int64) then - n < CryptoRandNonNegInt n x <= 0 else 0 <= CryptoRandNonNegInt n x < n.
Proof.
  intros Hn Hx. unfold CryptoRandNonNegInt. case_decide as E; [|by apply rem_index].
  rewrite abs_spec by done. rewrite decide_True by done. pose proof (Z.rem_bound_pos_neg min_int64 n Hn ltac:(unfold min_int64; lia)). lia.
Qed.

(** ** The prompt *)

Lemma ReadString_outcome buf stdin :
  (exists line buf' stdin', ReadString buf stdin = Ok (line, buf', stdin')) \/ ReadString buf stdin = Err EOF.
Proof.
  revert buf. induction stdin as [|c stdin IH]; intros buf; cbn [ReadString]; destruct (cut nl_byte buf) as [line [rest|]]; eauto 10.
Qed.

(** What one try may do. *)
Definition try_ok (start : string) (r : string + string) : Prop :=
  match r with
  | inl pw => exists ending, pw = start +:+ ending /\ 3 <= slen ending <= 100
  | inr err => err <> ""
  end.

Lemma one_try_outcome start stdin :
  (exists r rest, one_try start stdin = Ok (r, rest) /\ try_ok start r) \/ one_try start stdin = Panic EOF.
Proof.
  unfold one_try. destruct (ReadString_outcome "" stdin) as [(line & buf & stdin' & ->)| ->]; [|by right]. cbn [panicOn obind].
  destruct (slen (Trim line crlf) <? 3) eqn:E1; [left; by eexists _, _|].
  destruct (100 <? slen (Trim line crlf)) eqn:E2; [left; by eexists _, _|]. z_prop.
  destruct (ReadString_outcome buf stdin') as [(line2 & buf2 & stdin2 & ->)| ->]; [|by right]. cbn [panicOn obind]. left.
  destruct (negb _); eexists _, _; (split; [reflexivity|]); [done|]. exists (Trim line crlf). split; [done|lia].
Qed.

(** Whatever is typed, the prompt ends after at most three tries: with a
    passphrase that is the given start and an end of 3 to 100 characters, or
    with an error; it panics only at the end of the input. *)
Theorem prompt_spec start stdin :
  (exists pw ending rest, PromptForPassword start stdin = Ok (Ok pw, rest) /\ pw = start +:+ ending /\ 3 <= slen ending <= 100) \/
  (exists err rest, PromptForPassword start stdin = Ok (Err err, rest) /\ err <> "") \/
  PromptForPassword start stdin = Panic EOF.
Proof.
  unfold PromptForPassword. assert (forall n err stdin, (n = 0%nat -> err <> "") ->
    (exists pw ending rest, prompt_loop n err start stdin = Ok (Ok pw, rest) /\ pw = start +:+ ending /\ 3 <= slen ending <= 100) \/
    (exists e rest, prompt_loop n err start stdin = Ok (Err e, rest) /\ e <> "") \/ prompt_loop n err start stdin = Panic EOF) as H;
    [|by apply H].
  clear stdin. induction n as [|n IH]; intros err stdin He; cbn [prompt_loop]; [right; left; eexists _, _; by split; [|apply He]|].
  destruct (one_try_outcome start stdin) as [(r & rest & -> & Hr)| ->]; [|by right; right]. cbn [obind]. destruct r as [pw|e].
  - left. destruct Hr as (ending & -> & Hl). by exists (start +:+ ending), ending, rest.
  - apply (IH e rest). intros _. exact Hr.
Qed.

(** Lines without line ends, typed one by one. *)
Definition clean (s : string) : bool := sall (fun c => negb (in_set crlf c)) s.

Lemma ReadString_line line stdin : lacks nl_byte line = true -> ReadString "" ((line +:+ nl) :: stdin) = Ok (line +:+ nl, "", stdin).
Proof.
  intros H. cbn [ReadString cut]. change ("" +:+ (line +:+ nl)) with (line +:+ String nl_byte "").
  destruct stdin; cbn [ReadString]; by rewrite cut_app.
Qed.

Lemma clean_trim s : clean s = true -> Trim (s +:+ nl) crlf = s.
Proof.
  intros H. unfold Trim. destruct s as [|c s]; [done|]. unfold clean in H. cbn [sall] in H. apply andb_true_iff in H as [Hc Hs].
  change (String c s +:+ nl) with (String c (s +:+ nl)). apply negb_true_iff in Hc. rewrite trim_left_id by done.
  change (String c (s +:+ nl)) with (String c s +:+ String nl_byte ""). rewrite trim_right_cut by done.
  apply trim_right_none. cbn [sall]. by rewrite Hc, Hs.
Qed.

Lemma clean_lacks s : clean s = true -> lacks nl_byte s = true.
Proof. intros H. eapply sall_impl; [|exact H]. intros c Hc. apply negb_true_iff, Ascii.eqb_neq. intros ->. done. Qed.

(** An end of 3 to 100 characters, typed and then confirmed with the start,
    is accepted at once. *)
Theorem prompt_accepts start ending stdin :
  clean start = true -> clean ending = true -> 3 <= slen ending <= 100 ->
  PromptForPassword start ((ending +:+ nl) :: ((start +:+ ending) +:+ nl) :: stdin) = Ok (Ok (start +:+ ending), stdin).
Proof.
  intros Hs He Hl. unfold PromptForPassword, numTry. cbn [prompt_loop]. unfold one_try.
  assert (clean (start +:+ ending) = true) as Hc by (unfold clean in *; by rewrite sall_app, Hs, He).
  rewrite ReadString_line by (by apply clean_lacks). cbn [panicOn obind]. rewrite clean_trim by done.
  destruct (Z.ltb_spec (slen ending) 3); [lia|]. destruct (Z.ltb_spec 100 (slen ending)); [lia|].
  rewrite ReadString_line by (by apply clean_lacks). cbn [panicOn obind]. rewrite clean_trim by done. by rewrite String.eqb_refl.
Qed.

Lemma prompt_accepts_witness :
  PromptForPassword "big dog runs " [("home" +:+ nl); (("big dog runs " +:+ "home") +:+ nl)] = Ok (Ok ("big dog runs " +:+ "home"), []).
Proof. apply (prompt_accepts "big dog runs " "home" []); [reflexivity..|]. vm_compute. split; discriminate. Defined.

Lemma random_string_spec_witness : exists s, RandomString [5; 36; -1] = Ok s /\ String.length s = 3%nat.
Proof.
  destruct (random_string_spec [5; 36; -1]) as [(_ & s & H1 & H2 & _)|(_ & H)].
  - repeat constructor; vm_compute; discriminate.
  - by exists s.
  - vm_compute in H. discriminate H.
Defined.
