(* ===== verification/UserMgt.v ===== *)
(** Adding and deleting users (usermgt.go, netcli.go, tcplock.go; server.go:
    [CommandRecv], the requests that [Esshd.Start] serves, [writeBackHelper]):
    directly, or over a socket when a server holds the port. *)
From S2P Require Import Prelude.
From S2P Require Import GoStrings.
From S2P Require Import Wire.
From S2P Require Import Passphrase.
From S2P Require Import UserDb.
From S2P Require Import OpenDb.
Import AtomicUserMap.

(** ** The port as a lock *)

(** [ErrCouldNotAquirePort] is one value, compared by identity. *)
Inductive port_error := ErrCouldNotAquirePort | NewError (text : string).

Record TcpPort := mkPort { Port : Z; Lsn : bool }.

Definition millisecond : Z := 1000000.
Definition localhost_addr (port : Z) : string := "127.0.0.1:" +:+ itoa port.

(** Each attempt to listen: whether it succeeds, and the time since the start
    after the pause that follows a failure. *)
Fixpoint lock_loop (limitMsec : Z) (addr : string) (attempts : list (bool * Z)) : outcome (option port_error) :=
  match attempts with
  | [] => Blocked
  | (true, _) :: _ => Ok None
  | (false, t) :: attempts =>
      if (0 <? limitMsec) && (limitMsec * millisecond <? t)
      then Ok (Some (NewError ("-xport error: could not acquire our -xport before the deadline, for -xport " +:+ addr)))
      else lock_loop limitMsec addr attempts
  end.

Definition Lock (limitMsec : Z) (attempts : list (bool * Z)) (t : TcpPort) : outcome (TcpPort * option port_error) :=
  let? e := lock_loop limitMsec (localhost_addr (Port t)) attempts in
  Ok (match e with None => mkPort (Port t) true | Some _ => t end, e).

Definition Unlock (t : TcpPort) : TcpPort := if negb (Lsn t) then t else mkPort (Port t) false.

(** ** Commands over the socket *)

Definition NewUserCmd : string := "00NEWUSER___".
Definition NewUserReply : string := "00REPLY_____".
Definition DelUserCmd : string := "01DELUSER___".
Definition DelUserReplyOK : string := "01REPLY_OK__".
Definition DelUserReplyFailed : string := "01REPLY_FAIL".

(** What a call sees of the disk, and what another process does meanwhile, are
    arguments; [exit] is os.Exit. *)
Inductive exit := Exit (status : Z).

Section Users.
Context (Signer : Type).
Context (scrypt_hash : string -> string) (new_totp : string -> string -> outcome (string * string))
        (gen_rsa : Z -> string -> outcome (string * string)) (ParsePrivateKey : string -> outcome Signer).
Context (encode_db encode_json : HostDbPersist -> string) (decode_db : string -> outcome (option HostDbPersist)).
(** A user alone on the wire. *)
Context (MarshalMsg : User -> string) (UnmarshalMsg : string -> outcome User).
Context (dirExists : string -> bool) (MkdirAll : string -> error_) (can_write can_remove : string -> bool) (Hostname : string).
Context (cfg : HostCfg) (port : Z).

Abbreviation NewHostDb := (NewHostDb Signer gen_rsa ParsePrivateKey encode_db encode_json decode_db dirExists MkdirAll can_write Hostname cfg).
Abbreviation finishUserBuildout := (finishUserBuildout scrypt_hash new_totp gen_rsa encode_db encode_json can_write cfg).
Abbreviation AddUser := (AddUser scrypt_hash new_totp gen_rsa encode_db encode_json can_write cfg).
Abbreviation DelUser := (DelUser encode_db encode_json can_write can_remove cfg).

(** *** The server's end *)

Inductive command := CmdAdd (u : User) | CmdDel (u : User).

(** The first read gets [n] of the bytes that arrive; the buffer's rest is zero. *)
Definition read_command (n : nat) (stream : string) : option command :=
  let got := stake (Nat.min n (String.length NewUserCmd)) stream in
  let rest := sdrop (String.length got) stream in
  match UnmarshalMsg rest with
  | Ok u =>
      if (got =? NewUserCmd)%string then Some (CmdAdd u)
      else if (got =? DelUserCmd)%string then Some (CmdDel u) else None
  | _ => None
  end.

(** [Esshd.Start] on a request; a failed addition panics there. *)
Definition serve_add (u : User) (h : HostDb) : outcome (HostDb * User) :=
  let? '(h, r) := finishUserBuildout u h in
  let? _ := panicOn r in
  match Get2 (Users (Persist h)) (MyLogin u) with
  | Some u => Ok (h, u)
  | None => Panic "unreachable"
  end.
Definition serve_del (u : User) (h : HostDb) : outcome (HostDb * bool) :=
  let '(h, r) := DelUser (MyLogin u) h in
  match r with Ok _ => Ok (h, true) | Err _ => Ok (h, false) | Panic s => Panic s | Blocked => Blocked end.

(** One connection to the command port: the database and what the client reads
    until the connection is closed. *)
Definition CommandRecv (n : nat) (stream : string) (h : HostDb) : outcome (HostDb * string) :=
  match read_command n stream with
  | None => Ok (h, "")
  | Some (CmdDel u) =>
      let? '(h, ok) := serve_del u h in Ok (h, if ok : bool then DelUserReplyOK else DelUserReplyFailed)
  | Some (CmdAdd u) =>
      let? '(h, u) := serve_add u h in Ok (h, NewUserReply +:+ MarshalMsg u)
  end.

(** *** The client's end *)

(** [exchange] is all that comes back for what is written; every error of the
    network panics. *)
Definition TcpClientUserAdd (exchange : string -> outcome string) (user : User) : outcome built :=
  if port <? 0 then Err ("SshegoSystemMutexPort was negative(" +:+ itoa port +:+ "), not possible to add user")
  else
    let? dat := panicOn (exchange (NewUserCmd +:+ MarshalMsg user)) in
    let n := String.length NewUserReply in
    if (String.length dat <? n)%nat
    then Panic ("expected '" +:+ NewUserReply +:+ "' preamble, but got '" +:+ dat +:+ "' of length " +:+ itoa (slen dat))
    else
      let? r := panicOn (UnmarshalMsg (sdrop n dat)) in
      Ok (TOTPpath r, QrPath r, PrivKeyPath r).

Definition TcpClientUserDel (exchange : string -> outcome string) (user : User) : outcome unit :=
  if port <? 0 then Err ("SshegoSystemMutexPort was negative(" +:+ itoa port +:+ "), not possible to delete user")
  else
    let? dat := panicOn (exchange (DelUserCmd +:+ MarshalMsg user)) in
    let n := String.length DelUserReplyFailed in
    if (String.length dat <? n)%nat
    then Panic ("expected '" +:+ NewUserReply +:+ "' preamble, but got '" +:+ dat +:+ "' of length " +:+ itoa (slen dat))
    else if (stake n dat =? DelUserReplyFailed)%string
    then Err "user delete failed -- typically because user does not exist"
    else Ok tt.

(** *** The commands *)

(** The questions of [AddUserAndExit], on one reader: email, backup, full name;
    [None] when the email is refused. *)
Definition ask_user (stdin : list string) : outcome (option (string * bool * string) * list string) :=
  let? '(line, buf, stdin) := panicOn (ReadString "" stdin) in
  let myemail := Trim line ws in
  match ValidEmail myemail with
  | Ok _ =>
      let? '(yn, buf, stdin) := panicOn (ReadString buf stdin) in
      let yn := ToLower (Trim yn ws) in
      let sendEmail := (yn =? "y")%string || (yn =? "yes")%string in
      let? '(fullname, buf, stdin) := panicOn (ReadString buf stdin) in
      Ok (Some (myemail, sendEmail, Trim fullname ws), stdin)
  | _ => Ok (None, stdin)
  end.

(** The new user as it is sent. *)
Definition sent_user (mylogin myemail fullname pw : string) : User :=
  mkUser myemail fullname mylogin "" "" "" "" "gosshtun" ∅ "" pw "" None 0 0 "" [] false.

(** The user that is deleted, as it is sent. *)
Definition deleted_user (mylogin : string) : User :=
  mkUser "" "" mylogin "" "" "" "" "" ∅ "" "" "" None 0 0 "" [] false.

(** What the command does to the disk, how it exits, and whether it reports to
    the email; [start] begins the passphrase. *)
Definition AddUserAndExit (mylogin start : string) (stdin : list string) (attempts : list (bool * Z))
    (exchange : string -> outcome string) (fs : gmap string string) : outcome (gmap string string * exit * bool) :=
  let? '(h, _) := panicOn (NewHostDb fs) in
  if UserExists mylogin h then Ok (files h, Exit 1, false)
  else if port <? 0 then Ok (files h, Exit 1, false)
  else
    match ValidLogin mylogin with
    | Ok _ =>
        let? '(answers, stdin) := ask_user stdin in
        match answers with
        | None => Ok (files h, Exit 1, false)
        | Some (myemail, sendEmail, fullname) =>
            let? pw :=
              if SkipPassphrase cfg then Ok (Ok "") else let? '(pw, _) := PromptForPassword start stdin in Ok pw in
            match pw with
            | Ok pw =>
                let? '(prt, err) := Lock 5000 attempts (mkPort port false) in
                let? '(h, r) :=
                  match err with
                  | Some ErrCouldNotAquirePort => Ok (h, TcpClientUserAdd exchange (sent_user mylogin myemail fullname pw))
                  | _ => AddUser mylogin myemail pw "gosshtun" fullname "" h
                  end in
                match r with
                | Ok _ => Ok (files h, Exit 0, sendEmail)
                | Err e =>
                    if HasPrefix e "bad email: give a full email address." then Ok (files h, Exit 1, false) else Panic e
                | Panic s => Panic s
                | Blocked => Blocked
                end
            | _ => Ok (files h, Exit 1, false)
            end
        end
    | _ => Ok (files h, Exit 1, false)
    end.

(** An error of [NewHostDb] also exits with 1; what it leaves on the disk is not
    described, so it is an [Err] here. *)
Definition DelUserAndExit (mylogin : string) (attempts : list (bool * Z)) (exchange : string -> outcome string)
    (fs : gmap string string) : outcome (gmap string string * exit) :=
  let? '(prt, err) := Lock 5000 attempts (mkPort port false) in
  match err with
  | Some ErrCouldNotAquirePort =>
      match TcpClientUserDel exchange (deleted_user mylogin) with
      | Ok _ => Ok (fs, Exit 0)
      | Err _ => Ok (fs, Exit 1)
      | Panic s => Panic s
      | Blocked => Blocked
      end
  | _ =>
      match NewHostDb fs with
      | Ok (h, _) =>
          let '(h, r) := DelUser mylogin h in
          match r with
          | Ok _ => Ok (files h, Exit 0)
          | Err _ => Ok (files h, Exit 1)
          | Panic s => Panic s
          | Blocked => Blocked
          end
      | Err e => Err e
      | Panic s => Panic s
      | Blocked => Blocked
      end
  end.
End Users.

(** ** The lock *)

(** The lock is taken by the first attempt to listen that succeeds before the
    deadline has passed; otherwise the call ends with an error once it has
    passed. The error is never [ErrCouldNotAquirePort], the one that the
    commands test for. *)
Theorem lock_spec limit addr attempts :
  0 < limit -> Exists (fun a => a.1 = true \/ limit * millisecond < a.2) attempts ->
  exists before a after, attempts = before ++ a :: after /\
    Forall (fun b => b.1 = false /\ b.2 <= limit * millisecond) before /\
    if a.1 then lock_loop limit addr attempts = Ok None
    else limit * millisecond < a.2 /\ exists text, lock_loop limit addr attempts = Ok (Some (NewError text)).
Proof.
  intros Hl. induction attempts as [|[ok t] attempts IH]; [by intros H%Exists_nil|]. intros H.
  destruct ok.
  { exists [], (true, t), attempts. done. }
  destruct (Z.ltb_spec (limit * millisecond) t) as [Ht|Ht].
  { exists [], (false, t), attempts. split_and!; [done..|]. cbn [lock_loop fst snd]. split; [done|].
    rewrite (proj2 (Z.ltb_lt 0 limit) Hl), (proj2 (Z.ltb_lt _ _) Ht). eauto. }
  apply Exists_cons in H as [[H|H]|H]; [done|simpl in H; lia|].
  destruct (IH H) as (before & a & after & -> & Hb & Ha). exists ((false, t) :: before), a, after.
  split; [done|]. split; [by constructor|]. cbn [lock_loop].
  rewrite (proj2 (Z.ltb_ge _ _) Ht), andb_false_r. done.
Qed.

Lemma lock_never limit attempts t : forall t' e, Lock limit attempts t = Ok (t', e) -> e <> Some ErrCouldNotAquirePort.
Proof.
  intros t' e H. unfold Lock in H. apply obind_ok in H as (e' & He & [= _ <-]).
  revert He. induction attempts as [|[[] x] l IH]; cbn [lock_loop]; [done|by intros [= <-]|].
  destruct (_ && _); [by intros [= <-]|done].
Qed.

Section UsersFacts.
Context {Signer : Type}.
Context (scrypt_hash : string -> string) (new_totp : string -> string -> outcome (string * string))
        (gen_rsa : Z -> string -> outcome (string * string)) (ParsePrivateKey : string -> outcome Signer).
Context (encode_db encode_json : HostDbPersist -> string) (decode_db : string -> outcome (option HostDbPersist)).
Context (MarshalMsg : User -> string) (UnmarshalMsg : string -> outcome User).
Context (dirExists : string -> bool) (MkdirAll : string -> error_) (can_write can_remove : string -> bool) (Hostname : string).
Context (cfg : HostCfg) (port : Z).
Abbreviation NewHostDb := (NewHostDb Signer gen_rsa ParsePrivateKey encode_db encode_json decode_db dirExists MkdirAll can_write Hostname cfg).
Abbreviation finishUserBuildout := (finishUserBuildout scrypt_hash new_totp gen_rsa encode_db encode_json can_write cfg).
Abbreviation AddUser := (AddUser scrypt_hash new_totp gen_rsa encode_db encode_json can_write cfg).
Abbreviation DelUser := (DelUser encode_db encode_json can_write can_remove cfg).
Abbreviation CommandRecv := (CommandRecv scrypt_hash new_totp gen_rsa encode_db encode_json MarshalMsg UnmarshalMsg can_write can_remove cfg).
Abbreviation serve_add := (serve_add scrypt_hash new_totp gen_rsa encode_db encode_json can_write cfg).

(** *** Adding over the socket is adding *)

Lemma SaveToFile_files key png path h h' q p :
  SaveToFile can_write key png path h = Ok (h', q) -> p <> path -> p <> path +:+ "-qrcode.png" -> files h' !! p = files h !! p.
Proof.
  unfold SaveToFile, write_file. intros H Hp Hq. destruct (can_write path); [|done]. cbn [obind] in H.
  destruct (png =? "")%string; [injection H as <- <-; cbn; by rewrite lookup_insert_ne|].
  destruct (can_write _); [|done]. cbn [obind] in H. injection H as <- <-. cbn. by rewrite !lookup_insert_ne.
Qed.

Lemma key_path_unused login : Rsapath cfg login <> toptpath cfg login /\ Rsapath cfg login <> toptpath cfg login +:+ "-qrcode.png".
Proof. unfold Rsapath, toptpath. rewrite string_app_assoc. split; intros E; by apply app_inj_l in E. Qed.

Lemma set_paths u a b :
  set_PublicKeyPath a (set_PrivKeyPath b u) = set_PublicKeyPath a (set_PrivKeyPath b (set_PublicKeyPath "" (set_PrivKeyPath "" u))).
Proof. by destruct u. Qed.

Ltac same_build Hb :=
  match goal with
  | |- obind (build_rsa _ _ _ ?u1 ?h1) _ = obind (build_rsa _ _ _ ?u2 _) _ => rewrite (Hb h1 u1 u2); try reflexivity
  end.

(** The user that is sent has no paths of keys; without a key on disk the paths
    that [AddUser] gives are set anyway. *)
Lemma finish_sent login email full pw h :
  SkipRSA cfg = true \/ files h !! Rsapath cfg login = None ->
  let '(priv, pub) := if SkipRSA cfg then ("", "") else (Rsapath cfg login, Rsapath cfg login +:+ ".pub") in
  finishUserBuildout (mkUser email full login pub priv "" "" "gosshtun" ∅ "" pw "" None 0 0 "" [] false) h =
  finishUserBuildout (sent_user login email full pw) h.
Proof.
  intros Hf. destruct (SkipRSA cfg) eqn:Er; [done|]. destruct Hf as [Hf|Hf]; [done|].
  unfold UserDb.finishUserBuildout, sent_user, build_totp.
  assert (forall h1 u1 u2, files h1 !! Rsapath cfg login = None -> MyLogin u1 = login -> MyLogin u2 = login ->
    PrivKeyPath u1 = Rsapath cfg login -> PrivKeyPath u2 = "" ->
    set_PublicKeyPath "" (set_PrivKeyPath "" u1) = set_PublicKeyPath "" (set_PrivKeyPath "" u2) ->
    build_rsa gen_rsa can_write cfg u1 h1 = build_rsa gen_rsa can_write cfg u2 h1) as Hb.
  { intros h1 u1 u2 Hh L1 L2 P1 P2 Hu. unfold build_rsa. rewrite Er, P1, P2, L1, L2.
    assert (file_exists (Rsapath cfg login) h1 = false) as -> by (by apply file_exists_none).
    rewrite andb_false_r. cbn [String.eqb negb andb].
    by rewrite (set_paths u1), (set_paths u2), Hu. }
  destruct (key_path_unused login) as [D1 D2].
  destruct (SkipTOTP cfg).
  - destruct (SkipPassphrase cfg); cbn [obind]; same_build Hb; done.
  - destruct (SkipPassphrase cfg); cbn [MyEmail MyLogin Issuer set_ScryptedPassword];
      (destruct (panicOn (new_totp _ _)) as [[key png]| | |]; [cbn [obind]|done..]);
      (destruct (panicOn (SaveToFile can_write key png _ h)) as [[h1 q]| | |] eqn:ES; [cbn [obind]|done..]);
      apply (proj1 (panicOn_ok _ _)) in ES; same_build Hb; by rewrite (SaveToFile_files _ _ _ _ _ _ _ ES).
Qed.

Lemma finish_saved u h h' paths :
  finishUserBuildout u h = Ok (h', Ok paths) -> files h' !! msgpath cfg = Some (encode_db (Persist h')).
Proof.
  unfold UserDb.finishUserBuildout.
  intros ([[[h1 u1] a] b] & _ & H)%obind_ok. apply obind_ok in H as ([[h2 u2] c] & _ & H). apply obind_ok in H as (m & _ & H).
  destruct (save encode_db encode_json can_write cfg (with_users m h2)) as [h3 r] eqn:Hs. injection H as <- Hr.
  destruct r as [[]| | |]; try done. destruct (save_spec encode_db encode_json can_write cfg _ _ Hs) as [HP Hf]. by rewrite HP.
Qed.

(** What [finishUserBuildout] reports is what it stored. *)
Lemma finish_reports login email full pw h h' toptPath qrPath rsaPath :
  finishUserBuildout (sent_user login email full pw) h = Ok (h', Ok (toptPath, qrPath, rsaPath)) ->
  (exists u', Get2 (Users (Persist h')) login = Some u' /\ TOTPpath u' = toptPath /\ QrPath u' = qrPath /\ PrivKeyPath u' = rsaPath /\ MyLogin u' = login) /\
  files h' !! msgpath cfg = Some (encode_db (Persist h')).
Proof.
  unfold UserDb.finishUserBuildout. set (u0 := if SkipPassphrase cfg then _ else _).
  assert (TOTPpath u0 = "" /\ QrPath u0 = "" /\ PrivKeyPath u0 = "" /\ MyLogin u0 = login) as (T0 & Q0 & P0 & L0)
    by (unfold u0; by destruct (SkipPassphrase cfg)).
  intros ([[[h1 u1] a] b] & HT & H)%obind_ok. apply obind_ok in H as ([[h2 u2] c] & HR & H).
  apply obind_ok in H as (m & Hm & H).
  assert (TOTPpath u1 = a /\ QrPath u1 = b /\ PrivKeyPath u1 = "" /\ MyLogin u1 = login) as (T1 & Q1 & P1 & L1).
  { revert HT. unfold build_totp. destruct (SkipTOTP cfg); [intros [= <- <- <- <-]; done|].
    intros ([key png] & _ & HT)%obind_ok. apply obind_ok in HT as ([h1' q] & _ & HT). injection HT as <- <- <- <-.
    by destruct u0. }
  assert (TOTPpath u2 = a /\ QrPath u2 = b /\ PrivKeyPath u2 = c /\ MyLogin u2 = login) as (T2 & Q2 & P2 & L2).
  { revert HR. unfold build_rsa. destruct (SkipRSA cfg); [intros [= <- <- <-]; done|]. rewrite P1. cbn [String.eqb negb andb].
    intros (h2' & _ & HR)%obind_ok. injection HR as <- <- <-. by destruct u1. }
  destruct (save encode_db encode_json can_write cfg (with_users m h2)) as [h3 r] eqn:Hs. injection H as <- Hr.
  destruct r as [[]| | |]; try done. cbn [obind] in Hr. injection Hr as <- <- <-.
  destruct (save_spec encode_db encode_json can_write cfg _ _ Hs) as [HP Hf]. split; [|by rewrite HP].
  exists (set_ClearPw "" u2). rewrite HP. cbn [with_users Persist Users].
  assert (MyLogin (set_ClearPw "" u2) = login) as Hl by (by destruct u2).
  rewrite (Get2_Set _ _ _ _ _ Hm), Hl, decide_True by done. split; [done|]. by destruct u2.
Qed.

(** With a valid login that is not in use, and no key of it on disk, [AddUser] is what
    the server does. *)
Lemma add_is_finish login email full pw h :
  loginRE login = true -> Get2 (Users (Persist h)) login = None ->
  SkipRSA cfg = true \/ files h !! Rsapath cfg login = None ->
  AddUser login email pw "gosshtun" full "" h = finishUserBuildout (sent_user login email full pw) h.
Proof.
  intros Hl Hu Hk. unfold UserDb.AddUser, ValidLogin. rewrite Hl, Hu. cbn [String.eqb].
  pose proof (finish_sent login email full pw h Hk) as Hs.
  by destruct (if SkipRSA cfg then ("", "") else (Rsapath cfg login, Rsapath cfg login +:+ ".pub")) as [priv pub].
Qed.

Lemma sent_served login email full pw h :
  (forall u, UnmarshalMsg (MarshalMsg u) = Ok (set_oneTime None u)) ->
  CommandRecv (String.length NewUserCmd) (NewUserCmd +:+ MarshalMsg (sent_user login email full pw)) h =
    let? '(h', u) := serve_add (sent_user login email full pw) h in Ok (h', NewUserReply +:+ MarshalMsg u).
Proof.
  intros Hround. unfold UserMgt.CommandRecv, read_command. rewrite Nat.min_id, stake_app, sdrop_app, Hround.
  change (NewUserCmd =? NewUserCmd)%string with true. cbv iota. done.
Qed.

(** C31: Adding a user through a running server is adding it by the command, for a valid
    login that is not in use and has no key on disk: the server carries the request out
    just when [AddUser] succeeds, and ends in the same state; the client then reports
    the same paths, and the server's memory, and the database that it wrote to the disk,
    hold the user with these paths. *)
Theorem remote_add_is_add login email full pw h :
  (forall u, UnmarshalMsg (MarshalMsg u) = Ok (set_oneTime None u)) -> 0 <= port ->
  loginRE login = true -> Get2 (Users (Persist h)) login = None ->
  SkipRSA cfg = true \/ files h !! Rsapath cfg login = None ->
  let sent := sent_user login email full pw in
  (forall h', (exists paths, AddUser login email pw "gosshtun" full "" h = Ok (h', Ok paths)) <->
     exists reply, CommandRecv (String.length NewUserCmd) (NewUserCmd +:+ MarshalMsg sent) h = Ok (h', reply)) /\
  (forall h' paths, AddUser login email pw "gosshtun" full "" h = Ok (h', Ok paths) ->
     exists reply u', CommandRecv (String.length NewUserCmd) (NewUserCmd +:+ MarshalMsg sent) h = Ok (h', reply) /\
       TcpClientUserAdd MarshalMsg UnmarshalMsg port (fun _ => Ok reply) sent = Ok paths /\
       Get2 (Users (Persist h')) login = Some u' /\ MyLogin u' = login /\ paths = (TOTPpath u', QrPath u', PrivKeyPath u') /\
       files h' !! msgpath cfg = Some (encode_db (Persist h'))).
Proof.
  intros Hround Hp Hl Hu Hk sent. rewrite (add_is_finish login email full pw h Hl Hu Hk). unfold sent. rewrite (sent_served _ _ _ _ _ Hround).
  assert (forall h' paths, finishUserBuildout (sent_user login email full pw) h = Ok (h', Ok paths) -> exists u',
    serve_add (sent_user login email full pw) h = Ok (h', u') /\ Get2 (Users (Persist h')) login = Some u' /\ MyLogin u' = login /\
    paths = (TOTPpath u', QrPath u', PrivKeyPath u') /\ files h' !! msgpath cfg = Some (encode_db (Persist h'))) as Hserve.
  { intros h' [[a b] c] H. pose proof (finish_reports _ _ _ _ _ _ _ _ _ H) as [(u' & Hg & Ht & Hq & Hr & Hm) Hf].
    exists u'. split; [|by subst]. unfold UserMgt.serve_add. rewrite H. cbn [panicOn obind]. change (MyLogin (sent_user login email full pw)) with login.
    by rewrite Hg. }
  split.
  - intros h'. split.
    + intros (paths & H). destruct (Hserve h' paths H) as (u' & -> & _). by eexists.
    + intros (reply & ([h1 u1] & H1 & [= -> _])%obind_ok). unfold UserMgt.serve_add in H1.
      apply obind_ok in H1 as ([h2 r] & H2 & H1). apply obind_ok in H1 as (paths & Hr & H1). apply (proj1 (panicOn_ok _ _)) in Hr. subst r.
      exists paths. rewrite H2. destruct (Get2 _ _) in H1; [|done]. by injection H1 as <- _.
  - intros h' paths H. destruct (Hserve h' paths H) as (u' & -> & Hg & Hm & -> & Hf). eexists (NewUserReply +:+ MarshalMsg u'), u'.
    split; [done|]. split; [|done]. unfold TcpClientUserAdd. destruct (Z.ltb_spec port 0); [lia|]. cbn [panicOn obind].
    rewrite string_app_length. destruct (Nat.ltb_spec (String.length NewUserReply + String.length (MarshalMsg u')) (String.length NewUserReply)); [lia|].
    rewrite sdrop_app, Hround. cbn [panicOn obind]. by destruct u'.
Qed.

(** Deleting over the socket succeeds exactly when the server deleted the user; a server
    that cannot remove the user's files stops. *)
Theorem remote_del_spec login h :
  (forall u, UnmarshalMsg (MarshalMsg u) = Ok (set_oneTime None u)) -> 0 <= port ->
  let '(h', r) := DelUser login h in
  let recv := CommandRecv (String.length DelUserCmd) (DelUserCmd +:+ MarshalMsg (deleted_user login)) h in
  match r with
  | Panic s => recv = Panic s
  | Blocked => recv = Blocked
  | _ => exists reply, recv = Ok (h', reply) /\
      (TcpClientUserDel MarshalMsg port (fun _ => Ok reply) (deleted_user login) = Ok tt <-> r = Ok tt)
  end.
Proof.
  intros Hround Hp. destruct (DelUser login h) as [h' r] eqn:E. cbv zeta.
  unfold UserMgt.CommandRecv, read_command. change (Nat.min (String.length DelUserCmd) (String.length NewUserCmd)) with (String.length DelUserCmd).
  rewrite stake_app, sdrop_app, Hround. change (DelUserCmd =? NewUserCmd)%string with false. change (DelUserCmd =? DelUserCmd)%string with true.
  cbv iota. assert (set_oneTime None (deleted_user login) = deleted_user login) as -> by done. unfold serve_del.
  change (MyLogin (deleted_user login)) with login. rewrite E. unfold TcpClientUserDel.
  destruct (Z.ltb_spec port 0); [lia|]. destruct r as [[]| | |]; try done; (eexists; split; [reflexivity|]); (split; [|done]); done.
Qed.

(** *** Adding without the server *)

(** A server that runs holds the port, and its own copy of the users. *)
Context (decode_encode : forall p, decode_db (encode_db p) = Ok (Some (saved p))).
Context (path_set : EmbeddedSSHdHostDbPath cfg <> "") (dir_made : gendir dirExists MkdirAll cfg = Ok tt).

Abbreviation AddUserAndExit := (AddUserAndExit Signer scrypt_hash new_totp gen_rsa ParsePrivateKey encode_db encode_json decode_db
  MarshalMsg UnmarshalMsg dirExists MkdirAll can_write Hostname cfg port).

(** Whether the lock was taken makes no difference. *)
Lemma lock_ignored login start stdin attempts e exchange fs :
  lock_loop 5000 (localhost_addr port) attempts = Ok (Some e) ->
  AddUserAndExit login start stdin attempts exchange fs = AddUserAndExit login start stdin [(true, 0)] exchange fs.
Proof.
  intros Hl. assert (Lock 5000 attempts (mkPort port false) = Ok (mkPort port false, Some e)) as HL
    by (unfold Lock; cbn [Port]; by rewrite Hl).
  pose proof (lock_never _ _ _ _ _ HL) as Hne. unfold UserMgt.AddUserAndExit. rewrite HL.
  change (Lock 5000 [(true, 0)] (mkPort port false)) with (Ok (mkPort port true, @None port_error)). cbn [obind].
  destruct e; [done|]. reflexivity.
Qed.

Lemma added_stored login start stdin attempts exchange fs fs' sendEmail :
  AddUserAndExit login start stdin attempts exchange fs = Ok (fs', Exit 0, sendEmail) ->
  exists p, fs' !! msgpath cfg = Some (encode_db p) /\ is_Some (Get2 (Users p) login).
Proof.
  intros H. unfold UserMgt.AddUserAndExit in H. apply obind_ok in H as ([h s0] & _ & H). destruct (UserExists login h) eqn:Eu; [done|].
  destruct (port <? 0); [done|]. destruct (ValidLogin login) as [[]| | |] eqn:El; try done.
  apply obind_ok in H as ([[[[email se] full]|] stdin'] & _ & H); [|done].
  apply obind_ok in H as (pw & _ & H). destruct pw as [pw| | |]; try done.
  apply obind_ok in H as ([prt err] & HL & H). apply lock_never in HL as Hne.
  assert (exists h' paths, AddUser login email pw "gosshtun" full "" h = Ok (h', Ok paths) /\ files h' = fs') as (h' & paths & HA & <-).
  { destruct err as [[|text]|]; [done| |]; apply obind_ok in H as ([h' r] & HA & H); exists h';
      (destruct r as [paths|e| |]; [|by destruct (HasPrefix e _)|done..]); injection H as <- _; by exists paths. }
  unfold ValidLogin in El. destruct (loginRE login) eqn:Er; [|done].
  unfold UserDb.AddUser, ValidLogin in HA. rewrite Er in HA.
  destruct (Get2 (Users (Persist h)) login) eqn:Eg; [done|]. cbn [String.eqb] in HA.
  destruct (if SkipRSA cfg then ("", "") else (Rsapath cfg login, Rsapath cfg login +:+ ".pub")) as [priv pub].
  exists (Persist h'). split; [by eapply finish_saved|].
  apply finish_users in HA as (u' & _ & _ & _ & Hall). rewrite Hall. cbn [MyLogin]. rewrite decide_True by done. by eexists.
Qed.

(** The command does not notice that it failed to get the lock, which a
    running server holds: it goes on as if it had it, adds the user on disk and
    exits as if all was well; but the server does not know the user, and with
    the server's next save the user is gone. *)
Theorem added_user_lost login start stdin attempts e exchange fs fs' sendEmail server server' key s :
  lock_loop 5000 (localhost_addr port) attempts = Ok (Some e) ->
  AddUserAndExit login start stdin attempts exchange fs = Ok (fs', Exit 0, sendEmail) ->
  Get2 (Users (Persist server)) login = None -> can_write (msgpath cfg) = true ->
  save encode_db encode_json can_write cfg (with_files fs' server) = (server', Ok tt) ->
  HostPrivateKeyPath (Persist server) <> "" -> files server' !! HostPrivateKeyPath (Persist server) = Some key ->
  ParsePrivateKey key = Ok s ->
  AddUserAndExit login start stdin attempts exchange fs = AddUserAndExit login start stdin [(true, 0)] exchange fs /\
  (exists p, fs' !! msgpath cfg = Some (encode_db p) /\ is_Some (Get2 (Users p) login)) /\
  exists h, NewHostDb (files server') = Ok (h, s) /\ Get2 (Users (Persist h)) login = None.
Proof.
  intros Hlock H Hu Hw Hsave Hkp Hk Hs. split; [by eapply lock_ignored|]. split; [by eapply added_stored|].
  destruct (save_spec encode_db encode_json can_write cfg _ _ Hsave) as [HP Hf]. cbn [with_files Persist] in HP, Hf.
  eexists. split.
  - apply (open_existing gen_rsa ParsePrivateKey encode_db encode_json decode_db dirExists MkdirAll can_write Hostname cfg
      decode_encode path_set dir_made server' key s); rewrite ?HP; done.
  - cbn [Persist Users saved]. rewrite HP, Get2_saved, Hu. done.
Qed.
End UsersFacts.

(** ** A server and a command *)

Definition wire (u : User) : string := pos_text (countable.encode (set_oneTime None u)).
Definition unwire (s : string) : outcome User :=
  match countable.decode (text_pos s) with Some u => Ok u | None => Err "bad user" end.
Lemma unwire_wire u : unwire (wire u) = Ok (set_oneTime None u).
Proof. unfold unwire, wire. by rewrite text_pos_text, countable.decode_encode. Qed.

Lemma lock_spec_witness : exists before a after, [(false, 10); (false, 6000000000); (true, 0)] = before ++ a :: after /\ a.1 = false.
Proof.
  destruct (lock_spec 5000 (localhost_addr 33355) [(false, 10); (false, 6000000000); (true, 0)] eq_refl) as (b & a & c & E & Hb & Ha).
  - apply Exists_cons. right. apply Exists_cons. left. right. vm_compute. reflexivity.
  - exists b, a, c. split; [exact E|]. destruct a as [[] t]; [|done]. vm_compute in Ha. discriminate Ha.
Defined.

Lemma remote_add_is_add_witness :
  exists reply u', TcpClientUserAdd wire unwire 33355 (fun _ => Ok reply) (sent_user "bob" "bob@example.com" "Bob" "correct horse")
    = Ok ("/db/users/bob/topt", "/db/users/bob/topt-qrcode.png", "/db/users/bob/id_rsa") /\
    Get2 (Users (Persist demo_db_bob)) "bob" = Some u'.
Proof.
  destruct (proj2 (remote_add_is_add demo_hash demo_totp demo_rsa demo_encode demo_encode wire unwire (fun _ => true) (fun _ => true) demo_cfg 33355
    "bob" "bob@example.com" "Bob" "correct horse" demo_db unwire_wire ltac:(lia) eq_refl eq_refl ltac:(by right)) demo_db_bob
    ("/db/users/bob/topt", "/db/users/bob/topt-qrcode.png", "/db/users/bob/id_rsa"))
    as (reply & u' & _ & H & Hg & _); [vm_compute; reflexivity|]. exists reply, u'. split; [exact H|exact Hg].
Defined.

Lemma remote_del_spec_witness :
  exists reply, TcpClientUserDel wire 33355 (fun _ => Ok reply) (deleted_user "bob") = Ok tt.
Proof.
  pose proof (remote_del_spec demo_hash demo_totp demo_rsa demo_encode demo_encode wire unwire (fun _ => true) (fun _ => true) demo_cfg 33355
    "bob" demo_db_bob unwire_wire ltac:(lia)) as H.
  assert ((UserDb.DelUser demo_encode demo_encode (fun _ => true) (fun _ => true) demo_cfg "bob" demo_db_bob).2 = Ok tt) as Hr by (vm_compute; reflexivity).
  destruct (UserDb.DelUser _ _ _ _ _ "bob" demo_db_bob) as [h r]. cbn [snd] in Hr. subst r.
  destruct H as (reply & _ & H). exists reply. by apply H.
Defined.

(** The server knows al; the command adds bob on the same disk. *)
Definition lost_cfg : HostCfg := mkHostCfg "/db" true true true 4096.
Definition lost_server : HostDb := mkHostDb (mkPersist (Some {["al" := NewUser]}) "/key") {["/key" := "priv"]}.
Definition lost_disk : gmap string string := files (save code code (fun _ => true) lost_cfg lost_server).1.
Definition lost_add : outcome (gmap string string * exit * bool) :=
  AddUserAndExit string demo_hash demo_totp demo_rsa key_of code code uncode wire unwire (fun _ => true) (fun _ => None)
    (fun _ => true) "host" lost_cfg 33355 "bob" "" ["b@x" +:+ nl; "n" +:+ nl; "Bob" +:+ nl] [(false, 10); (false, 6000000000)]
    (fun _ => Err "refused") lost_disk.
Definition lost_files : gmap string string := match lost_add with Ok (fs, _, _) => fs | _ => ∅ end.

Lemma added_user_lost_witness :
  exists h, NewHostDb string demo_rsa key_of code code uncode (fun _ => true) (fun _ => None) (fun _ => true) "host" lost_cfg
    (files (save code code (fun _ => true) lost_cfg (with_files lost_files lost_server)).1) = Ok (h, "priv") /\
    Get2 (Users (Persist h)) "bob" = None.
Proof.
  destruct (added_user_lost demo_hash demo_totp demo_rsa key_of code code uncode wire unwire (fun _ => true) (fun _ => None)
    (fun _ => true) "host" lost_cfg 33355 uncode_code ltac:(discriminate) eq_refl "bob" "" ["b@x" +:+ nl; "n" +:+ nl; "Bob" +:+ nl]
    [(false, 10); (false, 6000000000)] (NewError ("-xport error: could not acquire our -xport before the deadline, for -xport " +:+ localhost_addr 33355))
    (fun _ => Err "refused") lost_disk lost_files false lost_server
    (save code code (fun _ => true) lost_cfg (with_files lost_files lost_server)).1 "priv" "priv")
    as (_ & _ & h & Hh & Hu); try (vm_compute; reflexivity); [vm_compute; discriminate|].
  exists h. split; [exact Hh|exact Hu].
Defined.
