(* ===== verification/Auth.v ===== *)
(** Logging in (server.go: [PerAttempt] and its callbacks; rsa.go:
    [LoadRSAPublicKey]; xendor/github.com/glycerine/xcryptossh/server.go: the
    key cache, [serverAuthenticate], [Challenge]). The requests of one
    connection are a list of packets; the state is the attempt's two flags and
    the user database. *)
From S2P Require Import Prelude.
From S2P Require Import GoStrings.
From S2P Require Import Wire.
From S2P Require Import UserDb.
Import AtomicUserMap.

(** ** Data *)

Record PerAttempt := mkAttempt { PublicKeyOK : bool; OneTimeOK : bool }.

(** The callbacks that [SetupAuthRequirements] leaves in the server's
    configuration; a password callback is never installed. *)
Record ServerConfig := mkServerConfig {
  HasPublicKeyCallback : bool;
  HasKeyboardInteractiveCallback : bool;
  MaxAuthTries : Z;
}.

Definition SetupAuthRequirements (cfg : HostCfg) : PerAttempt * ServerConfig :=
  let skipKI := SkipPassphrase cfg && SkipTOTP cfg in
  (mkAttempt (SkipRSA cfg) skipKI, mkServerConfig (negb (SkipRSA cfg)) (negb skipKI) 0).

(** [NewServerConn]: six tries unless configured otherwise. *)
Definition fullConf (config : ServerConfig) : ServerConfig :=
  if MaxAuthTries config =? 0
  then mkServerConfig (HasPublicKeyCallback config) (HasKeyboardInteractiveCallback config) 6
  else config.

(** What the client does with one request: the packet, and the packets with
    which it answers the challenges of keyboard-interactive ([None] when the
    read fails). [ev_now] is the server's clock. *)
Record event := mkEvent {
  ev_now : Z;
  ev_packet : string;
  ev_answer : option string;
  ev_ack : option string;
}.

Record userAuthRequest := mkRequest {
  req_User : string;
  req_Service : string;
  req_Method : string;
  req_Payload : string;
}.

Definition parse_request (packet : string) : outcome userAuthRequest :=
  let? vs := Unmarshal packet userAuthRequestMsg in
  match vs with
  | [VString u; VString s; VString m; VRest p] => Ok (mkRequest u s m p)
  | _ => Panic "unreachable"
  end.

(** ** The key cache *)

Definition cachedPubKey := (string * string * outcome unit)%type.
Definition maxCachedPubKeys : nat := 16.

Fixpoint cache_get (keys : list cachedPubKey) (user data : string) : option (outcome unit) :=
  match keys with
  | [] => None
  | (u, d, r) :: keys =>
      if (u =? user)%string && (d =? data)%string then Some r else cache_get keys user data
  end.

Definition cache_add (keys : list cachedPubKey) (candidate : cachedPubKey) : list cachedPubKey :=
  if (List.length keys <? maxCachedPubKeys)%nat then keys ++ [candidate] else keys.

(** ** The challenges of keyboard-interactive *)

Fixpoint parse_answers (n : nat) (packet : string) : outcome (list string) :=
  match n with
  | O => if (packet =? "")%string then Ok [] else Err "ssh: junk at end of message"
  | S n =>
      match parseString packet with
      | None => Err (parseError 61)
      | Some (ans, rest) => let? l := parse_answers n rest in Ok (ans :: l)
      end
  end.

Definition Challenge (questions : list string) (echos : list bool) (reply : option string)
  : outcome (list string) :=
  if negb (List.length questions =? List.length echos)%nat
  then Err "ssh: echos and questions must have equal length"
  else
    match reply with
    | None => Err "EOF"
    | Some "" => Panic "index out of range"
    | Some (String c packet) =>
        if negb (val c =? 61) then Err (unexpectedMessageError 61 (val c))
        else match parseUint32 packet with
             | None => Err (parseError 61)
             | Some (n, packet) =>
                 if negb (n =? Z.of_nat (List.length questions)) then Err (parseError 61)
                 else parse_answers (Z.to_nat n) packet
             end
    end.

Definition keyFail : string := "keyboard-interactive failed".
Definition passwordChallenge : string := "password: ".
Definition gauthChallenge : string := "google-authenticator-code: ".

(** The questions, whether the answers are echoed, and [totpIdx]. *)
Definition challenges (cfg : HostCfg) : list string * list bool * nat :=
  let pass := negb (SkipPassphrase cfg) in
  let totp := negb (SkipTOTP cfg) in
  ((if pass then [passwordChallenge] else []) ++ (if totp then [gauthChallenge] else []),
   (if pass then [false] else []) ++ (if totp then [true] else []),
   if pass then 1%nat else 0%nat).

Section Auth.
(** Code outside the repository: comparing a passphrase with its hash,
    reading a TOTP key from its URL, checking a code against the key at an
    instant. The public keys of the ssh library's keys.go: parsing the wire
    form and the authorized_keys form, marshalling, verifying a signature. *)
Context (compare_hash : string -> string -> bool)
        (key_from_url : string -> outcome unit)
        (totp_validate : string -> string -> Z -> bool).
Context (K : Type) (key_Marshal : K -> string)
        (ParsePublicKey ParseAuthorizedKey : string -> outcome K)
        (Verify : K -> string -> Signature -> outcome unit).
Context (encode_db encode_json : HostDbPersist -> string) (can_write : string -> bool).
Context (cfg : HostCfg).
(** The connection: the client's address and the session's id. *)
Context (remoteAddr sessionID : string).

Definition lockit_save (h : HostDb) : HostDb := (save encode_db encode_json can_write cfg h).1.

Definition with_user (mylogin : string) (f : User -> User) (h : HostDb) : HostDb :=
  with_users (update (Users (Persist h)) mylogin f) h.

(** user.go. *)
Definition MatchingHashAndPw (user : User) (password : string) : bool :=
  compare_hash (ScryptedPassword user) password.

Definition RestoreTotp (user : User) : outcome User :=
  match oneTime user with
  | None =>
      if (TOTPorig user =? "")%string then Ok user
      else let? _ := panicOn (key_from_url (TOTPorig user)) in
           Ok (set_oneTime (Some (TOTPorig user)) user)
  | Some _ => Ok user
  end.

(** [user.oneTime.IsValid]: a nil [TOTP] is dereferenced. *)
Definition IsValid (t : option string) (passcode : string) (now : Z) : outcome bool :=
  match t with
  | None => Panic "invalid memory address or nil pointer dereference"
  | Some url => Ok (totp_validate passcode url now)
  end.

Definition index {A} (l : list A) (i : nat) : outcome A :=
  match l !! i with Some x => Ok x | None => Panic "index out of range" end.

Definition NoteLogin (mylogin : string) (now : Z) (h : HostDb) : HostDb :=
  lockit_save (with_user mylogin
    (fun u => set_LastLoginAddr remoteAddr (set_LastLoginTime now u)) h).

(** The two checks of [KeyboardInteractiveCallback] on the answers: the
    user with its TOTP key restored, and whether both passed. *)
Definition check_answers (user : User) (ans : list string) (totpIdx : nat) (now : Z)
  : outcome (User * bool) :=
  let? ans0 := index ans 0 in
  let firstPassOK := SkipPassphrase cfg || MatchingHashAndPw user ans0 in
  let? user := RestoreTotp user in
  let? timeOK :=
    if SkipTOTP cfg then Ok true
    else let? code := index ans totpIdx in
         if (0 <? slen code) then IsValid (oneTime user) code now else Ok false in
  Ok (user, firstPassOK && timeOK).

Definition KeyboardInteractiveCallback (mylogin : string) (ev : event)
    (a : PerAttempt) (h : HostDb) : PerAttempt * HostDb * outcome unit :=
  if SkipPassphrase cfg && SkipTOTP cfg
  then (a, h, Panic "should not be in the KeyboardInteractiveCallback at all!")
  else
    let '(chal, echoAnswers, totpIdx) := challenges cfg in
    match Challenge chal echoAnswers (ev_answer ev) with
    | Panic s => (a, h, Panic s)
    | Blocked => (a, h, Blocked)
    | Err _ => (a, h, Err keyFail)
    | Ok ans =>
        match Get2 (Users (Persist h)) mylogin with
        | None => (a, h, Err keyFail)
        | Some user =>
            match check_answers user ans totpIdx (ev_now ev) with
            | Ok (user, ok) =>
                let h := with_user mylogin (fun _ => user) h in
                if ok then
                  let a := mkAttempt (PublicKeyOK a) true in
                  if negb (PublicKeyOK a) then (a, h, Err keyFail)
                  else
                    match Challenge [] [] (ev_ack ev) with
                    | Panic s => (a, h, Panic s)
                    | _ => (a, NoteLogin mylogin (ev_now ev) h, Ok tt)
                    end
                else (a, h, Err keyFail)
            | Err e => (a, h, Err e)
            | Panic s => (a, h, Panic s)
            | Blocked => (a, h, Blocked)
            end
        end
    end.

(** rsa.go. *)
Definition LoadRSAPublicKey (path : string) (h : HostDb) : outcome K :=
  match files h !! path with
  | None => Err ("open " +:+ path +:+ ": no such file or directory")
  | Some buf => ParseAuthorizedKey buf
  end.

Definition unknown (user : string) : string := "unknown public key for " +:+ dq +:+ user +:+ dq.

(** The record kept of a presented key. *)
Definition seen (now : Z) (r : LoginRecord) : LoginRecord :=
  mkLogin (if IsZero (FirstTm r) then now else FirstTm r) now (to_int64 (SeenCount r + 1))
    (AcceptedCount r) (PubFinger r).
Definition accepted (r : LoginRecord) : LoginRecord :=
  mkLogin (FirstTm r) (LastTm r) (SeenCount r) (to_int64 (AcceptedCount r + 1)) (PubFinger r).

Definition key_matches (user : User) (provided : K) (h : HostDb) : bool :=
  match LoadRSAPublicKey (PublicKeyPath user) h with
  | Ok onfile => (key_Marshal onfile =? key_Marshal provided)%string
  | _ => false
  end.

(** [PublicKeyCallback], its deferred function last. *)
Definition PublicKeyCallback (mylogin : string) (now : Z) (provided : K)
    (a : PerAttempt) (h : HostDb) : PerAttempt * HostDb * outcome unit :=
  match ValidLogin mylogin with
  | Ok _ =>
      match Get2 (Users (Persist h)) mylogin with
      | None => (a, h, Err (unknown mylogin))
      | Some user =>
          let str := key_Marshal provided in
          let loginRecord := default zero_login (SeenPubKey user !! str) in
          let updated := seen now loginRecord in
          let '(a, updated, rerr) :=
            if key_matches user provided h
            then (mkAttempt true (OneTimeOK a), accepted updated,
                  if OneTimeOK a then Ok tt else Err (unknown mylogin))
            else (a, updated, Err (unknown mylogin)) in
          let h := lockit_save (with_user mylogin
                     (fun u => set_SeenPubKey (<[str := updated]> (SeenPubKey u)) u) h) in
          (a, h, if PublicKeyOK a && OneTimeOK a then Ok tt else rerr)
      end
  | Err e => (a, h, Err e)
  | Panic s => (a, h, Panic s)
  | Blocked => (a, h, Blocked)
  end.

Definition AuthLogCallback (a : PerAttempt) (method : string) (err : option string) : PerAttempt :=
  match err with
  | None =>
      if (method =? "keyboard-interactive")%string then mkAttempt (PublicKeyOK a) true
      else if (method =? "publickey")%string then mkAttempt true (OneTimeOK a)
      else a
  | Some _ => a
  end.

(** ** serverAuthenticate *)

Definition isAcceptableAlgo (algo : string) : bool :=
  existsb (String.eqb algo)
    ["ssh-rsa"; "ssh-dss"; "ecdsa-sha2-nistp256"; "ecdsa-sha2-nistp384"; "ecdsa-sha2-nistp521";
     "ssh-ed25519"; "ssh-rsa-cert-v01@openssh.com"; "ssh-dss-cert-v01@openssh.com";
     "ecdsa-sha2-nistp256-cert-v01@openssh.com"; "ecdsa-sha2-nistp384-cert-v01@openssh.com";
     "ecdsa-sha2-nistp521-cert-v01@openssh.com"].

(** How the switch on the method ends: the function returns, the loop goes
    on without a verdict (an accepted query), or [authErr] has a value. *)
Inductive verdict :=
| Return (r : outcome string)
| Continue
| Judged (authErr : option string).

Definition judge (r : outcome unit) : verdict :=
  match r with
  | Ok _ => Judged None
  | Err e => Judged (Some e)
  | Panic s => Return (Panic s)
  | Blocked => Return Blocked
  end.

Definition bad_request : verdict := Return (Err (parseError 50)).

(** The part of the publickey case before the query and the signature part
    ways: whether it is a query, the algorithm, the key and what follows. *)
Definition parse_pubkey (payload : string) : verdict + (bool * string * string * K * string) :=
  match payload with
  | "" => inl bad_request
  | String q payload =>
      match parseString payload with
      | None => inl bad_request
      | Some (algo, payload) =>
          if negb (isAcceptableAlgo algo)
          then inl (Judged (Some ("ssh: algorithm " +:+ dq +:+ algo +:+ dq +:+ " not accepted")))
          else
            match parseString payload with
            | None => inl bad_request
            | Some (pubKeyData, payload) =>
                match ParsePublicKey pubKeyData with
                | Ok pubKey => inr (val q =? 0, algo, pubKeyData, pubKey, payload)
                | Err e => inl (Return (Err e))
                | Panic s => inl (Return (Panic s))
                | Blocked => inl (Return Blocked)
                end
            end
      end
  end.

(** The cached or fresh verdict on a key. *)
Definition candidate_of (req : userAuthRequest) (now : Z) (pubKeyData : string) (pubKey : K)
    (cache : list cachedPubKey) (a : PerAttempt) (h : HostDb)
  : list cachedPubKey * PerAttempt * HostDb * outcome unit :=
  match cache_get cache (req_User req) pubKeyData with
  | Some result => (cache, a, h, result)
  | None =>
      let '(a, h, result) := PublicKeyCallback (req_User req) now pubKey a h in
      (cache_add cache (req_User req, pubKeyData, result), a, h, result)
  end.

Definition publickey_case (req : userAuthRequest) (now : Z)
    (cache : list cachedPubKey) (a : PerAttempt) (h : HostDb)
  : list cachedPubKey * PerAttempt * HostDb * verdict :=
  match parse_pubkey (req_Payload req) with
  | inl v => (cache, a, h, v)
  | inr (isQuery, algo, pubKeyData, pubKey, payload) =>
      let '(cache, a, h, result) := candidate_of req now pubKeyData pubKey cache a h in
      (cache, a, h,
       if isQuery then
         if negb (payload =? "")%string then bad_request
         else match result with Ok _ => Continue | _ => judge result end
       else
         match parseSignature payload with
         | Some (sig, "") =>
             if negb (isAcceptableAlgo (Format sig)) then Judged (Some "no auth passed yet")
             else
               let signed := buildDataSignedForAuth sessionID (req_User req) (req_Service req)
                               (req_Method req) algo pubKeyData in
               match Verify pubKey signed sig with
               | Ok _ => judge result
               | Err e => Return (Err e)
               | Panic s => Return (Panic s)
               | Blocked => Return Blocked
               end
         | _ => bad_request
         end)
  end.

Definition method_case (config : ServerConfig) (ev : event) (req : userAuthRequest)
    (cache : list cachedPubKey) (a : PerAttempt) (h : HostDb)
  : list cachedPubKey * PerAttempt * HostDb * verdict :=
  let m := req_Method req in
  if (m =? "none")%string then (cache, a, h, Judged (Some "no auth passed yet"))
  else if (m =? "password")%string
  then (cache, a, h, Judged (Some "ssh: password auth not configured"))
  else if (m =? "keyboard-interactive")%string then
    if negb (HasKeyboardInteractiveCallback config)
    then (cache, a, h, Judged (Some "ssh: keyboard-interactive auth not configubred"))
    else let '(a, h, r) := KeyboardInteractiveCallback (req_User req) ev a h in
         (cache, a, h, judge r)
  else if (m =? "publickey")%string then
    if negb (HasPublicKeyCallback config)
    then (cache, a, h, Judged (Some "ssh: publickey auth not configured"))
    else publickey_case req (ev_now ev) cache a h
  else (cache, a, h, Judged (Some ("ssh: unknown method " +:+ dq +:+ m +:+ dq))).

Definition serviceSSH : string := "ssh-connection".
Definition too_many : string := "ssh: disconnect, reason 2: too many authentication failures".

(** [userAuthLoop]; the end of the list is the end of the connection. [Ok]
    carries the user that is logged in. *)
Fixpoint userAuthLoop (config : ServerConfig) (evs : list event) (authFailures : Z)
    (cache : list cachedPubKey) (authErrs : list string) (a : PerAttempt) (h : HostDb)
  : PerAttempt * HostDb * outcome string :=
  if (MaxAuthTries config <=? authFailures) && (0 <? MaxAuthTries config)
  then (a, h, Err too_many)
  else
    match evs with
    | [] => (a, h, Err ("[" +:+ join ", " authErrs +:+ "]"))
    | ev :: evs =>
        match parse_request (ev_packet ev) with
        | Ok req =>
            if negb (req_Service req =? serviceSSH)%string
            then (a, h, Err ("ssh: client attempted to negotiate for unknown service: " +:+
                             req_Service req))
            else
              let '(cache, a, h, v) := method_case config ev req cache a h in
              match v with
              | Return r => (a, h, r)
              | Continue => userAuthLoop config evs authFailures cache authErrs a h
              | Judged authErr =>
                  let authFailures :=
                    if (req_Method req =? "none")%string && (authFailures =? 0)
                    then authFailures - 1 else authFailures in
                  let a := AuthLogCallback a (req_Method req) authErr in
                  match authErr with
                  | None => (a, h, Ok (req_User req))
                  | Some e =>
                      if negb (HasPublicKeyCallback config || HasKeyboardInteractiveCallback config)
                      then (a, h, Err ("ssh: no authentication methods configured but " +:+
                                       "NoClientAuth is also false"))
                      else userAuthLoop config evs (authFailures + 1) cache (authErrs ++ [e]) a h
                  end
              end
        | Err e => (a, h, Err e)
        | Panic s => (a, h, Panic s)
        | Blocked => (a, h, Blocked)
        end
    end.

Definition serverAuthenticate (evs : list event) (h : HostDb) : PerAttempt * HostDb * outcome string :=
  let '(a, config) := SetupAuthRequirements cfg in
  userAuthLoop (fullConf config) evs 0 [] [] a h.

(** ** What the callbacks leave alone *)

(** Everything of a user but the keys seen, the last login and the parsed
    TOTP key. *)
Definition core (u : User) :=
  (MyEmail u, MyFullname u, MyLogin u, PublicKeyPath u, PrivKeyPath u, TOTPpath u, QrPath u,
   Issuer u, ScryptedPassword u, ClearPw u, TOTPorig u, FirstLoginTime u, IPwhitelist u,
   DisabledAcct u).

(** The TOTP key that [RestoreTotp] leaves in the user. *)
Definition totp_url (u : User) : option string :=
  match oneTime u with
  | Some url => Some url
  | None => if (TOTPorig u =? "")%string then None else Some (TOTPorig u)
  end.

Definition db_file (path : string) : Prop := path = msgpath cfg \/ path = msgpath cfg +:+ ".json".

Definition frame (h0 h : HostDb) : Prop :=
  (forall k, (fun u => (core u, totp_url u)) <$> Get2 (Users (Persist h)) k =
             (fun u => (core u, totp_url u)) <$> Get2 (Users (Persist h0)) k) /\
  (forall p, ~ db_file p -> files h !! p = files h0 !! p).

Lemma frame_refl h : frame h h.
Proof. done. Qed.

Lemma frame_trans h1 h2 h3 : frame h1 h2 -> frame h2 h3 -> frame h1 h3.
Proof.
  intros [H1 F1] [H2 F2]. split; intros x; [by rewrite H2|]. intros Hx. by rewrite F2, F1.
Qed.

Lemma frame_user h0 h k u :
  frame h0 h -> Get2 (Users (Persist h)) k = Some u ->
  exists u0, Get2 (Users (Persist h0)) k = Some u0 /\ core u = core u0 /\ totp_url u = totp_url u0.
Proof.
  intros [H _] Hu. specialize (H k). rewrite Hu in H. simpl in H.
  destruct (Get2 (Users (Persist h0)) k) as [u0|]; simpl in H; [|done].
  exists u0. injection H as H H'. split_and!; [done| |done]. unfold core. congruence.
Qed.

Lemma frame_save h : frame h (lockit_save h).
Proof.
  unfold lockit_save, frame. rewrite save_persist. split; [done|]. intros p Hp.
  unfold db_file in Hp. unfold save, SaveToDisk, write_file.
  destruct (can_write (msgpath cfg)), (can_write (msgpath cfg +:+ ".json")); simpl;
    rewrite ?lookup_insert_ne by naive_solver; done.
Qed.

Lemma frame_with_user h k f :
  (forall u, Get2 (Users (Persist h)) k = Some u -> core (f u) = core u /\ totp_url (f u) = totp_url u) ->
  frame h (with_user k f h).
Proof.
  intros H. split; [|done]. intros k'. simpl. rewrite Get2_update. case_decide as E; [|done].
  subst k'. destruct (Get2 (Users (Persist h)) k) as [u|]; [|done]. simpl.
  destruct (H u eq_refl) as [-> ->]. done.
Qed.

Lemma RestoreTotp_spec u u' :
  RestoreTotp u = Ok u' -> core u' = core u /\ totp_url u' = totp_url u /\ oneTime u' = totp_url u.
Proof.
  unfold RestoreTotp, totp_url. destruct (oneTime u) as [url|] eqn:E.
  - intros [= ->]. by rewrite E.
  - destruct (TOTPorig u =? "")%string eqn:E'.
    + intros [= ->]. by rewrite E, E'.
    + intros ([] & _ & H)%obind_ok. injection H as <-. by destruct u.
Qed.

(** ** The two factors *)

(** The answers to the challenge are those of the user: the passphrase and a
    valid code, as far as the configuration asks for them. *)
Definition answered (h : HostDb) (mylogin : string) (ev : event) : Prop :=
  exists user ans,
    Get2 (Users (Persist h)) mylogin = Some user /\
    Challenge (challenges cfg).1.1 (challenges cfg).1.2 (ev_answer ev) = Ok ans /\
    (SkipPassphrase cfg = false ->
     exists pw, ans !! 0%nat = Some pw /\ MatchingHashAndPw user pw = true) /\
    (SkipTOTP cfg = false ->
     exists code url, ans !! (challenges cfg).2 = Some code /\ totp_url user = Some url /\
                      totp_validate code url (ev_now ev) = true).

(** The key is the one in the user's public key file. *)
Definition presented (h : HostDb) (mylogin : string) (key : K) : Prop :=
  exists user, Get2 (Users (Persist h)) mylogin = Some user /\ key_matches user key h = true.

(** No public key file is a file of the database. *)
Definition paths_ok (h : HostDb) : Prop :=
  forall k u, Get2 (Users (Persist h)) k = Some u -> ~ db_file (PublicKeyPath u).

Lemma core_eq u u0 :
  core u = core u0 -> ScryptedPassword u = ScryptedPassword u0 /\ PublicKeyPath u = PublicKeyPath u0 /\
  MyLogin u = MyLogin u0 /\ ClearPw u = ClearPw u0.
Proof. unfold core. naive_solver. Qed.

Lemma answered_frame h0 h l ev : frame h0 h -> answered h l ev -> answered h0 l ev.
Proof.
  intros HF (u & ans & Hu & Hc & Hp & Ht).
  destruct (frame_user _ _ _ _ HF Hu) as (u0 & Hu0 & (HS & _)%core_eq & HT).
  exists u0, ans. unfold MatchingHashAndPw in *. rewrite <- HS, <- HT. naive_solver.
Qed.

Lemma presented_frame h0 h l key :
  paths_ok h0 -> frame h0 h -> presented h l key -> presented h0 l key.
Proof.
  intros HP HF (u & Hu & Hk).
  destruct (frame_user _ _ _ _ HF Hu) as (u0 & Hu0 & (_ & HK & _)%core_eq & _).
  exists u0. split; [done|]. unfold key_matches, LoadRSAPublicKey in *.
  rewrite HK, (proj2 HF) in Hk by (by eapply HP). done.
Qed.

(** The answer to one challenge. *)
Lemma check_answers_spec user ans i now user' ok :
  check_answers user ans i now = Ok (user', ok) ->
  core user' = core user /\ totp_url user' = totp_url user /\
  (ok = true ->
   (SkipPassphrase cfg = false -> exists pw, ans !! 0%nat = Some pw /\ MatchingHashAndPw user pw = true) /\
   (SkipTOTP cfg = false ->
    exists code url, ans !! i = Some code /\ totp_url user = Some url /\
                     totp_validate code url now = true)).
Proof.
  unfold check_answers, index. intros (a0 & H0 & H)%obind_ok.
  apply obind_ok in H as (u1 & (HC & HT & HO)%RestoreTotp_spec & H).
  apply obind_ok in H as (t & Ht & H). injection H as <- <-.
  destruct (ans !! 0%nat) as [pw|] eqn:E0; [|done]. injection H0 as <-.
  split_and!; [done..|]. intros [H1 H2]%andb_true_iff. split.
  - intros Hs. rewrite Hs in H1. eauto.
  - intros Hs. rewrite Hs in Ht. apply obind_ok in Ht as (code & Hi & Ht).
    destruct (ans !! i); [|done]. injection Hi as ->.
    destruct (0 <? slen code); [|naive_solver]. unfold IsValid in Ht. rewrite HO in Ht.
    destruct (totp_url user) as [url|]; [|done]. injection Ht as Ht. exists code, url. naive_solver.
Qed.

Definition both (a : PerAttempt) : Prop := PublicKeyOK a = true /\ OneTimeOK a = true.

(** A callback that fails and leaves the attempt alone. *)
Lemma KI_fails l ev a h h' r :
  frame h h' -> r <> Ok tt ->
  frame h h' /\ PublicKeyOK a = PublicKeyOK a /\
  (OneTimeOK a = true -> OneTimeOK a = true) /\
  (OneTimeOK a = true -> OneTimeOK a = true \/ answered h l ev) /\
  (r = Ok tt -> both a).
Proof. tauto. Qed.

Lemma KI_spec l ev a h a' h' r :
  KeyboardInteractiveCallback l ev a h = (a', h', r) ->
  frame h h' /\ PublicKeyOK a' = PublicKeyOK a /\
  (OneTimeOK a = true -> OneTimeOK a' = true) /\
  (OneTimeOK a' = true -> OneTimeOK a = true \/ answered h l ev) /\
  (r = Ok tt -> both a').
Proof.
  unfold KeyboardInteractiveCallback. pose proof (frame_refl h) as HR.
  destruct (SkipPassphrase cfg && SkipTOTP cfg); [intros [= <- <- <-]; by apply KI_fails|].
  destruct (challenges cfg) as [[chal echo] i] eqn:EC.
  destruct (Challenge chal echo (ev_answer ev)) as [ans|e|s|] eqn:EA;
    [|intros [= <- <- <-]; by apply KI_fails..].
  destruct (Get2 (Users (Persist h)) l) as [user|] eqn:EU; [|intros [= <- <- <-]; by apply KI_fails].
  destruct (check_answers user ans i (ev_now ev)) as [[user' ok]|e|s|] eqn:EK;
    [|intros [= <- <- <-]; by apply KI_fails..].
  apply check_answers_spec in EK as (HC & HT & Hok).
  set (h1 := with_user l (fun _ => user') h).
  assert (frame h h1) as HF.
  { apply frame_with_user. intros u Hu. rewrite EU in Hu. injection Hu as <-. done. }
  destruct ok; [|intros [= <- <- <-]; by apply KI_fails].
  assert (answered h l ev) as HA.
  { exists user, ans. rewrite EC. simpl. specialize (Hok eq_refl). tauto. }
  assert (frame h (NoteLogin l (ev_now ev) h1)) as HF2.
  { eapply frame_trans; [exact HF|]. eapply frame_trans; [|apply frame_save].
    apply frame_with_user. intros u _. by destruct u. }
  simpl. destruct (PublicKeyOK a) eqn:EP; simpl.
  - destruct (Challenge [] [] (ev_ack ev)); intros [= <- <- <-]; unfold both; simpl; tauto.
  - intros [= <- <- <-]. simpl. split_and!; [done|done|tauto|tauto|discriminate].
Qed.

Lemma PK_spec l now key a h a' h' r :
  PublicKeyCallback l now key a h = (a', h', r) ->
  frame h h' /\ OneTimeOK a' = OneTimeOK a /\
  (PublicKeyOK a = true -> PublicKeyOK a' = true) /\
  (PublicKeyOK a' = true -> PublicKeyOK a = true \/ presented h l key) /\
  (r = Ok tt -> both a').
Proof.
  unfold PublicKeyCallback, ValidLogin. pose proof (frame_refl h) as HR.
  destruct (loginRE l); [|intros [= <- <- <-]; split_and!; tauto || discriminate].
  destruct (Get2 (Users (Persist h)) l) as [user|] eqn:EU;
    [|intros [= <- <- <-]; split_and!; tauto || discriminate].
  assert (forall m, frame h (lockit_save (with_user l (fun u => set_SeenPubKey (m u) u) h))) as HF.
  { intros m. eapply frame_trans; [|apply frame_save]. apply frame_with_user. intros u _. by destruct u. }
  assert (key_matches user key h = true -> presented h l key) as HP by (intros; by exists user).
  destruct (key_matches user key h), a as [p o]; simpl;
    intros [= <- <- <-]; simpl; (split; [apply HF|]); unfold both; simpl;
    destruct p, o; simpl; tauto || (split_and!; tauto || discriminate).
Qed.

(** ** The loop *)

(** The request presents the key of the user that it names. *)
Definition presents (h : HostDb) (ev : event) : Prop :=
  exists req q algo data key rest,
    parse_request (ev_packet ev) = Ok req /\ req_Method req = "publickey" /\
    parse_pubkey (req_Payload req) = inr (q, algo, data, key, rest) /\
    presented h (req_User req) key.

(** The request answers the challenge as the user that it names. *)
Definition answers (h : HostDb) (ev : event) : Prop :=
  exists req, parse_request (ev_packet ev) = Ok req /\ req_Method req = "keyboard-interactive" /\
              answered h (req_User req) ev.

Definition cache_ok (cache : list cachedPubKey) (a : PerAttempt) : Prop :=
  forall e, e ∈ cache -> e.2 = Ok tt -> both a.

Lemma cache_get_in cache u d r : cache_get cache u d = Some r -> exists e, e ∈ cache /\ e.2 = r.
Proof.
  induction cache as [|[[u' d'] r'] cache IH]; simpl; [done|].
  destruct (_ && _).
  - intros [= <-]. eexists. split; [apply list_elem_of_here|done].
  - intros (e & He & <-)%IH. exists e. split; [by apply list_elem_of_further|done].
Qed.

(** What one request may do. *)
Definition step_ok (cache : list cachedPubKey) (a : PerAttempt) (h : HostDb) (ev : event)
    (cache' : list cachedPubKey) (a' : PerAttempt) (h' : HostDb) (v : verdict) : Prop :=
  frame h h' /\ cache_ok cache' a' /\
  (PublicKeyOK a' = true -> PublicKeyOK a = true \/ presents h ev) /\
  (OneTimeOK a' = true -> OneTimeOK a = true \/ answers h ev) /\
  (v = Judged None -> both a') /\ (forall u, v <> Return (Ok u)).

Lemma step_ok_same cache a h ev v :
  cache_ok cache a -> v <> Judged None -> (forall u, v <> Return (Ok u)) ->
  step_ok cache a h ev cache a h v.
Proof. intros H1 H2 H3. split_and!; tauto || done. Qed.

Lemma candidate_spec req now data key cache a h cache' a' h' r :
  candidate_of req now data key cache a h = (cache', a', h', r) -> cache_ok cache a ->
  frame h h' /\ cache_ok cache' a' /\ OneTimeOK a' = OneTimeOK a /\
  (PublicKeyOK a' = true -> PublicKeyOK a = true \/ presented h (req_User req) key) /\
  (r = Ok tt -> both a').
Proof.
  unfold candidate_of. destruct (cache_get cache (req_User req) data) as [r0|] eqn:EG.
  - intros [= <- <- <- <-] HC. split_and!; try done; [tauto|].
    intros ->. apply cache_get_in in EG as (e & He & Hr). by apply (HC e).
  - destruct (PublicKeyCallback (req_User req) now key a h) as [[a1 h1] r1] eqn:EP.
    intros [= <- <- <- <-] HC. apply PK_spec in EP as (HF & HO & HM & HP & HR).
    split_and!; try done. intros e He Hr. unfold cache_add in He.
    assert (e ∈ cache \/ e.2 = r1) as [Hin|Heq].
    { destruct (_ <? _)%nat; [|by left]. apply elem_of_app in He as [?|?%list_elem_of_singleton]; [by left|].
      right. by subst. }
    + destruct (HC e Hin Hr) as [H1 H2]. split; [by apply HM|by rewrite HO].
    + apply HR. by rewrite <- Heq.
Qed.

Lemma judge_none r : judge r = Judged None -> r = Ok tt.
Proof. destruct r as [[]|e|s|]; done. Qed.
Lemma judge_return r u : judge r <> Return (Ok u).
Proof. by destruct r as [[]|e|s|]. Qed.

Lemma parse_pubkey_verdict payload v :
  parse_pubkey payload = inl v -> v <> Judged None /\ forall u, v <> Return (Ok u).
Proof.
  unfold parse_pubkey, bad_request. destruct payload as [|q p]; [intros [= <-]; done|].
  destruct (parseString p) as [[algo p1]|]; [|intros [= <-]; done].
  destruct (negb (isAcceptableAlgo algo)); [intros [= <-]; done|].
  destruct (parseString p1) as [[d p2]|]; [|intros [= <-]; done].
  destruct (ParsePublicKey d); [done|intros [= <-]; done..].
Qed.

Lemma publickey_case_spec req ev cache a h cache' a' h' v :
  parse_request (ev_packet ev) = Ok req -> req_Method req = "publickey" ->
  publickey_case req (ev_now ev) cache a h = (cache', a', h', v) -> cache_ok cache a ->
  step_ok cache a h ev cache' a' h' v.
Proof.
  intros HQ HM. unfold publickey_case.
  destruct (parse_pubkey (req_Payload req)) as [v0|[[[[q algo] data] key] rest]] eqn:EP.
  { intros [= <- <- <- <-] HC. apply parse_pubkey_verdict in EP as [? ?]. by apply step_ok_same. }
  destruct (candidate_of req (ev_now ev) data key cache a h) as [[[c1 a1] h1] r1] eqn:EC.
  intros [= <- <- <- <-] HC. apply candidate_spec in EC as (HF & HC1 & HO & HP & HR); [|done].
  split_and!; [done|done| |rewrite HO; tauto| |].
  - intros [?|Hpres]%HP; [by left|right]. by exists req, q, algo, data, key, rest.
  - intros Hv. apply HR. revert Hv. unfold bad_request.
    destruct q; [destruct (negb _); [done|]; by destruct r1 as [[]|e|s|]|].
    destruct (parseSignature rest) as [[sig [|? ?]]|]; try done.
    destruct (negb _); [done|]. destruct (Verify _ _ _); try done. apply judge_none.
  - intros u. unfold bad_request.
    destruct q; [destruct (negb _); [done|]; by destruct r1 as [[]|e|s|]|].
    destruct (parseSignature rest) as [[sig [|? ?]]|]; try done.
    destruct (negb _); [done|]. destruct (Verify _ _ _); try done. apply judge_return.
Qed.

Lemma method_case_spec config ev req cache a h cache' a' h' v :
  parse_request (ev_packet ev) = Ok req ->
  method_case config ev req cache a h = (cache', a', h', v) -> cache_ok cache a ->
  step_ok cache a h ev cache' a' h' v.
Proof.
  intros HQ. unfold method_case.
  destruct (_ =? "none")%string; [intros [= <- <- <- <-] HC; by apply step_ok_same|].
  destruct (_ =? "password")%string; [intros [= <- <- <- <-] HC; by apply step_ok_same|].
  destruct (_ =? "keyboard-interactive")%string eqn:EK.
  { destruct (negb _); [intros [= <- <- <- <-] HC; by apply step_ok_same|].
    destruct (KeyboardInteractiveCallback _ _ _ _) as [[a1 h1] r1] eqn:E.
    intros [= <- <- <- <-] HC. apply KI_spec in E as (HF & HP & HM & HO & HR).
    split_and!; [done| |rewrite HP; tauto| | |intros u; apply judge_return].
    - intros e He Hr. destruct (HC e He Hr). split; [by rewrite HP|by apply HM].
    - intros [?|?]%HO; [by left|right]. apply String.eqb_eq in EK. by exists req.
    - intros Hv%judge_none. by apply HR. }
  destruct (_ =? "publickey")%string eqn:EP; [|intros [= <- <- <- <-] HC; by apply step_ok_same].
  destruct (negb _); [intros [= <- <- <- <-] HC; by apply step_ok_same|].
  apply String.eqb_eq in EP. by apply publickey_case_spec.
Qed.

Lemma presents_frame h0 h ev : paths_ok h0 -> frame h0 h -> presents h ev -> presents h0 ev.
Proof.
  intros HP HF (req & q & algo & d & key & rest & H1 & H2 & H3 & H4).
  exists req, q, algo, d, key, rest. split_and!; try done. by eapply presented_frame.
Qed.

Lemma answers_frame h0 h ev : frame h0 h -> answers h ev -> answers h0 ev.
Proof.
  intros HF (req & H1 & H2 & H3). exists req. split_and!; try done. by eapply answered_frame.
Qed.

Lemma paths_ok_frame h0 h : paths_ok h0 -> frame h0 h -> paths_ok h.
Proof.
  intros HP HF k u Hu. destruct (frame_user _ _ _ _ HF Hu) as (u0 & Hu0 & (_ & -> & _)%core_eq & _).
  by eapply HP.
Qed.

Definition pk_or (h : HostDb) (a : PerAttempt) (evs : list event) : Prop :=
  PublicKeyOK a = true \/ Exists (presents h) evs.
Definition ki_or (h : HostDb) (a : PerAttempt) (evs : list event) : Prop :=
  OneTimeOK a = true \/ Exists (answers h) evs.

(** A login found after one more request was found from before it. *)
Lemma step_factors cache a h ev cache' a' h' v evs :
  step_ok cache a h ev cache' a' h' v -> paths_ok h ->
  (pk_or h' a' evs -> pk_or h a (ev :: evs)) /\ (ki_or h' a' evs -> ki_or h a (ev :: evs)).
Proof.
  intros (HF & _ & HP & HO & _) HPO. unfold pk_or, ki_or. split; intros [H|H].
  - destruct (HP H); [by left|right; by left].
  - right. right. eapply Exists_impl; [exact H|]. intros e. by apply presents_frame.
  - destruct (HO H); [by left|right; by left].
  - right. right. eapply Exists_impl; [exact H|]. intros e. by apply answers_frame.
Qed.

Lemma loop_sound config evs n cache errs a h a' h' r :
  userAuthLoop config evs n cache errs a h = (a', h', r) -> cache_ok cache a ->
  frame h h' /\ (forall u, r = Ok u -> paths_ok h -> pk_or h a evs /\ ki_or h a evs).
Proof.
  revert n cache errs a h. induction evs as [|ev evs IH]; intros n cache errs a h; simpl.
  { destruct (_ && _); intros [= <- <- <-] _; done. }
  destruct (_ && _); [by intros [= <- <- <-] _|].
  destruct (parse_request (ev_packet ev)) as [req|e|s|] eqn:EQ; [|by intros [= <- <- <-] _..].
  destruct (negb (_ =? serviceSSH)%string); [by intros [= <- <- <-] _|].
  destruct (method_case config ev req cache a h) as [[[c1 a1] h1] v] eqn:EM.
  intros H HC. apply method_case_spec in EM as HS; [|done..].
  pose proof HS as (HF & HC1 & _ & _ & HV & HR).
  assert (forall n' errs' , userAuthLoop config evs n' c1 errs' a1 h1 = (a', h', r) ->
    frame h h' /\ (forall u, r = Ok u -> paths_ok h -> pk_or h a (ev :: evs) /\ ki_or h a (ev :: evs))) as HL.
  { intros n' errs' H1. apply IH in H1 as [HF1 HI]; [|done]. split; [by eapply frame_trans|].
    intros u Hu HPO. destruct (HI u Hu (paths_ok_frame _ _ HPO HF)) as [HI1 HI2].
    destruct (step_factors _ _ _ _ _ _ _ _ evs HS HPO) as [HS1 HS2]. by split; [apply HS1|apply HS2]. }
  destruct v as [r0| |[e|]].
  - injection H as <- <- <-. split; [done|]. intros u ->. by destruct (HR u).
  - by eapply HL.
  - cbn [AuthLogCallback] in H. destruct (negb _) in H; [by injection H as <- <- <-|]. by eapply HL.
  - injection H as <- <- <-. split; [done|]. intros u _ HPO.
    destruct (HV eq_refl) as [H1 H2].
    destruct (step_factors _ _ _ _ _ _ _ _ evs HS HPO) as [HS1 HS2].
    split; [by apply HS1; left|by apply HS2; left].
Qed.

(** C1: A login needs both factors, as far as the configuration asks for them:
    a request of the connection presented the public key on file of the user
    it named, and a request answered the challenges as the user it named. *)
Theorem login_needs_both_factors evs h a h' u :
  serverAuthenticate evs h = (a, h', Ok u) -> paths_ok h ->
  (SkipRSA cfg = false -> Exists (presents h) evs) /\
  (SkipPassphrase cfg && SkipTOTP cfg = false -> Exists (answers h) evs).
Proof.
  unfold serverAuthenticate, SetupAuthRequirements. intros H HPO.
  apply loop_sound in H as [_ H]; [|intros e He; by apply elem_of_nil in He].
  destruct (H u eq_refl HPO) as [[H1|H1] [H2|H2]]; simpl in *; split; intros; congruence || done.
Qed.

(** C8: Whatever a client sends before it is logged in, the users of the
    database stay the same but for the keys seen and the last login, no other
    file changes, and the database's invariant is kept. *)
Theorem auth_changes_no_user evs h a h' r :
  serverAuthenticate evs h = (a, h', r) -> frame h h' /\ (wf_db h -> wf_db h').
Proof.
  unfold serverAuthenticate, SetupAuthRequirements. intros H.
  apply loop_sound in H as [HF _]; [|intros e He; by apply elem_of_nil in He].
  split; [done|]. intros Hwf k u Hu.
  destruct (frame_user _ _ _ _ HF Hu) as (u0 & Hu0 & (_ & _ & -> & ->)%core_eq & _). by apply Hwf.
Qed.

(** Presenting a key counts once for that key of that user, as accepted
    exactly when it is the key on file, records its first and last sight, and
    touches no other key and no other user. *)
Theorem public_key_counted l now key a h user :
  loginRE l = true -> Get2 (Users (Persist h)) l = Some user ->
  let h' := (PublicKeyCallback l now key a h).1.2 in
  let old := default zero_login (SeenPubKey user !! key_Marshal key) in
  (exists user', Get2 (Users (Persist h')) l = Some user' /\
     SeenPubKey user' = <[key_Marshal key :=
       mkLogin (if IsZero (FirstTm old) then now else FirstTm old) now (to_int64 (SeenCount old + 1))
         (if key_matches user key h then to_int64 (AcceptedCount old + 1) else AcceptedCount old)
         (PubFinger old)]> (SeenPubKey user)) /\
  forall k, k <> l -> Get2 (Users (Persist h')) k = Get2 (Users (Persist h)) k.
Proof.
  intros HL HU. cbv zeta. unfold PublicKeyCallback, ValidLogin. rewrite HL, HU.
  destruct (key_matches user key h); simpl; unfold lockit_save; rewrite save_persist; simpl;
    (split; [|intros k Hk; rewrite Get2_update; by rewrite decide_False]);
    rewrite Get2_update, decide_True, HU by done; eexists; (split; [reflexivity|]); by destruct user.
Qed.

(** ** The number of attempts *)

(** A request that is counted when it fails: not "none", and not the query
    whether a key would do. *)
Definition counted (ev : event) : Prop :=
  forall req, parse_request (ev_packet ev) = Ok req ->
    req_Method req <> "none" /\
    (req_Method req = "publickey" -> forall c p, req_Payload req = String c p -> val c <> 0).

Lemma parse_pubkey_query payload q algo d key rest :
  parse_pubkey payload = inr (q, algo, d, key, rest) ->
  exists c p, payload = String c p /\ q = (val c =? 0).
Proof.
  unfold parse_pubkey. destruct payload as [|c p]; [done|].
  destruct (parseString p) as [[algo' p1]|]; [|done].
  destruct (negb (isAcceptableAlgo algo')); [done|].
  destruct (parseString p1) as [[d' p2]|]; [|done].
  destruct (ParsePublicKey d'); try done. intros [= <- <- <- <- <-]. eauto.
Qed.

Lemma judge_continue r : judge r <> Continue.
Proof. by destruct r. Qed.

Lemma counted_not_continue config ev req cache a h cache' a' h' v :
  counted ev -> parse_request (ev_packet ev) = Ok req ->
  method_case config ev req cache a h = (cache', a', h', v) -> v <> Continue.
Proof.
  intros HC HQ. destruct (HC req HQ) as [_ Hq]. unfold method_case.
  destruct (_ =? "none")%string; [by intros [= <- <- <- <-]|].
  destruct (_ =? "password")%string; [by intros [= <- <- <- <-]|].
  destruct (_ =? "keyboard-interactive")%string.
  { destruct (negb _); [by intros [= <- <- <- <-]|].
    destruct (KeyboardInteractiveCallback _ _ _ _) as [[a1 h1] r1].
    intros [= <- <- <- <-]. apply judge_continue. }
  destruct (_ =? "publickey")%string eqn:EP; [|by intros [= <- <- <- <-]].
  destruct (negb _); [by intros [= <- <- <- <-]|]. apply String.eqb_eq in EP.
  unfold publickey_case.
  destruct (parse_pubkey (req_Payload req)) as [v0|[[[[q algo] data] key] rest]] eqn:EY.
  { intros [= <- <- <- <-]. clear Hq. revert EY. unfold parse_pubkey, bad_request.
    repeat (case_match; try (intros [= <-]; done)). }
  apply parse_pubkey_query in EY as (c & p & Hp & ->).
  destruct (candidate_of _ _ _ _ _ _ _) as [[[c1 a1] h1] r1]. intros [= <- <- <- <-].
  destruct (Z.eqb_spec (val c) 0) as [Hz|_]; [by destruct (Hq EP c p Hp)|].
  unfold bad_request. destruct (parseSignature rest) as [[sig [|? ?]]|]; try done.
  destruct (negb _); [done|]. destruct (Verify _ _ _); try done. apply judge_continue.
Qed.

Lemma loop_bounded config evs more n cache errs a h :
  0 < MaxAuthTries config -> Forall counted evs ->
  MaxAuthTries config <= n + Z.of_nat (List.length evs) ->
  userAuthLoop config (evs ++ more) n cache errs a h = userAuthLoop config evs n cache errs a h.
Proof.
  intros HM HC. revert n cache errs a h. induction HC as [|ev evs Hev HC IH]; intros n cache errs a h Hn.
  - assert ((MaxAuthTries config <=? n) && (0 <? MaxAuthTries config) = true) as Hmax.
    { apply andb_true_iff. split; [apply Z.leb_le; simpl in Hn; lia|by apply Z.ltb_lt]. }
    by destruct more; simpl; rewrite Hmax.
  - simpl List.length in Hn. simpl. destruct (_ && _); [done|].
    destruct (parse_request (ev_packet ev)) as [req|e|s|] eqn:EQ; try done.
    destruct (negb _); [done|].
    destruct (method_case config ev req cache a h) as [[[c1 a1] h1] v] eqn:EM.
    apply counted_not_continue in EM; [|done..].
    destruct v as [r0| |[e|]]; try done. destruct (negb _); [done|].
    destruct (String.eqb_spec (req_Method req) "none") as [Hnone|_]; [by destruct (Hev req EQ)|].
    simpl. apply IH. lia.
Qed.

(** Six counted requests end the conversation: nothing that the client
    sends after them is looked at. *)
Theorem auth_attempts_bounded evs more h :
  Forall counted evs -> 6 <= Z.of_nat (List.length evs) ->
  serverAuthenticate (evs ++ more) h = serverAuthenticate evs h.
Proof. intros HC Hn. unfold serverAuthenticate. simpl. by apply loop_bounded. Qed.

Definition is_none (ev : event) : Prop :=
  exists req, parse_request (ev_packet ev) = Ok req /\ req_Service req = serviceSSH /\
              req_Method req = "none".

(** A comment allows the initial "none" request without penalty; in fact
    every one that comes before the first failure is free, so that a client
    can send them without end. *)
Theorem none_requests_are_free nones evs h :
  Forall is_none nones -> SkipRSA cfg && (SkipPassphrase cfg && SkipTOTP cfg) = false ->
  exists authErrs,
    serverAuthenticate (nones ++ evs) h =
    let '(a, config) := SetupAuthRequirements cfg in
    userAuthLoop (fullConf config) evs 0 [] authErrs a h.
Proof.
  unfold serverAuthenticate. intros HN HS. destruct (SetupAuthRequirements cfg) as [a config] eqn:E.
  assert (MaxAuthTries (fullConf config) = 6) as HM by (by injection E as _ <-).
  assert (HasPublicKeyCallback (fullConf config) || HasKeyboardInteractiveCallback (fullConf config)
          = true) as HH.
  { injection E as _ <-. simpl. rewrite <- negb_andb. by rewrite HS. }
  clear E HS. generalize (@nil string) as errs.
  induction HN as [|ev nones (req & HQ & HSv & HMt) HN IH]; intros errs; [by exists errs|].
  simpl. rewrite HM. simpl. rewrite HQ, HSv. simpl. unfold method_case. rewrite HMt. simpl.
  rewrite HH. simpl. apply IH.
Qed.
End Auth.

(** ** Concrete instances *)

Definition demo_rsa_of (bits : Z) (email : string) : outcome (string * string) :=
  Ok ("priv:" +:+ email, "pub:" +:+ email).
Definition demo_add_to (login email pw : string) (h : HostDb) : HostDb :=
  match AddUser demo_hash demo_totp demo_rsa_of demo_encode demo_encode (fun _ => true) demo_cfg
          login email pw "gosshtun" login "" h with
  | Ok (h, _) => h
  | _ => h
  end.

(** Two users, each with a key of their own. *)
Definition demo_users : HostDb :=
  demo_add_to "alice" "alice@a" "tea" (demo_add_to "bob" "bob@b" "beer" demo_db).

Definition demo_check (hash pw : string) : bool := (hash =? demo_hash pw)%string.
Definition demo_validate (code url : string) (now : Z) : bool := (code =? "123456")%string.
Definition demo_authenticate (cfg : HostCfg) (Verify : string -> string -> Signature -> outcome unit)
    (evs : list event) (h : HostDb) : PerAttempt * HostDb * outcome string :=
  serverAuthenticate demo_check (fun _ => Ok tt) demo_validate string (fun k => k) Ok Ok Verify
    demo_encode demo_encode (fun _ => true) cfg "10.0.0.1:9999" "session" evs h.

Definition demo_packet (user method payload : string) : string :=
  Marshal userAuthRequestMsg [VString user; VString serviceSSH; VString method; VRest payload].
Definition demo_query (user key : string) : event :=
  mkEvent 1000 (demo_packet user "publickey"
    (String (byte 0) (appendString (appendString "" "ssh-rsa") key))) None None.
Definition demo_ki (user pw code : string) : event :=
  mkEvent 2000 (demo_packet user "keyboard-interactive" "")
    (Some (String (byte 61) (appendString (appendString (appendU32 "" 2) pw) code)))
    (Some (String (byte 61) (appendU32 "" 0))).

(** No private key is ever needed: the query whether bob's public key would
    do, which carries no signature, counts as the first factor, and the
    passphrase and code then log the client in, whatever [Verify] says. *)
Theorem login_without_signature Verify :
  (demo_authenticate demo_cfg Verify [demo_query "bob" "pub:bob@b"; demo_ki "bob" "beer" "123456"]
     demo_users).2 = Ok "bob".
Proof. vm_compute. reflexivity. Qed.

(** The two factors may be those of different users: alice's public key and
    bob's passphrase and code log in as bob, whose key was never presented. *)
Theorem login_with_factors_of_two_users Verify :
  (demo_authenticate demo_cfg Verify [demo_query "alice" "pub:alice@a"; demo_ki "bob" "beer" "123456"]
     demo_users).2 = Ok "bob".
Proof. vm_compute. reflexivity. Qed.

Lemma demo_paths : paths_ok demo_cfg demo_users.
Proof.
  assert (bool_decide (map_Forall (fun _ u => PublicKeyPath u <> msgpath demo_cfg /\
            PublicKeyPath u <> msgpath demo_cfg +:+ ".json")
            (default ∅ (Users (Persist demo_users)))) = true) as H by (vm_compute; reflexivity).
  apply bool_decide_eq_true in H.
  intros k u Hu. destruct (Users (Persist demo_users)) as [m|]; [|done].
  destruct (H k u Hu). unfold db_file. tauto.
Qed.

Definition demo_bad (k signed : string) (sig : Signature) : outcome unit := Err "bad signature".
Definition demo_evs : list event := [demo_query "bob" "pub:bob@b"; demo_ki "bob" "beer" "123456"].
Definition demo_login : PerAttempt * HostDb * outcome string :=
  demo_authenticate demo_cfg demo_bad demo_evs demo_users.

Lemma demo_login_eq : demo_login = (demo_login.1.1, demo_login.1.2, Ok "bob").
Proof. vm_compute. reflexivity. Qed.

Lemma login_needs_both_factors_witness :
  Exists (answers demo_check demo_validate demo_cfg demo_users) demo_evs.
Proof.
  eapply (proj2 (login_needs_both_factors demo_check (fun _ => Ok tt) demo_validate string (fun k => k)
    Ok Ok demo_bad demo_encode demo_encode (fun _ => true) demo_cfg "10.0.0.1:9999" "session" demo_evs
    demo_users _ _ "bob" demo_login_eq demo_paths)). reflexivity.
Defined.

Lemma auth_changes_no_user_witness : frame demo_cfg demo_users demo_login.1.2.
Proof.
  exact (proj1 (auth_changes_no_user demo_check (fun _ => Ok tt) demo_validate string (fun k => k)
    Ok Ok demo_bad demo_encode demo_encode (fun _ => true) demo_cfg "10.0.0.1:9999" "session" demo_evs
    demo_users _ _ _ demo_login_eq)).
Defined.

Lemma public_key_counted_witness :
  Get2 (Users (Persist (PublicKeyCallback string (fun k => k) Ok demo_encode demo_encode (fun _ => true)
    demo_cfg "bob" 5 "pub:bob@b" (mkAttempt false false) demo_users).1.2)) "alice" =
  Get2 (Users (Persist demo_users)) "alice".
Proof.
  destruct (Get2 (Users (Persist demo_users)) "bob") as [u|] eqn:E; [|vm_compute in E; discriminate].
  apply (proj2 (public_key_counted string (fun k => k) Ok demo_encode demo_encode (fun _ => true) demo_cfg
    "bob" 5 "pub:bob@b" (mkAttempt false false) demo_users u eq_refl E)). discriminate.
Defined.

(** A wrong passphrase, six times; then the right one. *)
Definition demo_wrong : list event := repeat (demo_ki "bob" "ale" "123456") 6.

Lemma demo_wrong_counted : Forall counted demo_wrong.
Proof.
  assert (counted (demo_ki "bob" "ale" "123456")) as H.
  { intros req H. vm_compute in H. injection H as <-. split; discriminate. }
  unfold demo_wrong. cbn [repeat]. by repeat (apply Forall_cons; split; [exact H|]).
Qed.

Lemma auth_attempts_bounded_witness :
  (demo_authenticate demo_cfg demo_bad (demo_wrong ++ demo_evs) demo_users).2 = Err too_many.
Proof.
  unfold demo_authenticate. rewrite auth_attempts_bounded; [|exact demo_wrong_counted|vm_compute; congruence].
  vm_compute. reflexivity.
Defined.

Definition demo_none : event := mkEvent 0 (demo_packet "bob" "none" "") None None.

Lemma none_requests_are_free_witness :
  exists authErrs, demo_authenticate demo_cfg demo_bad (repeat demo_none 20 ++ demo_evs) demo_users =
    userAuthLoop demo_check (fun _ => Ok tt) demo_validate string (fun k => k) Ok Ok demo_bad
      demo_encode demo_encode (fun _ => true) demo_cfg "10.0.0.1:9999" "session"
      (mkServerConfig true true 6) demo_evs 0 [] authErrs (mkAttempt false false) demo_users.
Proof.
  refine (none_requests_are_free demo_check (fun _ => Ok tt) demo_validate string (fun k => k)
    Ok Ok demo_bad demo_encode demo_encode (fun _ => true) demo_cfg "10.0.0.1:9999" "session"
    (repeat demo_none 20) demo_evs demo_users _ _).
  - repeat constructor; eexists; repeat split; vm_compute; reflexivity.
  - reflexivity.
Defined.
