(* ===== verification/Base64.v ===== *)
(** Go's [encoding/base64.StdEncoding], as knownhosts.go uses it to write and
    read public keys. *)
From S2P Require Import Prelude.
From S2P Require Import GoStrings.
From S2P Require Import Wire.

Definition alphabet : string :=
  "ABCDEFGHIJKLMNOPQRSTUVWXYZabcdefghijklmnopqrstuvwxyz0123456789+/".
Definition pad : ascii := "=".

(** The character of a 6-bit digit, and the digit of a character. *)
Definition enc_digit (d : Z) : ascii :=
  match String.get (Z.to_nat d) alphabet with Some c => c | None => pad end.
Definition dec_digit (c : ascii) : option Z := Z.of_nat <$> index_byte c alphabet.

(** [EncodeToString]: three bytes to four characters, padded at the end. *)
Fixpoint encode (s : string) : string :=
  match s with
  | String a (String b (String c rest)) =>
      let v := val a * 65536 + val b * 256 + val c in
      String (enc_digit (v / 262144)) (String (enc_digit (v / 4096 mod 64))
        (String (enc_digit (v / 64 mod 64)) (String (enc_digit (v mod 64)) (encode rest))))
  | String a (String b "") =>
      let v := val a * 65536 + val b * 256 in
      String (enc_digit (v / 262144)) (String (enc_digit (v / 4096 mod 64))
        (String (enc_digit (v / 64 mod 64)) (String pad "")))
  | String a "" =>
      let v := val a * 65536 in
      String (enc_digit (v / 262144)) (String (enc_digit (v / 4096 mod 64))
        (String pad (String pad "")))
  | "" => ""
  end.

(** [Decode] on groups of four; the error's offset is not modelled. *)
Fixpoint decode_groups (s : string) : option string :=
  match s with
  | "" => Some ""
  | String a (String b (String c (String d rest))) =>
      match dec_digit a, dec_digit b with
      | Some x, Some y =>
          if Ascii.eqb c pad then
            if Ascii.eqb d pad && (rest =? "")%string
            then Some (String (byte (x * 4 + y / 16)) "") else None
          else
            match dec_digit c with
            | None => None
            | Some z =>
                if Ascii.eqb d pad then
                  if (rest =? "")%string
                  then Some (String (byte (x * 4 + y / 16)) (String (byte (y * 16 + z / 4)) ""))
                  else None
                else
                  match dec_digit d, decode_groups rest with
                  | Some w, Some out =>
                      Some (String (byte (x * 4 + y / 16)) (String (byte (y * 16 + z / 4))
                              (String (byte (z * 64 + w)) out)))
                  | _, _ => None
                  end
            end
      | _, _ => None
      end
  | _ => None
  end.

(** Line ends are skipped wherever they are. *)
Definition decode (s : string) : option string :=
  decode_groups (remove_byte "010" (remove_byte "013" s)).

(** ** Decoding undoes encoding *)

Definition enc_digit_ok (d : Z) : bool :=
  bool_decide (dec_digit (enc_digit d) = Some d) && negb (Ascii.eqb (enc_digit d) pad) &&
  negb (is_space (enc_digit d)).

Lemma enc_digit_spec d : 0 <= d < 64 -> enc_digit_ok d = true.
Proof.
  intros H. assert (forallb enc_digit_ok (map Z.of_nat (seq 0 64)) = true) as Hall
    by (vm_compute; reflexivity).
  rewrite forallb_forall in Hall. apply Hall. apply in_map_iff. exists (Z.to_nat d).
  split; [lia|]. apply in_seq. lia.
Qed.

Lemma dec_enc_digit d : 0 <= d < 64 -> dec_digit (enc_digit d) = Some d /\ Ascii.eqb (enc_digit d) pad = false.
Proof.
  intros H%enc_digit_spec. unfold enc_digit_ok in H. rewrite !andb_true_iff, !negb_true_iff in H.
  destruct H as [[H1 H2] _]. by apply bool_decide_eq_true in H1.
Qed.

Lemma byte_val_eq c z : z mod 256 = val c -> byte z = c.
Proof.
  intros H. unfold byte. rewrite H. unfold val. rewrite N2Z.id. apply ascii_N_embedding.
Qed.

(** The 6-bit digits of three bytes. *)
Lemma digits_range a b c :
  let v := val a * 65536 + val b * 256 + val c in
  0 <= v / 262144 < 64 /\ 0 <= v / 4096 mod 64 < 64 /\ 0 <= v / 64 mod 64 < 64 /\ 0 <= v mod 64 < 64.
Proof.
  pose proof (val_range a). pose proof (val_range b). pose proof (val_range c). cbv zeta.
  repeat split; try apply Z.mod_pos_bound; try lia;
    [apply Z.div_pos; lia|apply Z.div_lt_upper_bound; lia].
Qed.

Lemma digits_bytes a b c :
  let v := val a * 65536 + val b * 256 + val c in
  (v / 262144 * 4 + v / 4096 mod 64 / 16) mod 256 = val a /\
  (v / 4096 mod 64 * 16 + v / 64 mod 64 / 4) mod 256 = val b /\
  (v / 64 mod 64 * 64 + v mod 64) mod 256 = val c.
Proof.
  pose proof (val_range a). pose proof (val_range b). pose proof (val_range c). cbv zeta.
  Z.to_euclidean_division_equations. lia.
Qed.

Lemma decode_groups_encode s : decode_groups (encode s) = Some s.
Proof.
  assert (forall n s, (String.length s <= n)%nat -> decode_groups (encode s) = Some s) as H.
  { clear s. induction n as [|n IH]; intros [|a [|b [|c rest]]] Hn; try done; simpl in Hn; try lia.
    - pose proof (digits_range a "000" "000") as (R1 & R2 & _).
      pose proof (digits_bytes a "000" "000") as (B1 & _).
      change (val "000") with 0 in *. rewrite Z.mul_0_l, !Z.add_0_r in *.
      cbn [encode decode_groups]. rewrite (proj1 (dec_enc_digit _ R1)), (proj1 (dec_enc_digit _ R2)).
      simpl. by rewrite (byte_val_eq a).
    - pose proof (digits_range a b "000") as (R1 & R2 & R3 & _).
      pose proof (digits_bytes a b "000") as (B1 & B2 & _).
      change (val "000") with 0 in *. rewrite !Z.add_0_r in *.
      destruct (dec_enc_digit _ R1), (dec_enc_digit _ R2), (dec_enc_digit _ R3) as [D3 N3].
      cbn [encode decode_groups]. rewrite N3, D3.
      rewrite (proj1 (dec_enc_digit _ R1)), (proj1 (dec_enc_digit _ R2)).
      simpl. by rewrite (byte_val_eq a), (byte_val_eq b).
    - pose proof (digits_range a b c) as (R1 & R2 & R3 & R4).
      pose proof (digits_bytes a b c) as (B1 & B2 & B3).
      destruct (dec_enc_digit _ R1) as [D1 _], (dec_enc_digit _ R2) as [D2 _],
        (dec_enc_digit _ R3) as [D3 N3], (dec_enc_digit _ R4) as [D4 N4].
      cbn [encode decode_groups]. rewrite N3, N4, D1, D2, D3, D4, IH by lia.
      by rewrite (byte_val_eq a), (byte_val_eq b), (byte_val_eq c). }
  by eapply H.
Qed.

(** An encoded text has no white space. *)
Definition b64_char (c : ascii) : bool := negb (is_space c).

Lemma enc_digit_char d : 0 <= d < 64 -> b64_char (enc_digit d) = true.
Proof. intros H%enc_digit_spec. unfold enc_digit_ok in H. rewrite !andb_true_iff in H. apply H. Qed.

(** What holds of the digits and the padding holds of an encoded text. *)
Lemma encode_all (p : ascii -> bool) s : (forall d, 0 <= d < 64 -> p (enc_digit d) = true) -> p pad = true -> sall p (encode s) = true.
Proof.
  intros Hd Hp.
  assert (forall n s, (String.length s <= n)%nat -> sall p (encode s) = true) as H.
  { clear s. induction n as [|n IH]; intros [|a [|b [|c rest]]] Hn; try done; simpl in Hn; try lia.
    - pose proof (digits_range a "000" "000") as (R1 & R2 & _).
      change (val "000") with 0 in *. rewrite Z.mul_0_l, !Z.add_0_r in *.
      cbn [encode sall]. by rewrite !Hd, Hp.
    - pose proof (digits_range a b "000") as (R1 & R2 & R3 & _).
      change (val "000") with 0 in *. rewrite !Z.add_0_r in *.
      cbn [encode sall]. by rewrite !Hd, Hp.
    - pose proof (digits_range a b c) as (R1 & R2 & R3 & R4).
      cbn [encode sall]. rewrite !Hd, IH by (done || lia). done. }
  by eapply H.
Qed.

Lemma encode_chars s : sall b64_char (encode s) = true.
Proof. apply encode_all; [apply enc_digit_char|done]. Qed.

Lemma encode_lacks_other c s : dec_digit c = None -> c <> pad -> lacks c (encode s) = true.
Proof.
  intros Hc Hp. apply encode_all; [|by apply negb_true_iff, Ascii.eqb_neq]. intros d Hd. apply negb_true_iff, Ascii.eqb_neq.
  intros E. destruct (dec_enc_digit d Hd) as [H _]. congruence.
Qed.

Lemma remove_byte_lacks c s : lacks c s = true -> remove_byte c s = s.
Proof.
  unfold lacks. induction s as [|d s IH]; simpl; [done|]. intros H. bool_prop.
  destruct (Ascii.eqb d c) eqn:E; [by apply Ascii.eqb_eq in E|]. by rewrite IH.
Qed.

Lemma encode_lacks c s : is_space c = true -> lacks c (encode s) = true.
Proof.
  intros Hc. eapply sall_impl; [|exact (encode_chars s)]. intros d Hd. apply negb_true_iff, Ascii.eqb_neq. intros ->.
  unfold b64_char in Hd. by rewrite Hc in Hd.
Qed.

Lemma decode_encode s : decode (encode s) = Some s.
Proof.
  unfold decode. rewrite (remove_byte_lacks "013"), (remove_byte_lacks "010"); [apply decode_groups_encode|by apply encode_lacks..].
Qed.
