(* ===== verification/KnownHosts.v ===== *)
(** The client's known hosts (knownhosts.go; sshutil.go: [HostAlreadyKnown],
    [AddNeeded] and the host key callback of [SSHConnect]): reading and
    writing a known_hosts file, and the decision about a server's key. *)
From S2P Require Import Prelude.
From S2P Require Import GoStrings.
From S2P Require Import Wire.
From S2P Require Import Base64.

(** ** Data *)

(** [Mut] tells whether the record's mutex is held. *)
Record ServerPubKey := mkKey {
  Hostname : string;
  HumanKey : string;
  ServerBanned : bool;
  Markers : string;
  Hostnames : string;
  SplitHostnames : gset string;
  Keytype : string;
  Base64EncodededPublicKey : string;
  Comment : string;
  Port : string;
  LineInFileOneBased : Z;
  AlreadySaved : bool;
  Mut : bool;
}.

Inductive KnownHostsPersistFormat := KHJson | KHGob | KHSsh.

Inductive HostState := Unknown | Banned | KnownOK | KnownRecordMismatch | AddedNew.

(** The map of hosts, keyed by the public key in authorized_keys form. *)
Record KnownHosts := mkHosts {
  Hosts : gmap string ServerPubKey;
  curStatus : HostState;
  curHost : option ServerPubKey;
  FilepathPrefix : string;
  PersistFormatSuffix : string;
  PersistFormat : KnownHostsPersistFormat;
  NoSave : bool;
}.

Definition with_hosts (m : gmap string ServerPubKey) (h : KnownHosts) : KnownHosts :=
  mkHosts m (curStatus h) (curHost h) (FilepathPrefix h) (PersistFormatSuffix h)
    (PersistFormat h) (NoSave h).
Definition with_current (st : HostState) (r : option ServerPubKey) (h : KnownHosts) : KnownHosts :=
  mkHosts (Hosts h) st r (FilepathPrefix h) (PersistFormatSuffix h) (PersistFormat h) (NoSave h).

Definition set_names (names : gset string) (saved : bool) (k : ServerPubKey) : ServerPubKey :=
  mkKey (Hostname k) (HumanKey k) (ServerBanned k) (Markers k) (Hostnames k) names
    (Keytype k) (Base64EncodededPublicKey k) (Comment k) (Port k) (LineInFileOneBased k) saved (Mut k).
Definition set_AlreadySaved (v : bool) (k : ServerPubKey) : ServerPubKey :=
  set_names (SplitHostnames k) v k.
Definition set_host (name port : string) (k : ServerPubKey) : ServerPubKey :=
  mkKey name (HumanKey k) (ServerBanned k) (Markers k) (Hostnames k) (SplitHostnames k)
    (Keytype k) (Base64EncodededPublicKey k) (Comment k) port (LineInFileOneBased k)
    (AlreadySaved k) (Mut k).
Definition set_Mut (v : bool) (k : ServerPubKey) : ServerPubKey :=
  mkKey (Hostname k) (HumanKey k) (ServerBanned k) (Markers k) (Hostnames k) (SplitHostnames k)
    (Keytype k) (Base64EncodededPublicKey k) (Comment k) (Port k) (LineInFileOneBased k)
    (AlreadySaved k) v.

(** [sync.Mutex]: locking a mutex that the caller itself left locked never
    returns. *)
Definition Lock (k : ServerPubKey) : outcome ServerPubKey :=
  if Mut k then Blocked else Ok (set_Mut true k).
Definition Unlock (k : ServerPubKey) : ServerPubKey := set_Mut false k.

(** [AddHostPort]. *)
Definition AddHostPort (hp : string) (prior : ServerPubKey) : outcome ServerPubKey :=
  let? prior := Lock prior in
  let already2 := bool_decide (hp ∈ SplitHostnames prior) in
  let prior := set_names ({[hp]} ∪ SplitHostnames prior)
                 (if already2 then AlreadySaved prior else false) prior in
  Ok (Unlock prior).

Section KnownHosts.
(** The ssh library's public keys: the wire form parsed and written, the
    authorized_keys form, the type. The encodings of the whole structure for
    the JSON and gob formats. The order in which Go ranges over the keys of a
    map, which the language leaves open. Whether a file can be opened. *)
Context (K : Type) (ParsePublicKey : string -> outcome K)
        (MarshalAuthorizedKey key_Marshal key_Type : K -> string).
Context (encode_hosts : KnownHosts -> string).
Context (range : gset string -> list string).
Context (can_open : string -> bool).

(** ** Reading a known_hosts file *)

(** A host of the list: its brackets removed and its port split off; the port
    given is the one in force so far. *)
Definition split_host (hst port : string) : outcome (string * string) :=
  match hst with
  | "" => Panic "index out of range"
  | String c rest =>
      let hst := if Ascii.eqb c "[" then remove_byte "]" rest else hst in
      match Split ":" hst with
      | host :: p :: _ => Ok (host, p)
      | _ => Ok (hst, port)
      end
  end.

(** Pass a): the names of the line. The port of one host stays for the next. *)
Fixpoint fill_names (hosts : list string) (pubkey : ServerPubKey) : outcome ServerPubKey :=
  match hosts with
  | [] => Ok pubkey
  | hst :: hosts =>
      let? '(host, port) := split_host hst (Port pubkey) in
      let name := host +:+ ":" +:+ port in
      let pubkey := set_host name port pubkey in
      fill_names hosts (set_names ({[name]} ∪ SplitHostnames pubkey) (AlreadySaved pubkey) pubkey)
  end.

(** Pass b): each name is entered under the key of the line; a key that does
    not decode or parse is skipped. *)
Definition enter_host (line : Z) (pubkey : ServerPubKey) (hst : string)
    (m : gmap string ServerPubKey) : outcome (gmap string ServerPubKey) :=
  let? '(host, port) := split_host hst (Port pubkey) in
  let name := host +:+ ":" +:+ port in
  match Base64.decode (Base64EncodededPublicKey pubkey) with
  | None => Ok m
  | Some expand =>
      match ParsePublicKey expand with
      | Err _ => Ok m
      | Panic s => Panic s
      | Blocked => Blocked
      | Ok xkey =>
          let se := MarshalAuthorizedKey xkey in
          match m !! se with
          | None =>
              Ok (<[se := mkKey name se (ServerBanned pubkey) (Markers pubkey) (Hostnames pubkey)
                            (SplitHostnames pubkey) (Keytype pubkey) (Base64EncodededPublicKey pubkey)
                            (Comment pubkey) port line true (Mut pubkey)]> m)
          | Some prior =>
              let? prior := AddHostPort name prior in
              Ok (<[se := set_AlreadySaved true prior]> m)
          end
      end
  end.

Fixpoint enter_hosts (line : Z) (pubkey : ServerPubKey) (hosts : list string)
    (m : gmap string ServerPubKey) : outcome (gmap string ServerPubKey) :=
  match hosts with
  | [] => Ok m
  | hst :: hosts => let? m := enter_host line pubkey hst m in enter_hosts line pubkey hosts m
  end.

Definition field (splt : list string) (i : nat) : outcome string :=
  match splt !! i with Some s => Ok s | None => Panic "index out of range" end.

(** One line of the file; [i] counts from zero. *)
Definition load_line (path : string) (i : Z) (raw : string) (m : gmap string ServerPubKey)
  : outcome (gmap string ServerPubKey) :=
  let line := Trim raw " " in
  match line with
  | "" => Ok m
  | String c _ =>
      if Ascii.eqb c "#" || Ascii.eqb c "|" then Ok m
      else
        let splt := Split " " line in
        let n := List.length splt in
        if (n <? 3)%nat || (5 <? n)%nat
        then Err ("known_hosts file '" +:+ path +:+ "' did not have 3/4/5 fields on line " +:+
                  itoa (i + 1) +:+ ": '" +:+ raw +:+ "'")
        else
          let marked := Ascii.eqb c "@" in
          let markers := if marked then default "" (splt !! 0%nat) else "" in
          let b := if marked then 1%nat else 0%nat in
          if marked && (Contains markers "@revoked" || Contains markers "@cert-authority") then Ok m
          else
            let comment := default "" (splt !! (b + 3)%nat) in
            let? names := field splt b in
            let? keytype := field splt (b + 1) in
            let? b64 := field splt (b + 2) in
            let pubkey := mkKey "" "" false markers names ∅ keytype b64 comment "22" 0 false false in
            let hosts := Split "," names in
            let? pubkey := fill_names hosts pubkey in
            enter_hosts (i + 1) pubkey hosts m
  end.

Fixpoint load_lines (path : string) (i : Z) (lines : list string) (m : gmap string ServerPubKey)
  : outcome (gmap string ServerPubKey) :=
  match lines with
  | [] => Ok m
  | raw :: lines => let? m := load_line path i raw m in load_lines path (i + 1) lines m
  end.

(** [LoadSshKnownHosts]; [None] is a file that does not exist. *)
Definition LoadSshKnownHosts (fs : string -> option string) (path : string) : outcome KnownHosts :=
  match fs path with
  | None => Err ("path '" +:+ path +:+ "' does not exist")
  | Some text =>
      let? m := load_lines path 0 (Split nl_byte text) ∅ in
      Ok (mkHosts m Unknown None path "" KHSsh false)
  end.

(** ** Writing it *)

(** The first field of a line: a lone name without brackets if its port is 22;
    several names always with brackets. *)
Definition one_name (hn : string) : outcome string :=
  match Split ":" hn with
  | h :: p :: _ => Ok (if (p =? "22")%string then hn else "[" +:+ h +:+ "]:" +:+ p)
  | _ => Panic "index out of range"
  end.

Fixpoint all_names (names : list string) : outcome (list string) :=
  match names with
  | [] => Ok []
  | tmp :: names =>
      match Split ":" tmp with
      | [h; p] => let? l := all_names names in Ok (("[" +:+ h +:+ "]:" +:+ p) :: l)
      | _ => Panic ("must be 2 parts here, but we got '" +:+ tmp +:+ "'")
      end
  end.

Definition saved_line (v : ServerPubKey) : outcome string :=
  let? hostname :=
    if (size (SplitHostnames v) =? 1)%nat then one_name (Hostname v)
    else let? l := all_names (range (SplitHostnames v)) in Ok (join "," l) in
  Ok (hostname +:+ " " +:+ Keytype v +:+ " " +:+ Base64EncodededPublicKey v +:+ " " +:+
      Comment v +:+ nl).

(** The loop over the hosts: the text appended and the map with its entries
    marked as saved. *)
Fixpoint save_hosts (keys : list string) (m : gmap string ServerPubKey) (out : string)
  : outcome (gmap string ServerPubKey * string) :=
  match keys with
  | [] => Ok (m, out)
  | k :: keys =>
      match m !! k with
      | None => save_hosts keys m out
      | Some v =>
          if AlreadySaved v then save_hosts keys m out
          else
            let? line := saved_line v in
            save_hosts keys (<[k := set_AlreadySaved true v]> m) (out +:+ line)
      end
  end.

(** The backups: [mv fn.prev fn.prev.prev] and [cp -p fn fn.prev]. *)
Definition backup (fn : string) (files : gmap string string) : gmap string string :=
  let files := match files !! (fn +:+ ".prev") with
               | Some t => <[fn +:+ ".prev.prev" := t]> (delete (fn +:+ ".prev") files)
               | None => files
               end in
  match files !! fn with
  | Some t => <[fn +:+ ".prev" := t]> files
  | None => files
  end.

Definition saveSshKnownHosts (s : KnownHosts) (files : gmap string string)
  : outcome (KnownHosts * gmap string string) :=
  if NoSave s then Ok (s, files)
  else
    let fn := FilepathPrefix s in
    let files := backup fn files in
    if negb (can_open fn) then Err ("could not open file '" +:+ fn +:+ "' for appending")
    else
      let? '(m, out) := save_hosts (range (dom (Hosts s))) (Hosts s) "" in
      Ok (with_hosts m s, <[fn := default "" (files !! fn) +:+ out]> files).

(** [Sync] panics on every error. The JSON and gob writers replace the file,
    after a backup. *)
Definition Sync (s : KnownHosts) (files : gmap string string) : outcome (KnownHosts * gmap string string) :=
  let fn := FilepathPrefix s +:+ PersistFormatSuffix s in
  match PersistFormat s with
  | KHSsh => panicOn (saveSshKnownHosts s files)
  | _ =>
      if negb (can_open (fn +:+ ".new")) then Panic ("problem creating outfile '" +:+ fn +:+ "'")
      else
        let files := match files !! fn with Some t => <[fn +:+ ".prev" := t]> files | None => files end in
        Ok (s, <[fn := encode_hosts s]> files)
  end.

(** ** The decision about a server's key *)

Definition disk := gmap string string.

(** What the two functions return: status, record, error. *)
Definition decision := (HostState * option ServerPubKey * option string)%type.

Definition Base64ofPublicKey (key : K) : string := Base64.encode (key_Marshal key).

(** The record of a host that is added at [now]. *)
Definition new_record (hostname strPubBytes now : string) (key : K) : ServerPubKey :=
  mkKey hostname strPubBytes false "" "" {[hostname]} (key_Type key) (Base64ofPublicKey key)
    ("added_by_sshego_on_" +:+ now) "" 0 false false.

Definition added_text (remote : string) : string :=
  "good: added previously unknown sshd host '" +:+ remote +:+
  "' with the -new flag. Re-run without -new (or setting " +:+ "TofuAddIfNotKnown=false) now".

Definition AddNeeded (addIfNotKnown allowOneshotConnect : bool)
    (hostname remote strPubBytes now : string) (key : K) (record : option ServerPubKey)
    (h : KnownHosts) (files : disk) : outcome (KnownHosts * disk * decision) :=
  if addIfNotKnown then
    let record := new_record hostname strPubBytes now key in
    let? m :=
      match Hosts h !! strPubBytes with
      | None => Ok (<[strPubBytes := record]> (Hosts h))
      | Some prior => let? prior := AddHostPort hostname prior in
                      Ok (<[strPubBytes := prior]> (Hosts h))
      end in
    let? '(h, files) := Sync (with_hosts m h) files in
    if allowOneshotConnect then Ok (h, files, (KnownOK, Some record, None))
    else Ok (h, files, (AddedNew, Some record, Some (added_text remote)))
  else Ok (h, files, (Unknown, record, None)).

Definition localhost (hostname : string) : bool :=
  HasPrefix hostname "localhost" || HasPrefix hostname "127.0.0.1".

(** The search among the record's names: it locks the record, and unlocks it
    only when it finds the name. *)
Definition search_names (hostname : string) (record : ServerPubKey) : outcome (ServerPubKey * bool) :=
  let? record := Lock record in
  if bool_decide (hostname ∈ SplitHostnames record) then Ok (Unlock record, true)
  else Ok (record, false).

Definition HostAlreadyKnown (hostname remote strPubBytes now : string) (key : K)
    (addIfNotKnown allowOneshotConnect : bool) (h : KnownHosts) (files : disk)
  : outcome (KnownHosts * disk * decision) :=
  let add := AddNeeded addIfNotKnown allowOneshotConnect hostname remote strPubBytes now key in
  let known record h :=
    if addIfNotKnown
    then Ok (h, files, (KnownOK, Some record,
           Some ("error: flag -new given but not needed. Re-run without -new : this is important " +:+
                 "to prevent MITM attacks; TofuAddIfNotKnown must be false once the server/host " +:+
                 "is known.")))
    else Ok (h, files, (KnownOK, Some record, None)) in
  match Hosts h !! strPubBytes with
  | None => add None h files
  | Some record =>
      if ServerBanned record
      then Ok (h, files, (Banned, Some record,
             Some ("the key '" +:+ strPubBytes +:+ "' has been marked as banned")))
      else if localhost hostname && addIfNotKnown then add (Some record) h files
      else if negb (Hostname record =? hostname)%string then
        let? '(record, found) := search_names hostname record in
        let h := with_hosts (<[strPubBytes := record]> (Hosts h)) h in
        if addIfNotKnown then add (Some record) h files
        else if negb found then
          let? record := Lock record in
          Ok (h, files, (KnownRecordMismatch, Some (Unlock record),
                Some ("hostname mismatch for key '" +:+ strPubBytes +:+ "'")))
        else known record h
      else known record h
  end.

(** The host key callback that [SSHConnect] installs: [None] is nil, the
    handshake goes on. *)
Definition hostKeyCallback (hostname remote now : string) (key : K)
    (AddIfNotKnown TestAllowOneshotConnect : bool) (h : KnownHosts) (files : disk)
  : outcome (KnownHosts * disk * option string) :=
  let pubBytes := MarshalAuthorizedKey key in
  let? '(h, files, (hostStatus, spubkey, err)) :=
    HostAlreadyKnown hostname remote pubBytes now key AddIfNotKnown TestAllowOneshotConnect h files in
  let h := with_current hostStatus spubkey h in
  match err with
  | Some e => Ok (h, files, Some e)
  | None =>
      Ok (h, files,
          match hostStatus with
          | Banned => Some "banned server"
          | KnownRecordMismatch => Some "known record mismatch"
          | KnownOK => None
          | Unknown => Some ("unknown server; could be Man-In-The-Middle attack.  If this is first " +:+
                             "time setup, you must use -new to allow the new host")
          | AddedNew => None
          end)
  end.
End KnownHosts.

(** [NewKnownHosts]: the file of the format is read if it exists. *)
Definition NewKnownHosts (K : Type) (ParsePublicKey : string -> outcome K)
    (MarshalAuthorizedKey : K -> string) (decode_hosts : string -> outcome KnownHosts)
    (fs : string -> option string) (filepath : string) (format : KnownHostsPersistFormat)
  : outcome KnownHosts :=
  let suffix := match format with
                | KHJson => ".json.snappy" | KHGob => ".gob.snappy" | KHSsh => "" end in
  let fn := filepath +:+ suffix in
  match fs fn with
  | None => Ok (mkHosts ∅ Unknown None filepath suffix format false)
  | Some text =>
      match format with
      | KHSsh => LoadSshKnownHosts K ParsePublicKey MarshalAuthorizedKey fs fn
      | _ =>
          let? h := decode_hosts text in
          Ok (mkHosts (Hosts h) Unknown None filepath suffix format false)
      end
  end.

(** [KnownHostsEqual], over the orders in which the two maps are ranged:
    the fields compared, and the key of the first difference. *)
Definition same_key (v v2 : ServerPubKey) : bool :=
  (HumanKey v =? HumanKey v2)%string && (Hostname v =? Hostname v2)%string &&
  Bool.eqb (ServerBanned v) (ServerBanned v2).

Fixpoint compare_keys (keys : list string) (a b : gmap string ServerPubKey) : outcome unit :=
  match keys with
  | [] => Ok tt
  | k :: keys =>
      match a !! k with
      | None => compare_keys keys a b
      | Some v =>
          match b !! k with
          | None => Err ("KnownHostsEqual detected difference at key '" +:+ k +:+ "'")
          | Some v2 =>
              if same_key v v2 then compare_keys keys a b
              else Err ("KnownHostsEqual detected difference at key '" +:+ k +:+ "'")
          end
      end
  end.

Fixpoint missing_keys (keys : list string) (a : gmap string ServerPubKey) : outcome unit :=
  match keys with
  | [] => Ok tt
  | k :: keys =>
      match a !! k with
      | None => Err ("KnownHostsEqual detected difference at key '" +:+ k +:+ "'")
      | Some _ => missing_keys keys a
      end
  end.

Definition KnownHostsEqual (range : gset string -> list string) (a b : KnownHosts) : outcome unit :=
  let? _ := compare_keys (range (dom (Hosts a))) (Hosts a) (Hosts b) in
  missing_keys (range (dom (Hosts b))) (Hosts a).

(** ** Saving keeps the hosts *)

(** Equal but for the mark that the entry is saved. *)
Definition same_record (v v' : ServerPubKey) : Prop :=
  set_AlreadySaved true v = set_AlreadySaved true v'.

Definition same_hosts (m m' : gmap string ServerPubKey) : Prop :=
  set_AlreadySaved true <$> m = set_AlreadySaved true <$> m'.

#[export] Instance same_hosts_equiv : Equivalence same_hosts.
Proof. split; [done|by intros ??|intros ????; by etrans]. Qed.

Lemma same_hosts_lookup m m' k v :
  same_hosts m m' -> m !! k = Some v -> exists v', m' !! k = Some v' /\ same_record v v'.
Proof.
  intros H Hk. assert (set_AlreadySaved true <$> m !! k = set_AlreadySaved true <$> m' !! k) as Heq
    by (rewrite <- !lookup_fmap; by rewrite H).
  rewrite Hk in Heq. simpl in Heq. destruct (m' !! k) as [v'|]; [|done]. injection Heq as Heq.
  exists v'. split; [done|]. unfold same_record, set_AlreadySaved, set_names. by f_equal.
Qed.

Lemma same_hosts_insert m k v :
  m !! k = Some v -> same_hosts m (<[k := set_AlreadySaved true v]> m).
Proof.
  intros H. unfold same_hosts. rewrite fmap_insert. symmetry. apply insert_id.
  rewrite lookup_fmap, H. by destruct v.
Qed.

Lemma save_hosts_same range keys m out m' out' :
  save_hosts range keys m out = Ok (m', out') -> same_hosts m m'.
Proof.
  revert m out. induction keys as [|k keys IH]; intros m out; simpl; [by intros [= <- <-]|].
  destruct (m !! k) as [v|] eqn:E; [|apply IH].
  destruct (AlreadySaved v); [apply IH|].
  intros (line & _ & H)%obind_ok. etrans; [by apply same_hosts_insert|]. by eapply IH.
Qed.

Section KnownHostsFacts.
Context (K : Type)
        (MarshalAuthorizedKey key_Marshal key_Type : K -> string)
        (encode_hosts : KnownHosts -> string)
        (range : gset string -> list string) (can_open : string -> bool).

Abbreviation sync := (Sync encode_hosts range can_open).
Abbreviation add_needed := (AddNeeded K key_Marshal key_Type encode_hosts range can_open).
Abbreviation already_known := (HostAlreadyKnown K key_Marshal key_Type encode_hosts range can_open).
Abbreviation callback :=
  (hostKeyCallback K MarshalAuthorizedKey key_Marshal key_Type encode_hosts range can_open).

Lemma Sync_same h files h' files' : sync h files = Ok (h', files') -> same_hosts (Hosts h) (Hosts h').
Proof.
  unfold Sync, saveSshKnownHosts. destruct (PersistFormat h).
  - destruct (negb _); [done|]. by intros [= <- <-].
  - destruct (negb _); [done|]. by intros [= <- <-].
  - intros H%(proj1 (panicOn_ok _ _)). destruct (NoSave h); [by injection H as <- <-|].
    destruct (negb _); [done|]. apply obind_ok in H as ([m out] & Hs & H). injection H as <- <-.
    by eapply save_hosts_same.
Qed.

Lemma AddHostPort_spec hp k k' :
  AddHostPort hp k = Ok k' ->
  SplitHostnames k' = {[hp]} ∪ SplitHostnames k /\ ServerBanned k' = ServerBanned k /\
  Hostname k' = Hostname k /\ Mut k' = false /\ Mut k = false.
Proof.
  unfold AddHostPort, Lock. destruct (Mut k) eqn:E; [done|]. simpl. intros [= <-]. done.
Qed.

Lemma add_needed_status add one host remote pub now key record h files h' files' st r e :
  add_needed add one host remote pub now key record h files = Ok (h', files', (st, r, e)) ->
  (add = false /\ st = Unknown) \/ (add = true /\ one = true /\ st = KnownOK) \/
  (add = true /\ st = AddedNew /\ is_Some e).
Proof.
  unfold AddNeeded. destruct add; [|naive_solver].
  intros (m & _ & H)%obind_ok. apply obind_ok in H as ([h1 f1] & _ & H).
  destruct one; naive_solver.
Qed.

(** What AddNeeded leaves on record: the key under the name, also under the names it had. *)
Definition recorded (host pub : string) (h h' : KnownHosts) : Prop :=
  exists r', Hosts h' !! pub = Some r' /\ host ∈ SplitHostnames r' /\ ServerBanned r' = false /\
    forall r, Hosts h !! pub = Some r -> SplitHostnames r ⊆ SplitHostnames r'.

Lemma add_needed_records one host remote pub now key record h files h' files' d :
  (forall r, Hosts h !! pub = Some r -> ServerBanned r = false) ->
  add_needed true one host remote pub now key record h files = Ok (h', files', d) -> recorded host pub h h'.
Proof.
  intros HB H. unfold AddNeeded in H. apply obind_ok in H as (m & Hm & H). apply obind_ok in H as ([h1 f1] & HS%Sync_same & H).
  assert (h' = h1) as -> by (destruct one; naive_solver). cbn [with_hosts Hosts] in HS.
  destruct (Hosts h !! pub) as [prior|] eqn:E.
  - apply obind_ok in Hm as (prior' & (EH & EB & _)%AddHostPort_spec & Hm). injection Hm as <-.
    eapply same_hosts_lookup in HS as (r' & Hr & HR); [|apply lookup_insert_eq].
    unfold same_record, set_AlreadySaved, set_names in HR. injection HR as _ _ Hban _ _ Hsp _ _ _ _ _ _.
    exists r'. split; [done|]. rewrite <- Hsp, <- Hban, EH, EB. split; [set_solver|]. split; [by apply HB|].
    intros r Hr0. rewrite E in Hr0. injection Hr0 as <-. set_solver.
  - injection Hm as <-. eapply same_hosts_lookup in HS as (r' & Hr & HR); [|apply lookup_insert_eq].
    unfold same_record, set_AlreadySaved, set_names in HR. injection HR as _ _ Hban _ _ Hsp _ _ _ _ _ _.
    exists r'. split; [done|]. rewrite <- Hsp, <- Hban. cbn. split; [set_solver|]. split; [done|]. intros r Hr'. congruence.
Qed.

Lemma add_needed_accepts add one host remote pub now key record h files h' files' st r :
  (forall r, Hosts h !! pub = Some r -> ServerBanned r = false) -> st <> Unknown ->
  add_needed add one host remote pub now key record h files = Ok (h', files', (st, r, None)) ->
  add = true /\ one = true /\ recorded host pub h h'.
Proof.
  intros HB Hst HA. destruct (add_needed_status _ _ _ _ _ _ _ _ _ _ _ _ _ _ _ HA) as [[? ->]|[(-> & -> & _)|(_ & _ & [? ?])]]; try done.
  split; [done|]. split; [done|]. by eapply add_needed_records.
Qed.

Lemma callback_accepts host remote now key add one h files h' files' :
  hostKeyCallback K MarshalAuthorizedKey key_Marshal key_Type encode_hosts range can_open
    host remote now key add one h files = Ok (h', files', None) ->
  (forall r, Hosts h !! MarshalAuthorizedKey key = Some r -> ServerBanned r = false) /\
  ((add = true /\ one = true /\ recorded host (MarshalAuthorizedKey key) h h') \/
   (add = false /\ exists r, Hosts h !! MarshalAuthorizedKey key = Some r /\
      (Hostname r = host \/ host ∈ SplitHostnames r))).
Proof.
  unfold hostKeyCallback. intros ([[h1 f1] [[st rec] err]] & HA & H)%obind_ok.
  destruct err as [e|]; [done|]. injection H as <- _ H.
  assert (st <> Unknown) as Hst by (by intros ->).
  unfold HostAlreadyKnown in HA. change (Hosts (with_current st rec h1)) with (Hosts h1).
  destruct (Hosts h !! MarshalAuthorizedKey key) as [r|] eqn:E.
  - destruct (ServerBanned r) eqn:EB; [naive_solver|].
    assert (forall r', Hosts h !! MarshalAuthorizedKey key = Some r' -> ServerBanned r' = false) as HB by (intros r'; congruence).
    split; [intros r' [= <-]; done|].
    destruct (localhost host && add).
    { left. exact (add_needed_accepts _ _ _ _ _ _ _ _ _ _ _ _ _ _ HB Hst HA). }
    destruct (String.eqb_spec (Hostname r) host) as [Hh|Hh]; simpl in HA.
    + destruct add; [naive_solver|]. right. split; [done|]. exists r. by split; [|left].
    + apply obind_ok in HA as ([r1 found] & HS & HA). unfold search_names in HS. apply obind_ok in HS as (r2 & HL & HS).
      unfold Lock in HL. destruct (Mut r); [done|]. injection HL as <-. cbn [set_Mut set_names SplitHostnames] in HS.
      destruct add.
      { left. assert (SplitHostnames r1 = SplitHostnames r /\ ServerBanned r1 = false) as [E1 E2] by (revert HS; by destruct (bool_decide _); intros [= <- _]).
        assert (forall r', <[MarshalAuthorizedKey key := r1]> (Hosts h) !! MarshalAuthorizedKey key = Some r' -> ServerBanned r' = false) as HB1
          by (intros r'; rewrite lookup_insert_eq; by intros [= <-]).
        eapply add_needed_accepts in HA as (_ & Ho & r' & H1 & H2 & H3 & H4); [|exact HB1|exact Hst].
        split; [done|]. split; [done|]. exists r'. split; [done|]. split; [done|]. split; [done|]. intros r0 Hr0. rewrite E in Hr0. injection Hr0 as <-.
        rewrite <- E1. apply H4. cbn. apply lookup_insert_eq. }
      destruct (bool_decide (host ∈ SplitHostnames r)) eqn:EM; injection HS as <- <-; simpl in HA; [|done].
      apply bool_decide_eq_true in EM. right. split; [done|]. exists r. by split; [|right].
  - split; [done|]. left. refine (add_needed_accepts _ _ _ _ _ _ _ _ _ _ _ _ _ _ _ Hst HA). by rewrite E.
Qed.

(** Without -new the callback adds nothing and writes nothing. *)
Lemma callback_keeps host remote now key one h files h' files' v :
  callback host remote now key false one h files = Ok (h', files', v) -> Hosts h' = Hosts h /\ files' = files.
Proof.
  unfold hostKeyCallback. intros ([[h1 f1] [[st rec] err]] & HA & H)%obind_ok.
  assert (Hosts h1 = Hosts h /\ f1 = files) as [<- <-]; [|by destruct err; injection H as <- <- <-].
  clear H. unfold HostAlreadyKnown, AddNeeded in HA.
  destruct (Hosts h !! _) as [r|] eqn:E; [|by injection HA as <- <- <- <- <-].
  destruct (ServerBanned r); [by injection HA as <- <- <- <- <-|]. rewrite andb_false_r in HA.
  destruct (negb _); [|by injection HA as <- <- <- <- <-].
  apply obind_ok in HA as ([r1 found] & HS & HA). unfold search_names in HS. apply obind_ok in HS as (r2 & HL & HS).
  unfold Lock in HL. destruct (Mut r) eqn:EM; [done|]. injection HL as <-. cbn in HS.
  destruct (bool_decide _); injection HS as <- <-; [|done]. cbn in HA. injection HA as <- <- <- <- <-.
  split; [|done]. cbn. rewrite insert_id; [done|]. rewrite E. f_equal. unfold set_Mut. destruct r. cbn in *. by rewrite EM.
Qed.

(** C17: The handshake goes on only with a server whose key is not banned: a key that is
    on record under the name that was dialled, and then the record stays as it is; or one
    that is put on record under that name, with the names it had, because adding new hosts
    and connecting at once were both asked for. *)
Theorem host_key_accepted host remote now key add one h files h' files' :
  hostKeyCallback K MarshalAuthorizedKey key_Marshal key_Type encode_hosts range can_open
    host remote now key add one h files = Ok (h', files', None) ->
  (forall r, Hosts h !! MarshalAuthorizedKey key = Some r -> ServerBanned r = false) /\
  ((add = true /\ one = true /\ recorded host (MarshalAuthorizedKey key) h h') \/
   (add = false /\ Hosts h' = Hosts h /\ files' = files /\
    exists r, Hosts h !! MarshalAuthorizedKey key = Some r /\ (Hostname r = host \/ host ∈ SplitHostnames r))).
Proof.
  intros H. destruct (callback_accepts _ _ _ _ _ _ _ _ _ _ H) as [HB [Ha|[-> Hr]]]; (split; [done|]); [by left|right].
  destruct (callback_keeps _ _ _ _ _ _ _ _ _ _ H) as [-> ->]. done.
Qed.

(** A name that the record of a known key does not list is never answered
    with a mismatch: the record's mutex, which the search left locked, is
    locked again, and the call does not return. With -new the same happens
    when the name is to be added, unless it is a local one. *)
Theorem host_mismatch_deadlocks host remote pub now key add one h files r :
  Hosts h !! pub = Some r -> ServerBanned r = false -> Mut r = false ->
  Hostname r <> host -> host ∉ SplitHostnames r -> localhost host && add = false ->
  HostAlreadyKnown K key_Marshal key_Type encode_hosts range can_open
    host remote pub now key add one h files = Blocked.
Proof.
  intros Hr HB HM Hh Hn Hl. unfold HostAlreadyKnown. rewrite Hr, HB, Hl.
  destruct (String.eqb_spec (Hostname r) host); [done|]. simpl.
  unfold search_names, Lock. rewrite HM. simpl. rewrite bool_decide_false by done. simpl.
  destruct add; [|done]. unfold AddNeeded. simpl. by rewrite lookup_insert_eq.
Qed.

(** The state KnownRecordMismatch is never returned. *)
Theorem mismatch_never_reported host remote pub now key add one h files h' files' st r e :
  HostAlreadyKnown K key_Marshal key_Type encode_hosts range can_open
    host remote pub now key add one h files = Ok (h', files', (st, r, e)) ->
  st <> KnownRecordMismatch.
Proof.
  unfold HostAlreadyKnown. destruct (Hosts h !! pub) as [rec|].
  - destruct (ServerBanned rec); [naive_solver|].
    destruct (localhost host && add).
    { intros [[_ ->]|[(_ & _ & ->)|(_ & -> & _)]]%add_needed_status; done. }
    destruct (negb _).
    + intros ([r1 found] & HS & HA)%obind_ok. destruct add.
      { apply add_needed_status in HA as [[_ ->]|[(_ & _ & ->)|(_ & -> & _)]]; done. }
      unfold search_names in HS. apply obind_ok in HS as (r2 & HL & HS).
      unfold Lock in HL. destruct (Mut rec); [done|]. injection HL as <-. simpl in HS.
      destruct (bool_decide _); injection HS as <- <-; simpl in HA; naive_solver.
    + destruct add; naive_solver.
  - intros [[_ ->]|[(_ & _ & ->)|(_ & -> & _)]]%add_needed_status; done.
Qed.

Lemma added_accepted host remote now key one h files h' files' d remote' now' :
  HostAlreadyKnown K key_Marshal key_Type encode_hosts range can_open
    host remote (MarshalAuthorizedKey key) now key true one h files = Ok (h', files', d) ->
  Hosts h !! MarshalAuthorizedKey key = None ->
  exists h'', hostKeyCallback K MarshalAuthorizedKey key_Marshal key_Type encode_hosts range can_open
    host remote' now' key false false h' files' = Ok (h'', files', None).
Proof.
  unfold HostAlreadyKnown at 1, AddNeeded. intros H Hn. rewrite Hn in H. simpl in H.
  apply obind_ok in H as ([h1 f1] & HS%Sync_same & H). simpl in HS.
  assert (h' = h1 /\ files' = f1) as [-> ->] by (destruct one; naive_solver).
  eapply same_hosts_lookup in HS as (r & Hr & HR); [|apply lookup_insert_eq].
  unfold same_record, new_record, set_AlreadySaved, set_names in HR. simpl in HR.
  injection HR as Hname Hhk Hban Hmk Hhs Hsp _ _ _ _ _ Hmut.
  unfold hostKeyCallback, HostAlreadyKnown. rewrite Hr, <- Hban, andb_false_r, <- Hname, String.eqb_refl.
  simpl. by eexists.
Qed.

(** The two calls of trust on first use: the first adds the key and refuses, the
    second accepts. *)
Lemma trust_on_first_use host remote now key h files h' files' v :
  callback host remote now key true false h files = Ok (h', files', v) ->
  Hosts h !! MarshalAuthorizedKey key = None ->
  v = Some (added_text remote) /\ is_Some (Hosts h' !! MarshalAuthorizedKey key) /\
  forall remote' now', exists h'', callback host remote' now' key false false h' files' = Ok (h'', files', None) /\ Hosts h'' = Hosts h'.
Proof.
  unfold hostKeyCallback at 1, HostAlreadyKnown, AddNeeded. intros H Hn. rewrite Hn in H. cbn [obind] in H.
  apply obind_ok in H as ([[h0 f0] [[st rec] err]] & H0 & H). apply obind_ok in H0 as ([h1 f1] & HS%Sync_same & H0).
  injection H0 as <- <- <- <- <-. injection H as <- <- <-. cbn [with_hosts Hosts] in HS.
  eapply same_hosts_lookup in HS as (r & Hr & HR); [|apply lookup_insert_eq].
  unfold same_record, new_record, set_AlreadySaved, set_names in HR. cbn in HR.
  injection HR as Hname Hhk Hban Hmk Hhs Hsp _ _ _ _ _ Hmut. split; [done|]. cbn [with_current Hosts]. split; [by eexists|].
  intros remote' now'. unfold hostKeyCallback, HostAlreadyKnown. cbn [with_current Hosts].
  rewrite Hr, <- Hban, andb_false_r, <- Hname, String.eqb_refl. cbn. by eexists.
Qed.

(** Trust on first use: once a new server was added, its key is accepted
    under the name it was added with, without -new. *)
Theorem added_host_is_known host remote now key one h files h' files' d remote' now' :
  HostAlreadyKnown K key_Marshal key_Type encode_hosts range can_open
    host remote (MarshalAuthorizedKey key) now key true one h files = Ok (h', files', d) ->
  Hosts h !! MarshalAuthorizedKey key = None ->
  exists h'', hostKeyCallback K MarshalAuthorizedKey key_Marshal key_Type encode_hosts range can_open
    host remote' now' key false false h' files' = Ok (h'', files', None).
Proof. apply added_accepted. Qed.
End KnownHostsFacts.

(** ** Equality *)

Definition view (v : ServerPubKey) : string * string * bool := (HumanKey v, Hostname v, ServerBanned v).

Lemma same_key_view v v2 : same_key v v2 = true <-> view v = view v2.
Proof.
  unfold same_key, view. rewrite !andb_true_iff, !String.eqb_eq, eqb_true_iff. split.
  - intros [[-> ->] ->]. done.
  - intros [= -> -> ->]. done.
Qed.

Lemma compare_keys_spec keys a b :
  compare_keys keys a b = Ok tt <->
  forall k v, k ∈ keys -> a !! k = Some v -> exists v2, b !! k = Some v2 /\ view v = view v2.
Proof.
  induction keys as [|k keys IH]; simpl.
  - split; [|done]. intros _ k v Hk. by apply elem_of_nil in Hk.
  - destruct (a !! k) as [v|] eqn:Ea.
    + destruct (b !! k) as [v2|] eqn:Eb.
      * destruct (same_key v v2) eqn:Es.
        -- rewrite IH. split.
           ++ intros H k' v' [->|Hk]%elem_of_cons Hv'; [|by apply H].
              exists v2. split; [done|]. apply same_key_view. congruence.
           ++ intros H k' v' Hk. apply H. by apply list_elem_of_further.
        -- split; [done|]. intros H. destruct (H k v) as (v2' & Hv2 & Hv); [apply list_elem_of_here|done|].
           assert (v2' = v2) as -> by congruence. apply same_key_view in Hv. congruence.
      * split; [done|]. intros H. destruct (H k v) as (v2' & Hv2 & _); [apply list_elem_of_here|done|].
        congruence.
    + rewrite IH. split.
      * intros H k' v' [->|Hk]%elem_of_cons Hv'; [congruence|by apply H].
      * intros H k' v' Hk. apply H. by apply list_elem_of_further.
Qed.

Lemma missing_keys_spec keys a : missing_keys keys a = Ok tt <-> forall k, k ∈ keys -> is_Some (a !! k).
Proof.
  induction keys as [|k keys IH]; simpl.
  - split; [|done]. intros _ k Hk. by apply elem_of_nil in Hk.
  - destruct (a !! k) as [v|] eqn:Ea.
    + rewrite IH. split; [intros H k' [->|Hk]%elem_of_cons; [by rewrite Ea|by apply H]|].
      intros H k' Hk. apply H. by apply list_elem_of_further.
    + split; [done|]. intros H. destruct (H k) as [v Hv]; [apply list_elem_of_here|congruence].
Qed.

(** [KnownHostsEqual] says yes exactly when the two have the same keys, each
    with the same human-readable key, hostname and ban, in whatever order the
    maps are ranged over. *)
Theorem known_hosts_equal_spec range a b :
  (forall X, range X ≡ₚ elements X) ->
  KnownHostsEqual range a b = Ok tt <-> view <$> Hosts a = view <$> Hosts b.
Proof.
  intros HR. unfold KnownHostsEqual. rewrite obind_ok.
  assert (forall k m, k ∈ range (dom m) <-> is_Some ((m : gmap string ServerPubKey) !! k)) as Hin.
  { intros k m. by rewrite (HR (dom m)), elem_of_elements, elem_of_dom. }
  split.
  - intros ([] & H1 & H2). rewrite compare_keys_spec in H1. rewrite missing_keys_spec in H2.
    apply map_eq. intros k. rewrite !lookup_fmap. destruct (Hosts a !! k) as [v|] eqn:Ea.
    + destruct (H1 k v) as (v2 & -> & Hv); [by apply Hin|done|]. simpl. by rewrite Hv.
    + destruct (Hosts b !! k) as [v2|] eqn:Eb; [|done].
      destruct (H2 k) as [v Hv]; [by apply Hin|congruence].
  - intros H. assert (forall k, view <$> Hosts a !! k = view <$> Hosts b !! k) as Hk
      by (intros k; rewrite <- !lookup_fmap; by rewrite H).
    exists tt. rewrite compare_keys_spec, missing_keys_spec. split.
    + intros k v _ Hv. specialize (Hk k). rewrite Hv in Hk. simpl in Hk.
      destruct (Hosts b !! k) as [v2|]; [|done]. injection Hk as Hk. exists v2. split; [done|].
      unfold view. congruence.
    + intros k [v Hv]%Hin. specialize (Hk k). rewrite Hv in Hk. simpl in Hk.
      by destruct (Hosts a !! k).
Qed.

(** ** What is written reads back *)

(** A host or port without the characters that mean something in the file. *)
Definition plain_char (c : ascii) : bool :=
  negb (in_set (" ,:[]@#|" +:+ nl) c).
Definition plain (s : string) : bool := negb (s =? "")%string && sall plain_char s.

Lemma plain_lacks c s : in_set (" ,:[]@#|" +:+ nl) c = true -> sall plain_char s = true -> lacks c s = true.
Proof.
  intros Hc H. eapply sall_impl; [|exact H]. intros d Hd. unfold plain_char in Hd.
  apply negb_true_iff, Ascii.eqb_neq. intros ->. by rewrite Hc in Hd.
Qed.

Lemma remove_byte_app c a b : remove_byte c (a +:+ b) = remove_byte c a +:+ remove_byte c b.
Proof. induction a as [|d a IH]; simpl; [done|]. destruct (Ascii.eqb d c); by rewrite IH. Qed.

Lemma string_last s : s <> "" -> exists s' d, s = s' +:+ String d "".
Proof.
  induction s as [|c s IH]; [done|]. intros _. destruct s as [|d s]; [by exists "", c|].
  destruct IH as (s' & e & ->); [done|]. by exists (String c s'), e.
Qed.

(** Nothing to trim around a first character and a last word without spaces. *)
Lemma Trim_words c s w :
  Ascii.eqb c " " = false -> lacks " " w = true -> w <> "" ->
  Trim (String c (s +:+ w)) " " = String c (s +:+ w).
Proof.
  intros Hc Hw Hne. destruct (string_last w Hne) as (w' & d & ->).
  rewrite lacks_app in Hw. bool_prop. rewrite <- string_app_assoc. apply Trim_id.
  - cbn [in_set]. by destruct (Ascii.eqb_spec " " c) as [<-|].
  - rewrite lacks_cons in H0. bool_prop. cbn [in_set]. by destruct (Ascii.eqb_spec " " d) as [<-|].
Qed.

Lemma split_host_name h p :
  plain h = true -> plain p = true ->
  exists name, one_name (h +:+ ":" +:+ p) = Ok name /\ (forall port, split_host name port = Ok (h, p)) /\
    lacks " " name = true /\ lacks "," name = true /\ lacks nl_byte name = true /\
    exists c rest, name = String c rest /\ Ascii.eqb c "#" || Ascii.eqb c "|" = false /\
                   Ascii.eqb c "@" = false /\ Ascii.eqb c " " = false.
Proof.
  unfold plain. intros [Hh0 Hh]%andb_true_iff [Hp0 Hp]%andb_true_iff.
  assert (Split ":" (h +:+ ":" +:+ p) = [h; p]) as HS.
  { change (h +:+ ":" +:+ p) with (h +:+ String ":" p). rewrite Split_app by (by apply plain_lacks).
    by rewrite lacks_Split by (by apply plain_lacks). }
  unfold one_name. rewrite HS. destruct h as [|c h]; [done|]. simpl in Hh.
  apply andb_true_iff in Hh as [Hc Hh].
  assert (forall x, in_set (" ,:[]@#|" +:+ nl) x = true -> Ascii.eqb c x = false) as Hcx.
  { intros x Hx. destruct (Ascii.eqb_spec c x) as [->|]; [|done]. unfold plain_char in Hc. by rewrite Hx in Hc. }
  assert (sall plain_char (String c h) = true) as Hch by (simpl; by rewrite Hc).
  destruct (String.eqb_spec p "22") as [->|Hp22]; eexists; (split; [reflexivity|]).
  - split.
    { intros port. unfold split_host. change (String c h +:+ ":" +:+ "22") with (String c (h +:+ ":" +:+ "22")) in *.
      cbv beta iota. rewrite (Hcx "["%char) by reflexivity. by rewrite HS. }
    split_and!; [rewrite !lacks_app, (plain_lacks " " (String c h)) by done; done
      |rewrite !lacks_app, (plain_lacks "," (String c h)) by done; done
      |rewrite !lacks_app, (plain_lacks nl_byte (String c h)) by done; done|].
    exists c, (h +:+ ":" +:+ "22"). split; [done|]. by rewrite !Hcx.
  - split.
    { intros port. change ("[" +:+ String c h +:+ "]:" +:+ p) with (String "[" (String c h +:+ "]:" +:+ p)).
      unfold split_host. change (Ascii.eqb "[" "[") with true. cbv beta iota.
      rewrite !remove_byte_app. rewrite (remove_byte_lacks "]" (String c h)) by (by apply plain_lacks).
      rewrite (remove_byte_lacks "]" p) by (by apply plain_lacks).
      change (remove_byte "]" "]:") with ":". by rewrite HS. }
    split_and!; [by rewrite !lacks_app, (plain_lacks " " (String c h)), (plain_lacks " " p)
      |by rewrite !lacks_app, (plain_lacks "," (String c h)), (plain_lacks "," p)
      |by rewrite !lacks_app, (plain_lacks nl_byte (String c h)), (plain_lacks nl_byte p)|].
    by exists "["%char, (String c h +:+ "]:" +:+ p).
Qed.

(** A line of four words, taken apart. *)
Lemma words_line c rest ty b64 comment :
  let words := " " +:+ ty +:+ " " +:+ b64 +:+ " " +:+ comment in
  lacks " " (String c rest) = true -> lacks " " ty = true -> lacks " " b64 = true -> lacks " " comment = true ->
  lacks nl_byte (String c rest) = true -> lacks nl_byte ty = true -> lacks nl_byte b64 = true ->
  lacks nl_byte comment = true -> comment <> "" ->
  lacks nl_byte (String c (rest +:+ words)) = true /\
  Split " " (String c (rest +:+ words)) = [String c rest; ty; b64; comment] /\
  Trim (String c (rest +:+ words)) " " = String c (rest +:+ words).
Proof.
  intros words H1 H2 H3 H4 N1 N2 N3 N4 Hne. change (String c (rest +:+ words)) with (String c rest +:+ words).
  split_and!.
  - unfold words. by rewrite !lacks_app, N1, N2, N3, N4.
  - unfold words. change (" " +:+ ty +:+ " " +:+ b64 +:+ " " +:+ comment)
      with (String " " (ty +:+ String " " (b64 +:+ String " " comment))).
    rewrite !Split_app by done. by rewrite lacks_Split.
  - rewrite lacks_cons in H1. apply andb_true_iff in H1 as [Hc%negb_true_iff _].
    change (String c rest +:+ words) with (String c (rest +:+ words)). unfold words.
    rewrite <- !string_app_assoc. by apply Trim_words.
Qed.

(** A host that was added is written as a line that reads back: the file
    gives the same key, hostname, names and ban. *)
Theorem known_hosts_file_roundtrip (K : Type) ParsePublicKey MarshalAuthorizedKey key_Marshal key_Type
    range (key : K) h p now path :
  plain h = true -> plain p = true ->
  lacks " " (key_Type key) = true -> lacks nl_byte (key_Type key) = true ->
  lacks " " now = true -> lacks nl_byte now = true ->
  ParsePublicKey (key_Marshal key) = Ok key ->
  let host := h +:+ ":" +:+ p in
  let r := new_record K key_Marshal key_Type host (MarshalAuthorizedKey key) now key in
  exists line r', saved_line range r = Ok line /\
    LoadSshKnownHosts K ParsePublicKey MarshalAuthorizedKey (fun _ => Some line) path =
      Ok (mkHosts {[MarshalAuthorizedKey key := r']} Unknown None path "" KHSsh false) /\
    view r' = view r /\ SplitHostnames r' = SplitHostnames r /\ Keytype r' = Keytype r /\
    Base64EncodededPublicKey r' = Base64EncodededPublicKey r.
Proof.
  intros Hh Hp Ht Htn Hnow Hnown HP host r.
  destruct (split_host_name h p Hh Hp) as (name & Hn & Hsplit & Hsp & Hco & Hnl & c & rest & -> & Hc1 & Hc2 & Hc3).
  set (b64 := Base64.encode (key_Marshal key)).
  assert (Base64.decode b64 = Some (key_Marshal key)) as HD by apply decode_encode.
  assert (lacks " " b64 = true /\ lacks nl_byte b64 = true) as [Hb1 Hb2]
    by (split; by apply encode_lacks).
  set (comment := "added_by_sshego_on_" +:+ now).
  set (words := " " +:+ key_Type key +:+ " " +:+ b64 +:+ " " +:+ comment).
  assert (saved_line range r = Ok (String c (rest +:+ words) +:+ String nl_byte "")) as Hline.
  { unfold saved_line. simpl SplitHostnames. rewrite size_singleton. simpl Nat.eqb. cbv iota.
    simpl Hostname. unfold host. rewrite Hn. unfold words, comment, b64. simpl.
    by repeat first [progress simpl | rewrite string_app_assoc]. }
  assert (lacks " " comment = true /\ lacks nl_byte comment = true) as [Hcm1 Hcm2]
    by (unfold comment; rewrite !lacks_app, Hnow, Hnown; done).
  destruct (words_line c rest (key_Type key) b64 comment) as (Hlnl & Hwords & Htrim); try done. fold words in Hlnl, Hwords, Htrim.
  eexists _, _. split; [exact Hline|]. split.
  - unfold LoadSshKnownHosts. rewrite Split_app by done.
    change (Split nl_byte "") with [""]. cbn [load_lines].
    assert (forall m, load_line K ParsePublicKey MarshalAuthorizedKey path (0 + 1) "" m = Ok m) as Hempty
      by done.
    unfold load_line at 1. rewrite Htrim. cbv beta iota. rewrite Hc1, Hwords, Hc2. cbv beta iota.
    cbn [List.length Nat.ltb Nat.leb orb andb Nat.add]. cbv beta iota zeta.
    change (default "" ([String c rest; key_Type key; b64; comment] !! 3%nat)) with comment.
    unfold field. cbn [lookup list_lookup obind]. 
    rewrite (lacks_Split "," (String c rest)) by done.
    cbn [fill_names Port obind]. rewrite Hsplit. cbn [obind fill_names enter_hosts].
    unfold enter_host. cbn [Port set_names set_host]. rewrite Hsplit. cbn [obind].
    cbn [Base64EncodededPublicKey set_names set_host]. rewrite HD, HP, lookup_empty.
    cbn [obind]. rewrite Hempty. cbn [obind]. rewrite insert_empty. reflexivity.
  - unfold view. simpl. split_and!; try done. set_solver.
Qed.

(** ** Concrete instances *)

Definition demo_parse (s : string) : outcome string := if (s =? "")%string then Err "short read" else Ok s.
Definition demo_auth_key (k : string) : string := "ssh-rsa " +:+ k.
Definition demo_range (X : gset string) : list string := elements X.
Definition demo_hosts : KnownHosts := mkHosts ∅ Unknown None "/kh" "" KHSsh false.
Definition demo_callback (host : string) (key : string) (add one : bool) (h : KnownHosts) (files : disk) :=
  hostKeyCallback string demo_auth_key (fun k => k) (fun _ => "ssh-rsa") (fun _ => "db") demo_range
    (fun _ => true) host "1.2.3.4:22" "2017-01-01" key add one h files.
Definition demo_known (host : string) (key : string) (add one : bool) (h : KnownHosts) (files : disk) :=
  HostAlreadyKnown string (fun k => k) (fun _ => "ssh-rsa") (fun _ => "db") demo_range (fun _ => true)
    host "1.2.3.4:22" (demo_auth_key key) "2017-01-01" key add one h files.

(** The client's state after adding a first server. *)
Definition demo_added : KnownHosts * disk :=
  match demo_callback "db.example.com:22" "K1" true false demo_hosts ∅ with
  | Ok (h, files, _) => (h, files)
  | _ => (demo_hosts, ∅)
  end.

(** The port of one name of a line is kept for the names after it that
    have none: of two hosts of which the first listens on port 2222, the second
    is entered with that port too. And a marker other than the two that are
    skipped takes a field, so that a line of three fields is read out of range. *)
Theorem load_line_ports_and_markers :
  (exists v, load_line string demo_parse demo_auth_key "kh" 0 "[a]:2222,b ssh-rsa SzE=" ∅ =
               Ok {[demo_auth_key "K1" := v]} /\
             SplitHostnames v = {["a:2222"; "b:2222"]}) /\
  load_line string demo_parse demo_auth_key "kh" 0 "@mark a ssh-rsa" ∅ = Panic "index out of range".
Proof.
  split; [|reflexivity]. eexists. split; [vm_compute; reflexivity|]. vm_compute. reflexivity.
Qed.

(** A new server is added and connected to at once, then connected to without -new. *)
Definition demo_first : KnownHosts * disk :=
  match demo_callback "db.example.com:22" "K1" true true demo_hosts ∅ with Ok (h, f, _) => (h, f) | _ => (demo_hosts, ∅) end.

Lemma host_key_accepted_witness :
  recorded "db.example.com:22" (demo_auth_key "K1") demo_hosts demo_first.1 /\
  exists r, Hosts demo_added.1 !! demo_auth_key "K1" = Some r /\
    (Hostname r = "db.example.com:22" \/ "db.example.com:22" ∈ SplitHostnames r).
Proof.
  split.
  - destruct (host_key_accepted string demo_auth_key (fun k => k) (fun _ => "ssh-rsa") (fun _ => "db")
      demo_range (fun _ => true) "db.example.com:22" "1.2.3.4:22" "2017-01-01" "K1" true true demo_hosts ∅ demo_first.1 demo_first.2)
      as [_ [(_ & _ & H)|[H _]]]; [vm_compute; reflexivity|exact H|discriminate].
  - destruct (host_key_accepted string demo_auth_key (fun k => k) (fun _ => "ssh-rsa") (fun _ => "db")
      demo_range (fun _ => true) "db.example.com:22" "1.2.3.4:22" "2017-01-01" "K1" false false
      demo_added.1 demo_added.2
      (with_current KnownOK (Hosts demo_added.1 !! demo_auth_key "K1") demo_added.1) demo_added.2)
      as [_ [[H _]|(_ & _ & _ & H)]]; [vm_compute; reflexivity|discriminate|exact H].
Defined.

Lemma host_mismatch_deadlocks_witness :
  demo_known "other.example.com:22" "K1" false false demo_added.1 demo_added.2 = Blocked.
Proof.
  destruct (Hosts demo_added.1 !! demo_auth_key "K1") as [r|] eqn:E; [|vm_compute in E; discriminate].
  apply (host_mismatch_deadlocks string (fun k => k) (fun _ => "ssh-rsa") (fun _ => "db") demo_range
    (fun _ => true) _ _ _ _ _ _ _ _ _ r E); vm_compute in E; injection E as <-; try reflexivity.
  - vm_compute. discriminate.
  - apply (bool_decide_unpack _). vm_compute. exact I.
Defined.

Lemma mismatch_never_reported_witness : Unknown <> KnownRecordMismatch.
Proof.
  refine (mismatch_never_reported string demo_auth_key (fun k => k) (fun _ => "ssh-rsa") (fun _ => "db") demo_range
    (fun _ => true) "x:22" "1.2.3.4:22" (demo_auth_key "K2") "2017-01-01" "K2" false false
    demo_hosts ∅ demo_hosts ∅ Unknown None None _).
  vm_compute. reflexivity.
Defined.

Lemma added_host_is_known_witness :
  exists h'', demo_callback "db.example.com:22" "K1" false false demo_added.1 demo_added.2 =
    Ok (h'', demo_added.2, None).
Proof.
  destruct (demo_known "db.example.com:22" "K1" true false demo_hosts ∅) as [[[h f] d]|e|s|] eqn:E;
    [|vm_compute in E; discriminate..].
  destruct (added_host_is_known string demo_auth_key (fun k => k) (fun _ => "ssh-rsa") (fun _ => "db")
    demo_range (fun _ => true) "db.example.com:22" "1.2.3.4:22" "2017-01-01" "K1" false demo_hosts ∅
    h f d "1.2.3.4:22" "2017-01-01" E) as [h'' H]; [vm_compute; reflexivity|].
  eexists. vm_compute. reflexivity.
Defined.

Lemma known_hosts_equal_spec_witness : KnownHostsEqual demo_range demo_hosts demo_added.1 <> Ok tt.
Proof.
  rewrite (known_hosts_equal_spec demo_range); [|reflexivity]. intros H.
  apply (f_equal (fun m => m !! demo_auth_key "K1")) in H. vm_compute in H. discriminate.
Defined.

Lemma known_hosts_file_roundtrip_witness :
  exists line, saved_line demo_range
    (new_record string (fun k => k) (fun _ => "ssh-rsa") "a.b:2222" (demo_auth_key "K1") "2017" "K1") = Ok line.
Proof.
  destruct (known_hosts_file_roundtrip string demo_parse demo_auth_key (fun k => k) (fun _ => "ssh-rsa")
    demo_range "K1" "a.b" "2222" "2017" "kh") as (line & r' & H & _); try reflexivity.
  exists line. exact H.
Defined.
