(* ===== verification/Halter.v ===== *)
(** Lifecycles (xendor/github.com/glycerine/xcryptossh/halter.go): channels
    that are closed once, halters and the propagation of stop requests through
    the graph of halters, and the link between a context and a halter. *)
From S2P Require Import Prelude.

(** ** IdemCloseChan *)

(** [Chan] tells whether the channel is closed: closing it again panics. *)
Record IdemCloseChan := mkIdem { Chan : bool; closed : bool }.

Definition NewIdemCloseChan : IdemCloseChan := mkIdem false false.
Definition Reinit (c : IdemCloseChan) : IdemCloseChan := mkIdem false false.
Definition ErrAlreadyClosed : string := "Chan already closed".

(** [Close]: the channel afterwards, and the error returned. *)
Definition Close (c : IdemCloseChan) : outcome (IdemCloseChan * option string) :=
  if closed c then Ok (c, Some ErrAlreadyClosed)
  else if Chan c then Panic "close of closed channel"
  else Ok (mkIdem true true, None).

Definition IsClosed (c : IdemCloseChan) : bool := closed c.

(** The flag and the channel agree. *)
Definition wf_chan (c : IdemCloseChan) : Prop := Chan c = closed c.

(** ** Halters *)

(** A halter's address. *)
Abbreviation hid := nat (only parsing).

Record Halter := mkHalter {
  ready : IdemCloseChan;
  done : IdemCloseChan;
  reqStop : IdemCloseChan;
  err : option string;
  upstream : gset nat;
  downstream : gset nat;
}.

Definition NewHalter : Halter :=
  mkHalter NewIdemCloseChan NewIdemCloseChan NewIdemCloseChan None ∅ ∅.

Definition set_ready (c : IdemCloseChan) (h : Halter) : Halter :=
  mkHalter c (done h) (reqStop h) (err h) (upstream h) (downstream h).
Definition set_done (c : IdemCloseChan) (h : Halter) : Halter :=
  mkHalter (ready h) c (reqStop h) (err h) (upstream h) (downstream h).
Definition set_reqStop (c : IdemCloseChan) (h : Halter) : Halter :=
  mkHalter (ready h) (done h) c (err h) (upstream h) (downstream h).
Definition SetErr (e : option string) (h : Halter) : Halter :=
  mkHalter (ready h) (done h) (reqStop h) e (upstream h) (downstream h).
Definition set_upstream (u : gset nat) (h : Halter) : Halter :=
  mkHalter (ready h) (done h) (reqStop h) (err h) u (downstream h).
Definition set_downstream (d : gset nat) (h : Halter) : Halter :=
  mkHalter (ready h) (done h) (reqStop h) (err h) (upstream h) d.

(** All halters of the program, and those whose [mut] the goroutine at hand
    holds. *)
Record world := mkWorld { halters : gmap nat Halter; held : gset nat }.

Definition nil_pointer : string := "invalid memory address or nil pointer dereference".

Definition get (h : hid) (w : world) : outcome Halter :=
  match halters w !! h with Some x => Ok x | None => Panic nil_pointer end.
Definition put (h : hid) (x : Halter) (w : world) : world := mkWorld (<[h := x]> (halters w)) (held w).
Definition lock (h : hid) (w : world) : outcome world :=
  if bool_decide (h ∈ held w) then Blocked else Ok (mkWorld (halters w) ({[h]} ∪ held w)).
Definition unlock (h : hid) (w : world) : world := mkWorld (halters w) (held w ∖ {[h]}).

(** [h.f] inside [h.mut.Lock()] and [h.mut.Unlock()]. *)
Definition locked (h : hid) (f : Halter -> Halter) (w : world) : outcome world :=
  let? w := lock h w in
  let? x := get h w in
  Ok (unlock h (put h (f x) w)).

Definition addUpstream (h u : hid) (w : world) : outcome world :=
  locked h (fun x => set_upstream ({[u]} ∪ upstream x) x) w.
Definition removeUpstream (h u : hid) (w : world) : outcome world :=
  locked h (fun x => set_upstream (upstream x ∖ {[u]}) x) w.

Definition AddDownstream (h d : hid) (w : world) : outcome world :=
  let? w := locked h (fun x => set_downstream ({[d]} ∪ downstream x) x) w in
  addUpstream d h w.
Definition RemoveDownstream (h d : hid) (w : world) : outcome world :=
  let? w := locked h (fun x => set_downstream (downstream x ∖ {[d]}) x) w in
  removeUpstream d h w.

(** A close whose error is ignored. *)
Definition close_reqStop (h : hid) (w : world) : outcome world :=
  let? x := get h w in
  let? '(c, _) := Close (reqStop x) in
  Ok (put h (set_reqStop c x) w).
Definition close_done (h : hid) (w : world) : outcome world :=
  let? x := get h w in
  let? '(c, _) := Close (done x) in
  Ok (put h (set_done c x) w).
Definition MarkReady (h : hid) (w : world) : outcome world :=
  let? x := get h w in
  let? '(c, _) := Close (ready x) in
  Ok (put h (set_ready c x) w).

(** A loop over a set that stops at the first call that does not return. *)
Fixpoint each (f : nat -> world -> outcome world) (l : list nat) (w : world) : outcome world :=
  match l with
  | [] => Ok w
  | d :: l => let? w := f d w in each f l w
  end.

(** [RequestStop]. The call tells the halters downstream while it holds its
    own lock, so that the depth of the recursion is bounded by their number;
    a call without fuel stands for one that does not return. *)
Fixpoint RequestStop (fuel : nat) (h : hid) (w : world) : outcome world :=
  match fuel with
  | O => Blocked
  | S fuel =>
      let? w := close_reqStop h w in
      let? w := lock h w in
      let? x := get h w in
      let? w := each (RequestStop fuel) (elements (downstream x)) w in
      Ok (unlock h w)
  end.

(** One halter downstream: waited for while it is not done. *)
Definition wait_done (h d : hid) (w : world) : outcome world :=
  let? x := get d w in
  if Chan (done x) then removeUpstream d h w else Blocked.

Definition waitForDownstreamDone (h : hid) (w : world) : outcome world :=
  let? w := lock h w in
  let? x := get h w in
  let? w := each (wait_done h) (elements (downstream x)) w in
  Ok (unlock h w).

Definition MarkDone (fuel : nat) (h : hid) (w : world) : outcome world :=
  let? w := RequestStop fuel h w in
  let? w := waitForDownstreamDone h w in
  close_done h w.

Definition MarkDoneNoBlock (fuel : nat) (h : hid) (w : world) : outcome world :=
  let? w := RequestStop fuel h w in
  close_done h w.

Record RunStatus := mkStatus {
  Ready : bool;
  StopRequested : bool;
  Done : bool;
  Err_ : option string;
}.

Definition Status (h : Halter) : RunStatus :=
  mkStatus (IsClosed (ready h)) (IsClosed (reqStop h)) (IsClosed (done h))
    (if IsClosed (done h) then err h else None).

(** ** MAD: a context and a halter end each other *)

(** The goroutine's variables: the three channels it still selects on, whether
    [cancelctx] is still to be called, and the two flags; [cancels] counts the
    calls of [cancelctx]. *)
Record mad := mkMad {
  cchan : bool;
  hchan1 : bool;
  hchan2 : bool;
  cancelctx : bool;
  cDone : bool;
  hDone : bool;
  cancels : nat;
}.

Definition mad_init (hasCancel : bool) : mad := mkMad true true true hasCancel false false 0.

(** The environment: the context is cancelled, the halter's two channels. *)
Record mad_env := mkEnv { ctx_done : bool; h_reqStop : IdemCloseChan; h_done : IdemCloseChan }.

Definition halt_case (m : mad) : mad :=
  mkMad (cchan m) false false false (cDone m) true (if cancelctx m then S (cancels m) else cancels m).

(** One turn of the loop; [cancelctx] cancels the context. *)
Inductive mad_step : mad * mad_env -> mad * mad_env -> Prop :=
| mad_ctx m e r d :
    cDone m && hDone m = false -> cchan m = true -> ctx_done e = true ->
    fst <$> (match Close (h_reqStop e) with Ok p => Some p | _ => None end) = Some r ->
    fst <$> (match Close (h_done e) with Ok p => Some p | _ => None end) = Some d ->
    mad_step (m, e) (mkMad false (hchan1 m) (hchan2 m) (cancelctx m) true (hDone m) (cancels m),
                     mkEnv (ctx_done e) r d)
| mad_req m e :
    cDone m && hDone m = false -> hchan1 m = true -> Chan (h_reqStop e) = true ->
    mad_step (m, e) (halt_case m, mkEnv (cancelctx m || ctx_done e) (h_reqStop e) (h_done e))
| mad_done m e :
    cDone m && hDone m = false -> hchan2 m = true -> Chan (h_done e) = true ->
    mad_step (m, e) (halt_case m, mkEnv (cancelctx m || ctx_done e) (h_reqStop e) (h_done e))
| mad_cancelled m e :
    mad_step (m, e) (m, mkEnv true (h_reqStop e) (h_done e))
| mad_stopped m e r :
    fst <$> (match Close (h_reqStop e) with Ok p => Some p | _ => None end) = Some r ->
    mad_step (m, e) (m, mkEnv (ctx_done e) r (h_done e)).

(** ** A channel is closed once *)

Lemma Close_wf c : wf_chan c -> exists e, Close c = Ok (mkIdem true true, e) /\ wf_chan (mkIdem true true).
Proof.
  unfold wf_chan, Close. destruct c as [ch cl]; simpl. intros ->. destruct cl; eauto.
Qed.

(** [Close] may be called again and again: it never closes the channel a
    second time, which would panic, and it says so from the second call on. *)
Theorem close_idempotent c :
  wf_chan c ->
  exists c1 e1, Close c = Ok (c1, e1) /\ IsClosed c1 = true /\ Chan c1 = true /\
    (e1 = None <-> IsClosed c = false) /\ Close c1 = Ok (c1, Some ErrAlreadyClosed) /\ wf_chan (Reinit c1).
Proof.
  unfold wf_chan, Close, IsClosed. destruct c as [ch cl]; simpl. intros ->. destruct cl; simpl.
  - eexists _, _. split; [reflexivity|]. by split_and!.
  - eexists _, _. split; [reflexivity|]. by split_and!.
Qed.

Lemma close_idempotent_witness :
  exists c1 e1, Close NewIdemCloseChan = Ok (c1, e1) /\ IsClosed c1 = true.
Proof.
  destruct (close_idempotent NewIdemCloseChan eq_refl) as (c1 & e1 & H1 & H2 & _).
  exists c1, e1. split; [exact H1|exact H2].
Defined.

(** ** Stop requests reach exactly the halters downstream *)

Definition edge (m : gmap nat Halter) (x y : nat) : Prop :=
  exists hx, m !! x = Some hx /\ y ∈ downstream hx.

(** Channels are as they should be, and no pointer dangles. *)
Definition wf_halter (x : Halter) : Prop :=
  wf_chan (ready x) /\ wf_chan (done x) /\ wf_chan (reqStop x).
Definition wf_world (m : gmap nat Halter) : Prop :=
  (forall k x, m !! k = Some x -> wf_halter x) /\ (forall x y, edge m x y -> is_Some (m !! y)).

Definition stopped (x : Halter) : Halter := set_reqStop (mkIdem true true) x.

Lemma stopped_idem x : stopped (stopped x) = stopped x.
Proof. done. Qed.

(** The halters of [P] are told to stop, and nothing else changes. *)
Definition effect (m m' : gmap nat Halter) (P : nat -> Prop) : Prop :=
  forall k, (P k -> m' !! k = stopped <$> m !! k) /\
            (m' !! k = m !! k \/ (P k /\ m' !! k = stopped <$> m !! k)).

Lemma effect_refl m P : (forall k, ~ P k) -> effect m m P.
Proof. intros H k. split; [by intros ?%H|by left]. Qed.

Lemma effect_weaken m m' (P Q : nat -> Prop) : (forall k, P k <-> Q k) -> effect m m' P -> effect m m' Q.
Proof. intros HPQ H k. destruct (H k) as [H1 H2]. rewrite <- HPQ. done. Qed.

Lemma effect_trans m1 m2 m3 P Q :
  effect m1 m2 P -> effect m2 m3 Q -> effect m1 m3 (fun k => P k \/ Q k).
Proof.
  intros H1 H2 k. destruct (H1 k) as [A1 B1], (H2 k) as [A2 B2].
  assert (stopped <$> (stopped <$> m1 !! k) = stopped <$> m1 !! k) as Hi by (by destruct (m1 !! k)).
  split.
  - intros [HP|HQ].
    + rewrite (A1 HP) in B2. destruct B2 as [->|[_ ->]]; [done|exact Hi].
    + rewrite (A2 HQ). destruct B1 as [->|[_ ->]]; [done|exact Hi].
  - destruct B2 as [->|[HQ ->]], B1 as [->|[HP ->]]; [by left|right; by split; [left|]|right; by split; [right|]|].
    right. split; [by left|exact Hi].
Qed.

Lemma effect_edge m m' P x y : effect m m' P -> edge m' x y <-> edge m x y.
Proof.
  intros H. unfold edge. destruct (H x) as [_ [->|[_ ->]]]; [done|].
  destruct (m !! x) as [hx|]; simpl; split; intros (z & Hz & Hy); simplify_eq; eauto.
Qed.

Lemma effect_wf m m' P : effect m m' P -> wf_world m -> wf_world m'.
Proof.
  intros H [HW HE]. split.
  - intros k x Hk. destruct (H k) as [_ [E|[_ E]]]; rewrite E in Hk; [by eapply HW|].
    destruct (m !! k) as [z|] eqn:Ez; [|done]. injection Hk as <-.
    destruct (HW k z Ez) as (? & ? & ?). done.
  - intros x y Hxy%(effect_edge _ _ _ _ _ H)%HE. destruct (H y) as [_ [->|[_ ->]]]; [done|].
    by rewrite fmap_is_Some.
Qed.

Lemma rtc_effect m m' P x y : effect m m' P -> rtc (edge m') x y <-> rtc (edge m) x y.
Proof.
  intros H. split; induction 1 as [|a b c Hab Hbc IH]; try done;
    (eapply rtc_l; [|exact IH]); by apply (effect_edge _ _ _ _ _ H).
Qed.

Lemma close_reqStop_effect h w :
  wf_world (halters w) -> is_Some (halters w !! h) ->
  exists w', close_reqStop h w = Ok w' /\ held w' = held w /\ effect (halters w) (halters w') (eq h).
Proof.
  intros [HW _] [x Hx]. unfold close_reqStop, get. rewrite Hx. simpl.
  destruct (HW h x Hx) as (_ & _ & Hc). destruct (Close_wf _ Hc) as (e & -> & _). simpl.
  eexists. split; [reflexivity|]. split; [done|]. intros k. simpl.
  destruct (decide (h = k)) as [<-|Hne].
  - rewrite lookup_insert_eq, Hx. split; [done|]. by right.
  - rewrite lookup_insert_ne by done. split; [done|by left].
Qed.

Section Acyclic.
(** A ranking of the halters that falls along every edge. *)
Context (rank : nat -> nat).

Definition ranked (m : gmap nat Halter) : Prop := forall x y, edge m x y -> (rank y < rank x)%nat.

Lemma each_effect fuel l m0 w :
  (forall d w, d ∈ l -> (forall x y, edge (halters w) x y <-> edge m0 x y) -> wf_world (halters w) ->
     (forall x, x ∈ held w -> (rank d < rank x)%nat) ->
     exists w', RequestStop fuel d w = Ok w' /\ held w' = held w /\
                effect (halters w) (halters w') (rtc (edge (halters w)) d)) ->
  (forall x y, edge (halters w) x y <-> edge m0 x y) -> wf_world (halters w) ->
  (forall d x, d ∈ l -> x ∈ held w -> (rank d < rank x)%nat) ->
  exists w', each (RequestStop fuel) l w = Ok w' /\ held w' = held w /\
             effect (halters w) (halters w') (fun k => exists d, d ∈ l /\ rtc (edge (halters w)) d k).
Proof.
  revert w. induction l as [|d l IH]; intros w HR HE HW Hh; simpl.
  - exists w. split_and!; try done. apply effect_refl. intros k (d & Hd & _). by apply elem_of_nil in Hd.
  - destruct (HR d w) as (w1 & -> & H1 & E1); [apply list_elem_of_here|done..| |].
    { intros x Hx. apply Hh; [apply list_elem_of_here|done]. }
    simpl. destruct (IH w1) as (w2 & H2 & H2' & E2).
    + intros d' w' Hd'. apply HR. by apply list_elem_of_further.
    + intros x y. by rewrite (effect_edge _ _ _ _ _ E1).
    + by eapply effect_wf.
    + rewrite H1. intros d' x Hd' Hx. apply Hh; [by apply list_elem_of_further|done].
    + exists w2. split; [done|]. split; [congruence|].
      eapply effect_weaken; [|by eapply effect_trans]. intros k. simpl.
      setoid_rewrite (rtc_effect _ _ _ _ _ E1). split.
      * intros [Hk|(d' & Hd' & Hk)]; [exists d|exists d']; split; try done;
          [apply list_elem_of_here|by apply list_elem_of_further].
      * intros (d' & [->|Hd']%elem_of_cons & Hk); [by left|right; by exists d'].
Qed.

Lemma RequestStop_effect fuel h w :
  ranked (halters w) -> wf_world (halters w) -> is_Some (halters w !! h) -> (rank h < fuel)%nat ->
  (forall x, x ∈ held w -> (rank h < rank x)%nat) ->
  exists w', RequestStop fuel h w = Ok w' /\ held w' = held w /\
             effect (halters w) (halters w') (rtc (edge (halters w)) h).
Proof.
  revert h w. induction fuel as [|fuel IH]; intros h w HR HW Hh Hf Hheld; [lia|]. simpl.
  destruct (close_reqStop_effect h w HW Hh) as (w1 & -> & Hh1 & E1). simpl.
  unfold lock. rewrite bool_decide_false by (rewrite Hh1; intros Hin; specialize (Hheld h Hin); lia).
  simpl. unfold get. simpl. destruct Hh as [x Hx]. destruct (E1 h) as [E1h _].
  rewrite E1h, Hx by done. simpl.
  set (w2 := mkWorld (halters w1) ({[h]} ∪ held w1)).
  destruct (each_effect fuel (elements (downstream x)) (halters w) w2) as (w3 & -> & H3 & E3).
  - intros d w' Hd%elem_of_elements HE' HW' Hheld'. assert (edge (halters w) h d) as Hed by (by exists x).
    apply IH; [| |apply (proj2 HW' h d); by apply HE'| |done].
    + intros a b Hab%HE'. by apply HR.
    + done.
    + specialize (HR h d Hed). lia.
  - intros a b. apply (effect_edge _ _ _ _ _ E1).
  - by eapply effect_wf.
  - intros d y Hd%elem_of_elements Hy. assert (rank d < rank h)%nat by (apply HR; by exists x).
    simpl in Hy. apply elem_of_union in Hy as [->%elem_of_singleton|Hy]; [done|].
    rewrite Hh1 in Hy. specialize (Hheld y Hy). lia.
  - simpl. eexists. split; [reflexivity|]. simpl. split.
    + rewrite H3. simpl. rewrite Hh1. assert (h ∉ held w) by (intros Hin; specialize (Hheld h Hin); lia).
      set_solver.
    + eapply effect_weaken; [|exact (effect_trans _ _ _ _ _ E1 E3)]. intros k. simpl.
      setoid_rewrite (rtc_effect _ _ _ _ _ E1). split.
      * intros [<-|(d & Hd%elem_of_elements & Hk)]; [done|]. eapply rtc_l; [|exact Hk]. by exists x.
      * intros Hk. inversion Hk as [|? d ? (x' & Hx' & Hd) Hdk]; subst; [by left|].
        right. exists d. rewrite Hx in Hx'. injection Hx' as <-. by rewrite elem_of_elements.
Qed.
End Acyclic.

(** On a graph of halters without a cycle [RequestStop] returns; afterwards
    the halter and every halter downstream of it, at any depth, has been asked
    to stop, and nothing else has changed. *)
Theorem request_stop_spec rank h w :
  ranked rank (halters w) -> wf_world (halters w) -> held w = ∅ -> is_Some (halters w !! h) ->
  exists w', RequestStop (S (rank h)) h w = Ok w' /\ held w' = ∅ /\
    forall k, (rtc (edge (halters w)) h k -> halters w' !! k = stopped <$> halters w !! k) /\
              (~ rtc (edge (halters w)) h k -> halters w' !! k = halters w !! k).
Proof.
  intros HR HW Hh Hs. destruct (RequestStop_effect rank (S (rank h)) h w) as (w' & Hw & Hh' & HE);
    try done; [lia|rewrite Hh; set_solver|].
  exists w'. rewrite Hh' , Hh. split_and!; try done. intros k. destruct (HE k) as [H1 H2]. split; [done|].
  intros Hn. destruct H2 as [?|[? _]]; done.
Qed.

(** ** Cycles *)

Lemma each_held f l w w' :
  (forall d w w', f d w = Ok w' -> held w' = held w) -> each f l w = Ok w' -> held w' = held w.
Proof.
  intros Hf. revert w. induction l as [|d l IH]; intros w; simpl; [by intros [= ->]|].
  intros (w1 & H1%Hf & H2)%obind_ok. rewrite <- H1. by apply IH.
Qed.

Lemma close_reqStop_graph h w w' :
  close_reqStop h w = Ok w' -> held w' = held w /\ forall x y, edge (halters w') x y <-> edge (halters w) x y.
Proof.
  unfold close_reqStop, get. destruct (halters w !! h) as [x|] eqn:Hx; [|done]. simpl.
  destruct (Close (reqStop x)) as [[c e]| | |]; [|done..]. simpl. intros [= <-]. split; [done|].
  intros a b. unfold edge. simpl. destruct (decide (h = a)) as [<-|Hne].
  - rewrite lookup_insert_eq, Hx. split; intros (z & Hz & Hb); simplify_eq; eauto.
  - by rewrite lookup_insert_ne.
Qed.

(** What a call that returns says about the locks on its way. *)
Lemma RequestStop_returns fuel h w w' :
  RequestStop fuel h w = Ok w' ->
  held w' = held w /\ (forall x y, edge (halters w') x y <-> edge (halters w) x y) /\
  forall k, rtc (edge (halters w)) h k -> k ∉ held w.
Proof.
  revert h w w'. induction fuel as [|fuel IH]; intros h w w'; [done|]. simpl.
  intros (w1 & [Hh1 HE1]%close_reqStop_graph & H)%obind_ok.
  apply obind_ok in H as (w2 & HL & H). unfold lock in HL.
  destruct (bool_decide (h ∈ held w1)) eqn:Ebd; [done|]. apply bool_decide_eq_false in Ebd. injection HL as <-.
  apply obind_ok in H as (x & Hx & H). apply obind_ok in H as (w3 & Heach & H). injection H as <-.
  assert (forall l w2 w3, each (RequestStop fuel) l w2 = Ok w3 ->
    (forall a b, edge (halters w2) a b <-> edge (halters w) a b) ->
    held w3 = held w2 /\ (forall a b, edge (halters w3) a b <-> edge (halters w) a b) /\
    forall d k, d ∈ l -> rtc (edge (halters w)) d k -> k ∉ held w2) as HL.
  { clear -IH. induction l as [|d l IHl]; intros w2 w3; simpl.
    - intros [= <-] HE. split_and!; try done. intros d k Hd. by apply elem_of_nil in Hd.
    - intros (w4 & (H1 & H2 & H3)%IH & H4)%obind_ok HE.
      destruct (IHl w4 w3 H4) as (I1 & I2 & I3); [intros a b; by rewrite H2|].
      split; [congruence|]. split; [done|]. intros d' k [->|Hd']%elem_of_cons Hk.
      + apply H3. clear -HE Hk. induction Hk as [|a b c Hab Hbc IH]; [done|].
        eapply rtc_l; [|exact IH]. by apply HE.
      + rewrite <- H1. by eapply I3. }
  destruct (HL _ _ _ Heach) as (I1 & I2 & I3); [done|]. simpl in *. split.
  { rewrite I1, Hh1. rewrite Hh1 in Ebd. set_solver. }
  split; [done|]. intros k Hk. unfold get in Hx. simpl in Hx.
  destruct (halters w1 !! h) as [x'|] eqn:Ex; [|done]. injection Hx as ->.
  inversion Hk as [|? d ? Hed Hdk]; subst; [by rewrite <- Hh1|].
  apply HE1 in Hed as (z & Hz & Hd). rewrite Ex in Hz. injection Hz as <-.
  assert (k ∉ {[h]} ∪ held w1) as Hn by (eapply I3; [by apply elem_of_elements|done]).
  rewrite Hh1 in Hn. set_solver.
Qed.

(** If a halter is downstream of itself, at whatever distance, then
    [RequestStop] on it never returns: it waits for the lock that it holds.
    [AddDownstream], which is said to prevent infinite loops, builds such a
    graph without complaint. *)
Theorem request_stop_cycle fuel h d w w' :
  edge (halters w) h d -> rtc (edge (halters w)) d h -> RequestStop fuel h w <> Ok w'.
Proof.
  intros Hhd Hdh H. destruct fuel as [|fuel]; [done|]. simpl in H.
  apply obind_ok in H as (w1 & [Hh1 HE1]%close_reqStop_graph & H).
  apply obind_ok in H as (w2 & HL & H). unfold lock in HL.
  destruct (bool_decide (h ∈ held w1)); [done|]. injection HL as <-.
  apply obind_ok in H as (x & Hx & H). apply obind_ok in H as (w3 & Heach & _).
  unfold get in Hx. simpl in Hx. destruct (halters w1 !! h) as [x'|] eqn:Ex; [|done]. injection Hx as ->.
  assert (d ∈ elements (downstream x)) as Hd.
  { apply HE1 in Hhd as (z & Hz & Hd). rewrite Ex in Hz. injection Hz as <-. by apply elem_of_elements. }
  assert (forall l w2 w3, d ∈ l -> each (RequestStop fuel) l w2 = Ok w3 -> h ∈ held w2 ->
    (forall a b, edge (halters w2) a b <-> edge (halters w) a b) -> False) as HF.
  { clear -Hdh. induction l as [|e l IHl]; intros w2 w3 Hd Heach Hin HE; [by apply elem_of_nil in Hd|].
    simpl in Heach. apply obind_ok in Heach as (w4 & (R1 & R2 & R3)%RequestStop_returns & Heach).
    apply elem_of_cons in Hd as [->|Hd].
    - eapply R3; [|exact Hin]. clear -HE Hdh. induction Hdh as [|a b c Hab Hbc IH]; [done|].
      eapply rtc_l; [|exact IH]. by apply HE.
    - eapply IHl; [exact Hd|exact Heach|by rewrite R1|]. intros a b. by rewrite R2. }
  eapply HF; [exact Hd|exact Heach|simpl; set_solver|exact HE1].
Qed.

(** ** MarkDone waits for the halters downstream *)

Definition is_done (m : gmap nat Halter) (k : nat) : Prop :=
  exists x, m !! k = Some x /\ Chan (done x) = true.

Lemma locked_spec h f w w' :
  locked h f w = Ok w' -> held w' = held w /\
  exists x, halters w !! h = Some x /\ halters w' = <[h := f x]> (halters w).
Proof.
  unfold locked, lock, get. intros (w1 & HL & H)%obind_ok.
  destruct (bool_decide (h ∈ held w)) eqn:E; [done|]. apply bool_decide_eq_false in E. injection HL as <-.
  apply obind_ok in H as (x & Hx & H). simpl in Hx.
  destruct (halters w !! h) as [x'|] eqn:Ex; [|done]. injection Hx as ->. injection H as <-. simpl.
  split; [set_solver|]. eauto.
Qed.

Lemma wait_done_spec h d w w' :
  wait_done h d w = Ok w' -> is_done (halters w') d /\ forall k, is_done (halters w) k -> is_done (halters w') k.
Proof.
  unfold wait_done, removeUpstream. intros (x & Hx & H)%obind_ok. unfold get in Hx.
  destruct (halters w !! d) as [x'|] eqn:Ex; [|done]. injection Hx as ->.
  destruct (Chan (done x)) eqn:Ec; [|done].
  apply locked_spec in H as (_ & y & Hy & ->). simplify_eq. split.
  - eexists. split; [apply lookup_insert_eq|done].
  - intros k (z & Hz & Hd). destruct (decide (d = k)) as [<-|Hne].
    + eexists. split; [apply lookup_insert_eq|]. by simplify_eq.
    + exists z. by rewrite lookup_insert_ne.
Qed.

Lemma each_wait_done h l w w' :
  each (wait_done h) l w = Ok w' ->
  (forall d, d ∈ l -> is_done (halters w') d) /\ forall k, is_done (halters w) k -> is_done (halters w') k.
Proof.
  revert w. induction l as [|d l IH]; intros w; simpl.
  - intros [= <-]. split; [|done]. intros d Hd. by apply elem_of_nil in Hd.
  - intros (w1 & [H1 H2]%wait_done_spec & [H3 H4]%IH)%obind_ok. split; [|auto].
    intros d' [->|Hd]%elem_of_cons; auto.
Qed.

(** [close_done]: the flag is up afterwards, and no done channel reopens. *)
Lemma close_done_spec h w w' :
  close_done h w = Ok w' ->
  (exists x, halters w' !! h = Some x /\ IsClosed (done x) = true) /\
  forall k, is_done (halters w) k -> is_done (halters w') k.
Proof.
  unfold close_done, get. destruct (halters w !! h) as [y|] eqn:Ey; [|done]. simpl.
  unfold Close. destruct (closed (done y)) eqn:Ec; simpl.
  - intros [= <-]. split; simpl.
    + eexists. split; [apply lookup_insert_eq|done].
    + intros k (z & Hz & Hd). destruct (decide (h = k)) as [<-|Hne].
      * eexists. split; [apply lookup_insert_eq|]. by simplify_eq.
      * exists z. by rewrite lookup_insert_ne.
  - destruct (Chan (done y)); [done|]. simpl. intros [= <-]. split; simpl.
    + eexists. split; [apply lookup_insert_eq|done].
    + intros k (z & Hz & Hd). destruct (decide (h = k)) as [<-|Hne].
      * eexists. split; [apply lookup_insert_eq|done].
      * exists z. by rewrite lookup_insert_ne.
Qed.

(** When [MarkDone] returns, the halter is done, and so is every halter
    that was directly downstream of it. *)
Theorem mark_done_waits fuel h w w' :
  MarkDone fuel h w = Ok w' ->
  (exists x, halters w' !! h = Some x /\ IsClosed (done x) = true) /\
  forall d, edge (halters w) h d -> is_done (halters w') d.
Proof.
  unfold MarkDone. intros (w1 & (_ & HE & _)%RequestStop_returns & H)%obind_ok.
  apply obind_ok in H as (w2 & HW & [Hh Hmono]%close_done_spec). unfold waitForDownstreamDone in HW.
  apply obind_ok in HW as (w3 & HL & HW). unfold lock in HL.
  destruct (bool_decide _); [done|]. injection HL as <-.
  apply obind_ok in HW as (x & Hx & HW). unfold get in Hx. simpl in Hx.
  destruct (halters w1 !! h) as [x'|] eqn:Ex; [|done]. injection Hx as ->.
  apply obind_ok in HW as (w4 & [Hall _]%each_wait_done & HW). injection HW as <-. simpl in *.
  split; [done|]. intros d (y & Hy & Hd)%HE. rewrite Ex in Hy. injection Hy as <-.
  apply Hmono, Hall. by apply elem_of_elements.
Qed.

(** *** A halter that is not done keeps [MarkDone] from returning *)

Definition same_done (m m' : gmap nat Halter) : Prop := forall k, is_done m' k <-> is_done m k.

Lemma same_done_insert m k x y : m !! k = Some x -> Chan (done y) = Chan (done x) -> same_done m (<[k := y]> m).
Proof.
  intros Hx Hy j. unfold is_done. destruct (decide (k = j)) as [<-|Hne]; [|by rewrite lookup_insert_ne].
  rewrite lookup_insert_eq, Hx. split; intros (z & [= <-] & Hz); eexists; (split; [done|]); congruence.
Qed.
Lemma same_done_trans m1 m2 m3 : same_done m1 m2 -> same_done m2 m3 -> same_done m1 m3.
Proof. intros H1 H2 k. by rewrite (H2 k), (H1 k). Qed.

Lemma each_same f l w w' :
  (forall d w w', f d w = Ok w' -> same_done (halters w) (halters w')) -> each f l w = Ok w' -> same_done (halters w) (halters w').
Proof.
  intros Hf. revert w. induction l as [|d l IH]; intros w; simpl; [by intros [= ->]|].
  intros (w1 & H1%Hf & H2)%obind_ok. eapply same_done_trans; [exact H1|by apply IH].
Qed.

Lemma RequestStop_same fuel h w w' : RequestStop fuel h w = Ok w' -> same_done (halters w) (halters w').
Proof.
  revert h w w'. induction fuel as [|fuel IH]; intros h w w'; [done|]. simpl.
  intros (w1 & H1 & H)%obind_ok. apply obind_ok in H as (w2 & HL & H). apply obind_ok in H as (x & _ & H).
  apply obind_ok in H as (w3 & H3 & H). apply (each_same _ _ _ _ IH) in H3. injection H as <-. cbn.
  unfold lock in HL. destruct (bool_decide _); [done|]. injection HL as <-. eapply same_done_trans; [|exact H3]. cbn.
  unfold close_reqStop, get in H1. destruct (halters w !! h) as [y|] eqn:Ey; [|done]. cbn [obind] in H1.
  apply obind_ok in H1 as ([c0 e0] & _ & H1).
  injection H1 as <-. by eapply same_done_insert.
Qed.

Lemma wait_done_same h d w w' : wait_done h d w = Ok w' -> same_done (halters w) (halters w') /\ is_done (halters w) d.
Proof.
  unfold wait_done, removeUpstream, get. destruct (halters w !! d) as [y|] eqn:Ey; [|done]. simpl.
  destruct (Chan (done y)) eqn:Ec; [|done]. intros (_ & x & Hx & ->)%locked_spec. simplify_eq.
  split; [by eapply same_done_insert|by exists y].
Qed.

Lemma MarkDone_needs fuel h d w w' :
  MarkDone fuel h w = Ok w' -> edge (halters w) h d -> is_done (halters w) d.
Proof.
  unfold MarkDone. intros (w1 & H1 & H)%obind_ok He. apply obind_ok in H as (w2 & H & _).
  pose proof (RequestStop_same _ _ _ _ H1) as Hs. apply RequestStop_returns in H1 as (_ & HE & _).
  unfold waitForDownstreamDone in H. apply obind_ok in H as (w3 & HL & H). unfold lock in HL.
  destruct (bool_decide _); [done|]. injection HL as <-. apply obind_ok in H as (x & Hx & H). unfold get in Hx. cbn in Hx.
  destruct (halters w1 !! h) as [x'|] eqn:Ex; [|done]. injection Hx as ->. apply obind_ok in H as (w4 & H & _).
  apply HE in He as (z & Hz & Hd%elem_of_elements). rewrite Ex in Hz. injection Hz as <-. apply Hs.
  set (w5 := mkWorld (halters w1) _) in H. change (halters w1) with (halters w5). clearbody w5. clear -H Hd.
  revert w5 H. induction Hd as [l|d e l Hd IH]; simpl; intros w5 (w6 & [H1 H2]%wait_done_same & H)%obind_ok; [done|].
  apply H1. by eapply IH.
Qed.

(** *** A halter without others downstream *)

Definition finished (x : Halter) : Halter := set_done (mkIdem true true) (stopped x).

Lemma chan_closes c : wf_chan c -> exists e, Close c = Ok (mkIdem true true, e).
Proof. unfold wf_chan, Close. destruct c as [[] []]; try done; eauto. Qed.

Lemma lock_free h w : h ∉ held w -> lock h w = Ok (mkWorld (halters w) ({[h]} ∪ held w)).
Proof. intros Hh. unfold lock. by rewrite bool_decide_false. Qed.
Lemma unlock_last h m l : h ∉ l -> unlock h (mkWorld m ({[h]} ∪ l)) = mkWorld m l.
Proof. intros Hh. unfold unlock. cbn. f_equal. set_solver. Qed.

Lemma locked_free h f w x :
  h ∉ held w -> halters w !! h = Some x -> locked h f w = Ok (mkWorld (<[h := f x]> (halters w)) (held w)).
Proof. intros Hh Hx. unfold locked. rewrite lock_free by done. unfold get. cbn. rewrite Hx. cbn. unfold put. cbn. by rewrite unlock_last. Qed.

Lemma stopped_wf x : wf_halter x -> wf_halter (stopped x).
Proof. intros (? & ? & _). done. Qed.
Lemma close_reqStop_at h w x :
  halters w !! h = Some x -> wf_halter x ->
  close_reqStop h w = Ok (mkWorld (<[h := stopped x]> (halters w)) (held w)).
Proof. intros Hx (_ & _ & Hc). destruct (chan_closes _ Hc) as [e Hcl]. unfold close_reqStop, get. rewrite Hx. cbn. by rewrite Hcl. Qed.
Lemma close_done_at h w x :
  halters w !! h = Some x -> wf_halter x ->
  close_done h w = Ok (mkWorld (<[h := set_done (mkIdem true true) x]> (halters w)) (held w)).
Proof. intros Hx (_ & Hc & _). destruct (chan_closes _ Hc) as [e Hcl]. unfold close_done, get. rewrite Hx. cbn. by rewrite Hcl. Qed.

Lemma RequestStop_eq fuel h w :
  RequestStop (S fuel) h w =
    let? w := close_reqStop h w in
    let? w := lock h w in
    let? x := get h w in
    let? w := each (RequestStop fuel) (elements (downstream x)) w in
    Ok (unlock h w).
Proof. done. Qed.

Lemma RequestStop_leaf fuel h w x :
  h ∉ held w -> halters w !! h = Some x -> wf_halter x -> downstream x = ∅ ->
  RequestStop (S fuel) h w = Ok (mkWorld (<[h := stopped x]> (halters w)) (held w)).
Proof.
  intros Hh Hx Hw Hd. rewrite RequestStop_eq, (close_reqStop_at h w x) by done. cbn [obind]. rewrite lock_free by done.
  unfold get. cbn [obind halters held]. rewrite lookup_insert_eq. cbn [obind].
  assert (downstream (stopped x) = ∅) as -> by done. rewrite elements_empty. cbn [each obind]. by rewrite unlock_last.
Qed.

Lemma MarkDone_leaf fuel h w x :
  h ∉ held w -> halters w !! h = Some x -> wf_halter x -> downstream x = ∅ ->
  MarkDone (S fuel) h w = Ok (mkWorld (<[h := finished x]> (halters w)) (held w)).
Proof.
  intros Hh Hx Hw Hd. unfold MarkDone. rewrite (RequestStop_leaf fuel h w x) by done. cbn [obind].
  unfold waitForDownstreamDone. rewrite lock_free by done. unfold get. cbn [obind halters held]. rewrite lookup_insert_eq. cbn [obind].
  assert (downstream (stopped x) = ∅) as -> by done. rewrite elements_empty. cbn [each obind]. rewrite unlock_last by done.
  rewrite (close_done_at h _ (stopped x)); [|apply lookup_insert_eq|by apply stopped_wf]. cbn. by rewrite insert_insert_eq.
Qed.

(** *** A halter with one other downstream *)

Section Pair.
Context (h c : nat) (hh hc : Halter).
Context (Hne : h <> c) (Wh : wf_halter hh) (Wc : wf_halter hc) (Dh : downstream hh = {[c]}) (Dc : downstream hc = ∅).

Lemma RequestStop_pair fuel m :
  m !! h = Some hh -> m !! c = Some hc ->
  RequestStop (S (S fuel)) h (mkWorld m ∅) = Ok (mkWorld (<[c := stopped hc]> (<[h := stopped hh]> m)) ∅).
Proof.
  intros Hh Hc. rewrite RequestStop_eq, (close_reqStop_at h _ hh) by done. cbn [obind].
  rewrite lock_free by (cbn; set_solver). unfold get. cbn [obind halters held]. rewrite lookup_insert_eq. cbn [obind].
  assert (downstream (stopped hh) = {[c]}) as -> by done. rewrite elements_singleton. cbn [each].
  rewrite (RequestStop_leaf fuel c _ hc); [|set_solver|by cbn; rewrite lookup_insert_ne|done..]. cbn [obind halters held].
  by rewrite unlock_last by set_solver.
Qed.

Lemma MarkDone_pair fuel m :
  m !! h = Some hh -> m !! c = Some hc -> Chan (done hc) = true ->
  MarkDone (S (S fuel)) h (mkWorld m ∅) =
    Ok (mkWorld (<[h := finished hh]> (<[c := set_upstream (upstream hc ∖ {[h]}) (stopped hc)]> m)) ∅).
Proof.
  intros Hh Hc Hd. unfold MarkDone. rewrite RequestStop_pair by done. cbn [obind]. unfold waitForDownstreamDone.
  rewrite lock_free by (cbn; set_solver). unfold get. cbn [obind halters held]. rewrite lookup_insert_ne, lookup_insert_eq by done.
  cbn [obind]. assert (downstream (stopped hh) = {[c]}) as -> by done. rewrite elements_singleton. cbn [each].
  unfold wait_done, get. cbn [halters]. rewrite lookup_insert_eq. cbn [obind]. assert (Chan (done (stopped hc)) = true) as -> by done.
  unfold removeUpstream. rewrite (locked_free c _ _ (stopped hc)); [|set_solver|cbn; by rewrite lookup_insert_eq].
  cbn [obind halters held]. rewrite unlock_last by set_solver. rewrite insert_insert_eq.
  rewrite (close_done_at h _ (stopped hh)); [|cbn; rewrite lookup_insert_ne, lookup_insert_eq by done; done|by apply stopped_wf].
  cbn [halters held]. by rewrite (insert_insert_ne _ c h) by done; rewrite insert_insert_eq.
Qed.
End Pair.

(** ** A context and a halter *)

Definition mad_ok (hasCancel : bool) (s : mad * mad_env) : Prop :=
  let '(m, e) := s in
  wf_chan (h_reqStop e) /\ wf_chan (h_done e) /\
  (cancelctx m = true -> cancels m = 0%nat /\ hasCancel = true) /\
  (cancelctx m = false -> cancels m = (if hasCancel then 1 else 0)%nat) /\
  (cDone m = true -> Chan (h_reqStop e) = true /\ Chan (h_done e) = true) /\
  (hDone m = true -> cancelctx m = false) /\
  (cancels m = 1%nat -> ctx_done e = true).

Lemma Close_chan c r :
  wf_chan c -> fst <$> (match Close c with Ok p => Some p | _ => None end) = Some r ->
  wf_chan r /\ Chan r = true.
Proof.
  unfold wf_chan, Close. destruct c as [ch cl]; simpl. intros ->. destruct cl; simpl; by intros [= <-].
Qed.

Lemma mad_ok_step hc s s' : mad_ok hc s -> mad_step s s' -> mad_ok hc s'.
Proof.
  intros H Hstep. destruct Hstep as [m e r d Hrun H1 H2 HR HD|m e Hrun H1 H2|m e Hrun H1 H2|m e|m e r HR];
    destruct H as (W1 & W2 & C1 & C2 & C3 & C4 & C5); unfold mad_ok; simpl.
  - apply Close_chan in HR as [? ?]; [|done]. apply Close_chan in HD as [? ?]; [|done]. tauto.
  - destruct (cancelctx m) eqn:E; simpl.
    + destruct (C1 eq_refl) as [-> ->]. split_and!; solve [done|tauto].
    + specialize (C2 eq_refl). split_and!; solve [done|tauto].
  - destruct (cancelctx m) eqn:E; simpl.
    + destruct (C1 eq_refl) as [-> ->]. split_and!; solve [done|tauto].
    + specialize (C2 eq_refl). split_and!; solve [done|tauto].
  - tauto.
  - apply Close_chan in HR as [? ?]; [|done]. tauto.
Qed.

(** [MAD]: [cancelctx] is called at most once, and once the halter's end was
    seen it has been called and the context is cancelled; once the context's
    end was seen the halter is stopped and done. *)
Theorem mad_links hc e s :
  wf_chan (h_reqStop e) -> wf_chan (h_done e) -> rtc mad_step (mad_init hc, e) s ->
  (cancels s.1 <= 1)%nat /\
  (hDone s.1 = true -> hc = true -> cancels s.1 = 1%nat /\ ctx_done s.2 = true) /\
  (cDone s.1 = true -> Chan (h_reqStop s.2) = true /\ Chan (h_done s.2) = true).
Proof.
  intros W1 W2 H. assert (mad_ok hc s) as HI.
  { eapply rtc_invariant; [|exact H|]; [intros a b; apply mad_ok_step|].
    unfold mad_ok. simpl. destruct hc; split_and!; (done || lia || intros; lia || done). }
  destruct s as [m e']. simpl in *. destruct HI as (_ & _ & C1 & C2 & C3 & C4 & C5).
  split_and!; [|intros Hd Hc|done].
  - destruct (cancelctx m); [destruct (C1 eq_refl); lia|]. rewrite C2 by done. destruct hc; lia.
  - rewrite (C4 Hd) in C2. specialize (C2 eq_refl). rewrite Hc in C2. tauto.
Qed.

(** ** Concrete instances *)

(** A parent of two, one of which has a child. *)
Definition node (d : gset nat) (isDone : bool) : Halter :=
  set_done (mkIdem isDone isDone) (set_downstream d NewHalter).
Definition demo_tree (leaves : bool) : world :=
  mkWorld {[1%nat := node {[2; 3]}%nat false; 2%nat := node {[4%nat]} leaves; 3%nat := node ∅ leaves;
            4%nat := node ∅ leaves]} ∅.

Lemma demo_tree_wf b : wf_world (halters (demo_tree b)).
Proof.
  split.
  - intros k x Hk. unfold demo_tree in Hk. simpl in Hk.
    repeat (apply lookup_insert_Some in Hk as [[_ <-]|[_ Hk]]; [by repeat split|]).
    apply lookup_singleton_Some in Hk as [_ <-]. by repeat split.
  - intros x y (hx & Hx & Hy). unfold demo_tree in *. simpl in *.
    repeat (apply lookup_insert_Some in Hx as [[_ <-]|[_ Hx]]; [simpl in Hy|]).
    all: try (apply lookup_singleton_Some in Hx as [<- <-]; simpl in Hy); try (by apply elem_of_empty in Hy).
    all: repeat (apply elem_of_union in Hy as [Hy|Hy]); apply elem_of_singleton in Hy as ->;
      eexists; vm_compute; reflexivity.
Qed.

Lemma demo_tree_ranked b : ranked (fun k => (5 - k)%nat) (halters (demo_tree b)).
Proof.
  intros x y (hx & Hx & Hy). unfold demo_tree in *. simpl in *.
  repeat (apply lookup_insert_Some in Hx as [[<- <-]|[_ Hx]]; [simpl in Hy|]).
  all: try (apply lookup_singleton_Some in Hx as [<- <-]; simpl in Hy); try (by apply elem_of_empty in Hy).
  all: repeat (apply elem_of_union in Hy as [Hy|Hy]); apply elem_of_singleton in Hy as ->; lia.
Qed.

Lemma request_stop_spec_witness :
  exists w', RequestStop 5 1 (demo_tree false) = Ok w' /\ held w' = ∅.
Proof.
  destruct (request_stop_spec (fun k => (5 - k)%nat) 1 (demo_tree false) (demo_tree_ranked false)
    (demo_tree_wf false) eq_refl) as (w' & H1 & H2 & _); [by eexists|].
  exists w'. split; [exact H1|exact H2].
Defined.

Definition demo_cycle : world :=
  match AddDownstream 1 2 (mkWorld {[1%nat := NewHalter; 2%nat := NewHalter]} ∅) with
  | Ok w => match AddDownstream 2 1 w with Ok w => w | _ => w end
  | _ => mkWorld ∅ ∅
  end.

Lemma demo_cycle_edge x y : (x = 1 /\ y = 2)%nat \/ (x = 2 /\ y = 1)%nat -> edge (halters demo_cycle) x y.
Proof.
  intros [[-> ->]|[-> ->]]; eexists; (split; [vm_compute; reflexivity|]);
    apply (bool_decide_unpack _); vm_compute; exact I.
Qed.

Lemma request_stop_cycle_witness : RequestStop 100 1 demo_cycle <> Ok demo_cycle.
Proof.
  apply (request_stop_cycle 100 1 2 demo_cycle).
  - apply demo_cycle_edge. by left.
  - eapply rtc_l; [apply demo_cycle_edge; right; split; reflexivity|apply rtc_refl].
Defined.

Lemma mark_done_waits_witness :
  exists w', MarkDone 5 1 (demo_tree true) = Ok w' /\ is_done (halters w') 2.
Proof.
  destruct (MarkDone 5 1 (demo_tree true)) as [w'|e|s|] eqn:E; [|vm_compute in E; discriminate..].
  exists w'. split; [reflexivity|]. apply (proj2 (mark_done_waits 5 1 (demo_tree true) w' E)).
  eexists. split; [vm_compute; reflexivity|]. apply (bool_decide_unpack _). vm_compute. exact I.
Defined.

Lemma mad_links_witness :
  exists s, rtc mad_step (mad_init true, mkEnv false (mkIdem true true) NewIdemCloseChan) s /\
            cancels s.1 = 1%nat.
Proof.
  eexists. split.
  - eapply rtc_l; [apply mad_req; reflexivity|apply rtc_refl].
  - eapply (mad_links true (mkEnv false (mkIdem true true) NewIdemCloseChan)); try reflexivity.
    eapply rtc_l; [apply mad_req; reflexivity|apply rtc_refl].
Defined.
