(* ===== verification/Tower.v ===== *)
(** The tower that tells subscribers to reconnect (buzz.go, uhp.go): one sender,
    many buffered channels, of which those of size one keep the latest value. *)
From S2P Require Import Prelude.
From S2P Require Import GoStrings.

(** ** Destinations (uhp.go) *)

Record UHP := mkUHP { UHP_User : string; HostPort : string; Nickname : string }.

Definition UHP_String (a : UHP) : string :=
  UHP_User a +:+ "@" +:+ HostPort a +:+ "/" +:+ Nickname a.

Definition UHPEqual (a b : option UHP) : outcome bool :=
  match a, b with
  | Some a, Some b => Ok ((UHP_User a =? UHP_User b)%string && (HostPort a =? HostPort b)%string)
  | _, _ => Panic "cannot call UHPEqual with nil(s)"
  end.

(** ** Channels *)

Record uchan := mkChan { cap : nat; buf : list UHP; chClosed : bool }.

(** A select with a receive and a default. *)
Definition try_recv (c : uchan) : uchan := mkChan (cap c) (tail (buf c)) (chClosed c).
Definition room (c : uchan) : bool := (List.length (buf c) <? cap c)%nat.
Definition push (v : UHP) (c : uchan) : uchan := mkChan (cap c) (buf c ++ [v]) (chClosed c).

(** ** The tower

    [stop] and [stopDone] are its halter's two channels, which [MarkDone]
    closes; the halter is the tower's own and has none downstream. *)
Record UHPTower := mkTower {
  subs : list nat;
  closed : bool;
  stop : bool;
  stopDone : bool;
}.

(** The tower and all channels of the program. *)
Definition state := (UHPTower * gmap nat uchan)%type.

Definition NewUHPTower (stop stopDone : bool) : UHPTower := mkTower [] false stop stopDone.
Definition set_subs (l : list nat) (t : UHPTower) : UHPTower := mkTower l (closed t) (stop t) (stopDone t).

Definition ErrClosed : string := "channel closed".

Definition chan_at (i : nat) (m : gmap nat uchan) : outcome uchan :=
  match m !! i with Some c => Ok c | None => Panic "nil channel" end.

(** [Subscribe]; without a channel of the caller's a new one of size one is
    made, at an address that is free. *)
Definition Subscribe (notify : option nat) (s : state) : state * nat :=
  let '(t, m) := s in
  match notify with
  | Some ch => ((set_subs (subs t ++ [ch]) t, m), ch)
  | None =>
      let ch := fresh (dom m) in
      ((set_subs (subs t ++ [ch]) t, <[ch := mkChan 1 [] false]> m), ch)
  end.

Fixpoint remove_first (x : nat) (l : list nat) : list nat :=
  match l with
  | [] => []
  | y :: l => if (y =? x)%nat then l else y :: remove_first x l
  end.

Definition Unsub (x : nat) (s : state) : state := (set_subs (remove_first x (subs s.1)) s.1, s.2).

(** [close(b.subs[i])] for all of them. *)
Fixpoint close_all (l : list nat) (m : gmap nat uchan) : outcome (gmap nat uchan) :=
  match l with
  | [] => Ok m
  | i :: l =>
      let? c := chan_at i m in
      if chClosed c then Panic "close of closed channel"
      else close_all l (<[i := mkChan (cap c) (buf c) true]> m)
  end.

(** The error that the call returns; [None] is nil. *)
Definition internalClose (s : state) : outcome (state * option string) :=
  let '(t, m) := s in
  if closed t then Ok (s, Some ErrClosed)
  else let? m := close_all (subs t) m in Ok ((mkTower (subs t) true true true, m), None).

(** The subscribers from the current one on. When the channel has room and the
    halter is asked to stop, the select may take either; [choice] says which.
    A full channel that nobody reads ends in the panic after ten seconds. *)
Fixpoint broadcast_to (choice : nat -> bool) (val : UHP) (l : list nat) (s : state)
  : outcome (state * option string) :=
  match l with
  | [] => Ok (s, None)
  | i :: l =>
      let '(t, m) := s in
      let? c := chan_at i m in
      let c := if (cap c =? 1)%nat then try_recv c else c in
      let m := <[i := c]> m in
      if stop t && choice i then internalClose (t, m)
      else if chClosed c then Panic "send on closed channel"
      else if room c then broadcast_to choice val l (t, <[i := push val c]> m)
      else if stop t then internalClose (t, m)
      else Panic "big problem: Broadcast blocked for 10 seconds! Prefer buffered channel of size 1 for Tower subscribe channels."
  end.

Definition Broadcast (choice : nat -> bool) (val : UHP) (s : state) : outcome (state * option string) :=
  if closed s.1 then Ok (s, Some ErrClosed) else broadcast_to choice val (subs s.1) s.

(** [Signal]; [r] is the random number. *)
Definition Signal (r : nat) (val : UHP) (s : state) : outcome (state * option string) :=
  let '(t, m) := s in
  if closed t then Ok (s, Some ErrClosed)
  else
    match List.length (subs t) with
    | O => Panic "invalid argument to Intn"
    | S _ =>
        let i := nth (r mod List.length (subs t)) (subs t) 0%nat in
        let? c := chan_at i m in
        if chClosed c then Panic "send on closed channel"
        else if room c then Ok ((t, <[i := push val c]> m), None)
        else Blocked
    end.

Definition Close (s : state) : outcome (state * option string) := internalClose s.

Definition Clear (s : state) : state :=
  (s.1, fold_left (fun m i => alter try_recv i m) (subs s.1) s.2).

(** [EmptyUHPChan]: a receive from a closed channel never blocks, so that the
    loop goes round on it; no fuel is no return. *)
Fixpoint EmptyUHPChan (fuel : nat) (c : uchan) : outcome uchan :=
  match fuel with
  | O => Blocked
  | S fuel =>
      match buf c with
      | _ :: _ => EmptyUHPChan fuel (try_recv c)
      | [] => if chClosed c then EmptyUHPChan fuel c else Ok c
      end
  end.

(** ** Properties *)

(** The subscribers' channels exist, hold no more than they can, and while the
    tower is open so are they. *)
Definition tower_ok (s : state) : Prop :=
  NoDup (subs s.1) /\
  forall i, i ∈ subs s.1 -> exists c, s.2 !! i = Some c /\ chClosed c = closed s.1 /\
    (List.length (buf c) <= cap c)%nat.

(** Every subscriber has a channel of size one. *)
Definition size_one (s : state) : Prop :=
  forall i, i ∈ subs s.1 -> exists c, s.2 !! i = Some c /\ cap c = 1%nat.

Lemma broadcast_to_latest choice val l t m :
  stop t = false ->
  (forall i, i ∈ l -> exists c, m !! i = Some c /\ cap c = 1%nat /\ chClosed c = false /\
     (List.length (buf c) <= 1)%nat) ->
  exists m', broadcast_to choice val l (t, m) = Ok ((t, m'), None) /\
    (forall i, i ∈ l -> m' !! i = Some (mkChan 1 [val] false)) /\
    (forall i, i ∉ l -> m' !! i = m !! i).
Proof.
  intros Hs. revert m. induction l as [|i l IH]; intros m Hl; simpl.
  - exists m. split_and!; try done. intros i Hi. by apply elem_of_nil in Hi.
  - destruct (Hl i) as (c & Hc & Hcap & Hcl & Hlen); [apply list_elem_of_here|].
    unfold chan_at. rewrite Hc. simpl. rewrite Hcap, Hs. simpl.
    assert (try_recv c = mkChan 1 [] false) as Ht.
    { unfold try_recv. rewrite Hcap, Hcl. destruct (buf c) as [|x [|y b]]; simpl in *; try done. lia. }
    rewrite Ht. replace (room (mkChan 1 [] false)) with true by done.
    rewrite insert_insert_eq, Hcl. change (push val (mkChan 1 [] false)) with (mkChan 1 [val] false).
    destruct (IH (<[i := mkChan 1 [val] false]> m)) as (m' & -> & H1 & H2).
    + intros j Hj. destruct (decide (i = j)) as [<-|Hne].
      * rewrite lookup_insert_eq. eexists. split_and!; try done.
      * rewrite lookup_insert_ne by done. apply Hl. by apply list_elem_of_further.
    + exists m'. split_and!; [done| |].
      * intros j Hj. destruct (decide (j ∈ l)) as [Hin|Hin]; [by apply H1|].
        apply elem_of_cons in Hj as [->|Hj]; [|done]. rewrite H2 by done. apply lookup_insert_eq.
      * intros j Hj. apply not_elem_of_cons in Hj as [Hne Hj]. rewrite H2 by done.
        by rewrite lookup_insert_ne.
Qed.

(** [Broadcast] to an open tower never blocks on subscribers with channels
    of size one, read or not: afterwards each of them holds the new value and
    nothing else, and no other channel has changed. *)
Theorem broadcast_latest choice val s :
  tower_ok s -> size_one s -> closed s.1 = false -> stop s.1 = false ->
  exists m', Broadcast choice val s = Ok ((s.1, m'), None) /\
    (forall i, i ∈ subs s.1 -> m' !! i = Some (mkChan 1 [val] false)) /\
    (forall i, i ∉ subs s.1 -> m' !! i = s.2 !! i).
Proof.
  intros [_ Hok] H1 Hc Hs. unfold Broadcast. rewrite Hc. destruct s as [t m]. simpl in *.
  apply broadcast_to_latest; [done|]. intros i Hi.
  destruct (Hok i Hi) as (c & Hm & Hcl & Hlen), (H1 i Hi) as (c' & Hm' & Hcap). simpl in Hm'. simplify_eq.
  exists c. rewrite Hcap in Hlen. split_and!; done || congruence.
Qed.

Lemma close_all_spec l m :
  NoDup l -> (forall i, i ∈ l -> exists c, m !! i = Some c /\ chClosed c = false) ->
  exists m', close_all l m = Ok m' /\
    (forall i, i ∈ l -> exists c c', m !! i = Some c /\ m' !! i = Some c' /\ chClosed c' = true /\
       buf c' = buf c /\ cap c' = cap c) /\
    (forall i, i ∉ l -> m' !! i = m !! i).
Proof.
  intros Hnd. revert m. induction Hnd as [|i l Hi Hnd IH]; intros m Hl; simpl.
  - exists m. split_and!; try done. intros i Hi. by apply elem_of_nil in Hi.
  - destruct (Hl i) as (c & Hc & Hcl); [apply list_elem_of_here|].
    unfold chan_at. rewrite Hc. simpl. rewrite Hcl.
    destruct (IH (<[i := mkChan (cap c) (buf c) true]> m)) as (m' & -> & H1 & H2).
    + intros j Hj. rewrite lookup_insert_ne by (by intros ->). apply Hl. by apply list_elem_of_further.
    + exists m'. split_and!; [done| |].
      * intros j [->|Hj]%elem_of_cons.
        -- exists c, (mkChan (cap c) (buf c) true). rewrite H2, lookup_insert_eq by done. by split_and!.
        -- destruct (H1 j Hj) as (c1 & c2 & E & H). rewrite lookup_insert_ne in E by (by intros ->).
           exists c1, c2. done.
      * intros j Hj. apply not_elem_of_cons in Hj as [Hne Hj]. rewrite H2 by done. by rewrite lookup_insert_ne.
Qed.

(** [Close] closes every subscriber's channel, keeping what was sent to it,
    and from then on every operation reports that the tower is closed and
    touches nothing. *)
Theorem close_once s :
  tower_ok s -> closed s.1 = false ->
  exists s', Close s = Ok (s', None) /\ tower_ok s' /\ closed s'.1 = true /\
    (forall i, i ∈ subs s.1 -> exists c c', s.2 !! i = Some c /\ s'.2 !! i = Some c' /\
       chClosed c' = true /\ buf c' = buf c) /\
    Close s' = Ok (s', Some ErrClosed) /\
    (forall choice val, Broadcast choice val s' = Ok (s', Some ErrClosed)) /\
    (forall r val, Signal r val s' = Ok (s', Some ErrClosed)).
Proof.
  intros [Hnd Hok] Hc. destruct s as [t m]. unfold Close, internalClose. simpl in *. rewrite Hc.
  destruct (close_all_spec (subs t) m Hnd) as (m' & -> & H1 & H2).
  { intros i Hi. destruct (Hok i Hi) as (c & Hm & Hcl & _). exists c. split; congruence. }
  simpl. eexists. split; [reflexivity|]. split; [split; [done|]|]; [|split_and!; try done].
  - simpl. intros i Hi. destruct (H1 i Hi) as (c & c' & E1 & E2 & E3 & E4 & E5).
    exists c'. split_and!; try done. destruct (Hok i Hi) as (c0 & Hm & _ & Hlen). simplify_eq.
    by rewrite E4, E5.
  - simpl. intros i Hi. destruct (H1 i Hi) as (c & c' & E1 & E2 & E3 & E4 & E5). by exists c, c'.
Qed.

(** The documentation lets a caller pass a channel of its own to [Subscribe];
    passing the same one twice makes [Close] panic on the second close. *)
Theorem double_subscription_panics ch c t m :
  closed t = false -> subs t = [] -> m !! ch = Some c -> chClosed c = false ->
  let s := (Subscribe (Some ch) (Subscribe (Some ch) (t, m)).1).1 in
  Close s = Panic "close of closed channel".
Proof.
  intros Hc Hs Hm Hcl. unfold Close, internalClose, Subscribe. simpl. rewrite Hc, Hs. simpl.
  unfold chan_at. rewrite Hm. simpl. rewrite Hcl. by rewrite lookup_insert_eq.
Qed.

Lemma remove_first_elem x l i : i ∈ remove_first x l -> i ∈ l.
Proof.
  induction l as [|y l IH]; simpl; [done|]. destruct (y =? x)%nat.
  - intros. by apply list_elem_of_further.
  - intros [->|H]%elem_of_cons; [apply list_elem_of_here|apply list_elem_of_further; auto].
Qed.

Lemma remove_first_filter x l : NoDup l -> remove_first x l = filter (fun y => y <> x) l.
Proof.
  induction 1 as [|y l Hy Hnd IH]; simpl; [done|]. rewrite filter_cons.
  destruct (Nat.eqb_spec y x) as [->|Hne].
  - rewrite decide_False by naive_solver. clear IH. induction l as [|z l IHl]; [done|].
    apply not_elem_of_cons in Hy as [Hz Hy]. rewrite filter_cons, decide_True by congruence.
    f_equal. apply IHl; [done|]. by inversion Hnd.
  - by rewrite decide_True, IH by done.
Qed.

(** Subscribing to an open tower and unsubscribing keep it in order: the
    subscribers are distinct and their channels open; unsubscribing leaves
    exactly the others, in their order. *)
Theorem subscribe_unsub s ch c :
  tower_ok s -> closed s.1 = false -> ch ∉ subs s.1 -> s.2 !! ch = Some c -> chClosed c = false ->
  (List.length (buf c) <= cap c)%nat ->
  tower_ok (Subscribe (Some ch) s).1 /\ tower_ok (Subscribe None s).1 /\
  tower_ok (Unsub ch (Subscribe (Some ch) s).1) /\
  subs (Unsub ch (Subscribe (Some ch) s).1).1 = subs s.1.
Proof.
  intros [Hnd Hok] Hcl Hn Hm Hc Hlen. destruct s as [t m]. simpl in *.
  assert (NoDup (subs t ++ [ch])) as Hnd1.
  { apply NoDup_app. split_and!; [done| |apply NoDup_singleton]. intros x Hx ->%list_elem_of_singleton. done. }
  assert (fresh (dom m) ∉ subs t) as Hfr.
  { intros Hin. destruct (Hok _ Hin) as (c' & Hm' & _). apply (is_fresh (dom m)).
    by apply elem_of_dom_2 in Hm'. }
  assert (remove_first ch (subs t ++ [ch]) = subs t) as Hrm.
  { rewrite remove_first_filter by done. rewrite filter_app. simpl.
    rewrite filter_cons, decide_False by naive_solver. rewrite filter_nil, app_nil_r.
    clear -Hn. induction (subs t) as [|y l IH]; [done|]. apply not_elem_of_cons in Hn as [Hne Hn].
    rewrite filter_cons, decide_True by congruence. by rewrite IH. }
  assert (forall l, (forall i, i ∈ l -> i ∈ subs t \/ i = ch) -> NoDup l -> tower_ok (set_subs l t, m)) as Hall.
  { intros l Hl Hndl. split; [done|]. simpl. intros i Hi. destruct (Hl i Hi) as [Hi'| ->]; [by apply Hok|].
    exists c. by rewrite Hcl. }
  split_and!.
  - apply Hall; [|done]. intros i [?|?%list_elem_of_singleton]%elem_of_app; auto.
  - split; simpl.
    + apply NoDup_app. split_and!; [done| |apply NoDup_singleton]. intros x Hx ->%list_elem_of_singleton. done.
    + intros i [Hi|Hi%list_elem_of_singleton]%elem_of_app.
      * rewrite lookup_insert_ne by (intros <-; done). by apply Hok.
      * subst i. rewrite lookup_insert_eq. eexists. split_and!; try done. simpl. lia.
  - unfold Unsub. simpl. rewrite Hrm. apply Hall; [auto|done].
  - done.
Qed.

(** [EmptyUHPChan] empties an open channel; on a closed one it never
    returns. *)
Theorem empty_chan_spec c :
  (chClosed c = false -> EmptyUHPChan (S (List.length (buf c))) c = Ok (mkChan (cap c) [] false)) /\
  (chClosed c = true -> forall fuel, EmptyUHPChan fuel c = Blocked).
Proof.
  split; intros Hc.
  - destruct c as [k b cl]. simpl in *. subst cl. induction b as [|x b IH]; [done|]. simpl in *. apply IH.
  - intros fuel. revert c Hc. induction fuel as [|fuel IH]; intros c Hc; [done|]. simpl. rewrite Hc.
    destruct (buf c); by apply IH.
Qed.

(** ** Concrete instances *)

Definition demo_uhp (u : string) : UHP := mkUHP u "host:22" "".
(** A tower with two subscribers that have not read the last value. *)
Definition demo_tower : state :=
  (mkTower [0; 1]%nat false false false,
   {[0%nat := mkChan 1 [demo_uhp "old"] false; 1%nat := mkChan 1 [] false; 2%nat := mkChan 1 [] false]}).

Lemma demo_tower_ok : tower_ok demo_tower.
Proof.
  split; [apply (bool_decide_unpack _); vm_compute; exact I|].
  intros i Hi. simpl in Hi. repeat (apply elem_of_cons in Hi as [->|Hi]);
    try (eexists; split_and!; [vm_compute; reflexivity|reflexivity|simpl; lia]).
  by apply elem_of_nil in Hi.
Qed.

Lemma broadcast_latest_witness :
  exists m', Broadcast (fun _ => true) (demo_uhp "new") demo_tower = Ok ((demo_tower.1, m'), None) /\
             m' !! 0%nat = Some (mkChan 1 [demo_uhp "new"] false).
Proof.
  destruct (broadcast_latest (fun _ => true) (demo_uhp "new") demo_tower demo_tower_ok) as (m' & H1 & H2 & _);
    [|reflexivity|reflexivity|].
  - intros i Hi. simpl in Hi. repeat (apply elem_of_cons in Hi as [->|Hi]);
      try (eexists; split; [vm_compute; reflexivity|reflexivity]). by apply elem_of_nil in Hi.
  - exists m'. split; [exact H1|]. apply H2. apply list_elem_of_here.
Defined.

Lemma close_once_witness : exists s', Close demo_tower = Ok (s', None) /\ Close s' = Ok (s', Some ErrClosed).
Proof.
  destruct (close_once demo_tower demo_tower_ok eq_refl) as (s' & H1 & _ & _ & _ & H2 & _).
  exists s'. split; [exact H1|exact H2].
Defined.

Lemma double_subscription_panics_witness :
  Close (Subscribe (Some 7%nat) (Subscribe (Some 7%nat) (NewUHPTower false false, {[7%nat := mkChan 1 [] false]})).1).1
  = Panic "close of closed channel".
Proof.
  apply (double_subscription_panics 7 (mkChan 1 [] false)); vm_compute; reflexivity.
Defined.

Lemma subscribe_unsub_witness : subs (Unsub 2 (Subscribe (Some 2%nat) demo_tower).1).1 = [0; 1]%nat.
Proof.
  apply (subscribe_unsub demo_tower 2 (mkChan 1 [] false) demo_tower_ok); try (vm_compute; reflexivity).
  - apply (bool_decide_unpack _). vm_compute. exact I.
  - simpl. lia.
Defined.

Lemma empty_chan_spec_witness : EmptyUHPChan 9 (mkChan 1 [] true) = Blocked.
Proof. apply (proj2 (empty_chan_spec (mkChan 1 [] true))). reflexivity. Defined.
