(* ===== verification/Tricorder.v ===== *)
(** The reconnecting client (tri.go; cli.go: [DeriveNewConfig], [Dial]; sshutil.go:
    [SSHConnect], [mySSHDial]): a goroutine that keeps one ssh connection, makes
    it anew when the keep-alives fail, and opens channels on it. *)
From S2P Require Import Prelude.
From S2P Require Import GoStrings.
From S2P Require Import IpAddr.
From S2P Require Import KnownHosts.
From S2P Require Import Halter.
From S2P Require Import Tower.

(** ** What to dial *)

(** The passphrase, the one-time password and the nickname of the caller are
    left out: they go to the server and to the log. The known hosts, which the
    configuration shares by pointer, are kept beside it. *)
Record DialConfig := mkDial {
  ClientKnownHostsPath : string;
  Mylogin : string;
  RsaPath : string;
  Sshdhost : string;
  Sshdport : Z;
  DownstreamHostPort : string;
  TofuAddIfNotKnown : bool;
  DoNotUpdateSshKnownHosts : bool;
  DcTestAllowOneshotConnect : bool;
  DcSkipKeepAlive : bool;
  DcKeepAliveEvery : Z;
  DestNickname : string;
}.

Definition set_Tofu (b : bool) (dc : DialConfig) : DialConfig :=
  mkDial (ClientKnownHostsPath dc) (Mylogin dc) (RsaPath dc) (Sshdhost dc) (Sshdport dc) (DownstreamHostPort dc) b
    (DoNotUpdateSshKnownHosts dc) (DcTestAllowOneshotConnect dc) (DcSkipKeepAlive dc) (DcKeepAliveEvery dc) (DestNickname dc).

(** The client's part of the configuration; as it is derived, it listens
    nowhere and has no embedded server. Durations are nanoseconds. *)
Record ClientCfg := mkClient {
  AddIfNotKnown : bool;
  TestAllowOneshotConnect : bool;
  IdleTimeoutDur : Z;
  SkipKeepAlive : bool;
  KeepAliveEvery : Z;
  PrivateKeyPath : string;
}.

Definition set_AddIfNotKnown (b : bool) (c : ClientCfg) : ClientCfg :=
  mkClient b (TestAllowOneshotConnect c) (IdleTimeoutDur c) (SkipKeepAlive c) (KeepAliveEvery c) (PrivateKeyPath c).
Definition set_KeepAliveEvery (d : Z) (c : ClientCfg) : ClientCfg :=
  mkClient (AddIfNotKnown c) (TestAllowOneshotConnect c) (IdleTimeoutDur c) (SkipKeepAlive c) d (PrivateKeyPath c).

Definition second : Z := 1000000000.

Definition set_NoSave (b : bool) (h : KnownHosts) : KnownHosts :=
  mkHosts (Hosts h) (curStatus h) (curHost h) (FilepathPrefix h) (PersistFormatSuffix h) (PersistFormat h) b.

Definition hostport (dc : DialConfig) : string := Sshdhost dc +:+ ":" +:+ itoa (Sshdport dc).

Definition refused : string := "getsockopt: connection refused".
Definition without_new : string := "Re-run without -new".

(** ** The goroutine's variables *)

Inductive tri_error := ErrShutdown | Failed (text : string).

(** Where a dial goes on to from the server. *)
Inductive stream := NoStream | UnixStream (path : string) | TcpStream (hp : string).

Record getChannelTicket := mkTicket { typ : string; targetHostPort : string }.

Section Tricorder.
(** Outside the repository: keys and their text, connections, the other
    formats of known hosts, the order of ranging, which files can be opened,
    the parsing of private keys. *)
Context (K Client : Type).
Context (ParsePublicKey : string -> outcome K) (MarshalAuthorizedKey key_Marshal key_Type : K -> string)
        (encode_hosts : KnownHosts -> string) (decode_hosts : string -> outcome KnownHosts)
        (range : gset string -> list string) (can_open : string -> bool).
Context (LoadRSAPrivateKey : string -> outcome unit).

Abbreviation hostKeyCallback :=
  (hostKeyCallback K MarshalAuthorizedKey key_Marshal key_Type encode_hosts range can_open).

(** What one attempt to connect meets: no TCP connection; a handshake that fails
    before the server shows its key; a key, and what comes after it if it is
    accepted: a failure, or a connection with the answer to the first
    keep-alive. *)
Inductive after := HandshakeFails (e : string) | Established (c : Client) (keepalive : error_).
Inductive attempt := DialFails (e : string) | NoKey (e : string) | Offers (key : K) (remote now : string) (next : after).

(** Attempts to come, each with whether a stop is requested before it. *)
Definition network := list (bool * attempt).

(** The configuration, the known hosts, the files. *)
Definition client := (ClientCfg * KnownHosts * disk)%type.
Definition cfg_of (c : client) : ClientCfg := c.1.1.
Definition known_of (c : client) : KnownHosts := c.1.2.

Definition DeriveNewConfig (dc : DialConfig) (known : option KnownHosts) (files : disk) : outcome client :=
  let cfg := mkClient (TofuAddIfNotKnown dc) (DcTestAllowOneshotConnect dc) (5 * second) false
               (if DcSkipKeepAlive dc then 0 else if DcKeepAliveEvery dc <=? 0 then second else DcKeepAliveEvery dc) (RsaPath dc) in
  let? known :=
    match known with
    | Some h => Ok h
    | None =>
        let? h := NewKnownHosts K ParsePublicKey MarshalAuthorizedKey decode_hosts (fun p => files !! p) (ClientKnownHostsPath dc) KHSsh in
        Ok (set_NoSave (DoNotUpdateSshKnownHosts dc) h)
    end in
  Ok (cfg, known, files).

(** ** Connecting *)

Definition handshake_error (e : string) : string := "ssh: handshake failed: " +:+ e.
Definition dial_error (dc : DialConfig) (e : string) : string :=
  "sshConnect() errored at dial to '" +:+ hostport dc +:+ "': '" +:+ e +:+ "' ".
Definition key_error (dc : DialConfig) (e : string) : string :=
  "error in SshegoConfig.SSHConnect() to '" +:+ Mylogin dc +:+ "@" +:+ hostport dc +:+ "', LoadRSAPrivateKey(keypath='" +:+
  RsaPath dc +:+ "') errored with: '" +:+ e +:+ "'".

(** The connection that a keep-alive reports as lost. *)
Definition keepalive_uhp (dc : DialConfig) : UHP := mkUHP (Mylogin dc) (hostport dc) "".

(** [mySSHDial]: the server's key goes to the callback of [SSHConnect]. *)
Definition mySSHDial (dc : DialConfig) (a : attempt) (c : client) : outcome (client * (Client + string)) :=
  let '(cfg, known, files) := c in
  match a with
  | DialFails e => Ok (c, inr e)
  | NoKey e => Ok (c, inr (handshake_error e))
  | Offers key remote now next =>
      let? '(known, files, err) :=
        hostKeyCallback (hostport dc) remote now key (AddIfNotKnown cfg) (TestAllowOneshotConnect cfg) known files in
      Ok ((cfg, known, files),
          match err, next with
          | Some e, _ => inr (handshake_error e)
          | None, HandshakeFails e => inr (handshake_error e)
          | None, Established cli ping =>
              match (if 0 <? KeepAliveEvery cfg then ping else None) with Some e => inr e | None => inl cli end
          end)
  end.

Definition with_keepalive (c : client) : client :=
  let '(cfg, known, files) := c in
  (if negb (SkipKeepAlive cfg) && (KeepAliveEvery cfg <=? 0) then set_KeepAliveEvery second cfg else cfg, known, files).

Definition SSHConnect (dc : DialConfig) (a : attempt) (c : client) : outcome (client * (Client + string)) :=
  let c := with_keepalive c in
  match (if (RsaPath dc =? "")%string then Ok tt else LoadRSAPrivateKey (RsaPath dc)) with
  | Err e => Ok (c, inr (key_error dc e))
  | Panic s => Panic s
  | Blocked => Blocked
  | Ok _ =>
      let? '(c, r) := mySSHDial dc a c in
      Ok (c, match r with inl cli => inl cli | inr e => inr (dial_error dc e) end)
  end.

(** The loop of [Dial]: a refused connection is tried again. *)
Fixpoint dial_tries (retryCount : nat) (dc : DialConfig) (err : string) (net : network) (c : client)
  : outcome (client * network * (Client + string)) :=
  match retryCount with
  | O => Ok (c, net, inr err)
  | S retryCount =>
      match net with
      | [] => Blocked
      | (_, a) :: net =>
          let? '(c, r) := SSHConnect dc a c in
          match r with
          | inl cli => Ok (c, net, inl cli)
          | inr e => if Contains e refused then dial_tries retryCount dc e net c else Ok (c, net, inr e)
          end
      end
  end.

(** The destination behind the server. *)
Definition downstream_of (dc : DialConfig) : outcome stream :=
  let hp := Trim (DownstreamHostPort dc) ws in
  let finish (tryUnixDomain : bool) (host : string) :=
    if tryUnixDomain || match host with String c _ => Ascii.eqb c "/" | "" => false end
    then Ok (UnixStream host) else Ok (TcpStream hp) in
  if HasSuffix hp ":-2" then finish true (stake (String.length hp - 3) hp)
  else
    match GoStrings.SplitHostPort hp with
    | Ok (host, _) => finish false host
    | Err e =>
        if Contains e "missing port in address" then finish true hp
        else Err ("error from net.SplitHostPort on '" +:+ hp +:+ "': '" +:+ e +:+ "'")
    | Panic s => Panic s
    | Blocked => Blocked
    end.

(** [Dial] with a configuration: the connection and the stream that is then
    asked for on it. *)
Definition Dial (dc : DialConfig) (skipDownstream : bool) (net : network) (c : client)
  : outcome (client * network * ((Client * stream) + string)) :=
  let? '(c, net, r) := dial_tries 3 dc "" net c in
  match r with
  | inr e => Ok (c, net, inr e)
  | inl cli =>
      if skipDownstream then Ok (c, net, inl (cli, NoStream))
      else match downstream_of dc with
           | Ok s => Ok (c, net, inl (cli, s))
           | Err e => Ok (c, net, inr e)
           | Panic s => Panic s
           | Blocked => Blocked
           end
  end.

(** ** The Tricorder

    Channels are numbers; [closedChans] and [idleSet] are those that were closed
    and those whose idle timeout was set. A zero time is [None]. *)
Record Tricorder := mkTri {
  Name : string;
  dc : DialConfig;
  env : client;
  halts : world;
  parentHalt : option nat;
  Halt : nat;
  channelsHalt : nat;
  uhp : UHP;
  cli : option Client;
  nc : option Client;
  sshChannels : gset nat;
  closedChans : gset nat;
  idleSet : gset nat;
  tofu : bool;
  lastConnectTime : option Z;
}.

Definition cfg (t : Tricorder) : ClientCfg := cfg_of (env t).
Definition known (t : Tricorder) : KnownHosts := known_of (env t).

Definition with_env (e : client) (t : Tricorder) : Tricorder :=
  mkTri (Name t) (dc t) e (halts t) (parentHalt t) (Halt t) (channelsHalt t) (uhp t) (cli t) (nc t) (sshChannels t)
    (closedChans t) (idleSet t) (tofu t) (lastConnectTime t).
Definition with_halts (w : world) (t : Tricorder) : Tricorder :=
  mkTri (Name t) (dc t) (env t) w (parentHalt t) (Halt t) (channelsHalt t) (uhp t) (cli t) (nc t) (sshChannels t)
    (closedChans t) (idleSet t) (tofu t) (lastConnectTime t).
Definition with_channelsHalt (h : nat) (t : Tricorder) : Tricorder :=
  mkTri (Name t) (dc t) (env t) (halts t) (parentHalt t) (Halt t) h (uhp t) (cli t) (nc t) (sshChannels t)
    (closedChans t) (idleSet t) (tofu t) (lastConnectTime t).
Definition with_uhp (u : UHP) (t : Tricorder) : Tricorder :=
  mkTri (Name t) (dc t) (env t) (halts t) (parentHalt t) (Halt t) (channelsHalt t) u (cli t) (nc t) (sshChannels t)
    (closedChans t) (idleSet t) (tofu t) (lastConnectTime t).
Definition with_cli (c : option Client) (t : Tricorder) : Tricorder :=
  mkTri (Name t) (dc t) (env t) (halts t) (parentHalt t) (Halt t) (channelsHalt t) (uhp t) c c (sshChannels t)
    (closedChans t) (idleSet t) (tofu t) (lastConnectTime t).
Definition with_channels (open closed idle : gset nat) (t : Tricorder) : Tricorder :=
  mkTri (Name t) (dc t) (env t) (halts t) (parentHalt t) (Halt t) (channelsHalt t) (uhp t) (cli t) (nc t) open
    closed idle (tofu t) (lastConnectTime t).
(** [t.tofu = false] and [t.cfg.AddIfNotKnown = false]. *)
Definition trusted (dc : DialConfig) (t : Tricorder) : Tricorder :=
  let '(cfg, known, files) := env t in
  mkTri (Name t) dc (set_AddIfNotKnown false cfg, known, files) (halts t) (parentHalt t) (Halt t) (channelsHalt t) (uhp t)
    (cli t) (nc t) (sshChannels t) (closedChans t) (idleSet t) false (lastConnectTime t).
Definition with_last (now : Z) (t : Tricorder) : Tricorder :=
  mkTri (Name t) (dc t) (env t) (halts t) (parentHalt t) (Halt t) (channelsHalt t) (uhp t) (cli t) (nc t) (sshChannels t)
    (closedChans t) (idleSet t) (tofu t) (Some now).

(** The Tricorder's halter and the one downstream of it. *)
Definition request_stop (t : Tricorder) : outcome Tricorder :=
  let? w := RequestStop 2 (Halt t) (halts t) in Ok (with_halts w t).
Definition stop_requested (t : Tricorder) : bool :=
  match halters (halts t) !! Halt t with Some h => Chan (reqStop h) | None => false end.

Definition retries : nat := 10.

(** The loop of [helperNewClientConnect]: [err] is the error so far. *)
Fixpoint connect_tries (tries : nat) (net : network) (err : option tri_error) (t : Tricorder)
  : outcome (Tricorder * network * (option Client) * option tri_error) :=
  match tries, net with
  | O, _ => Ok (t, net, None, err)
  | S _, [] => Blocked
  | S tries, (stop, _) :: _ =>
      let? t := if stop : bool then request_stop t else Ok t in
      if stop_requested t then Ok (t, net, None, Some ErrShutdown)
      else
        let? '(e, net, r) := Dial (dc t) true net (env t) in
        let t := with_env e t in
        match r with
        | inl (c, _) => Ok (trusted (dc t) t, net, Some c, None)
        | inr errs =>
            if Contains errs without_new then
              if tofu t then connect_tries tries net (Some (Failed errs)) (trusted (set_Tofu false (dc t)) t)
              else Ok (t, net, None, Some (Failed errs))
            else connect_tries tries net (Some (Failed errs)) t
        end
  end.

(** [now] is the time at its end. *)
Definition helperNewClientConnect (now : Z) (net : network) (t : Tricorder)
  : outcome (Tricorder * network * option tri_error) :=
  let? '(t, net, err) :=
    match IpAddr.SplitHostPort (HostPort (uhp t)) with
    | Err e => Ok (t, net, Some (Failed e))
    | Panic s => Panic s
    | Blocked => Blocked
    | Ok _ =>
        if (PrivateKeyPath (cfg t) =? "")%string then Panic "problem! t.cfg.PrivateKeyPath is empty"
        else
          let? '(t, net, sshcli, err) := connect_tries retries net None t in
          match err, sshcli with
          | Some e, _ => Ok (t, net, Some e)
          | None, Some c => Ok (with_cli (Some c) t, net, None)
          | None, None => Panic "why no NcCloser()???"
          end
    end in
  Ok (match err with Some _ => with_last now t | None => t end, net, err).

Definition closeChannels (t : Tricorder) : Tricorder :=
  with_channels ∅ (closedChans t ∪ sshChannels t) (idleSet t) t.

(** [now.Sub(t)] saturates: from the zero time it is the longest duration. *)
Definition since (now : Z) (t : option Z) : Z :=
  match t with Some t => Z.max min_int64 (Z.min max_int64 (now - t)) | None => max_int64 end.

(** A halter of its own for the next channels. *)
Definition renew_channelsHalt (t : Tricorder) : outcome Tricorder :=
  let? w := RequestStop 1 (channelsHalt t) (halts t) in
  let? w := MarkDone 1 (channelsHalt t) w in
  let? w := RemoveDownstream (Halt t) (channelsHalt t) w in
  let h := fresh (dom (halters w)) in
  let? w := AddDownstream (Halt t) h (put h NewHalter w) in
  Ok (with_channelsHalt h (with_halts w t)).

(** The end of the goroutine. *)
Definition exit_loop (t : Tricorder) : outcome Tricorder :=
  let? w := RequestStop 1 (channelsHalt t) (halts t) in
  let? w := MarkDone 1 (channelsHalt t) w in
  let? w := RequestStop 2 (Halt t) w in
  let? w := MarkDone 2 (Halt t) w in
  let? w := match parentHalt t with Some p => RemoveDownstream p (Halt t) w | None => Ok w end in
  Ok (closeChannels (with_halts w t)).

(** The connection is dropped and made anew; the error of the new one. *)
Definition replace_connection (u : UHP) (later : Z) (net : network) (t : Tricorder)
  : outcome (Tricorder * network * option tri_error) :=
  let t := closeChannels (with_uhp u t) in
  let? t := renew_channelsHalt t in
  helperNewClientConnect later net (with_cli None t).

(** A request to reconnect, at [now]; the boolean: the goroutine goes on. *)
Definition reconnect (u : UHP) (now later : Z) (net : network) (t : Tricorder)
  : outcome (Tricorder * network * bool) :=
  if negb (UHP_User u =? UHP_User (uhp t))%string
  then Panic (Name t +:+ " yikes, bad! uhp from reconnectNeededChan asks for change of user: '" +:+ UHP_User u +:+
              "' != '" +:+ UHP_User (uhp t) +:+ "' previous")
  else if negb (HostPort u =? HostPort (uhp t))%string
  then Panic (Name t +:+ " yikes, bad! uhp from reconnectNeededChan asks for change of hostport: '" +:+ HostPort u +:+
              "' != '" +:+ HostPort (uhp t) +:+ "' previous")
  else if since now (lastConnectTime t) <? second then Ok (t, net, true)
  else
    let? '(t, net, err) := replace_connection u later net t in
    match err with
    | None => Ok (t, net, true)
    | Some ErrShutdown => let? t := exit_loop t in Ok (t, net, false)
    | Some (Failed e) => Panic e
    end.

(** tcpip.go, [DialWithContext] for "tcp": the host and port that are asked
    for. *)
Definition dial_target (addr : string) : outcome (string * Z) :=
  let? '(host, portString) := GoStrings.SplitHostPort addr in
  match ParseUint portString 16 with
  | (_, Some e) => Err e
  | (port, None) => Ok (host, port)
  end.

(** [opening] is what the server answers when a channel is asked for. The ticket
    comes back with a channel or an error. *)
Definition helperGetChannel (tk : getChannelTicket) (opening : nat + string) (now : Z) (net : network) (t : Tricorder)
  : outcome (Tricorder * network * (nat + tri_error)) :=
  let? '(t, net, err) :=
    match cli t with
    | Some _ => Ok (t, net, None)
    | None => helperNewClientConnect now net t
    end in
  match err with
  | Some e => Ok (t, net, inr e)
  | None =>
      let answer :=
        if (typ tk =? "direct-tcpip")%string
        then match dial_target (Trim (targetHostPort tk) ws) with Ok _ => opening | Err e => inr e | _ => opening end
        else opening in
      match answer with
      | inl ch =>
          let idle := if 0 <? IdleTimeoutDur (cfg t) then {[ch]} ∪ idleSet t else idleSet t in
          Ok (with_channels ({[ch]} ∪ sshChannels t) (closedChans t) idle t, net, inl ch)
      | inr e => Ok (t, net, inr (Failed e))
      end
  end.

(** [NewTricorder], on the halters of the program: the initial connection is
    made by the caller; with an error the Tricorder is dropped as it is. *)
Definition NewTricorder (d : DialConfig) (hosts : option KnownHosts) (files : disk) (parent : option nat) (name : string)
    (now : Z) (net : network) (w : world) : outcome (Tricorder * network * option tri_error) :=
  let? e := DeriveNewConfig d hosts files in
  let h := fresh (dom (halters w)) in
  let w := put h NewHalter w in
  let c := fresh (dom (halters w)) in
  let w := put c NewHalter w in
  let? w := match parent with Some p => AddDownstream p h w | None => Ok w end in
  let? w := AddDownstream h c w in
  helperNewClientConnect now net
    (mkTri name d e w parent h c (mkUHP (Mylogin d) (hostport d) (DestNickname d)) None None ∅ ∅ ∅ (TofuAddIfNotKnown d) None).

(** ** The goroutine and its callers *)

Inductive sys := Running (t : Tricorder) | Exited (t : Tricorder).

(** One choice of the goroutine's select, or a stop that others request. *)
Inductive tri_step : sys -> sys -> Prop :=
| tri_stop t t' : stop_requested t = true -> exit_loop t = Ok t' -> tri_step (Running t) (Exited t')
| tri_reconnect u now later net t t' net' :
    reconnect u now later net t = Ok (t', net', true) -> tri_step (Running t) (Running t')
| tri_abandon u now later net t t' net' :
    reconnect u now later net t = Ok (t', net', false) -> tri_step (Running t) (Exited t')
| tri_channel tk opening now net t t' net' r :
    helperGetChannel tk opening now net t = Ok (t', net', r) -> tri_step (Running t) (Running t')
| tri_request t t' : request_stop t = Ok t' -> tri_step (Running t) (Running t').

(** The calls: a channel waits for the goroutine alone, the others also for the
    stop request; [choice] is that of a select with both ready. *)
Definition SSHChannel (tk : getChannelTicket) (opening : nat + string) (now : Z) (net : network) (s : sys)
  : outcome (sys * (nat + tri_error)) :=
  match s with
  | Running t => let? '(t, net, r) := helperGetChannel tk opening now net t in Ok (Running t, r)
  | Exited _ => Blocked
  end.
Definition shutdown_or {A} (choice : bool) (s : sys) (get : Tricorder -> A) : outcome (A + tri_error) :=
  match s with
  | Running t => if stop_requested t && choice then Ok (inr ErrShutdown) else Ok (inl (get t))
  | Exited t => if stop_requested t then Ok (inr ErrShutdown) else Blocked
  end.
Definition Cli (choice : bool) (s : sys) : outcome (option Client + tri_error) := shutdown_or choice s cli.
Definition Nc (choice : bool) (s : sys) : outcome (option Client + tri_error) := shutdown_or choice s nc.

(** ** Attempts *)

(** What attempts leave as it is: the settings, and without -new also the known
    hosts and the files. *)
Definition same_trust (c c' : client) : Prop :=
  AddIfNotKnown (cfg_of c') = AddIfNotKnown (cfg_of c) /\
  TestAllowOneshotConnect (cfg_of c') = TestAllowOneshotConnect (cfg_of c) /\
  PrivateKeyPath (cfg_of c') = PrivateKeyPath (cfg_of c) /\
  (AddIfNotKnown (cfg_of c) = false -> Hosts (known_of c') = Hosts (known_of c) /\ c'.2 = c.2).

Lemma same_trust_refl c : same_trust c c.
Proof. by repeat split. Qed.
Lemma same_trust_trans c1 c2 c3 : same_trust c1 c2 -> same_trust c2 c3 -> same_trust c1 c3.
Proof.
  intros (A1 & B1 & D1 & H1) (A2 & B2 & D2 & H2). split_and!; [congruence..|]. intros E.
  destruct (H1 E), H2; [congruence|]. split; congruence.
Qed.

(** [cl] is a connection to a server whose key was on record for the name that
    is dialled. *)
Definition known_server (d : DialConfig) (hosts : gmap string ServerPubKey) (key : K) : Prop :=
  exists r, hosts !! MarshalAuthorizedKey key = Some r /\ ServerBanned r = false /\
    (Hostname r = hostport d \/ hostport d ∈ SplitHostnames r).

Lemma SSHConnect_spec d a c c' r :
  SSHConnect d a c = Ok (c', r) ->
  same_trust c c' /\
  forall cl, r = inl cl -> TestAllowOneshotConnect (cfg_of c) = false ->
    AddIfNotKnown (cfg_of c) = false /\
    exists key remote now ping, a = Offers key remote now (Established cl ping) /\ known_server d (Hosts (known_of c')) key.
Proof.
  destruct c as [[cf k] f]. unfold SSHConnect, with_keepalive. set (cf' := if _ : bool then _ else cf).
  assert (same_trust (cf, k, f) (cf', k, f)) as HS by (unfold cf'; by destruct (_ && _)).
  destruct (if (RsaPath d =? "")%string then Ok tt else _) as [[]|e| |]; try done; [|by intros [= <- <-]].
  intros ([c1 r1] & H & H')%obind_ok. injection H' as <- <-. unfold mySSHDial in H.
  destruct a as [e|e|key remote now next]; [by injection H as <- <-..|].
  apply obind_ok in H as ([[k1 f1] v] & HC & H). injection H as <- <-. split.
  - eapply same_trust_trans; [exact HS|]. split_and!; try done. cbn. intros E. rewrite E in HC.
    by apply callback_keeps in HC as [-> ->].
  - intros cl Hcl Ht. destruct HS as (A & B & _ & _). cbn in A, B. cbn in Ht.
    destruct v as [e|]; [done|]. destruct next as [e|cl' ping]; [done|].
    destruct (if 0 <? KeepAliveEvery cf' then ping else None); [done|]. injection Hcl as ->.
    pose proof (callback_accepts _ _ _ _ _ _ _ _ _ _ _ _ _ _ _ _ _ HC) as (Hban & [(_ & Ho & _)|(Ha & rec & Hr & Hn)]); [congruence|].
    split; [cbn; congruence|]. exists key, remote, now, ping. split; [done|]. rewrite Ha in HC.
    apply callback_keeps in HC as [E _]. exists rec. cbn. rewrite E. auto.
Qed.

Lemma dial_tries_spec n d err net c c' net' r :
  dial_tries n d err net c = Ok (c', net', r) ->
  same_trust c c' /\ (exists used, net = used ++ net' /\ (List.length used <= n)%nat /\ (n <> 0%nat -> used <> [])) /\
  forall cl, r = inl cl -> TestAllowOneshotConnect (cfg_of c) = false ->
    AddIfNotKnown (cfg_of c) = false /\
    exists stop key remote now ping,
      (stop, Offers key remote now (Established cl ping)) ∈ net /\ known_server d (Hosts (known_of c')) key.
Proof.
  revert err net c. induction n as [|n IH]; intros err net c.
  { intros [= <- <- <-]. split; [apply same_trust_refl|]. split; [|done]. by exists []. }
  cbn [dial_tries]. destruct net as [|[stop a] net]; [done|]. intros ([c1 r1] & [HS HC]%SSHConnect_spec & H)%obind_ok.
  destruct r1 as [cl1|e].
  - injection H as <- <- <-. split; [done|]. split; [exists [(stop, a)]; split_and!; [done|simpl; lia|done]|].
    intros cl [= ->] Ht. destruct (HC cl eq_refl Ht) as (Ha & key & remote & now & ping & -> & Hk). split; [done|].
    exists stop, key, remote, now, ping. split; [apply list_elem_of_here|done].
  - destruct (Contains e refused).
    + apply IH in H as (HS2 & (used & -> & Hu & _) & Hcl). split; [by eapply same_trust_trans|].
      split; [exists ((stop, a) :: used); split_and!; [done|simpl; lia|done]|].
      destruct HS as (A & B & _ & _). intros cl Hr Ht. rewrite <- B in Ht. destruct (Hcl cl Hr Ht) as (Ha & s' & key & remote & now & ping & Hin & Hk).
      split; [congruence|]. exists s', key, remote, now, ping. split; [by apply list_elem_of_further|done].
    + injection H as <- <- <-. split; [done|]. split; [|done]. exists [(stop, a)]. split_and!; [done|simpl; lia|done].
Qed.

Lemma Dial_spec d net c c' net' r :
  Dial d true net c = Ok (c', net', r) ->
  same_trust c c' /\ (exists used, net = used ++ net' /\ (List.length used <= 3)%nat /\ used <> []) /\
  forall cl s, r = inl (cl, s) -> TestAllowOneshotConnect (cfg_of c) = false ->
    AddIfNotKnown (cfg_of c) = false /\
    exists stop key remote now ping,
      (stop, Offers key remote now (Established cl ping)) ∈ net /\ known_server d (Hosts (known_of c')) key.
Proof.
  unfold Dial. intros ([[c1 n1] r1] & (HS & (used & -> & Hl & Hu) & HC)%dial_tries_spec & H)%obind_ok.
  assert (exists used0, used ++ n1 = used0 ++ n1 /\ (List.length used0 <= 3)%nat /\ used0 <> []) as Hex by (exists used; auto).
  destruct r1 as [cl1|e]; injection H as <- <- <-; (split; [done|]); (split; [done|]); [|done].
  intros cl s [= -> <-]. by apply HC.
Qed.

(** *** The tries *)

(** A property that each part of a try keeps holds at the end. *)
Lemma connect_tries_inv (P : Tricorder -> Prop) :
  (forall t e net net' r, P t -> Dial (dc t) true net (env t) = Ok (e, net', r) -> P (with_env e t)) ->
  (forall t t', P t -> request_stop t = Ok t' -> P t') ->
  (forall t, P t -> P (trusted (dc t) t) /\ P (trusted (set_Tofu false (dc t)) t)) ->
  forall n net err t t' net' c err', connect_tries n net err t = Ok (t', net', c, err') -> P t -> P t'.
Proof.
  intros HD HR HT n. induction n as [|n IH]; intros net err t t' net' c err'; [by intros [= <- <- <- <-]|].
  cbn [connect_tries]. destruct net as [|[stop a] net]; [done|]. intros (t1 & H1 & H)%obind_ok HP.
  assert (P t1) as HP1 by (destruct stop; [by eapply HR|by injection H1 as <-]). clear H1 HP.
  destruct (stop_requested t1); [by injection H as <- <- <- <-|].
  apply obind_ok in H as ([[e n1] r] & HDial & H). specialize (HD _ _ _ _ _ HP1 HDial).
  destruct r as [[cl s]|e1]; [injection H as <- <- <- <-; by apply (HT (with_env e t1))|].
  destruct (Contains e1 without_new); [|by eapply IH].
  destruct (tofu (with_env e t1)); [|by injection H as <- <- <- <-]. eapply IH; [exact H|]. by apply (HT (with_env e t1)).
Qed.

Lemma connect_tries_used n net err t t' net' c err' :
  connect_tries n net err t = Ok (t', net', c, err') -> exists used, net = used ++ net' /\ (List.length used <= 3 * n)%nat.
Proof.
  revert net err t. induction n as [|n IH]; intros net err t; [intros [= <- <- <- <-]; by exists []|].
  cbn [connect_tries]. destruct net as [|[stop a] net]; [done|]. set (all := (stop, a) :: net).
  intros (t1 & _ & H)%obind_ok. destruct (stop_requested t1); [injection H as <- <- <- <-; exists []; split; [done|simpl; lia]|].
  apply obind_ok in H as ([[e n1] r] & (_ & (used & -> & Hl & _) & _)%Dial_spec & H).
  destruct r as [[cl s]|e1]; [injection H as <- <- <- <-; exists used; split; [done|lia]|].
  assert (forall err t, connect_tries n n1 err t = Ok (t', net', c, err') -> exists used0, used ++ n1 = used0 ++ net' /\ (List.length used0 <= 3 * S n)%nat) as HI.
  { intros err0 t0 (u2 & -> & Hl2)%IH. exists (used ++ u2). rewrite app_assoc, length_app. split; [done|lia]. }
  destruct (Contains e1 without_new); [|by eapply HI]. destruct (tofu _); [by eapply HI|].
  injection H as <- <- <- <-. exists used. split; [done|lia].
Qed.

Definition connected_to (d : DialConfig) (net : network) (hosts : gmap string ServerPubKey) (cl : Client) : Prop :=
  exists stop key remote now ping,
    (stop, Offers key remote now (Established cl ping)) ∈ net /\ known_server d hosts key.

Lemma connect_tries_success n net err t t' net' c :
  connect_tries n net err t = Ok (t', net', c, None) -> n <> 0%nat \/ err <> None ->
  exists cl, c = Some cl /\ tofu t' = false /\ AddIfNotKnown (cfg t') = false /\
    (TestAllowOneshotConnect (cfg t) = false -> connected_to (dc t) net (Hosts (known t')) cl).
Proof.
  revert net err t. induction n as [|n IH]; intros net err t; [by intros [= <- <- <- ->] [?|?]|].
  cbn [connect_tries]. destruct net as [|[stop a] net]; [done|]. set (all := (stop, a) :: net).
  intros (t1 & H1 & H)%obind_ok _.
  assert (env t1 = env t /\ dc t1 = dc t) as [E1 E2].
  { destruct stop; [|by injection H1 as <-]. unfold request_stop in H1. apply obind_ok in H1 as (w & _ & H1). by injection H1 as <-. }
  destruct (stop_requested t1); [done|]. rewrite E1, E2 in H.
  apply obind_ok in H as ([[e n1] r] & (HS & (used & HU & _ & _) & HC)%Dial_spec & H). rewrite HU in HC |- *. clear all HU.
  destruct HS as (A & B & _ & _). destruct r as [[cl s]|e1].
  - injection H as <- <- <-. exists cl. unfold trusted, with_env. destruct e as [[cf k] f]. split_and!; try done.
    intros Ht. destruct (HC cl s eq_refl Ht) as (Ha & st & key & remote & now & ping & Hin & Hk).
    exists st, key, remote, now, ping. done.
  - assert (forall t2, (connect_tries n n1 (Some (Failed e1)) t2 = Ok (t', net', c, None)) -> dc t2 = dc t \/ dc t2 = set_Tofu false (dc t) ->
      TestAllowOneshotConnect (cfg t2) = TestAllowOneshotConnect (cfg_of e) -> exists cl, c = Some cl /\ tofu t' = false /\
      AddIfNotKnown (cfg t') = false /\ (TestAllowOneshotConnect (cfg t) = false -> connected_to (dc t) (used ++ n1) (Hosts (known t')) cl)) as HI.
    { intros t2 H2 Hd Ht2. destruct (IH _ _ _ H2) as (cl & -> & Hf & Ha & HK); [by right|].
      exists cl. split_and!; try done. intros Ht. unfold cfg in Ht. destruct HK as (st & key & remote & now & ping & Hin & Hk); [congruence|].
      exists st, key, remote, now, ping. split; [by apply elem_of_app; right|]. by destruct Hd as [Hd|Hd]; rewrite Hd in Hk. }
    destruct (Contains e1 without_new); [|eapply HI; [exact H|left; exact E2|done]].
    destruct (tofu (with_env e t1)); [|done].
    eapply HI; [exact H|..]; unfold trusted, with_env; destruct e as [[cf k] f]; cbn in *; [rewrite E2; by right|done].
Qed.

(** *** What the tries leave as it is *)

Definition same_frame (t t' : Tricorder) : Prop :=
  set_Tofu false (dc t') = set_Tofu false (dc t) /\ parentHalt t' = parentHalt t /\ Halt t' = Halt t /\
  channelsHalt t' = channelsHalt t /\ uhp t' = uhp t /\ sshChannels t' = sshChannels t /\ closedChans t' = closedChans t /\
  TestAllowOneshotConnect (cfg t') = TestAllowOneshotConnect (cfg t) /\ PrivateKeyPath (cfg t') = PrivateKeyPath (cfg t) /\
  (AddIfNotKnown (cfg t) = false ->
     AddIfNotKnown (cfg t') = false /\ Hosts (known t') = Hosts (known t) /\ (env t').2 = (env t).2) /\
  (tofu t = false -> tofu t' = false).

Lemma same_frame_refl t : same_frame t t.
Proof. unfold same_frame. split_and!; auto. Qed.

Lemma same_frame_trans t1 t2 t3 : same_frame t1 t2 -> same_frame t2 t3 -> same_frame t1 t3.
Proof.
  intros (A1 & A2 & A3 & A4 & A5 & A6 & A7 & A8 & A9 & A10 & A11) (B1 & B2 & B3 & B4 & B5 & B6 & B7 & B8 & B9 & B10 & B11).
  unfold same_frame. split_and!; try congruence; [|auto].
  intros E. destruct (A10 E) as (G1 & G2 & G3), (B10 G1) as (G4 & G5 & G6). split_and!; congruence.
Qed.
Lemma same_frame_halts w t : same_frame t (with_halts w t).
Proof. unfold same_frame. split_and!; auto. Qed.

(** The Tricorder's two halters, as they are while it runs. *)
Definition halts_ok (t : Tricorder) : Prop :=
  exists m hh hc, halts t = mkWorld m ∅ /\ Halt t <> channelsHalt t /\ m !! Halt t = Some hh /\ m !! channelsHalt t = Some hc /\
    wf_halter hh /\ wf_halter hc /\ downstream hh = {[channelsHalt t]} /\ downstream hc = ∅ /\
    match parentHalt t with
    | Some p => exists hp, m !! p = Some hp /\ wf_halter hp /\ p <> Halt t /\ p <> channelsHalt t /\ Halt t ∈ downstream hp
    | None => True
    end.

Lemma request_stop_keeps t :
  halts_ok t -> exists t', request_stop t = Ok t' /\ halts_ok t' /\ same_frame t t' /\ cli t' = cli t /\ nc t' = nc t /\
    lastConnectTime t' = lastConnectTime t /\ stop_requested t' = true.
Proof.
  intros (m & hh & hc & Hw & Hne & Hh & Hc & Wh & Wc & Dh & Dc & HP). unfold request_stop. rewrite Hw.
  rewrite (RequestStop_pair (Halt t) (channelsHalt t) hh hc) by done. cbn [obind]. eexists. split; [reflexivity|].
  split; [|split; [apply same_frame_halts|]; split_and!; try done].
  - eexists _, (stopped hh), (stopped hc). split; [reflexivity|]. cbn. split; [done|]. split; [by rewrite lookup_insert_ne, lookup_insert_eq by done|].
    split; [by rewrite lookup_insert_eq|]. split_and!; try by apply stopped_wf. { done. } { done. }
    destruct (parentHalt t) as [p|]; [|done]. destruct HP as (hp & HPm & ? & ? & ? & ?). exists hp. rewrite !lookup_insert_ne by done. done.
  - unfold stop_requested. cbn. by rewrite lookup_insert_ne, lookup_insert_eq by done.
Qed.

(** The tries keep the halters in order, and change only what is to change. *)
Lemma connect_tries_frame n net err t t' net' c err' :
  connect_tries n net err t = Ok (t', net', c, err') -> halts_ok t ->
  halts_ok t' /\ same_frame t t' /\ cli t' = cli t /\ nc t' = nc t /\ lastConnectTime t' = lastConnectTime t.
Proof.
  intros H Hok. refine (connect_tries_inv (fun t1 => halts_ok t1 /\ same_frame t t1 /\ cli t1 = cli t /\ nc t1 = nc t /\
    lastConnectTime t1 = lastConnectTime t) _ _ _ n net err t t' net' c err' H _); clear H.
  - intros t1 e n1 n2 r (Hh & HF & HR) ((A & B & D & Hk) & _)%Dial_spec. split; [exact Hh|]. split; [|exact HR].
    eapply same_frame_trans; [exact HF|]. unfold same_frame, cfg, known in *. cbn. split_and!; try done. intros E.
    destruct (Hk E). split_and!; congruence.
  - intros t1 t2 (Hh & HF & C1 & C2 & C3) HR. destruct (request_stop_keeps t1 Hh) as (t2' & HR' & Hh' & HF' & C1' & C2' & C3' & _).
    rewrite HR in HR'. injection HR' as <-. split; [done|]. split; [by eapply same_frame_trans|split_and!; congruence].
  - intros t1 (Hh & HF & HR). assert (forall d, d = dc t1 \/ d = set_Tofu false (dc t1) -> halts_ok (trusted d t1) /\ same_frame t (trusted d t1) /\
      cli (trusted d t1) = cli t /\ nc (trusted d t1) = nc t /\ lastConnectTime (trusted d t1) = lastConnectTime t) as HT;
      [|split; apply HT; auto].
    intros d Hd. assert (same_frame t1 (trusted d t1)) as HF'.
    { unfold trusted, same_frame, cfg, known. destruct (env t1) as [[cf k] f]. cbn. split_and!; try done. by destruct Hd as [-> | ->]. }
    split; [|split; [by eapply same_frame_trans|]]; unfold trusted; destruct (env t1) as [[cf k] f]; done.
  - split; [done|]. split; [apply same_frame_refl|done].
Qed.

(** Trying ends no halter. *)
Lemma helper_not_done now net t t' net' err :
  helperNewClientConnect now net t = Ok (t', net', err) -> ~ is_done (halters (halts t)) (Halt t) ->
  ~ is_done (halters (halts t')) (Halt t').
Proof.
  unfold helperNewClientConnect. intros ([[t1 n1] err1] & H & H')%obind_ok Hn. injection H' as <- <- <-.
  assert (~ is_done (halters (halts t1)) (Halt t1)); [|by destruct err1].
  destruct (IpAddr.SplitHostPort (HostPort (uhp t))) as [hp|e| |]; [|by injection H as <- <- <-|done..].
  destruct (PrivateKeyPath (cfg t) =? "")%string; [done|]. apply obind_ok in H as ([[[t2 n2] c] err2] & HC & H).
  assert (~ is_done (halters (halts t2)) (Halt t2)); [|destruct err2; [|destruct c; [|done]]; by injection H as <- <- <-].
  refine (connect_tries_inv (fun t => ~ is_done (halters (halts t)) (Halt t)) _ _ _ _ _ _ _ _ _ _ _ HC Hn); [done|..].
  - intros t3 t4 Ht3 Hr. unfold request_stop in Hr. apply obind_ok in Hr as (w & Hw%RequestStop_same & Hr). injection Hr as <-.
    cbn. by rewrite (Hw (Halt t3)).
  - intros t3 Ht3. unfold trusted. by destruct (env t3) as [[? ?] ?].
Qed.

Lemma helper_frame now net t t' net' err :
  helperNewClientConnect now net t = Ok (t', net', err) -> halts_ok t ->
  halts_ok t' /\ same_frame t t' /\
  (err = None -> lastConnectTime t' = lastConnectTime t /\ tofu t' = false /\ AddIfNotKnown (cfg t') = false /\
     exists cl, cli t' = Some cl /\ nc t' = Some cl /\
       (TestAllowOneshotConnect (cfg t) = false -> connected_to (dc t) net (Hosts (known t')) cl)) /\
  exists used, net = used ++ net' /\ (List.length used <= 3 * retries)%nat.
Proof.
  unfold helperNewClientConnect. intros ([[t1 n1] err1] & H & H')%obind_ok Hok. injection H' as <- <- <-.
  destruct (IpAddr.SplitHostPort (HostPort (uhp t))) as [hp|e| |]; [|injection H as <- <- <-|done..].
  2: { split; [exact Hok|]. split; [unfold same_frame; split_and!; auto|]. split; [done|]. exists []. split; [done|simpl; lia]. }
  destruct (PrivateKeyPath (cfg t) =? "")%string; [done|].
  apply obind_ok in H as ([[[t2 n2] c] err2] & HC & H).
  destruct (connect_tries_frame _ _ _ _ _ _ _ _ HC Hok) as (Hok2 & HF & _ & _ & HL).
  pose proof (connect_tries_used _ _ _ _ _ _ _ _ HC) as Hu. destruct err2 as [e|].
  - injection H as <- <- <-. split; [exact Hok2|]. split; [|by split]. eapply same_frame_trans; [exact HF|]. unfold same_frame. split_and!; auto.
  - destruct c as [cl|]; [|done]. injection H as <- <- <-. split; [exact Hok2|].
    split; [eapply same_frame_trans; [exact HF|]; unfold same_frame; split_and!; auto|]. split; [|done]. intros _.
    apply connect_tries_success in HC as (cl' & [= <-] & Hf & Ha & HK); [|by left]. split_and!; try done. by exists cl.
Qed.

(** *** The goroutine *)

Record running (d : DialConfig) (hosts : gmap string ServerPubKey) (t : Tricorder) : Prop := {
  run_halts : halts_ok t;
  run_dc : set_Tofu false (dc t) = set_Tofu false d;
  run_uhp : UHP_User (uhp t) = Mylogin d /\ HostPort (uhp t) = hostport d;
  run_cli : exists cl, cli t = Some cl /\ nc t = Some cl;
  run_trust : tofu t = false /\ AddIfNotKnown (cfg t) = false /\ TestAllowOneshotConnect (cfg t) = DcTestAllowOneshotConnect d;
  run_last : lastConnectTime t = None;
  run_hosts : Hosts (known t) = hosts;
}.

Lemma renew_spec t :
  halts_ok t -> exists h w, renew_channelsHalt t = Ok (with_channelsHalt h (with_halts w t)) /\
    halts_ok (with_channelsHalt h (with_halts w t)) /\
    stop_requested (with_channelsHalt h (with_halts w t)) = stop_requested t.
Proof.
  intros (m & hh & hc & Hw & Hne & Hh & Hc & Wh & Wc & Dh & Dc & HP). unfold renew_channelsHalt. rewrite Hw.
  rewrite (RequestStop_leaf 0 (channelsHalt t) _ hc) by (done || cbn; set_solver). cbn [obind halters held].
  rewrite (MarkDone_leaf 0 (channelsHalt t) _ (stopped hc)); [|cbn; set_solver|cbn; by rewrite lookup_insert_eq|by apply stopped_wf|done].
  cbn [obind halters held]. rewrite insert_insert_eq. unfold RemoveDownstream.
  rewrite (locked_free (Halt t) _ _ hh); [|cbn; set_solver|cbn; by rewrite lookup_insert_ne by done]. cbn [obind halters held].
  unfold removeUpstream. rewrite (locked_free (channelsHalt t) _ _ (finished (stopped hc)));
    [|cbn; set_solver|cbn; by rewrite lookup_insert_ne, lookup_insert_eq by done].
  cbn [obind halters held]. set (m1 := <[channelsHalt t := _]> _). set (h := fresh (dom m1)).
  assert (m1 !! Halt t = Some (set_downstream (downstream hh ∖ {[channelsHalt t]}) hh)) as H1.
  { unfold m1. by rewrite lookup_insert_ne, lookup_insert_eq by done. }
  assert (m1 !! h = None) as Hfresh by (apply not_elem_of_dom, is_fresh).
  assert (h <> Halt t) as Hn by (intros E; rewrite E, H1 in Hfresh; done).
  unfold AddDownstream, put. cbn [halters held].
  rewrite (locked_free (Halt t) _ _ (set_downstream (downstream hh ∖ {[channelsHalt t]}) hh)); [|cbn; set_solver|cbn; by rewrite lookup_insert_ne by done].
  cbn [obind halters held]. unfold addUpstream.
  rewrite (locked_free h _ _ NewHalter); [|cbn; set_solver|cbn; by rewrite lookup_insert_ne, lookup_insert_eq by done].
  cbn [obind halters held]. eexists _, _. split; [reflexivity|]. split.
  2: { unfold stop_requested. cbn. rewrite lookup_insert_ne, lookup_insert_eq by done. rewrite Hw. cbn. by rewrite Hh. }
  eexists _, _, _. split; [reflexivity|]. cbn. split; [done|]. split; [by rewrite lookup_insert_ne, lookup_insert_eq by done|].
  split; [by rewrite lookup_insert_eq|]. split; [exact Wh|]. split; [done|]. split; [cbn; rewrite Dh; set_solver|]. split; [done|].
  destruct (parentHalt t) as [p|]; [|done]. destruct HP as (hp & HPm & ? & ? & ? & ?). exists hp. split_and!; try done.
  - assert (m1 !! p = Some hp) as HPp by (unfold m1; by rewrite !lookup_insert_ne by done).
    assert (p <> h) by (intros ->; congruence). by rewrite !lookup_insert_ne by done.
  - intros E. cbn in E. subst p. unfold m1 in Hfresh. rewrite !lookup_insert_ne in Hfresh by done. congruence.
Qed.

Lemma never_too_soon now : (since now None <? second) = false.
Proof. done. Qed.

Lemma same_dial d d' : set_Tofu false d' = set_Tofu false d -> hostport d' = hostport d.
Proof. by destruct d, d'; intros [= -> -> -> -> -> -> -> -> -> -> ->]. Qed.

(** Replacing the connection, where it does not panic. *)
Lemma replace_spec d hosts u later net t t' net' err :
  running d hosts t -> UHP_User u = Mylogin d -> HostPort u = hostport d ->
  replace_connection u later net t = Ok (t', net', err) ->
  halts_ok t' /\ closedChans t' = closedChans t ∪ sshChannels t /\ sshChannels t' = ∅ /\
  (err = None -> running d hosts t' /\
     (DcTestAllowOneshotConnect d = false -> exists cl, cli t' = Some cl /\ connected_to d net hosts cl)) /\
  exists used, net = used ++ net' /\ (List.length used <= 3 * retries)%nat.
Proof.
  intros [Rh Rd Ru Rc Rt Rl Rs] Hu1 Hu2. unfold replace_connection.
  destruct (renew_spec (closeChannels (with_uhp u t)) Rh) as (h & w & -> & Hok & _). cbn [obind].
  set (t1 := with_cli None _). intros H. assert (halts_ok t1) as Hok1 by exact Hok.
  destruct (helper_frame _ _ _ _ _ _ H Hok1) as (Hok' & (F1 & F2 & F3 & F4 & F5 & F6 & F7 & F8 & F9 & F10 & F11) & HS & Hused).
  destruct Rt as (Rt1 & Rt2 & Rt3). destruct (F10 Rt2) as (G1 & G2 & G3).
  split; [done|]. split; [by rewrite F7|]. split; [by rewrite F6|]. split; [|done]. intros E.
  destruct (HS E) as (HL & Hf & Ha & cl & C1 & C2 & HK). split.
  - split; [done|..]; try (rewrite ?F5, ?HL; done); [by rewrite F1|by exists cl|split_and!; try done; by rewrite F8|by rewrite G2].
  - intros Ht. exists cl. split; [done|]. rewrite <- Rs. change (known t) with (known t1). rewrite <- G2.
    destruct HK as (st & key & remote & nw & ping & Hin & rec & Hr & Hb & Hn); [change (cfg t1) with (cfg t); by rewrite Rt3|].
    exists st, key, remote, nw, ping. split; [done|]. exists rec. split; [done|]. split; [done|].
    by rewrite (same_dial d (dc t1)) in Hn.
Qed.

Lemma reconnect_running d hosts u now later net t t' net' :
  running d hosts t -> reconnect u now later net t = Ok (t', net', true) -> running d hosts t'.
Proof.
  intros HR. pose proof HR as [_ _ [U1 U2] _ _ Rl _]. unfold reconnect.
  destruct (String.eqb_spec (UHP_User u) (UHP_User (uhp t))) as [E1|]; [|done].
  destruct (String.eqb_spec (HostPort u) (HostPort (uhp t))) as [E2|]; [|done]. cbn [negb]. rewrite Rl, never_too_soon.
  intros ([[t1 n1] err] & H & H')%obind_ok. destruct (replace_spec d hosts u later net t t1 n1 err HR ltac:(congruence) ltac:(congruence) H) as (_ & _ & _ & HS & _).
  destruct err as [[|e]|]; [by apply obind_ok in H' as (t2 & _ & H')|done|]. injection H' as <- <-. by apply HS.
Qed.

Lemma channel_running d hosts tk opening now net t t' net' r :
  running d hosts t -> helperGetChannel tk opening now net t = Ok (t', net', r) -> running d hosts t'.
Proof.
  intros HR. pose proof HR as [_ _ _ (cl & C1 & _) _ _ _]. unfold helperGetChannel. rewrite C1. cbn [obind].
  destruct (if (typ tk =? "direct-tcpip")%string then _ else opening) as [ch|e]; intros [= <- <- <-]; [|done].
  destruct HR as [Rh Rd Ru Rc Rt Rl Rs]. by split.
Qed.

Lemma step_running d hosts t t' :
  running d hosts t -> tri_step (Running t) (Running t') -> running d hosts t'.
Proof.
  intros HR Hstep. inversion Hstep; subst.
  - by eapply reconnect_running.
  - by eapply channel_running.
  - destruct HR as [Rh Rd Ru Rc Rt Rl Rs]. destruct (request_stop_keeps t Rh) as (t2 & E & Hok & F & C1 & C2 & L & _).
    match goal with H : request_stop t = Ok t' |- _ => rewrite E in H; injection H as <- end.
    destruct F as (F1 & F2 & F3 & F4 & F5 & F6 & F7 & F8 & F9 & F10 & F11). destruct Rt as (T1 & T2 & T3). destruct (F10 T2) as (G1 & G2 & G3).
    split; [done|..]; rewrite ?F1, ?F5, ?C1, ?C2, ?L, ?F8, ?G2; auto.
Qed.

Lemma steps_running d hosts t t' :
  running d hosts t -> rtc tri_step (Running t) (Running t') -> running d hosts t'.
Proof.
  intros HR H. refine (rtc_invariant _ (fun s => match s with Running t => running d hosts t | Exited _ => True end) _ _ _ H HR).
  intros [a|a] [b|b] Ha Hs; try done; [by eapply step_running|inversion Hs].
Qed.

(** Where a Tricorder starts: its parent is a halter of the program, and nothing
    is locked. *)
Definition start_ok (parent : option nat) (w : world) : Prop :=
  held w = ∅ /\ match parent with Some p => exists hp, halters w !! p = Some hp /\ wf_halter hp | None => True end.

Lemma start_spec d hosts files parent name now net w t net' err :
  start_ok parent w -> NewTricorder d hosts files parent name now net w = Ok (t, net', err) ->
  halts_ok t /\ parentHalt t = parent /\ ~ is_done (halters (halts t)) (Halt t) /\
  (err = None -> running d (Hosts (known t)) t).
Proof.
  destruct w as [m l]. unfold start_ok. cbn [held halters]. intros [-> HP] H. unfold NewTricorder in H. apply obind_ok in H as (e & He & H). cbn [halters put held] in H.
  set (h := fresh (dom m)) in H. set (m1 := <[h := NewHalter]> m) in H. set (c := fresh (dom m1)) in H.
  assert (m !! h = None) as Fh by (apply not_elem_of_dom, is_fresh). assert (m1 !! c = None) as Fc by (apply not_elem_of_dom, is_fresh).
  assert (m1 !! h = Some NewHalter) as Eh by apply lookup_insert_eq. assert (h <> c) as Hne by (intros E; rewrite <- E, Eh in Fc; done).
  apply obind_ok in H as (w1 & H1 & H). apply obind_ok in H as (w2 & H2 & H).
  assert (exists m2 hh, w1 = mkWorld m2 ∅ /\ m2 !! h = Some hh /\ wf_halter hh /\ downstream hh = ∅ /\ Chan (done hh) = false /\ m2 !! c = Some NewHalter /\
    match parent with Some p => exists hp, m2 !! p = Some hp /\ wf_halter hp /\ p <> h /\ p <> c /\ h ∈ downstream hp | None => True end) as
    (m2 & hh & -> & E2 & W2 & D2 & N2 & E2c & HP2).
  { destruct parent as [p|].
    - destruct HP as (hp & Hp & Wp). assert (p <> h) by (intros ->; congruence).
      assert (p <> c) by (intros ->; unfold m1 in Fc; rewrite lookup_insert_ne in Fc by done; congruence).
      unfold AddDownstream in H1. rewrite (locked_free p _ _ hp) in H1;
        [|cbn; set_solver|cbn; unfold m1; by rewrite !lookup_insert_ne by done]. cbn [obind halters held] in H1. unfold addUpstream in H1.
      rewrite (locked_free h _ _ NewHalter) in H1; [|cbn; set_solver|cbn; by rewrite !lookup_insert_ne by done].
      injection H1 as <-. cbn [halters held]. eexists _, _. split; [reflexivity|]. cbn.
      split; [by rewrite lookup_insert_eq|]. split; [done|]. split; [done|]. split; [done|]. split; [by rewrite !lookup_insert_ne, lookup_insert_eq by done|].
      eexists. split; [rewrite lookup_insert_ne, lookup_insert_eq by done; reflexivity|]. split_and!; try done. cbn. set_solver.
    - injection H1 as <-. exists (<[c := NewHalter]> m1), NewHalter. split; [done|]. rewrite lookup_insert_ne, lookup_insert_eq by done. done. }
  unfold AddDownstream in H2. rewrite (locked_free h _ _ hh) in H2 by (cbn; set_solver || done). cbn [obind halters held] in H2.
  unfold addUpstream in H2. rewrite (locked_free c _ _ NewHalter) in H2; [|cbn; set_solver|cbn; by rewrite lookup_insert_ne by done].
  injection H2 as <-. set (t0 := mkTri _ _ _ _ _ _ _ _ _ _ _ _ _ _ _) in H. assert (halts_ok t0) as Hok.
  { eexists _, _, _. split; [reflexivity|]. cbn. split; [done|]. split; [by rewrite lookup_insert_ne, lookup_insert_eq by done|].
    split; [by rewrite lookup_insert_eq|]. split; [exact W2|]. split; [done|]. split; [cbn; rewrite D2; set_solver|]. split; [done|].
    destruct parent as [p|]; [|done]. destruct HP2 as (hp & ? & ? & ? & ? & ?). exists hp. by rewrite !lookup_insert_ne by done. }
  destruct (helper_frame _ _ _ _ _ _ H Hok) as (Hok' & (F1 & F2 & F3 & F4 & F5 & F6 & F7 & F8 & F9 & F10 & F11) & HS & _).
  split; [done|]. split; [by rewrite F2|]. split.
  { apply (helper_not_done _ _ _ _ _ _ H). intros (x & Hx & Dx). cbn in Hx. rewrite lookup_insert_ne, lookup_insert_eq in Hx by done.
    injection Hx as <-. cbn in Dx. congruence. }
  intros E. destruct (HS E) as (HL & Hf & Ha & cl & C1 & C2 & HK).
  split; [done|..]; try (rewrite ?F1, ?F5, ?HL; done); [by exists cl|split_and!; try done; rewrite F8].
  unfold DeriveNewConfig in He. apply obind_ok in He as (k & _ & He). injection He as <-. done.
Qed.

Lemma exit_spec t :
  halts_ok t -> exists t', exit_loop t = Ok t' /\ sshChannels t' = ∅ /\ closedChans t' = closedChans t ∪ sshChannels t /\
    is_done (halters (halts t')) (Halt t) /\ is_done (halters (halts t')) (channelsHalt t) /\ held (halts t') = ∅ /\
    stop_requested t' = true /\
    match parentHalt t with
    | Some p => exists hp, halters (halts t') !! p = Some hp /\ Halt t ∉ downstream hp
    | None => True
    end.
Proof.
  intros (m & hh & hc & Hw & Hne & Hh & Hc & Wh & Wc & Dh & Dc & HP). unfold exit_loop. rewrite Hw.
  assert (wf_halter (finished (stopped hc))) as Wf by (destruct Wc as (? & _); done).
  rewrite (RequestStop_leaf 0 (channelsHalt t) _ hc) by (done || cbn; set_solver). cbn [obind halters held].
  rewrite (MarkDone_leaf 0 (channelsHalt t) _ (stopped hc)); [|cbn; set_solver|cbn; by rewrite lookup_insert_eq|by apply stopped_wf|done].
  cbn [obind halters held]. rewrite insert_insert_eq.
  rewrite (RequestStop_pair (Halt t) (channelsHalt t) hh (finished (stopped hc))); [|done..|by rewrite lookup_insert_ne|by rewrite lookup_insert_eq].
  cbn [obind]. rewrite (MarkDone_pair (Halt t) (channelsHalt t) (stopped hh) (stopped (finished (stopped hc))));
    [|done|by apply stopped_wf|by apply stopped_wf|done|done|by rewrite lookup_insert_ne, lookup_insert_eq by done|by rewrite lookup_insert_eq|done].
  cbn [obind]. set (m1 := <[Halt t := _]> _).
  assert (exists x, m1 !! Halt t = Some x /\ Chan (done x) = true /\ Chan (reqStop x) = true) as (x & Hx & Dx & Sx)
    by (eexists; split; [apply lookup_insert_eq|done]).
  assert (exists y, m1 !! channelsHalt t = Some y /\ Chan (done y) = true) as (y & Hy & Dy)
    by (unfold m1; rewrite lookup_insert_ne, lookup_insert_eq by done; eexists; split; [done|done]).
  destruct (parentHalt t) as [p|] eqn:Ep.
  - destruct HP as (hp & HPm & Wp & Np & Nc & Hin). assert (m1 !! p = Some hp) as Hp by (unfold m1; by rewrite !lookup_insert_ne by done).
    unfold RemoveDownstream. rewrite (locked_free p _ _ hp); [|cbn; set_solver|done]. cbn [obind halters held]. unfold removeUpstream.
    rewrite (locked_free (Halt t) _ _ x); [|cbn; set_solver|cbn; by rewrite lookup_insert_ne by done]. cbn [obind halters held].
    eexists. split; [reflexivity|]. unfold stop_requested, is_done. cbn. split; [done|]. split; [done|].
    split; [eexists; rewrite lookup_insert_eq; done|]. split; [exists y; by rewrite !lookup_insert_ne by done|]. split; [done|].
    rewrite lookup_insert_eq. split; [done|]. eexists. rewrite lookup_insert_ne, lookup_insert_eq by done. split; [done|]. cbn. set_solver.
  - cbn [obind]. eexists. split; [reflexivity|]. unfold stop_requested, is_done. cbn. rewrite Hx. split_and!; try done; [by exists x|by exists y].
Qed.

(** ** Properties *)

Lemma Contains_added dc remote : Contains (dial_error dc (handshake_error (added_text remote))) without_new = true.
Proof.
  unfold dial_error, handshake_error, added_text. rewrite !string_app_assoc. do 6 apply Contains_after.
  rewrite <- !string_app_assoc. change (Contains (?a +:+ ?b) _) with (Contains ("' with the -new flag. " +:+ ("Re-run without -new" +:+ (" (or setting TofuAddIfNotKnown=false) now" +:+ b))) without_new).
  apply Contains_after. by eapply Contains_here.
Qed.

(** The connection can be tried at all. *)
Definition can_try (t : Tricorder) : Prop :=
  (exists hp, IpAddr.SplitHostPort (HostPort (uhp t)) = Ok hp) /\ PrivateKeyPath (cfg t) <> "" /\
  (RsaPath (dc t) = "" \/ LoadRSAPrivateKey (RsaPath (dc t)) = Ok tt) /\ stop_requested t = false.

Lemma SSHConnect_ready d a c :
  RsaPath d = "" \/ LoadRSAPrivateKey (RsaPath d) = Ok tt ->
  SSHConnect d a c =
    (let? '(c, r) := mySSHDial d a (with_keepalive c) in
     Ok (c, match r with inl cli => inl cli | inr e => inr (dial_error d e) end)).
Proof.
  intros Hk. unfold SSHConnect. destruct (String.eqb_spec (RsaPath d) ""); [done|]. by destruct Hk as [?| ->].
Qed.

Lemma dial_tries_eq n d err b a net c :
  dial_tries (S n) d err ((b, a) :: net) c =
    (let? '(c, r) := SSHConnect d a c in
     match r with
     | inl cli => Ok (c, net, inl cli)
     | inr e => if Contains e refused then dial_tries n d e net c else Ok (c, net, inr e)
     end).
Proof. done. Qed.

Lemma Dial_once d b a net c c1 r :
  SSHConnect d a c = Ok (c1, r) -> match r with inr e => Contains e refused = false | inl _ => True end ->
  Dial d true ((b, a) :: net) c = Ok (c1, net, match r with inl cl => inl (cl, NoStream) | inr e => inr e end).
Proof. intros H Hr. unfold Dial. rewrite dial_tries_eq, H. cbn [obind]. destruct r as [cl|e]; [done|]. by rewrite Hr. Qed.

(** One try of [connect_tries] without a stop. *)
Lemma connect_tries_eq n a net err t :
  stop_requested t = false ->
  connect_tries (S n) ((false, a) :: net) err t =
    (let? '(e, net, r) := Dial (dc t) true ((false, a) :: net) (env t) in
     let t := with_env e t in
     match r with
     | inl (c, _) => Ok (trusted (dc t) t, net, Some c, None)
     | inr errs =>
         if Contains errs without_new then
           if tofu t then connect_tries n net (Some (Failed errs)) (trusted (set_Tofu false (dc t)) t)
           else Ok (t, net, None, Some (Failed errs))
         else connect_tries n net (Some (Failed errs)) t
     end).
Proof. intros H. cbn [connect_tries obind]. by rewrite H. Qed.

(** Trust on first use: a client that may learn keys meets a server with a new
    one; it stores the key and hangs up, forgets the permission, and with the
    second attempt it is connected to a server with that key. *)
Theorem tofu_connects now t key r1 n1 next r2 n2 cl net known1 files1 v :
  can_try t -> tofu t = true -> AddIfNotKnown (cfg t) = true -> TestAllowOneshotConnect (cfg t) = false ->
  Hosts (known t) !! MarshalAuthorizedKey key = None ->
  hostKeyCallback (hostport (dc t)) r1 n1 key true false (known t) (env t).2 = Ok (known1, files1, v) ->
  Contains (dial_error (dc t) (handshake_error (added_text r1))) refused = false ->
  exists t', helperNewClientConnect now ((false, Offers key r1 n1 next) :: (false, Offers key r2 n2 (Established cl None)) :: net) t
      = Ok (t', net, None) /\
    cli t' = Some cl /\ tofu t' = false /\ AddIfNotKnown (cfg t') = false /\ TofuAddIfNotKnown (dc t') = false /\
    Hosts (known t') = Hosts known1 /\ is_Some (Hosts (known t') !! MarshalAuthorizedKey key).
Proof.
  intros ([hp Hhp] & Hpk & Hrsa & Hstop) Htofu Hadd Hone Hnew HC Hnr.
  destruct (trust_on_first_use _ _ _ _ _ _ _ _ _ _ _ _ _ _ _ _ HC Hnew) as (-> & Hin & H2).
  destruct (H2 r2 n2) as (known2 & HC2 & HK2).
  assert (exists cf', with_keepalive (env t) = (cf', known t, (env t).2) /\ AddIfNotKnown cf' = true /\ TestAllowOneshotConnect cf' = false) as (cf' & Hka & A' & O').
  { unfold with_keepalive, known, cfg in *. destruct (env t) as [[cf k] f]. cbn in *. eexists. split; [reflexivity|]. by destruct (_ && _). }
  assert (SSHConnect (dc t) (Offers key r1 n1 next) (env t) =
    Ok ((cf', known1, files1), inr (dial_error (dc t) (handshake_error (added_text r1))))) as E1.
  { rewrite SSHConnect_ready, Hka by done. unfold mySSHDial. by rewrite A', O', HC. }
  unfold helperNewClientConnect. rewrite Hhp. apply String.eqb_neq in Hpk as ->. change retries with (S (S 8)).
  rewrite connect_tries_eq by done. rewrite (Dial_once _ _ _ _ _ _ _ E1) by done. cbn [obind]. rewrite Contains_added.
  cbn [with_env tofu]. rewrite Htofu. set (t1 := trusted _ _). assert (stop_requested t1 = false) as Hs1 by done.
  rewrite connect_tries_eq by done.
  assert (exists cf2, with_keepalive (env t1) = (cf2, known1, files1) /\ AddIfNotKnown cf2 = false /\ TestAllowOneshotConnect cf2 = false) as (cf2 & Hka2 & A2 & O2).
  { cbn. eexists. split; [reflexivity|]. by destruct (_ && _). }
  assert (SSHConnect (dc t1) (Offers key r2 n2 (Established cl None)) (env t1) = Ok ((cf2, known2, files1), inl cl)) as E2.
  { rewrite SSHConnect_ready, Hka2 by done. unfold mySSHDial. rewrite A2, O2. change (hostport (dc t1)) with (hostport (dc t)). rewrite HC2. cbn [obind].
    by destruct (0 <? KeepAliveEvery cf2). }
  rewrite (Dial_once _ _ _ _ _ _ _ E2) by done. cbn [obind]. eexists. split; [reflexivity|]. cbn. rewrite HK2. done.
Qed.

(** A server that refuses every connection. *)
Lemma refused_error d e : Contains e refused = true -> Contains (dial_error d e) refused = true.
Proof. intros H. unfold dial_error. do 3 apply Contains_after. by apply Contains_before. Qed.

Lemma with_keepalive_idem c : with_keepalive (with_keepalive c) = with_keepalive c.
Proof. destruct c as [[cf k] f]. unfold with_keepalive. destruct (negb (SkipKeepAlive cf) && _) eqn:E; [|by rewrite E].
  change (KeepAliveEvery (set_KeepAliveEvery second cf) <=? 0) with false. by rewrite andb_false_r.
Qed.

Lemma Dial_refused d e net c :
  RsaPath d = "" \/ LoadRSAPrivateKey (RsaPath d) = Ok tt -> Contains e refused = true ->
  Dial d true ((false, DialFails e) :: (false, DialFails e) :: (false, DialFails e) :: net) c =
    Ok (with_keepalive c, net, inr (dial_error d e)).
Proof.
  intros Hk He. unfold Dial.
  assert (forall c, SSHConnect d (DialFails e) c = Ok (with_keepalive c, inr (dial_error d e))) as E.
  { intros c0. rewrite SSHConnect_ready by done. unfold mySSHDial. by destruct (with_keepalive c0) as [[? ?] ?]. }
  do 3 (rewrite dial_tries_eq, E; cbn [obind]; rewrite refused_error by done). cbn [dial_tries obind]. by rewrite !with_keepalive_idem.
Qed.

Lemma connect_refused n e err net t :
  RsaPath (dc t) = "" \/ LoadRSAPrivateKey (RsaPath (dc t)) = Ok tt -> stop_requested t = false ->
  Contains e refused = true -> Contains (dial_error (dc t) e) without_new = false ->
  exists t', connect_tries n (replicate (3 * n) (false, DialFails e) ++ net) err t =
    Ok (t', net, None, match n with O => err | S _ => Some (Failed (dial_error (dc t) e)) end).
Proof.
  intros Hk Hs He Hn. revert err t Hk Hs Hn. induction n as [|n IH]; intros err t Hk Hs Hn; [by exists t|].
  replace (3 * S n)%nat with (S (S (S (3 * n)))) by lia. cbn [replicate app]. rewrite connect_tries_eq, Dial_refused by done.
  cbn [obind]. rewrite Hn. destruct (IH (Some (Failed (dial_error (dc t) e))) (with_env (with_keepalive (env t)) t)) as [t' ->]; [done..|].
  exists t'. by destruct n.
Qed.

(** A server that is down for ten tries, each of three attempts, ends the
    whole program: the goroutine panics with the last error. *)
Theorem server_gone_panics d hosts files parent name now0 net0 w net1 t0 t u e now later net :
  start_ok parent w -> NewTricorder d hosts files parent name now0 net0 w = Ok (t0, net1, None) ->
  rtc tri_step (Running t0) (Running t) -> can_try t -> UHP_User u = Mylogin d -> HostPort u = hostport d ->
  Contains e refused = true -> Contains (dial_error d e) without_new = false ->
  reconnect u now later (replicate 30 (false, DialFails e) ++ net) t = Panic (dial_error d e).
Proof.
  intros Hs H Hsteps ([hp Hhp] & Hpk & Hrsa & Hstop) Hu1 Hu2 He Hn.
  destruct (start_spec _ _ _ _ _ _ _ _ _ _ _ Hs H) as (_ & _ & _ & HR). specialize (HR eq_refl).
  pose proof (steps_running _ _ _ _ HR Hsteps) as [Rh Rd [U1 U2] _ _ Rl _]. unfold reconnect.
  rewrite Hu1, Hu2, U1, U2, !String.eqb_refl, Rl, never_too_soon. cbn [negb]. unfold replace_connection.
  destruct (renew_spec (closeChannels (with_uhp u t)) Rh) as (h & w' & -> & _ & Hst). cbn [obind]. set (t1 := with_cli None _).
  unfold helperNewClientConnect. change (HostPort (uhp t1)) with (HostPort u). rewrite Hu2, <- U2, Hhp. change (cfg t1) with (cfg t).
  apply String.eqb_neq in Hpk as ->.
  assert (dial_error (dc t) e = dial_error d e) as Ed by (unfold dial_error; by rewrite (same_dial d (dc t))).
  destruct (connect_refused 10 e None net t1) as [t2 E]; [done|exact (eq_trans Hst Hstop)|done| |].
  { change (dc t1) with (dc t). by rewrite Ed. }
  change (3 * 10)%nat with 30%nat in E. change retries with 10%nat. rewrite E. cbn [obind]. change (dc t1) with (dc t). by rewrite Ed.
Qed.

(** C26: After the start the client never learns a key: however often it is told
    to reconnect, and whoever answers, a new connection is one to a server whose
    key was on record, under the name that is dialled and not banned, when the
    Tricorder was made. *)
Theorem reconnects_to_known_servers d hosts files parent name now0 net0 w net1 t0 t u now later net t' net' :
  start_ok parent w -> NewTricorder d hosts files parent name now0 net0 w = Ok (t0, net1, None) ->
  DcTestAllowOneshotConnect d = false -> rtc tri_step (Running t0) (Running t) ->
  reconnect u now later net t = Ok (t', net', true) ->
  exists cl, cli t' = Some cl /\ connected_to d net (Hosts (known t0)) cl /\ Hosts (known t') = Hosts (known t0).
Proof.
  intros Hs H Ht Hsteps Hr. destruct (start_spec _ _ _ _ _ _ _ _ _ _ _ Hs H) as (_ & _ & _ & HR). specialize (HR eq_refl).
  pose proof (steps_running _ _ _ _ HR Hsteps) as HR2. pose proof HR2 as [_ _ [U1 U2] _ _ Rl _]. unfold reconnect in Hr.
  destruct (String.eqb_spec (UHP_User u) (UHP_User (uhp t))) as [E1|]; [|done].
  destruct (String.eqb_spec (HostPort u) (HostPort (uhp t))) as [E2|]; [|done]. cbn [negb] in Hr. rewrite Rl, never_too_soon in Hr.
  apply obind_ok in Hr as ([[t1 n1] err] & Hrep & Hr).
  destruct (replace_spec d _ u later net t t1 n1 err HR2 ltac:(congruence) ltac:(congruence) Hrep) as (_ & _ & _ & HS & _).
  destruct err as [[|e]|]; [by apply obind_ok in Hr as (t2 & _ & Hr)|done|]. injection Hr as <- <-.
  destruct (HS eq_refl) as [HR3 HK]. destruct (HK Ht) as (cl & Hc & Hcon). exists cl. split; [done|]. split; [done|]. apply HR3.
Qed.

(** A request to reconnect is never ignored: the guard against requests within
    a second of the last successful connection looks at a time that is set only
    when a connection fails, after which the goroutine is over. Every lost
    keep-alive drops the connection and all channels, however young they are. *)
Theorem keepalive_always_reconnects d hosts files parent name now0 net0 w net1 t0 t now later net :
  start_ok parent w -> NewTricorder d hosts files parent name now0 net0 w = Ok (t0, net1, None) ->
  rtc tri_step (Running t0) (Running t) ->
  reconnect (keepalive_uhp d) now later net t =
    (let? '(t', net', err) := replace_connection (keepalive_uhp d) later net t in
     match err with
     | None => Ok (t', net', true)
     | Some ErrShutdown => let? t'' := exit_loop t' in Ok (t'', net', false)
     | Some (Failed e) => Panic e
     end).
Proof.
  intros Hs H Hsteps. destruct (start_spec _ _ _ _ _ _ _ _ _ _ _ Hs H) as (_ & _ & _ & HR). specialize (HR eq_refl).
  pose proof (steps_running _ _ _ _ HR Hsteps) as [_ _ [U1 U2] _ _ Rl _]. unfold reconnect. cbn [UHP_User HostPort keepalive_uhp].
  by rewrite U1, U2, !String.eqb_refl, Rl, never_too_soon.
Qed.

(** When a stop is requested the goroutine can end, and then every channel it
    opened is closed, both halters are done and the parent no longer waits for
    it; the calls for the client and its connection say that it is shutting
    down, but one for a channel waits for ever. *)
Theorem shutdown_spec d hosts files parent name now0 net0 w net1 t0 t :
  start_ok parent w -> NewTricorder d hosts files parent name now0 net0 w = Ok (t0, net1, None) ->
  rtc tri_step (Running t0) (Running t) -> stop_requested t = true ->
  exists t', tri_step (Running t) (Exited t') /\ sshChannels t' = ∅ /\ closedChans t' = closedChans t ∪ sshChannels t /\
    is_done (halters (halts t')) (Halt t) /\ is_done (halters (halts t')) (channelsHalt t) /\
    (forall p, parentHalt t = Some p -> ~ edge (halters (halts t')) p (Halt t)) /\
    (forall choice, Cli choice (Exited t') = Ok (inr ErrShutdown) /\ Nc choice (Exited t') = Ok (inr ErrShutdown)) /\
    (forall tk opening now net, SSHChannel tk opening now net (Exited t') = Blocked).
Proof.
  intros Hs H Hsteps Hstop. destruct (start_spec _ _ _ _ _ _ _ _ _ _ _ Hs H) as (_ & _ & _ & HR). specialize (HR eq_refl).
  pose proof (steps_running _ _ _ _ HR Hsteps) as [Rh _ _ _ _ _ _].
  destruct (exit_spec t Rh) as (t' & E & S1 & S2 & D1 & D2 & _ & St & HP). exists t'. split; [by apply tri_stop|].
  split_and!; try done.
  - intros p Hp. rewrite Hp in HP. destruct HP as (hp & Hl & Hn). intros (hp' & Hl' & Hin). congruence.
  - intros choice. unfold Cli, Nc, shutdown_or. by rewrite St.
Qed.

(** A Tricorder whose first connection fails stays downstream of its parent's
    halter and is never done: the parent's [MarkDone] does not return. *)
Theorem failed_start_blocks_parent d hosts files p name now0 net0 w net1 t err fuel w' :
  start_ok (Some p) w -> NewTricorder d hosts files (Some p) name now0 net0 w = Ok (t, net1, Some err) ->
  MarkDone fuel p (halts t) <> Ok w'.
Proof.
  intros Hs H HM. destruct (start_spec _ _ _ _ _ _ _ _ _ _ _ Hs H) as ((m & hh & hc & Hw & _ & Hh & _ & _ & _ & _ & _ & HP) & Ep & Hd & _).
  rewrite Ep in HP. destruct HP as (hp & Hp & _ & _ & _ & Hin).
  apply Hd, (MarkDone_needs _ _ _ _ _ HM). rewrite Hw. exists hp. by split.
Qed.

(** [SkipKeepAlive] has no effect: a client that is asked not to send
    keep-alives sends one every second. *)
Theorem skip_keepalive_ignored d hosts files c :
  DcSkipKeepAlive d = true -> DeriveNewConfig d hosts files = Ok c -> KeepAliveEvery (cfg_of (with_keepalive c)) = second.
Proof.
  intros Hd. unfold DeriveNewConfig. rewrite Hd. intros (k & _ & [= <-])%obind_ok. done.
Qed.
End Tricorder.

(** ** A client of one server *)

Definition demo_dial : DialConfig :=
  mkDial "/kh" "bob" "/id_rsa" "db.example.com" 22 "" true false false true 0 "db".
Definition demo_world : world := mkWorld {[0%nat := NewHalter]} ∅.
Abbreviation demo_offer key next := (false, Offers string nat key "1.2.3.4:22" "2017-01-01" next).
Definition demo_new (net : network string nat) : outcome (Tricorder nat * network string nat * option tri_error) :=
  NewTricorder string nat demo_parse demo_auth_key (fun k => k) (fun _ => "ssh-rsa") (fun _ => "db") (fun _ => Err "no file")
    demo_range (fun _ => true) (fun _ => Ok tt) demo_dial None ∅ (Some 0%nat) "tri" 5 net demo_world.
Definition demo_reconnect (net : network string nat) (t : Tricorder nat) : outcome (Tricorder nat * network string nat * bool) :=
  reconnect string nat demo_auth_key (fun k => k) (fun _ => "ssh-rsa") (fun _ => "db")
    demo_range (fun _ => true) (fun _ => Ok tt) (keepalive_uhp demo_dial) 6 7 net t.
Definition demo_step : sys nat -> sys nat -> Prop :=
  tri_step string nat demo_auth_key (fun k => k) (fun _ => "ssh-rsa") (fun _ => "db") demo_range (fun _ => true) (fun _ => Ok tt).

(** Two connections: the first, on which the key is learned, and the second. *)
Definition demo_net : network string nat := [demo_offer "K1" (HandshakeFails nat "closed"); demo_offer "K1" (Established nat 7%nat None)].
Definition tri_of (r : outcome (Tricorder nat * network string nat * option tri_error)) : Tricorder nat :=
  match r with
  | Ok (t, _, _) => t
  | _ => mkTri nat "" demo_dial (mkClient false false 0 false 0 "", demo_hosts, ∅) demo_world None 0 0 (keepalive_uhp demo_dial)
           None None ∅ ∅ ∅ false None
  end.
Definition demo_tri : Tricorder nat := tri_of (demo_new demo_net).
Definition demo_stopped : Tricorder nat := match request_stop nat demo_tri with Ok t => t | _ => demo_tri end.
Definition demo_failed : Tricorder nat := tri_of (demo_new [demo_offer "K1" (HandshakeFails nat "closed"); demo_offer "K2" (HandshakeFails nat "closed");
  (true, DialFails string nat "x")]).

Lemma demo_start_ok : start_ok (Some 0%nat) demo_world.
Proof. split; [done|]. by exists NewHalter. Qed.

Lemma reconnects_to_known_servers_witness :
  exists t', demo_reconnect [(false, DialFails string nat "no route"); demo_offer "K1" (Established nat 8%nat None)] demo_tri = Ok (t', [], true) /\
    exists cl, cli nat t' = Some cl.
Proof.
  destruct (demo_reconnect [(false, DialFails string nat "no route"); demo_offer "K1" (Established nat 8%nat None)] demo_tri)
    as [[[t' net'] go]|e|s|] eqn:E; [|vm_compute in E; discriminate..].
  assert (net' = [] /\ go = true) as [-> ->] by (vm_compute in E; injection E as <- <- <-; done).
  exists t'. split; [reflexivity|].
  destruct (reconnects_to_known_servers string nat demo_parse demo_auth_key (fun k => k) (fun _ => "ssh-rsa") (fun _ => "db") (fun _ => Err "no file")
    demo_range (fun _ => true) (fun _ => Ok tt) demo_dial None ∅ (Some 0%nat) "tri" 5 demo_net demo_world [] demo_tri demo_tri
    (keepalive_uhp demo_dial) 6 7 [(false, DialFails string nat "no route"); demo_offer "K1" (Established nat 8%nat None)] t' []
    demo_start_ok) as (cl & H & _); [vm_compute; reflexivity|reflexivity|apply rtc_refl|exact E|]. exists cl. exact H.
Defined.

Lemma keepalive_always_reconnects_witness :
  demo_reconnect [(true, DialFails string nat "x")] demo_tri =
    (let? '(t', net', err) := replace_connection string nat demo_auth_key (fun k => k) (fun _ => "ssh-rsa") (fun _ => "db")
       demo_range (fun _ => true) (fun _ => Ok tt) (keepalive_uhp demo_dial) 7 [(true, DialFails string nat "x")] demo_tri in
     match err with
     | None => Ok (t', net', true)
     | Some ErrShutdown => let? t'' := exit_loop nat t' in Ok (t'', net', false)
     | Some (Failed e) => Panic e
     end).
Proof.
  apply (keepalive_always_reconnects string nat demo_parse demo_auth_key (fun k => k) (fun _ => "ssh-rsa") (fun _ => "db") (fun _ => Err "no file")
    demo_range (fun _ => true) (fun _ => Ok tt) demo_dial None ∅ (Some 0%nat) "tri" 5 demo_net demo_world [] demo_tri demo_tri 6 7 _ demo_start_ok);
    [vm_compute; reflexivity|apply rtc_refl].
Defined.

Lemma shutdown_spec_witness : exists t', demo_step (Running nat demo_stopped) (Exited nat t') /\ sshChannels nat t' = ∅.
Proof.
  destruct (shutdown_spec string nat demo_parse demo_auth_key (fun k => k) (fun _ => "ssh-rsa") (fun _ => "db") (fun _ => Err "no file")
    demo_range (fun _ => true) (fun _ => Ok tt) demo_dial None ∅ (Some 0%nat) "tri" 5 demo_net demo_world [] demo_tri demo_stopped demo_start_ok)
    as (t' & H1 & H2 & _); [vm_compute; reflexivity| |vm_compute; reflexivity|].
  - apply rtc_once. apply tri_request. vm_compute. reflexivity.
  - exists t'. split; [exact H1|exact H2].
Defined.

Lemma failed_start_blocks_parent_witness : MarkDone 5 0 (halts nat demo_failed) <> Ok demo_world.
Proof.
  apply (failed_start_blocks_parent string nat demo_parse demo_auth_key (fun k => k) (fun _ => "ssh-rsa") (fun _ => "db") (fun _ => Err "no file")
    demo_range (fun _ => true) (fun _ => Ok tt) demo_dial None ∅ 0%nat "tri" 5
    [demo_offer "K1" (HandshakeFails nat "closed"); demo_offer "K2" (HandshakeFails nat "closed"); (true, DialFails string nat "x")]
    demo_world [(true, DialFails string nat "x")] demo_failed ErrShutdown 5 demo_world demo_start_ok). vm_compute. reflexivity.
Defined.

(** A client that has not reached its server yet. *)
Definition demo_waiting : Tricorder nat := tri_of (demo_new (replicate 10 (false, NoKey string nat "EOF"))).
Definition demo_learn : outcome (KnownHosts * disk * option string) :=
  hostKeyCallback string demo_auth_key (fun k => k) (fun _ => "ssh-rsa") (fun _ => "db") demo_range (fun _ => true)
    "db.example.com:22" "1.2.3.4:22" "2017-01-01" "K1" true false (known nat demo_waiting) ∅.

Lemma tofu_connects_witness :
  exists t', helperNewClientConnect string nat demo_auth_key (fun k => k) (fun _ => "ssh-rsa") (fun _ => "db") demo_range
    (fun _ => true) (fun _ => Ok tt) 9 demo_net demo_waiting = Ok (t', [], None) /\ cli nat t' = Some 7%nat.
Proof.
  destruct demo_learn as [[[k f] v]|e|s|] eqn:E; [|vm_compute in E; discriminate..].
  destruct (tofu_connects string nat demo_auth_key (fun k => k) (fun _ => "ssh-rsa") (fun _ => "db") demo_range (fun _ => true) (fun _ => Ok tt)
    9 demo_waiting "K1" "1.2.3.4:22" "2017-01-01" (HandshakeFails nat "closed") "1.2.3.4:22" "2017-01-01" 7%nat [] k f v)
    as (t' & H1 & H2 & _); try (vm_compute; reflexivity); [|exact E|exists t'; split; [exact H1|exact H2]].
  split; [eexists; vm_compute; reflexivity|]. split; [vm_compute; discriminate|]. split; [by right|vm_compute; reflexivity].
Defined.

Lemma server_gone_panics_witness :
  demo_reconnect (replicate 30 (false, DialFails string nat "getsockopt: connection refused") ++ []) demo_tri =
    Panic "sshConnect() errored at dial to 'db.example.com:22': 'getsockopt: connection refused' ".
Proof.
  apply (server_gone_panics string nat demo_parse demo_auth_key (fun k => k) (fun _ => "ssh-rsa") (fun _ => "db") (fun _ => Err "no file")
    demo_range (fun _ => true) (fun _ => Ok tt) demo_dial None ∅ (Some 0%nat) "tri" 5 demo_net demo_world [] demo_tri demo_tri
    (keepalive_uhp demo_dial) "getsockopt: connection refused" 6 7 [] demo_start_ok); try (vm_compute; reflexivity).
  split; [eexists; vm_compute; reflexivity|]. split; [vm_compute; discriminate|]. split; [by right|vm_compute; reflexivity].
Defined.

Definition demo_quiet : DialConfig := mkDial "/kh" "bob" "/id_rsa" "db.example.com" 22 "" false false false true 0 "db".
Lemma skip_keepalive_ignored_witness :
  KeepAliveEvery (cfg_of (with_keepalive (mkClient false false (5 * second) false 0 "/id_rsa", demo_hosts, ∅))) = second.
Proof.
  apply (skip_keepalive_ignored string demo_parse demo_auth_key (fun _ => Err "no file") demo_quiet (Some demo_hosts) ∅); reflexivity.
Defined.
