(* ===== verification/IdleTimer.v ===== *)
(** The idle timer of a channel (xendor/github.com/glycerine/xcryptossh/idle.go):
    the background loop as a function on its events, and its runs. Times and
    durations are nanoseconds. *)
From S2P Require Import Prelude.

(** ** State *)

(** The atomic fields, and the variables of the background goroutine: [dur] and
    the ticker ([heartbeat] with its channel, by its period). [started] lists
    the callbacks launched so far. A raised timeout's text is not modelled. *)
Record IdleTimer := mkTimer {
  dur : Z;
  heartbeat : option Z;
  timeOutRaised : bool;
  timeoutCallback : list nat;
  atomicdur : Z;
  lastStart : Z;
  lastOK : Z;
  isOneshot : bool;
  halted : bool;
  started : list nat;
}.

Definition set_dur (d : Z) (hb : option Z) (t : IdleTimer) : IdleTimer :=
  mkTimer d hb (timeOutRaised t) (timeoutCallback t) d (lastStart t) (lastOK t) (isOneshot t)
    (halted t) (started t).
Definition set_callbacks (l : list nat) (t : IdleTimer) : IdleTimer :=
  mkTimer (dur t) (heartbeat t) (timeOutRaised t) l (atomicdur t) (lastStart t) (lastOK t) (isOneshot t)
    (halted t) (started t).
Definition set_lastStart (x : Z) (t : IdleTimer) : IdleTimer :=
  mkTimer (dur t) (heartbeat t) (timeOutRaised t) (timeoutCallback t) (atomicdur t) x (lastOK t)
    (isOneshot t) (halted t) (started t).
Definition set_lastOK (x : Z) (t : IdleTimer) : IdleTimer :=
  mkTimer (dur t) (heartbeat t) (timeOutRaised t) (timeoutCallback t) (atomicdur t) (lastStart t) x
    (isOneshot t) (halted t) (started t).
Definition set_isOneshot (b : bool) (t : IdleTimer) : IdleTimer :=
  mkTimer (dur t) (heartbeat t) (timeOutRaised t) (timeoutCallback t) (atomicdur t) (lastStart t)
    (lastOK t) b (halted t) (started t).
(** The goroutine returns and its ticker is stopped. *)
Definition halt (t : IdleTimer) : IdleTimer :=
  mkTimer (dur t) None (timeOutRaised t) (timeoutCallback t) (atomicdur t) (lastStart t) (lastOK t)
    (isOneshot t) true (started t).
Definition lower (t : IdleTimer) : IdleTimer :=
  mkTimer (dur t) (heartbeat t) false (timeoutCallback t) (atomicdur t) (-1) (lastOK t)
    (isOneshot t) (halted t) (started t).
(** A timeout: raised, the ticker stopped, the callbacks launched. *)
Definition raise (t : IdleTimer) : IdleTimer :=
  mkTimer (dur t) None true (timeoutCallback t) (atomicdur t) (lastStart t) (lastOK t)
    (isOneshot t) (halted t) (started t ++ timeoutCallback t).

Definition factor : Z := 10.

(** [time.NewTicker]. Durations are divided with truncation. *)
Definition NewTicker (d : Z) : outcome Z :=
  if 0 <? d then Ok d else Panic "non-positive interval for NewTicker".

(** [NewIdleTimer] with the start of [backgroundStart]. *)
Definition NewIdleTimer (callback : option nat) (d : Z) : outcome IdleTimer :=
  let? hb := if 0 <? d then let? p := NewTicker (Z.quot d factor) in Ok (Some p) else Ok None in
  Ok (mkTimer d hb false (match callback with Some f => [f] | None => [] end) d 0 0 false false []).

(** [IdleStatus] at [mnow]: whether the attempt has timed out. *)
Definition IdleStatus (mnow : Z) (t : IdleTimer) : bool :=
  if (atomicdur t <=? 0) || (lastStart t <=? 0) || (lastStart t <=? lastOK t) then false
  else atomicdur t <? to_int64 (mnow - lastStart t).

(** The case of the loop that takes a ticket of [SetIdleTimeout]. *)
Definition set_ticket (newdur : Z) (t : IdleTimer) : outcome IdleTimer :=
  let t := lower t in
  if 0 <? dur t then
    if newdur =? dur t then Ok t
    else if newdur <=? 0 then Ok (set_dur newdur None t)
    else let? p := NewTicker (Z.quot newdur factor) in Ok (set_dur newdur (Some p) t)
  else
    if newdur <=? 0 then Ok (set_dur 0 (heartbeat t) t)
    else let? p := NewTicker (Z.quot newdur factor) in Ok (set_dur newdur (Some p) t).

(** The case of a tick. *)
Definition tick (mnow : Z) (t : IdleTimer) : outcome IdleTimer :=
  if dur t =? 0 then Panic "should be impossible to get heartbeat.C on dur == 0"
  else if IdleStatus mnow t then
    match timeoutCallback t with
    | [] => Panic "IdleTimer.timeoutCallback was never set! call t.addTimeoutCallback() first"
    | _ => Ok (raise t)
    end
  else Ok t.

(** ** Events *)

Inductive event :=
| BeginAttempt (now : Z)
| AttemptOK (now : Z)
| SetIdleTimeout (d : Z)
| SetOneshotIdleTimeout (d : Z)
| GetIdleTimeout
| PollTimedOut
| SetTimeoutCallback (f : nat)
| AddTimeoutCallback (f : nat)
| Tick (now : Z)
| Stop.

(** A call that goes through the loop does nothing once the loop has ended. *)
Definition in_loop (f : IdleTimer -> outcome IdleTimer) (t : IdleTimer) : outcome IdleTimer :=
  if halted t then Ok t else f t.

Definition handle (ev : event) (t : IdleTimer) : outcome IdleTimer :=
  match ev with
  | BeginAttempt now => Ok (set_lastStart now t)
  | AttemptOK now => if isOneshot t then Ok (halt t) else Ok (set_lastOK now t)
  | SetIdleTimeout d => in_loop (set_ticket d) t
  | SetOneshotIdleTimeout d => in_loop (set_ticket d) (set_isOneshot true t)
  | GetIdleTimeout | PollTimedOut => Ok t
  | SetTimeoutCallback f => in_loop (fun t => Ok (set_callbacks [f] t)) t
  | AddTimeoutCallback f => in_loop (fun t => Ok (set_callbacks (timeoutCallback t ++ [f]) t)) t
  | Tick now => tick now t
  | Stop => Ok (halt t)
  end.

(** The ticker ticks only while there is one. *)
Definition enabled (ev : event) (t : IdleTimer) : bool :=
  match ev with
  | Tick _ => match heartbeat t with Some _ => negb (halted t) | None => false end
  | _ => true
  end.

Inductive step : IdleTimer -> event -> IdleTimer -> Prop :=
| step_intro t ev t' : enabled ev t = true -> handle ev t = Ok t' -> step t ev t'.

Inductive run : IdleTimer -> list event -> IdleTimer -> Prop :=
| run_nil t : run t [] t
| run_snoc t evs t1 ev t2 : run t evs t1 -> step t1 ev t2 -> run t (evs ++ [ev]) t2.

(** ** Invariant *)

(** The duration that others read is the loop's; a ticker runs only for a
    positive duration, at a tenth of it, and not while a timeout is raised. *)
Definition timer_ok (t : IdleTimer) : Prop :=
  atomicdur t = dur t /\
  (forall p, heartbeat t = Some p -> 0 < p /\ p = Z.quot (dur t) factor /\ 0 < dur t) /\
  (timeOutRaised t = true -> heartbeat t = None) /\
  (halted t = true -> heartbeat t = None).

Lemma NewTicker_ok d p : NewTicker d = Ok p <-> p = d /\ 0 < d.
Proof. unfold NewTicker. destruct (Z.ltb_spec 0 d); naive_solver lia. Qed.

Lemma set_ticket_ok d t t' :
  timer_ok t -> halted t = false -> set_ticket d t = Ok t' -> timer_ok t'.
Proof.
  intros (H1 & H2 & H3 & H4) Hh. unfold set_ticket. simpl.
  destruct (Z.ltb_spec 0 (dur t)) as [Hd|Hd].
  - destruct (Z.eqb_spec d (dur t)) as [->|Hne]; [by intros [= <-]|].
    destruct (Z.leb_spec d 0); [intros [= <-]; by split_and!|].
    intros (p & [-> Hp]%NewTicker_ok & H')%obind_ok. injection H' as <-. unfold timer_ok. simpl.
    split_and!; try done; [|congruence]. intros p [= <-]. done.
  - assert (heartbeat t = None) as Hn.
    { destruct (heartbeat t) as [p|] eqn:E; [|done]. destruct (H2 p eq_refl) as (_ & _ & ?). lia. }
    destruct (Z.leb_spec d 0).
    + intros [= <-]. unfold timer_ok. simpl. rewrite Hn. by split_and!.
    + intros (p & [-> Hp]%NewTicker_ok & H')%obind_ok. injection H' as <-. unfold timer_ok. simpl.
      split_and!; try done; [|congruence]. intros p [= <-]. done.
Qed.

Lemma handle_ok ev t t' : timer_ok t -> enabled ev t = true -> handle ev t = Ok t' -> timer_ok t'.
Proof.
  intros H He Hh. destruct ev; simpl in Hh; unfold in_loop in Hh.
  - by injection Hh as <-.
  - destruct (isOneshot t); injection Hh as <-; [|done]. destruct H as (? & ? & ? & ?). by split_and!.
  - destruct (halted t) eqn:E; [by injection Hh as <-|]. by eapply set_ticket_ok.
  - simpl in Hh. destruct (halted t) eqn:E; [by injection Hh as <-|].
    by eapply (set_ticket_ok d (set_isOneshot true t)).
  - by injection Hh as <-.
  - by injection Hh as <-.
  - destruct (halted t) eqn:E; by injection Hh as <-.
  - destruct (halted t) eqn:E; by injection Hh as <-.
  - unfold tick in Hh. destruct (dur t =? 0); [done|]. destruct (IdleStatus now t); [|by injection Hh as <-].
    destruct (timeoutCallback t); [done|]. injection Hh as <-. destruct H as (? & ? & ? & ?). by split_and!.
  - injection Hh as <-. destruct H as (? & ? & ? & ?). by split_and!.
Qed.

Lemma NewIdleTimer_ok cb d t : NewIdleTimer cb d = Ok t -> timer_ok t.
Proof.
  unfold NewIdleTimer. intros (hb & Hhb & H)%obind_ok. injection H as <-. unfold timer_ok. simpl.
  destruct (Z.ltb_spec 0 d).
  - apply obind_ok in Hhb as (p & [-> Hp]%NewTicker_ok & Hhb). injection Hhb as <-.
    split_and!; try done. by intros p [= <-].
  - injection Hhb as <-. by split_and!.
Qed.

(** The loop never panics on a tick of a stopped ticker, and keeps the
    ticker, the duration and the raised timeout consistent, whatever the order
    of the calls and ticks. *)
Theorem idle_invariant cb d t evs t' :
  NewIdleTimer cb d = Ok t -> run t evs t' ->
  timer_ok t' /\
  forall now, enabled (Tick now) t' = true -> timeoutCallback t' <> [] -> exists t2, handle (Tick now) t' = Ok t2.
Proof.
  intros Hn%NewIdleTimer_ok Hr. assert (timer_ok t') as Hok.
  { induction Hr as [|t evs t1 ev t2 Hr IH Hs]; [done|]. inversion Hs; subst.
    eapply handle_ok; [by apply IH|done|done]. }
  split; [done|]. intros now He Hc. destruct Hok as (_ & H2 & _). simpl in *.
  destruct (heartbeat t') as [p|]; [|done]. destruct (H2 p eq_refl) as (_ & _ & Hd).
  unfold tick. destruct (Z.eqb_spec (dur t') 0); [lia|]. destruct (IdleStatus now t'); [|eauto].
  destruct (timeoutCallback t'); [done|eauto].
Qed.

(** ** When it fires *)

Definition is_begin (ev : event) : bool := match ev with BeginAttempt _ => true | _ => false end.
Definition is_set (ev : event) : bool :=
  match ev with SetIdleTimeout _ | SetOneshotIdleTimeout _ => true | _ => false end.
Definition ev_time (ev : event) : option Z :=
  match ev with BeginAttempt n | AttemptOK n | Tick n => Some n | _ => None end.

(** The clock of the events never goes back. *)
Definition clocked (evs : list event) : Prop :=
  forall evs1 ev1 evs2 ev2 evs3 a b,
    evs = evs1 ++ ev1 :: evs2 ++ ev2 :: evs3 -> ev_time ev1 = Some a -> ev_time ev2 = Some b -> a <= b.

Lemma clocked_prefix evs ev : clocked (evs ++ [ev]) -> clocked evs.
Proof.
  intros H evs1 ev1 evs2 ev2 evs3 a b ->. apply (H evs1 ev1 evs2 ev2 (evs3 ++ [ev])).
  rewrite <- !app_assoc. simpl. by rewrite <- app_assoc.
Qed.

(** The start that counts is that of the last attempt, with no new attempt and
    no new timeout since; what has succeeded since is in [lastOK]. *)
Definition since_begin (evs : list event) (t : IdleTimer) : Prop :=
  exists evs1 evs2,
    evs = evs1 ++ BeginAttempt (lastStart t) :: evs2 /\
    Forall (fun ev => is_begin ev = false /\ is_set ev = false) evs2 /\
    (forall n, AttemptOK n ∈ evs2 -> n <= lastOK t).

Lemma set_ticket_start d t t' : set_ticket d t = Ok t' -> lastStart t' = -1.
Proof.
  unfold set_ticket. destruct (0 <? dur (lower t)).
  - destruct (d =? dur (lower t)); [by intros [= <-]|]. destruct (d <=? 0); [by intros [= <-]|].
    intros (p & _ & H)%obind_ok. by injection H as <-.
  - destruct (d <=? 0); [by intros [= <-]|]. intros (p & _ & H)%obind_ok. by injection H as <-.
Qed.

Lemma since_begin_snoc evs ev t t' :
  since_begin evs t -> lastStart t' = lastStart t -> is_begin ev = false -> is_set ev = false ->
  (forall n, (exists evs1 evs2, evs = evs1 ++ AttemptOK n :: evs2) -> n <= lastOK t -> n <= lastOK t') ->
  (forall n, ev = AttemptOK n -> n <= lastOK t') -> since_begin (evs ++ [ev]) t'.
Proof.
  intros (evs1 & evs2 & -> & HF & HO) HL Hb Hs Hold Hnew. exists evs1, (evs2 ++ [ev]).
  rewrite HL. split_and!.
  - by rewrite <- app_assoc.
  - apply Forall_app. split; [done|]. by repeat constructor.
  - intros n [Hn|Hn%list_elem_of_singleton]%elem_of_app; [|by apply Hnew].
    apply Hold; [|by apply HO]. apply list_elem_of_split in Hn as (l1 & l2 & ->).
    exists (evs1 ++ BeginAttempt (lastStart t) :: l1), l2. by rewrite <- app_assoc.
Qed.

(** The fields an event that is neither begin, success nor set leaves alone. *)
Lemma handle_since ev t t' :
  handle ev t = Ok t' -> is_set ev = false -> is_begin ev = false -> (forall n, ev <> AttemptOK n) ->
  lastStart t' = lastStart t /\ lastOK t' = lastOK t.
Proof.
  intros H Hs Hb Ho. destruct ev; simpl in *; try done; unfold in_loop in H.
  - by destruct (Ho now).
  - by injection H as <-.
  - by injection H as <-.
  - destruct (halted t); by injection H as <-.
  - destruct (halted t); by injection H as <-.
  - unfold tick in H. destruct (dur t =? 0); [done|]. destruct (IdleStatus now t); [|by injection H as <-].
    destruct (timeoutCallback t); [done|]. by injection H as <-.
  - by injection H as <-.
Qed.

Lemma set_ticket_halted d t t' : set_ticket d t = Ok t' -> halted t' = halted t.
Proof.
  unfold set_ticket. destruct (0 <? dur (lower t)).
  - destruct (d =? dur (lower t)); [by intros [= <-]|]. destruct (d <=? 0); [by intros [= <-]|].
    intros (p & _ & H)%obind_ok. by injection H as <-.
  - destruct (d <=? 0); [by intros [= <-]|]. intros (p & _ & H)%obind_ok. by injection H as <-.
Qed.

Lemma handle_halted ev t t' : handle ev t = Ok t' -> halted t' = false -> halted t = false.
Proof.
  intros H Hh. destruct (halted t) eqn:E; [|done]. exfalso. revert Hh.
  destruct ev; simpl in H; unfold in_loop in H; simpl in H; rewrite ?E in H;
    try (injection H as <-; simpl; congruence).
  - destruct (isOneshot t); injection H as <-; simpl; congruence.
  - unfold tick in H. destruct (dur t =? 0); [done|]. destruct (IdleStatus now t).
    + destruct (timeoutCallback t); [done|]. injection H as <-. simpl. congruence.
    + injection H as <-. congruence.
Qed.

Lemma run_since t0 evs t :
  run t0 evs t -> lastStart t0 <= 0 -> clocked evs -> halted t = false -> 0 < lastStart t -> since_begin evs t.
Proof.
  induction 1 as [|t0 evs t1 ev t2 Hr IH Hs]; intros H0 Hc Hh Hp; [lia|].
  inversion Hs as [? ? ? _ HH]; subst. pose proof (handle_halted _ _ _ HH Hh) as Hh1.
  pose proof (clocked_prefix _ _ Hc) as Hc1.
  destruct (is_begin ev) eqn:Eb.
  { destruct ev; try done. simpl in HH. injection HH as <-. exists evs, []. simpl. split_and!; [done|done|].
    intros n Hn. by apply elem_of_nil in Hn. }
  destruct (is_set ev) eqn:Es.
  { exfalso. destruct ev; try done; simpl in HH; unfold in_loop in HH; simpl in HH; rewrite Hh1 in HH;
      apply set_ticket_start in HH; lia. }
  assert ((exists n, ev = AttemptOK n) \/ forall n, ev <> AttemptOK n) as [[n ->]|Hno].
  { destruct ev; try (by right); left; eauto. }
  - simpl in HH. destruct (isOneshot t1); injection HH as <-; [done|]. simpl in *.
    apply (since_begin_snoc _ _ t1); try done; [by apply IH| |].
    + intros m (e1 & e2 & ->) _. simpl. apply (Hc e1 (AttemptOK m) e2 (AttemptOK n) []); [by rewrite <- app_assoc|done..].
    + intros m [= ->]. simpl. lia.
  - destruct (handle_since _ _ _ HH Es Eb Hno) as [HL HO].
    apply (since_begin_snoc _ _ t1); try done.
    + apply IH; try done. by rewrite <- HL.
    + intros n _ Hn. by rewrite HO.
    + intros n Hev. by destruct (Hno n).
Qed.

(** C38: A timeout means silence: when a tick raises one, an attempt had begun
    longer ago than the duration in force, and since then nothing succeeded, no
    other attempt began and no timeout was set. All the callbacks are launched,
    once, and the ticker is stopped. *)
Theorem timeout_means_silence cb d t0 evs t now t' :
  NewIdleTimer cb d = Ok t0 -> run t0 evs t -> clocked evs ->
  enabled (Tick now) t = true -> handle (Tick now) t = Ok t' -> started t' <> started t ->
  (exists evs1 s evs2,
     evs = evs1 ++ BeginAttempt s :: evs2 /\ dur t < to_int64 (now - s) /\ 0 < s /\
     Forall (fun ev => is_begin ev = false /\ is_set ev = false /\ forall n, ev <> AttemptOK n) evs2) /\
  started t' = started t ++ timeoutCallback t /\ timeOutRaised t' = true /\ heartbeat t' = None.
Proof.
  intros Hn Hr Hc He HH Hne. pose proof (NewIdleTimer_ok _ _ _ Hn) as Hok0.
  assert (lastStart t0 = 0) as H0.
  { unfold NewIdleTimer in Hn. apply obind_ok in Hn as (hb & _ & Hn). by injection Hn as <-. }
  assert (timer_ok t) as (Ha & _ & _ & Hhalt).
  { clear -Hok0 Hr. induction Hr as [|t evs t1 ev t2 Hr IH Hs]; [done|]. inversion Hs; subst.
    eapply handle_ok; [by apply IH|done|done]. }
  simpl in He, HH. unfold tick in HH. destruct (dur t =? 0); [done|].
  destruct (IdleStatus now t) eqn:EI; [|by injection HH as <-].
  destruct (timeoutCallback t) as [|f l] eqn:EC; [done|]. injection HH as <-.
  unfold IdleStatus in EI. destruct ((atomicdur t <=? 0) || (lastStart t <=? 0) || (lastStart t <=? lastOK t)) eqn:EB;
    [done|]. bool_prop. z_prop. rewrite Ha in EI.
  split; [|simpl; by rewrite EC].
  assert (halted t = false) as Hh.
  { destruct (heartbeat t); [|done]. by apply negb_true_iff in He. }
  destruct (run_since _ _ _ Hr ltac:(lia) Hc Hh ltac:(lia)) as (evs1 & evs2 & -> & HF & HO).
  exists evs1, (lastStart t), evs2. split_and!; [done|done|lia|].
  apply Forall_forall. intros ev Hev. rewrite Forall_forall in HF. destruct (HF ev Hev) as [? ?].
  split_and!; try done. intros n ->. specialize (HO n Hev).
  apply list_elem_of_split in Hev as (l1 & l2 & ->).
  assert (lastStart t <= n) by (eapply (Hc evs1 _ l1 _ l2); done). lia.
Qed.

(** ** When it does not fire *)

Definition other_set (d : Z) (ev : event) : bool :=
  match ev with SetIdleTimeout d' | SetOneshotIdleTimeout d' => negb (d' =? d) | _ => false end.

Lemma dead_step t ev t' :
  heartbeat t = None -> 0 < dur t -> other_set (dur t) ev = false -> step t ev t' ->
  heartbeat t' = None /\ dur t' = dur t /\ started t' = started t.
Proof.
  intros Hb Hd Ho Hs. inversion Hs as [? ? ? He HH]; subst.
  assert (forall t0, heartbeat t0 = None -> dur t0 = dur t -> started t0 = started t ->
    set_ticket (dur t) t0 = Ok t' -> heartbeat t' = None /\ dur t' = dur t /\ started t' = started t) as HT.
  { intros t0 H1 H2 H3. unfold set_ticket. simpl. rewrite H2, Z.eqb_refl.
    destruct (Z.ltb_spec 0 (dur t)); [|lia]. by intros [= <-]. }
  destruct ev; simpl in *; unfold in_loop in HH.
  - by injection HH as <-.
  - destruct (isOneshot t); by injection HH as <-.
  - apply negb_false_iff, Z.eqb_eq in Ho as ->. destruct (halted t); [by injection HH as <-|]. by apply (HT t).
  - apply negb_false_iff, Z.eqb_eq in Ho as ->. simpl in HH. destruct (halted t); [by injection HH as <-|].
    by apply (HT (set_isOneshot true t)).
  - by injection HH as <-.
  - by injection HH as <-.
  - destruct (halted t); by injection HH as <-.
  - destruct (halted t); by injection HH as <-.
  - by rewrite Hb in He.
  - by injection HH as <-.
Qed.

(** After a timeout was raised the timer is disabled, as intended; but
    setting the same duration again, the way to reactivate it, does not start
    the ticker: whatever is attempted afterwards, it never fires again until a
    different duration is set. *)
Theorem same_duration_never_fires t now t1 evs t2 :
  0 < dur t -> handle (Tick now) t = Ok t1 -> started t1 <> started t ->
  run t1 evs t2 -> Forall (fun ev => other_set (dur t) ev = false) evs ->
  started t2 = started t1 /\ heartbeat t2 = None.
Proof.
  intros Hd HH Hne Hr HF. simpl in HH. unfold tick in HH. destruct (dur t =? 0); [done|].
  destruct (IdleStatus now t); [|by injection HH as <-].
  destruct (timeoutCallback t) as [|f l]; [done|]. injection HH as <-.
  assert (heartbeat t2 = None /\ dur t2 = dur t /\ started t2 = started (raise t)) as (? & _ & ?); [|done].
  clear Hne. remember (raise t) as t1 eqn:E. 
  assert (heartbeat t1 = None /\ dur t1 = dur t) as [Hb1 Hd1] by (by subst).
  clear E. induction Hr as [|t1 evs t3 ev t4 Hr IH Hs]; [done|].
  apply Forall_app in HF as [HF1 HF2]. inversion HF2; subst.
  destruct IH as (I1 & I2 & I3); try done.
  destruct (dead_step t3 ev t4) as (? & ? & ?); [done|lia|congruence|done|].
  split_and!; congruence.
Qed.

(** A timer fires: with its ticker running and a callback registered, an
    attempt that has not succeeded is timed out by the first tick later than the
    duration, whatever was polled or read in between. *)
Theorem idle_fires t s now :
  timer_ok t -> heartbeat t <> None -> halted t = false -> timeoutCallback t <> [] ->
  lastStart t = s -> 0 < s -> lastOK t < s -> in_int64 (now - s) -> dur t < now - s ->
  enabled (Tick now) t = true /\
  exists t', handle (Tick now) t = Ok t' /\ timeOutRaised t' = true /\
             started t' = started t ++ timeoutCallback t.
Proof.
  intros (Ha & H2 & _ & _) Hb Hh Hc <- Hs Ho Hi Hd. simpl.
  destruct (heartbeat t) as [p|]; [|done]. destruct (H2 p eq_refl) as (_ & _ & Hpos).
  rewrite Hh. split; [done|]. unfold tick, IdleStatus. rewrite Ha, to_int64_id by done.
  destruct (Z.eqb_spec (dur t) 0); [lia|]. destruct (Z.leb_spec (dur t) 0); [lia|].
  destruct (Z.leb_spec (lastStart t) 0); [lia|]. destruct (Z.leb_spec (lastStart t) (lastOK t)); [lia|]. simpl.
  destruct (Z.ltb_spec (dur t) (now - lastStart t)); [|lia].
  destruct (timeoutCallback t) as [|f l] eqn:EC; [done|]. eexists. split; [reflexivity|]. simpl. by rewrite EC.
Qed.

(** A positive duration below ten nanoseconds makes the ticker's period
    zero: the timer panics when it is made, or when the duration is set. *)
Theorem tiny_duration_panics d cb t :
  0 < d < 10 ->
  NewIdleTimer cb d = Panic "non-positive interval for NewTicker" /\
  (halted t = false -> dur t <> d ->
   handle (SetIdleTimeout d) t = Panic "non-positive interval for NewTicker").
Proof.
  intros Hd. assert (Z.quot d factor = 0) as Hq by (apply Z.quot_small; unfold factor; lia). split.
  - unfold NewIdleTimer. destruct (Z.ltb_spec 0 d); [|lia]. by rewrite Hq.
  - intros Hh Hne. simpl. unfold in_loop. rewrite Hh. unfold set_ticket. simpl. rewrite Hq.
    destruct (Z.eqb_spec d (dur t)); [congruence|]. destruct (Z.leb_spec d 0); [lia|].
    by destruct (0 <? dur t).
Qed.

(** ** Concrete instances *)

Definition ms : Z := 1000000.
Definition demo_timer : IdleTimer := mkTimer (100 * ms) (Some (10 * ms)) false [7%nat] (100 * ms) 0 0 false false [].
Definition demo_evs : list event := [BeginAttempt (5 * ms); Tick (50 * ms); GetIdleTimeout].
(** [demo_timer] after [demo_evs]. *)
Definition demo_waiting : IdleTimer := set_lastStart (5 * ms) demo_timer.

Lemma demo_new : NewIdleTimer (Some 7%nat) (100 * ms) = Ok demo_timer.
Proof. vm_compute. reflexivity. Qed.

Lemma demo_run : run demo_timer demo_evs demo_waiting.
Proof.
  change demo_evs with ((([] ++ [BeginAttempt (5 * ms)]) ++ [Tick (50 * ms)]) ++ [GetIdleTimeout]).
  apply (run_snoc _ _ demo_waiting); [|by constructor]. apply (run_snoc _ _ demo_waiting); [|by constructor].
  apply (run_snoc _ _ demo_timer); [apply run_nil|by constructor].
Qed.

Lemma demo_clocked : clocked demo_evs.
Proof.
  intros evs1 ev1 evs2 ev2 evs3 a b H Ha Hb. unfold demo_evs in H.
  repeat (destruct evs1 as [|? evs1]; simplify_eq/=); repeat (destruct evs2 as [|? evs2]; simplify_eq/=);
    unfold ms; try lia; by destruct evs1 || by destruct evs2.
Qed.

Lemma idle_invariant_witness : timer_ok demo_waiting.
Proof. apply (idle_invariant _ _ _ _ _ demo_new demo_run). Defined.

Lemma timeout_means_silence_witness :
  exists t', handle (Tick (106 * ms)) demo_waiting = Ok t' /\ started t' = [7%nat].
Proof.
  destruct (handle (Tick (106 * ms)) demo_waiting) as [t'|e|s|] eqn:E; [|vm_compute in E; discriminate..].
  exists t'. split; [reflexivity|].
  apply (timeout_means_silence _ _ _ _ _ _ _ demo_new demo_run demo_clocked eq_refl E).
  vm_compute in E. injection E as <-. discriminate.
Defined.

(** The duration is set again after a timeout, and an attempt begins. *)
Definition demo_reset : list event := [SetIdleTimeout (100 * ms); BeginAttempt (200 * ms)].
Definition demo_dead : IdleTimer := set_lastStart (200 * ms) (lower (raise demo_waiting)).

Lemma demo_dead_run : run (raise demo_waiting) demo_reset demo_dead.
Proof.
  change demo_reset with (([] ++ [SetIdleTimeout (100 * ms)]) ++ [BeginAttempt (200 * ms)]).
  apply (run_snoc _ _ (lower (raise demo_waiting))); [|by constructor].
  apply (run_snoc _ _ (raise demo_waiting)); [apply run_nil|by constructor].
Qed.

Lemma same_duration_never_fires_witness : heartbeat demo_dead = None.
Proof.
  refine (proj2 (same_duration_never_fires demo_waiting (106 * ms) (raise demo_waiting) demo_reset demo_dead
    _ _ _ demo_dead_run _)); [vm_compute; reflexivity|vm_compute; reflexivity|discriminate|].
  repeat constructor.
Defined.

Lemma demo_waiting_ok : timer_ok demo_waiting.
Proof. unfold timer_ok. split_and!; try done. intros p [= <-]. vm_compute. repeat split; congruence. Qed.

Lemma idle_fires_witness :
  exists t', handle (Tick (106 * ms)) demo_waiting = Ok t' /\ timeOutRaised t' = true.
Proof.
  destruct (idle_fires demo_waiting (5 * ms) (106 * ms) demo_waiting_ok) as (_ & t' & H1 & H2 & _).
  - discriminate.
  - reflexivity.
  - discriminate.
  - reflexivity.
  - vm_compute. reflexivity.
  - vm_compute. reflexivity.
  - unfold in_int64, min_int64, max_int64, ms. lia.
  - vm_compute. reflexivity.
  - exists t'. split; [exact H1|exact H2].
Defined.

Lemma tiny_duration_panics_witness : NewIdleTimer None 9 = Panic "non-positive interval for NewTicker".
Proof. refine (proj1 (tiny_duration_panics 9 None demo_timer _)). lia. Defined.
