(* ===== verification/Flow.v ===== *)
(** The pieces that a channel's flow of data is made of
    (xendor/github.com/glycerine/xcryptossh: [window] of common.go, buffer.go,
    [chanList] of mux.go). *)
From S2P Require Import Prelude.
From S2P Require Import GoStrings.
From S2P Require Import Wire.

(** ** The window: how much may still be written *)
Module Window.

Record window := mkWindow { win : Z; writeWaiters : Z; closed : bool }.

(** [add]; [false] is an overflow of the 32 bits, and changes nothing. *)
Definition add (n : Z) (w : window) : window * bool :=
  if n =? 0 then (w, true)
  else if to_uint32 (win w + n) <? n then (w, false)
  else (mkWindow (to_uint32 (win w + n)) (writeWaiters w) (closed w), true).

Definition close (w : window) : window := mkWindow (win w) (writeWaiters w) true.

(** What other goroutines do to the window while one waits. *)
Inductive event := Add (n : Z) | Close_ | Wake.

Definition on_event (e : event) (w : window) : window :=
  match e with Add n => (add n w).1 | Close_ => close w | Wake => w end.

Definition waiters (d : Z) (w : window) : window := mkWindow (win w) (writeWaiters w + d) (closed w).

(** The end of [reserve]: how much was taken and the error. *)
Definition take (n : Z) (w : window) : window * (Z * option string) :=
  let w := waiters (-1) w in
  let n := if win w <? n then win w else n in
  (mkWindow (to_uint32 (win w - n)) (writeWaiters w) (closed w),
   (n, if closed w then Some "EOF" else None)).

(** The loop of [reserve]: each turn waits for an event and then asks the idle
    timer, whose answer comes with the event. [None]: still waiting. *)
Fixpoint wait (evs : list (event * option string)) (n : Z) (w : window)
  : option (window * (Z * option string)) :=
  if (win w =? 0) && negb (closed w) then
    match evs with
    | [] => None
    | (e, bye) :: evs =>
        let w := on_event e w in
        match bye with
        | Some err => Some (w, (0, Some err))
        | None => wait evs n w
        end
    end
  else Some (take n w).

Definition reserve (bye : option string) (evs : list (event * option string)) (n : Z) (w : window)
  : option (window * (Z * option string)) :=
  match bye with
  | Some err => Some (w, (0, Some err))
  | None => wait evs n (waiters 1 w)
  end.

Definition wf (w : window) : Prop := in_uint32 (win w).

(** What [add] does. *)
Lemma add_spec n w :
  wf w -> in_uint32 n ->
  let '(w', ok) := add n w in
  wf w' /\ (ok = true -> win w' = win w + n) /\ (ok = false -> w' = w) /\
  (ok = false <-> 2 ^ 32 <= win w + n).
Proof.
  unfold wf, in_uint32, add. intros Hw Hn. destruct (Z.eqb_spec n 0) as [->|Hz].
  { split_and!; lia || done. }
  unfold to_uint32. destruct (Z.ltb_spec (win w + n) (2 ^ 32)) as [Hs|Hs].
  - rewrite Z.mod_small by lia. destruct (Z.ltb_spec (win w + n) n); [lia|]. simpl.
    split_and!; try done; lia.
  - assert ((win w + n) mod 2 ^ 32 = win w + n - 2 ^ 32) as ->.
    { symmetry. apply (Z.mod_unique _ _ 1); lia. }
    destruct (Z.ltb_spec (win w + n - 2 ^ 32) n); [|lia]. split_and!; done || lia.
Qed.

(** The window never wraps: [add] either grants exactly what was asked or
    refuses and changes nothing, and refuses exactly when the sum does not fit. *)
Theorem window_add_exact n w :
  wf w -> in_uint32 n ->
  let '(w', ok) := add n w in
  wf w' /\ (ok = true -> win w' = win w + n) /\ (ok = false -> w' = w) /\
  (ok = false <-> 2 ^ 32 <= win w + n).
Proof. apply add_spec. Qed.

(** What one reservation takes. *)
Lemma take_spec n w w' k e :
  wf w -> 0 <= n -> take n w = (w', (k, e)) ->
  0 <= k <= n /\ k <= win w /\ win w' = win w - k /\ wf w' /\ (0 < n -> 0 < win w -> 0 < k) /\
  (e = None <-> closed w = false).
Proof.
  unfold take, wf, in_uint32. simpl. intros Hw Hn. destruct (Z.ltb_spec (win w) n); intros [= <- <- <-]; simpl;
    (rewrite to_uint32_id by (unfold in_uint32; lia)); destruct (closed w); split_and!; lia || done.
Qed.

Lemma on_event_wf e w : wf w -> (forall n, e = Add n -> in_uint32 n) -> wf (on_event e w).
Proof.
  intros Hw He. destruct e as [n| |]; simpl; [|done..].
  pose proof (add_spec n w Hw (He n eq_refl)). destruct (add n w). naive_solver.
Qed.

Lemma take_reserve n v w' k e :
  wf v -> 0 < n -> (win v =? 0) && negb (closed v) = false -> take n v = (w', (k, e)) ->
  wf w' /\ 0 <= k <= n /\ (e = None -> 0 < k /\ closed w' = false) /\ (closed w' = false -> e <> None -> k = 0).
Proof.
  intros Hv Hn E ET. assert (closed w' = closed v) as Hc.
  { unfold take in ET. simpl in ET. by injection ET as <- _ _. }
  apply take_spec in ET as (H1 & H2 & H3 & H4 & H5 & H6); [|done|lia].
  unfold wf, in_uint32 in *. rewrite Hc. apply andb_false_iff in E.
  split; [done|]. split; [lia|]. split.
  - intros He. apply H6 in He. split; [|done]. apply H5; [done|].
    destruct E as [E|E]; [z_prop; lia|]. by rewrite He in E.
  - intros Hc' He. apply H6 in Hc'. congruence.
Qed.

(** A reservation that succeeds takes something, never more than was asked;
    one that fails without the window being closed takes nothing. *)
Lemma reserve_spec evs n w w' k e :
  wf w -> 0 < n -> Forall (fun ev => forall m, ev.1 = Add m -> in_uint32 m) evs ->
  reserve None evs n w = Some (w', (k, e)) ->
  wf w' /\ 0 <= k <= n /\ (e = None -> 0 < k /\ closed w' = false) /\
  (closed w' = false -> e <> None -> k = 0).
Proof.
  unfold reserve. intros Hw Hn HF. assert (wf (waiters 1 w)) as Hw1 by done.
  revert HF Hw1. generalize (waiters 1 w) as v. clear w Hw. intros v HF. revert v.
  induction HF as [|[ev bye] evs Hev HF IH]; intros v Hv; cbn [wait].
  - destruct ((win v =? 0) && negb (closed v)) eqn:E; [done|]. intros Ht.
    apply (take_reserve n v); try done. congruence.
  - destruct ((win v =? 0) && negb (closed v)) eqn:E.
    + destruct bye as [err|]; [|apply IH; by apply on_event_wf].
      intros [= <- <- <-]. split; [by apply on_event_wf|]. split; [lia|]. done.
    + intros Ht. apply (take_reserve n v); try done. congruence.
Qed.

(** A reservation with nothing happening while it waits. *)
Lemma reserve_no_wait bye n w w' k e :
  wf w -> closed w = false -> 0 < n -> reserve bye [] n w = Some (w', (k, e)) ->
  wf w' /\ closed w' = false /\
  ((e = None /\ 0 < k <= n /\ win w' = win w - k) \/ (e <> None /\ win w' = win w)).
Proof.
  intros Hw Hc Hn. destruct bye as [b|]; [intros [= <- <- <-]; split_and!; try done; by right|].
  unfold reserve. cbn [wait]. change (win (waiters 1 w)) with (win w).
  change (closed (waiters 1 w)) with (closed w). rewrite Hc.
  destruct (Z.eqb_spec (win w) 0) as [Hz|Hz]; [done|]. cbn [andb negb]. intros HS.
  assert (take n (waiters 1 w) = (w', (k, e))) as Ht by congruence. clear HS.
  assert (closed w' = closed w) as Hcw by (unfold take in Ht; simpl in Ht; by injection Ht as <- _ _).
  apply (take_spec n (waiters 1 w)) in Ht as (T1 & T2 & T3 & T4 & T5 & T6); [|done|lia].
  unfold wf, in_uint32 in Hw. simpl in *. rewrite Hcw. split_and!; [done|done|]. left.
  split_and!; [by apply T6|apply T5; lia|lia|done].
Qed.
End Window.

(** ** The buffer between producer and consumer *)
Module Buffer.

(** The linked list: the head's bytes and the elements after it. *)
Record buffer := mkBuffer { head : string; rest : list string; closed : bool }.

Definition newBuffer : buffer := mkBuffer "" [] false.
Definition write (buf : string) (b : buffer) : buffer := mkBuffer (head b) (rest b ++ [buf]) (closed b).
Definition eof (b : buffer) : buffer := mkBuffer (head b) (rest b) true.

(** The first two branches of the loop of [Read]: copy from the head, and take
    the next element once the head is used up. *)
Fixpoint copy_out (need : nat) (head : string) (rest : list string) : string * string * list string :=
  let r := Nat.min need (String.length head) in
  let got := stake r head in
  let head := sdrop r head in
  match (need - r)%nat with
  | O => (got, head, rest)
  | need =>
      match rest with
      | [] => (got, head, [])
      | next :: rest => let '(more, h, rest) := copy_out need next rest in (got +:+ more, h, rest)
      end
  end.

Inductive event := Write (s : string) | Eof | Wake.
Definition on_event (e : event) (b : buffer) : buffer :=
  match e with Write s => write s b | Eof => eof b | Wake => b end.

(** [Read] into [n] bytes. Before each wait the idle timer is asked whether it
    has timed out; the answer and what then happens to the buffer are an
    element of [evs]. [None]: still waiting. *)
Fixpoint Read (evs : list (option string * event)) (n : nat) (b : buffer)
  : option (buffer * (string * option string)) :=
  let '(got, h, r) := copy_out n (head b) (rest b) in
  let b := mkBuffer h r (closed b) in
  match n, got with
  | O, _ | _, String _ _ => Some (b, (got, None))
  | _, "" =>
      if closed b then Some (b, ("", Some "EOF"))
      else match evs with
           | [] => None
           | (Some timedOut, _) :: _ => Some (b, ("", Some timedOut))
           | (None, e) :: evs => Read evs n (on_event e b)
           end
  end.

Fixpoint concat (l : list string) : string :=
  match l with [] => "" | s :: l => s +:+ concat l end.
(** What has been written and not yet read. *)
Definition contents (b : buffer) : string := head b +:+ concat (rest b).
Definition written (evs : list (option string * event)) : string :=
  concat (map (fun e => match e.2 with Write s => s | _ => "" end) evs).

Lemma concat_app l1 l2 : concat (l1 ++ l2) = concat l1 +:+ concat l2.
Proof. induction l1 as [|s l IH]; simpl; [done|]. by rewrite IH, string_app_assoc. Qed.

Lemma contents_on_event e b :
  contents (on_event e b) = contents b +:+ match e with Write s => s | _ => "" end.
Proof.
  destruct e; unfold contents; simpl; rewrite ?string_app_nil_r; try done.
  rewrite concat_app. simpl. by rewrite string_app_nil_r, string_app_assoc.
Qed.

Lemma copy_out_spec need h rest got h' rest' :
  copy_out need h rest = (got, h', rest') ->
  h +:+ concat rest = got +:+ h' +:+ concat rest' /\
  String.length got = Nat.min need (String.length (h +:+ concat rest)).
Proof.
  revert need h got h' rest'. induction rest as [|next rest IH]; intros need h got h' rest'; simpl.
  - destruct (need - Nat.min need (String.length h))%nat; intros [= <- <- <-]; simpl;
      rewrite !string_app_nil_r, stake_sdrop, stake_length; split; try done; lia.
  - destruct (need - Nat.min need (String.length h))%nat as [|d] eqn:Ed.
    + intros [= <- <- <-]. simpl. set (k := Nat.min need (String.length h)) in *. split.
      * by rewrite <- (string_app_assoc (stake k h)), stake_sdrop.
      * rewrite stake_length, string_app_length. lia.
    + destruct (copy_out (S d) next rest) as [[more h1] r1] eqn:EC. intros [= <- <- <-].
      apply IH in EC as [E1 E2]. assert (Nat.min need (String.length h) = String.length h) as Hm by lia.
      rewrite Hm, stake_all. split; [by rewrite E1, string_app_assoc|].
      rewrite !string_app_length, E2, !string_app_length. lia.
Qed.

(** A call that finds data, or wants none. *)
Lemma read_now evs n b got h r :
  copy_out n (head b) (rest b) = (got, h, r) -> n = 0%nat \/ got <> "" ->
  exists evs1 evs2, evs = evs1 ++ evs2 /\
    contents b +:+ written evs1 = got +:+ contents (mkBuffer h r (closed b)) /\
    (String.length got <= n)%nat /\ (@None string = None -> n = 0%nat \/ got <> "") /\
    (@None string <> None -> got = "" /\ contents (mkBuffer h r (closed b)) = "").
Proof.
  intros [E1 E2]%copy_out_spec H. exists [], evs. unfold contents. simpl. rewrite string_app_nil_r.
  split_and!; try done. lia.
Qed.

(** What [Read] returns, and what it leaves. *)
Lemma Read_queue evs n b b' data e :
  Read evs n b = Some (b', (data, e)) ->
  exists evs1 evs2, evs = evs1 ++ evs2 /\
    contents b +:+ written evs1 = data +:+ contents b' /\
    (String.length data <= n)%nat /\
    (e = None -> n = 0%nat \/ data <> "") /\
    (e <> None -> data = "" /\ contents b' = "").
Proof.
  revert b. induction evs as [|[o ev] evs IH]; intros b; cbn [Read];
    destruct (copy_out n (head b) (rest b)) as [[got h] r] eqn:EC.
  - destruct (decide (n = 0%nat \/ got <> "")) as [Hnow|Hnow].
    { replace (match n, got with O, _ | _, String _ _ => _ | _, _ => _ end)
        with (Some (mkBuffer h r (closed b), (got, @None string))) by (destruct n, got; naive_solver).
      intros [= <- <- <-]. by eapply read_now. }
    destruct n as [|n]; [naive_solver|]. destruct got as [|c got]; [|naive_solver].
    apply copy_out_spec in EC as [E1 E2]. destruct (closed b) eqn:Ecl; [|done].
    intros [= <- <- <-]. exists [], []. unfold contents in *. simpl in *. rewrite string_app_nil_r.
    assert (h +:+ concat r = "") as Hz by (rewrite E1 in E2; by destruct (h +:+ concat r)).
    by split_and!; try lia.
  - destruct (decide (n = 0%nat \/ got <> "")) as [Hnow|Hnow].
    { replace (match n, got with O, _ | _, String _ _ => _ | _, _ => _ end)
        with (Some (mkBuffer h r (closed b), (got, @None string))) by (destruct n, got; naive_solver).
      intros [= <- <- <-]. by eapply read_now. }
    destruct n as [|n]; [naive_solver|]. destruct got as [|c got]; [|naive_solver].
    apply copy_out_spec in EC as [E1 E2].
    assert (h +:+ concat r = "") as Hz by (rewrite E1 in E2; by destruct (h +:+ concat r)).
    assert (contents b = "") as Hb by (unfold contents; by rewrite E1).
    destruct (closed b) eqn:Ecl; [|destruct o as [t|]].
    + intros [= <- <- <-]. exists [], ((o, ev) :: evs). rewrite Hb. unfold contents. simpl. by split_and!; try lia.
    + intros [= <- <- <-]. exists [], ((Some t, ev) :: evs). rewrite Hb. unfold contents. simpl. by split_and!; try lia.
    + intros H. apply IH in H as (evs1 & evs2 & -> & H1 & H2). exists ((None, ev) :: evs1), evs2.
      split; [done|]. split; [|done]. rewrite <- H1, contents_on_event, Hb. unfold contents at 1. simpl.
      rewrite Hz. done.
Qed.

(** The buffer is a queue of bytes: what [Read] returns is the front of what
    was written and not yet read, including what arrives while it waits; it
    returns no more than asked and, without an error, something; an error
    loses nothing, and end of file comes only after the last byte. *)
Theorem buffer_fifo evs n b b' data e :
  Read evs n b = Some (b', (data, e)) ->
  exists evs1 evs2, evs = evs1 ++ evs2 /\
    contents b +:+ written evs1 = data +:+ contents b' /\
    (String.length data <= n)%nat /\
    (e = None -> n = 0%nat \/ data <> "") /\
    (e <> None -> data = "" /\ contents b' = "").
Proof. apply Read_queue. Qed.

(** A read that finds data returns at once with as much as it can. *)
Lemma Read_ready evs n b :
  contents b <> "" -> n <> 0%nat ->
  exists b' data, Read evs n b = Some (b', (data, None)) /\
    String.length data = Nat.min n (String.length (contents b)).
Proof.
  intros Hc Hn. destruct (copy_out n (head b) (rest b)) as [[got h] r] eqn:E.
  pose proof E as [_ E2]%copy_out_spec. exists (mkBuffer h r (closed b)), got. split; [|exact E2].
  assert (got <> "") as Hg.
  { intros ->. unfold contents in Hc. destruct (head b +:+ concat (rest b)); [done|]. simpl in E2. lia. }
  destruct evs; cbn [Read]; rewrite E; by destruct n, got.
Qed.
End Buffer.

(** ** The list of channels *)
Module ChanList.
Section ChanList.
Context {C : Type}.

(** The channels by index ([None] is a free slot), and the offset of ids. *)
Record chanList := mkList { chans : list (option C); offset : Z }.

(** The first free slot. *)
Fixpoint free_slot (l : list (option C)) : option nat :=
  match l with
  | [] => None
  | None :: _ => Some 0%nat
  | Some _ :: l => S <$> free_slot l
  end.

Definition add (ch : C) (c : chanList) : chanList * Z :=
  match free_slot (chans c) with
  | Some i => (mkList (<[i := Some ch]> (chans c)) (offset c), to_uint32 (Z.of_nat i + offset c))
  | None => (mkList (chans c ++ [Some ch]) (offset c),
             to_uint32 (Z.of_nat (List.length (chans c)) + offset c))
  end.

Definition getChan (id : Z) (c : chanList) : option C :=
  let id := to_uint32 (id - offset c) in
  if id <? to_uint32 (Z.of_nat (List.length (chans c))) then mjoin (chans c !! Z.to_nat id) else None.

Definition remove (id : Z) (c : chanList) : chanList :=
  let id := to_uint32 (id - offset c) in
  if id <? to_uint32 (Z.of_nat (List.length (chans c)))
  then mkList (<[Z.to_nat id := None]> (chans c)) (offset c) else c.

Definition dropAll (c : chanList) : chanList * list C :=
  (mkList [] (offset c), omap id (chans c)).

Definition wf (c : chanList) : Prop :=
  in_uint32 (offset c) /\ Z.of_nat (List.length (chans c)) < 2 ^ 32 - 1.

(** The slot of an id. *)
Definition slot (id : Z) (c : chanList) : nat := Z.to_nat (to_uint32 (id - offset c)).

Lemma to_uint32_offset i o : 0 <= i < 2 ^ 32 -> in_uint32 o -> to_uint32 (to_uint32 (i + o) - o) = i.
Proof.
  unfold to_uint32, in_uint32. intros Hi Ho. rewrite Zminus_mod_idemp_l.
  replace (i + o - o) with i by lia. by apply Z.mod_small.
Qed.

Lemma free_slot_spec l i : free_slot l = Some i -> l !! i = Some None.
Proof.
  revert i. induction l as [|[x|] l IH]; intros i; simpl; [done| |by intros [= <-]].
  destruct (free_slot l) as [j|]; [|done]. intros [= <-]. simpl. by apply IH.
Qed.

(** The list, slot by slot. *)
Lemma add_slots (p : C) l l' id :
  add p l = (l', id) ->
  exists i, id = to_uint32 (Z.of_nat i + offset l) /\ offset l' = offset l /\
    chans l' !! i = Some (Some p) /\ mjoin (chans l !! i) = None /\
    (forall j, j <> i -> chans l' !! j = chans l !! j) /\
    (List.length (chans l) <= List.length (chans l') <= S (List.length (chans l)))%nat.
Proof.
  unfold add. destruct (free_slot (chans l)) as [i|] eqn:E; intros [= <- <-].
  - apply free_slot_spec in E. pose proof (lookup_lt_Some _ _ _ E). exists i. simpl.
    rewrite length_insert. split_and!; try done; try lia; [by apply list_lookup_insert_eq|by rewrite E|].
    intros j Hj. by apply list_lookup_insert_ne.
  - exists (List.length (chans l)). simpl. rewrite length_app. simpl. split_and!; try done; try lia.
    + by rewrite list_lookup_middle.
    + by rewrite lookup_ge_None_2.
    + intros j Hj. destruct (decide (j < List.length (chans l))%nat); [by rewrite lookup_app_l|].
      rewrite !lookup_ge_None_2; [done|lia|rewrite length_app; simpl; lia].
Qed.

Lemma getChan_slot (p : C) id l :
  getChan id l = Some p -> chans l !! slot id l = Some (Some p).
Proof.
  unfold getChan, slot. case_match; [|done].
  destruct (chans l !! _) as [[q|]|]; simpl; congruence.
Qed.

Lemma remove_slots id (l : chanList) :
  offset (remove id l) = offset l /\
  List.length (chans (remove id l)) = List.length (chans l) /\
  (forall j p, chans (remove id l) !! j = Some (Some p) ->
     chans l !! j = Some (Some p)) /\
  (Z.of_nat (List.length (chans l)) < 2 ^ 32 -> forall p,
     chans (remove id l) !! slot id l <> Some (Some p)).
Proof.
  unfold remove, slot. destruct (Z.ltb_spec (to_uint32 (id - offset l))
    (to_uint32 (Z.of_nat (List.length (chans l))))) as [Hlt|Hge]; simpl.
  - rewrite length_insert. split_and!; try done.
    + intros j p. destruct (decide (j = Z.to_nat (to_uint32 (id - offset l)))) as [->|Hj].
      * intros H. apply list_lookup_insert_Some in H as [(_ & ? & _)|[? _]]; done.
      * by rewrite list_lookup_insert_ne by done.
    + intros Hl p H. apply list_lookup_insert_Some in H as [(_ & ? & _)|[? _]]; done.
  - split_and!; try done. intros Hl p H%lookup_lt_Some.
    rewrite (to_uint32_id (Z.of_nat _)) in Hge by (unfold in_uint32; lia).
    pose proof (to_uint32_range (id - offset l)) as Hr. unfold in_uint32 in Hr. lia.
Qed.

Lemma getChan_lookup id c :
  Z.of_nat (List.length (chans c)) < 2 ^ 32 -> getChan id c = mjoin (chans c !! slot id c).
Proof.
  intros Hl. unfold getChan, slot. pose proof (to_uint32_range (id - offset c)) as Hr. unfold in_uint32 in Hr.
  rewrite (to_uint32_id (Z.of_nat _)) by (unfold in_uint32; lia).
  destruct (Z.ltb_spec (to_uint32 (id - offset c)) (Z.of_nat (List.length (chans c)))); [done|].
  by rewrite lookup_ge_None_2 by lia.
Qed.

(** An id is the id of its slot. *)
Lemma slot_inj id i c :
  in_uint32 id -> slot id c = i -> id = to_uint32 (Z.of_nat i + offset c).
Proof.
  intros Hid <-. unfold slot, to_uint32, in_uint32 in *. rewrite Z2Nat.id by (apply Z.mod_pos_bound; lia).
  rewrite Zplus_mod_idemp_l. replace (id - offset c + offset c) with id by lia. symmetry. apply Z.mod_small. lia.
Qed.

Lemma slot_of_id i c :
  in_uint32 (offset c) -> Z.of_nat i < 2 ^ 32 -> slot (to_uint32 (Z.of_nat i + offset c)) c = i.
Proof. intros Ho Hi. unfold slot. rewrite to_uint32_offset by (done || lia). lia. Qed.

(** What is left after a removal. *)
Lemma remove_lookup id c j :
  Z.of_nat (List.length (chans c)) < 2 ^ 32 -> j <> slot id c -> chans (remove id c) !! j = chans c !! j.
Proof.
  intros Hl Hj. unfold remove. unfold slot in Hj. case_match; [|done]. simpl. by apply list_lookup_insert_ne.
Qed.

(** A new channel gets an id that was free and now leads to it, and every
    other id leads where it did; removing an id frees it and nothing else. *)
Theorem chan_list_spec ch c id :
  wf c ->
  let '(c', new) := add ch c in
  getChan new c = None /\ getChan new c' = Some ch /\
  (in_uint32 id -> id <> new -> getChan id c' = getChan id c) /\
  getChan new (remove new c') = None /\
  (in_uint32 id -> id <> new -> getChan id (remove new c') = getChan id c).
Proof.
  intros [Ho Hl]. destruct (add ch c) as [c' new] eqn:E.
  apply add_slots in E as (i & Hnew & Hof & Hi & Hfree & Hother & Hlen).
  pose proof (lookup_lt_Some _ _ _ Hi). assert (Z.of_nat (List.length (chans c')) < 2 ^ 32) as Hl' by lia.
  destruct (remove_slots new c') as (Rof & Rlen & _ & Rgone).
  assert (forall x, slot x c' = slot x c /\ slot x (remove new c') = slot x c) as Hs
    by (intros x; unfold slot; by rewrite Rof, Hof).
  assert (slot new c = i) as Hsi by (rewrite Hnew; apply slot_of_id; [done|lia]).
  assert (in_uint32 id -> id <> new -> slot id c <> i) as Hne.
  { intros Hid Hn Hx. by rewrite (slot_inj id i c Hid Hx) in Hn. }
  rewrite !getChan_lookup by (rewrite ?Rlen; lia). destruct (Hs id) as [Hs1 Hs2], (Hs new) as [Hs3 Hs4].
  rewrite Hs1, Hs2, Hs3, Hs4, Hsi. split_and!.
  - done.
  - by rewrite Hi.
  - intros Hid Hn. by rewrite Hother by auto.
  - specialize (Rgone Hl'). rewrite Hs3, Hsi in Rgone.
    destruct (chans (remove new c') !! i) as [[x|]|] eqn:Ex; [by destruct (Rgone x)|done|done].
  - intros Hid Hn. rewrite remove_lookup by (rewrite ?Hs3, ?Hsi; auto). by rewrite Hother by auto.
Qed.
End ChanList.
Arguments chanList C : clear implicits.
End ChanList.

(** ** Concrete instances *)

Lemma window_add_exact_witness :
  (Window.add 2 (Window.mkWindow (2 ^ 32 - 1) 0 false)).2 = false.
Proof.
  pose proof (Window.window_add_exact 2 (Window.mkWindow (2 ^ 32 - 1) 0 false)) as H.
  unfold Window.wf, in_uint32 in H. simpl in H. apply H; lia.
Defined.

(** A writer waits; a late event opens the window. *)
Lemma reserve_spec_witness :
  exists w' k, Window.reserve None [(Window.Wake, None); (Window.Add 10, None)] 64 (Window.mkWindow 0 0 false)
                 = Some (w', (k, None)) /\ 0 < k.
Proof.
  eexists _, _. split; [vm_compute; reflexivity|].
  refine (proj1 (proj1 (proj2 (proj2 (Window.reserve_spec [(Window.Wake, None); (Window.Add 10, None)] 64
    (Window.mkWindow 0 0 false) (Window.mkWindow 0 0 false) 10 None _ _ _ _))) eq_refl)).
  - unfold Window.wf, in_uint32. simpl. lia.
  - lia.
  - apply Forall_cons. split; [discriminate|]. apply Forall_cons. split; [|by apply Forall_nil].
    intros m [= <-]. unfold in_uint32. lia.
  - vm_compute. reflexivity.
Defined.

(** A reader waits, and gets the front of what arrives. *)
Lemma buffer_fifo_witness :
  exists b', Buffer.Read [(None, Buffer.Write "hello"); (None, Buffer.Eof)] 3 Buffer.newBuffer
               = Some (b', ("hel", None)) /\ (String.length "hel" <= 3)%nat.
Proof.
  eexists. split; [vm_compute; reflexivity|].
  destruct (Buffer.buffer_fifo [(None, Buffer.Write "hello"); (None, Buffer.Eof)] 3 Buffer.newBuffer
    (Buffer.mkBuffer "lo" [] false) "hel" None) as (_ & _ & _ & _ & H & _); [vm_compute; reflexivity|exact H].
Defined.

Lemma chan_list_spec_witness :
  ChanList.getChan 1 (ChanList.add "c" (ChanList.mkList [Some "a"; None; Some "b"] 0)).1 = Some "c".
Proof.
  pose proof (ChanList.chan_list_spec "c" (ChanList.mkList [Some "a"; None; Some "b"] 0) 0) as H.
  unfold ChanList.wf, in_uint32 in H. simpl in H. apply H. split; lia.
Defined.
