(* ===== verification/Channel.v ===== *)
(** The channels of a connection (xendor/github.com/glycerine/xcryptossh/
    channel.go): the packets a channel sends and accepts, its windows,
    and what each packet does to its channel. The transport's answer to a
    packet is a parameter; the packets it accepted are returned as a list. *)
From S2P Require Import Prelude.
From S2P Require Import GoStrings.
From S2P Require Import Wire.
From S2P Require Import IdleTimer.
From S2P Require Import Flow.

(** ** Data *)

Definition minPacketLength : Z := 9.
Definition channelMaxPacket : Z := 32768.
Definition channelWindowSize : Z := 64 * channelMaxPacket.
Definition chanSize : nat := 16.

Definition message := (msg_type * list value)%type.

Record Request := mkRequest { Type_ : string; WantReply : bool; Payload : string }.

(** The calls on a channel's two idle timers: [BeginAttempt] and [AttemptOK] on
    the one for reads and the one for writes, a request to stop, [Stop]. *)
Inductive idle_call := RBegin | ROK | WBegin | WOK | RHalt | WHalt | RStop | WStop.

(** A channel; [msg] and [incomingRequests] are the Go channels' contents.
    [down] tells that [close] has run, [halted] that its halter was told to
    stop. *)
Record channel := mkChannel {
  chanType : string;
  extraData : string;
  localId : Z;
  remoteId : Z;
  maxIncomingPayload : Z;
  maxRemotePayload : Z;
  decided : bool;
  inbound : bool;
  msg : list message;
  incomingRequests : list Request;
  sentEOF : bool;
  remoteWin : Window.window;
  pending : Buffer.buffer;
  extPending : Buffer.buffer;
  myWindow : Z;
  sentClose : bool;
  hasClosed : bool;
  halted : bool;
  down : bool;
  idleCalls : list idle_call;
}.

(** The fields that operations assign. *)
Definition set_decided (v : bool) (c : channel) : channel :=
  let 'mkChannel a1 a2 a3 a4 a5 a6 _ a8 a9 a10 a11 a12 a13 a14 a15 a16 a17 a18 a19 a20 := c in
  mkChannel a1 a2 a3 a4 a5 a6 v a8 a9 a10 a11 a12 a13 a14 a15 a16 a17 a18 a19 a20.
Definition set_maxIncomingPayload (v : Z) (c : channel) : channel :=
  let 'mkChannel a1 a2 a3 a4 _ a6 a7 a8 a9 a10 a11 a12 a13 a14 a15 a16 a17 a18 a19 a20 := c in
  mkChannel a1 a2 a3 a4 v a6 a7 a8 a9 a10 a11 a12 a13 a14 a15 a16 a17 a18 a19 a20.
Definition set_remote (id maxp : Z) (c : channel) : channel :=
  let 'mkChannel a1 a2 a3 _ a5 _ a7 a8 a9 a10 a11 a12 a13 a14 a15 a16 a17 a18 a19 a20 := c in
  mkChannel a1 a2 a3 id a5 maxp a7 a8 a9 a10 a11 a12 a13 a14 a15 a16 a17 a18 a19 a20.
Definition set_localId (v : Z) (c : channel) : channel :=
  let 'mkChannel a1 a2 _ a4 a5 a6 a7 a8 a9 a10 a11 a12 a13 a14 a15 a16 a17 a18 a19 a20 := c in
  mkChannel a1 a2 v a4 a5 a6 a7 a8 a9 a10 a11 a12 a13 a14 a15 a16 a17 a18 a19 a20.
Definition set_msg (v : list message) (c : channel) : channel :=
  let 'mkChannel a1 a2 a3 a4 a5 a6 a7 a8 _ a10 a11 a12 a13 a14 a15 a16 a17 a18 a19 a20 := c in
  mkChannel a1 a2 a3 a4 a5 a6 a7 a8 v a10 a11 a12 a13 a14 a15 a16 a17 a18 a19 a20.
Definition set_incomingRequests (v : list Request) (c : channel) : channel :=
  let 'mkChannel a1 a2 a3 a4 a5 a6 a7 a8 a9 _ a11 a12 a13 a14 a15 a16 a17 a18 a19 a20 := c in
  mkChannel a1 a2 a3 a4 a5 a6 a7 a8 a9 v a11 a12 a13 a14 a15 a16 a17 a18 a19 a20.
Definition set_sentEOF (v : bool) (c : channel) : channel :=
  let 'mkChannel a1 a2 a3 a4 a5 a6 a7 a8 a9 a10 _ a12 a13 a14 a15 a16 a17 a18 a19 a20 := c in
  mkChannel a1 a2 a3 a4 a5 a6 a7 a8 a9 a10 v a12 a13 a14 a15 a16 a17 a18 a19 a20.
Definition set_remoteWin (v : Window.window) (c : channel) : channel :=
  let 'mkChannel a1 a2 a3 a4 a5 a6 a7 a8 a9 a10 a11 _ a13 a14 a15 a16 a17 a18 a19 a20 := c in
  mkChannel a1 a2 a3 a4 a5 a6 a7 a8 a9 a10 a11 v a13 a14 a15 a16 a17 a18 a19 a20.
Definition set_buffers (p e : Buffer.buffer) (c : channel) : channel :=
  let 'mkChannel a1 a2 a3 a4 a5 a6 a7 a8 a9 a10 a11 a12 _ _ a15 a16 a17 a18 a19 a20 := c in
  mkChannel a1 a2 a3 a4 a5 a6 a7 a8 a9 a10 a11 a12 p e a15 a16 a17 a18 a19 a20.
Definition set_myWindow (v : Z) (c : channel) : channel :=
  let 'mkChannel a1 a2 a3 a4 a5 a6 a7 a8 a9 a10 a11 a12 a13 a14 _ a16 a17 a18 a19 a20 := c in
  mkChannel a1 a2 a3 a4 a5 a6 a7 a8 a9 a10 a11 a12 a13 a14 v a16 a17 a18 a19 a20.
Definition set_sentClose (v : bool) (c : channel) : channel :=
  let 'mkChannel a1 a2 a3 a4 a5 a6 a7 a8 a9 a10 a11 a12 a13 a14 a15 _ a17 a18 a19 a20 := c in
  mkChannel a1 a2 a3 a4 a5 a6 a7 a8 a9 a10 a11 a12 a13 a14 a15 v a17 a18 a19 a20.
Definition set_ended (hc ha dn : bool) (c : channel) : channel :=
  let 'mkChannel a1 a2 a3 a4 a5 a6 a7 a8 a9 a10 a11 a12 a13 a14 a15 a16 _ _ _ a20 := c in
  mkChannel a1 a2 a3 a4 a5 a6 a7 a8 a9 a10 a11 a12 a13 a14 a15 a16 hc ha dn a20.
(** Calls on the idle timers are noted at the end of [idleCalls]. *)
Definition note (l : list idle_call) (c : channel) : channel :=
  let 'mkChannel a1 a2 a3 a4 a5 a6 a7 a8 a9 a10 a11 a12 a13 a14 a15 a16 a17 a18 a19 a20 := c in
  mkChannel a1 a2 a3 a4 a5 a6 a7 a8 a9 a10 a11 a12 a13 a14 a15 a16 a17 a18 a19 (a20 ++ l).

(** What a call returns besides its value: the packets it sent. An error of
    [None] is nil. *)

(** [newChannel], before it is added to the list. *)
Definition new_channel (chanType : string) (inbound : bool) (extraData : string) : channel :=
  mkChannel chanType extraData 0 0 0 0 false inbound [] [] false (Window.mkWindow 0 0 false)
    Buffer.newBuffer Buffer.newBuffer channelWindowSize false false false false [].

(** [Extended]: the code of the stream, or nil. *)
Definition Extended (code : Z) (c : channel) : option Z := if decided c then Some code else None.
Definition Stderr (c : channel) : option Z := Extended 1 c.

(** RejectionReason's [String]. *)
Definition RejectionReason_String (r : Z) : string :=
  match r with
  | 1 => "administratively prohibited"
  | 2 => "connect failed"
  | 3 => "unknown channel type"
  | 4 => "resource shortage"
  | _ => "unknown reason " +:+ itoa r
  end.

Section Transport.
(** [mux.conn.writePacket]: the error that the transport answers a packet with. *)
Context (conn : string -> option string).

(** ** Sending *)

Definition first_byte (packet : string) : Z :=
  match packet with "" => 0 | String c _ => val c end.

Definition writePacket (packet : string) (c : channel) : channel * list string * error_ :=
  if sentClose c then (c, [], Some EOF)
  else
    let c := set_sentClose (first_byte packet =? 97) c in
    match conn packet with
    | None => (note [WOK] c, [packet], None)
    | Some e => (c, [], Some e)
    end.

(** [binary.BigEndian.PutUint32(p[1:], id)]. *)
Definition put_id (id : Z) (p : string) : string := stake 1 p +:+ be_bytes 4 id +:+ sdrop 5 p.

Definition sendMessage (t : msg_type) (vs : list value) (c : channel) : channel * list string * error_ :=
  writePacket (put_id (remoteId c) (Marshal t vs)) c.

(** The packet that [WriteExtended] builds. *)
Definition data_packet (remoteId extendedCode : Z) (todo : string) : string :=
  (if 0 <? extendedCode
   then String (byte 95) (be_bytes 4 remoteId +:+ be_bytes 4 extendedCode)
   else String (byte 94) (be_bytes 4 remoteId)) +:+ be_bytes 4 (to_uint32 (slen todo)) +:+ todo.

Definition min_ (a : Z) (b : Z) : Z := if a <? to_uint32 b then a else to_uint32 b.

(** One turn of the loop: the idle timer's answer when the window is asked,
    and the events while the turn waits for the window. *)
Definition turn := (option string * list (Window.event * option string))%type.

(** The loop of [WriteExtended]; [None]: it waits beyond the turns given. *)
Fixpoint write_loop (turns : list turn) (data : string) (extendedCode : Z) (n : Z) (c : channel)
  : option (channel * list string * (Z * error_)) :=
  match data with
  | "" => Some (c, [], (n, None))
  | _ =>
      match turns with
      | [] => None
      | (bye, evs) :: turns =>
          match Window.reserve bye evs (min_ (maxRemotePayload c) (slen data)) (remoteWin c) with
          | None => None
          | Some (w, (space, err)) =>
              let c := set_remoteWin w c in
              match err with
              | Some e => Some (c, [], (n, Some e))
              | None =>
                  let todo := stake (Z.to_nat space) data in
                  let '(c, sent, err) :=
                    writePacket (data_packet (remoteId c) extendedCode todo) (note [WOK] c) in
                  match err with
                  | Some e => Some (c, sent, (n, Some e))
                  | None =>
                      match write_loop turns (sdrop (Z.to_nat space) data) extendedCode
                              (n + slen todo) (note [WOK] c) with
                      | Some (c, sent', r) => Some (c, sent ++ sent', r)
                      | None => None
                      end
                  end
              end
          end
      end
  end.

(** The deferred [AttemptOK] runs on a nil error. *)
Definition WriteExtended (turns : list turn) (data : string) (extendedCode : Z) (c : channel)
  : option (channel * list string * (Z * error_)) :=
  let c := note [WBegin] c in
  if sentEOF c then Some (c, [], (0, Some EOF))
  else match write_loop turns data extendedCode 0 c with
       | Some (c, sent, (n, None)) => Some (note [WOK] c, sent, (n, None))
       | r => r
       end.

Definition errUndecided : string := "ssh: must Accept or Reject channel".
Definition errDecidedAlready : string := "ssh: can call Accept or Reject only once".

Definition Write (turns : list turn) (data : string) (c : channel)
  : option (channel * list string * (Z * error_)) :=
  if negb (decided c) then Some (c, [], (0, Some errUndecided)) else WriteExtended turns data 0 c.

(** ** Receiving *)

Definition nth_u32 (i : nat) (packet : string) : Z := be (stake 4 (sdrop i packet)).

Definition handleData (packet : string) (c : channel) : channel * error_ :=
  let isExtendedData := first_byte packet =? 95 in
  let headerLen := if isExtendedData then 13%nat else 9%nat in
  if (String.length packet <? headerLen)%nat then (c, Some (parseError (first_byte packet)))
  else
    let extended := if isExtendedData then nth_u32 5 packet else 0 in
    let length := nth_u32 (headerLen - 4) packet in
    if length =? 0 then (c, None)
    else if maxIncomingPayload c <? length
    then (c, Some "ssh: incoming packet exceeds maximum payload size")
    else
      let data := sdrop headerLen packet in
      if negb (length =? to_uint32 (slen data)) then (c, Some "ssh: wrong packet length")
      else if myWindow c <? length then (c, Some "ssh: remote side wrote too much")
      else
        let c := set_myWindow (myWindow c - length) c in
        if extended =? 1 then (set_buffers (pending c) (Buffer.write data (extPending c)) c, None)
        else if 0 <? extended then (c, None)
        else (set_buffers (Buffer.write data (pending c)) (extPending c) c, None).

Definition adjustWindow (n : Z) (c : channel) : channel * list string * error_ :=
  let c := set_myWindow (to_uint32 (myWindow c + n)) c in
  sendMessage windowAdjustMsg [VUint32 0; VUint32 n] c.

(** [ReadExtended] into [n] bytes; [None]: still waiting for data. *)
Definition ReadExtended (evs : list (option string * Buffer.event)) (n : nat) (extended : Z) (c : channel)
  : option (channel * list string * (string * error_)) :=
  let c := note [RBegin] c in
  if (extended =? 0) || (extended =? 1) then
    match Buffer.Read evs n (if extended =? 1 then extPending c else pending c) with
    | None => None
    | Some (b, (data, err)) =>
        let c := if extended =? 1 then set_buffers (pending c) b c else set_buffers b (extPending c) c in
        let c := match err with None => note [ROK] c | Some _ => c end in
        if 0 <? slen data then
          let '(c, sent, err) := adjustWindow (to_uint32 (slen data)) c in
          Some (c, sent, (data, match err with
                                | Some e => if (e =? EOF)%string then None else Some e
                                | None => None
                                end))
        else Some (c, [], (data, err))
    end
  else Some (c, [], ("", Some ("ssh: extended code " +:+ itoa extended +:+ " unimplemented"))).

Definition Read (evs : list (option string * Buffer.event)) (n : nat) (c : channel)
  : option (channel * list string * (string * error_)) :=
  if negb (decided c) then Some (c, [], ("", Some errUndecided)) else ReadExtended evs n 0 c.

(** ** The life of a channel *)

(** [close]: the second close of a Go channel would panic. *)
Definition close (c : channel) : outcome channel :=
  if down c then Panic "close of closed channel"
  else
    let c := set_buffers (Buffer.eof (pending c)) (Buffer.eof (extPending c)) c in
    let c := set_remoteWin (Window.close (remoteWin c)) (set_sentClose true c) in
    Ok (note [RStop; WStop] (set_ended (hasClosed c) true true c)).

Definition responseMessageReceived (c : channel) : channel * error_ :=
  if inbound c then (c, Some "ssh: channel response message received on inbound channel")
  else if decided c then (c, Some "ssh: duplicate response received for channel")
  else (set_decided true c, None).

Definition Accept (c : channel) : channel * list string * error_ :=
  if decided c then (c, [], Some errDecidedAlready)
  else
    let c := set_decided true (set_maxIncomingPayload channelMaxPacket c) in
    sendMessage channelOpenConfirmMsg
      [VUint32 (remoteId c); VUint32 (localId c); VUint32 (myWindow c);
       VUint32 (maxIncomingPayload c); VRest ""] c.

Definition Reject (reason : Z) (message : string) (c : channel) : channel * list string * error_ :=
  if decided c then (c, [], Some errDecidedAlready)
  else
    sendMessage channelOpenFailureMsg
      [VUint32 (remoteId c); VUint32 reason; VString message; VString "en"]
      (note [RHalt; WHalt] (set_decided true c)).

Definition CloseWrite (c : channel) : channel * list string * error_ :=
  if negb (decided c) then (c, [], Some errUndecided)
  else sendMessage channelEOFMsg [VUint32 (remoteId c)] (set_sentEOF true c).

(** [Close]: only the first call has an effect. *)
Definition Close (c : channel) : channel * list string * error_ :=
  if hasClosed c then (c, [], None)
  else
    let c := note [RHalt; WHalt] (set_ended true true (down c) c) in
    if negb (decided c) then (c, [], Some errUndecided)
    else sendMessage channelCloseMsg [VUint32 (remoteId c)] c.

Definition ackRequest (ok : bool) (c : channel) : channel * list string * error_ :=
  if negb (decided c) then (c, [], Some errUndecided)
  else sendMessage (if ok then channelRequestSuccessMsg else channelRequestFailureMsg)
         [VUint32 (remoteId c)] c.

(** [SendRequest] up to its wait for the answer: whether it waits, and the
    answer otherwise. *)
Definition SendRequest (name : string) (wantReply : bool) (payload : string) (c : channel)
  : channel * list string * (bool * error_) :=
  if negb (decided c) then (c, [], (false, Some errUndecided))
  else
    let '(c, sent, err) := sendMessage channelRequestMsg
      [VUint32 (remoteId c); VString name; VBool wantReply; VRest payload] c in
    match err with
    | Some e => (c, sent, (false, Some e))
    | None => (c, sent, (wantReply, None))
    end.

(** Its wait: with nothing in [msg] it goes on waiting; [pick] is the choice of
    [select] when it was also told to stop. A closed [msg] is the end of file. *)
Definition await_reply (muxHalted pick : bool) (c : channel) : channel * outcome (bool * error_) :=
  let stop := halted c || muxHalted in
  if stop && pick then (c, Ok (false, Some EOF))
  else match msg c with
       | (t, _) :: rest =>
           let c := set_msg rest c in
           if bool_decide (t = channelRequestFailureMsg) then (c, Ok (false, None))
           else if bool_decide (t = channelRequestSuccessMsg) then (c, Ok (true, None))
           else (c, Ok (false, Some "ssh: unexpected response to channel request"))
       | [] => if down c || stop then (c, Ok (false, Some EOF)) else (c, Blocked)
       end.

(** [setDeadline]: the timer's event for a deadline [t] (zero: none) at [now]. *)
Definition setDeadline (t now : Z) : event :=
  if t =? 0 then SetOneshotIdleTimeout 0
  else if t <=? now then SetOneshotIdleTimeout 1
  else SetOneshotIdleTimeout (t - now).

(** ** Packets for a channel *)

(** The [select] of a send on a Go channel of [cap] places, closed or not,
    against being told to stop; [pick] is its choice when both are possible. *)
Definition offer {A} (stop pick closed : bool) (cap : nat) (x : A) (l : list A)
  : list A * outcome error_ :=
  if stop && pick then (l, Ok (Some EOF))
  else if closed then (l, Panic "send on closed channel")
  else if (List.length l <? cap)%nat then (l ++ [x], Ok None)
  else if stop then (l, Ok (Some EOF))
  else (l, Blocked).

(** What [handlePacket] does: the channel, the packets sent, the ids removed
    from the channel list, and the result. *)
Definition handled := (channel * list string * list Z * outcome error_)%type.

Definition put_msg (stop pick : bool) (m : message) (removed : list Z) (c : channel) : handled :=
  let '(l, r) := offer stop pick (down c) chanSize m (msg c) in (set_msg l c, [], removed, r).

(** The switch on the decoded message. *)
Definition handleMessage (muxHalted pick : bool) (m : message) (c : channel) : handled :=
  let stop := halted c || muxHalted in
  let '(t, vs) := m in
  if bool_decide (t = channelOpenFailureMsg) then
    match responseMessageReceived c, vs with
    | (c, Some e), _ => (c, [], [], Ok (Some e))
    | (c, None), VUint32 peersId :: _ => put_msg stop pick m [peersId] c
    | (c, None), _ => (c, [], [], Panic "unreachable")
    end
  else if bool_decide (t = channelOpenConfirmMsg) then
    match responseMessageReceived c, vs with
    | (c, Some e), _ => (c, [], [], Ok (Some e))
    | (c, None), [_; VUint32 myId; VUint32 window; VUint32 maxPacket; _] =>
        if (maxPacket <? minPacketLength) || (2 ^ 31 <? maxPacket)
        then (c, [], [], Ok (Some ("ssh: invalid MaxPacketSize " +:+ itoa maxPacket +:+ " from peer")))
        else
          let c := set_remote myId maxPacket c in
          put_msg stop pick m [] (set_remoteWin (Window.add window (remoteWin c)).1 c)
    | (c, None), _ => (c, [], [], Panic "unreachable")
    end
  else if bool_decide (t = windowAdjustMsg) then
    match vs with
    | [_; VUint32 additional] =>
        let '(w, ok) := Window.add additional (remoteWin c) in
        if ok then (set_remoteWin w c, [], [], Ok None)
        else (c, [], [], Ok (Some ("ssh: invalid window update for " +:+ itoa additional +:+ " bytes")))
    | _ => (c, [], [], Panic "unreachable")
    end
  else if bool_decide (t = channelRequestMsg) then
    match vs with
    | [_; VString request; VBool wantReply; VRest data] =>
        let '(l, r) := offer stop pick (down c) chanSize (mkRequest request wantReply data)
                         (incomingRequests c) in
        (set_incomingRequests l c, [], [], r)
    | _ => (c, [], [], Panic "unreachable")
    end
  else put_msg stop pick m [] c.

Definition handlePacket (muxHalted pick : bool) (packet : string) (c : channel) : handled :=
  let c := note [ROK] c in
  let tag := first_byte packet in
  if (tag =? 94) || (tag =? 95) then let '(c, e) := handleData packet c in (c, [], [], Ok e)
  else if tag =? 97 then
    let '(c, sent, _) := sendMessage channelCloseMsg [VUint32 (remoteId c)] c in
    match close c with
    | Ok c => (c, sent, [localId c], Ok None)
    | Panic s => (c, sent, [localId c], Panic s)
    | _ => (c, sent, [localId c], Blocked)
    end
  else if tag =? 96 then
    (set_buffers (Buffer.eof (pending c)) (Buffer.eof (extPending c)) c, [], [], Ok None)
  else
    match decode packet with
    | Ok m => handleMessage muxHalted pick m c
    | Err e => (c, [], [], Ok (Some e))
    | Panic s => (c, [], [], Panic s)
    | Blocked => (c, [], [], Blocked)
    end.
End Transport.

(** ** Facts *)

(** A channel but for [sentClose] and the calls on its timers: what sending a
    packet leaves alone. *)
Definition core (c : channel) : channel :=
  let 'mkChannel a1 a2 a3 a4 a5 a6 a7 a8 a9 a10 a11 a12 a13 a14 a15 a16 a17 a18 a19 a20 := c in
  mkChannel a1 a2 a3 a4 a5 a6 a7 a8 a9 a10 a11 a12 a13 a14 a15 false a17 a18 a19 [].

(** Every other field is a field of the core. *)
Lemma core_fields c c' :
  core c' = core c ->
  localId c' = localId c /\ remoteId c' = remoteId c /\ maxIncomingPayload c' = maxIncomingPayload c /\
  maxRemotePayload c' = maxRemotePayload c /\ decided c' = decided c /\ sentEOF c' = sentEOF c /\
  remoteWin c' = remoteWin c /\ pending c' = pending c /\ extPending c' = extPending c /\
  myWindow c' = myWindow c /\ down c' = down c /\ hasClosed c' = hasClosed c.
Proof. destruct c, c'; simpl. intros [=]. by split_and!. Qed.

Lemma core_note l c : core (note l c) = core c.
Proof. by destruct c. Qed.
Lemma core_sentClose b c : core (set_sentClose b c) = core c.
Proof. by destruct c. Qed.

Lemma writePacket_core conn p c c' sent e :
  writePacket conn p c = (c', sent, e) -> core c' = core c.
Proof.
  unfold writePacket. destruct (sentClose c); [by intros [= <- _ _]|].
  destruct (conn p); intros [= <- _ _]; by rewrite ?core_note, core_sentClose.
Qed.

Lemma sendMessage_core conn t vs c c' sent e :
  sendMessage conn t vs c = (c', sent, e) -> core c' = core c.
Proof. apply writePacket_core. Qed.

(** A packet that is sent, and when. *)
Lemma writePacket_sent conn p c c' sent e :
  writePacket conn p c = (c', sent, e) ->
  (e = None -> sent = [p] /\ sentClose c = false /\ sentClose c' = (first_byte p =? 97)) /\
  (e <> None -> sent = []).
Proof.
  unfold writePacket. destruct (sentClose c) eqn:E; [by intros [= <- <- <-]|].
  destruct (conn p); intros [= <- <- <-]; [done|]. split; [|done]. intros _. by destruct c.
Qed.

(** ** What is written *)

Lemma min_spec a b : in_uint32 a -> 0 <= b < 2 ^ 32 -> min_ a b = Z.min a b.
Proof.
  intros Ha Hb. unfold min_. rewrite to_uint32_id by done.
  destruct (Z.ltb_spec a b); lia.
Qed.

Lemma slen_stake_sdrop k s :
  0 <= k <= slen s -> slen (stake (Z.to_nat k) s) = k /\ slen (sdrop (Z.to_nat k) s) = slen s - k.
Proof.
  intros H. assert (slen (stake (Z.to_nat k) s) = k) as H1.
  { unfold slen in *. rewrite stake_length. lia. }
  split; [done|]. rewrite <- (stake_sdrop (Z.to_nat k) s) at 2. rewrite slen_app. lia.
Qed.

Lemma slen_pos s : s <> "" -> 0 < slen s.
Proof. destruct s; [done|]. intros _. unfold slen. simpl. lia. Qed.

(** The chunks that a run of the loop sends. *)
Definition chunk_ok (maxp : Z) (s : string) : Prop := 0 < slen s <= maxp.

Lemma set_remoteWin_fields w c :
  remoteId (set_remoteWin w c) = remoteId c /\ maxRemotePayload (set_remoteWin w c) = maxRemotePayload c /\
  remoteWin (set_remoteWin w c) = w /\ core (set_remoteWin w c) = set_remoteWin w (core c).
Proof. by destruct c. Qed.

(** A run that sends nothing. *)
Lemma no_chunks maxp id code data n (e : error_) :
  (e = None -> data = "") ->
  exists chunks, [] = map (data_packet id code) chunks /\
    Forall (chunk_ok maxp) chunks /\ n = n + slen (Buffer.concat chunks) /\
    Buffer.concat chunks = stake (Z.to_nat (n - n)) data /\ (e = None -> n = n + slen data).
Proof.
  intros He. exists []. rewrite Z.sub_diag. cbn. change (slen "") with 0. split_and!; try done; [lia|].
  intros ->%He. change (slen "") with 0. lia.
Qed.

Lemma stake_add u s k : stake (String.length u + k) (u +:+ s) = u +:+ stake k s.
Proof. induction u as [|a u IH]; simpl; [done|]. by rewrite IH. Qed.

Lemma write_loop_spec conn turns code :
  Forall (fun t => Forall (fun ev => forall m, ev.1 = Window.Add m -> in_uint32 m) t.2) turns ->
  forall data n c c' sent n' e,
  Window.wf (remoteWin c) -> 0 < maxRemotePayload c < 2 ^ 32 -> slen data < 2 ^ 32 ->
  write_loop conn turns data code n c = Some (c', sent, (n', e)) ->
  exists chunks, sent = map (data_packet (remoteId c) code) chunks /\
    Forall (chunk_ok (maxRemotePayload c)) chunks /\
    n' = n + slen (Buffer.concat chunks) /\
    Buffer.concat chunks = stake (Z.to_nat (n' - n)) data /\
    (e = None -> n' = n + slen data).
Proof.
  induction 1 as [|[bye evs] turns Hev HF IH]; intros data n c c' sent n' e Hw Hm Hd;
    (destruct data as [|x data]; cbn [write_loop]; [intros [= <- <- <- <-]; by apply no_chunks|]); [done|].
  set (d := String x data) in *. assert (0 < slen d) as Hpos by (by apply slen_pos).
  rewrite min_spec by (unfold in_uint32; lia).
  destruct (Window.reserve _ _ _ _) as [[w [space err]]|] eqn:ER; [|done].
  destruct bye as [b|].
  { cbn in ER. injection ER as <- <- <-. cbn. intros [= <- <- <- <-]. by apply no_chunks. }
  apply Window.reserve_spec in ER as (Hw' & Hs & Hok & _); [|done|lia|done].
  destruct err as [e1|].
  { intros [= <- <- <- <-]. by apply no_chunks. }
  destruct (Hok eq_refl) as [Hsp _]. destruct (set_remoteWin_fields w c) as (F1 & F2 & F3 & F4).
  destruct (writePacket _ _ _) as [[c1 sent1] err1] eqn:EW.
  apply writePacket_core in EW as HC. rewrite core_note in HC. apply writePacket_sent in EW as [Hsent Hnot].
  destruct err1 as [e1|].
  { rewrite Hnot by done. intros [= <- <- <- <-]. by apply no_chunks. }
  destruct (Hsent eq_refl) as (-> & _). destruct (slen_stake_sdrop space d) as [Hl1 Hl2]; [lia|].
  destruct (write_loop _ _ _ _ _ _) as [[[c2 sent2] [n2 e2]]|] eqn:EL; [|done].
  intros [= <- <- <- <-].
  assert (core (note [WOK] c1) = core (set_remoteWin w c)) as HC' by (by rewrite core_note).
  apply core_fields in HC' as (_ & Hid & _ & Hmax & _ & _ & Hwin & _).
  rewrite F2 in Hmax. rewrite F1 in Hid. rewrite F3 in Hwin.
  apply IH in EL as (chunks & -> & Hch & Hn & Hcat & He); [|by rewrite Hwin|by rewrite Hmax|lia].
  exists (stake (Z.to_nat space) d :: chunks). rewrite F1. split_and!.
  - cbn [map]. rewrite Hid. by destruct c.
  - apply Forall_cons. split; [unfold chunk_ok; lia|]. by rewrite Hmax in Hch.
  - cbn [Buffer.concat]. rewrite slen_app. lia.
  - cbn [Buffer.concat]. rewrite Hcat, Hl1. pose proof (slen_nonneg (Buffer.concat chunks)).
    rewrite <- (stake_sdrop (Z.to_nat space) d) at 3.
    rewrite <- stake_add. f_equal. unfold slen in *. lia.
  - intros Hnone. apply He in Hnone. lia.
Qed.

(** What a write sends. *)
Lemma write_extended_chunks conn turns data code c c' sent n e :
  Forall (fun t => Forall (fun ev => forall m, ev.1 = Window.Add m -> in_uint32 m) t.2) turns ->
  Window.wf (remoteWin c) -> 0 < maxRemotePayload c < 2 ^ 32 -> slen data < 2 ^ 32 ->
  WriteExtended conn turns data code c = Some (c', sent, (n, e)) ->
  exists chunks, sent = map (data_packet (remoteId c) code) chunks /\
    Forall (chunk_ok (maxRemotePayload c)) chunks /\
    n = slen (Buffer.concat chunks) /\ Buffer.concat chunks = stake (Z.to_nat n) data /\
    (e = None -> n = slen data).
Proof.
  intros HF Hw Hm Hd. unfold WriteExtended.
  assert (core (note [WBegin] c) = core c) as HC by apply core_note.
  apply core_fields in HC as (_ & Hid & _ & Hmax & _ & _ & Hwin & _).
  destruct (sentEOF (note [WBegin] c)).
  { intros [= <- <- <- <-]. destruct (no_chunks (maxRemotePayload c) (remoteId c) code data 0 (Some EOF))
      as (chunks & H); [done|]. exists chunks. by rewrite Z.add_0_l in H. }
  destruct (write_loop _ _ _ _ _ _) as [[[c1 sent1] [n1 e1]]|] eqn:EL; [|done].
  apply write_loop_spec in EL as (chunks & -> & H1 & H2 & H3 & H4); [|by rewrite ?Hwin, ?Hmax..].
  rewrite Hid, Hmax, Z.sub_0_r, !Z.add_0_l in *.
  destruct e1; intros [= <- <- <- <-]; exists chunks; by split_and!.
Qed.

(** A write splits its data into packets of the channel, in order and
    without loss: none is empty or larger than the peer takes, together they
    carry the [n] bytes that are reported as written, and without an error
    that is all of the data. *)
Theorem write_extended_spec conn turns data code c c' sent n e :
  Forall (fun t => Forall (fun ev => forall m, ev.1 = Window.Add m -> in_uint32 m) t.2) turns ->
  Window.wf (remoteWin c) -> 0 < maxRemotePayload c < 2 ^ 32 -> slen data < 2 ^ 32 ->
  WriteExtended conn turns data code c = Some (c', sent, (n, e)) ->
  exists chunks, sent = map (data_packet (remoteId c) code) chunks /\
    Forall (chunk_ok (maxRemotePayload c)) chunks /\
    n = slen (Buffer.concat chunks) /\ Buffer.concat chunks = stake (Z.to_nat n) data /\
    (e = None -> n = slen data).
Proof. apply write_extended_chunks. Qed.

(** The window after a reservation that need not wait. *)
Lemma reserve_now n w :
  Window.wf w -> 0 < n <= Window.win w -> Window.closed w = false ->
  exists w', Window.reserve None [] n w = Some (w', (n, None)) /\
    Window.win w' = Window.win w - n /\ Window.closed w' = false.
Proof.
  unfold Window.wf, in_uint32. intros Hw Hn Hc. unfold Window.reserve. cbn [Window.wait].
  destruct (Z.eqb_spec (Window.win (Window.waiters 1 w)) 0) as [E|E]; [simpl in E; lia|]. simpl.
  unfold Window.take. simpl. destruct (Z.ltb_spec (Window.win w) n); [lia|]. rewrite Hc.
  eexists. split; [done|]. simpl. by rewrite to_uint32_id by (unfold in_uint32; lia).
Qed.

Lemma first_byte_data id code s : first_byte (data_packet id code s) = if 0 <? code then 95 else 94.
Proof. unfold data_packet. by destruct (0 <? code). Qed.

Lemma sentClose_note l c : sentClose (note l c) = sentClose c.
Proof. by destruct c. Qed.
Lemma sentClose_set_remoteWin w c : sentClose (set_remoteWin w c) = sentClose c.
Proof. by destruct c. Qed.

(** Over a transport that accepts every packet, and on a channel not closed,
    a packet other than a close is sent. *)
Lemma writePacket_ok conn p c :
  (forall p, conn p = None) -> sentClose c = false -> first_byte p <> 97 ->
  exists c', writePacket conn p c = (c', [p], None) /\ core c' = core c /\ sentClose c' = false.
Proof.
  intros Hconn Hs Hp. unfold writePacket. rewrite Hs, Hconn. eexists. split; [done|].
  rewrite core_note, core_sentClose, sentClose_note. split; [done|].
  destruct c. simpl. by apply Z.eqb_neq.
Qed.

Lemma write_loop_completes conn code turns :
  (forall p, conn p = None) -> Forall (fun t => t = (None, [])) turns ->
  forall data n c, Window.wf (remoteWin c) -> Window.closed (remoteWin c) = false ->
  slen data <= Window.win (remoteWin c) -> 0 < maxRemotePayload c < 2 ^ 32 ->
  sentClose c = false -> (String.length data <= List.length turns)%nat ->
  exists c' sent, write_loop conn turns data code n c = Some (c', sent, (n + slen data, None)).
Proof.
  intros Hconn HF. induction HF as [|t turns -> HF IH]; intros data n c Hw Hc Hl Hm Hs Hk;
    (destruct data as [|x data]; cbn [write_loop]; [eexists _, _; by rewrite Z.add_0_r|]); [simpl in Hk; lia|].
  set (d := String x data) in *. assert (0 < slen d) as Hpos by (by apply slen_pos).
  unfold Window.wf, in_uint32 in Hw. rewrite min_spec by (unfold in_uint32; lia).
  destruct (reserve_now (Z.min (maxRemotePayload c) (slen d)) (remoteWin c)) as (w & -> & Hwin & Hwc); [done|lia|done|].
  set (k := Z.min (maxRemotePayload c) (slen d)) in *. destruct (set_remoteWin_fields w c) as (F1 & F2 & F3 & F4).
  destruct (writePacket_ok conn (data_packet (remoteId (set_remoteWin w c)) code (stake (Z.to_nat k) d))
    (note [WOK] (set_remoteWin w c))) as (c1 & -> & HC & Hs1); [done|by rewrite sentClose_note, sentClose_set_remoteWin| |].
  { rewrite first_byte_data. by destruct (0 <? code). }
  destruct (slen_stake_sdrop k d) as [Hl1 Hl2]; [lia|].
  assert (core (note [WOK] c1) = core (set_remoteWin w c)) as HC' by (by rewrite core_note, HC, core_note).
  apply core_fields in HC' as (_ & _ & _ & Hmax & _ & _ & Hrw & _). rewrite F2 in Hmax. rewrite F3 in Hrw.
  destruct (IH (sdrop (Z.to_nat k) d) (n + slen (stake (Z.to_nat k) d)) (note [WOK] c1)) as (c2 & sent & ->).
  - rewrite Hrw. unfold Window.wf, in_uint32. lia.
  - by rewrite Hrw.
  - rewrite Hrw. lia.
  - by rewrite Hmax.
  - by rewrite sentClose_note.
  - assert (0 < k) by lia. clearbody k. assert (String.length d = S (String.length data)) as Hd by done.
    simpl in Hk. unfold slen in *. lia.
  - eexists _, _. do 3 f_equal. lia.
Qed.

(** A write that the window has room for completes without waiting: every
    byte is sent, and no error is returned. *)
Theorem write_completes conn turns data code c :
  (forall p, conn p = None) -> Forall (fun t => t = (None, [])) turns ->
  Window.wf (remoteWin c) -> Window.closed (remoteWin c) = false ->
  slen data <= Window.win (remoteWin c) -> 0 < maxRemotePayload c < 2 ^ 32 ->
  sentClose c = false -> sentEOF c = false -> (String.length data <= List.length turns)%nat ->
  exists c' sent, WriteExtended conn turns data code c = Some (c', sent, (slen data, None)).
Proof.
  intros Hconn HF Hw Hc Hl Hm Hs He Hk. unfold WriteExtended.
  assert (core (note [WBegin] c) = core c) as HC by apply core_note.
  apply core_fields in HC as (_ & _ & _ & Hmax & _ & Heof & Hwin & _). rewrite Heof, He.
  destruct (write_loop_completes conn code turns Hconn HF data 0 (note [WBegin] c)) as (c' & sent & ->);
    rewrite ?Hwin, ?Hmax, ?sentClose_note; try done.
  by eexists _, _.
Qed.

(** A write of exactly 4 GiB never ends, however far the window is open:
    [min] truncates the length to 0, and every turn of the loop sends an empty
    packet. *)
Theorem write_4GiB_never_ends conn turns data code c :
  slen data = 2 ^ 32 -> Forall (fun t => t = (None, [])) turns ->
  (forall p, conn p = None) -> Window.wf (remoteWin c) -> Window.closed (remoteWin c) = false ->
  sentClose c = false -> sentEOF c = false -> 0 <= maxRemotePayload c ->
  WriteExtended conn turns data code c = None.
Proof.
  intros Hd HF Hconn Hw Hc Hs He Hm. unfold WriteExtended.
  assert (core (note [WBegin] c) = core c) as HC by apply core_note.
  apply core_fields in HC as (_ & _ & _ & Hmax & _ & Heof & Hwin & _). rewrite Heof, He.
  enough (forall n v, Window.wf (remoteWin v) -> Window.closed (remoteWin v) = false ->
    0 <= maxRemotePayload v -> sentClose v = false -> write_loop conn turns data code n v = None)
    as -> by (by rewrite ?Hwin, ?Hmax, ?sentClose_note).
  clear c Hw Hc Hs He Hm Hmax Heof Hwin.
  induction HF as [|t turns -> HF IH]; intros n v Hw Hc Hm Hs;
    (destruct data as [|x data]; [by change (slen "") with 0 in Hd|]); cbn [write_loop]; [done|].
  set (d := String x data) in *. unfold min_. rewrite Hd. change (to_uint32 (2 ^ 32)) with 0.
  destruct (Z.ltb_spec (maxRemotePayload v) 0); [lia|].
  unfold Window.reserve. cbn [Window.wait].
  destruct ((Window.win (Window.waiters 1 (remoteWin v)) =? 0) && _) eqn:E; [done|].
  unfold Window.take. cbn. unfold Window.wf, in_uint32 in Hw.
  destruct (Z.ltb_spec (Window.win (remoteWin v)) 0); [lia|]. rewrite Hc.
  set (w := Window.mkWindow _ _ _).
  destruct (writePacket_ok conn (data_packet (remoteId (set_remoteWin w v)) code "")
    (note [WOK] (set_remoteWin w v))) as (c1 & EW & HC & Hs1);
    [done|by rewrite sentClose_note, sentClose_set_remoteWin| |].
  { rewrite first_byte_data. by destruct (0 <? code). }
  change (stake (Z.to_nat 0) d) with "". change (sdrop (Z.to_nat 0) d) with d. rewrite EW.
  assert (core (note [WOK] c1) = core (set_remoteWin w v)) as HC' by (by rewrite core_note, HC, core_note).
  destruct (set_remoteWin_fields w v) as (F1 & F2 & F3 & F4).
  apply core_fields in HC' as (_ & _ & _ & Hmax & _ & _ & Hrw & _). rewrite F2 in Hmax. rewrite F3 in Hrw.
  rewrite IH; [done| | | |].
  - rewrite Hrw. unfold Window.wf. simpl. apply to_uint32_range.
  - by rewrite Hrw.
  - by rewrite Hmax.
  - by rewrite sentClose_note.
Qed.

(** ** What is received *)

(** The fields of the receiving side. *)
Definition inbox (c : channel) : Z * Buffer.buffer * Buffer.buffer := (myWindow c, pending c, extPending c).

Lemma inbox_core c c' : core c' = core c -> inbox c' = inbox c.
Proof. intros H%core_fields. unfold inbox. by destruct H as (_ & _ & _ & _ & _ & _ & _ & -> & -> & -> & _). Qed.

Lemma inbox_note l c : inbox (note l c) = inbox c.
Proof. by destruct c. Qed.
Lemma inbox_set_remoteWin w c : inbox (set_remoteWin w c) = inbox c.
Proof. by destruct c. Qed.
Lemma inbox_set_myWindow v c : inbox (set_myWindow v c) = (v, pending c, extPending c).
Proof. by destruct c. Qed.
Lemma inbox_set_buffers p e c : inbox (set_buffers p e c) = (myWindow c, p, e).
Proof. by destruct c. Qed.
Lemma inbox_others c :
  (forall v, inbox (set_decided v c) = inbox c) /\ (forall v, inbox (set_maxIncomingPayload v c) = inbox c) /\
  (forall i v, inbox (set_remote i v c) = inbox c) /\ (forall v, inbox (set_localId v c) = inbox c) /\
  (forall v, inbox (set_msg v c) = inbox c) /\ (forall v, inbox (set_incomingRequests v c) = inbox c) /\
  (forall v, inbox (set_sentEOF v c) = inbox c) /\ (forall v, inbox (set_sentClose v c) = inbox c) /\
  (forall x y z, inbox (set_ended x y z c) = inbox c).
Proof. by destruct c. Qed.
Definition data_len (b : Buffer.buffer) : Z := slen (Buffer.contents b).

(** What the peer may still send, and what is held for the reader. *)
Definition budget (c : channel) : Z := myWindow c + data_len (pending c) + data_len (extPending c).

Lemma data_len_write s b : data_len (Buffer.write s b) = data_len b + slen s.
Proof. unfold data_len. change (Buffer.write s b) with (Buffer.on_event (Buffer.Write s) b).
  rewrite Buffer.contents_on_event. apply slen_app. Qed.
Lemma data_len_eof b : data_len (Buffer.eof b) = data_len b.
Proof. done. Qed.

(** What an incoming data packet can do. *)
Inductive data_effect (c : channel) : channel -> error_ -> Prop :=
| de_nothing e : data_effect c c e
| de_pending data : 0 < slen data <= myWindow c -> slen data <= maxIncomingPayload c ->
    data_effect c (set_buffers (Buffer.write data (pending c)) (extPending c)
                     (set_myWindow (myWindow c - slen data) c)) None
| de_extended data : 0 < slen data <= myWindow c -> slen data <= maxIncomingPayload c ->
    data_effect c (set_buffers (pending c) (Buffer.write data (extPending c))
                     (set_myWindow (myWindow c - slen data) c)) None
| de_discarded data : 0 < slen data <= myWindow c -> slen data <= maxIncomingPayload c ->
    data_effect c (set_myWindow (myWindow c - slen data) c) None.

Lemma slen_sdrop k s : slen (sdrop k s) <= slen s.
Proof. rewrite <- (stake_sdrop k s) at 2. rewrite slen_app. pose proof (slen_nonneg (stake k s)). lia. Qed.

Lemma set_myWindow_fields v c :
  pending (set_myWindow v c) = pending c /\ extPending (set_myWindow v c) = extPending c.
Proof. by destruct c. Qed.

Lemma handleData_effect packet c c' e :
  slen packet < 2 ^ 32 -> handleData packet c = (c', e) -> data_effect c c' e.
Proof.
  intros Hp. unfold handleData. set (k := if first_byte packet =? 95 then 13%nat else 9%nat).
  set (ext := if first_byte packet =? 95 then _ else 0). set (len := nth_u32 (k - 4) packet).
  destruct (set_myWindow_fields (myWindow c - len) c) as [Ep Ee].
  destruct (String.length packet <? k)%nat; [intros [= <- <-]; constructor|].
  destruct (Z.eqb_spec len 0) as [|E1]; [intros [= <- <-]; constructor|].
  destruct (Z.ltb_spec (maxIncomingPayload c) len) as [|E2]; [intros [= <- <-]; constructor|].
  pose proof (slen_sdrop k packet). pose proof (slen_nonneg (sdrop k packet)).
  rewrite to_uint32_id by (unfold in_uint32; lia).
  destruct (Z.eqb_spec len (slen (sdrop k packet))) as [E3|]; [|intros [= <- <-]; constructor]. cbn [negb].
  destruct (Z.ltb_spec (myWindow c) len) as [|E4]; [intros [= <- <-]; constructor|].
  rewrite Ep, Ee, E3 in *.
  destruct (ext =? 1); [|destruct (0 <? ext)]; intros [= <- <-]; constructor; lia.
Qed.

Lemma data_effect_budget c c' e :
  data_effect c c' e -> 0 <= myWindow c -> 0 <= myWindow c' /\ budget c' <= budget c.
Proof.
  intros H Hw. destruct H; [lia|..]; destruct c; unfold budget in *; simpl in *;
    rewrite ?data_len_write; lia.
Qed.

(** The header of a data packet, read back. *)
Lemma nth_u32_app k h n rest :
  String.length h = k -> in_uint32 n -> nth_u32 k (h +:+ be_bytes 4 n +:+ rest) = n.
Proof.
  intros Hk Hn. unfold nth_u32. rewrite sdrop_app_len by done.
  rewrite stake_app_len by apply be_bytes_length. by rewrite be_be_bytes by exact Hn.
Qed.

Lemma sdrop_header k h n s : (String.length h + 4)%nat = k -> sdrop k (h +:+ be_bytes 4 n +:+ s) = s.
Proof.
  intros Hk. rewrite <- string_app_assoc. apply sdrop_app_len. by rewrite string_app_length, be_bytes_length.
Qed.

(** [handleData] of a packet with a given header. *)
Lemma handleData_header h code s c :
  h = (if 0 <? code then "_" else "^") +:+ sdrop 1 h ->
  String.length h = (if 0 <? code then 9%nat else 5%nat) ->
  (0 < code -> nth_u32 5 (h +:+ be_bytes 4 (slen s) +:+ s) = code) ->
  0 < slen s <= maxIncomingPayload c -> maxIncomingPayload c < 2 ^ 32 -> slen s <= myWindow c -> 0 <= code ->
  handleData (h +:+ be_bytes 4 (slen s) +:+ s) c =
    (let c1 := set_myWindow (myWindow c - slen s) c in
     if code =? 0 then set_buffers (Buffer.write s (pending c)) (extPending c) c1
     else if code =? 1 then set_buffers (pending c) (Buffer.write s (extPending c)) c1
     else c1, None).
Proof.
  intros Hh Hlen Hcode Hs Hm Hw Hc. unfold handleData.
  assert (in_uint32 (slen s)) as Hl by (unfold in_uint32; lia).
  destruct (set_myWindow_fields (myWindow c - slen s) c) as [Ep Ee].
  assert (first_byte (h +:+ be_bytes 4 (slen s) +:+ s) = if 0 <? code then 95 else 94) as ->
    by (rewrite Hh; by destruct (0 <? code)).
  replace ((if 0 <? code then 95 else 94) =? 95) with (0 <? code) by (by destruct (0 <? code)).
  assert (forall k, k = (if 0 <? code then 13%nat else 9%nat) ->
    (String.length (h +:+ be_bytes 4 (slen s) +:+ s) <? k)%nat = false /\
    nth_u32 (k - 4) (h +:+ be_bytes 4 (slen s) +:+ s) = slen s /\
    sdrop k (h +:+ be_bytes 4 (slen s) +:+ s) = s) as Hk.
  { intros k ->. split_and!.
    - rewrite !string_app_length, Hlen, be_bytes_length. apply Nat.ltb_ge. destruct (0 <? code); lia.
    - apply nth_u32_app; [rewrite Hlen; by destruct (0 <? code)|done].
    - apply sdrop_header. rewrite Hlen. by destruct (0 <? code). }
  destruct (Hk _ eq_refl) as (-> & -> & ->). rewrite to_uint32_id, Z.eqb_refl by done. cbn [negb].
  destruct (Z.eqb_spec (slen s) 0); [lia|]. destruct (Z.ltb_spec (maxIncomingPayload c) (slen s)); [lia|].
  destruct (Z.ltb_spec (myWindow c) (slen s)); [lia|]. rewrite Ep, Ee.
  destruct (Z.ltb_spec 0 code); [rewrite Hcode by done|].
  - destruct (Z.eqb_spec code 0); [lia|]. destruct (Z.eqb_spec code 1); [done|].
    destruct (Z.ltb_spec 0 code); [done|lia].
  - by destruct (Z.eqb_spec code 0); [|lia].
Qed.

(** What [handleData] makes of a packet of [WriteExtended]. *)
Lemma data_packet_effect id code s c :
  in_uint32 code -> 0 < slen s <= maxIncomingPayload c -> maxIncomingPayload c < 2 ^ 32 ->
  slen s <= myWindow c ->
  handleData (data_packet id code s) c =
    (let c1 := set_myWindow (myWindow c - slen s) c in
     if code =? 0 then set_buffers (Buffer.write s (pending c)) (extPending c) c1
     else if code =? 1 then set_buffers (pending c) (Buffer.write s (extPending c)) c1
     else c1, None).
Proof.
  intros Hcode Hs Hm Hw. unfold data_packet. rewrite to_uint32_id by (unfold in_uint32; lia).
  apply handleData_header; try done; try (destruct (0 <? code); done).
  - intros Hpos%Z.ltb_lt. rewrite Hpos.
    change (String (byte 95) (be_bytes 4 id +:+ be_bytes 4 code))
      with (String (byte 95) (be_bytes 4 id) +:+ be_bytes 4 code). rewrite string_app_assoc.
    by apply nth_u32_app.
  - apply Hcode.
Qed.

(** Whatever [WriteExtended] packs into a packet, [handleData] unpacks: data
    within the payload limit and the window is taken off the window and put at
    the end of its stream, ordinary data or stderr; other streams are dropped. *)
Theorem data_packet_delivered id code s c :
  in_uint32 code -> 0 < slen s <= maxIncomingPayload c -> maxIncomingPayload c < 2 ^ 32 ->
  slen s <= myWindow c ->
  handleData (data_packet id code s) c =
    (let c1 := set_myWindow (myWindow c - slen s) c in
     if code =? 0 then set_buffers (Buffer.write s (pending c)) (extPending c) c1
     else if code =? 1 then set_buffers (pending c) (Buffer.write s (extPending c)) c1
     else c1, None).
Proof. apply data_packet_effect. Qed.

Lemma budget_inbox c c' : inbox c' = inbox c -> budget c' = budget c /\ myWindow c' = myWindow c.
Proof. unfold inbox, budget. by intros [= -> -> ->]. Qed.

Lemma responseMessageReceived_inbox c c' e :
  responseMessageReceived c = (c', e) -> inbox c' = inbox c.
Proof. unfold responseMessageReceived. repeat case_match; intros [= <- <-]; try done; by destruct c. Qed.

Lemma put_msg_inbox stop pick m rem c c' sent rem' r :
  put_msg stop pick m rem c = (c', sent, rem', r) -> inbox c' = inbox c.
Proof. unfold put_msg. case_match. intros [= <- _ _ _]. by destruct c. Qed.

Lemma handleMessage_inbox halted pick m c c' sent removed r :
  handleMessage halted pick m c = (c', sent, removed, r) -> inbox c' = inbox c.
Proof.
  unfold handleMessage. destruct m as [t vs]. intros H. repeat case_match; simplify_eq/=; try done;
    repeat match goal with
    | E : responseMessageReceived _ = _ |- _ => apply responseMessageReceived_inbox in E
    | E : put_msg _ _ _ _ _ = _ |- _ => apply put_msg_inbox in E
    end; try congruence; try (by destruct c).
  match goal with E : inbox c' = inbox (set_remoteWin ?w (set_remote ?i ?n ?a)) |- _ =>
    rewrite E, inbox_set_remoteWin; by destruct a end.
Qed.

Lemma close_budget c c' : close c = Ok c' -> budget c' = budget c /\ myWindow c' = myWindow c.
Proof. unfold close. destruct (down c); [done|]. intros [= <-]. by destruct c. Qed.

Lemma handlePacket_budget conn halted pick packet c c' sent removed r :
  slen packet < 2 ^ 32 -> 0 <= myWindow c ->
  handlePacket conn halted pick packet c = (c', sent, removed, r) ->
  0 <= myWindow c' /\ budget c' <= budget c.
Proof.
  intros Hp Hw. unfold handlePacket.
  destruct (budget_inbox c (note [ROK] c) (inbox_note _ _)) as [<- Hw1]. rewrite <- Hw1 in Hw.
  revert Hw. generalize (note [ROK] c). clear c Hw1. intros c Hw.
  destruct (_ || _).
  { destruct (handleData packet c) eqn:E. intros [= <- _ _ _]. apply handleData_effect in E; [|done].
    by apply data_effect_budget in E. }
  destruct (first_byte packet =? 97).
  { destruct (sendMessage _ _ _ _) as [[c1 s1] e1] eqn:E.
    apply sendMessage_core, inbox_core, budget_inbox in E as [EB EM].
    destruct (close c1) eqn:E1; intros [= <- _ _ _]; [|split; lia..].
    apply close_budget in E1 as [-> ->]. split; lia. }
  destruct (first_byte packet =? 96); [intros [= <- _ _ _]; destruct c; split; [done|by apply Z.eq_le_incl]|].
  destruct (decode packet) as [m| | |]; [|intros [= <- _ _ _]; split; lia..].
  intros H%handleMessage_inbox%budget_inbox. lia.
Qed.

(** The reads and writes of the channel's user. *)
Lemma write_loop_inbox conn turns data code n c c' sent r :
  write_loop conn turns data code n c = Some (c', sent, r) -> inbox c' = inbox c.
Proof.
  revert data n c c' sent r. induction turns as [|[bye evs] turns IH]; intros data n c c' sent r;
    (destruct data as [|x data]; cbn [write_loop]; [by intros [= <- _ _]|]); [done|].
  destruct (Window.reserve _ _ _ _) as [[w [space err]]|]; [|done].
  destruct err; [intros [= <- _ _]; by destruct c|].
  destruct (writePacket _ _ _) as [[c1 s1] e1] eqn:E. apply writePacket_core, inbox_core in E.
  rewrite inbox_note, inbox_set_remoteWin in E. destruct e1; [by intros [= <- _ _]|].
  destruct (write_loop _ _ _ _ _ _) as [[[c2 s2] r2]|] eqn:EL; [|done]. intros [= <- _ _].
  apply IH in EL. by rewrite EL, inbox_note.
Qed.

Lemma WriteExtended_inbox conn turns data code c c' sent r :
  WriteExtended conn turns data code c = Some (c', sent, r) -> inbox c' = inbox c.
Proof.
  unfold WriteExtended. destruct (sentEOF _); [intros [= <- _ _]; by rewrite inbox_note|].
  destruct (write_loop _ _ _ _ _ _) as [[[c1 s1] [n1 e1]]|] eqn:E; [|done].
  apply write_loop_inbox in E. rewrite inbox_note in E.
  destruct e1; intros [= <- _ _]; by rewrite ?inbox_note.
Qed.

Definition no_write (ev : option string * Buffer.event) : Prop :=
  match ev.2 with Buffer.Write _ => False | _ => True end.

Lemma written_none evs : Forall no_write evs -> Buffer.written evs = "".
Proof. intros H. unfold Buffer.written. induction H as [|[o []] evs He HF IH]; simpl; done. Qed.

Lemma Buffer_Read_len evs n b b' data e :
  Forall no_write evs -> Buffer.Read evs n b = Some (b', (data, e)) ->
  Buffer.contents b = data +:+ Buffer.contents b' /\ data_len b = slen data + data_len b'.
Proof.
  intros HF H. apply Buffer.Read_queue in H as (evs1 & evs2 & -> & H & _).
  apply Forall_app in HF as [HF _]. rewrite written_none, string_app_nil_r in H by done.
  split; [done|]. unfold data_len. by rewrite H, slen_app.
Qed.

Lemma ReadExtended_budget conn evs n code c c' sent data e :
  Forall no_write evs -> 0 <= myWindow c -> budget c <= channelWindowSize ->
  ReadExtended conn evs n code c = Some (c', sent, (data, e)) ->
  0 <= myWindow c' /\ budget c' = budget c.
Proof.
  intros HF Hw Hb. unfold ReadExtended.
  destruct (budget_inbox c (note [RBegin] c) (inbox_note _ _)) as [<- Hw1]. rewrite <- Hw1 in Hw.
  assert (budget (note [RBegin] c) <= channelWindowSize) as Hb1 by (by rewrite (proj1 (budget_inbox _ _ (inbox_note _ c)))).
  revert Hw Hb1. generalize (note [RBegin] c). clear c Hw1 Hb. intros c Hw Hb.
  destruct (_ || _); [|intros [= <- _ _ _]; done].
  destruct (Buffer.Read _ _ _) as [[b [d err]]|] eqn:ER; [|done].
  apply Buffer_Read_len in ER as [_ HL]; [|done].
  set (c1 := if code =? 1 then _ else _).
  assert (budget c1 = budget c - slen d /\ myWindow c1 = myWindow c) as [B1 W1].
  { unfold c1. destruct (code =? 1); unfold budget; destruct c; simpl in *; lia. }
  set (c2 := match err with None => note [ROK] c1 | Some _ => c1 end).
  assert (inbox c2 = inbox c1) as HI by (unfold c2; destruct err; by rewrite ?inbox_note).
  apply budget_inbox in HI as [B2 W2]. pose proof (slen_nonneg d).
  destruct (Z.ltb_spec 0 (slen d)) as [Hd|Hd]; [|intros [= <- _ _ _]; lia].
  assert (0 <= data_len (pending c2) /\ 0 <= data_len (extPending c2)) as [D1 D2]
    by (unfold data_len; split; apply slen_nonneg).
  unfold budget in B2, B1, Hb. unfold channelWindowSize, channelMaxPacket in *.
  assert (0 <= data_len (pending c) /\ 0 <= data_len (extPending c)) as [D3 D4]
    by (unfold data_len; split; apply slen_nonneg).
  assert (slen d <= 64 * 32768 - myWindow c) as Hsz.
  { destruct (code =? 1); unfold data_len in *; pose proof (slen_nonneg (Buffer.contents b)); lia. }
  unfold adjustWindow. rewrite to_uint32_id by (unfold in_uint32; lia).
  rewrite (to_uint32_id (myWindow c2 + slen d)) by (unfold in_uint32; lia).
  destruct (sendMessage _ _ _ _) as [[c3 s3] e3] eqn:E. apply sendMessage_core, inbox_core in E.
  rewrite inbox_set_myWindow in E. injection E as E1 E2 E3. intros [= <- _ _ _].
  unfold budget. rewrite E1, E2, E3. lia.
Qed.

(** ** Steps of a channel *)

(** The calls of a channel's user. A read that has to wait is taken to happen
    when it no longer waits. *)
Inductive user_step (conn : string -> option string) : channel -> channel -> Prop :=
| us_read evs n code c c' sent r :
    Forall no_write evs ->
    ReadExtended conn evs n code c = Some (c', sent, r) -> user_step conn c c'
| us_write turns data code c c' sent r :
    WriteExtended conn turns data code c = Some (c', sent, r) -> user_step conn c c'
| us_accept c : user_step conn c (Accept conn c).1.1
| us_reject reason message c : user_step conn c (Reject conn reason message c).1.1
| us_close_write c : user_step conn c (CloseWrite conn c).1.1
| us_close c : user_step conn c (Close conn c).1.1
| us_ack ok c : user_step conn c (ackRequest conn ok c).1.1
| us_request name wantReply payload c : user_step conn c (SendRequest conn name wantReply payload c).1.1
| us_reply halted pick c : user_step conn c (await_reply halted pick c).1.

(** A packet for it is handled, or its user calls a method. *)
Inductive chan_step (conn : string -> option string) : channel -> channel -> Prop :=
| st_packet halted pick packet c c' sent removed r :
    slen packet < 2 ^ 32 ->
    handlePacket conn halted pick packet c = (c', sent, removed, r) -> chan_step conn c c'
| st_user c c' : user_step conn c c' -> chan_step conn c c'.

Lemma sendMessage_inbox conn t vs c : inbox (sendMessage conn t vs c).1.1 = inbox c.
Proof.
  destruct (sendMessage conn t vs c) as [[c1 s] e] eqn:E. by apply sendMessage_core, inbox_core in E.
Qed.

Lemma user_inbox conn c :
  inbox (Accept conn c).1.1 = inbox c /\ inbox (CloseWrite conn c).1.1 = inbox c /\
  inbox (Close conn c).1.1 = inbox c /\
  (forall reason message, inbox (Reject conn reason message c).1.1 = inbox c) /\
  (forall ok, inbox (ackRequest conn ok c).1.1 = inbox c) /\
  (forall name w payload, inbox (SendRequest conn name w payload c).1.1 = inbox c) /\
  (forall h p, inbox (await_reply h p c).1 = inbox c).
Proof.
  unfold Accept, CloseWrite, Close, Reject, ackRequest, SendRequest, await_reply.
  split_and!; intros; repeat case_match; simplify_eq/=; rewrite ?sendMessage_inbox; try done;
    try (match goal with E : sendMessage _ _ _ _ = _ |- _ => apply sendMessage_core, inbox_core in E end);
    by destruct c.
Qed.

(** The window and what is held for the reader never add up to more than the
    initial window. *)
Definition window_ok (c : channel) : Prop := 0 <= myWindow c /\ budget c <= channelWindowSize.

Lemma chan_step_budget conn c c' :
  chan_step conn c c' -> window_ok c -> window_ok c' /\ budget c' <= budget c.
Proof.
  intros H [Hw Hb]. destruct (user_inbox conn c) as (U1 & U2 & U3 & U4 & U5 & U6 & U7).
  assert (inbox c' = inbox c -> window_ok c' /\ budget c' <= budget c) as Hsame.
  { intros [E1 E2]%budget_inbox. unfold window_ok. lia. }
  destruct H as [halted pick packet c c' sent removed r Hp H|c c' H];
    [apply handlePacket_budget in H; [unfold window_ok; lia|done..]|].
  destruct H as [evs n code c c' sent [data e] HF H|turns data code c c' sent r H| | | | | | |];
    try (apply Hsame; by eauto).
  - apply ReadExtended_budget in H; [|done..]. unfold window_ok. lia.
  - apply Hsame. by apply WriteExtended_inbox in H.
Qed.

(** The comment of [adjustWindow] holds: over the whole life of a channel,
    whatever packets arrive and whatever its user does, its window and the
    unread data together never exceed the initial window, so the 32-bit
    addition never wraps. *)
Theorem window_never_exceeds_initial conn chanType inbound extraData id c :
  rtc (chan_step conn) (set_localId id (new_channel chanType inbound extraData)) c ->
  0 <= myWindow c <= channelWindowSize /\
  myWindow c + data_len (pending c) + data_len (extPending c) <= channelWindowSize.
Proof.
  intros H. assert (window_ok c) as [H1 H2].
  { eapply rtc_invariant; [|exact H|]; [|split; vm_compute; discriminate].
    intros a b Ha Hs. by apply (chan_step_budget conn a b). }
  unfold budget in H2. unfold data_len in *. pose proof (slen_nonneg (Buffer.contents (pending c))).
  pose proof (slen_nonneg (Buffer.contents (extPending c))). lia.
Qed.

(** Data of a stream other than ordinary data and stderr is dropped and its
    window is never granted again: from then on the channel accepts that much
    less, until nothing. *)
Theorem dropped_data_shrinks_window conn id code s c c' :
  in_uint32 code -> 1 < code -> 0 < slen s <= maxIncomingPayload c -> maxIncomingPayload c < 2 ^ 32 ->
  slen s <= myWindow c -> window_ok c ->
  rtc (chan_step conn) (handleData (data_packet id code s) c).1 c' ->
  (handleData (data_packet id code s) c).2 = None /\ budget c' <= budget c - slen s.
Proof.
  intros Hcode H1 Hs Hm Hw Hok. rewrite data_packet_effect by done. cbn zeta.
  destruct (Z.eqb_spec code 0); [lia|]. destruct (Z.eqb_spec code 1); [lia|]. cbn [fst snd].
  intros Hr. split; [done|].
  assert (budget (set_myWindow (myWindow c - slen s) c) = budget c - slen s) as EB
    by (destruct c; unfold budget; simpl; lia).
  enough (window_ok c' /\ budget c' <= budget c - slen s) by tauto.
  apply (rtc_invariant (chan_step conn) (fun x => window_ok x /\ budget x <= budget c - slen s) _ _) in Hr.
  - done.
  - intros a b [Ha Hba] Hs'. apply chan_step_budget in Hs' as [? ?]; [|done]. split; [done|lia].
  - destruct Hok. unfold window_ok. split; [|lia]. split; [|lia]. destruct c; simpl in *; lia.
Qed.

(** ** No packet makes a channel panic *)

(** Which channel it is, and whether it was taken down. *)
Definition ident (c : channel) : Z * bool := (localId c, down c).

Lemma ident_core c c' : core c' = core c -> ident c' = ident c.
Proof. intros H%core_fields. unfold ident. by destruct H as (-> & _ & _ & _ & _ & _ & _ & _ & _ & _ & -> & _). Qed.

Lemma sendMessage_ident conn t vs c : ident (sendMessage conn t vs c).1.1 = ident c.
Proof.
  destruct (sendMessage conn t vs c) as [[c1 s] e] eqn:E. by apply sendMessage_core, ident_core in E.
Qed.

Lemma write_loop_ident conn turns data code n c c' sent r :
  write_loop conn turns data code n c = Some (c', sent, r) -> ident c' = ident c.
Proof.
  revert data n c c' sent r. induction turns as [|[bye evs] turns IH]; intros data n c c' sent r;
    (destruct data as [|x data]; cbn [write_loop]; [by intros [= <- _ _]|]); [done|].
  destruct (Window.reserve _ _ _ _) as [[w [space err]]|]; [|done].
  destruct err; [intros [= <- _ _]; by destruct c|].
  destruct (writePacket _ _ _) as [[c1 s1] e1] eqn:E. apply writePacket_core, ident_core in E.
  assert (ident c1 = ident c) as E1 by (rewrite E; by destruct c).
  destruct e1; [by intros [= <- _ _]|].
  destruct (write_loop _ _ _ _ _ _) as [[[c2 s2] r2]|] eqn:EL; [|done]. intros [= <- _ _].
  apply IH in EL. rewrite EL, <- E1. by destruct c1.
Qed.

Lemma user_step_ident conn c c' : user_step conn c c' -> ident c' = ident c.
Proof.
  intros H. destruct H as [evs n code c c' sent r HF H|turns data code c c' sent r H| | | | | | |].
  - revert H. unfold ReadExtended. destruct (_ || _); [|intros [= <- _ _]; by destruct c].
    destruct (Buffer.Read _ _ _) as [[b [d err]]|]; [|done].
    set (c2 := match err with None => _ | Some _ => _ end).
    assert (ident c2 = ident c) as E by (unfold c2; destruct err, (code =? 1), c; done).
    destruct (0 <? slen d); [|by intros [= <- _ _]]. unfold adjustWindow.
    destruct (sendMessage _ _ _ _) as [[c3 s3] e3] eqn:E3. apply sendMessage_core, ident_core in E3.
    intros [= <- _ _]. rewrite E3, <- E. by destruct c2.
  - revert H. unfold WriteExtended. destruct (sentEOF _); [intros [= <- _ _]; by destruct c|].
    destruct (write_loop _ _ _ _ _ _) as [[[c1 s1] [n1 e1]]|] eqn:E; [|done].
    apply write_loop_ident in E. assert (ident c1 = ident c) as E1 by (rewrite E; by destruct c).
    destruct e1; intros [= <- _ _]; [done|]. rewrite <- E1. by destruct c1.
  - unfold Accept. case_match; [done|]. rewrite sendMessage_ident. by destruct c.
  - unfold Reject. case_match; [done|]. rewrite sendMessage_ident. by destruct c.
  - unfold CloseWrite. case_match; [done|]. rewrite sendMessage_ident. by destruct c.
  - unfold Close. case_match; [done|]. case_match; [by destruct c|]. rewrite sendMessage_ident. by destruct c.
  - unfold ackRequest. case_match; [done|]. by rewrite sendMessage_ident.
  - unfold SendRequest. case_match; [done|]. destruct (sendMessage _ _ _ _) as [[c1 s] e] eqn:E.
    apply sendMessage_core, ident_core in E. by destruct e.
  - unfold await_reply. repeat case_match; try done; by destruct c.
Qed.

Lemma offer_safe {A} stop pick cap (x : A) l l' r s :
  offer stop pick false cap x l = (l', r) -> r <> Panic s.
Proof. unfold offer. repeat case_match; by intros [= <- <-]. Qed.

Lemma responseMessageReceived_ident c c' e : responseMessageReceived c = (c', e) -> ident c' = ident c.
Proof. unfold responseMessageReceived. repeat case_match; intros [= <- <-]; try done; by destruct c. Qed.

Lemma put_msg_safe stop pick m rem c c' sent rem' r :
  down c = false -> put_msg stop pick m rem c = (c', sent, rem', r) ->
  (forall s, r <> Panic s) /\ ident c' = ident c.
Proof.
  intros Hd. unfold put_msg. rewrite Hd. destruct (offer _ _ _ _ _ _) eqn:E. intros [= <- _ _ <-].
  split; [intros s; by eapply offer_safe|]. by destruct c.
Qed.

Ltac inv_fields :=
  repeat match goal with
  | H : fields_of _ _ |- _ => unfold fields_of in H; simpl in H
  | H : Forall2 _ (_ :: _) _ |- _ => inversion H; subst; clear H
  | H : Forall2 _ [] _ |- _ => inversion H; subst; clear H
  | H : has_kind _ ?v = true |- _ => destruct v; simpl in H; try discriminate H; clear H
  end.

Lemma handleMessage_safe halted pick t vs c c' sent removed r :
  down c = false -> fields_of t vs ->
  handleMessage halted pick (t, vs) c = (c', sent, removed, r) ->
  (forall s, r <> Panic s) /\ ident c' = ident c.
Proof.
  intros Hd Hf. unfold handleMessage.
  assert (forall c1 e, responseMessageReceived c = (c1, e) -> ident c1 = ident c /\ down c1 = false) as Hresp.
  { intros c1 e E%responseMessageReceived_ident. split; [done|]. unfold ident in E. congruence. }
  destruct (bool_decide_reflect (t = channelOpenFailureMsg)) as [->|_].
  { inv_fields. destruct (responseMessageReceived c) as [c1 [e|]]; destruct (Hresp _ _ eq_refl) as [<- Hd1];
      [by intros [= <- _ _ <-]|]. intros H. by eapply put_msg_safe. }
  destruct (bool_decide_reflect (t = channelOpenConfirmMsg)) as [->|_].
  { inv_fields. destruct (responseMessageReceived c) as [c1 [e|]]; destruct (Hresp _ _ eq_refl) as [<- Hd1];
      [by intros [= <- _ _ <-]|]. destruct (_ || _); [by intros [= <- _ _ <-]|]. intros H.
    apply put_msg_safe in H as [H1 H2]; [|by destruct c1]. split; [done|]. rewrite H2. by destruct c1. }
  destruct (bool_decide_reflect (t = windowAdjustMsg)) as [->|_].
  { inv_fields. destruct (Window.add _ _) as [w []]; intros [= <- _ _ <-]; split; try done; by destruct c. }
  destruct (bool_decide_reflect (t = channelRequestMsg)) as [->|_].
  { inv_fields. rewrite Hd. destruct (offer _ _ _ _ _ _) eqn:E. intros [= <- _ _ <-].
    split; [intros s'; by eapply offer_safe|by destruct c]. }
  intros H. by eapply put_msg_safe.
Qed.

Lemma handleData_ident packet c c' e : handleData packet c = (c', e) -> ident c' = ident c.
Proof.
  unfold handleData. repeat case_match; intros [= <- _]; try done; by destruct c.
Qed.

(** A packet for a channel that was not taken down: no panic; and if the packet
    takes the channel down, the channel is removed from the list. *)
Lemma handlePacket_safe conn halted pick packet c c' sent removed r :
  packet <> "" -> down c = false ->
  handlePacket conn halted pick packet c = (c', sent, removed, r) ->
  (forall s, r <> Panic s) /\ localId c' = localId c /\ (down c' = false \/ removed = [localId c]).
Proof.
  intros Hp Hd. unfold handlePacket.
  assert (ident (note [ROK] c) = ident c) as HI by (by destruct c).
  assert (forall c2, ident c2 = ident c -> localId c2 = localId c /\ down c2 = false) as Hid
    by (intros c2 E; unfold ident in E; split; congruence).
  assert (down (note [ROK] c) = false) as Hd' by (by apply Hid).
  revert HI Hd'. generalize (note [ROK] c). intros c0 HI Hd0.
  destruct (_ || _).
  { destruct (handleData packet c0) as [c1 e] eqn:E. apply handleData_ident in E. intros [= <- _ _ <-].
    destruct (Hid c1) as [? ?]; [congruence|]. split_and!; [done..|by left]. }
  destruct (first_byte packet =? 97).
  { destruct (sendMessage _ _ _ _) as [[c1 s1] e1] eqn:E. apply sendMessage_core, ident_core in E.
    rewrite HI in E. destruct (Hid _ E) as [Hl Hd1]. unfold close. rewrite Hd1. intros [= <- _ <- <-].
    split_and!; [done|by destruct c1|right; by destruct c1; simpl in *; subst]. }
  destruct (first_byte packet =? 96).
  { intros [= <- _ _ <-]. destruct (Hid _ HI). split_and!; [done|by destruct c0|left; by destruct c0]. }
  destruct (decode packet) as [[t vs]| | |] eqn:ED.
  - apply decode_fields in ED. intros H. apply handleMessage_safe in H as [H1 H2]; [|done..].
    destruct (Hid c') as [? ?]; [congruence|]. split_and!; [done..|by left].
  - intros [= <- _ _ <-]. destruct (Hid _ HI). split_and!; [done..|by left].
  - by apply decode_no_panic in ED.
  - by apply decode_not_blocked in ED.
Qed.

(** A deadline that has passed, or is less than 10 ns away, panics in the
    goroutine of the timer, though it is meant to unblock a read: the
    ticker's period is a tenth of the duration. *)
Theorem passed_deadline_panics t now x :
  t <> 0 -> t < now + 10 -> IdleTimer.halted x = false -> dur x <= 0 ->
  handle (setDeadline t now) x = Panic "non-positive interval for NewTicker".
Proof.
  intros Ht Hn Hh Hd. unfold setDeadline. destruct (Z.eqb_spec t 0); [done|].
  assert (exists d, (if t <=? now then SetOneshotIdleTimeout 1 else SetOneshotIdleTimeout (t - now))
    = SetOneshotIdleTimeout d /\ 0 < d < 10) as (d & -> & Hd1).
  { destruct (Z.leb_spec t now); [exists 1|exists (t - now)]; split; done || lia. }
  cbn. unfold in_loop. cbn. rewrite Hh. unfold set_ticket. cbn.
  destruct (Z.ltb_spec 0 (dur x)); [lia|]. destruct (Z.leb_spec d 0); [lia|].
  unfold factor. by rewrite Z.quot_small by lia.
Qed.

(** ** Concrete instances *)

Definition demo_conn (packet : string) : option string := None.
Definition demo_channel : channel :=
  set_remoteWin (Window.mkWindow 10 0 false)
    (set_remote 7 4 (set_maxIncomingPayload 100 (set_decided true (new_channel "session" true "")))).

Lemma demo_window_wf : Window.wf (remoteWin demo_channel).
Proof. unfold Window.wf, in_uint32. simpl. lia. Qed.

(** Ten bytes of window and four bytes a packet: two packets of four, one of
    one, in three turns. *)
Definition demo_turns (n : nat) : list turn := List.repeat (None, []) n.

Lemma demo_turns_ok n : Forall (fun t => t = (None, [])) (demo_turns n).
Proof. induction n as [|n IH]; [by apply Forall_nil|]. by apply Forall_cons. Qed.

Lemma write_extended_spec_witness :
  exists chunks, [data_packet 7 0 "abcd"; data_packet 7 0 "efgh"; data_packet 7 0 "i"]
    = map (data_packet (remoteId demo_channel) 0) chunks /\ 9 = slen (Buffer.concat chunks).
Proof.
  destruct (write_extended_spec demo_conn (demo_turns 3) "abcdefghi" 0 demo_channel
    (match WriteExtended demo_conn (demo_turns 3) "abcdefghi" 0 demo_channel with
     | Some (c, _, _) => c | None => demo_channel end)
    [data_packet 7 0 "abcd"; data_packet 7 0 "efgh"; data_packet 7 0 "i"] 9 None)
    as (chunks & H1 & _ & H2 & _).
  - apply Forall_cons. split; [apply Forall_nil; done|]. apply Forall_cons. split; [apply Forall_nil; done|].
    apply Forall_cons. split; [apply Forall_nil; done|]. apply Forall_nil. done.
  - apply demo_window_wf.
  - split; vm_compute; reflexivity.
  - vm_compute. reflexivity.
  - vm_compute. reflexivity.
  - exists chunks. split; assumption.
Defined.

Lemma write_completes_witness :
  exists c' sent, WriteExtended demo_conn (demo_turns 9) "abcdefghi" 0 demo_channel = Some (c', sent, (9, None)).
Proof.
  apply (write_completes demo_conn (demo_turns 9) "abcdefghi" 0 demo_channel); try reflexivity.
  - apply demo_turns_ok.
  - apply demo_window_wf.
  - vm_compute. discriminate.
  - split; vm_compute; reflexivity.
Defined.

Fixpoint zeros (n : nat) : string := match n with O => "" | S n => String "0" (zeros n) end.
Lemma slen_zeros z : 0 <= z -> slen (zeros (Z.to_nat z)) = z.
Proof.
  intros H. unfold slen. assert (forall n, String.length (zeros n) = n) as ->; [|lia].
  induction n as [|n IH]; simpl; [done|]. by rewrite IH.
Qed.

Lemma write_4GiB_never_ends_witness :
  WriteExtended demo_conn (demo_turns 1000) (zeros (Z.to_nat (2 ^ 32))) 0 demo_channel = None.
Proof.
  apply (write_4GiB_never_ends demo_conn (demo_turns 1000) (zeros (Z.to_nat (2 ^ 32))) 0 demo_channel).
  - apply slen_zeros. lia.
  - apply demo_turns_ok.
  - reflexivity.
  - apply demo_window_wf.
  - reflexivity.
  - reflexivity.
  - reflexivity.
  - vm_compute. discriminate.
Defined.

Lemma data_packet_delivered_witness :
  Buffer.contents (pending (handleData (data_packet 7 0 "abcd") demo_channel).1) = "abcd" /\
  Buffer.contents (extPending (handleData (data_packet 7 1 "oops") demo_channel).1) = "oops".
Proof.
  split.
  - rewrite (data_packet_delivered 7 0 "abcd" demo_channel); [reflexivity|..];
      try (split; vm_compute; (reflexivity || discriminate)); vm_compute; (reflexivity || discriminate).
  - rewrite (data_packet_delivered 7 1 "oops" demo_channel); [reflexivity|..];
      try (split; vm_compute; (reflexivity || discriminate)); vm_compute; (reflexivity || discriminate).
Defined.

Definition demo_received : channel :=
  (handlePacket demo_conn false false (data_packet 0 0 "abcd") (Accept demo_conn (new_channel "s" true "")).1.1).1.1.1.

Lemma window_never_exceeds_initial_witness :
  rtc (chan_step demo_conn) (set_localId 0 (new_channel "s" true "")) demo_received /\
  0 <= myWindow demo_received <= channelWindowSize.
Proof.
  assert (rtc (chan_step demo_conn) (set_localId 0 (new_channel "s" true "")) demo_received) as H.
  { eapply rtc_l; [apply st_user, us_accept|]. eapply rtc_l; [|apply rtc_refl].
    eapply (st_packet demo_conn false false (data_packet 0 0 "abcd")); [vm_compute; reflexivity|].
    vm_compute. reflexivity. }
  split; [exact H|]. apply (window_never_exceeds_initial demo_conn "s" true "" 0 demo_received H).
Defined.

Lemma dropped_data_shrinks_window_witness :
  budget (handleData (data_packet 7 2 "lost") demo_channel).1 <= budget demo_channel - slen "lost".
Proof.
  apply (dropped_data_shrinks_window demo_conn 7 2 "lost" demo_channel
    (handleData (data_packet 7 2 "lost") demo_channel).1);
    try (split; vm_compute; (reflexivity || discriminate)); try (vm_compute; (reflexivity || discriminate)).
Defined.

Lemma passed_deadline_panics_witness :
  exists t, NewIdleTimer None 0 = Ok t /\
  handle (setDeadline 100 200) t = Panic "non-positive interval for NewTicker".
Proof.
  eexists. split; [reflexivity|]. apply passed_deadline_panics; [discriminate|reflexivity|reflexivity|].
  vm_compute. discriminate.
Defined.
