(* ===== verification/Mux.v ===== *)
(** The multiplexing of channels over one transport
    (xendor/github.com/glycerine/xcryptossh/mux.go): the dispatch of packets,
    global requests, the opening of channels, and the loop that reads packets.
    Channels are shared by pointer, so they live in a heap. *)
From S2P Require Import Prelude.
From S2P Require Import GoStrings.
From S2P Require Import Wire.
From S2P Require Import Flow.
From S2P Require Import Channel.

(** ** State *)

(** A pointer to a channel is its index in [heap]. [muxHalted] tells that the
    halter was told to stop or the context is done, [ended] that the loop has
    closed the Go channels; [err] is what [Wait] returns. *)
Record mux := mkMux {
  chanList : ChanList.chanList nat;
  heap : list channel;
  incomingChannels : list nat;
  globalResponses : list message;
  globalRequests : list Request;
  muxHalted : bool;
  ended : bool;
  connClosed : bool;
  err : option string;
}.

Definition set_channels (l : ChanList.chanList nat) (h : list channel) (m : mux) : mux :=
  mkMux l h (incomingChannels m) (globalResponses m) (globalRequests m) (muxHalted m) (ended m)
    (connClosed m) (err m).
Definition set_incomingChannels (l : list nat) (m : mux) : mux :=
  mkMux (chanList m) (heap m) l (globalResponses m) (globalRequests m) (muxHalted m) (ended m)
    (connClosed m) (err m).
Definition set_globalResponses (l : list message) (m : mux) : mux :=
  mkMux (chanList m) (heap m) (incomingChannels m) l (globalRequests m) (muxHalted m) (ended m)
    (connClosed m) (err m).
Definition set_globalRequests (l : list Request) (m : mux) : mux :=
  mkMux (chanList m) (heap m) (incomingChannels m) (globalResponses m) l (muxHalted m) (ended m)
    (connClosed m) (err m).
Definition set_finished (e : option string) (m : mux) : mux :=
  mkMux (chanList m) (heap m) (incomingChannels m) (globalResponses m) (globalRequests m) (muxHalted m)
    true true e.
Definition put_channel (p : nat) (c : channel) (m : mux) : mux :=
  set_channels (chanList m) (<[p := c]> (heap m)) m.

Definition newMux (halted : bool) : mux := mkMux (ChanList.mkList [] 0) [] [] [] [] halted false false None.

(** [newChannel]: the channel is allocated and gets its id. *)
Definition newChannel (chanType : string) (inbound : bool) (extraData : string) (m : mux) : mux * nat :=
  let p := List.length (heap m) in
  let '(l, id) := ChanList.add p (chanList m) in
  (set_channels l (heap m ++ [set_localId id (new_channel chanType inbound extraData)]) m, p).

Section Transport.
Context (conn : string -> option string).

(** [sendMessage]: what the transport accepted, and its error. *)
Definition mux_sendMessage (t : msg_type) (vs : list value) : list string * error_ :=
  let p := Marshal t vs in
  match conn p with None => ([p], None) | Some e => ([], Some e) end.

Definition mux_ackRequest (ok : bool) (data : string) : list string * error_ :=
  mux_sendMessage (if ok then globalRequestSuccessMsg else globalRequestFailureMsg) [VRest data].

(** [Reply] to a request of the channel at [ch], or of the mux. *)
Definition Reply (ch : option nat) (ok : bool) (payload : string) (r : Request) (m : mux)
  : mux * list string * error_ :=
  if negb (WantReply r) then (m, [], None)
  else match ch with
       | None => let '(sent, e) := mux_ackRequest ok payload in (m, sent, e)
       | Some p =>
           match heap m !! p with
           | Some c => let '(c, sent, e) := ackRequest conn ok c in (put_channel p c m, sent, e)
           | None => (m, [], None)
           end
       end.

(** [SendRequest] up to its wait for the answer: whether it waits. *)
Definition mux_SendRequest (name : string) (wantReply : bool) (payload : string)
  : list string * (bool * error_) :=
  match mux_sendMessage globalRequestMsg [VString name; VBool wantReply; VRest payload] with
  | (sent, Some e) => (sent, (false, Some e))
  | (sent, None) => (sent, (wantReply, None))
  end.

(** Its wait; the answer, its data, and the error. *)
Definition mux_await_reply (pick : bool) (m : mux) : mux * outcome (bool * string * error_) :=
  if muxHalted m && pick then (m, Ok (false, "", Some EOF))
  else match globalResponses m with
       | (t, vs) :: rest =>
           let m := set_globalResponses rest m in
           match vs with
           | [VRest data] =>
               if bool_decide (t = globalRequestFailureMsg) then (m, Ok (false, data, None))
               else if bool_decide (t = globalRequestSuccessMsg) then (m, Ok (true, data, None))
               else (m, Ok (false, "", Some "ssh: unexpected response to request"))
           | _ => (m, Ok (false, "", Some "ssh: unexpected response to request"))
           end
       | [] => if ended m || muxHalted m then (m, Ok (false, "", Some EOF)) else (m, Blocked)
       end.

(** ** Opening a channel *)

(** [openChannel] up to its wait. *)
Definition openChannel (chanType extra : string) (m : mux) : mux * list string * (nat * error_) :=
  let '(m, p) := newChannel chanType false extra m in
  match heap m !! p with
  | Some c =>
      let c := set_maxIncomingPayload channelMaxPacket c in
      let '(sent, e) := mux_sendMessage channelOpenMsg
        [VString chanType; VUint32 (localId c); VUint32 (myWindow c); VUint32 (maxIncomingPayload c);
         VRest extra] in
      let c := match e with Some _ => note [RHalt; WHalt] c | None => c end in
      (put_channel p c m, sent, (p, e))
  | None => (m, [], (p, None))
  end.

(** Its wait for the peer's answer. *)
Definition await_open (pick : bool) (p : nat) (m : mux) : mux * outcome error_ :=
  if muxHalted m && pick then (m, Ok (Some EOF))
  else match heap m !! p with
       | None => (m, Panic "invalid memory address or nil pointer dereference")
       | Some c =>
           match msg c with
           | (t, vs) :: rest =>
               let c := set_msg rest c in
               let refused e := (put_channel p (note [RHalt; WHalt] c) m, Ok (Some e)) in
               if bool_decide (t = channelOpenConfirmMsg) then (put_channel p c m, Ok None)
               else if bool_decide (t = channelOpenFailureMsg) then
                 match vs with
                 | [_; VUint32 reason; VString message; _] =>
                     refused ("ssh: rejected: " +:+ RejectionReason_String reason +:+ " (" +:+ message +:+ ")")
                 | _ => refused "unreachable"
                 end
               else refused ("ssh: unexpected packet in response to channel open: *ssh." +:+ t_name t)
           | [] =>
               if down c then
                 (put_channel p (note [RHalt; WHalt] c) m,
                  Ok (Some "ssh: unexpected packet in response to channel open: <nil>"))
               else if muxHalted m then (m, Ok (Some EOF))
               else (m, Blocked)
           end
       end.

(** ** Packets *)

Definition handleGlobalPacket (pick : bool) (packet : string) (m : mux) : mux * list string * outcome error_ :=
  match decode packet with
  | Err e => (m, [], Ok (Some e))
  | Panic s => (m, [], Panic s)
  | Blocked => (m, [], Blocked)
  | Ok (t, vs) =>
      if bool_decide (t = globalRequestMsg) then
        match vs with
        | [VString ty; VBool wantReply; VRest data] =>
            let '(l, r) := offer (muxHalted m) pick (ended m) chanSize (mkRequest ty wantReply data)
                             (globalRequests m) in
            (set_globalRequests l m, [], r)
        | _ => (m, [], Panic "unreachable")
        end
      else if bool_decide (t = globalRequestSuccessMsg) || bool_decide (t = globalRequestFailureMsg) then
        let '(l, r) := offer (muxHalted m) pick (ended m) 1 (t, vs) (globalResponses m) in
        (set_globalResponses l m, [], r)
      else (m, [], Panic "not a global message")
  end.

Definition handleChannelOpen (pick : bool) (packet : string) (m : mux) : mux * list string * outcome error_ :=
  match Unmarshal packet channelOpenMsg with
  | Err e => (m, [], Ok (Some e))
  | Panic s => (m, [], Panic s)
  | Blocked => (m, [], Blocked)
  | Ok [VString chanType; VUint32 peersId; VUint32 peersWindow; VUint32 maxPacket; VRest data] =>
      if (maxPacket <? minPacketLength) || (2 ^ 31 <? maxPacket) then
        let '(sent, e) := mux_sendMessage channelOpenFailureMsg
          [VUint32 peersId; VUint32 2; VString "invalid request"; VString "en_US.UTF-8"] in
        (m, sent, Ok e)
      else
        let '(m, p) := newChannel chanType true data m in
        match heap m !! p with
        | Some c =>
            let c := set_remote peersId maxPacket c in
            let c := set_remoteWin (Window.add peersWindow (remoteWin c)).1 c in
            let m := put_channel p c m in
            let '(l, r) := offer (muxHalted m) pick (ended m) chanSize p (incomingChannels m) in
            (set_incomingChannels l m, [], r)
        | None => (m, [], Panic "unreachable")
        end
  | Ok _ => (m, [], Panic "unreachable")
  end.

(** [onePacket], of a packet that was read. *)
Definition onePacket (pick : bool) (packet : string) (m : mux) : mux * list string * outcome error_ :=
  match packet with
  | "" => (m, [], Panic "index out of range")
  | String b rest =>
      let tag := val b in
      if tag =? 90 then handleChannelOpen pick packet m
      else if (tag =? 80) || (tag =? 81) || (tag =? 82) then handleGlobalPacket pick packet m
      else if (String.length packet <? 5)%nat then (m, [], Ok (Some (parseError tag)))
      else
        let id := be (stake 4 rest) in
        match ChanList.getChan id (chanList m) with
        | None => (m, [], Ok (Some ("ssh: invalid channel " +:+ itoa id)))
        | Some p =>
            match heap m !! p with
            | None => (m, [], Panic "invalid memory address or nil pointer dereference")
            | Some c =>
                let '(c, sent, removed, r) := handlePacket conn (muxHalted m) pick packet c in
                let l := fold_left (fun l id => ChanList.remove id l) removed (chanList m) in
                (set_channels l (<[p := c]> (heap m)) m, sent, r)
            end
        end
  end.

(** ** The loop *)

(** What [readPacket] gives: a packet and the [select] choice made while it is
    handled, or an error, with whether that is a timeout. *)
Inductive read := Packet (packet : string) (pick : bool) | ReadErr (e : string) (timeout : bool).

(** Close every channel that is left. *)
Fixpoint close_all (l : list nat) (h : list channel) : outcome (list channel) :=
  match l with
  | [] => Ok h
  | p :: l =>
      match h !! p with
      | None => Panic "invalid memory address or nil pointer dereference"
      | Some c => let? c := close c in close_all l (<[p := c]> h)
      end
  end.

(** The end of [loop]. *)
Definition finish (e : string) (m : mux) : outcome mux :=
  let '(l, dropped) := ChanList.dropAll (chanList m) in
  let? h := close_all dropped (heap m) in
  if ended m then Panic "close of closed channel"
  else Ok (set_finished (Some e) (set_channels l h m)).

(** [loop]; it still runs, as [false] says, when it needs a further read. *)
Fixpoint loop (reads : list read) (m : mux) : outcome (mux * list string * bool) :=
  match reads with
  | [] => Ok (m, [], false)
  | ReadErr e timeout :: reads =>
      if timeout then loop reads m
      else let? m := finish e m in Ok (m, [], true)
  | Packet packet pick :: reads =>
      let '(m, sent, r) := onePacket pick packet m in
      match r with
      | Panic s => Panic s
      | Err e => Err e
      | Blocked => Blocked
      | Ok (Some e) => let? m := finish e m in Ok (m, sent, true)
      | Ok None => let? '(m, sent', over) := loop reads m in Ok (m, sent ++ sent', over)
      end
  end.
End Transport.

(** ** The invariant of the mux *)

(** Every channel in the list is allocated, was not taken down, and has the id
    of its slot. *)
Record mux_ok (m : mux) : Prop := mkOk {
  ok_offset : in_uint32 (ChanList.offset (chanList m));
  ok_open : ended m = false;
  ok_slots : forall i p, ChanList.chans (chanList m) !! i = Some (Some p) ->
    exists c, heap m !! p = Some c /\ down c = false /\
      localId c = to_uint32 (Z.of_nat i + ChanList.offset (chanList m));
}.

(** There is room for another id. *)
Definition size (m : mux) : Z := Z.of_nat (List.length (ChanList.chans (chanList m))).

Lemma newMux_ok h : mux_ok (newMux h).
Proof. constructor; [done|done|]. intros i p H. by destruct i. Qed.

(** Two slots never hold the same channel. *)
Lemma slots_distinct m i j p :
  mux_ok m -> size m < 2 ^ 32 -> ChanList.chans (chanList m) !! i = Some (Some p) ->
  ChanList.chans (chanList m) !! j = Some (Some p) -> i = j.
Proof.
  intros [Ho _ Hs] Hl Hi Hj. unfold size in Hl.
  pose proof (lookup_lt_Some _ _ _ Hi). pose proof (lookup_lt_Some _ _ _ Hj).
  destruct (Hs _ _ Hi) as (c & E1 & _ & L1). destruct (Hs _ _ Hj) as (c' & E2 & _ & L2).
  assert (c' = c) as -> by congruence.
  rewrite <- (ChanList.slot_of_id i (chanList m)), <- (ChanList.slot_of_id j (chanList m)) by (done || lia). congruence.
Qed.

(** A channel keeps its identity: the invariant stays. *)
Lemma put_channel_ok p c c' m :
  mux_ok m -> heap m !! p = Some c -> ident c' = ident c -> mux_ok (put_channel p c' m).
Proof.
  intros [Ho He Hs] Hp Hid. unfold ident in Hid. constructor; [done|done|]. simpl. intros i q Hi.
  destruct (Hs i q Hi) as (d & H1 & H2 & H3).
  destruct (decide (q = p)) as [->|Hq].
  - exists c'. rewrite list_lookup_insert_eq by (by eapply lookup_lt_Some).
    assert (d = c) as -> by congruence. split_and!; congruence.
  - exists d. by rewrite list_lookup_insert_ne.
Qed.

Lemma newChannel_ok ct inb ex m m' p :
  mux_ok m -> newChannel ct inb ex m = (m', p) ->
  mux_ok m' /\ p = List.length (heap m) /\ size m <= size m' <= size m + 1 /\
  incomingChannels m' = incomingChannels m /\ muxHalted m' = muxHalted m /\ ended m' = ended m /\
  exists id, heap m' = heap m ++ [set_localId id (new_channel ct inb ex)] /\ in_uint32 id /\
    (size m' < 2 ^ 32 -> ChanList.getChan id (chanList m') = Some p).
Proof.
  intros [Ho He Hs]. unfold newChannel. destruct (ChanList.add _ _) as [l id] eqn:E. intros [= <- <-].
  apply ChanList.add_slots in E as (i & -> & Hof & Hi & Hfree & Hother & Hlen). unfold size. simpl.
  split_and!; try done; try lia.
  - constructor; simpl; [by rewrite Hof|done|]. intros j q Hj.
    destruct (decide (j = i)) as [->|Hne].
    + rewrite Hi in Hj. injection Hj as <-. eexists. rewrite list_lookup_middle by done. by rewrite Hof.
    + rewrite Hother in Hj by done. destruct (Hs j q Hj) as (c & H1 & H2 & H3). exists c.
      rewrite Hof. split_and!; [by apply lookup_app_l_Some|done|done].
  - eexists. split; [done|]. split; [apply to_uint32_range|]. intros Hl.
    pose proof (lookup_lt_Some _ _ _ Hi). unfold ChanList.getChan. rewrite Hof.
    rewrite ChanList.to_uint32_offset by (done || lia). rewrite to_uint32_id by (unfold in_uint32; lia).
    destruct (Z.ltb_spec (Z.of_nat i) (Z.of_nat (List.length (ChanList.chans l)))); [|lia].
    by rewrite Nat2Z.id, Hi.
Qed.

(** ** No packet panics *)

Lemma handleGlobalPacket_safe pick packet m m' sent r :
  (val (match packet with "" => "000"%char | String c _ => c end) =? 80) ||
  (val (match packet with "" => "000"%char | String c _ => c end) =? 81) ||
  (val (match packet with "" => "000"%char | String c _ => c end) =? 82) = true ->
  packet <> "" -> mux_ok m -> handleGlobalPacket pick packet m = (m', sent, r) ->
  (forall s, r <> Panic s) /\ mux_ok m' /\ size m' = size m /\ heap m' = heap m.
Proof.
  intros Htag Hp [Ho He Hs]. unfold handleGlobalPacket.
  destruct (decode packet) as [[t vs]| | |] eqn:ED; [|by intros [= <- _ <-]| |].
  - pose proof (decode_type _ _ _ ED) as (c & rest & -> & Ht). apply decode_fields in ED. simpl in Htag.
    assert (t = globalRequestMsg \/ t = globalRequestSuccessMsg \/ t = globalRequestFailureMsg) as Hty.
    { apply orb_true_iff in Htag as [[E|E]%orb_true_iff|E]; z_prop; rewrite E in Ht; injection Ht as <-; auto. }
    destruct Hty as [->|Hty].
    + cbn [bool_decide]. rewrite bool_decide_true by done. inv_fields.
      rewrite He. destruct (offer _ _ _ _ _ _) eqn:E. intros [= <- _ <-].
      split_and!; try done. intros s'. by eapply offer_safe.
    + rewrite bool_decide_false by (by destruct Hty as [-> | ->]).
      rewrite (proj2 (orb_true_iff (bool_decide (t = globalRequestSuccessMsg)) _))
        by (rewrite !bool_decide_eq_true; done).
      rewrite He. destruct (offer _ _ _ _ _ _) eqn:E. intros [= <- _ <-].
      split_and!; try done. intros s'. by eapply offer_safe.
  - by apply decode_no_panic in ED.
  - by apply decode_not_blocked in ED.
Qed.

Lemma handleChannelOpen_safe conn pick packet m m' sent r :
  mux_ok m -> handleChannelOpen conn pick packet m = (m', sent, r) ->
  (forall s, r <> Panic s) /\ mux_ok m' /\ size m <= size m' <= size m + 1 /\
  exists new, heap m' = heap m ++ new.
Proof.
  intros Hok. unfold handleChannelOpen. pose proof (Unmarshal_fields packet channelOpenMsg ltac:(done)) as HU.
  destruct (Unmarshal packet channelOpenMsg) as [vs|e|s|]; [|intros [= <- _ <-]|done..].
  2:{ split_and!; try done; try lia. exists []. by rewrite app_nil_r. }
  simpl in HU. inv_fields. destruct (_ || _).
  { destruct (mux_sendMessage _ _ _). intros [= <- _ <-]. split_and!; try done; try lia.
    exists []. by rewrite app_nil_r. }
  destruct (newChannel _ _ _ m) as [m1 p] eqn:EN.
  apply newChannel_ok in EN as (Hok1 & -> & Hsz & Hinc & Hh & He & id & Hheap & _); [|done].
  rewrite Hheap, list_lookup_middle by done. set (c := set_remoteWin _ _).
  destruct (offer _ _ _ _ _ _) as [l r1] eqn:EO. intros [= <- _ <-].
  assert (mux_ok (put_channel (List.length (heap m)) c m1)) as Hok2.
  { eapply put_channel_ok; [done|rewrite Hheap; by apply list_lookup_middle|done]. }
  assert (ended (put_channel (List.length (heap m)) c m1) = false) as He2 by apply Hok2. rewrite He2 in EO.
  change (size (set_incomingChannels l (put_channel (List.length (heap m)) c m1))) with (size m1).
  split_and!; try lia.
  - intros s'. by eapply offer_safe.
  - destruct Hok2. by constructor.
  - simpl. rewrite Hheap. exists [c]. rewrite insert_app_r_alt by lia. by rewrite Nat.sub_diag.
Qed.

Lemma fold_remove_slots ids (l : ChanList.chanList nat) :
  let l' := fold_left (fun l id => ChanList.remove id l) ids l in
  ChanList.offset l' = ChanList.offset l /\
  List.length (ChanList.chans l') = List.length (ChanList.chans l) /\
  (forall j p, ChanList.chans l' !! j = Some (Some p) -> ChanList.chans l !! j = Some (Some p)).
Proof.
  revert l. induction ids as [|id ids IH]; intros l; [done|]. simpl. destruct (IH (ChanList.remove id l)) as (H1 & H2 & H3).
  destruct (ChanList.remove_slots id l) as (R1 & R2 & R3 & _). split_and!; [congruence|congruence|]. intros j p H. by apply R3, H3.
Qed.

(** The channel that a packet is for. *)
Definition packet_id (packet : string) : Z := be (stake 4 (sdrop 1 packet)).

Lemma onePacket_safe conn pick packet m m' sent r :
  packet <> "" -> mux_ok m -> size m < 2 ^ 32 -> onePacket conn pick packet m = (m', sent, r) ->
  (forall s, r <> Panic s) /\ mux_ok m' /\ size m <= size m' <= size m + 1.
Proof.
  intros Hp Hok Hsz. unfold onePacket. destruct packet as [|b rest]; [done|]. set (packet := String b rest) in *.
  destruct (val b =? 90); [intros H; apply handleChannelOpen_safe in H; tauto|].
  destruct (_ || _) eqn:E; [intros H; apply handleGlobalPacket_safe in H; [|done..]; destruct H as (? & ? & -> & _); split_and!; done || lia|].
  destruct (_ <? _)%nat; [intros [= <- _ <-]; split_and!; done || lia|].
  destruct (ChanList.getChan _ _) as [p|] eqn:EG; [|intros [= <- _ <-]; split_and!; done || lia].
  apply ChanList.getChan_slot in EG. destruct (ok_slots m Hok _ _ EG) as (c & -> & Hd & Hl).
  destruct (handlePacket _ _ _ _ _) as [[[c' s1] removed] r1] eqn:EH. intros [= <- _ <-].
  apply handlePacket_safe in EH as (H1 & H2 & H3); [|done..].
  destruct (fold_remove_slots removed (chanList m)) as (F1 & F2 & F3).
  split_and!; [done| |unfold size; simpl; lia..]. constructor; simpl; [rewrite F1; apply Hok|apply Hok|].
  rewrite F1. intros j q Hj. apply F3 in Hj as Hj'. destruct (ok_slots m Hok _ _ Hj') as (d & D1 & D2 & D3).
  destruct (decide (q = p)) as [->|Hq]; [|exists d; by rewrite list_lookup_insert_ne].
  exists c'. rewrite list_lookup_insert_eq by (by eapply lookup_lt_Some).
  assert (j = ChanList.slot (packet_id packet) (chanList m)) as -> by (by eapply slots_distinct).
  split_and!; [done| |by rewrite H2, Hl]. destruct H3 as [H3|H3]; [done|]. exfalso. rewrite H3 in Hj. simpl in Hj.
  destruct (ChanList.remove_slots (localId c) (chanList m)) as (_ & _ & _ & R). unfold size in Hsz. specialize (R Hsz p).
  pose proof (lookup_lt_Some _ _ _ EG). change (be (stake 4 rest)) with (packet_id packet) in *.
  assert (ChanList.slot (localId c) (chanList m) = ChanList.slot (packet_id packet) (chanList m)) as Es
    by (rewrite Hl; apply ChanList.slot_of_id; [apply Hok|lia]).
  by rewrite Es in R.
Qed.

(** ** The end of the loop *)

Lemma close_all_ok l h :
  NoDup l -> (forall p, p ∈ l -> exists c, h !! p = Some c /\ down c = false) -> exists h', close_all l h = Ok h'.
Proof.
  intros Hn. revert h. induction Hn as [|p l Hp Hn IH]; intros h Hl; [by exists h|]. simpl.
  destruct (Hl p) as (c & -> & Hd); [by left|]. unfold close. rewrite Hd. simpl. apply IH.
  intros q Hq. destruct (Hl q) as (d & H1 & H2); [by right|]. exists d.
  by rewrite list_lookup_insert_ne by congruence.
Qed.

Lemma NoDup_slots (l : list (option nat)) :
  (forall i j p, l !! i = Some (Some p) -> l !! j = Some (Some p) -> i = j) -> NoDup (omap id l).
Proof.
  induction l as [|[p|] l IH]; intros H; simpl; [by apply NoDup_nil_2| |].
  - apply NoDup_cons_2.
    + intros (x & Hx & Hp)%list_elem_of_omap. simpl in Hp. subst x.
      apply list_elem_of_lookup in Hx as [j Hj]. by pose proof (H 0%nat (S j) p eq_refl Hj).
    + apply IH. intros i j q Hi Hj. by pose proof (H (S i) (S j) q Hi Hj) as [= ->].
  - apply IH. intros i j q Hi Hj. by pose proof (H (S i) (S j) q Hi Hj) as [= ->].
Qed.

Lemma finish_ok e m : mux_ok m -> size m < 2 ^ 32 -> exists m', finish e m = Ok m'.
Proof.
  intros Hok Hsz. unfold finish, ChanList.dropAll.
  destruct (close_all_ok (omap id (ChanList.chans (chanList m))) (heap m)) as [h ->].
  - apply NoDup_slots. intros i j p. by apply slots_distinct.
  - intros p (x & Hx & Hp)%list_elem_of_omap. simpl in Hp. subst x. apply list_elem_of_lookup in Hx as [i Hi].
    destruct (ok_slots m Hok _ _ Hi) as (c & H1 & H2 & _). by exists c.
  - simpl. rewrite (ok_open m Hok). by eexists.
Qed.

(** ** Every run of a mux *)

(** A packet is handled, a channel is opened or a method of a channel called, a
    Go channel is received from, the halter is told to stop; there are never as
    many channels as ids. *)
Inductive mux_step (conn : string -> option string) : mux -> mux -> Prop :=
| ms_packet packet pick m m' sent :
    packet <> "" -> size m + 1 < 2 ^ 32 ->
    onePacket conn pick packet m = (m', sent, Ok None) -> mux_step conn m m'
| ms_open chanType extra m :
    size m + 1 < 2 ^ 32 -> mux_step conn m (openChannel conn chanType extra m).1.1
| ms_await pick p m : mux_step conn m (await_open pick p m).1
| ms_user p c c' m : heap m !! p = Some c -> user_step conn c c' -> mux_step conn m (put_channel p c' m)
| ms_reply pick m : mux_step conn m (mux_await_reply pick m).1
| ms_take_channels l m : mux_step conn m (set_incomingChannels l m)
| ms_take_requests l m : mux_step conn m (set_globalRequests l m)
| ms_halt m : mux_step conn m
    (mkMux (chanList m) (heap m) (incomingChannels m) (globalResponses m) (globalRequests m) true (ended m)
       (connClosed m) (err m)).

Lemma openChannel_ok conn ct ex m :
  mux_ok m -> mux_ok (openChannel conn ct ex m).1.1 /\
  size m <= size (openChannel conn ct ex m).1.1 <= size m + 1.
Proof.
  intros Hok. unfold openChannel. destruct (newChannel ct false ex m) as [m1 p] eqn:EN.
  apply newChannel_ok in EN as (Hok1 & -> & Hsz & _ & _ & _ & id & Hheap & _); [|done].
  assert (heap m1 !! List.length (heap m) = Some (set_localId id (new_channel ct false ex))) as Hp
    by (rewrite Hheap; by apply list_lookup_middle). rewrite Hp.
  destruct (mux_sendMessage _ _ _) as [sent e]. simpl. split; [|done].
  eapply put_channel_ok; [done|exact Hp|]. by destruct e.
Qed.

Lemma await_open_ok pick p m : mux_ok m -> mux_ok (await_open pick p m).1 /\ size (await_open pick p m).1 = size m.
Proof.
  intros Hok. unfold await_open. destruct (_ && _); [done|]. destruct (heap m !! p) as [c|] eqn:Hp; [|done].
  repeat case_match; simpl; try done; (split; [|done]); (eapply put_channel_ok; [done|exact Hp|by destruct c]).
Qed.

Definition mux_inv (m : mux) : Prop := mux_ok m /\ size m < 2 ^ 32.

Lemma mux_step_inv conn m m' : mux_inv m -> mux_step conn m m' -> mux_inv m'.
Proof.
  intros [Hok Hsz] H.
  destruct H as [packet pick m m' sent Hp Hl H|ct ex m Hl|pick p m|p c c' m Hp Hu|pick m|l m|l m|m].
  - apply onePacket_safe in H as (_ & H1 & H2); [|done..]. split; [done|lia].
  - destruct (openChannel_ok conn ct ex m) as [H1 H2]; [done|]. split; [done|lia].
  - destruct (await_open_ok pick p m) as [H1 H2]; [done|]. split; [done|lia].
  - split; [|done]. eapply put_channel_ok; [done..|]. by eapply user_step_ident.
  - unfold mux_await_reply. repeat case_match; simplify_eq/=; (split; [by destruct Hok|done]).
  - by destruct Hok.
  - by destruct Hok.
  - by destruct Hok.
Qed.

(** C4: No packet can crash the process: in every state a mux can reach, through
    any packets and any calls of its users, handling any further packet
    neither panics (no send on or close of a closed Go channel, no nil
    channel, no index out of range, no impossible message) nor does the end of
    the loop, which closes every channel that is left exactly once. *)
Theorem no_packet_panics conn halted m pick packet e s :
  rtc (mux_step conn) (newMux halted) m -> packet <> "" ->
  (onePacket conn pick packet m).2 <> Panic s /\ exists m', finish e m = Ok m'.
Proof.
  intros H Hp. assert (mux_inv m) as [Hok Hsz].
  { apply (rtc_invariant (mux_step conn) mux_inv _ _ (fun a b => mux_step_inv conn a b) H).
    split; [apply newMux_ok|done]. }
  split; [|by apply finish_ok].
  destruct (onePacket conn pick packet m) as [[m' sent] r] eqn:E.
  apply onePacket_safe in E as [H1 _]; [|done..]. apply H1.
Qed.

(** A packet concerns one channel only: every other channel, whatever its
    state, is left exactly as it is. *)
Theorem packet_concerns_one_channel conn pick packet m m' sent r q c :
  mux_ok m -> size m < 2 ^ 32 -> packet <> "" -> onePacket conn pick packet m = (m', sent, r) ->
  heap m !! q = Some c -> ChanList.getChan (packet_id packet) (chanList m) <> Some q ->
  heap m' !! q = Some c.
Proof.
  intros Hok Hsz Hp. unfold onePacket. destruct packet as [|b rest]; [done|]. set (packet := String b rest) in *.
  destruct (val b =? 90).
  { intros H Hq _. apply handleChannelOpen_safe in H as (_ & _ & _ & new & ->); [|done]. by apply lookup_app_l_Some. }
  destruct (_ || _) eqn:E.
  { intros H Hq _. apply handleGlobalPacket_safe in H as (_ & _ & _ & ->); done. }
  destruct (_ <? _)%nat; [by intros [= <- _ _]|]. change (be (stake 4 rest)) with (packet_id packet).
  destruct (ChanList.getChan _ _) as [p|]; [|by intros [= <- _ _]].
  destruct (heap m !! p) as [cp|]; [|by intros [= <- _ _]].
  destruct (handlePacket _ _ _ _ _) as [[[c' s1] removed] r1]. intros [= <- _ _] Hq Hne. simpl.
  rewrite list_lookup_insert_ne; [done|]. congruence.
Qed.

(** ** Concrete instances *)

(** A mux whose peer opened a channel that was accepted. *)
Definition demo_open : string :=
  Marshal channelOpenMsg [VString "session"; VUint32 3; VUint32 64; VUint32 100; VRest ""].
Definition demo_mux : mux := (onePacket demo_conn false demo_open (newMux false)).1.1.

Lemma demo_mux_reached : rtc (mux_step demo_conn) (newMux false) demo_mux.
Proof.
  eapply rtc_l; [|apply rtc_refl]. apply (ms_packet demo_conn demo_open false (newMux false) demo_mux []).
  - discriminate.
  - reflexivity.
  - vm_compute. reflexivity.
Qed.

(** Garbage for that channel: a data packet that is too short. *)
Lemma no_packet_panics_witness :
  (onePacket demo_conn false "^abcd" demo_mux).2 <> Panic "index out of range" /\
  exists m', finish "EOF" demo_mux = Ok m'.
Proof.
  apply (no_packet_panics demo_conn false demo_mux false "^abcd" "EOF" "index out of range" demo_mux_reached).
  discriminate.
Defined.

Lemma packet_concerns_one_channel_witness :
  exists c m' sent r, heap demo_mux !! 0%nat = Some c /\
    onePacket demo_conn false demo_open demo_mux = (m', sent, r) /\ heap m' !! 0%nat = Some c.
Proof.
  destruct (onePacket demo_conn false demo_open demo_mux) as [[m' sent] r] eqn:E.
  destruct (heap demo_mux !! 0%nat) as [c|] eqn:Hc; [|discriminate Hc].
  exists c, m', sent, r. split; [reflexivity|]. split; [reflexivity|].
  assert (mux_inv demo_mux) as [Hok Hsz].
  { apply (rtc_invariant (mux_step demo_conn) mux_inv _ _ (fun a b => mux_step_inv demo_conn a b) demo_mux_reached).
    split; [apply newMux_ok|reflexivity]. }
  apply (packet_concerns_one_channel demo_conn false demo_open demo_mux m' sent r 0 c Hok Hsz); try assumption.
  - discriminate.
  - vm_compute. discriminate.
Defined.
