(* ===== verification/FlowControl.v ===== *)
(** Flow control between the two ends of a channel
    (xendor/github.com/glycerine/xcryptossh/channel.go, common.go, buffer.go):
    one end writes, the other reads, and packets are under way in both
    directions. What [Channel] proves of one end is put together here. *)
From S2P Require Import Prelude.
From S2P Require Import GoStrings.
From S2P Require Import Wire.
From S2P Require Import Flow.
From S2P Require Import Channel.
From S2P Require Import Mux.

(** ** Both ends and what is between them *)

(** [ab] and [ba] are the packets under way, oldest first. [put] is what was
    reported as written and [got] what was read, from the start. *)
Record link := mkLink {
  snd_ : channel;
  rcv : channel;
  ab : list string;
  ba : list string;
  put : string;
  got : string;
}.

(** The transport takes every packet while the connection is up. *)
Definition up (packet : string) : option string := None.

(** The writer's and reader's calls and the arrival of packets, in any order.
    A call that waits is taken to happen when it no longer waits; a write may
    time out after any of its packets. *)
Inductive link_step : link -> link -> Prop :=
| l_write s turns data c sent n e :
    Forall (fun t => t.2 = []) turns -> slen data < 2 ^ 32 ->
    WriteExtended up turns data 0 (snd_ s) = Some (c, sent, (n, e)) ->
    link_step s (mkLink c (rcv s) (ab s ++ sent) (ba s) (put s +:+ stake (Z.to_nat n) data) (got s))
| l_data s halted pick packet rest c sent removed r :
    ab s = packet :: rest ->
    handlePacket up halted pick packet (rcv s) = (c, sent, removed, r) ->
    link_step s (mkLink (snd_ s) c rest (ba s ++ sent) (put s) (got s))
| l_read s n c sent data e :
    ReadExtended up [] n 0 (rcv s) = Some (c, sent, (data, e)) ->
    link_step s (mkLink (snd_ s) c (ab s) (ba s ++ sent) (put s) (got s +:+ data))
| l_adjust s halted pick packet rest c sent removed r :
    ba s = packet :: rest ->
    handlePacket up halted pick packet (snd_ s) = (c, sent, removed, r) ->
    link_step s (mkLink c (rcv s) (ab s ++ sent) rest (put s) (got s)).

(** Two ends after the channel was opened: nothing written, the writer's window
    is the reader's, and the writer's packets fit the reader. *)
Definition opened (a b : channel) : Prop :=
  Window.win (remoteWin a) = channelWindowSize /\ Window.closed (remoteWin a) = false /\
  myWindow b = channelWindowSize /\ Buffer.contents (pending b) = "" /\
  0 < maxRemotePayload a <= maxIncomingPayload b /\ maxIncomingPayload b < 2 ^ 32 /\
  in_uint32 (remoteId b) /\ sentClose a = false /\ sentClose b = false.

Definition start (a b : channel) : link := mkLink a b [] [] "" "".

(** ** The writer *)

Lemma core_set_remoteWin_field w c c' :
  core c' = core (set_remoteWin w c) ->
  remoteWin c' = w /\ maxRemotePayload c' = maxRemotePayload c /\ remoteId c' = remoteId c.
Proof. intros (_ & -> & _ & -> & _ & _ & -> & _)%core_fields. by destruct c. Qed.

(** A run of the loop that never waits, over a transport that is up. *)
Lemma write_loop_window turns code :
  Forall (fun t : turn => t.2 = []) turns ->
  forall data n c c' sent n' e,
  Window.wf (remoteWin c) -> Window.closed (remoteWin c) = false -> 0 < maxRemotePayload c < 2 ^ 32 ->
  slen data < 2 ^ 32 -> sentClose c = false ->
  write_loop up turns data code n c = Some (c', sent, (n', e)) ->
  exists w, core c' = core (set_remoteWin w c) /\ Window.wf w /\ Window.closed w = false /\
    Window.win w = Window.win (remoteWin c) - (n' - n) /\ sentClose c' = false.
Proof.
  assert (forall c n, Window.wf (remoteWin c) -> Window.closed (remoteWin c) = false -> sentClose c = false ->
    exists w, core c = core (set_remoteWin w c) /\ Window.wf w /\ Window.closed w = false /\
      Window.win w = Window.win (remoteWin c) - (n - n) /\ sentClose c = false) as Hstay.
  { intros c n Hw Hc Hs. exists (remoteWin c). split_and!; [by destruct c|done|done|lia|done]. }
  induction 1 as [|[bye evs] turns Hev HF IH]; intros data n c c' sent n' e Hw Hc Hm Hd Hs;
    (destruct data as [|x data]; cbn [write_loop]; [intros [= <- <- <- <-]; by apply Hstay|]); [done|].
  simpl in Hev. subst evs. set (d := String x data) in *. assert (0 < slen d) as Hpos by (by apply slen_pos).
  rewrite min_spec by (unfold in_uint32; lia). set (k := Z.min (maxRemotePayload c) (slen d)).
  destruct (Window.reserve bye [] k (remoteWin c)) as [[w [space err]]|] eqn:ER; [|done].
  apply Window.reserve_no_wait in ER as (W1 & W2 & W3); [|done|done|lia].
  destruct err as [b|].
  { intros [= <- <- <- <-]. exists w. destruct W3 as [[? _]|[_ W3]]; [done|].
    split_and!; [by destruct c|done|done|lia|by rewrite sentClose_set_remoteWin]. }
  destruct W3 as [(_ & Hsp & W3)|[? _]]; [|done].
  destruct (slen_stake_sdrop space d) as [Hl1 Hl2]; [lia|].
  destruct (writePacket_ok up (data_packet (remoteId (set_remoteWin w c)) code (stake (Z.to_nat space) d))
    (note [WOK] (set_remoteWin w c))) as (c1 & -> & HC & Hs1); [done|by rewrite sentClose_note, sentClose_set_remoteWin| |].
  { rewrite first_byte_data. by destruct (0 <? code). }
  assert (core (note [WOK] c1) = core (set_remoteWin w c)) as HC' by (by rewrite core_note, HC, core_note).
  apply core_set_remoteWin_field in HC' as Hf. destruct Hf as (F1 & F2 & F3).
  destruct (write_loop _ _ _ _ _ _) as [[[c2 s2] [n2 e2]]|] eqn:EL; [|done]. intros [= <- <- <- <-].
  apply IH in EL as (w2 & Hcore & W4 & W5 & W6 & Hs2);
    [|by rewrite F1|by rewrite F1|by rewrite F2|lia|by rewrite sentClose_note].
  exists w2. rewrite F1 in W6. split_and!; try done; [|lia].
  rewrite Hcore. destruct (set_remoteWin_fields w2 (note [WOK] c1)) as (_ & _ & _ & ->). rewrite HC'. by destruct c.
Qed.

(** A write while the connection is up. *)
Lemma write_spec turns data c c' sent n e :
  Forall (fun t : turn => t.2 = []) turns -> slen data < 2 ^ 32 ->
  Window.wf (remoteWin c) -> Window.closed (remoteWin c) = false -> 0 < maxRemotePayload c < 2 ^ 32 ->
  sentClose c = false -> WriteExtended up turns data 0 c = Some (c', sent, (n, e)) ->
  exists chunks, sent = map (data_packet (remoteId c) 0) chunks /\
    Forall (chunk_ok (maxRemotePayload c)) chunks /\ Buffer.concat chunks = stake (Z.to_nat n) data /\
    remoteId c' = remoteId c /\ maxRemotePayload c' = maxRemotePayload c /\ sentClose c' = false /\
    Window.wf (remoteWin c') /\ Window.closed (remoteWin c') = false /\
    Window.win (remoteWin c') = Window.win (remoteWin c) - slen (Buffer.concat chunks).
Proof.
  intros HF Hd Hw Hc Hm Hs HW. pose proof HW as HW'.
  apply write_extended_chunks in HW as (chunks & -> & H1 & H2 & H3 & _); try done.
  2:{ eapply Forall_impl; [exact HF|]. intros [o l] E. simpl in *. subst l. by apply Forall_nil. }
  exists chunks. rewrite <- H2. split; [done|]. split; [done|]. split; [done|]. clear H1 H3 H2.
  unfold WriteExtended in HW'.
  assert (core (note [WBegin] c) = core c) as HC by apply core_note.
  apply core_fields in HC as (_ & Hid & _ & Hmax & _ & _ & Hwin & _).
  destruct (sentEOF (note [WBegin] c)).
  { injection HW' as <- _ <- _. rewrite Hid, Hmax, Hwin, sentClose_note, Z.sub_0_r. by split_and!. }
  destruct (write_loop _ _ _ _ _ _) as [[[c1 s1] [n1 e1]]|] eqn:EL; [|done].
  apply write_loop_window in EL as (w & Hcore & W1 & W2 & W3 & W4); rewrite ?Hwin, ?Hmax, ?sentClose_note; try done.
  assert (exists l, c' = note l c1 /\ n = n1) as (l & -> & ->).
  { destruct e1; injection HW' as <- _ <- _; [exists []|by exists [WOK]].
    split; [|done]. destruct c1. unfold note. by rewrite app_nil_r. }
  assert (core (note l c1) = core (set_remoteWin w (note [WBegin] c))) as HC by (by rewrite core_note).
  apply core_set_remoteWin_field in HC as (-> & -> & ->).
  rewrite Hid, Hmax, sentClose_note. rewrite Hwin, Z.sub_0_r in W3. by split_and!.
Qed.

(** ** The reader *)

Definition adjust_packet (id n : Z) : string := Marshal windowAdjustMsg [VUint32 id; VUint32 n].

Lemma put_id_adjust id n : put_id id (Marshal windowAdjustMsg [VUint32 0; VUint32 n]) = adjust_packet id n.
Proof. done. Qed.

Lemma first_byte_adjust id n : first_byte (adjust_packet id n) = 93.
Proof. done. Qed.

Lemma core_reader_fields c c' :
  core c' = core c ->
  myWindow c' = myWindow c /\ pending c' = pending c /\ remoteId c' = remoteId c /\
  maxIncomingPayload c' = maxIncomingPayload c.
Proof. intros H%core_fields. tauto. Qed.

(** What a read takes, and the window it gives back. *)
Lemma read_spec n c c' sent data e :
  0 <= myWindow c -> myWindow c + data_len (pending c) = channelWindowSize -> sentClose c = false ->
  ReadExtended up [] n 0 c = Some (c', sent, (data, e)) ->
  Buffer.contents (pending c) = data +:+ Buffer.contents (pending c') /\
  myWindow c' = myWindow c + slen data /\ remoteId c' = remoteId c /\
  maxIncomingPayload c' = maxIncomingPayload c /\ sentClose c' = false /\ slen data <= channelWindowSize /\
  sent = if 0 <? slen data then [adjust_packet (remoteId c) (slen data)] else [].
Proof.
  intros Hw Hb Hs. unfold ReadExtended. cbn [Z.eqb orb].
  assert (core (note [RBegin] c) = core c) as HC by apply core_note.
  apply core_reader_fields in HC as (C1 & C2 & C3 & C4). rewrite <- C1, <- C2 in Hb. rewrite <- C1 in Hw.
  rewrite <- C1, <- C2, <- C3, <- C4. pose proof (sentClose_note [RBegin] c) as Hsc. rewrite Hs in Hsc.
  revert Hw Hb Hsc. generalize (note [RBegin] c). clear c C1 C2 C3 C4 Hs. intros c Hw Hb Hs.
  destruct (Buffer.Read [] n (pending c)) as [[b [d err]]|] eqn:ER; [|done].
  apply Buffer_Read_len in ER as [HE HL]; [|by apply Forall_nil].
  set (c2 := match err with None => _ | Some _ => _ end).
  assert (myWindow c2 = myWindow c /\ pending c2 = b /\ remoteId c2 = remoteId c /\
    maxIncomingPayload c2 = maxIncomingPayload c /\ sentClose c2 = false) as (D1 & D2 & D3 & D4 & D5)
    by (unfold c2; destruct err, c; done).
  clearbody c2. pose proof (slen_nonneg d). pose proof (slen_nonneg (Buffer.contents b)).
  unfold data_len, channelWindowSize, channelMaxPacket in *.
  destruct (Z.ltb_spec 0 (slen d)) as [Hd|Hd].
  - unfold adjustWindow, sendMessage. rewrite (to_uint32_id (slen d)) by (unfold in_uint32; lia).
    rewrite put_id_adjust. set (c3 := set_myWindow _ c2).
    destruct (writePacket_ok up (adjust_packet (remoteId c3) (slen d)) c3) as (c4 & -> & HC & Hs4); [done|by destruct c2|done|].
    intros [= <- <- <- <-]. destruct (Z.ltb_spec 0 (slen d)); [|lia].
    apply core_reader_fields in HC as (-> & -> & -> & ->). unfold c3.
    destruct (set_myWindow_fields (to_uint32 (myWindow c2 + slen d)) c2) as [-> _].
    rewrite D2. split_and!; try done; [|by destruct c2|by destruct c2|lia|by destruct c2; simpl in *; subst].
    rewrite D1, to_uint32_id by (unfold in_uint32; lia). by destruct c2.
  - intros [= <- <- <- <-]. rewrite D1, D2, D3, D4. destruct (Z.ltb_spec 0 (slen d)); [lia|]. split_and!; done || lia.
Qed.

(** ** Arrivals *)

Lemma handle_data halted pick id s c :
  0 < slen s <= maxIncomingPayload c -> maxIncomingPayload c < 2 ^ 32 -> slen s <= myWindow c ->
  exists c', handlePacket up halted pick (data_packet id 0 s) c = (c', [], [], Ok None) /\
    myWindow c' = myWindow c - slen s /\ pending c' = Buffer.write s (pending c) /\
    remoteId c' = remoteId c /\ maxIncomingPayload c' = maxIncomingPayload c /\ sentClose c' = sentClose c.
Proof.
  intros Hs Hm Hw. unfold handlePacket. rewrite first_byte_data. cbn [Z.ltb Z.compare Z.eqb Pos.eqb orb].
  rewrite data_packet_effect; [|done|by destruct c..].
  eexists. split; [reflexivity|]. by destruct c.
Qed.

Lemma handle_adjust halted pick id n c :
  in_uint32 id -> in_uint32 n -> Window.wf (remoteWin c) -> Window.win (remoteWin c) + n < 2 ^ 32 ->
  exists c', handlePacket up halted pick (adjust_packet id n) c = (c', [], [], Ok None) /\
    Window.wf (remoteWin c') /\ Window.win (remoteWin c') = Window.win (remoteWin c) + n /\
    Window.closed (remoteWin c') = Window.closed (remoteWin c) /\
    remoteId c' = remoteId c /\ maxRemotePayload c' = maxRemotePayload c /\ sentClose c' = sentClose c.
Proof.
  intros Hid Hn Hw Hsum. unfold handlePacket. rewrite first_byte_adjust.
  cbn [Z.eqb Pos.eqb orb]. unfold adjust_packet. rewrite decode_Marshal.
  2:{ unfold wire_messages. set_solver. }
  2:{ split; [repeat (apply Forall2_cons; split; [done|]); by apply Forall2_nil|]. 
      cbn [fields_bytes]. rewrite !slen_app. vm_compute. done. }
  unfold handleMessage. cbn [bool_decide].
  rewrite (bool_decide_false (windowAdjustMsg = channelOpenFailureMsg)) by done.
  rewrite (bool_decide_false (windowAdjustMsg = channelOpenConfirmMsg)) by done.
  rewrite (bool_decide_true (windowAdjustMsg = windowAdjustMsg)) by done.
  pose proof (Window.add_spec n (remoteWin (note [ROK] c))) as HA.
  assert (remoteWin (note [ROK] c) = remoteWin c) as Hrw by (by destruct c). rewrite Hrw in *.
  assert (Window.closed (Window.add n (remoteWin c)).1 = Window.closed (remoteWin c)) as HCl
    by (unfold Window.add; by repeat case_match).
  destruct (Window.add n (remoteWin c)) as [w ok]. destruct HA as (H1 & H2 & H3 & H4); [done|done|].
  destruct ok; [|destruct (proj1 H4 eq_refl); lia].
  eexists. split; [reflexivity|]. specialize (H2 eq_refl). destruct c; simpl in *. by split_and!.
Qed.

(** ** The invariant *)

Definition sum (ns : list Z) : Z := foldr Z.add 0 ns.
Lemma sum_app a b : sum (a ++ b) = sum a + sum b.
Proof. induction a as [|x a IH]; simpl; lia. Qed.

(** [chunks] is the data under way, [ns] the window being given back. *)
Record inv (s : link) (chunks : list string) (ns : list Z) : Prop := mkInv {
  i_ab : ab s = map (data_packet (remoteId (snd_ s)) 0) chunks;
  i_ba : ba s = map (adjust_packet (remoteId (rcv s))) ns;
  i_chunks : Forall (chunk_ok (maxRemotePayload (snd_ s))) chunks;
  i_ns : Forall (fun n => 0 < n <= channelWindowSize) ns;
  i_win : Window.win (remoteWin (snd_ s)) + slen (Buffer.concat chunks) + sum ns = myWindow (rcv s);
  i_room : myWindow (rcv s) + data_len (pending (rcv s)) = channelWindowSize;
  i_data : put s = got s +:+ Buffer.contents (pending (rcv s)) +:+ Buffer.concat chunks;
  i_fit : 0 < maxRemotePayload (snd_ s) <= maxIncomingPayload (rcv s) /\
          maxIncomingPayload (rcv s) < 2 ^ 32;
  i_id : in_uint32 (remoteId (rcv s));
  i_wf : Window.wf (remoteWin (snd_ s)) /\ Window.closed (remoteWin (snd_ s)) = false;
  i_up : sentClose (snd_ s) = false /\ sentClose (rcv s) = false;
}.

Lemma sum_nonneg ns : Forall (fun n => 0 < n <= channelWindowSize) ns -> 0 <= sum ns.
Proof. induction 1; simpl; lia. Qed.

(** The bounds that the accounting gives. *)
Lemma inv_bounds s chunks ns :
  inv s chunks ns ->
  0 <= Window.win (remoteWin (snd_ s)) /\ 0 <= slen (Buffer.concat chunks) /\ 0 <= sum ns /\
  0 <= data_len (pending (rcv s)) /\ 0 <= myWindow (rcv s) <= 2097152.
Proof.
  intros []. destruct i_wf0 as [Hw _]. unfold Window.wf, in_uint32 in Hw.
  pose proof (slen_nonneg (Buffer.concat chunks)). pose proof (sum_nonneg _ i_ns0).
  pose proof (slen_nonneg (Buffer.contents (pending (rcv s)))).
  unfold data_len, channelWindowSize, channelMaxPacket in *. lia.
Qed.

Lemma inv_start a b : opened a b -> inv (start a b) [] [].
Proof.
  intros (H1 & H2 & H3 & H4 & H5 & H6 & H7 & H8 & H9). constructor; simpl; try done; try by apply Forall_nil.
  - change (slen "") with 0. lia.
  - unfold data_len. rewrite H4. change (slen "") with 0. lia.
  - by rewrite H4.
  - unfold Window.wf, in_uint32. by rewrite H1.
Qed.

Lemma inv_write s chunks ns turns data c sent n e :
  inv s chunks ns -> Forall (fun t : turn => t.2 = []) turns -> slen data < 2 ^ 32 ->
  WriteExtended up turns data 0 (snd_ s) = Some (c, sent, (n, e)) ->
  exists chunks', inv (mkLink c (rcv s) (ab s ++ sent) (ba s) (put s +:+ stake (Z.to_nat n) data) (got s)) chunks' ns.
Proof.
  intros HI HF Hd HW. pose proof (inv_bounds _ _ _ HI) as HB. destruct HI.
  apply write_spec in HW as (new & -> & W1 & W2 & W3 & W4 & W5 & W6 & W7 & W8); try done; [|tauto|tauto|lia|tauto].
  exists (chunks ++ new). constructor; simpl; rewrite ?W3, ?W4; try done.
  - by rewrite i_ab0, map_app.
  - by apply Forall_app.
  - rewrite W8, Buffer.concat_app, slen_app. lia.
  - rewrite <- W2, i_data0, Buffer.concat_app. by rewrite !string_app_assoc.
  - tauto.
Qed.

Lemma inv_data s chunks ns halted pick packet rest c sent removed r :
  inv s chunks ns -> ab s = packet :: rest ->
  handlePacket up halted pick packet (rcv s) = (c, sent, removed, r) ->
  sent = [] /\ removed = [] /\ r = Ok None /\
  exists x chunks', chunks = x :: chunks' /\ inv (mkLink (snd_ s) c rest (ba s ++ sent) (put s) (got s)) chunks' ns.
Proof.
  intros HI Hab HP. pose proof (inv_bounds _ _ _ HI) as HB. destruct HI. rewrite Hab in i_ab0.
  destruct chunks as [|x chunks]; [done|]. injection i_ab0 as -> ->.
  apply Forall_cons in i_chunks0 as [Hx i_chunks0]. unfold chunk_ok in Hx.
  cbn [Buffer.concat] in *. pose proof (slen_app x (Buffer.concat chunks)) as Hsl. pose proof (slen_nonneg (Buffer.concat chunks)).
  destruct (handle_data halted pick (remoteId (snd_ s)) x (rcv s)) as (c' & HP' & P1 & P2 & P3 & P4 & P5); [lia|lia|lia|].
  rewrite HP' in HP. injection HP as <- <- <- <-. split_and!; try done. exists x, chunks. split; [done|].
  rewrite app_nil_r. constructor; simpl; rewrite ?P1, ?P2, ?P3, ?P4, ?P5; try done.
  - lia.
  - rewrite data_len_write. lia.
  - rewrite i_data0. change (Buffer.write x (pending (rcv s))) with (Buffer.on_event (Buffer.Write x) (pending (rcv s))).
    by rewrite Buffer.contents_on_event, !string_app_assoc.
Qed.

Lemma inv_read s chunks ns n c sent data e :
  inv s chunks ns -> ReadExtended up [] n 0 (rcv s) = Some (c, sent, (data, e)) ->
  exists ns', inv (mkLink (snd_ s) c (ab s) (ba s ++ sent) (put s) (got s +:+ data)) chunks ns' /\
    Buffer.contents (pending (rcv s)) = data +:+ Buffer.contents (pending c).
Proof.
  intros HI HR. pose proof (inv_bounds _ _ _ HI) as HB. destruct HI.
  apply read_spec in HR as (R1 & R2 & R3 & R4 & R5 & R6 & ->); [|lia|done|tauto].
  exists (ns ++ if 0 <? slen data then [slen data] else []). split; [|done].
  pose proof (slen_nonneg data) as Hnn.
  constructor; simpl; rewrite ?R2, ?R3, ?R4, ?R5; try done; try tauto.
  - rewrite i_ba0, map_app. by destruct (0 <? slen data).
  - apply Forall_app. split; [done|]. destruct (Z.ltb_spec 0 (slen data)); [|by apply Forall_nil].
    apply Forall_cons. split; [lia|by apply Forall_nil].
  - rewrite sum_app. destruct (Z.ltb_spec 0 (slen data)); simpl; lia.
  - unfold data_len in *. rewrite R1, slen_app in i_room0. lia.
  - by rewrite i_data0, R1, !string_app_assoc.
Qed.

Lemma inv_adjust s chunks ns halted pick packet rest c sent removed r :
  inv s chunks ns -> ba s = packet :: rest ->
  handlePacket up halted pick packet (snd_ s) = (c, sent, removed, r) ->
  sent = [] /\ removed = [] /\ r = Ok None /\
  exists n ns', ns = n :: ns' /\ inv (mkLink c (rcv s) (ab s ++ sent) rest (put s) (got s)) chunks ns'.
Proof.
  intros HI Hba HP. pose proof (inv_bounds _ _ _ HI) as HB. destruct HI. rewrite Hba in i_ba0.
  destruct ns as [|n ns]; [done|]. injection i_ba0 as -> ->. apply Forall_cons in i_ns0 as [Hn i_ns0].
  apply sum_nonneg in i_ns0 as Hs. simpl in i_win0, HB.
  assert (0 < n <= 2097152) as Hn' by (unfold channelWindowSize, channelMaxPacket in Hn; lia).
  destruct (handle_adjust halted pick (remoteId (rcv s)) n (snd_ s))
    as (c' & HP' & P1 & P2 & P3 & P4 & P5 & P6); [done|unfold in_uint32; lia|tauto|lia|].
  rewrite HP' in HP. injection HP as <- <- <- <-. split_and!; try done. exists n, ns. split; [done|].
  rewrite app_nil_r. constructor; simpl; rewrite ?P2, ?P3, ?P4, ?P5, ?P6; try done; [lia|tauto].
Qed.

Lemma link_step_inv s s' :
  link_step s s' -> (exists chunks ns, inv s chunks ns) -> exists chunks ns, inv s' chunks ns.
Proof.
  intros H (chunks & ns & HI). destruct H as [s turns data c sent n e HF Hd HW|s h p k rest c sent rm r Hab HP|
    s n c sent data e HR|s h p k rest c sent rm r Hba HP].
  - eapply inv_write in HW as [chunks' ?]; [|done..]. by eexists _, _.
  - eapply inv_data in HP as (_ & _ & _ & x & chunks' & _ & ?); [|done..]. by eexists _, _.
  - eapply inv_read in HR as (ns' & ? & _); [|done..]. by eexists _, _.
  - eapply inv_adjust in HP as (_ & _ & _ & x & ns' & _ & ?); [|done..]. by eexists _, _.
Qed.

Lemma reachable_inv a b s : opened a b -> rtc link_step (start a b) s -> exists chunks ns, inv s chunks ns.
Proof.
  intros Ho H. apply (rtc_invariant link_step (fun s => exists chunks ns, inv s chunks ns) _ _ (fun x y Hx Hs =>
    link_step_inv x y Hs Hx) H). eexists _, _. by apply inv_start.
Qed.

(** C2: Flow control works. However the writer's and reader's calls and the
    arrival of packets interleave, from the opening of the channel on: what has
    been read is a prefix of what was written, and the rest is held by the
    reader or under way, in order; no packet of either end is ever refused by
    the other ("remote side wrote too much", "invalid window update"); and the
    window never runs out of account: what may still be sent, what is under way
    in both directions and what waits for the reader always add up to the
    initial window. *)
Theorem flow_control a b s :
  opened a b -> rtc link_step (start a b) s ->
  exists chunks ns,
    ab s = map (data_packet (remoteId (snd_ s)) 0) chunks /\
    ba s = map (adjust_packet (remoteId (rcv s))) ns /\
    put s = got s +:+ Buffer.contents (pending (rcv s)) +:+ Buffer.concat chunks /\
    Window.win (remoteWin (snd_ s)) + slen (Buffer.concat chunks) + data_len (pending (rcv s)) + sum ns
      = channelWindowSize /\
    (forall halted pick packet rest, ab s = packet :: rest ->
       exists c, handlePacket up halted pick packet (rcv s) = (c, [], [], Ok None)) /\
    (forall halted pick packet rest, ba s = packet :: rest ->
       exists c, handlePacket up halted pick packet (snd_ s) = (c, [], [], Ok None)).
Proof.
  intros Ho H. apply reachable_inv in H as (chunks & ns & HI); [|done]. exists chunks, ns.
  pose proof HI as []. split_and!; try done; [lia| |].
  - intros h p packet rest Hab. destruct (handlePacket up h p packet (rcv s)) as [[[c sent] rm] r] eqn:E.
    eapply inv_data in E as (-> & -> & -> & _); [|done..]. by exists c.
  - intros h p packet rest Hba. destruct (handlePacket up h p packet (snd_ s)) as [[[c sent] rm] r] eqn:E.
    eapply inv_adjust in E as (-> & -> & -> & _); [|done..]. by exists c.
Qed.

(** ** Everything written can be read *)

Lemma drain_data s chunks ns :
  inv s chunks ns -> exists s', rtc link_step s s' /\ inv s' [] ns /\ put s' = put s.
Proof.
  revert s. induction chunks as [|x chunks IH]; intros s HI; [exists s; split_and!; [apply rtc_refl|done|done]|].
  pose proof (i_ab _ _ _ HI) as Hab. cbn [map] in Hab. set (rest := map _ chunks) in Hab.
  destruct (handlePacket up false false (data_packet (remoteId (snd_ s)) 0 x) (rcv s)) as [[[c sent] rm] r] eqn:E.
  pose proof (l_data s _ _ _ _ _ _ _ _ Hab E) as Hstep.
  apply (inv_data s (x :: chunks) ns _ _ _ rest) in E as (_ & _ & _ & y & chunks' & [= -> <-] & HI'); [|done..].
  apply IH in HI' as (s' & H1 & H2 & H3). exists s'. split_and!; [by eapply rtc_l|done|done].
Qed.

Lemma drain_adjust s ns :
  inv s [] ns -> exists s', rtc link_step s s' /\ inv s' [] [] /\ put s' = put s /\ got s' = got s /\ rcv s' = rcv s.
Proof.
  revert s. induction ns as [|x ns IH]; intros s HI; [exists s; split_and!; [apply rtc_refl|done..]|].
  pose proof (i_ba _ _ _ HI) as Hba. cbn [map] in Hba. set (rest := map _ ns) in Hba.
  destruct (handlePacket up false false (adjust_packet (remoteId (rcv s)) x) (snd_ s)) as [[[c sent] rm] r] eqn:E.
  pose proof (l_adjust s _ _ _ _ _ _ _ _ Hba E) as Hstep.
  apply (inv_adjust s [] (x :: ns) _ _ _ rest) in E as (_ & _ & _ & y & ns' & [= -> <-] & HI'); [|done..].
  apply IH in HI' as (s' & H1 & H2 & H3 & H4 & H5). exists s'. split_and!; [by eapply rtc_l|done..].
Qed.

(** A read of all that is held. *)
Lemma drain_read s ns :
  inv s [] ns -> exists s' ns', rtc link_step s s' /\ inv s' [] ns' /\ put s' = put s /\
    Buffer.contents (pending (rcv s')) = "".
Proof.
  intros HI. set (b := pending (rcv s)).
  destruct (decide (Buffer.contents b = "")) as [He|He]; [exists s, ns; split_and!; [apply rtc_refl|done..]|].
  set (n := String.length (Buffer.contents b)).
  destruct (Buffer.Read_ready [] n b) as (b' & data & HR & Hlen); [done|by unfold n; destruct (Buffer.contents b)|].
  assert (exists c sent r, ReadExtended up [] n 0 (rcv s) = Some (c, sent, (data, r))) as (c & sent & r & HRE).
  { unfold ReadExtended. cbn [Z.eqb orb]. replace (pending (note [RBegin] (rcv s))) with b by (unfold b; by destruct (rcv s)).
    rewrite HR. cbn zeta. destruct (0 <? slen data); [|by eexists _, _, _].
    destruct (adjustWindow _ _ _) as [[c sent] e]. by eexists _, _, _. }
  pose proof (l_read s _ _ _ _ _ HRE) as Hstep. eapply inv_read in HRE as (ns' & HI' & Hc); [|done].
  eexists _, ns'. split_and!; [by eapply rtc_once|exact HI'|done|]. simpl.
  apply (f_equal String.length) in Hc. rewrite string_app_length in Hc. subst n b.
  destruct (Buffer.contents (pending c)); [done|]. simpl in Hc. lia.
Qed.

(** C27: Nothing written is lost and no window leaks: from every state the two
    ends can reach, delivering what is under way and reading what has arrived
    makes the reader have read exactly what was written, and opens the
    writer's window to its initial size again. *)
Theorem flow_control_drains a b s :
  opened a b -> rtc link_step (start a b) s ->
  exists s', rtc link_step s s' /\ put s' = put s /\ got s' = put s /\ ab s' = [] /\ ba s' = [] /\
    Window.win (remoteWin (snd_ s')) = channelWindowSize.
Proof.
  intros Ho H. apply reachable_inv in H as (chunks & ns & HI); [|done].
  apply drain_data in HI as (s1 & S1 & HI & P1). apply drain_read in HI as (s2 & ns2 & S2 & HI & P2 & E2).
  apply drain_adjust in HI as (s3 & S3 & HI & P3 & G3 & R3). exists s3. destruct HI.
  assert (Buffer.contents (pending (rcv s3)) = "") as E3 by (by rewrite R3).
  unfold data_len in *. rewrite E3 in *. change (slen "") with 0 in *. simpl in *. change (slen "") with 0 in *.
  split_and!; [etrans; [exact S1|]; by etrans|congruence| |done|done|lia].
  rewrite string_app_nil_r in i_data0. congruence.
Qed.

(** ** How a channel comes to be open *)

Lemma put_id_first t tag id x vs :
  typeTags t = [tag] -> put_id id (Marshal t (VUint32 x :: vs)) = Marshal t (VUint32 id :: vs).
Proof.
  intros H. rewrite !(Marshal_eq t _ tag []) by done. cbn [fields_bytes].
  change (field_bytes (VUint32 x)) with (be_bytes 4 x). change (field_bytes (VUint32 id)) with (be_bytes 4 id).
  unfold put_id. generalize (fields_bytes vs) as u. intros u.
  change (sdrop 5 (String (byte tag) (be_bytes 4 x +:+ u))) with (sdrop 4 (be_bytes 4 x +:+ u)).
  by rewrite sdrop_app_len by apply be_bytes_length.
Qed.

Lemma packet_id_first t tag id vs :
  typeTags t = [tag] -> in_uint32 id -> packet_id (Marshal t (VUint32 id :: vs)) = id.
Proof.
  intros H Hid. rewrite (Marshal_eq t _ tag []) by done. cbn [fields_bytes].
  change (field_bytes (VUint32 id)) with (be_bytes 4 id). generalize (fields_bytes vs) as u. intros u.
  unfold packet_id. change (sdrop 1 (String (byte tag) (be_bytes 4 id +:+ u))) with (be_bytes 4 id +:+ u).
  rewrite stake_app_len by apply be_bytes_length. by rewrite be_be_bytes.
Qed.

(** The opener's channel while it waits, and the accepter's before it accepts. *)
Definition opening (ct ex : string) (idA : Z) : channel :=
  set_maxIncomingPayload channelMaxPacket (set_localId idA (new_channel ct false ex)).
Definition offered (ct ex : string) (idA idB : Z) : channel :=
  set_remoteWin (Window.mkWindow channelWindowSize 0 false)
    (set_remote idA channelMaxPacket (set_localId idB (new_channel ct true ex))).
Definition open_packet (ct ex : string) (idA : Z) : string :=
  Marshal channelOpenMsg [VString ct; VUint32 idA; VUint32 channelWindowSize; VUint32 channelMaxPacket; VRest ex].
Definition confirm_packet (idA idB : Z) : string :=
  Marshal channelOpenConfirmMsg
    [VUint32 idA; VUint32 idB; VUint32 channelWindowSize; VUint32 channelMaxPacket; VRest ""].

Lemma open_sends ct ex m :
  mux_ok m -> size m + 1 < 2 ^ 32 ->
  exists m' idA p, openChannel up ct ex m = (m', [open_packet ct ex idA], (p, None)) /\
    in_uint32 idA /\ ChanList.getChan idA (chanList m') = Some p /\
    heap m' !! p = Some (opening ct ex idA) /\ muxHalted m' = muxHalted m.
Proof.
  intros Hok Hsz. unfold openChannel. destruct (newChannel ct false ex m) as [m1 p] eqn:EN.
  apply newChannel_ok in EN as (Hok1 & -> & Hs & _ & Hh & _ & id & Hheap & Hid & Hget); [|done].
  rewrite Hheap, list_lookup_middle by done. eexists _, id, _. split; [reflexivity|].
  split; [done|]. split; [apply Hget; lia|]. split; [|done]. simpl. rewrite Hheap.
  apply list_lookup_insert_eq. rewrite length_app. simpl. lia.
Qed.

Lemma open_arrives pick ct ex idA m :
  mux_ok m -> size m + 1 < 2 ^ 32 -> in_uint32 idA -> slen ct + slen ex < 2 ^ 31 ->
  muxHalted m = false -> (List.length (incomingChannels m) < chanSize)%nat ->
  exists m' idB p, onePacket up pick (open_packet ct ex idA) m = (m', [], Ok None) /\ in_uint32 idB /\
    incomingChannels m' = incomingChannels m ++ [p] /\ heap m' !! p = Some (offered ct ex idA idB).
Proof.
  intros Hok Hsz Hid Hlen Hh Hroom.
  assert (onePacket up pick (open_packet ct ex idA) m = handleChannelOpen up pick (open_packet ct ex idA) m) as -> by done.
  unfold handleChannelOpen, open_packet. rewrite Unmarshal_Marshal.
  2:{ vm_compute. reflexivity. }
  2:{ split; [repeat (apply Forall2_cons; split; [done|]); by apply Forall2_nil|].
      cbn [fields_bytes]. rewrite !slen_app. unfold field_bytes. cbn [marshalField].
      unfold appendString, appendInt, appendU32. rewrite !string_app_nil_l, !slen_app, !slen_be_bytes.
      change (slen "") with 0. lia. }
  cbn [Z.ltb Z.compare orb]. 
  replace ((channelMaxPacket <? minPacketLength) || (2 ^ 31 <? channelMaxPacket)) with false by done.
  destruct (newChannel ct true ex m) as [m1 p] eqn:EN.
  apply newChannel_ok in EN as (Hok1 & -> & Hs & Hinc & Hh1 & He & id & Hheap & Hidb & _); [|done].
  rewrite Hheap, list_lookup_middle by done. unfold offer. simpl. rewrite Hh1, Hh, He, (ok_open m Hok), Hinc. simpl.
  apply Nat.ltb_lt in Hroom as ->. eexists _, id, _. split; [reflexivity|]. split; [done|]. split; [done|].
  simpl. rewrite Hheap. rewrite list_lookup_insert_eq by (rewrite length_app; simpl; lia). done.
Qed.

Lemma accept_sends ct ex idA idB :
  in_uint32 idA ->
  exists c, Accept up (offered ct ex idA idB) = (c, [confirm_packet idA idB], None) /\
    c = note [WOK] (set_sentClose false (set_decided true (set_maxIncomingPayload channelMaxPacket (offered ct ex idA idB)))).
Proof.
  intros Hid. unfold Accept. cbn [offered decided set_remoteWin set_remote set_localId new_channel].
  unfold sendMessage. cbn [set_decided set_maxIncomingPayload remoteId localId myWindow maxIncomingPayload].
  rewrite (put_id_first _ 91) by done. by eexists.
Qed.

Lemma confirm_arrives pick ct ex idA idB p m :
  in_uint32 idA -> in_uint32 idB -> ChanList.getChan idA (chanList m) = Some p ->
  heap m !! p = Some (opening ct ex idA) -> muxHalted m = false ->
  exists m' c, onePacket up pick (confirm_packet idA idB) m = (m', [], Ok None) /\ heap m' !! p = Some c /\
    c = set_msg [(channelOpenConfirmMsg, [VUint32 idA; VUint32 idB; VUint32 channelWindowSize;
                   VUint32 channelMaxPacket; VRest ""])]
          (set_remoteWin (Window.mkWindow channelWindowSize 0 false)
            (set_remote idB channelMaxPacket (set_decided true (note [ROK] (opening ct ex idA))))).
Proof.
  intros Hida Hidb Hget Hp Hh. unfold onePacket.
  destruct (confirm_packet idA idB) as [|b rest] eqn:EP; [done|].
  assert (b = "["%char) as -> by (unfold confirm_packet in EP; by injection EP).
  replace (val "[" =? 90) with false by done. replace ((val "[" =? 80) || (val "[" =? 81) || (val "[" =? 82)) with false by done.
  assert ((String.length (String "[" rest) <? 5)%nat = false) as ->.
  { rewrite <- EP. apply Nat.ltb_ge. unfold confirm_packet. rewrite (Marshal_eq _ _ 91 []) by done. cbn [String.length fields_bytes].
    rewrite string_app_length. unfold field_bytes at 1. simpl. lia. }
  assert (be (stake 4 rest) = idA) as ->.
  { change (be (stake 4 rest)) with (packet_id (String "[" rest)). rewrite <- EP. by apply (packet_id_first _ 91). }
  rewrite Hget, Hp, Hh, <- EP. unfold handlePacket, confirm_packet. rewrite decode_Marshal.
  2:{ unfold wire_messages. set_solver. }
  2:{ split; [repeat (apply Forall2_cons; split; [done|]); by apply Forall2_nil|].
      cbn [fields_bytes]. rewrite !slen_app. vm_compute. reflexivity. }
  replace (first_byte (Marshal channelOpenConfirmMsg _)) with 91 by done.
  cbn [Z.eqb Pos.eqb orb]. unfold handleMessage.
  rewrite (bool_decide_false (channelOpenConfirmMsg = channelOpenFailureMsg)) by done.
  rewrite (bool_decide_true (channelOpenConfirmMsg = channelOpenConfirmMsg)) by done.
  cbn. eexists _, _. split; [reflexivity|]. split; [|reflexivity]. simpl.
  by rewrite list_lookup_insert_eq by (by eapply lookup_lt_Some).
Qed.
(** The whole of the opening of a channel, with what is offered to the accepter. *)
Lemma opening_path pick1 pick2 ct ex mA mB :
  mux_ok mA -> mux_ok mB -> size mA + 1 < 2 ^ 32 -> size mB + 1 < 2 ^ 32 ->
  muxHalted mA = false -> muxHalted mB = false -> slen ct + slen ex < 2 ^ 31 ->
  (List.length (incomingChannels mB) < chanSize)%nat ->
  exists mA1 p1 pa mB1 pb idA idB b p2 mA2 a mA3,
    openChannel up ct ex mA = (mA1, [p1], (pa, None)) /\
    onePacket up pick1 p1 mB = (mB1, [], Ok None) /\
    incomingChannels mB1 = incomingChannels mB ++ [pb] /\ heap mB1 !! pb = Some (offered ct ex idA idB) /\
    Accept up (offered ct ex idA idB) = (b, [p2], None) /\
    onePacket up pick2 p2 mA1 = (mA2, [], Ok None) /\
    await_open false pa mA2 = (mA3, Ok None) /\ heap mA3 !! pa = Some a /\
    opened a b /\ opened b a /\ decided b = true.
Proof.
  intros HA HB SA SB HhA HhB Hlen Hroom.
  destruct (open_sends ct ex mA HA SA) as (mA1 & idA & pa & E1 & Hida & Hget & Hpa & Hh1).
  destruct (open_arrives pick1 ct ex idA mB HB SB Hida Hlen HhB Hroom) as (mB1 & idB & pb & E2 & Hidb & Hinc & Hpb).
  destruct (accept_sends ct ex idA idB Hida) as (b & E3 & ->).
  destruct (confirm_arrives pick2 ct ex idA idB pa mA1 Hida Hidb Hget Hpa) as (mA2 & a & E4 & Ha & ->); [congruence|].
  assert (exists mA3 a, await_open false pa mA2 = (mA3, Ok None) /\ heap mA3 !! pa = Some a /\
    a = set_msg [] (set_remoteWin (Window.mkWindow channelWindowSize 0 false)
            (set_remote idB channelMaxPacket (set_decided true (note [ROK] (opening ct ex idA))))))
    as (mA3 & a & E5 & Ha3 & ->).
  { unfold await_open. rewrite andb_false_r, Ha. cbn [msg set_msg]. simpl.
    eexists _, _. split; [reflexivity|]. split; [|reflexivity]. simpl.
    by rewrite list_lookup_insert_eq by (by eapply lookup_lt_Some). }
  eexists mA1, _, pa, mB1, pb, idA, idB, _, _, mA2, _, mA3. split_and!; try eassumption;
    first [done | unfold opened; split_and!; done].
Qed.

(** Opening a channel works: the opener's request reaches the other mux,
    is offered there as a new channel, accepting it sends a confirmation, and
    its arrival ends the opener's wait; then both directions are open, as
    [flow_control] takes them to be. *)
Theorem channel_opens pick1 pick2 ct ex mA mB :
  mux_ok mA -> mux_ok mB -> size mA + 1 < 2 ^ 32 -> size mB + 1 < 2 ^ 32 ->
  muxHalted mA = false -> muxHalted mB = false -> slen ct + slen ex < 2 ^ 31 ->
  (List.length (incomingChannels mB) < chanSize)%nat ->
  exists mA1 p1 pa mB1 pb offer b p2 mA2 a mA3,
    openChannel up ct ex mA = (mA1, [p1], (pa, None)) /\
    onePacket up pick1 p1 mB = (mB1, [], Ok None) /\
    incomingChannels mB1 = incomingChannels mB ++ [pb] /\ heap mB1 !! pb = Some offer /\
    Accept up offer = (b, [p2], None) /\
    onePacket up pick2 p2 mA1 = (mA2, [], Ok None) /\
    await_open false pa mA2 = (mA3, Ok None) /\ heap mA3 !! pa = Some a /\
    opened a b /\ opened b a.
Proof.
  intros HA HB SA SB HhA HhB Hlen Hroom.
  destruct (opening_path pick1 pick2 ct ex mA mB HA HB SA SB HhA HhB Hlen Hroom)
    as (mA1 & p1 & pa & mB1 & pb & idA & idB & b & p2 & mA2 & a & mA3 & H). decompose [and] H. eauto 25.
Qed.

(** ** Concrete instances *)

(** The two ends of a channel that one mux opens and the other accepts. *)
Definition demo_a : channel :=
  set_remoteWin (Window.mkWindow channelWindowSize 0 false)
    (set_remote 0 channelMaxPacket (set_maxIncomingPayload channelMaxPacket
      (set_decided true (new_channel "session" false "")))).
Definition demo_b : channel :=
  (Accept up (set_remoteWin (Window.mkWindow channelWindowSize 0 false)
    (set_remote 0 channelMaxPacket (new_channel "session" true "")))).1.1.

Lemma demo_opened : opened demo_a demo_b.
Proof. unfold opened, in_uint32. split_and!; (reflexivity || (vm_compute; (reflexivity || discriminate))). Qed.

(** A write and its arrival. *)
Definition demo_packet : string := data_packet 0 0 "hello".
Definition demo_a1 : channel :=
  match WriteExtended up (demo_turns 1) "hello" 0 demo_a with Some (c, _, _) => c | None => demo_a end.
Definition demo_b1 : channel := (handlePacket up false false demo_packet demo_b).1.1.1.
Definition demo_s1 : link := mkLink demo_a1 demo_b [demo_packet] [] "hello" "".
Definition demo_s2 : link := mkLink demo_a1 demo_b1 [] [] "hello" "".

Lemma demo_reached : rtc link_step (start demo_a demo_b) demo_s2.
Proof.
  apply (rtc_l _ _ demo_s1); [|apply (rtc_l _ _ demo_s2); [|apply rtc_refl]].
  - apply (l_write (start demo_a demo_b) (demo_turns 1) "hello" demo_a1 [demo_packet] 5 None).
    + apply Forall_cons. split; [reflexivity|by apply Forall_nil].
    + vm_compute. reflexivity.
    + vm_compute. reflexivity.
  - apply (l_data demo_s1 false false demo_packet [] demo_b1 [] [] (Ok None)); vm_compute; reflexivity.
Qed.

Lemma flow_control_witness :
  exists chunks ns, ab demo_s2 = map (data_packet (remoteId (snd_ demo_s2)) 0) chunks /\
    ba demo_s2 = map (adjust_packet (remoteId (rcv demo_s2))) ns /\
    Window.win (remoteWin (snd_ demo_s2)) + slen (Buffer.concat chunks) + data_len (pending (rcv demo_s2)) + sum ns
      = channelWindowSize.
Proof.
  destruct (flow_control demo_a demo_b demo_s2 demo_opened demo_reached) as (chunks & ns & H1 & H2 & _ & H3 & _).
  exists chunks, ns. split; [exact H1|]. split; [exact H2|exact H3].
Defined.

Lemma flow_control_drains_witness :
  put demo_s2 = "hello" /\ exists s', rtc link_step demo_s2 s' /\ got s' = put demo_s2.
Proof.
  split; [vm_compute; reflexivity|].
  destruct (flow_control_drains demo_a demo_b demo_s2 demo_opened demo_reached) as (s' & H1 & _ & H2 & _).
  exists s'. split; [exact H1|exact H2].
Defined.

Lemma channel_opens_witness :
  exists mA1 p1 pa mB1, openChannel up "session" "" (newMux false) = (mA1, [p1], (pa, None)) /\
    onePacket up false p1 (newMux false) = (mB1, [], Ok None).
Proof.
  destruct (channel_opens false false "session" "" (newMux false) (newMux false))
    as (mA1 & p1 & pa & mB1 & pb & o & b & p2 & mA2 & a & mA3 & H1 & H2 & _);
    try apply newMux_ok; try reflexivity.
  - change (0 < 16)%nat. lia.
  - exists mA1, p1, pa, mB1. split; [exact H1|exact H2].
Defined.
