(* ===== verification/Direct.v ===== *)
(** Connections through the server (cli.go: the destination of [Dial]; ud.go,
    direct.go; the dialling of xendor/github.com/glycerine/xcryptossh: tcpip.go and
    streamlocal.go; pty.go: [handleChannel]; the handlers of requests of server.go,
    cli.go and connection.go of the library). What the client asks for and what the
    server does with it are one path through [Mux] and [Channel]. *)
From S2P Require Import Prelude.
From S2P Require Import GoStrings.
From S2P Require Import Wire.
From S2P Require Import Flow.
From S2P Require Import Channel.
From S2P Require Import Mux.
From S2P Require Import FlowControl.
From S2P Require Import Tricorder.

(** ** The client *)

(** direct.go and tcpip.go declare the same message under different names. *)
Definition channelOpenDirectMsg : msg_type := mkType "channelOpenDirectMsg" []
  [("Rhost", KString); ("Rport", KUint32); ("Lhost", KString); ("Lport", KUint32)].
Definition streamLocalChannelOpenDirectMsg : msg_type := mkType "streamLocalChannelOpenDirectMsg" []
  [("socketPath", KString); ("reserved0", KString); ("reserved1", KUint32)].

Definition minus2_uint32 : Z := 0xFFFFFFFE.

(** net.IPv4zero.String(). *)
Definition IPv4zero : string := "0.0.0.0".

(** Where a connection is to end, behind the server. *)
Inductive destination := UnixSocket (path : string) | Tcp (hostport : string).

(** [DialConfig.Dial], from DownstreamHostPort on: the port -2, a missing port, and
    a host that begins with a slash mean a socket of the file system. *)
Definition downstream (DownstreamHostPort : string) : outcome destination :=
  let hp := Trim DownstreamHostPort ws in
  let? '(host, tryUnixDomain) :=
    if HasSuffix hp ":-2" then Ok (stake (String.length hp - 3) hp, true)
    else
      match GoStrings.SplitHostPort hp with
      | Ok (host, _) => Ok (host, false)
      | Err e =>
          if Contains e "missing port in address" then Ok (hp, true)
          else Err ("error from net.SplitHostPort on '" +:+ hp +:+ "': '" +:+ e +:+ "'")
      | Panic s => Panic s
      | Blocked => Blocked
      end in
  if tryUnixDomain || HasPrefix host "/" then Ok (UnixSocket host) else Ok (Tcp hp).

Section Transport.
(** The transport's answer to a packet. *)
Context (conn : string -> option string).

(** A channel that is being opened: the packets, the channel, the error. *)
Definition opened_channel := outcome (mux * list string * (nat * error_)).

(** [dialDirect] of direct.go and [Client.dial] of tcpip.go, up to the wait for the
    peer's answer. *)
Definition dialDirect (laddr : string) (lport : Z) (raddr : string) (rport : Z) (m : mux) : mux * list string * (nat * error_) :=
  openChannel conn "direct-tcpip"
    (Marshal channelOpenDirectMsg [VString raddr; VUint32 (to_uint32 rport); VString laddr; VUint32 (to_uint32 lport)]) m.

Definition DialRemoteUnixDomain (udpath : string) (m : mux) : mux * list string * (nat * error_) :=
  dialDirect IPv4zero 0 udpath (-2) m.

Definition dialStreamLocal (socketPath : string) (m : mux) : mux * list string * (nat * error_) :=
  openChannel conn "direct-streamlocal@openssh.com"
    (Marshal streamLocalChannelOpenDirectMsg [VString socketPath; VString ""; VUint32 0]) m.

(** [Client.DialWithContext]. *)
Definition DialWithContext (n addr : string) (m : mux) : opened_channel :=
  if (n =? "tcp")%string || (n =? "tcp4")%string || (n =? "tcp6")%string then
    let? '(host, port) := dial_target addr in Ok (dialDirect IPv4zero 0 host port m)
  else if (n =? "unix")%string then Ok (dialStreamLocal addr m)
  else Err ("ssh: unsupported protocol: " +:+ n).

(** The end of [DialConfig.Dial]. *)
Definition dial_downstream (DownstreamHostPort : string) (m : mux) : opened_channel :=
  let? d := downstream DownstreamHostPort in
  match d with
  | UnixSocket path => Ok (DialRemoteUnixDomain path m)
  | Tcp hp => DialWithContext "tcp" hp m
  end.

(** ** The server *)

(** A ConnectionAlert: whether it has a channel [PortOne]. *)
Record ConnectionAlert := mkAlert { PortOne : bool }.

(** What a channel makes the server do: dial out and copy, offer the channel to who
    waits on [PortOne], call a handler of the program, start a shell. *)
Inductive effect :=
| DialOut (network addr : string)
| OfferPortOne
| CustomHandler (channelType : string)
| Shell.

(** The fields of the message that are read; an error of Unmarshal is not looked
    at, so what comes before it counts. *)
Definition direct_target (extra : string) : string * Z :=
  match parseString extra with
  | None => ("", 0)
  | Some (host, rest) => (host, match parseUint32 rest with Some (port, _) => port | None => 0 end)
  end.

Definition handleDirectTcp (ca : option ConnectionAlert) (c : channel) : outcome (channel * list string * list effect) :=
  let '(host, port) := direct_target (extraData c) in
  let '(c, sent, err) := Accept conn c in
  match err with
  | Some e => Panic e
  | None =>
      if port =? minus2_uint32 then Ok (c, sent, [DialOut "unix" host])
      else if port =? 1 then
        match ca with
        | Some a => if PortOne a then Ok (c, sent, [OfferPortOne]) else Panic "wat?"
        | None => Panic "wat?"
        end
      else Ok (c, sent, [DialOut "tcp" (host +:+ ":" +:+ itoa port)])
  end.

(** [handleChannel]: [custom] are the types that have a handler of the program,
    [pty] tells whether a terminal can be started. The channel that
    [handleDirectTcp] took goes on to be rejected. *)
Definition handleChannel (custom : list string) (ca : option ConnectionAlert) (pty : bool) (c : channel)
  : outcome (channel * list string * list effect) :=
  let t := chanType c in
  let? '(c, sent, effects) :=
    if (t =? "direct-tcpip")%string then handleDirectTcp ca c else Ok (c, [], []) in
  if negb (t =? "session")%string then
    if bool_decide (t ∈ custom) then Ok (c, sent, effects ++ [CustomHandler t])
    else
      let '(c, sent', _) := Reject conn 3 ("unknown channel type: " +:+ t) c in
      Ok (c, sent ++ sent', effects)
  else
    let '(c, sent, err) := Accept conn c in
    match err with
    | Some _ => Ok (c, sent, [])
    | None =>
        if pty then Ok (c, sent, [Shell])
        else Panic "invalid memory address or nil pointer dereference"
    end.

(** *** Requests *)

(** [Request.Reply] to a request of a channel. *)
Definition request_reply (ok : bool) (r : Request) (c : channel) : channel * list string * error_ :=
  if negb (WantReply r) then (c, [], None) else ackRequest conn ok c.

Definition out_of_range : string := "slice bounds out of range".

(** binary.BigEndian.Uint32. *)
Definition Uint32 (b : string) : outcome Z := if slen b <? 4 then Panic "index out of range" else Ok (be (stake 4 b)).

(** The width and the height. *)
Definition parseDims (b : string) : outcome (Z * Z) :=
  let? w := Uint32 b in
  let? h := Uint32 (sdrop 4 b) in
  Ok (w, h).

Record Winsize := mkWinsize { Height : Z; Width : Z }.
Definition SetWinsize (w h : Z) : Winsize := mkWinsize (h mod 2 ^ 16) (w mod 2 ^ 16).

(** The dimensions in a pty-req: [termLen + 4] is computed in a byte. *)
Definition pty_dims (payload : string) : outcome (Z * Z) :=
  match String.get 3 payload with
  | None => Panic "index out of range"
  | Some b =>
      let from := (val b + 4) mod 256 in
      if slen payload <? from then Panic out_of_range else parseDims (sdrop (Z.to_nat from) payload)
  end.

(** One turn of the loop over the requests of a session; the new size of the
    terminal, if it is set. *)
Definition session_request (r : Request) (c : channel) : outcome (channel * list string * option Winsize) :=
  if (Type_ r =? "shell")%string then
    if slen (Payload r) =? 0 then let '(c, sent, _) := request_reply true r c in Ok (c, sent, None) else Ok (c, [], None)
  else if (Type_ r =? "pty-req")%string then
    let? '(w, h) := pty_dims (Payload r) in
    let '(c, sent, _) := request_reply true r c in Ok (c, sent, Some (SetWinsize w h))
  else if (Type_ r =? "window-change")%string then
    let? '(w, h) := parseDims (Payload r) in Ok (c, [], Some (SetWinsize w h))
  else Ok (c, [], None).

(** What a goroutine meets that reads requests: one, the end of the Go channel (in
    a receive that does not look at it, a nil request), a signal to stop. *)
Inductive receipt := Got (r : Request) | Closed | Stop.

(** [DiscardRequests]: whether it returned. *)
Fixpoint DiscardRequests (l : list receipt) (c : channel) : channel * list string * bool :=
  match l with
  | [] => (c, [], false)
  | Got r :: l =>
      let '(c, sent, _) := request_reply false r c in
      let '(c, sent', b) := DiscardRequests l c in (c, sent ++ sent', b)
  | Closed :: l => DiscardRequests l c
  | Stop :: _ => (c, [], true)
  end.

Section KeepAlive.
(** The encoding of a KeepAlivePing; [replied t ping] is the ping with [t] noted. *)
Context {KeepAlivePing : Type} (UnmarshalMsg : string -> outcome KeepAlivePing) (MarshalMsg : KeepAlivePing -> string)
        (replied : Z -> KeepAlivePing -> KeepAlivePing).

Definition keepalive_type : string := "keepalive@sshego.glycerine.github.com".

(** What a global request is answered: that it failed, or the ping as it was
    received at the time [now]. *)
Definition keepalive_answer (now : Z) (r : Request) : bool * string :=
  if negb (Type_ r =? keepalive_type)%string || (slen (Payload r) =? 0) then (false, "")
  else match UnmarshalMsg (Payload r) with
       | Ok ping => (true, MarshalMsg (replied now ping))
       | _ => (false, "")
       end.

Definition answer_global (now : Z) (r : Request) (m : mux) : mux * list string :=
  let '(ok, payload) := keepalive_answer now r in
  let '(m, sent, _) := Reply conn None ok payload r m in (m, sent).

(** The server's loop: whether it returned. *)
Fixpoint DiscardRequestsExceptKeepalives (now : Z) (l : list receipt) (m : mux) : mux * list string * bool :=
  match l with
  | [] => (m, [], false)
  | Got r :: l =>
      let '(m, sent) := if WantReply r then answer_global now r m else (m, []) in
      let '(m, sent', b) := DiscardRequestsExceptKeepalives now l m in (m, sent ++ sent', b)
  | Closed :: _ => (m, [], true)
  | Stop :: _ => (m, [], true)
  end.

(** The client's. *)
Fixpoint customHandleGlobalRequests (now : Z) (l : list receipt) (m : mux) : mux * list string * bool :=
  match l with
  | [] => (m, [], false)
  | Got r :: l =>
      let '(m, sent) := answer_global now r m in
      let '(m, sent', b) := customHandleGlobalRequests now l m in (m, sent ++ sent', b)
  | Closed :: l => customHandleGlobalRequests now l m
  | Stop :: _ => (m, [], true)
  end.
End KeepAlive.
End Transport.

(** ** A connection reaches its destination *)

Definition direct_msg (raddr : string) (rport : Z) (laddr : string) (lport : Z) : string :=
  Marshal channelOpenDirectMsg [VString raddr; VUint32 (to_uint32 rport); VString laddr; VUint32 (to_uint32 lport)].

Lemma string_field_bytes s : slen s < 2 ^ 32 -> field_bytes (VString s) = be_bytes 4 (slen s) +:+ s.
Proof.
  intros H. pose proof (slen_nonneg s). unfold field_bytes. cbn [marshalField]. unfold appendString, appendInt, appendU32.
  by rewrite to_uint32_id by (unfold in_uint32; lia).
Qed.

Lemma direct_msg_eq raddr rport laddr lport :
  slen raddr < 2 ^ 32 ->
  direct_msg raddr rport laddr lport =
  be_bytes 4 (slen raddr) +:+ raddr +:+ be_bytes 4 (to_uint32 rport) +:+ fields_bytes [VString laddr; VUint32 (to_uint32 lport)].
Proof.
  intros H. unfold direct_msg, Marshal, marshalStruct. cbn [typeTags channelOpenDirectMsg].
  rewrite fold_marshalField. change (fields_bytes (VString raddr :: VUint32 (to_uint32 rport) :: ?l))
    with (field_bytes (VString raddr) +:+ (field_bytes (VUint32 (to_uint32 rport)) +:+ fields_bytes l)).
  rewrite string_field_bytes, string_app_assoc by done. done.
Qed.

Lemma direct_msg_size raddr rport laddr lport :
  slen raddr < 2 ^ 32 -> slen laddr < 2 ^ 32 -> slen (direct_msg raddr rport laddr lport) = slen raddr + slen laddr + 16.
Proof.
  intros H1 H2. rewrite direct_msg_eq by done. cbn [fields_bytes]. rewrite !slen_app, !slen_be_bytes, string_field_bytes by done.
  rewrite slen_app, slen_be_bytes. change (slen (field_bytes (VUint32 _))) with (slen (be_bytes 4 (to_uint32 lport))).
  rewrite slen_be_bytes. change (slen "") with 0. lia.
Qed.

(** The server reads the destination that the client asked for. *)
Lemma direct_target_read raddr rport laddr lport :
  slen raddr + slen laddr < 2 ^ 31 -> direct_target (direct_msg raddr rport laddr lport) = (raddr, to_uint32 rport).
Proof.
  intros H. pose proof (slen_nonneg raddr) as Hr0. pose proof (slen_nonneg laddr) as Hl0. pose proof (direct_msg_size raddr rport laddr lport ltac:(lia) ltac:(lia)) as Hs.
  rewrite direct_msg_eq in * by lia. unfold direct_target. rewrite parseString_be.
  - rewrite parseUint32_be by apply to_uint32_range. done.
  - rewrite !slen_app, !slen_be_bytes in *. lia.
Qed.

(** What is to be dialled for a destination. *)
Definition dialled (d : destination) : outcome (string * Z) :=
  match d with UnixSocket path => Ok (path, -2) | Tcp hp => dial_target hp end.
Definition dial_effect (d : destination) (host : string) (port : Z) : effect :=
  match d with UnixSocket path => DialOut "unix" path | Tcp _ => DialOut "tcp" (host +:+ ":" +:+ itoa port) end.

Lemma dial_target_port hp host port : dial_target hp = Ok (host, port) -> 0 <= port < 65536.
Proof.
  unfold dial_target. intros H. apply obind_ok in H as ([h p] & _ & H). pose proof (ParseUint_bound p 16 ltac:(lia)) as Hb.
  destruct (ParseUint p 16) as [n [e|]]; [done|]. injection H as _ <-. cbn [fst] in Hb. lia.
Qed.

Lemma dial_downstream_eq conn hp d host port m :
  downstream hp = Ok d -> dialled d = Ok (host, port) ->
  dial_downstream conn hp m = Ok (openChannel conn "direct-tcpip" (direct_msg host port IPv4zero 0) m).
Proof.
  intros Hd Hp. unfold dial_downstream. rewrite Hd. cbn [obind]. destruct d as [path|t]; cbn [dialled] in Hp.
  - by injection Hp as <- <-.
  - unfold DialWithContext. change (("tcp" =? "tcp")%string || _ || _) with true. by rewrite Hp.
Qed.

(** What the server does with a channel as it is offered to it. *)
Lemma offered_handled custom ca pty idA idB host port laddr b p2 :
  slen host + slen laddr < 2 ^ 31 -> "direct-tcpip" ∉ custom ->
  Accept up (offered "direct-tcpip" (direct_msg host port laddr 0) idA idB) = (b, [p2], None) -> decided b = true ->
  handleChannel up custom ca pty (offered "direct-tcpip" (direct_msg host port laddr 0) idA idB) =
    if to_uint32 port =? minus2_uint32 then Ok (b, [p2], [DialOut "unix" host])
    else if to_uint32 port =? 1 then
      if match ca with Some a => PortOne a | None => false end then Ok (b, [p2], [OfferPortOne]) else Panic "wat?"
    else Ok (b, [p2], [DialOut "tcp" (host +:+ ":" +:+ itoa (to_uint32 port))]).
Proof.
  intros Hl Hc Ha Hd. unfold handleChannel. change (chanType (offered _ _ _ _)) with "direct-tcpip".
  change (("direct-tcpip" =? "direct-tcpip")%string) with true. change (negb ("direct-tcpip" =? "session")%string) with true.
  rewrite bool_decide_false by done. unfold handleDirectTcp.
  change (extraData (offered _ ?x _ _)) with x. rewrite direct_target_read by done. rewrite Ha.
  assert (forall reason message, Reject up reason message b = (b, [], Some errDecidedAlready)) as HR by (intros; unfold Reject; by rewrite Hd).
  destruct (to_uint32 port =? minus2_uint32); [cbn [obind]; by rewrite HR|]. destruct (to_uint32 port =? 1); [|cbn [obind]; by rewrite HR].
  destruct ca as [[[]]|]; cbn [PortOne obind]; [by rewrite HR|done..].
Qed.

Lemma dialled_size d host port hp : downstream hp = Ok d -> dialled d = Ok (host, port) ->
  match d with UnixSocket _ => port = -2 | Tcp _ => 0 <= port < 65536 end.
Proof. intros _ H. destruct d as [p|t]; [by injection H as _ <-|by apply dial_target_port in H]. Qed.

(** What the server dials for a host without colons and brackets is read back as the
    host and port that were asked for. *)
Lemma dialled_again host port : plain_host host = true -> 0 <= port < 65536 ->
  dial_target (host +:+ ":" +:+ itoa port) = Ok (host, port).
Proof.
  unfold plain_host, dial_target. intros Hh Hp. bool_prop. destruct (digits_plain (Z.to_N port)) as (? & ? & ?).
  rewrite itoa_nonneg by lia. change (":" +:+ pretty (Z.to_N port)) with (String ":" (pretty (Z.to_N port))).
  rewrite SplitHostPort_join by done. cbn [obind]. rewrite ParseUint_ok by lia. by rewrite Z2N.id by lia.
Qed.

(** C9: Where a connection through the server ends, for every port but 1 (which stops
    the server, see [port_one_stops_server]): the client's open packet carries the
    host and port, or the path of the socket, of the configured destination, the
    server's handler dials these and nothing else, and its answer opens the channel at
    both ends, ready for data in both directions. The server joins host and port with
    a colon: for a host without colons and brackets that text names the same host and
    port again; the brackets of an IPv6 address are lost, and its text cannot be
    dialled. *)
Theorem dial_reaches_destination pick1 pick2 hp d host port custom ca pty mA mB :
  downstream hp = Ok d -> dialled d = Ok (host, port) -> port <> 1 -> slen host < 2 ^ 30 -> "direct-tcpip" ∉ custom ->
  mux_ok mA -> mux_ok mB -> size mA + 1 < 2 ^ 32 -> size mB + 1 < 2 ^ 32 ->
  muxHalted mA = false -> muxHalted mB = false -> (List.length (incomingChannels mB) < chanSize)%nat ->
  (exists mA1 p1 pa mB1 pb offer b p2 mA2 a mA3,
    dial_downstream up hp mA = Ok (mA1, [p1], (pa, None)) /\
    onePacket up pick1 p1 mB = (mB1, [], Ok None) /\
    incomingChannels mB1 = incomingChannels mB ++ [pb] /\ heap mB1 !! pb = Some offer /\
    handleChannel up custom ca pty offer = Ok (b, [p2], [dial_effect d host port]) /\
    onePacket up pick2 p2 mA1 = (mA2, [], Ok None) /\
    await_open false pa mA2 = (mA3, Ok None) /\ heap mA3 !! pa = Some a /\ opened a b /\ opened b a) /\
  forall t, d = Tcp t -> plain_host host = true ->
    dial_effect d host port = DialOut "tcp" (host +:+ ":" +:+ itoa port) /\
    dial_target (host +:+ ":" +:+ itoa port) = Ok (host, port).
Proof.
  intros Hd Hp Hp1 Hh Hc HA HB SA SB HhA HhB Hroom. pose proof (slen_nonneg host).
  pose proof (dialled_size d host port hp Hd Hp) as Hport.
  split; [|intros t -> Ht; split; [done|by apply dialled_again]].
  assert (slen (direct_msg host port IPv4zero 0) = slen host + 23) as Hs by (rewrite direct_msg_size; change (slen IPv4zero) with 7; lia).
  destruct (opening_path pick1 pick2 "direct-tcpip" (direct_msg host port IPv4zero 0) mA mB HA HB SA SB HhA HhB)
    as (mA1 & p1 & pa & mB1 & pb & idA & idB & b & p2 & mA2 & a & mA3 & E1 & E2 & E3 & E4 & E5 & E6 & E7 & E8 & E9 & E10 & E11);
    [change (slen "direct-tcpip") with 12; lia|done|].
  eexists mA1, p1, pa, mB1, pb, _, b, p2, mA2, a, mA3. rewrite (dial_downstream_eq up hp d host port) by done.
  split; [by rewrite E1|]. do 3 (split; [done|]). split; [|done].
  rewrite (offered_handled custom ca pty idA idB host port IPv4zero b p2); [|change (slen IPv4zero) with 7; lia|done..].
  destruct d as [path|t]; cbn [dial_effect dialled] in *.
  - by injection Hp as <- <-.
  - unfold to_uint32. rewrite Z.mod_small by lia. unfold minus2_uint32.
    destruct (Z.eqb_spec port 0xFFFFFFFE); [lia|]. by destruct (Z.eqb_spec port 1).
Qed.

(** A server that was started with Start, which gives no PortOne, stops when a
    client that is logged in asks for a connection to port 1 of any host. *)
Theorem port_one_stops_server pick hp host custom pty mA mB :
  dial_target hp = Ok (host, 1) -> slen host < 2 ^ 30 -> "direct-tcpip" ∉ custom ->
  mux_ok mA -> mux_ok mB -> size mA + 1 < 2 ^ 32 -> size mB + 1 < 2 ^ 32 ->
  muxHalted mA = false -> muxHalted mB = false -> (List.length (incomingChannels mB) < chanSize)%nat ->
  exists mA1 p1 r mB1 pb offer,
    DialWithContext up "tcp" hp mA = Ok (mA1, [p1], r) /\ onePacket up pick p1 mB = (mB1, [], Ok None) /\
    incomingChannels mB1 = incomingChannels mB ++ [pb] /\ heap mB1 !! pb = Some offer /\
    handleChannel up custom None pty offer = Panic "wat?".
Proof.
  intros Ht Hh Hc HA HB SA SB HhA HhB Hroom. pose proof (slen_nonneg host).
  assert (slen (direct_msg host 1 IPv4zero 0) = slen host + 23) as Hs by (rewrite direct_msg_size; change (slen IPv4zero) with 7; lia).
  destruct (opening_path pick false "direct-tcpip" (direct_msg host 1 IPv4zero 0) mA mB HA HB SA SB HhA HhB)
    as (mA1 & p1 & pa & mB1 & pb & idA & idB & b & p2 & mA2 & a & mA3 & E1 & E2 & E3 & E4 & E5 & _ & _ & _ & _ & _ & E11);
    [change (slen "direct-tcpip") with 12; lia|done|].
  exists mA1, p1, (pa, None), mB1, pb. eexists.
  assert (DialWithContext up "tcp" hp mA = Ok (openChannel up "direct-tcpip" (direct_msg host 1 IPv4zero 0) mA)) as ->.
  { unfold DialWithContext. change (("tcp" =? "tcp")%string || _ || _) with true. by rewrite Ht. }
  split; [by rewrite E1|]. do 3 (split; [done|]).
  rewrite (offered_handled custom None pty idA idB host 1 IPv4zero b p2); [done|change (slen IPv4zero) with 7; lia|done..].
Qed.

(** When the server cannot write its confirmation, because the client is gone, it
    stops too, for panicOn. *)
Theorem accept_error_stops_server conn custom ca pty c e :
  chanType c = "direct-tcpip" -> decided c = false -> sentClose c = false -> (forall p, conn p = Some e) ->
  handleChannel conn custom ca pty c = Panic e.
Proof.
  intros Ht Hd Hs He. unfold handleChannel. rewrite Ht. change (("direct-tcpip" =? "direct-tcpip")%string) with true. cbn [obind].
  unfold handleDirectTcp. destruct (direct_target _) as [host port].
  unfold Accept. rewrite Hd. unfold sendMessage, writePacket. destruct c. cbn in Hs, Hd |- *. subst. by rewrite He.
Qed.

(** An IPv6 destination loses its brackets on the way, so that the address that
    the server dials has too many colons. *)
Example ipv6_destination :
  downstream "[::1]:80" = Ok (Tcp "[::1]:80") /\ dialled (Tcp "[::1]:80") = Ok ("::1", 80) /\
  dial_effect (Tcp "[::1]:80") "::1" 80 = DialOut "tcp" "::1:80" /\
  GoStrings.SplitHostPort "::1:80" = Err "address ::1:80: too many colons in address".
Proof. vm_compute. by split_and!. Qed.

(** ** Requests *)

(** [DiscardRequests] of the library goes on when the Go channel of requests is
    closed: however often it looks, it has not returned and waits for nothing. *)
Theorem discard_requests_spins conn n c : DiscardRequests conn (repeat Closed n) c = (c, [], false).
Proof. induction n as [|n IH]; [done|]. exact IH. Qed.

(** A session answers only a shell without arguments and a terminal: a command, a
    variable or a subsystem that waits for an answer gets none, not even a refusal. *)
Theorem session_leaves_unanswered conn r c :
  (Type_ r =? "pty-req")%string = false -> (Type_ r =? "window-change")%string = false ->
  (Type_ r =? "shell")%string && (slen (Payload r) =? 0) = false ->
  session_request conn r c = Ok (c, [], None).
Proof.
  intros H1 H2 H3. unfold session_request. rewrite H1, H2. destruct (Type_ r =? "shell")%string; [|done]. cbn in H3. by rewrite H3.
Qed.

(** *** The size of a terminal *)

Lemma Uint32_ok b : 4 <= slen b -> Uint32 b = Ok (be (stake 4 b)).
Proof. intros H. unfold Uint32. by rewrite (proj2 (Z.ltb_ge _ _) H). Qed.

Lemma slen_sdrop_eq n s : slen (sdrop n s) = Z.max 0 (slen s - Z.of_nat n).
Proof. unfold slen. revert s. induction n as [|n IH]; intros [|c s]; cbn [sdrop String.length]; try lia. rewrite IH. lia. Qed.

Lemma parseDims_spec b :
  if 8 <=? slen b then parseDims b = Ok (be (stake 4 b), be (stake 4 (sdrop 4 b))) else exists s, parseDims b = Panic s.
Proof.
  unfold parseDims. destruct (Z.leb_spec 8 (slen b)) as [H|H].
  - rewrite !Uint32_ok by (rewrite ?slen_sdrop_eq; lia). done.
  - unfold Uint32 at 1. destruct (slen b <? 4) eqn:E; cbn [obind]; [by eexists|]. z_prop.
    unfold Uint32. rewrite slen_sdrop_eq. assert (Z.max 0 (slen b - Z.of_nat 4) <? 4 = true) as -> by (apply Z.ltb_lt; lia). by eexists.
Qed.

(** Where the dimensions begin in a terminal request. *)
Definition dims_from (payload : string) : Z := (match String.get 3 payload with Some b => val b | None => 0 end + 4) mod 256.

Lemma get_some n s : (n < String.length s)%nat -> is_Some (String.get n s).
Proof. revert s. induction n as [|n IH]; intros [|c s] H; simpl in *; try lia; [by eexists|]. apply IH. lia. Qed.
Lemma get_none n s : (String.length s <= n)%nat -> String.get n s = None.
Proof. revert s. induction n as [|n IH]; intros [|c s] H; simpl in *; try lia; try done. apply IH. lia. Qed.

(** The server that reads a terminal request either sets the size that its bytes
    say or stops: it stops exactly on requests that are too short for the length
    of the terminal's name that they claim, taken modulo 256. *)
Theorem pty_request_spec conn r c :
  Type_ r = "pty-req" -> WantReply r = false ->
  let from := dims_from (Payload r) in
  if (4 <=? slen (Payload r)) && (from + 8 <=? slen (Payload r))
  then session_request conn r c = Ok (c, [], Some (SetWinsize (be (stake 4 (sdrop (Z.to_nat from) (Payload r))))
                                                  (be (stake 4 (sdrop 4 (sdrop (Z.to_nat from) (Payload r)))))))
  else exists s, session_request conn r c = Panic s.
Proof.
  intros Ht Hw from. unfold session_request. rewrite Ht. change (("pty-req" =? "shell")%string) with false. change (("pty-req" =? "pty-req")%string) with true.
  cbn iota. unfold pty_dims, request_reply. rewrite Hw. cbn [negb].
  destruct (Z.leb_spec 4 (slen (Payload r))) as [H4|H4].
  2:{ rewrite get_none by (unfold slen in H4; lia). by eexists. }
  destruct (get_some 3 (Payload r)) as [b Eb]; [unfold slen in H4; lia|]. assert ((val b + 4) mod 256 = from) as Hfrom by (unfold from, dims_from; by rewrite Eb).
  rewrite Eb. cbn zeta. pose proof (Z.mod_pos_bound (val b + 4) 256 ltac:(lia)) as Hb. rewrite Hfrom in *. clearbody from. cbn [andb].
  destruct (slen (Payload r) <? from) eqn:E; z_prop.
  - rewrite (proj2 (Z.leb_gt _ _)) by lia. by eexists.
  - pose proof (parseDims_spec (sdrop (Z.to_nat from) (Payload r))) as Hd. rewrite slen_sdrop_eq in Hd.
    destruct (Z.leb_spec (from + 8) (slen (Payload r))).
    + rewrite (proj2 (Z.leb_le 8 _)) in Hd by lia. by rewrite Hd.
    + rewrite (proj2 (Z.leb_gt 8 _)) in Hd by lia. destruct Hd as [s ->]. by eexists.
Qed.

(** *** Keep-alives *)

Lemma globals_typed t vs : t ∈ wire_messages -> typed_fields (t_fields t) vs -> slen (fields_bytes vs) < 2 ^ 32 -> decode (Marshal t vs) = Ok (t, vs).
Proof. intros H1 H2 H3. by apply decode_Marshal. Qed.

Lemma global_packet t tag vs : typeTags t = [tag] -> 80 <= tag <= 82 ->
  forall pick m, onePacket up pick (Marshal t vs) m = handleGlobalPacket pick (Marshal t vs) m.
Proof.
  intros Ht Hr pick m. rewrite (Marshal_eq t vs tag []) by done. unfold onePacket. rewrite val_byte, Z.mod_small by lia.
  destruct (Z.eqb_spec tag 90); [lia|]. assert (tag = 80 \/ tag = 81 \/ tag = 82) as [->|[->| ->]] by lia; done.
Qed.

Lemma global_arrives pick name wantReply payload m :
  slen name + slen payload < 2 ^ 31 -> muxHalted m = false -> ended m = false -> (List.length (globalRequests m) < chanSize)%nat ->
  onePacket up pick (Marshal globalRequestMsg [VString name; VBool wantReply; VRest payload]) m =
    (set_globalRequests (globalRequests m ++ [mkRequest name wantReply payload]) m, [], Ok None).
Proof.
  intros Hs Hh He Hroom. pose proof (slen_nonneg name). pose proof (slen_nonneg payload).
  rewrite (global_packet _ 80) by (done || lia). unfold handleGlobalPacket. rewrite globals_typed.
  2:{ unfold wire_messages. set_solver. }
  2:{ repeat (apply Forall2_cons; split; [done|]). by apply Forall2_nil. }
  2:{ cbn [fields_bytes]. rewrite !slen_app, string_field_bytes by lia. rewrite slen_app, slen_be_bytes.
      change (slen (field_bytes (VBool wantReply))) with 1. change (field_bytes (VRest ?x)) with x. change (slen "") with 0. lia. }
  rewrite bool_decide_true by done. unfold offer. rewrite Hh, He. cbn [andb]. by rewrite (proj2 (Nat.ltb_lt _ _) Hroom).
Qed.

Definition global_answer (ok : bool) (data : string) : string :=
  Marshal (if ok then globalRequestSuccessMsg else globalRequestFailureMsg) [VRest data].

Lemma global_answered pick ok data m :
  slen data < 2 ^ 31 -> globalResponses m = [] -> muxHalted m = false -> ended m = false ->
  exists m', onePacket up pick (global_answer ok data) m = (m', [], Ok None) /\ mux_await_reply false m' = (m, Ok (ok, data, None)).
Proof.
  intros Hs Hg Hh He. unfold global_answer. set (t := if ok then globalRequestSuccessMsg else globalRequestFailureMsg).
  assert (onePacket up pick (Marshal t [VRest data]) m = handleGlobalPacket pick (Marshal t [VRest data]) m) as ->.
  { unfold t. destruct ok; [apply (global_packet _ 81)|apply (global_packet _ 82)]; done || lia. }
  unfold handleGlobalPacket. rewrite globals_typed.
  2:{ unfold wire_messages, t. destruct ok; set_solver. }
  2:{ unfold t. destruct ok; (apply Forall2_cons; split; [done|]); by apply Forall2_nil. }
  2:{ cbn [fields_bytes]. rewrite slen_app. change (field_bytes (VRest ?x)) with x. change (slen "") with 0. lia. }
  exists (set_globalResponses [(t, [VRest data])] m). unfold t. split.
  - destruct ok; (rewrite bool_decide_false by done; rewrite ?bool_decide_true by done; cbn [orb]; unfold offer; rewrite Hh, He, Hg; reflexivity).
  - unfold mux_await_reply. destruct m. cbn in Hg, Hh |- *. subst. by destruct ok.
Qed.

Section Ping.
Context {KeepAlivePing : Type} (UnmarshalMsg : string -> outcome KeepAlivePing) (MarshalMsg : KeepAlivePing -> string)
        (replied : Z -> KeepAlivePing -> KeepAlivePing).

(** A ping of the client comes back: the request reaches the server's loop, which
    answers it with the time at which it was received, and the answer ends the
    client's wait. *)
Theorem keepalive_roundtrip pick1 pick2 ping now mA mB :
  UnmarshalMsg (MarshalMsg ping) = Ok ping -> 0 < slen (MarshalMsg ping) < 2 ^ 30 -> slen (MarshalMsg (replied now ping)) < 2 ^ 30 ->
  globalResponses mA = [] -> muxHalted mA = false -> ended mA = false ->
  muxHalted mB = false -> ended mB = false -> (List.length (globalRequests mB) < chanSize)%nat ->
  exists p r mB1 q mA1,
    mux_SendRequest up keepalive_type true (MarshalMsg ping) = ([p], (true, None)) /\
    onePacket up pick1 p mB = (mB1, [], Ok None) /\ globalRequests mB1 = globalRequests mB ++ [r] /\
    (forall m, DiscardRequestsExceptKeepalives up UnmarshalMsg MarshalMsg replied now [Got r] m = (m, [q], false)) /\
    onePacket up pick2 q mA = (mA1, [], Ok None) /\
    (mux_await_reply false mA1).2 = Ok (true, MarshalMsg (replied now ping), None).
Proof.
  intros Hu Hs Hs' HgA HhA HeA HhB HeB Hroom.
  set (r := mkRequest keepalive_type true (MarshalMsg ping)).
  destruct (global_answered pick2 true (MarshalMsg (replied now ping)) mA) as (m' & E1 & E2); [lia|done..|].
  exists (Marshal globalRequestMsg [VString keepalive_type; VBool true; VRest (MarshalMsg ping)]), r. do 2 eexists. eexists. split; [done|].
  rewrite (global_arrives pick1) by (done || change (slen keepalive_type) with 37; lia).
  split; [reflexivity|]. split; [done|]. split.
  { intros m. cbn [DiscardRequestsExceptKeepalives]. change (WantReply r) with true. cbn iota. unfold answer_global, keepalive_answer.
    change (Type_ r) with keepalive_type. rewrite String.eqb_refl. change (Payload r) with (MarshalMsg ping).
    destruct (Z.eqb_spec (slen (MarshalMsg ping)) 0); [lia|]. cbn [negb orb]. rewrite Hu. reflexivity. }
  split; [exact E1|]. by rewrite E2.
Qed.
End Ping.

(** ** Concrete connections *)

Lemma not_custom : "direct-tcpip" ∉ [].
Proof. apply not_elem_of_nil. Qed.

Lemma dial_reaches_destination_witness :
  (exists mA1 p1 pa, dial_downstream up "10.0.0.7:80" (newMux false) = Ok (mA1, [p1], (pa, None))) /\
  (exists offer b p2, handleChannel up [] None true offer = Ok (b, [p2], [DialOut "tcp" "10.0.0.7:80"])) /\
  dial_target "10.0.0.7:80" = Ok ("10.0.0.7", 80).
Proof.
  destruct (dial_reaches_destination false false "10.0.0.7:80" (Tcp "10.0.0.7:80") "10.0.0.7" 80 [] None true (newMux false) (newMux false))
    as ((mA1 & p1 & pa & mB1 & pb & offer & b & p2 & mA2 & a & mA3 & H1 & _ & _ & _ & H5 & _) & H6);
    try apply newMux_ok; try exact not_custom; try reflexivity; try discriminate.
  - apply Nat.ltb_lt. reflexivity.
  - split; [by exists mA1, p1, pa|split; [exists offer, b, p2; exact H5|exact (proj2 (H6 _ eq_refl eq_refl))]].
Defined.

Lemma pty_request_spec_witness :
  session_request up (mkRequest "pty-req" false (be_bytes 4 2 +:+ "vt" +:+ be_bytes 4 80 +:+ be_bytes 4 24)) (offered "session" "" 0 0) =
    Ok (offered "session" "" 0 0, [], Some (mkWinsize 24 80)).
Proof.
  exact (pty_request_spec up (mkRequest "pty-req" false (be_bytes 4 2 +:+ "vt" +:+ be_bytes 4 80 +:+ be_bytes 4 24)) (offered "session" "" 0 0) eq_refl eq_refl).
Defined.

Lemma keepalive_roundtrip_witness :
  exists p r q mA1, mux_SendRequest up keepalive_type true "ping" = ([p], (true, None)) /\
    DiscardRequestsExceptKeepalives up (@Ok string) (fun x => x) (fun t x => x +:+ itoa t) 7 [Got r] (newMux false) = (newMux false, [q], false) /\
    (mux_await_reply false mA1).2 = Ok (true, "ping7", None).
Proof.
  destruct (keepalive_roundtrip (@Ok string) (fun x => x) (fun t x => x +:+ itoa t) false false "ping" 7 (newMux false) (newMux false))
    as (p & r & mB1 & q & mA1 & H1 & _ & _ & H4 & _ & H6); try reflexivity; try (split; reflexivity).
  - apply Nat.ltb_lt. reflexivity.
  - exists p, r, q, mA1. split; [exact H1|]. split; [apply H4|exact H6].
Defined.
