(* ===== verification/Session.v ===== *)
(** Sessions of the client (xendor/github.com/glycerine/xcryptossh/session.go): the
    requests of a session, its start, and how it learns what became of the remote
    command; against the server of [Direct] that takes them. *)
From S2P Require Import Prelude.
From S2P Require Import GoStrings.
From S2P Require Import Wire.
From S2P Require Import Flow.
From S2P Require Import Channel.
From S2P Require Import FlowControl.
From S2P Require Import Direct.

(** ** Data *)

(** What is copied while the command runs: the standard input that the user set or
    an empty one, the output, the errors. *)
Inductive copyFunc := CopyStdin (user : bool) | CopyStdout | CopyStderr.

(** A session: which streams are set, which are pipes. *)
Record Session := mkSession {
  ch : channel;
  started : bool;
  Stdin : bool;
  Stdout : bool;
  Stderr : bool;
  stdinpipe : bool;
  stdoutpipe : bool;
  stderrpipe : bool;
  copyFuncs : list copyFunc;
  stdinPipeWriter : bool;
}.

Definition newSession (c : channel) : Session := mkSession c false false false false false false false [] false.
Definition set_ch (c : channel) (s : Session) : Session :=
  mkSession c (started s) (Stdin s) (Stdout s) (Stderr s) (stdinpipe s) (stdoutpipe s) (stderrpipe s) (copyFuncs s) (stdinPipeWriter s).
Definition set_streams (i o e : bool) (s : Session) : Session :=
  mkSession (ch s) (started s) i o e (stdinpipe s) (stdoutpipe s) (stderrpipe s) (copyFuncs s) (stdinPipeWriter s).
Definition set_pipes (i o e : bool) (s : Session) : Session :=
  mkSession (ch s) (started s) (Stdin s) (Stdout s) (Stderr s) i o e (copyFuncs s) (stdinPipeWriter s).

Definition setenvRequest : msg_type := mkType "setenvRequest" [] [("Name", KString); ("Value", KString)].
Definition ptyRequestMsg : msg_type := mkType "ptyRequestMsg" []
  [("Term", KString); ("Columns", KUint32); ("Rows", KUint32); ("Width", KUint32); ("Height", KUint32); ("Modelist", KString)].
Definition subsystemRequestMsg : msg_type := mkType "subsystemRequestMsg" [] [("Subsystem", KString)].
Definition ptyWindowChangeMsg : msg_type := mkType "ptyWindowChangeMsg" []
  [("Columns", KUint32); ("Rows", KUint32); ("Width", KUint32); ("Height", KUint32)].
Definition signalMsg : msg_type := mkType "signalMsg" [] [("Signal", KString)].
Definition execMsg : msg_type := mkType "execMsg" [] [("Command", KString)].
(** The struct of an exit-signal. *)
Definition sigval : msg_type := mkType "" [] [("Signal", KString); ("CoreDumped", KBool); ("Error", KString); ("Lang", KString)].
(** A terminal mode. *)
Definition kv : msg_type := mkType "" [] [("Key", KUint8); ("Val", KUint32)].

Definition signals (s : string) : option Z :=
  if (s =? "ABRT")%string then Some 6 else if (s =? "ALRM")%string then Some 14 else if (s =? "FPE")%string then Some 8
  else if (s =? "HUP")%string then Some 1 else if (s =? "ILL")%string then Some 4 else if (s =? "INT")%string then Some 2
  else if (s =? "KILL")%string then Some 9 else if (s =? "PIPE")%string then Some 13 else if (s =? "QUIT")%string then Some 3
  else if (s =? "SEGV")%string then Some 11 else if (s =? "TERM")%string then Some 15 else None.

(** The list of modes, ended by tty_OP_END; a map is ranged over in some order. *)
Definition modelist (termmodes : list (Z * Z)) : string :=
  Buffer.concat (map (fun '(k, v) => Marshal kv [VUint8 k; VUint32 v]) termmodes) +:+ String (byte 0) "".

Section Transport.
Context (conn : string -> option string).
(** The wait of SendRequest for the answer. *)
Context (await : channel -> channel * outcome (bool * error_)).

(** What an operation leaves: the session, the packets, the error. *)
Definition done_ := (Session * list string * outcome error_)%type.

(** [Channel.SendRequest] of a session, all of it. *)
Definition request (name : string) (wantReply : bool) (payload : string) (s : Session)
  : Session * list string * outcome (bool * error_) :=
  let '(c, sent, (waits, e)) := SendRequest conn name wantReply payload (ch s) in
  match e with
  | Some e => (set_ch c s, sent, Ok (false, Some e))
  | None =>
      if waits then let '(c, r) := await c in (set_ch c s, sent, r)
      else (set_ch c s, sent, Ok (false, None))
  end.

(** A refusal is an error. *)
Definition unless_ok (text : string) (r : outcome (bool * error_)) : outcome error_ :=
  let? '(ok, e) := r in
  Ok (match e with Some e => Some e | None => if ok then None else Some text end).

Definition Setenv (name value : string) (s : Session) : done_ :=
  let '(s, sent, r) := request "env" true (Marshal setenvRequest [VString name; VString value]) s in
  (s, sent, unless_ok "ssh: setenv failed" r).

Definition pty_payload (term : string) (h w : Z) (termmodes : list (Z * Z)) : string :=
  Marshal ptyRequestMsg [VString term; VUint32 (to_uint32 w); VUint32 (to_uint32 h); VUint32 (to_uint32 (to_int64 (w * 8)));
    VUint32 (to_uint32 (to_int64 (h * 8))); VString (modelist termmodes)].
Definition RequestPty (term : string) (h w : Z) (termmodes : list (Z * Z)) (s : Session) : done_ :=
  let '(s, sent, r) := request "pty-req" true (pty_payload term h w termmodes) s in
  (s, sent, unless_ok "ssh: pty-req failed" r).

Definition RequestSubsystem (subsystem : string) (s : Session) : done_ :=
  let '(s, sent, r) := request "subsystem" true (Marshal subsystemRequestMsg [VString subsystem]) s in
  (s, sent, unless_ok "ssh: subsystem request failed" r).

Definition WindowChange (h w : Z) (s : Session) : done_ :=
  let '(s, sent, r) := request "window-change" false
    (Marshal ptyWindowChangeMsg [VUint32 (to_uint32 w); VUint32 (to_uint32 h); VUint32 (to_uint32 (to_int64 (w * 8)));
       VUint32 (to_uint32 (to_int64 (h * 8)))]) s in
  (s, sent, let? '(_, e) := r in Ok e).

Definition Signal (sig : string) (s : Session) : done_ :=
  let '(s, sent, r) := request "signal" false (Marshal signalMsg [VString sig]) s in
  (s, sent, let? '(_, e) := r in Ok e).

(** [start]: what has no pipe is copied. *)
Definition start (s : Session) : Session :=
  let stdin := if stdinpipe s then [] else [CopyStdin (Stdin s)] in
  let stdout := if stdoutpipe s then [] else [CopyStdout] in
  let stderr := if stderrpipe s then [] else [CopyStderr] in
  mkSession (ch s) true (Stdin s) (Stdout s || negb (stdoutpipe s)) (Stderr s || negb (stderrpipe s))
    (stdinpipe s) (stdoutpipe s) (stderrpipe s) (copyFuncs s ++ stdin ++ stdout ++ stderr)
    (stdinPipeWriter s || (negb (stdinpipe s) && Stdin s)).

Definition already_started : string := "ssh: session already started".

(** A request that starts the session when it is granted. *)
Definition start_with (name payload text : string) (s : Session) : done_ :=
  if started s then (s, [], Ok (Some already_started))
  else
    let '(s, sent, r) := request name true payload s in
    match unless_ok text r with
    | Ok None => (start s, sent, Ok None)
    | r => (s, sent, r)
    end.

Definition Start (cmd : string) (s : Session) : done_ :=
  start_with "exec" (Marshal execMsg [VString cmd]) ("ssh: command " +:+ cmd +:+ " failed") s.
Definition Shell (s : Session) : done_ := start_with "shell" "" "ssh: could not start shell" s.

(** *** Pipes *)

Definition StdinPipe (s : Session) : Session * error_ :=
  if Stdin s then (s, Some "ssh: Stdin already set")
  else if started s then (s, Some "ssh: StdinPipe after process started")
  else (set_pipes true (stdoutpipe s) (stderrpipe s) s, None).
Definition StdoutPipe (s : Session) : Session * error_ :=
  if Stdout s then (s, Some "ssh: Stdout already set")
  else if started s then (s, Some "ssh: StdoutPipe after process started")
  else (set_pipes (stdinpipe s) true (stderrpipe s) s, None).
Definition StderrPipe (s : Session) : Session * error_ :=
  if Stderr s then (s, Some "ssh: Stderr already set")
  else if started s then (s, Some "ssh: StderrPipe after process started")
  else (set_pipes (stdinpipe s) (stdoutpipe s) true s, None).

(** *** The end of the command *)

Record Waitmsg := mkWait { status : Z; signal : string; wmsg : string; lang : string }.

(** What [wait] returns: nil, an ExitMissingError, an ExitError, another error. *)
Inductive exit_result := ExitOk | ExitMissing | ExitError (wm : Waitmsg) | WaitFailed (e : string).

(** The loop of [wait] over the requests of the channel. *)
Fixpoint wait_loop (reqs : list Request) (wm : Waitmsg) (c : channel) : channel * list string * outcome (Waitmsg + string) :=
  match reqs with
  | [] => (c, [], Ok (inl wm))
  | msg :: reqs =>
      if (Type_ msg =? "exit-status")%string then
        match Uint32 (Payload msg) with
        | Ok n => wait_loop reqs (mkWait n (signal wm) (wmsg wm) (lang wm)) c
        | Err e => (c, [], Err e)
        | Panic s => (c, [], Panic s)
        | Blocked => (c, [], Blocked)
        end
      else if (Type_ msg =? "exit-signal")%string then
        match Unmarshal (Payload msg) sigval with
        | Ok [VString sig; VBool _; VString e; VString l] => wait_loop reqs (mkWait (status wm) sig e l) c
        | Ok _ => (c, [], Panic "unreachable")
        | Err e => (c, [], Ok (inr e))
        | Panic s => (c, [], Panic s)
        | Blocked => (c, [], Blocked)
        end
      else
        let '(c, sent, _) := request_reply conn false msg c in
        let '(c, sent', r) := wait_loop reqs wm c in (c, sent ++ sent', r)
  end.

Definition exit_of (wm : Waitmsg) : exit_result :=
  if status wm =? 0 then ExitOk
  else if status wm =? -1 then
    if (signal wm =? "")%string then ExitMissing
    else
      ExitError (mkWait (128 + match signals (signal wm) with Some n => n | None => 0 end) (signal wm) (wmsg wm) (lang wm))
  else ExitError wm.

Definition wait (reqs : list Request) (c : channel) : channel * list string * outcome exit_result :=
  let '(c, sent, r) := wait_loop reqs (mkWait (-1) "" "" "") c in
  (c, sent, let? r := r in Ok (match r with inl wm => exit_of wm | inr e => WaitFailed e end)).
End Transport.

Definition exit_text (r : exit_result) : error_ :=
  match r with
  | ExitOk => None
  | ExitMissing => Some "wait: remote command exited without exit status or exit signal"
  | ExitError wm =>
      Some ("Process exited with status " +:+ itoa (status wm) +:+
            (if (signal wm =? "")%string then "" else " from signal " +:+ signal wm) +:+
            (if (wmsg wm =? "")%string then "" else ". Reason was: " +:+ wmsg wm))
  | WaitFailed e => Some e
  end.

(** What [Wait] meets while it waits for a copy: its error, or the end of the
    channel. *)
Inductive copied := Copied (e : error_) | ChannelDone.

Fixpoint collect (copies : list copyFunc) (l : list copied) (copyError : error_) : outcome (error_ + error_) :=
  match copies, l with
  | [], _ => Ok (inr copyError)
  | _ :: _, ChannelDone :: _ => Ok (inl (Some EOF))
  | _ :: copies, Copied e :: l => collect copies l (match copyError with None => e | _ => copyError end)
  | _ :: _, [] => Blocked
  end.

(** [Wait]: [exit] is what [wait] sent, or the end of the channel; the close of the
    pipe is told by the flag. *)
Definition Wait (exit : option exit_result) (l : list copied) (s : Session) : bool * outcome error_ :=
  if negb (started s) then (false, Ok (Some "ssh: session not started"))
  else
    match exit with
    | None => (false, Ok (Some EOF))
    | Some r =>
        (stdinPipeWriter s,
         let? c := collect (copyFuncs s) l None in
         Ok (match c with
             | inl e => e
             | inr copyError => match exit_text r with Some e => Some e | None => copyError end
             end))
    end.

(** [Run], [Output] and [CombinedOutput], by what they do before. *)
Definition Run conn await (cmd : string) (exit : option exit_result) (l : list copied) (s : Session) : done_ :=
  match Start conn await cmd s with
  | (s, sent, Ok None) => (s, sent, (Wait exit l s).2)
  | r => r
  end.
Definition Output conn await (cmd : string) (exit : option exit_result) (l : list copied) (s : Session) : done_ :=
  if Stdout s then (s, [], Ok (Some "ssh: Stdout already set"))
  else Run conn await cmd exit l (set_streams (Stdin s) true (Stderr s) s).
Definition CombinedOutput conn await (cmd : string) (exit : option exit_result) (l : list copied) (s : Session) : done_ :=
  if Stdout s then (s, [], Ok (Some "ssh: Stdout already set"))
  else if Stderr s then (s, [], Ok (Some "ssh: Stderr already set"))
  else Run conn await cmd exit l (set_streams (Stdin s) true true s).

(** ** What became of the command *)

Definition well_formed (r : Request) : Prop :=
  (Type_ r = "exit-status" -> 4 <= slen (Payload r)) /\
  (Type_ r = "exit-signal" -> exists sig core e l, Unmarshal (Payload r) sigval = Ok [VString sig; VBool core; VString e; VString l]).

(** What one request tells. *)
Definition told (wm : Waitmsg) (r : Request) : Waitmsg :=
  if (Type_ r =? "exit-status")%string then mkWait (be (stake 4 (Payload r))) (signal wm) (wmsg wm) (lang wm)
  else if (Type_ r =? "exit-signal")%string then
    match Unmarshal (Payload r) sigval with
    | Ok [VString sig; VBool _; VString e; VString l] => mkWait (status wm) sig e l
    | _ => wm
    end
  else wm.

Lemma wait_loop_told conn reqs wm c :
  Forall well_formed reqs -> (wait_loop conn reqs wm c).2 = Ok (inl (fold_left told reqs wm)).
Proof.
  intros H. revert wm c. induction H as [|r reqs [Hs Hg] _ IH]; intros wm c; [done|]. cbn [wait_loop fold_left]. unfold told at 2.
  destruct (String.eqb_spec (Type_ r) "exit-status") as [E|_].
  - rewrite Uint32_ok by auto. apply IH.
  - destruct (String.eqb_spec (Type_ r) "exit-signal") as [E|_].
    + destruct (Hg E) as (sig & core & e & l & ->). apply IH.
    + destruct (request_reply _ _ _ _) as [[c1 s1] e1]. specialize (IH wm c1). destruct (wait_loop conn reqs wm c1) as [[c2 s2] r2]. exact IH.
Qed.

Lemma told_keeps reqs wm :
  (Forall (fun r => Type_ r <> "exit-status") reqs -> status (fold_left told reqs wm) = status wm) /\
  (Forall (fun r => Type_ r <> "exit-signal") reqs -> signal (fold_left told reqs wm) = signal wm).
Proof.
  revert wm. induction reqs as [|r reqs IH]; intros wm; [done|]. cbn [fold_left]. destruct (IH (told wm r)) as [I1 I2].
  split; intros H; apply Forall_cons in H as [Hr H]; [rewrite I1 by done|rewrite I2 by done]; unfold told.
  - rewrite (proj2 (String.eqb_neq _ _) Hr). by repeat case_match.
  - destruct (Type_ r =? "exit-status")%string; [done|]. by rewrite (proj2 (String.eqb_neq _ _) Hr).
Qed.

(** All that the requests of a session tell. *)
Definition all_told (reqs : list Request) : Waitmsg := fold_left told reqs (mkWait (-1) "" "" "").

Lemma wait_told conn reqs c : Forall well_formed reqs -> (wait conn reqs c).2 = Ok (exit_of (all_told reqs)).
Proof.
  intros Hwf. unfold wait. pose proof (wait_loop_told conn reqs (mkWait (-1) "" "" "") c Hwf) as HW.
  destruct (wait_loop _ _ _ _) as [[c1 s1] res]. cbn [snd] in HW. by subst res.
Qed.

Lemma status_last before r after :
  Type_ r = "exit-status" -> Forall (fun r => Type_ r <> "exit-status") after ->
  status (all_told (before ++ r :: after)) = be (stake 4 (Payload r)).
Proof.
  intros Hr Ha. unfold all_told. rewrite fold_left_app. cbn [fold_left]. rewrite (proj1 (told_keeps after _)) by done.
  unfold told. by rewrite Hr.
Qed.
Lemma signal_last before r after sig core e l :
  Type_ r = "exit-signal" -> Unmarshal (Payload r) sigval = Ok [VString sig; VBool core; VString e; VString l] ->
  Forall (fun r => Type_ r <> "exit-signal") after -> signal (all_told (before ++ r :: after)) = sig.
Proof.
  intros Hr Hu Ha. unfold all_told. rewrite fold_left_app. cbn [fold_left]. rewrite (proj2 (told_keeps after _)) by done.
  unfold told. by rewrite Hr, Hu.
Qed.

(** A request that cannot be read: a status of fewer than four bytes, or a signal that
    is not encoded as the RFC says. *)
Lemma ill_formed r : ~ well_formed r ->
  Type_ r = "exit-status" /\ slen (Payload r) < 4 \/
  Type_ r = "exit-signal" /\ exists e, Unmarshal (Payload r) sigval = Err e.
Proof.
  intros H. destruct (decide (Type_ r = "exit-status")) as [E|E].
  - left. split; [done|]. destruct (Z.lt_ge_cases (slen (Payload r)) 4) as [|Hs]; [done|]. exfalso. apply H. split; [done|by rewrite E].
  - right. destruct (decide (Type_ r = "exit-signal")) as [E'|E']; [|exfalso; by apply H]. split; [done|].
    pose proof (Unmarshal_fields (Payload r) sigval ltac:(done)) as HU. destruct (Unmarshal (Payload r) sigval) as [vs|e| |] eqn:Eu; try done; [|by exists e].
    exfalso. apply H. split; [done|]. intros _. unfold fields_of in HU. cbn in HU.
    repeat (apply Forall2_cons_inv_l in HU as (? & ? & ? & HU & ->)). apply Forall2_nil_inv_l in HU as ->.
    repeat match goal with Hk : has_kind _ ?v = true |- _ => destruct v; try discriminate Hk; clear Hk end. by do 4 eexists.
Qed.

Lemma wait_loop_skip conn before rest wm c : Forall well_formed before ->
  exists wm' c', (wait_loop conn (before ++ rest) wm c).2 = (wait_loop conn rest wm' c').2.
Proof.
  intros H. revert wm c. induction H as [|x before [Hx Hg] _ IH]; intros wm c; [by exists wm, c|]. cbn [app wait_loop].
  destruct (String.eqb_spec (Type_ x) "exit-status") as [E|_].
  - rewrite Uint32_ok by auto. apply IH.
  - destruct (String.eqb_spec (Type_ x) "exit-signal") as [E|_].
    + destruct (Hg E) as (sig & core & e & l & ->). apply IH.
    + destruct (request_reply _ _ _ _) as [[c1 s1] e1]. destruct (IH wm c1) as (wm' & c' & E). exists wm', c'. rewrite <- E.
      by destruct (wait_loop conn (before ++ rest) wm c1) as [[c2 s2] r2].
Qed.

(** The first request that cannot be read ends the wait: a status stops the client,
    a signal is the error of the wait, whatever status the server sends or sent. *)
Lemma wait_ill_formed conn before r after c : Forall well_formed before -> ~ well_formed r ->
  (wait conn (before ++ r :: after) c).2 = Panic "index out of range" /\ Type_ r = "exit-status" \/
  exists e, (wait conn (before ++ r :: after) c).2 = Ok (WaitFailed e) /\ Type_ r = "exit-signal" /\ Unmarshal (Payload r) sigval = Err e.
Proof.
  intros Hb Hr. unfold wait. destruct (wait_loop_skip conn before (r :: after) (mkWait (-1) "" "" "") c Hb) as (wm & c' & E).
  destruct (wait_loop conn (before ++ r :: after) _ c) as [[c1 s1] res]. cbn [snd] in *. subst res. cbn [wait_loop].
  destruct (ill_formed r Hr) as [[-> Hs]|[-> (e & ->)]].
  - left. split; [|done]. change (("exit-status" =? "exit-status")%string) with true. cbn iota. unfold Uint32. by rewrite (proj2 (Z.ltb_lt _ _) Hs).
  - right. exists e. by split_and!.
Qed.

(** C29: What became of a command is told by the last status that the server sent,
    whatever signals came before or after it: nil for 0, an error with that status
    otherwise. Without any status the last signal counts, as 128 and its number, if it
    has a name; without either, or with a signal of the empty name, the error says
    that neither came. All this is when each of the requests can be read. The first
    one that cannot be read ends the wait: a status of fewer than four bytes with a
    panic of the client, a malformed signal with the error of its decoding. *)
Theorem wait_reports_last conn reqs c :
  (Forall well_formed reqs ->
    (forall before r after, reqs = before ++ r :: after -> Type_ r = "exit-status" -> Forall (fun r => Type_ r <> "exit-status") after ->
       let n := be (stake 4 (Payload r)) in
       (wait conn reqs c).2 = Ok ExitOk /\ n = 0 \/ exists wm, (wait conn reqs c).2 = Ok (ExitError wm) /\ status wm = n /\ n <> 0) /\
    (Forall (fun r => Type_ r <> "exit-status") reqs ->
       forall before r after sig core e l, reqs = before ++ r :: after -> Type_ r = "exit-signal" ->
       Forall (fun r => Type_ r <> "exit-signal") after ->
       Unmarshal (Payload r) sigval = Ok [VString sig; VBool core; VString e; VString l] ->
       if (sig =? "")%string then (wait conn reqs c).2 = Ok ExitMissing
       else exists wm, (wait conn reqs c).2 = Ok (ExitError wm) /\ signal wm = sig /\
         status wm = 128 + match signals sig with Some n => n | None => 0 end) /\
    (Forall (fun r => Type_ r <> "exit-status" /\ Type_ r <> "exit-signal") reqs -> (wait conn reqs c).2 = Ok ExitMissing)) /\
  (forall before r after, reqs = before ++ r :: after -> Forall well_formed before -> ~ well_formed r ->
     (wait conn reqs c).2 = Panic "index out of range" /\ Type_ r = "exit-status" \/
     exists e, (wait conn reqs c).2 = Ok (WaitFailed e) /\ Type_ r = "exit-signal" /\ Unmarshal (Payload r) sigval = Err e).
Proof.
  split; [|intros before r after ->; apply wait_ill_formed].
  intros Hwf. rewrite (wait_told conn reqs c Hwf). split_and!.
  - intros before r after -> Hr Ha n. pose proof (status_last before r after Hr Ha) as Hs. fold n in Hs.
    apply Forall_app in Hwf as [_ [Hl _]%Forall_cons]. destruct Hl as [Hl _]. specialize (Hl Hr).
    pose proof (be_stake_range 4 (Payload r) ltac:(unfold slen in Hl; lia)) as Hn. fold n in Hn. unfold exit_of. rewrite Hs.
    destruct (Z.eqb_spec n 0); [by left|]. destruct (Z.eqb_spec n (-1)); [lia|]. right. by eexists.
  - intros Hno before r after sig core e l -> Hr Ha Hu. pose proof (signal_last before r after sig core e l Hr Hu Ha) as Hs.
    pose proof (proj1 (told_keeps (before ++ r :: after) (mkWait (-1) "" "" "")) Hno) as Hst. fold (all_told (before ++ r :: after)) in Hst.
    unfold exit_of. rewrite Hst, Hs. cbn [status Z.eqb]. destruct (sig =? "")%string; [done|by eexists].
  - intros Hno. unfold exit_of. pose proof (told_keeps reqs (mkWait (-1) "" "" "")) as [K1 K2]. fold (all_told reqs) in K1, K2.
    rewrite K1, K2; [done|eapply Forall_impl; [exact Hno|by intros ? []]..].
Qed.

(** ** Requests between a client and a server *)

(** The two ends of an accepted channel, with nothing under way. *)
Record talking (a b : channel) : Prop := mkTalking {
  a_decided : decided a = true; b_decided : decided b = true;
  a_open : sentClose a = false; b_open : sentClose b = false;
  a_live : halted a = false /\ down a = false; b_live : halted b = false /\ down b = false;
  a_quiet : msg a = []; b_room : (List.length (incomingRequests b) < chanSize)%nat;
  a_id : in_uint32 (remoteId a); b_id : in_uint32 (remoteId b);
}.

Definition request_packet (id : Z) (name : string) (wantReply : bool) (payload : string) : string :=
  Marshal channelRequestMsg [VUint32 id; VString name; VBool wantReply; VRest payload].

Lemma request_sent name wantReply payload a :
  decided a = true -> sentClose a = false -> in_uint32 (remoteId a) ->
  SendRequest up name wantReply payload a = (note [WOK] (set_sentClose false a), [request_packet (remoteId a) name wantReply payload], (wantReply, None)).
Proof.
  intros Hd Hs Hid. unfold SendRequest. rewrite Hd. cbn [negb]. unfold sendMessage, writePacket.
  rewrite (put_id_first _ 98), Hs by done. cbn [up]. fold (request_packet (remoteId a) name wantReply payload). done.
Qed.

Lemma request_arrives pick id name wantReply payload b :
  in_uint32 id -> slen name + slen payload < 2 ^ 31 -> halted b = false -> down b = false ->
  (List.length (incomingRequests b) < chanSize)%nat ->
  handlePacket up false pick (request_packet id name wantReply payload) b =
    (set_incomingRequests (incomingRequests b ++ [mkRequest name wantReply payload]) (note [ROK] b), [], [], Ok None).
Proof.
  intros Hid Hl Hh Hd Hroom. unfold handlePacket, request_packet. rewrite decode_Marshal.
  2:{ unfold wire_messages. set_solver. }
  2:{ pose proof (slen_nonneg name). pose proof (slen_nonneg payload). split; [repeat (apply Forall2_cons; split; [done|]); by apply Forall2_nil|].
      cbn [fields_bytes]. rewrite !slen_app, string_field_bytes by lia. rewrite slen_app, slen_be_bytes.
      change (slen (field_bytes (VUint32 id))) with 4. change (slen (field_bytes (VBool wantReply))) with 1.
      change (field_bytes (VRest ?x)) with x. change (slen "") with 0. lia. }
  replace (first_byte (Marshal channelRequestMsg _)) with 98 by done. cbn [Z.eqb Pos.eqb orb]. unfold handleMessage.
  do 3 rewrite (bool_decide_false (channelRequestMsg = _)) by done. rewrite bool_decide_true by done.
  assert (halted (note [ROK] b) = halted b /\ down (note [ROK] b) = down b /\ incomingRequests (note [ROK] b) = incomingRequests b)
    as (-> & -> & ->) by by destruct b.
  unfold offer. rewrite Hh, Hd. cbn [orb andb]. by rewrite (proj2 (Nat.ltb_lt _ _) Hroom).
Qed.

(** An answer to a request and its arrival at the one who waits. *)
Definition answer_packet (ok : bool) (id : Z) : string :=
  Marshal (if ok then channelRequestSuccessMsg else channelRequestFailureMsg) [VUint32 id].

Lemma reply_sent ok r b :
  decided b = true -> sentClose b = false -> in_uint32 (remoteId b) -> WantReply r = true ->
  request_reply up ok r b = (note [WOK] (set_sentClose false b), [answer_packet ok (remoteId b)], None).
Proof.
  intros Hd Hs Hid Hw. unfold request_reply. rewrite Hw. cbn [negb]. unfold ackRequest. rewrite Hd. cbn [negb].
  unfold sendMessage, writePacket. destruct ok; [rewrite (put_id_first _ 99) by done|rewrite (put_id_first _ 100) by done]; by rewrite Hs.
Qed.

Lemma answer_awaited pick ok id a :
  in_uint32 id -> halted a = false -> down a = false -> msg a = [] ->
  exists a', handlePacket up false pick (answer_packet ok id) a = (a', [], [], Ok None) /\
    (await_reply false false a').2 = Ok (ok, None).
Proof.
  intros Hid Hh Hd Hm. unfold handlePacket, answer_packet.
  assert (decode (Marshal (if ok then channelRequestSuccessMsg else channelRequestFailureMsg) [VUint32 id]) =
          Ok (if ok then channelRequestSuccessMsg else channelRequestFailureMsg, [VUint32 id])) as ->.
  { apply decode_Marshal; [unfold wire_messages; destruct ok; set_solver|].
    split; [destruct ok; repeat (apply Forall2_cons; split; [done|]); by apply Forall2_nil|]. reflexivity. }
  assert (halted (note [ROK] a) = halted a /\ down (note [ROK] a) = down a /\ msg (note [ROK] a) = msg a)
    as (E1 & E2 & E3) by by destruct a.
  replace (first_byte (Marshal _ _)) with (if ok then 99 else 100) by by destruct ok.
  set (m := (if ok then channelRequestSuccessMsg else channelRequestFailureMsg, [VUint32 id])).
  assert (handleMessage false pick m (note [ROK] a) = (set_msg [m] (note [ROK] a), [], [], Ok None)) as HP.
  { unfold handleMessage, m. destruct ok; do 4 rewrite bool_decide_false by done; unfold put_msg, offer; by rewrite E1, E2, E3, Hh, Hd, Hm. }
  exists (set_msg [m] (note [ROK] a)). split; [destruct ok; exact HP|]. unfold await_reply.
  assert (forall l, halted (set_msg l (note [ROK] a)) = halted a /\ msg (set_msg l (note [ROK] a)) = l) as Hf by by destruct a.
  rewrite (proj1 (Hf _)), (proj2 (Hf _)), Hh. cbn [orb andb]. by destruct ok.
Qed.

Lemma sent_fields c l : 
  let c' := note l (set_sentClose false c) in
  decided c' = decided c /\ sentClose c' = false /\ remoteId c' = remoteId c /\ halted c' = halted c /\ down c' = down c /\ msg c' = msg c /\
  incomingRequests c' = incomingRequests c.
Proof. by destruct c. Qed.
Lemma got_fields c l r :
  let c' := set_incomingRequests r (note l c) in
  decided c' = decided c /\ sentClose c' = sentClose c /\ remoteId c' = remoteId c.
Proof. by destruct c. Qed.

(** A request of the client, what the server makes of it, and the answer. *)
Lemma request_answered pick1 pick2 name payload a b :
  talking a b -> slen name + slen payload < 2 ^ 31 ->
  let r := mkRequest name true payload in
  let p := request_packet (remoteId a) name true payload in
  exists a1 b1, SendRequest up name true payload a = (a1, [p], (true, None)) /\
    handlePacket up false pick1 p b = (b1, [], [], Ok None) /\ incomingRequests b1 = incomingRequests b ++ [r] /\
    (await_reply false false a1).2 = Blocked /\
    forall ok, exists b2 a2, request_reply up ok r b1 = (b2, [answer_packet ok (remoteId b)], None) /\
      handlePacket up false pick2 (answer_packet ok (remoteId b)) a1 = (a2, [], [], Ok None) /\
      (await_reply false false a2).2 = Ok (ok, None).
Proof.
  intros [] Hl r p. destruct a_live0, b_live0. rewrite request_sent by done. eexists _, _. split; [reflexivity|].
  unfold p. rewrite (request_arrives pick1) by done. split; [reflexivity|]. split; [by destruct b|].
  destruct (sent_fields a [WOK]) as (F1 & F2 & F3 & F4 & F5 & F6 & F7).
  destruct (got_fields b [ROK] (incomingRequests b ++ [mkRequest name true payload])) as (G1 & G2 & G3). split.
  - unfold await_reply. rewrite F4, F5, F6, a_quiet0. destruct (halted a); [done|]. by destruct (down a).
  - intros ok. destruct (answer_awaited pick2 ok (remoteId b) (note [WOK] (set_sentClose false a))) as (a2 & E1 & E2); [done|congruence..|].
    eexists _, a2. split; [|done]. rewrite reply_sent; [by rewrite G3|congruence..|done].
Qed.

(** *** The size of the terminal *)

Lemma get_app_l n a b : (n < String.length a)%nat -> String.get n (a +:+ b) = String.get n a.
Proof. revert n. induction a as [|c a IH]; intros [|n] H; simpl in *; try lia; [done|]. apply IH. lia. Qed.

Lemma get_be_bytes_3 n : String.get 3 (be_bytes 4 n) = Some (byte n).
Proof. cbn [be_bytes String.get]. by rewrite Z.shiftr_0_r. Qed.

Lemma pty_payload_eq term h w modes :
  slen term < 2 ^ 32 ->
  exists rest, pty_payload term h w modes =
    be_bytes 4 (slen term) +:+ (term +:+ (be_bytes 4 (to_uint32 w) +:+ (be_bytes 4 (to_uint32 h) +:+ rest))).
Proof.
  intros H. unfold pty_payload, Marshal, marshalStruct. cbn [typeTags ptyRequestMsg]. rewrite fold_marshalField.
  cbn [fields_bytes]. rewrite string_field_bytes by done. eexists. by rewrite string_app_assoc.
Qed.

Lemma pty_payload_dims term h w modes :
  slen term < 252 -> pty_dims (pty_payload term h w modes) = Ok (to_uint32 w, to_uint32 h).
Proof.
  intros Ht. pose proof (slen_nonneg term). destruct (pty_payload_eq term h w modes ltac:(lia)) as [rest ->]. unfold pty_dims.
  rewrite get_app_l, get_be_bytes_3 by (rewrite be_bytes_length; lia). rewrite val_byte, (Z.mod_small (slen term)), Z.mod_small by lia.
  rewrite !slen_app, !slen_be_bytes. pose proof (slen_nonneg rest). rewrite (proj2 (Z.ltb_ge _ _)) by lia.
  replace (Z.to_nat (slen term + 4)) with (String.length (be_bytes 4 (slen term) +:+ term)) by (rewrite string_app_length, be_bytes_length; unfold slen; lia).
  rewrite <- (string_app_assoc (be_bytes 4 (slen term)) term), sdrop_app.
  pose proof (parseDims_spec (be_bytes 4 (to_uint32 w) +:+ (be_bytes 4 (to_uint32 h) +:+ rest))) as HD.
  rewrite !slen_app, !slen_be_bytes in HD. rewrite (proj2 (Z.leb_le 8 _)) in HD by lia. rewrite HD.
  rewrite sdrop_app_len, !stake_app_len by apply be_bytes_length.
  pose proof (to_uint32_range w). pose proof (to_uint32_range h). by rewrite !be_be_bytes.
Qed.

Lemma SetWinsize_uint32 w h : SetWinsize (to_uint32 w) (to_uint32 h) = SetWinsize w h.
Proof. unfold SetWinsize, to_uint32. f_equal; by rewrite <- (Znumtheory.Zmod_div_mod (2 ^ 16) (2 ^ 32)) by (done || by exists (2 ^ 16)). Qed.

(** The channel of the one who waits, after a packet. *)
Definition arrived (pick : bool) (q : string) (c : channel) : channel := (handlePacket up false pick q c).1.1.1.

(** A terminal that the client asks for is the one that the server makes: the
    request that RequestPty sends is read by the server with the same height and
    width (in the 16 bits that a terminal has), and its answer ends the call
    without an error, for every name of a terminal of fewer than 252 bytes. *)
Theorem pty_reaches_server pick1 pick2 term h w modes a b :
  talking a b -> slen term < 252 -> slen (pty_payload term h w modes) < 2 ^ 30 ->
  exists s p b1 r b2 q,
    RequestPty up (fun c => await_reply false false (arrived pick2 q c)) term h w modes (newSession a) = (s, [p], Ok None) /\
    handlePacket up false pick1 p b = (b1, [], [], Ok None) /\ incomingRequests b1 = incomingRequests b ++ [r] /\
    session_request up r b1 = Ok (b2, [q], Some (mkWinsize (h mod 2 ^ 16) (w mod 2 ^ 16))).
Proof.
  intros Hab Ht Hl.
  destruct (request_answered pick1 pick2 "pty-req" (pty_payload term h w modes) a b Hab) as (a1 & b1 & E1 & E2 & E3 & _ & E4);
    [change (slen "pty-req") with 7; lia|].
  destruct (E4 true) as (b2 & a2 & E5 & E6 & E7). destruct (await_reply false false a2) as [a3 res] eqn:E8. cbn [snd] in E7. subst res.
  exists (set_ch a3 (newSession a)), (request_packet (remoteId a) "pty-req" true (pty_payload term h w modes)), b1,
    (mkRequest "pty-req" true (pty_payload term h w modes)), b2, (answer_packet true (remoteId b)).
  split; [|split; [exact E2|split; [exact E3|]]].
  - unfold RequestPty, request. change (ch (newSession a)) with a. rewrite E1. unfold arrived. rewrite E6. cbn [fst]. by rewrite E8.
  - unfold session_request. cbn [Type_ Payload]. change (("pty-req" =? "shell")%string) with false. change (("pty-req" =? "pty-req")%string) with true.
    cbn iota. rewrite pty_payload_dims by done. cbn [obind]. rewrite E5, SetWinsize_uint32. reflexivity.
Qed.

(** A name of 252 bytes is taken for the dimensions. *)
Example long_terminal_name :
  pty_dims (pty_payload (string_of_list_ascii (repeat "x"%char 252)) 24 80 []) = Ok (252, be "xxxx").
Proof. vm_compute. reflexivity. Qed.

(** A command is never started on a server of this program: the server leaves the
    request without an answer, and Start waits for one. *)
Theorem exec_never_answered pick cmd a b :
  talking a b -> slen cmd < 2 ^ 30 ->
  exists s p b1 r,
    Start up (await_reply false false) cmd (newSession a) = (s, [p], Blocked) /\
    handlePacket up false pick p b = (b1, [], [], Ok None) /\ incomingRequests b1 = incomingRequests b ++ [r] /\ WantReply r = true /\
    session_request up r b1 = Ok (b1, [], None).
Proof.
  intros Hab Hl. set (payload := Marshal execMsg [VString cmd]).
  assert (slen payload = slen cmd + 4) as Hp.
  { pose proof (slen_nonneg cmd). unfold payload, Marshal, marshalStruct. cbn [typeTags execMsg]. rewrite fold_marshalField. cbn [fields_bytes].
    rewrite string_field_bytes, !slen_app, slen_be_bytes by lia. change (slen "") with 0. lia. }
  destruct (request_answered pick pick "exec" payload a b Hab) as (a1 & b1 & E1 & E2 & E3 & E4 & _); [change (slen "exec") with 4; lia|].
  destruct (await_reply false false a1) as [a3 res] eqn:E5. cbn [snd] in E4. subst res.
  exists (set_ch a3 (newSession a)), (request_packet (remoteId a) "exec" true payload), b1, (mkRequest "exec" true payload).
  split; [|by split_and!].
  unfold Start, start_with. change (started (newSession a)) with false. cbn iota. unfold request. change (ch (newSession a)) with a.
  fold payload. by rewrite E1, E5.
Qed.

(** ** Concrete sessions *)

Lemma demo_talking : talking demo_a demo_b.
Proof. split; try (vm_compute; reflexivity); try (split; vm_compute; reflexivity); try (split; vm_compute; congruence). apply Nat.ltb_lt. vm_compute. reflexivity. Qed.

Lemma pty_reaches_server_witness :
  exists s p b1 r b2 q,
    RequestPty up (fun c => await_reply false false (arrived false q c)) "xterm" 24 80 [(53, 1)] (newSession demo_a) = (s, [p], Ok None) /\
    handlePacket up false false p demo_b = (b1, [], [], Ok None) /\ incomingRequests b1 = incomingRequests demo_b ++ [r] /\
    session_request up r b1 = Ok (b2, [q], Some (mkWinsize 24 80)).
Proof.
  apply (pty_reaches_server false false "xterm" 24 80 [(53, 1)] demo_a demo_b demo_talking); vm_compute; reflexivity.
Defined.

Lemma exec_never_answered_witness :
  exists s p, Start up (await_reply false false) "ls" (newSession demo_a) = (s, [p], Blocked).
Proof.
  destruct (exec_never_answered false "ls" demo_a demo_b demo_talking) as (s & p & b1 & r & H & _); [vm_compute; reflexivity|].
  exists s, p. exact H.
Defined.

Definition exit_status (n : Z) : Request := mkRequest "exit-status" false (be_bytes 4 n).
Definition exit_signal (sig : string) : Request := mkRequest "exit-signal" false (Marshal sigval [VString sig; VBool false; VString "e"; VString "en"]).
Lemma demo_exits : Forall well_formed [exit_signal "TERM"; exit_status 3].
Proof.
  apply Forall_cons. split; [split; [done|]; intros _; eexists _, _, _, _; vm_compute; reflexivity|].
  apply Forall_cons. split; [split; [intros _; vm_compute; congruence|done]|]. by apply Forall_nil.
Qed.

Lemma wait_reports_last_witness :
  (exists wm, (wait up [exit_signal "TERM"; exit_status 3] demo_a).2 = Ok (ExitError wm) /\ status wm = 3) /\
  (wait up [exit_signal "TERM"; mkRequest "exit-status" false "abc"] demo_a).2 = Panic "index out of range".
Proof.
  split.
  - destruct (proj1 (proj1 (wait_reports_last up [exit_signal "TERM"; exit_status 3] demo_a) demo_exits) [exit_signal "TERM"] (exit_status 3) []
      eq_refl eq_refl (Forall_nil_2 _)) as [[_ H]|(wm & H1 & H2 & _)]; [vm_compute in H; discriminate|].
    exists wm. split; [exact H1|exact H2].
  - destruct (proj2 (wait_reports_last up [exit_signal "TERM"; mkRequest "exit-status" false "abc"] demo_a)
      [exit_signal "TERM"] (mkRequest "exit-status" false "abc") [] eq_refl) as [[H _]|(e & _ & H & _)]; [| |exact H|discriminate H].
    + apply Forall_cons_2; [|apply Forall_nil_2]. exact (proj1 (proj1 (Forall_cons _ _ _) demo_exits)).
    + intros [H _]. specialize (H eq_refl). vm_compute in H. exact (H eq_refl).
Defined.
