(* ===== verification/Forwards.v ===== *)
(** Ports of the server that are forwarded to the client
    (xendor/github.com/glycerine/xcryptossh: tcpip.go, streamlocal.go and the
    handlers of client.go): asking for a port, the list of forwards with the Go
    channels of its listeners, and the way of a connection from the packet that
    opens it to the listener that accepts it. *)
From S2P Require Import Prelude.
From S2P Require Import GoStrings.
From S2P Require Import NetIP.
From S2P Require Import Wire.
From S2P Require Import Flow.
From S2P Require Import Channel.
From S2P Require Import Mux.
From S2P Require Import FlowControl.
From S2P Require Import Direct.

(** ** Addresses *)

(** A net.Addr: of tcp, whose IP can be nil, or of a socket of the file system. *)
Inductive Addr := TCPAddr (ip : option IP) (port : Z) | UnixAddr (Name : string).

Definition Network (a : Addr) : string := match a with TCPAddr _ _ => "tcp" | UnixAddr _ => "unix" end.
Definition JoinHostPort (host port : string) : string :=
  if lacks ":" host && lacks "%" host then host +:+ String ":" port else String "[" (host +:+ String "]" (String ":" port)).
Definition Addr_String (a : Addr) : string :=
  match a with
  | TCPAddr ip port => JoinHostPort (match ip with None => "" | Some ip => IP_String ip end) (itoa port)
  | UnixAddr n => n
  end.
Definition same_addr (a b : Addr) : bool := (Network a =? Network b)%string && (Addr_String a =? Addr_String b)%string.

Definition parseTCPAddr (addr : string) (port : Z) : outcome Addr :=
  if (port =? 0) || (65535 <? port) then Err ("ssh: port number out of range: " +:+ itoa port)
  else match ParseIP addr with
       | None => Err ("ssh: cannot parse IP address " +:+ addr)
       | Some ip => Ok (TCPAddr (Some ip) port)
       end.

(** ** The list of forwards *)

(** A connection for a listener: its channel, by its place in the heap of the mux,
    and where it comes from. *)
Record forward := mkForward { newCh : nat; raddr : Addr }.

(** The Go channel of a listener, of one place. *)
Record gochan := mkGochan { buf : list forward; closed : bool }.

Record forwardEntry := mkEntry { laddr : Addr; c : nat }.

(** The entries, and the Go channels that were ever made. *)
Record ForwardList := mkForwardList { entries : list forwardEntry; chans : list gochan }.

Definition add (addr : Addr) (l : ForwardList) : ForwardList * nat :=
  (mkForwardList (entries l ++ [mkEntry addr (List.length (chans l))]) (chans l ++ [mkGochan [] false]), List.length (chans l)).

(** close of a Go channel. *)
Definition close_chan (p : nat) (cs : list gochan) : outcome (list gochan) :=
  match cs !! p with
  | None => Panic "unreachable"
  | Some g => if closed g then Panic "close of closed channel" else Ok (<[p := mkGochan (buf g) true]> cs)
  end.

Fixpoint remove_go (addr : Addr) (before l : list forwardEntry) (cs : list gochan) : outcome ForwardList :=
  match l with
  | [] => Ok (mkForwardList before cs)
  | f :: l =>
      if same_addr addr (laddr f) then let? cs := close_chan (c f) cs in Ok (mkForwardList (before ++ l) cs)
      else remove_go addr (before ++ [f]) l cs
  end.
Definition Remove (addr : Addr) (l : ForwardList) : outcome ForwardList := remove_go addr [] (entries l) (chans l).

Fixpoint close_entries (es : list forwardEntry) (cs : list gochan) : outcome (list gochan) :=
  match es with [] => Ok cs | f :: es => let? cs := close_chan (c f) cs in close_entries es cs end.
Definition CloseAll (l : ForwardList) : outcome ForwardList :=
  let? cs := close_entries (entries l) (chans l) in Ok (mkForwardList [] cs).

(** The entry of an address. *)
Definition find_entry (addr : Addr) (l : ForwardList) : option nat :=
  c <$> List.find (fun f => same_addr addr (laddr f)) (entries l).

(** [Forward]: [stop] tells that the connection or the context is done, [pick] is
    the choice of the select. When it is [Blocked] it holds the lock. *)
Definition Forward (stop pick : bool) (addr : Addr) (f : forward) (l : ForwardList) : ForwardList * outcome (bool * error_) :=
  match find_entry addr l with
  | None => (l, Ok (false, None))
  | Some p =>
      match chans l !! p with
      | None => (l, Panic "unreachable")
      | Some g =>
          let '(b, r) := offer stop pick (closed g) 1 f (buf g) in
          (mkForwardList (entries l) (<[p := mkGochan b (closed g)]> (chans l)),
           let? e := r in Ok (match e with None => true | Some _ => false end, e))
      end
  end.

(** ** Asking for a port *)

Definition channelForwardMsg : msg_type := mkType "channelForwardMsg" [] [("addr", KString); ("rport", KUint32)].
Definition streamLocalChannelForwardMsg : msg_type := mkType "streamLocalChannelForwardMsg" [] [("socketPath", KString)].
Definition port_reply : msg_type := mkType "" [] [("Port", KUint32)].

(** A listener: its address, its Go channel, whether it has a context. *)
Record listener := mkListener { l_addr : Addr; l_in : nat; TmpCtx : bool }.

(** IP.String of an IP that can be nil. *)
Definition ip_text (ip : option IP) : string := match ip with None => "<nil>" | Some ip => IP_String ip end.

Definition openSSHPrefix : string := "OpenSSH_".

(** strings.Index, as what follows the first occurrence. *)
Fixpoint after_first (sub s : string) : option string :=
  if HasPrefix s sub then Some (sdrop (String.length sub) s)
  else match s with "" => None | String _ s => after_first sub s end.
Fixpoint leading_digits (s : string) : string :=
  match s with "" => "" | String c s => if is_digit c then String c (leading_digits s) else "" end.

(** The number that Atoi returns, also with an error. *)
Definition Atoi_value (s : string) : Z :=
  match parse_uint (2 ^ 64 - 1) s with inl n => Z.min n (2 ^ 63 - 1) | inr ErrSyntax => 0 | inr ErrRange => 2 ^ 63 - 1 end.

Definition isBrokenOpenSSHVersion (versionStr : string) : bool :=
  match after_first openSSHPrefix versionStr with
  | None => false
  | Some s => Atoi_value (leading_digits s) <? 6
  end.

Section Client.
Context (conn : string -> option string).
(** The wait for the answer to a global request. *)
Context (await : mux -> mux * outcome (bool * string * error_)).

Definition global_request (name payload : string) (m : mux) : mux * list string * outcome (bool * string * error_) :=
  match mux_SendRequest conn name true payload with
  | (sent, (_, Some e)) => (m, sent, Ok (false, "", Some e))
  | (sent, (_, None)) => let '(m, r) := await m in (m, sent, r)
  end.

(** What a call that makes a listener leaves. *)
Definition listening := (mux * ForwardList * list string * outcome listener)%type.

Definition forward_payload (ip : option IP) (port : Z) : string :=
  Marshal channelForwardMsg [VString (ip_text ip); VUint32 (to_uint32 port)].

(** [ListenTCP] from the message on; [ctx]: the client has a context. *)
Definition listen_tcp (ctx : bool) (ip : option IP) (port : Z) (m : mux) (l : ForwardList) : listening :=
  let '(m, sent, r) := global_request "tcpip-forward" (forward_payload ip port) m in
  let fail e := (m, l, sent, e) in
  match r with
  | Ok (_, _, Some e) => fail (Err e)
  | Ok (false, _, None) => fail (Err "ssh: tcpip-forward request denied by peer")
  | Ok (true, resp, None) =>
      let register port :=
        let '(l, p) := add (TCPAddr ip port) l in (m, l, sent, Ok (mkListener (TCPAddr ip port) p ctx)) in
      if port =? 0 then
        match Unmarshal resp port_reply with
        | Ok [VUint32 port] => register port
        | Ok _ => fail (Panic "unreachable")
        | Err e => fail (Err e)
        | Panic s => fail (Panic s)
        | Blocked => fail Blocked
        end
      else register port
  | Err e => fail (Err e)
  | Panic s => fail (Panic s)
  | Blocked => fail Blocked
  end.

(** [autoPortListenWorkaround]: [ports] are what portRandomizer.Intn(60000) gives, one
    for each of the ten tries. *)
Fixpoint auto_port (ctx : bool) (ip : option IP) (ports : list Z) (err : string) (m : mux) (l : ForwardList) : listening :=
  match ports with
  | [] => (m, l, [], Err ("ssh: listen on random port failed after 10 tries: " +:+ err))
  | n :: ports =>
      let '(m, l, sent, r) := listen_tcp ctx ip (1024 + n) m l in
      match r with
      | Err e => let '(m, l, sent', r) := auto_port ctx ip ports e m l in (m, l, sent ++ sent', r)
      | _ => (m, l, sent, r)
      end
  end.

Definition ListenTCP (ServerVersion : string) (ctx : bool) (ports : list Z) (ip : option IP) (port : Z) (m : mux) (l : ForwardList) : listening :=
  if (port =? 0) && isBrokenOpenSSHVersion ServerVersion then auto_port ctx ip (take 10 ports) "<nil>" m l
  else listen_tcp ctx ip port m l.

Definition ListenUnix (socketPath : string) (m : mux) (l : ForwardList) : listening :=
  let '(m, sent, r) := global_request "streamlocal-forward@openssh.com" (Marshal streamLocalChannelForwardMsg [VString socketPath]) m in
  match r with
  | Ok (_, _, Some e) => (m, l, sent, Err e)
  | Ok (false, _, None) => (m, l, sent, Err "ssh: streamlocal-forward@openssh.com request denied by peer")
  | Ok (true, _, None) => let '(l, p) := add (UnixAddr socketPath) l in (m, l, sent, Ok (mkListener (UnixAddr socketPath) p true))
  | Err e => (m, l, sent, Err e)
  | Panic s => (m, l, sent, Panic s)
  | Blocked => (m, l, sent, Blocked)
  end.

(** [Close] of a listener. *)
Definition listener_Close (ln : listener) (m : mux) (l : ForwardList) : mux * outcome ForwardList * list string * outcome error_ :=
  let '(name, payload) :=
    match l_addr ln with
    | TCPAddr ip port => ("tcpip-forward", forward_payload ip port)
    | UnixAddr path => ("streamlocal-forward@openssh.com", Marshal streamLocalChannelForwardMsg [VString path])
    end in
  match Remove (l_addr ln) l with
  | Ok l =>
      let '(m, sent, r) := global_request ("cancel-" +:+ name) payload m in
      (m, Ok l, sent,
       let? '(ok, _, e) := r in
       Ok (match e with Some e => Some e | None => if ok then None else Some ("ssh: cancel-" +:+ name +:+ " failed") end))
  | Err e => (m, Err e, [], Err e)
  | Panic s => (m, Panic s, [], Panic s)
  | Blocked => (m, Blocked, [], Blocked)
  end.

(** ** Connections of a listener *)

(** A net.Conn over a channel. *)
Record chanConn := mkConn { Channel_ : nat; LocalAddr : Addr; RemoteAddr : Addr }.

(** [Accept]: a receive from the Go channel of the listener and the acceptance of
    the channel; [stop] is that the connection is done. *)
Definition listener_Accept (stop pick : bool) (ln : listener) (m : mux) (l : ForwardList)
  : mux * ForwardList * list string * outcome chanConn :=
  let tcp := match l_addr ln with TCPAddr _ _ => true | UnixAddr _ => false end in
  if tcp && negb (TmpCtx ln) then (m, l, [], Panic "invalid memory address or nil pointer dereference")
  else if stop && pick then (m, l, [], Err EOF)
  else
    match chans l !! l_in ln with
    | None => (m, l, [], Panic "unreachable")
    | Some g =>
        match buf g with
        | f :: rest =>
            let l := mkForwardList (entries l) (<[l_in ln := mkGochan rest (closed g)]> (chans l)) in
            match heap m !! newCh f with
            | None => (m, l, [], Panic "invalid memory address or nil pointer dereference")
            | Some ch =>
                let '(ch, sent, e) := Accept conn ch in
                (put_channel (newCh f) ch m, l, sent,
                 match e with
                 | Some e => Err e
                 | None => Ok (mkConn (newCh f) (l_addr ln) (if tcp then raddr f else UnixAddr "@"))
                 end)
            end
        | [] => (m, l, [], if closed g || stop then Err EOF else Blocked)
        end
    end.

(** *** From a packet to the listener *)

Definition forwardedTCPPayload : msg_type := mkType "forwardedTCPPayload" []
  [("Addr", KString); ("Port", KUint32); ("OriginAddr", KString); ("OriginPort", KUint32)].
Definition forwardedStreamLocalPayload : msg_type := mkType "forwardedStreamLocalPayload" []
  [("SocketPath", KString); ("Reserved0", KString)].

(** Both addresses of a channel; an error is a reason to reject it. *)
Definition forward_addrs (chanType extra : string) : outcome (Addr * Addr) :=
  let parse_error {A} (r : outcome A) : outcome A :=
    match r with Err e => Err ("could not parse " +:+ chanType +:+ " payload: " +:+ e) | _ => r end in
  if (chanType =? "forwarded-tcpip")%string then
    let? vs := parse_error (Unmarshal extra forwardedTCPPayload) in
    match vs with
    | [VString addr; VUint32 port; VString origin; VUint32 oport] =>
        let? laddr := parseTCPAddr addr port in
        let? raddr := parseTCPAddr origin oport in
        Ok (laddr, raddr)
    | _ => Panic "unreachable"
    end
  else if (chanType =? "forwarded-streamlocal@openssh.com")%string then
    let? vs := parse_error (Unmarshal extra forwardedStreamLocalPayload) in
    match vs with
    | [VString path; VString _] => Ok (UnixAddr path, UnixAddr "@")
    | _ => Panic "unreachable"
    end
  else Panic ("ssh: unknown channel type " +:+ chanType).

(** What the goroutine meets: a channel, with the state of the connection and the
    choice of the select of [Forward]; a nil one; a reason to stop. *)
Inductive forward_event := NewChannel (p : nat) (stop pick : bool) | NilChannel | Done.

(** One turn of [HandleChannels]; whether it goes on. *)
Definition handle_forward (ev : forward_event) (m : mux) (l : ForwardList) : mux * ForwardList * list string * outcome bool :=
  match ev with
  | Done => (m, l, [], Ok false)
  | NilChannel => (m, l, [], Panic "invalid memory address or nil pointer dereference")
  | NewChannel p stop pick =>
      match heap m !! p with
      | None => (m, l, [], Panic "invalid memory address or nil pointer dereference")
      | Some ch =>
          let reject l reason text :=
            let '(ch, sent, _) := Reject conn reason text ch in (put_channel p ch m, l, sent, Ok true) in
          match forward_addrs (chanType ch) (extraData ch) with
          | Err e => reject l 2 e
          | Panic s => (m, l, [], Panic s)
          | Blocked => (m, l, [], Blocked)
          | Ok (laddr, raddr) =>
              match Forward stop pick laddr (mkForward p raddr) l with
              | (l, Ok (_, Some _)) => (m, l, [], Ok false)
              | (l, Ok (false, None)) => reject l 1 "no forward for address"
              | (l, Ok (true, None)) => (m, l, [], Ok true)
              | (l, Err e) => (m, l, [], Err e)
              | (l, Panic s) => (m, l, [], Panic s)
              | (l, Blocked) => (m, l, [], Blocked)
              end
          end
      end
  end.

(** [HandleChannels]: whether it returned. *)
Fixpoint HandleChannels (evs : list forward_event) (m : mux) (l : ForwardList) : mux * ForwardList * list string * outcome bool :=
  match evs with
  | [] => (m, l, [], Ok false)
  | ev :: evs =>
      let '(m, l, sent, r) := handle_forward ev m l in
      match r with
      | Ok true => let '(m, l, sent', r) := HandleChannels evs m l in (m, l, sent ++ sent', r)
      | Ok false => (m, l, sent, Ok true)
      | r => (m, l, sent, r)
      end
  end.

(** *** The handlers of the client *)

(** A handler: the channels that wait in its Go channel of [chanSize] places. The
    map is nil once the handlers are closed. *)
Definition handlers := option (gmap string (list nat)).

(** What a caller gets: a closed Go channel, nil, or a new one. *)
Inductive handler := ClosedChannel | NilHandler | NewHandler.

Definition HandleChannelOpen (channelType : string) (h : handlers) : handlers * handler :=
  match h with
  | None => (h, ClosedChannel)
  | Some hs =>
      match hs !! channelType with
      | Some _ => (h, NilHandler)
      | None => (Some (<[channelType := []]> hs), NewHandler)
      end
  end.

Definition NewClient : handlers :=
  let h := (HandleChannelOpen "forwarded-tcpip" (Some ∅)).1 in (HandleChannelOpen "forwarded-streamlocal@openssh.com" h).1.

(** One turn of [HandleChannelOpens] over a channel; whether it goes on. *)
Definition handle_open (stop pick : bool) (p : nat) (m : mux) (h : handlers) : mux * handlers * list string * outcome bool :=
  match heap m !! p with
  | None => (m, h, [], Panic "invalid memory address or nil pointer dereference")
  | Some ch =>
      let hs := default ∅ h in
      match hs !! chanType ch with
      | Some waiting =>
          let '(waiting, r) := offer stop pick false chanSize p waiting in
          (m, (fun hs => <[chanType ch := waiting]> hs) <$> h, [], let? e := r in Ok (match e with None => true | Some _ => false end))
      | None =>
          let '(ch', sent, _) := Reject conn 3 ("unknown channel type: " +:+ chanType ch) ch in
          (put_channel p ch' m, h, sent, Ok true)
      end
  end.

(** [HandleChannelOpens] over what is read: a channel, nil when the Go channel is
    closed, a reason to stop. *)
Fixpoint HandleChannelOpens (evs : list forward_event) (m : mux) (h : handlers) : mux * handlers * list string * outcome bool :=
  match evs with
  | [] => (m, h, [], Ok false)
  | Done :: _ => (m, h, [], Ok true)
  | NilChannel :: evs => HandleChannelOpens evs m h
  | NewChannel p stop pick :: evs =>
      let '(m, h, sent, r) := handle_open stop pick p m h in
      match r with
      | Ok true => let '(m, h, sent', r) := HandleChannelOpens evs m h in (m, h, sent ++ sent', r)
      | Ok false => (m, h, sent, Ok true)
      | r => (m, h, sent, r)
      end
  end.
End Client.

(** ** The goroutines and the list *)

(** A connection that was put into the Go channel at [to]. *)
Record sending := mkSending { to : nat; at_ : Addr; what : forward }.

(** The list, who holds its lock in [Forward] and waits, the addresses for which the
    Go channels were made, what was put into them and what was taken out. *)
Record state := mkState {
  flist : ForwardList;
  holder : option sending;
  owner : list Addr;
  log : list sending;
  received : list (nat * forward);
}.
Definition start : state := mkState (mkForwardList [] []) None [] [] [].

(** Any goroutine may make a listener, close one, close all, or forward a
    connection, while no one holds the lock. Who waits in [Forward] goes on when
    there is room or gives up when the connection is done. A listener takes what
    waits for it. *)
Inductive fwd_step : state -> state -> Prop :=
| step_add s addr l p :
    holder s = None -> add addr (flist s) = (l, p) -> fwd_step s (mkState l None (owner s ++ [addr]) (log s) (received s))
| step_remove s addr l :
    holder s = None -> Remove addr (flist s) = Ok l -> fwd_step s (mkState l None (owner s) (log s) (received s))
| step_close s l :
    holder s = None -> CloseAll (flist s) = Ok l -> fwd_step s (mkState l None (owner s) (log s) (received s))
| step_forward s stop pick addr p f l :
    holder s = None -> find_entry addr (flist s) = Some p -> Forward stop pick addr f (flist s) = (l, Ok (true, None)) ->
    fwd_step s (mkState l None (owner s) (log s ++ [mkSending p addr f]) (received s))
| step_wait s stop pick addr p f l :
    holder s = None -> find_entry addr (flist s) = Some p -> Forward stop pick addr f (flist s) = (l, Blocked) ->
    fwd_step s (mkState l (Some (mkSending p addr f)) (owner s) (log s) (received s))
| step_go_on s x g :
    holder s = Some x -> chans (flist s) !! to x = Some g -> buf g = [] ->
    fwd_step s (mkState (mkForwardList (entries (flist s)) (<[to x := mkGochan [what x] (closed g)]> (chans (flist s)))) None
      (owner s) (log s ++ [x]) (received s))
| step_give_up s x : holder s = Some x -> fwd_step s (mkState (flist s) None (owner s) (log s) (received s))
| step_receive s p g f rest :
    chans (flist s) !! p = Some g -> buf g = f :: rest ->
    fwd_step s (mkState (mkForwardList (entries (flist s)) (<[p := mkGochan rest (closed g)]> (chans (flist s)))) (holder s)
      (owner s) (log s) (received s ++ [(p, f)])).

(** What was put into a Go channel, what was taken out of it, what is in it. *)
Definition sent_to (p : nat) (l : list sending) : list forward := what <$> filter (fun x => to x = p) l.
Definition taken_from (p : nat) (l : list (nat * forward)) : list forward := snd <$> filter (fun x => x.1 = p) l.
Definition waiting (p : nat) (cs : list gochan) : list forward := default [] (buf <$> cs !! p).

(** [p] is an open Go channel, made for an address like [addr]. *)
Definition open_for (s : state) (p : nat) : Prop := exists g, chans (flist s) !! p = Some g /\ closed g = false.
Definition made_for (addr : Addr) (p : nat) (own : list Addr) : Prop := exists a, own !! p = Some a /\ same_addr addr a = true.

Record inv (s : state) : Prop := mkInv {
  inv_nodup : NoDup (c <$> entries (flist s));
  inv_open : Forall (fun e => open_for s (c e) /\ owner s !! c e = Some (laddr e)) (entries (flist s));
  inv_len : List.length (owner s) = List.length (chans (flist s));
  inv_cap : Forall (fun g => List.length (buf g) <= 1)%nat (chans (flist s));
  inv_holder : forall x, holder s = Some x -> open_for s (to x) /\ made_for (at_ x) (to x) (owner s);
  inv_log : forall p, sent_to p (log s) = taken_from p (received s) ++ waiting p (chans (flist s));
  inv_addr : Forall (fun x => made_for (at_ x) (to x) (owner s)) (log s);
}.

(** *** Closing *)

Definition bufs (cs : list gochan) : list (list forward) := buf <$> cs.

Lemma close_chan_open p cs g :
  cs !! p = Some g -> closed g = false -> close_chan p cs = Ok (<[p := mkGochan (buf g) true]> cs).
Proof. intros H1 H2. unfold close_chan. by rewrite H1, H2. Qed.

Lemma bufs_close p cs g : cs !! p = Some g -> bufs (<[p := mkGochan (buf g) true]> cs) = bufs cs.
Proof.
  intros H. unfold bufs. rewrite list_fmap_insert. apply list_insert_id. rewrite list_lookup_fmap, H. done.
Qed.

Lemma remove_go_spec addr before l cs :
  Forall (fun e => exists g, cs !! c e = Some g /\ closed g = false) l ->
  remove_go addr before l cs = Ok (mkForwardList (before ++ l) cs) \/
  exists l1 e l2 g, l = l1 ++ e :: l2 /\ cs !! c e = Some g /\
    remove_go addr before l cs = Ok (mkForwardList (before ++ l1 ++ l2) (<[c e := mkGochan (buf g) true]> cs)).
Proof.
  revert before. induction l as [|e l IH]; intros before H; [left; by rewrite app_nil_r|].
  apply Forall_cons in H as [(g & Hg & Hc) H]. cbn [remove_go]. destruct (same_addr addr (laddr e)).
  - right. rewrite (close_chan_open _ _ g) by done. by exists [], e, l, g.
  - destruct (IH (before ++ [e]) H) as [E|(l1 & e' & l2 & g' & -> & Hg' & E)].
    + left. rewrite E. by rewrite <- app_assoc.
    + right. exists (e :: l1), e', l2, g'. rewrite E. by rewrite <- app_assoc.
Qed.

Lemma close_entries_ok es cs :
  NoDup (c <$> es) -> Forall (fun e => exists g, cs !! c e = Some g /\ closed g = false) es ->
  exists cs', close_entries es cs = Ok cs' /\ bufs cs' = bufs cs /\ List.length cs' = List.length cs.
Proof.
  revert cs. induction es as [|e es IH]; intros cs Hnd Ho; [by exists cs|]. apply Forall_cons in Ho as [(g & Hg & Hc) Ho].
  rewrite fmap_cons in Hnd. apply NoDup_cons in Hnd as [Hn Hnd]. cbn [close_entries]. rewrite (close_chan_open _ _ g) by done. cbn [obind].
  destruct (IH (<[c e := mkGochan (buf g) true]> cs)) as (cs' & E1 & E2 & E3); [done| |].
  - apply Forall_forall. intros e' He'. rewrite Forall_forall in Ho. destruct (Ho e' He') as (g' & Hg' & Hc').
    exists g'. split; [|done]. rewrite list_lookup_insert_ne; [done|]. intros Heq. apply Hn. rewrite Heq. apply list_elem_of_fmap. by exists e'.
  - exists cs'. rewrite E2, E3, bufs_close, length_insert by done. done.
Qed.

Lemma waiting_bufs p cs : waiting p cs = default [] (bufs cs !! p).
Proof. unfold waiting, bufs. by rewrite list_lookup_fmap. Qed.

Lemma cap_bufs cs cs' : bufs cs' = bufs cs -> Forall (fun g => List.length (buf g) <= 1)%nat cs -> Forall (fun g => List.length (buf g) <= 1)%nat cs'.
Proof.
  intros E H. assert (forall l, Forall (fun g => List.length (buf g) <= 1)%nat l <-> Forall (fun b : list forward => List.length b <= 1)%nat (bufs l)) as HF.
  { intros l. unfold bufs. by rewrite Forall_fmap. }
  apply HF. rewrite E. by apply HF.
Qed.

(** *** Every step keeps the invariant *)

Lemma find_entry_some addr l p :
  find_entry addr l = Some p -> exists e, e ∈ entries l /\ c e = p /\ same_addr addr (laddr e) = true.
Proof.
  unfold find_entry. intros H. apply fmap_Some in H as (e & H & ->). apply find_some in H as [H1 H2].
  exists e. split; [by apply list_elem_of_In|done].
Qed.

Lemma inv_find s addr p :
  inv s -> find_entry addr (flist s) = Some p -> open_for s p /\ made_for addr p (owner s).
Proof.
  intros I H. apply find_entry_some in H as (e & He & <- & Ha). pose proof (inv_open s I) as HO. rewrite Forall_forall in HO.
  destruct (HO e He) as [H1 H2]. split; [done|]. by exists (laddr e).
Qed.

Lemma sent_to_snoc p l x : sent_to p (l ++ [x]) = sent_to p l ++ (if bool_decide (to x = p) then [what x] else []).
Proof. unfold sent_to. rewrite filter_app, fmap_app. f_equal. rewrite filter_cons, filter_nil. by case_decide; case_bool_decide. Qed.
Lemma taken_from_snoc p l q f : taken_from p (l ++ [(q, f)]) = taken_from p l ++ (if bool_decide (q = p) then [f] else []).
Proof. unfold taken_from. rewrite filter_app, fmap_app. f_equal. rewrite filter_cons, filter_nil. by case_decide; case_bool_decide. Qed.

Lemma waiting_insert p q g cs : (q < List.length cs)%nat -> waiting p (<[q := g]> cs) = if bool_decide (q = p) then buf g else waiting p cs.
Proof.
  intros H. unfold waiting. case_bool_decide as E; [subst q; by rewrite list_lookup_insert_eq|by rewrite list_lookup_insert_ne].
Qed.

Lemma made_for_more addr p own a : made_for addr p own -> made_for addr p (own ++ [a]).
Proof. intros (b & H1 & H2). exists b. split; [by apply lookup_app_l_Some|done]. Qed.

Lemma open_insert s s' p q g g' own h lg rc :
  chans (flist s) !! p = Some g -> closed g' = closed g -> open_for s q ->
  s' = mkState (mkForwardList (entries (flist s)) (<[p := g']> (chans (flist s)))) h own lg rc -> open_for s' q.
Proof.
  intros Hp Hc (x & Hx & Hcx) ->. unfold open_for. cbn [flist chans]. destruct (decide (p = q)) as [->|Hne].
  - rewrite list_lookup_insert_eq by (by eapply lookup_lt_Some). exists g'. split; [done|]. simplify_eq. congruence.
  - rewrite list_lookup_insert_ne by done. by exists x.
Qed.

(** A Go channel whose contents change. *)
Lemma inv_put s p g b h lg rc :
  inv s -> chans (flist s) !! p = Some g -> (List.length b <= 1)%nat ->
  (forall x, h = Some x -> open_for s (to x) /\ made_for (at_ x) (to x) (owner s)) ->
  (forall q, sent_to q lg = taken_from q rc ++ if bool_decide (p = q) then b else waiting q (chans (flist s))) ->
  Forall (fun x => made_for (at_ x) (to x) (owner s)) lg ->
  inv (mkState (mkForwardList (entries (flist s)) (<[p := mkGochan b (closed g)]> (chans (flist s)))) h (owner s) lg rc).
Proof.
  intros I Hp Hb Hh Hlog Hadd. destruct I as [I1 I2 I3 I4 I5 I6 I7]. pose proof (lookup_lt_Some _ _ _ Hp) as Hlt.
  assert (forall q, open_for s q -> open_for (mkState (mkForwardList (entries (flist s)) (<[p := mkGochan b (closed g)]> (chans (flist s)))) h (owner s) lg rc) q)
    as HO by (intros q Hq; eapply (open_insert s _ p q g (mkGochan b (closed g))); [done|reflexivity|done|reflexivity]).
  split; cbn [flist entries chans owner holder log received]; try done.
  - eapply Forall_impl; [exact I2|]. intros e [H1 H2]. split; [by apply HO|done].
  - by rewrite length_insert.
  - by apply Forall_insert.
  - intros x Hx. destruct (Hh x Hx) as [H1 H2]. split; [by apply HO|done].
  - intros q. rewrite waiting_insert by done. apply Hlog.
Qed.

(** Entries that go, and Go channels that are closed. *)
Lemma inv_drop s es cs :
  inv s -> holder s = None -> NoDup (c <$> es) -> bufs cs = bufs (chans (flist s)) -> List.length cs = List.length (chans (flist s)) ->
  (forall e, e ∈ es -> e ∈ entries (flist s) /\ exists g, cs !! c e = Some g /\ closed g = false) ->
  inv (mkState (mkForwardList es cs) None (owner s) (log s) (received s)).
Proof.
  intros [I1 I2 I3 I4 I5 I6 I7] Hh Hnd Hb Hl He. split; cbn [flist entries chans owner holder log received]; try done.
  - apply Forall_forall. intros e Hin. destruct (He e Hin) as [H1 H2]. rewrite Forall_forall in I2. destruct (I2 e H1) as [_ H3]. done.
  - congruence.
  - by eapply cap_bufs.
  - intros p. rewrite I6, !waiting_bufs. by rewrite Hb.
Qed.

Lemma inv_opened s : inv s -> Forall (fun e => exists g, chans (flist s) !! c e = Some g /\ closed g = false) (entries (flist s)).
Proof. intros I. eapply Forall_impl; [exact (inv_open s I)|]. by intros e [H _]. Qed.

Lemma Remove_ok s addr : inv s -> holder s = None ->
  exists l, Remove addr (flist s) = Ok l /\ inv (mkState l None (owner s) (log s) (received s)).
Proof.
  intros I Hh. unfold Remove. destruct (remove_go_spec addr [] (entries (flist s)) (chans (flist s)) (inv_opened s I))
    as [E|(l1 & e & l2 & g & He & Hg & E)]; rewrite E; eexists; (split; [reflexivity|]); simpl.
  - destruct s as [[es cs] h own lg rc]. cbn in *. by subst h.
  - pose proof (inv_nodup s I) as Hnd. rewrite He in Hnd. rewrite fmap_app, fmap_cons in Hnd.
    apply inv_drop; [done..| | |by rewrite length_insert|].
    + rewrite fmap_app. apply NoDup_app in Hnd as (N1 & N2 & N3). apply NoDup_cons in N3 as [_ N3].
      apply NoDup_app. split; [done|]. split; [|done]. intros x Hx Hx'. apply (N2 x Hx). by apply list_elem_of_further.
    + by apply bufs_close.
    + intros e' He'. assert (e' ∈ entries (flist s)) as Hin by (rewrite He; set_solver). split; [done|].
      pose proof (inv_opened s I) as HO. rewrite Forall_forall in HO. destruct (HO e' Hin) as (g' & Hg' & Hc'). exists g'. split; [|done].
      rewrite list_lookup_insert_ne; [done|]. intros Heq. apply NoDup_app in Hnd as (N1 & N2 & N3). apply NoDup_cons in N3 as [N3 _].
      apply elem_of_app in He' as [He'|He'].
      * apply (N2 (c e')); [apply list_elem_of_fmap; by exists e'|]. rewrite <- Heq. apply list_elem_of_here.
      * apply N3. apply list_elem_of_fmap. by exists e'.
Qed.

Lemma CloseAll_ok s : inv s -> holder s = None ->
  exists l, CloseAll (flist s) = Ok l /\ inv (mkState l None (owner s) (log s) (received s)).
Proof.
  intros I Hh. unfold CloseAll. destruct (close_entries_ok (entries (flist s)) (chans (flist s)) (inv_nodup s I) (inv_opened s I))
    as (cs & -> & E2 & E3). eexists. split; [reflexivity|]. apply inv_drop; [done..|apply NoDup_nil_2|done|done|].
  intros e He. by apply not_elem_of_nil in He.
Qed.

Lemma inv_add s addr : inv s -> holder s = None ->
  inv (mkState (add addr (flist s)).1 None (owner s ++ [addr]) (log s) (received s)).
Proof.
  intros I Hh. pose proof (inv_opened s I) as HO. destruct I as [I1 I2 I3 I4 I5 I6 I7].
  assert (forall e, e ∈ entries (flist s) -> (c e < List.length (chans (flist s)))%nat) as Hlt.
  { intros e He. rewrite Forall_forall in HO. destruct (HO e He) as (g & Hg & _). by eapply lookup_lt_Some. }
  unfold add. split; cbn [fst flist entries chans owner holder log received]; try done.
  - rewrite fmap_app. apply NoDup_app. split; [done|]. split; [|apply NoDup_singleton]. intros x Hx Hx'.
    apply list_elem_of_singleton in Hx' as ->. apply list_elem_of_fmap in Hx as (e & He & Hin). apply Hlt in Hin. cbn [c] in He. lia.
  - apply Forall_app. split.
    + apply Forall_forall. intros e He. rewrite Forall_forall in I2. destruct (I2 e He) as [(g & Hg & Hc) Hown]. split.
      * exists g. cbn [chans]. split; [by apply lookup_app_l_Some|done].
      * by apply lookup_app_l_Some.
    + apply Forall_singleton. cbn [c laddr]. split.
      * eexists. cbn [chans]. split; [by apply list_lookup_middle|done].
      * rewrite <- I3. by apply list_lookup_middle.
  - rewrite !length_app, I3. done.
  - apply Forall_app. split; [done|]. apply Forall_singleton. cbn [buf List.length]. lia.
  - intros p. rewrite I6. f_equal. unfold waiting. destruct (decide (p < List.length (chans (flist s)))%nat) as [H|H].
    + by rewrite lookup_app_l.
    + rewrite (lookup_ge_None_2 (chans (flist s))) by lia. rewrite lookup_app_r by lia.
      destruct (p - List.length (chans (flist s)))%nat; done.
  - eapply Forall_impl; [exact I7|]. intros x Hx. by apply made_for_more.
Qed.

(** What [Forward] does to an open Go channel. *)
Lemma Forward_open stop pick addr f l p g :
  find_entry addr l = Some p -> chans l !! p = Some g -> closed g = false ->
  Forward stop pick addr f l =
    if stop && pick then (l, Ok (false, Some EOF))
    else if (List.length (buf g) <? 1)%nat then
      (mkForwardList (entries l) (<[p := mkGochan (buf g ++ [f]) (closed g)]> (chans l)), Ok (true, None))
    else if stop then (l, Ok (false, Some EOF)) else (l, Blocked).
Proof.
  intros Hf Hp Hc. unfold Forward, offer. rewrite Hf, Hp, Hc.
  assert (mkForwardList (entries l) (<[p := mkGochan (buf g) false]> (chans l)) = l) as Hid.
  { rewrite list_insert_id; [by destruct l|]. rewrite Hp. f_equal. destruct g. cbn in *. by rewrite Hc. }
  destruct (stop && pick); [by rewrite Hid|]. destruct (List.length (buf g) <? 1)%nat; [done|]. destruct stop; by rewrite Hid.
Qed.

Lemma inv_step s s' : fwd_step s s' -> inv s -> inv s'.
Proof.
  intros H I. destruct H as [s addr l p Hh Ha|s addr l Hh Hr|s l Hh Hr|s stop pick addr p f l Hh Hf Hw|s stop pick addr p f l Hh Hf Hw|s x g Hh Hg Hb|s x Hh|s p g f rest Hg Hb].
  - pose proof (inv_add s addr I Hh) as H. by rewrite Ha in H.
  - destruct (Remove_ok s addr I Hh) as (l' & E & H). congruence.
  - destruct (CloseAll_ok s I Hh) as (l' & E & H). congruence.
  - destruct (inv_find s addr p I Hf) as [(g & Hg & Hc) Hm]. rewrite (Forward_open _ _ _ _ _ p g) in Hw by done.
    destruct (stop && pick); [done|]. destruct (List.length (buf g) <? 1)%nat eqn:El; [|by destruct stop].
    apply Nat.ltb_lt in El. assert (buf g = []) as Hb by (destruct (buf g); [done|simpl in El; lia]). injection Hw as <-. rewrite Hb.
    apply inv_put; [done..| |].
    + intros q. rewrite sent_to_snoc, (inv_log s I). cbn [to what app]. case_bool_decide as Hq; [|by rewrite app_nil_r].
      subst q. unfold waiting. rewrite Hg. cbn [fmap option_fmap option_map default]. by rewrite Hb, app_nil_r.
    + apply Forall_app. split; [apply I|]. by apply Forall_singleton.
  - destruct (inv_find s addr p I Hf) as [(g & Hg & Hc) Hm]. rewrite (Forward_open _ _ _ _ _ p g) in Hw by done.
    destruct (stop && pick); [done|]. destruct (List.length (buf g) <? 1)%nat; [done|]. destruct stop; [done|]. injection Hw as <-.
    destruct I as [I1 I2 I3 I4 I5 I6 I7]. split; try done. cbn [holder]. intros x [= <-]. split; [by exists g|done].
  - destruct (inv_holder s I x Hh) as [_ Hm]. apply inv_put; [done..| |].
    + intros q. rewrite sent_to_snoc, (inv_log s I). case_bool_decide as Hq; [|by rewrite app_nil_r].
      subst q. unfold waiting. rewrite Hg. cbn [fmap option_fmap option_map default]. by rewrite Hb, app_nil_r.
    + apply Forall_app. split; [apply I|]. by apply Forall_singleton.
  - destruct I as [I1 I2 I3 I4 I5 I6 I7]. by split.
  - pose proof (inv_cap s I) as HC. rewrite Forall_forall in HC. specialize (HC g (list_elem_of_lookup_2 _ _ _ Hg)). rewrite Hb in HC. simpl in HC.
    apply inv_put; [done|done|lia|by apply I| |by apply I].
    intros q. rewrite taken_from_snoc, (inv_log s I), <- app_assoc. f_equal. case_bool_decide as Hq; [|done].
    subst q. unfold waiting. rewrite Hg. cbn [fmap option_fmap option_map default]. by rewrite Hb.
Qed.

Lemma list_inv_start : inv start.
Proof. split; try done; try apply NoDup_nil_2; apply Forall_nil_2. Qed.

(** C16: However listeners are made and closed, connections forwarded and accepted:
    no Go channel is closed twice or sent on after its close, and who waits in Forward
    waits on an open one, so that going on cannot panic either; every listener gets,
    in order and once each, the connections that were forwarded to it, and only
    those of its own address. *)
Theorem listeners_get_their_connections s :
  rtc fwd_step start s ->
  (holder s = None -> (forall addr, exists l, Remove addr (flist s) = Ok l) /\ (exists l, CloseAll (flist s) = Ok l)) /\
  (forall stop pick addr f t, (Forward stop pick addr f (flist s)).2 <> Panic t) /\
  (forall x, holder s = Some x -> open_for s (to x) /\ exists a, owner s !! to x = Some a /\ same_addr (at_ x) a = true) /\
  (forall p, sent_to p (log s) = taken_from p (received s) ++ waiting p (chans (flist s))) /\
  Forall (fun x => exists a, owner s !! to x = Some a /\ Network (at_ x) = Network a /\ Addr_String (at_ x) = Addr_String a) (log s).
Proof.
  intros Hr. assert (inv s) as I by (apply (rtc_invariant fwd_step inv start s); [intros a b Ha Hab; by apply (inv_step a b)|exact Hr|apply list_inv_start]).
  split; [|split; [|split; [by apply inv_holder|split; [by apply inv_log|]]]].
  - intros Hh. split; [intros addr; destruct (Remove_ok s addr I Hh) as (l & E & _)|destruct (CloseAll_ok s I Hh) as (l & E & _)]; by exists l.
  - intros stop pick addr f t. destruct (find_entry addr (flist s)) as [p|] eqn:Hf; [|unfold Forward; by rewrite Hf].
    destruct (inv_find s addr p I Hf) as [(g & Hg & Hc) _]. rewrite (Forward_open _ _ _ _ _ p g) by done. by repeat case_match.
  - eapply Forall_impl; [by apply inv_addr|]. intros x (a & Ha & Hs). exists a. split; [done|].
    apply andb_prop in Hs as [H1 H2]. split; by apply String.eqb_eq.
Qed.

(** ** A connection from the server to the listener *)

Lemma slen_cons c s : slen (String c s) = 1 + slen s.
Proof. unfold slen. simpl String.length. lia. Qed.

Definition ip_ok (ip : IP) : Prop := List.length ip = 8%nat /\ Forall group_ok ip.

Lemma hexes_length l : slen (hexes l) <= 5 * Z.of_nat (List.length l).
Proof.
  assert (forall n, slen (hex n) <= 4) as Hh by (intros n; unfold hex; repeat case_match; by vm_compute).
  induction l as [|n [|m l] IH]; [by vm_compute|specialize (Hh n); change (hexes [n]) with (hex n); simpl List.length; lia|].
  change (hexes (n :: m :: l)) with (hex n +:+ String ":" (hexes (m :: l))). specialize (Hh n). rewrite slen_app.
  rewrite slen_cons. simpl List.length in *. lia.
Qed.

Lemma itoa_byte_length x : 0 <= x < 256 -> slen (itoa x) <= 3.
Proof.
  intros H. assert (Forall (fun k => slen (itoa (Z.of_nat k)) <= 3) (seq 0 256)) as HF.
  { apply Forall_forall. apply Forall_forall. apply (Forall_impl (fun k => (slen (itoa (Z.of_nat k)) <=? 3) = true)); [|intros k Hk; by apply Z.leb_le].
    apply Forall_forall. intros k Hk. apply elem_of_seq in Hk. do 256 (destruct k as [|k]; [reflexivity|]). lia. }
  rewrite Forall_forall in HF. specialize (HF (Z.to_nat x)). rewrite Z2Nat.id in HF by lia. apply HF. apply elem_of_seq. lia.
Qed.

Lemma IP_String_length ip : ip_ok ip -> slen (IP_String ip) < 256.
Proof.
  intros [Hl HF]. assert (slen (ipv6_text ip) < 256) as H6.
  { unfold ipv6_text. destruct (zero_run 8 0 ip (0%nat, 0%nat)) as [e n]. destruct (n <=? 1)%nat.
    - pose proof (hexes_length ip). unfold hexes in *. lia.
    - fold (hexes (take e ip)) (hexes (drop (e + n) ip)).
      rewrite slen_app, !slen_cons.
      pose proof (hexes_length (take e ip)) as H1. pose proof (hexes_length (drop (e + n) ip)) as H2. rewrite length_take in H1. rewrite length_drop in H2. lia. }
  unfold IP_String. case_bool_decide as H4; [|done]. destruct (drop 6 ip) as [|x [|y [|z t]]] eqn:E; try done.
  rewrite <- (take_drop 6 ip), E in HF. apply Forall_app in HF as [_ [Hx [Hy _]%Forall_cons]%Forall_cons]. unfold group_ok in Hx, Hy. change (2 ^ 16) with 65536 in *.
  assert (forall z, 0 <= z < 65536 -> slen (itoa (z / 256)) <= 3 /\ slen (itoa (z mod 256)) <= 3) as HB.
  { intros z Hz. split; apply itoa_byte_length; Z.div_mod_to_equations; lia. }
  destruct (HB x Hx), (HB y Hy). unfold ipv4_text. repeat rewrite ?slen_app, ?slen_cons. lia.
Qed.

Lemma parseTCPAddr_text ip port : ip_ok ip -> 0 < port < 65536 -> parseTCPAddr (IP_String ip) port = Ok (TCPAddr (Some ip) port).
Proof.
  intros [Hl HF] Hp. unfold parseTCPAddr. destruct (Z.eqb_spec port 0); [lia|]. rewrite (proj2 (Z.ltb_ge _ _)) by lia. cbn [orb].
  by rewrite ParseIP_String.
Qed.

(** What a server sends with a connection to a port that it listens on. *)
Definition forwarded_payload (ip : IP) (port : Z) (oip : IP) (oport : Z) : string :=
  Marshal forwardedTCPPayload [VString (IP_String ip); VUint32 port; VString (IP_String oip); VUint32 oport].

Lemma forwarded_read ip port oip oport :
  ip_ok ip -> ip_ok oip -> 0 < port < 65536 -> 0 < oport < 65536 ->
  slen (forwarded_payload ip port oip oport) < 2 ^ 30 /\
  forward_addrs "forwarded-tcpip" (forwarded_payload ip port oip oport) = Ok (TCPAddr (Some ip) port, TCPAddr (Some oip) oport).
Proof.
  intros Hip Hoip Hp Hop. pose proof (IP_String_length ip Hip) as L1. pose proof (IP_String_length oip Hoip) as L2.
  pose proof (slen_nonneg (IP_String ip)). pose proof (slen_nonneg (IP_String oip)).
  assert (slen (fields_bytes [VString (IP_String ip); VUint32 port; VString (IP_String oip); VUint32 oport]) = slen (IP_String ip) + slen (IP_String oip) + 16) as Hs.
  { cbn [fields_bytes]. rewrite !slen_app, !string_field_bytes by lia. rewrite !slen_app, !slen_be_bytes.
    change (slen (field_bytes (VUint32 port))) with 4. change (slen (field_bytes (VUint32 oport))) with 4. change (slen "") with 0. lia. }
  destruct (Unmarshal_struct forwardedTCPPayload [VString (IP_String ip); VUint32 port; VString (IP_String oip); VUint32 oport]) as [E1 E2]; [done|done| |lia|].
  { assert (in_uint32 port) by (unfold in_uint32; lia). assert (in_uint32 oport) by (unfold in_uint32; lia).
    repeat (apply Forall2_cons; split; [done|]). by apply Forall2_nil. }
  unfold forwarded_payload. split; [rewrite E1; lia|]. unfold forward_addrs. change (("forwarded-tcpip" =? "forwarded-tcpip")%string) with true. cbn iota. rewrite E2. cbn [obind].
  by rewrite !parseTCPAddr_text.
Qed.

Lemma listen_tcp_ok conn await ctx ip port m l m' l' sent ln :
  listen_tcp conn await ctx ip port m l = (m', l', sent, Ok ln) ->
  exists port', ln = mkListener (TCPAddr ip port') (List.length (chans l)) ctx /\ l' = (add (TCPAddr ip port') l).1.
Proof.
  unfold listen_tcp. destruct (global_request _ _ _ _ _) as [[m1 s1] r]. intros H. cases_in H; by eexists.
Qed.

Lemma find_added addr l : find_entry addr l = None -> find_entry addr (add addr l).1 = Some (List.length (chans l)).
Proof.
  unfold find_entry, add. cbn [fst entries]. intros H. apply fmap_None in H. induction (entries l) as [|e es IH]; cbn [app List.find] in *.
  - cbn [laddr]. unfold same_addr. by rewrite !String.eqb_refl.
  - destruct (same_addr addr (laddr e)); [done|]. by apply IH.
Qed.

(** The way of a channel through the goroutines of the client, from the packet that
    opens it to the listener. *)
Lemma forwarded_path ip port oip oport ctx p pb m l hs w idA idB b p2 :
  ip_ok ip -> ip_ok oip -> 0 < port < 65536 -> 0 < oport < 65536 ->
  let ch := offered "forwarded-tcpip" (forwarded_payload ip port oip oport) idA idB in
  heap m !! pb = Some ch -> Accept up ch = (b, [p2], None) ->
  hs !! "forwarded-tcpip" = Some w -> (List.length w < chanSize)%nat ->
  find_entry (TCPAddr (Some ip) port) l = Some p -> chans l !! p = Some (mkGochan [] false) -> ctx = true ->
  exists l1, handle_open up false false pb m (Some hs) = (m, Some (<["forwarded-tcpip" := w ++ [pb]]> hs), [], Ok true) /\
    handle_forward up (NewChannel pb false false) m l = (m, l1, [], Ok true) /\
    listener_Accept up false false (mkListener (TCPAddr (Some ip) port) p ctx) m l1 =
      (put_channel pb b m, l, [p2], Ok (mkConn pb (TCPAddr (Some ip) port) (TCPAddr (Some oip) oport))).
Proof.
  intros Hip Hoip Hp Hop ch Hch Ha Hhs Hw Hf Hg ->. pose proof (lookup_lt_Some _ _ _ Hg) as Hlt. eexists. split; [|split].
  - unfold handle_open. rewrite Hch. change (chanType ch) with "forwarded-tcpip". change (default ∅ (Some hs)) with hs. rewrite Hhs. unfold offer. cbn [andb].
    by rewrite (proj2 (Nat.ltb_lt _ _) Hw).
  - unfold handle_forward. rewrite Hch. change (chanType ch) with "forwarded-tcpip". change (extraData ch) with (forwarded_payload ip port oip oport).
    destruct (forwarded_read ip port oip oport Hip Hoip Hp Hop) as [_ ->]. rewrite (Forward_open _ _ _ _ _ p (mkGochan [] false)) by done. reflexivity.
  - unfold listener_Accept. cbn [l_addr TmpCtx l_in negb andb chans]. rewrite list_lookup_insert_eq by done. cbn [buf newCh app]. rewrite Hch, Ha.
    cbn [entries chans closed raddr]. rewrite list_insert_insert_eq, list_insert_id by done. by destruct l.
Qed.

(** A port that the server listens on for the client is a way in: once ListenTCP
    was granted, a connection that the server opens for that address, IPv4 or IPv6,
    goes through the mux, the handlers and the list of forwards to the listener,
    which accepts it with the addresses of both sides; both ends can then send. *)
Theorem forwarded_connection_accepted pick1 pick2 await ip port0 port oip oport m0 m1 l0 l sent p mA mB hs w :
  listen_tcp up await true (Some ip) port0 m0 l0 = (m1, l, sent, Ok (mkListener (TCPAddr (Some ip) port) p true)) ->
  find_entry (TCPAddr (Some ip) port) l0 = None ->
  ip_ok ip -> ip_ok oip -> 0 < port < 65536 -> 0 < oport < 65536 ->
  mux_ok mA -> mux_ok mB -> size mA + 1 < 2 ^ 32 -> size mB + 1 < 2 ^ 32 ->
  muxHalted mA = false -> muxHalted mB = false -> (List.length (incomingChannels mB) < chanSize)%nat ->
  hs !! "forwarded-tcpip" = Some w -> (List.length w < chanSize)%nat ->
  exists mA1 p1 pa mB1 pb l1 p2 b mA2 mA3 a,
    openChannel up "forwarded-tcpip" (forwarded_payload ip port oip oport) mA = (mA1, [p1], (pa, None)) /\
    onePacket up pick1 p1 mB = (mB1, [], Ok None) /\ incomingChannels mB1 = incomingChannels mB ++ [pb] /\
    handle_open up false false pb mB1 (Some hs) = (mB1, Some (<["forwarded-tcpip" := w ++ [pb]]> hs), [], Ok true) /\
    handle_forward up (NewChannel pb false false) mB1 l = (mB1, l1, [], Ok true) /\
    listener_Accept up false false (mkListener (TCPAddr (Some ip) port) p true) mB1 l1 =
      (put_channel pb b mB1, l, [p2], Ok (mkConn pb (TCPAddr (Some ip) port) (TCPAddr (Some oip) oport))) /\
    onePacket up pick2 p2 mA1 = (mA2, [], Ok None) /\ await_open false pa mA2 = (mA3, Ok None) /\
    heap mA3 !! pa = Some a /\ opened a b /\ opened b a.
Proof.
  intros Hl Hno Hip Hoip Hp Hop HA HB SA SB HhA HhB Hroom Hhs Hw.
  apply listen_tcp_ok in Hl as (port' & [= <- ->] & ->).
  destruct (forwarded_read ip port oip oport Hip Hoip Hp Hop) as [Hs _].
  destruct (opening_path pick1 pick2 "forwarded-tcpip" (forwarded_payload ip port oip oport) mA mB HA HB SA SB HhA HhB)
    as (mA1 & p1 & pa & mB1 & pb & idA & idB & b & p2 & mA2 & a & mA3 & E1 & E2 & E3 & E4 & E5 & E6 & E7 & E8 & E9 & E10 & _);
    [change (slen "forwarded-tcpip") with 15; lia|done|].
  destruct (forwarded_path ip port oip oport true (List.length (chans l0)) pb mB1 (add (TCPAddr (Some ip) port) l0).1 hs w idA idB b p2)
    as (l1 & F1 & F2 & F3); try done.
  - by apply find_added.
  - unfold add. cbn [fst chans]. by apply list_lookup_middle.
  - exists mA1, p1, pa, mB1, pb, l1, p2, b, mA2, mA3, a. by split_and!.
Qed.

(** ** Servers and versions *)

Lemma payload_of_struct t vs : typeTags t = [] -> Marshal t vs = fields_bytes vs.
Proof. intros H. unfold Marshal, marshalStruct. by rewrite H, fold_marshalField. Qed.

(** A server of this program never listens for a client: it answers every request
    to forward a port with a refusal, so ListenTCP returns an error. *)
Theorem listen_denied {Ping} (unm : string -> outcome Ping) mar rep now pick1 pick2 ctx ip port m l mB :
  match ip with Some ip => ip_ok ip | None => True end ->
  globalResponses m = [] -> muxHalted m = false -> ended m = false ->
  muxHalted mB = false -> ended mB = false -> (List.length (globalRequests mB) < chanSize)%nat ->
  exists p r mB1 q,
    onePacket up pick1 p mB = (mB1, [], Ok None) /\ globalRequests mB1 = globalRequests mB ++ [r] /\
    (forall m, DiscardRequestsExceptKeepalives up unm mar rep now [Got r] m = (m, [q], false)) /\
    listen_tcp up (fun m => mux_await_reply false (onePacket up pick2 q m).1.1) ctx ip port m l =
      (m, l, [p], Err "ssh: tcpip-forward request denied by peer").
Proof.
  intros Hip Hg Hh He HhB HeB Hroom.
  assert (slen (ip_text ip) < 256) as Ht by (destruct ip as [ip|]; [by apply IP_String_length|by vm_compute]).
  pose proof (slen_nonneg (ip_text ip)).
  assert (slen (forward_payload ip port) < 2 ^ 30) as Hs.
  { unfold forward_payload. rewrite payload_of_struct by done. cbn [fields_bytes]. rewrite !slen_app, string_field_bytes by lia.
    rewrite slen_app, slen_be_bytes. change (slen (field_bytes (VUint32 _))) with 4. change (slen "") with 0. lia. }
  destruct (global_answered pick2 false "" m) as (m' & E1 & E2); [by vm_compute|done..|].
  exists (Marshal globalRequestMsg [VString "tcpip-forward"; VBool true; VRest (forward_payload ip port)]), (mkRequest "tcpip-forward" true (forward_payload ip port)).
  eexists _, (global_answer false "").
  rewrite (global_arrives pick1) by (done || change (slen "tcpip-forward") with 13; lia). split; [reflexivity|]. split; [done|]. split; [done|].
  unfold listen_tcp, global_request. change (mux_SendRequest up "tcpip-forward" true (forward_payload ip port)) with
    ([Marshal globalRequestMsg [VString "tcpip-forward"; VBool true; VRest (forward_payload ip port)]], (true, @None string)).
  rewrite E1. cbn [fst]. by rewrite E2.
Qed.

Lemma after_first_here sub s : after_first sub (sub +:+ s) = Some s.
Proof. destruct (sub +:+ s) as [|c t] eqn:E; cbn [after_first]; rewrite <- E; unfold HasPrefix; by rewrite prefix_app, sdrop_app. Qed.

Lemma leading_digits_app s r : sall is_digit s = true -> match r with "" => True | String c _ => is_digit c = false end -> leading_digits (s +:+ r) = s.
Proof.
  intros Hs Hr. induction s as [|c s IH]; [destruct r as [|c r]; [done|simpl; by rewrite Hr]|].
  cbn [sall] in Hs. apply andb_prop in Hs as [Hc Hs]. cbn [String.append leading_digits]. rewrite Hc. by rewrite IH.
Qed.

(** A version of OpenSSH is known for its broken forwarding of port 0 exactly when
    its number is below 6. *)
Theorem broken_version_spec (n : N) rest :
  (n < 2 ^ 64)%N -> match rest with "" => True | String c _ => is_digit c = false end ->
  isBrokenOpenSSHVersion ("OpenSSH_" +:+ pretty n +:+ rest) = (n <? 6)%N.
Proof.
  intros Hn Hr. unfold isBrokenOpenSSHVersion. rewrite after_first_here. rewrite leading_digits_app by (done || apply pretty_N_digits).
  unfold Atoi_value. rewrite parse_uint_pretty by lia.
  destruct (N.ltb_spec n 6); destruct (Z.ltb_spec (Z.min (Z.of_N n) (2 ^ 63 - 1)) 6); lia || done.
Qed.

(** ** Defects *)

Lemma ParseIP_nonempty s ip : ParseIP s = Some ip -> ip <> [].
Proof.
  assert (forall g l, expand g = Some l -> l <> []) as He.
  { intros [[l e] r] l' H. unfold expand in H. destruct r; [|done]. destruct (Nat.ltb_spec (List.length l) 8) as [Hl|Hl]; destruct e as [e|]; try done.
    - injection H as <-. intros H. apply (f_equal List.length) in H. rewrite !length_app, repeat_length in H. simpl in H. lia.
    - injection H as <-. intros ->. simpl in Hl. lia. }
  assert (forall o l, o ≫= expand = Some l -> l <> []) as Hb by (intros o l H; apply bind_Some in H as (g & _ & H); by eapply He).
  unfold ParseIP. destruct (version s) as [[]|]; [| |done].
  - unfold parseIPv6. destruct (HasPrefix s "::"); [destruct (_ =? _)%string; [by intros [= <-]|]|]; apply Hb.
  - unfold parseIPv4. destruct (ipv4_go 4 false s) as [[[|a [|b [|c' [|d []]]]] []]|]; try done. by intros [= <-].
Qed.

Lemma hex_nonempty n s : hex n +:+ s <> "".
Proof. unfold hex. by repeat case_match. Qed.

Lemma IP_String_nonempty ip : ip <> [] -> IP_String ip <> "".
Proof.
  intros Hne. assert (ipv6_text ip <> "") as H6.
  { unfold ipv6_text. destruct (zero_run 8 0 ip (0%nat, 0%nat)) as [e n]. destruct (n <=? 1)%nat.
    - destruct ip as [|g [|h t]]; [done| |]; cbn [fmap list_fmap join]; [|apply hex_nonempty]. pose proof (hex_nonempty g "") as H. by rewrite string_app_nil_r in H.
    - by destruct (join ":" (hex <$> take e ip)). }
  unfold IP_String. case_bool_decide; [|done]. destruct (drop 6 ip) as [|x [|y [|z t]]]; try done. unfold ipv4_text. by destruct (itoa (x / 256)).
Qed.

(** A listener for all addresses, [Listen("tcp", ":8080")], has no IP: the server
    is asked for the address [<nil>], and no connection that a server can open is
    ever one of this listener. *)
Theorem wildcard_never_reached extra port q a r :
  forward_payload None port = Marshal channelForwardMsg [VString "<nil>"; VUint32 (to_uint32 port)] /\
  (forward_addrs "forwarded-tcpip" extra = Ok (a, r) -> same_addr a (TCPAddr None q) = false).
Proof.
  split; [done|]. unfold forward_addrs. change (("forwarded-tcpip" =? "forwarded-tcpip")%string) with true. cbn iota. intros H.
  apply obind_ok in H as (vs & _ & H).
  destruct vs as [|v vs]; [done|]. destruct v as [| | | | |s| | | |]; try done. do 3 (destruct vs as [|v vs]; [done|]; destruct v; try done). destruct vs; [|done].
  apply obind_ok in H as (a' & Ha & H). apply obind_ok in H as (r' & _ & [= <- <-]).
  unfold parseTCPAddr in Ha. destruct (_ || _); [done|]. destruct (ParseIP s) as [ip|] eqn:Hip; [|done]. injection Ha as <-.
  apply ParseIP_nonempty, IP_String_nonempty in Hip. unfold same_addr. cbn [Network Addr_String]. cbn [String.eqb andb]. apply String.eqb_neq.
  unfold JoinHostPort. change (lacks ":" "" && lacks "%" "") with true. cbn iota. cbn [String.append].
  destruct (IP_String ip) as [|c t]; [done|]. rewrite lacks_cons. destruct (Ascii.eqb_spec c ":") as [->|Hc]; cbn [negb andb].
  - done.
  - destruct (lacks ":" t && _); [|done]. cbn [String.append]. by intros [= H _].
Qed.

(** A listener of a client without a context panics when it is used. *)
Theorem accept_without_context_panics conn stop pick ip port p m l :
  listener_Accept conn stop pick (mkListener (TCPAddr ip port) p false) m l = (m, l, [], Panic "invalid memory address or nil pointer dereference").
Proof. done. Qed.

(** While a connection waits for a listener that does not accept, no other listener
    can be made or closed: Close waits too. *)
Theorem waiting_connection_blocks_close s s' x : holder s = Some x -> fwd_step s s' -> entries (flist s') = entries (flist s).
Proof. intros Hh H. by inversion H; subst; congruence || done. Qed.

(** ** Concrete forwards *)

Definition demo_ip : IP := IPv4 127 0 0 1.
Definition demo_origin : IP := [0x2001; 0xdb8; 0; 0; 0; 0; 0; 1].
Lemma demo_ips : ip_ok demo_ip /\ ip_ok demo_origin.
Proof. split; (split; [reflexivity|]); repeat (apply Forall_cons_2; [unfold group_ok; lia|]); apply Forall_nil_2. Qed.

(** A server that grants everything. *)
Definition granting (m : mux) : mux * outcome (bool * string * error_) := (m, Ok (true, be_bytes 4 8080, None)).
Definition demo_list : ForwardList := mkForwardList [mkEntry (TCPAddr (Some demo_ip) 8080) 0] [mkGochan [] false].

Lemma forwarded_connection_accepted_witness :
  exists mA1 p1 pa mB1 pb l1 p2 b,
    openChannel up "forwarded-tcpip" (forwarded_payload demo_ip 8080 demo_origin 5000) (newMux false) = (mA1, [p1], (pa, None)) /\
    listener_Accept up false false (mkListener (TCPAddr (Some demo_ip) 8080) 0 true) mB1 l1 =
      (put_channel pb b mB1, demo_list, [p2], Ok (mkConn pb (TCPAddr (Some demo_ip) 8080) (TCPAddr (Some demo_origin) 5000))).
Proof.
  destruct (forwarded_connection_accepted false false granting demo_ip 0 8080 demo_origin 5000 (newMux false) (newMux false) (mkForwardList [] [])
    demo_list [Marshal globalRequestMsg [VString "tcpip-forward"; VBool true; VRest (forward_payload (Some demo_ip) 0)]] 0 (newMux false) (newMux false)
    (default ∅ NewClient) []) as (mA1 & p1 & pa & mB1 & pb & l1 & p2 & b & mA2 & mA3 & a & H1 & _ & _ & _ & _ & H6 & _);
    try apply newMux_ok; try apply demo_ips; try (split; reflexivity); try (vm_compute; reflexivity).
  - apply Nat.ltb_lt. reflexivity.
  - apply Nat.ltb_lt. reflexivity.
  - exists mA1, p1, pa, mB1, pb, l1, p2, b. split; [exact H1|exact H6].
Defined.

(** A listener is made, two connections come in, of which the second waits for the first
    to be accepted; then all listeners are closed, and the second is still delivered. *)
Definition demo_addr : Addr := TCPAddr (Some demo_ip) 8080.
Definition demo_conn (n : nat) : forward := mkForward n (TCPAddr (Some demo_origin) 5000).
Definition demo_entries : list forwardEntry := [mkEntry demo_addr 0].
Definition demo_sent (n : nat) : sending := mkSending 0 demo_addr (demo_conn n).
Definition demo_waiting : state :=
  mkState (mkForwardList demo_entries [mkGochan [demo_conn 1] false]) (Some (demo_sent 2)) [demo_addr] [demo_sent 1] [].
Definition demo_delivered : state :=
  mkState (mkForwardList [] [mkGochan [] true]) None [demo_addr] [demo_sent 1; demo_sent 2] [(0%nat, demo_conn 1); (0%nat, demo_conn 2)].

Lemma demo_waiting_reached : rtc fwd_step start demo_waiting.
Proof.
  eapply rtc_l; [by apply (step_add start demo_addr (mkForwardList demo_entries [mkGochan [] false]) 0%nat)|].
  eapply rtc_l; [by apply (step_forward _ false false demo_addr 0%nat (demo_conn 1) (mkForwardList demo_entries [mkGochan [demo_conn 1] false]))|].
  eapply rtc_l; [by apply (step_wait _ false false demo_addr 0%nat (demo_conn 2) (mkForwardList demo_entries [mkGochan [demo_conn 1] false]))|].
  apply rtc_refl.
Qed.

Lemma demo_delivered_reached : rtc fwd_step start demo_delivered.
Proof.
  etrans; [exact demo_waiting_reached|].
  eapply rtc_l; [by eapply (step_receive demo_waiting 0%nat)|]. eapply rtc_l; [by eapply step_go_on|].
  eapply rtc_l; [by eapply step_close|]. eapply rtc_l; [by eapply (step_receive _ 0%nat)|]. apply rtc_refl.
Qed.

Lemma listeners_get_their_connections_witness :
  open_for demo_waiting 0 /\
  sent_to 0 (log demo_delivered) = [demo_conn 1; demo_conn 2] /\
  sent_to 0 (log demo_delivered) = taken_from 0 (received demo_delivered) ++ [].
Proof.
  destruct (listeners_get_their_connections demo_waiting demo_waiting_reached) as (_ & _ & Hw & _).
  destruct (listeners_get_their_connections demo_delivered demo_delivered_reached) as (_ & _ & _ & Hd & _).
  split; [exact (proj1 (Hw (demo_sent 2) eq_refl))|]. split; [reflexivity|exact (Hd 0%nat)].
Defined.

Lemma listen_denied_witness :
  exists p q, listen_tcp up (fun m => mux_await_reply false (onePacket up false q m).1.1) true (Some demo_ip) 8080 (newMux false) (mkForwardList [] []) =
    (newMux false, mkForwardList [] [], [p], Err "ssh: tcpip-forward request denied by peer").
Proof.
  destruct (listen_denied (@Ok string) (fun x => x) (fun _ x => x) 0 false false true (Some demo_ip) 8080 (newMux false) (mkForwardList [] []) (newMux false))
    as (p & r & mB1 & q & _ & _ & _ & H); try reflexivity; try apply demo_ips.
  - apply Nat.ltb_lt. reflexivity.
  - exists p, q. exact H.
Defined.

Lemma broken_version_spec_witness : isBrokenOpenSSHVersion "OpenSSH_5.9" = true.
Proof. exact (broken_version_spec 5 ".9" eq_refl eq_refl). Defined.
