(* ===== verification/Tunnels.v ===== *)
(** Tunnels (shovel.go; sshutil.go: the listeners of forward and reverse tunnels):
    the two goroutines of a shovel, the pair of shovels that copies both ways and
    its shutdown, and what starts them. *)
From S2P Require Import Prelude.
From S2P Require Import GoStrings.
From S2P Require Import NetIP.
From S2P Require Import Config.
From S2P Require Import Wire.
From S2P Require Import Flow.
From S2P Require Import Channel.
From S2P Require Import Mux.
From S2P Require Import Tricorder.
From S2P Require Import Direct.
From S2P Require Import Forwards.

(** ** A pair of shovels *)

(** A connection as this end has it: whether it is a channel of the ssh connection or a
    socket, all the chunks that arrived, those not yet read, whether nothing more arrives,
    whether writes fail, whether they have to wait (for the window of a channel, for the
    buffers of a socket), whether Close was called here, and what was written. *)
Record conn := mkConn_ {
  is_channel : bool; arrived : list string; inbox : list string;
  eof : bool; broken : bool; full : bool; conn_closed : bool; out : string }.

(** io.Copy: reading, holding what is to be written, waiting in Write with it, returned. *)
Inductive copier := Copying | Holding (chunk : string) | Waiting (chunk : string) | Finished.

(** A shovel: its halter, the goroutine that copies, and whether the other one,
    which waits for the request to stop, has run. *)
Record shovel := mkShovel { reqStop : bool; done_ : bool; copy : copier; stopper_ran : bool }.

(** The goroutine of the pair: waiting for a reason, for the end of AB, of BA. *)
Inductive watcher := Watching | WaitAB | WaitBA | Ended.

(** The shovel [true] is AB, which copies from b to a: it writes the connection
    [true] and reads [false]; BA the other way. [DoLog] wraps both ends. *)
Record shovelPair := mkPair {
  ends : bool -> conn;
  shovels : bool -> shovel;
  pair_req : bool;
  pair_done : bool;
  watch : watcher;
}.

Definition upd {A} (f : bool -> A) (d : bool) (x : A) : bool -> A := fun e => if Bool.eqb d e then x else f e.

Lemma upd_at {A} (f : bool -> A) d x : upd f d x d = x. Proof. by destruct d. Qed.
Lemma upd_other {A} (f : bool -> A) d x : upd f d x (negb d) = f (negb d). Proof. by destruct d. Qed.

Definition set_end (d : bool) (c : conn) (p : shovelPair) : shovelPair := mkPair (upd (ends p) d c) (shovels p) (pair_req p) (pair_done p) (watch p).
Definition set_shovel (d : bool) (s : shovel) (p : shovelPair) : shovelPair :=
  mkPair (ends p) (upd (shovels p) d s) (pair_req p) (pair_done p) (watch p).

Definition set_inbox (l : list string) (c : conn) : conn :=
  mkConn_ (is_channel c) (arrived c) l (eof c) (broken c) (full c) (conn_closed c) (out c).
Definition write (x : string) (c : conn) : conn :=
  mkConn_ (is_channel c) (arrived c) (inbox c) (eof c) (broken c) (full c) (conn_closed c) (out c +:+ x).
Definition close_conn (c : conn) : conn :=
  mkConn_ (is_channel c) (arrived c) (inbox c) (eof c) (broken c) (full c) true (out c).
(** What the peers and the system do to a connection. *)
Definition arrive (x : string) (c : conn) : conn :=
  mkConn_ (is_channel c) (arrived c ++ [x]) (inbox c ++ [x]) (eof c) (broken c) (full c) (conn_closed c) (out c).
Definition set_eof (c : conn) : conn := mkConn_ (is_channel c) (arrived c) (inbox c) true (broken c) (full c) (conn_closed c) (out c).
Definition set_broken (c : conn) : conn := mkConn_ (is_channel c) (arrived c) (inbox c) (eof c) true (full c) (conn_closed c) (out c).
Definition set_full (b : bool) (c : conn) : conn := mkConn_ (is_channel c) (arrived c) (inbox c) (eof c) (broken c) b (conn_closed c) (out c).

Definition set_copy (k : copier) (s : shovel) : shovel := mkShovel (reqStop s) (done_ s) k (stopper_ran s).
Definition request_stop (s : shovel) : shovel := mkShovel true (done_ s) (copy s) (stopper_ran s).
(** MarkDone of a halter without others downstream. *)
Definition mark_done (s : shovel) : shovel := mkShovel true true (copy s) (stopper_ran s).
Definition stopped (s : shovel) : shovel := mkShovel true true (copy s) true.

Definition request_stop_pair (p : shovelPair) : shovelPair :=
  mkPair (ends p) (fun d => request_stop (shovels p d)) true (pair_done p) (watch p).

Definition close_both (DoLog : bool) (p : shovelPair) : shovelPair :=
  if DoLog then p else mkPair (fun d => close_conn (ends p d)) (shovels p) (pair_req p) (pair_done p) (watch p).

(** A reason for the pair to end. *)
Definition triggered (p : shovelPair) : bool :=
  pair_req p || pair_done p || reqStop (shovels p true) || done_ (shovels p true) || reqStop (shovels p false) || done_ (shovels p false).

(** Close of a socket ends its Read and Write at once. Close of a channel stops no
    one who waits: what has arrived can still be read, then Read waits for the end that
    the peer sends; a Write that begins after it fails, one that waits for the window
    goes on waiting, until the peer makes room or closes too. *)
Definition read_fails (c : conn) : bool := conn_closed c && negb (is_channel c).
Definition write_fails (c : conn) : bool := conn_closed c || broken c.
Definition can_wait (c : conn) : bool := full c && negb (write_fails c).
Definition wakes (c : conn) : bool := negb (full c) || broken c || read_fails c.

(** What the goroutines do. A write takes a part of the chunk, or all. *)
Inductive pair_step (DoLog : bool) : shovelPair -> shovelPair -> Prop :=
| copy_read p d x xs :
    copy (shovels p d) = Copying -> read_fails (ends p (negb d)) = false -> inbox (ends p (negb d)) = x :: xs ->
    pair_step DoLog p (set_shovel d (set_copy (Holding x) (shovels p d)) (set_end (negb d) (set_inbox xs (ends p (negb d))) p))
| copy_end p d :
    copy (shovels p d) = Copying ->
    read_fails (ends p (negb d)) = true \/ (inbox (ends p (negb d)) = [] /\ eof (ends p (negb d)) = true) ->
    pair_step DoLog p (set_shovel d (mark_done (set_copy Finished (shovels p d))) p)
| copy_write p d x y :
    copy (shovels p d) = Holding (x +:+ y) -> x <> "" \/ y = "" -> write_fails (ends p d) = false -> full (ends p d) = false ->
    pair_step DoLog p (set_shovel d (set_copy (if (y =? "")%string then Copying else Holding y) (shovels p d)) (set_end d (write x (ends p d)) p))
| copy_wait p d x :
    copy (shovels p d) = Holding x -> can_wait (ends p d) = true ->
    pair_step DoLog p (set_shovel d (set_copy (Waiting x) (shovels p d)) p)
| copy_wake p d x :
    copy (shovels p d) = Waiting x -> wakes (ends p d) = true ->
    pair_step DoLog p (set_shovel d (set_copy (Holding x) (shovels p d)) p)
| copy_fail p d x :
    copy (shovels p d) = Holding x -> write_fails (ends p d) = true ->
    pair_step DoLog p (set_shovel d (mark_done (set_copy Finished (shovels p d))) p)
| stopper p d :
    reqStop (shovels p d) = true -> stopper_ran (shovels p d) = false ->
    pair_step DoLog p (close_both DoLog (set_shovel d (stopped (shovels p d)) p))
| watch_reason p :
    watch p = Watching -> triggered p = true ->
    pair_step DoLog p (set_shovel true (request_stop (shovels p true)) (mkPair (ends p) (shovels p) (pair_req p) (pair_done p) WaitAB))
| watch_ab p :
    watch p = WaitAB -> done_ (shovels p true) = true ->
    pair_step DoLog p (set_shovel false (request_stop (shovels p false)) (mkPair (ends p) (shovels p) (pair_req p) (pair_done p) WaitBA))
| watch_ba p :
    watch p = WaitBA -> done_ (shovels p false) = true ->
    pair_step DoLog p (mkPair (ends p) (fun d => request_stop (shovels p d)) true true Ended).

(** What the peers and others do: send, end, vanish, take or take no more, ask to stop. A
    peer that closes a channel, or the end of the ssh connection, is an end and a break. *)
Inductive env_step : shovelPair -> shovelPair -> Prop :=
| env_arrive p d x : eof (ends p d) = false -> env_step p (set_end d (arrive x (ends p d)) p)
| env_eof p d : env_step p (set_end d (set_eof (ends p d)) p)
| env_break p d : env_step p (set_end d (set_broken (ends p d)) p)
| env_full p d b : env_step p (set_end d (set_full b (ends p d)) p)
| env_stop p : env_step p (request_stop_pair p).

Definition any_step (DoLog : bool) (p p' : shovelPair) : Prop := pair_step DoLog p p' \/ env_step p p'.

(** [Start] on two fresh connections, which are channels or sockets. *)
Definition fresh (channel : bool) : conn := mkConn_ channel [] [] false false false false "".
Definition Start (channel : bool -> bool) : shovelPair :=
  mkPair (fun d => fresh (channel d)) (fun _ => mkShovel false false Copying false) false false Watching.

(** ** What is copied *)

Definition concat_all (l : list string) : string := foldr String.append "" l.

Lemma concat_all_app l m : concat_all (l ++ m) = concat_all l +:+ concat_all m.
Proof. induction l as [|x l IH]; [done|]. cbn [app concat_all foldr]. unfold concat_all in IH. by rewrite IH, string_app_assoc. Qed.

(** What was read and not written. *)
Definition held (s : shovel) : string := match copy s with Holding x | Waiting x => x | _ => "" end.

(** What arrived is what was written on the other side, and what is held and
    waits; once the copying has ended, something may be lost after it. *)
Definition faithful (p : shovelPair) (d : bool) : Prop :=
  exists lost, concat_all (arrived (ends p (negb d))) = out (ends p d) +:+ lost +:+ held (shovels p d) +:+ concat_all (inbox (ends p (negb d))) /\
    (copy (shovels p d) <> Finished -> lost = "").

(** The same connections, up to what [faithful] does not see. *)
Lemma faithful_same p p' d :
  arrived (ends p' (negb d)) = arrived (ends p (negb d)) -> inbox (ends p' (negb d)) = inbox (ends p (negb d)) -> out (ends p' d) = out (ends p d) ->
  held (shovels p' d) = held (shovels p d) -> (copy (shovels p' d) <> Finished -> copy (shovels p d) <> Finished) -> faithful p d -> faithful p' d.
Proof. intros E1 E2 E3 E4 E5 (lost & H1 & H2). exists lost. rewrite E1, E2, E3, E4. auto. Qed.

(** A step that concerns neither the data of [e] nor its copier. *)
Ltac other e := eapply faithful_same; [..|eassumption]; cbn; unfold upd, held; try destruct e; cbn; try done; try congruence.

Lemma faithful_step DoLog p p' : any_step DoLog p p' -> (forall d, faithful p d) -> forall d, faithful p' d.
Proof.
  intros [HS|HS] HI e; pose proof (HI e) as HF.
  - destruct HS as [p d x xs Hk Hc Hi|p d Hk Hc|p d x y Hk Hx Hb Hf|p d x Hk Hw|p d x Hk Hw|p d x Hk Hc|p d Hr Hn|p Hw Ht|p Hw Hd|p Hw Hd].
    1-6: destruct (decide (d = e)) as [->|Hne]; [|destruct d; other e].
    7-10: destruct DoLog; other e; destruct d; done.
    all: destruct HF as (lost & H1 & H2); unfold held in H1; rewrite Hk in H1, H2.
    + exists lost. rewrite Hi in H1. unfold held. destruct e; cbn in *; (split; [exact H1|intros _; by apply H2]).
    + exists lost. unfold held. destruct e; cbn in *; done.
    + specialize (H2 ltac:(done)). subst lost. exists "". unfold held. split; [|done].
      destruct (String.eqb_spec y "") as [->|Hy]; destruct e; cbn in *; rewrite H1, ?string_app_nil_r, ?string_app_assoc; done.
    + exists lost. unfold held. destruct e; cbn in *; (split; [exact H1|intros _; by apply H2]).
    + exists lost. unfold held. destruct e; cbn in *; (split; [exact H1|intros _; by apply H2]).
    + exists (lost +:+ x). unfold held. destruct e; cbn in *; (split; [|done]); rewrite H1, ?string_app_assoc; done.
  - destruct HS as [p d x He|p d|p d|p d b|p]; [|destruct d; other e..|other e].
    destruct (decide (d = negb e)) as [->|Hne]; [|destruct d; other e].
    destruct HF as (lost & H1 & H2). exists lost. unfold held in *. destruct e; cbn in *; (split; [|done]); rewrite !concat_all_app, H1, !string_app_assoc; done.
Qed.

(** C20: Whatever the peers do and whenever the pair stops, a tunnel makes nothing up,
    reorders and repeats nothing: what was written to one side is a prefix of what
    arrived at the other, and while the copying goes on the rest is held or waits. *)
Theorem tunnel_copies DoLog channel p :
  rtc (any_step DoLog) (Start channel) p ->
  forall d, exists rest, concat_all (arrived (ends p (negb d))) = out (ends p d) +:+ rest /\
    (copy (shovels p d) <> Finished -> rest = held (shovels p d) +:+ concat_all (inbox (ends p (negb d)))).
Proof.
  intros Hr d. assert (forall e, faithful p e) as HF.
  { apply (rtc_invariant (any_step DoLog) (fun p => forall e, faithful p e) (Start channel) p); [intros a b Ha Hab; by apply (faithful_step DoLog a b)|exact Hr|].
    intros e. by exists "". }
  destruct (HF d) as (lost & H1 & H2). eexists. split; [exact H1|]. intros Hk. by rewrite (H2 Hk).
Qed.

(** ** The end *)

(** How many steps are left, at most. *)
Definition weight (l : list string) : nat := foldr (fun x n => 5 + String.length x + n)%nat 0%nat l.
Definition rank (p : shovelPair) (d : bool) : nat :=
  match copy (shovels p d) with
  | Finished => 0
  | Copying => 1 + weight (inbox (ends p (negb d)))
  | Holding x => 2 + String.length x + (if can_wait (ends p d) then 2 else 0) + weight (inbox (ends p (negb d)))
  | Waiting x => 3 + String.length x + weight (inbox (ends p (negb d)))
  end + (if stopper_ran (shovels p d) then 0 else 1).
Definition watch_rank (w : watcher) : nat := match w with Watching => 3 | WaitAB => 2 | WaitBA => 1 | Ended => 0 end.
Definition measure (p : shovelPair) : nat := rank p true + rank p false + watch_rank (watch p).

Lemma rank_same p p' d :
  copy (shovels p' d) = copy (shovels p d) -> stopper_ran (shovels p' d) = stopper_ran (shovels p d) ->
  inbox (ends p' (negb d)) = inbox (ends p (negb d)) -> can_wait (ends p' d) = can_wait (ends p d) -> rank p' d = rank p d.
Proof. unfold rank. by intros -> -> -> ->. Qed.

Lemma sum_decreases p p' d :
  (rank p' d < rank p d)%nat -> (rank p' (negb d) <= rank p (negb d))%nat -> watch p' = watch p -> (measure p' < measure p)%nat.
Proof. intros H1 H2 H3. unfold measure. rewrite H3. destruct d; cbn in *; lia. Qed.

Lemma watch_decreases p p' :
  (forall d, rank p' d = rank p d) -> (watch_rank (watch p') < watch_rank (watch p))%nat -> (measure p' < measure p)%nat.
Proof. intros H1 H2. unfold measure. rewrite !H1. lia. Qed.

(** Closing only takes reasons to wait away. *)
Lemma closed_cannot_wait c : can_wait (close_conn c) = false.
Proof. unfold can_wait, write_fails. cbn. apply andb_false_r. Qed.
Lemma awake_cannot_wait c : wakes c = true -> can_wait c = false.
Proof. unfold wakes, can_wait, read_fails, write_fails. destruct (full c), (broken c), (conn_closed c), (is_channel c); done. Qed.

Lemma stopper_rank DoLog p d e :
  (rank (close_both DoLog (set_shovel d (stopped (shovels p d)) p)) e <= rank p e)%nat.
Proof.
  unfold rank. destruct DoLog; cbn [close_both ends shovels set_shovel].
  - unfold upd. destruct (Bool.eqb_spec d e) as [->|]; [|done]. cbn [stopped copy stopper_ran]. destruct (stopper_ran _), (copy _); lia.
  - rewrite closed_cannot_wait. cbn [close_conn inbox]. unfold upd. destruct (Bool.eqb_spec d e) as [->|]; cbn [stopped copy stopper_ran].
    + destruct (stopper_ran _), (copy _); try destruct (can_wait _); lia.
    + destruct (copy _); try destruct (can_wait _); lia.
Qed.

Lemma measure_decreases DoLog p p' : pair_step DoLog p p' -> (measure p' < measure p)%nat.
Proof.
  intros [p0 d x xs Hk Hc Hi|p0 d Hk Hc|p0 d x y Hk Hx Hb Hf|p0 d x Hk Hw|p0 d x Hk Hw|p0 d x Hk Hc|p0 d Hr Hn|p0 Hw Ht|p0 Hw Hd|p0 Hw Hd].
  1-6: apply (sum_decreases _ _ d); [|apply Nat.eq_le_incl; destruct d; by apply rank_same|done].
  1-6: unfold rank; rewrite Hk; cbn [ends shovels set_shovel set_end]; rewrite upd_at; cbn [set_copy mark_done copy stopper_ran].
  - rewrite Hi, upd_at. cbn [set_inbox inbox weight foldr]. fold (weight xs). destruct (can_wait _); lia.
  - lia.
  - rewrite upd_at, upd_other. assert (can_wait (write x (ends p0 d)) = false) as -> by (unfold can_wait; cbn; by rewrite Hf).
    assert (can_wait (ends p0 d) = false) as -> by (unfold can_wait; by rewrite Hf). rewrite string_app_length.
    destruct (String.eqb_spec y "") as [->|Hy]; [lia|]. destruct Hx as [Hx|]; [|done]. destruct x; [done|]. cbn. lia.
  - rewrite Hw. lia.
  - rewrite awake_cannot_wait by done. lia.
  - lia.
  - apply (sum_decreases _ _ d); [|apply stopper_rank|by destruct DoLog].
    pose proof (stopper_rank DoLog p0 d d) as Hle. revert Hle. unfold rank. rewrite Hn.
    assert (stopper_ran (shovels (close_both DoLog (set_shovel d (stopped (shovels p0 d)) p0)) d) = true) as -> by (by destruct DoLog, d).
    assert (copy (shovels (close_both DoLog (set_shovel d (stopped (shovels p0 d)) p0)) d) = copy (shovels p0 d)) as -> by (by destruct DoLog, d).
    destruct DoLog; cbn [close_both ends set_shovel]; [destruct (copy _); try destruct (can_wait _); lia|].
    rewrite closed_cannot_wait. cbn [close_conn inbox]. destruct (copy _); try destruct (can_wait _); lia.
  - apply watch_decreases; [intros d; destruct d; by apply rank_same|]. rewrite Hw. cbn. lia.
  - apply watch_decreases; [intros d; destruct d; by apply rank_same|]. rewrite Hw. cbn. lia.
  - apply watch_decreases; [intros d; destruct d; by apply rank_same|]. rewrite Hw. cbn. lia.
Qed.

(** What the flags of a shovel mean, and that they are only raised. *)
Definition flags_ok (s : shovel) : Prop :=
  (stopper_ran s = true -> done_ s = true) /\ (copy s = Finished -> done_ s = true) /\ (done_ s = true -> reqStop s = true).
Record grows (s s' : shovel) : Prop := mkGrows {
  keeps_req : reqStop s = true -> reqStop s' = true;
  keeps_done : done_ s = true -> done_ s' = true;
  keeps_ok : flags_ok s -> flags_ok s';
}.

Lemma grows_refl s : grows s s. Proof. by split. Qed.
Lemma grows_request s : grows s (request_stop s). Proof. split; cbn; try done. unfold flags_ok. naive_solver. Qed.
Lemma grows_done k s : grows s (mark_done (set_copy k s)). Proof. split; done. Qed.
Lemma grows_stopped s : grows s (stopped s). Proof. split; done. Qed.
Lemma grows_copy k s : copy s <> Finished -> k <> Finished -> grows s (set_copy k s).
Proof. intros H1 H2. split; cbn; try done. unfold flags_ok. naive_solver. Qed.
Lemma upd_grows f d e s : grows (f d) s -> grows (f e) (upd f d s e).
Proof. intros H. unfold upd. destruct d, e; try exact H; apply grows_refl. Qed.

#[local] Hint Resolve grows_refl grows_request grows_done grows_stopped grows_copy upd_grows : tunnels.

Lemma step_grows DoLog p p' : any_step DoLog p p' -> forall e, grows (shovels p e) (shovels p' e).
Proof.
  intros [HS|HS] e; destruct HS; try destruct DoLog; cbn; try apply upd_grows; auto with tunnels.
  all: apply grows_copy; [congruence|]; try destruct (_ =? _)%string; congruence.
Qed.

Record shape (DoLog : bool) (p : shovelPair) : Prop := mkShape {
  flags : forall d, flags_ok (shovels p d);
  ran_closed : DoLog = false -> forall d e, stopper_ran (shovels p d) = true -> conn_closed (ends p e) = true;
  watch_req : watch p <> Watching -> reqStop (shovels p true) = true;
  watch_second : watch p = WaitBA \/ watch p = Ended -> done_ (shovels p true) = true /\ reqStop (shovels p false) = true;
  watch_over : watch p = Ended -> done_ (shovels p false) = true /\ pair_done p = true;
}.

(** Connections stay closed; and they are, once a stopper has run. *)
Lemma step_closed DoLog p p' : any_step DoLog p p' -> DoLog = false ->
  (forall e, conn_closed (ends p e) = true -> conn_closed (ends p' e) = true) /\
  ((forall d, stopper_ran (shovels p' d) = stopper_ran (shovels p d)) \/ forall e, conn_closed (ends p' e) = true).
Proof.
  intros HS ->. destruct HS as [HS|HS]; destruct HS; try destruct d; cbn; unfold upd; (split; [by intros []|]).
  all: first [by right|left; by intros []].
Qed.

Lemma step_watch DoLog p p' : any_step DoLog p p' ->
  (watch p' = watch p /\ pair_done p' = pair_done p) \/
  (watch p' = WaitAB /\ reqStop (shovels p' true) = true) \/
  (watch p = WaitAB /\ watch p' = WaitBA /\ done_ (shovels p true) = true /\ reqStop (shovels p' false) = true) \/
  (watch p = WaitBA /\ watch p' = Ended /\ done_ (shovels p false) = true /\ pair_done p' = true).
Proof. intros [HS|HS]; destruct HS; try destruct DoLog; cbn; auto 10. Qed.

Lemma shape_step DoLog p p' : any_step DoLog p p' -> shape DoLog p -> shape DoLog p'.
Proof.
  intros HS [H1 H2 H3 H4 H5]. pose proof (step_grows _ _ _ HS) as HG. split.
  - intros d. apply (keeps_ok _ _ (HG d)), H1.
  - intros HD d e Hd. destruct (step_closed _ _ _ HS HD) as [Hc [Hr|Hr]]; [|apply Hr]. rewrite Hr in Hd. by apply Hc, (H2 HD d).
  - destruct (step_watch _ _ _ HS) as [[-> _]|[[-> ?]|[(Hw & -> & _)|(Hw & -> & _)]]]; [|done|..]; intros Hn; apply (keeps_req _ _ (HG true)), H3; congruence.
  - destruct (step_watch _ _ _ HS) as [[-> _]|[[-> ?]|[(Hw & -> & Hd & Hq)|(Hw & -> & _)]]]; intros Hn; [| |split; [by apply (keeps_done _ _ (HG true))|done]|].
    + destruct (H4 Hn). split; [by apply (keeps_done _ _ (HG true))|by apply (keeps_req _ _ (HG false))].
    + by destruct Hn.
    + destruct (H4 (or_introl Hw)). split; [by apply (keeps_done _ _ (HG true))|by apply (keeps_req _ _ (HG false))].
  - destruct (step_watch _ _ _ HS) as [[-> ->]|[[-> ?]|[(Hw & -> & Hd & Hq)|(Hw & -> & Hd & Hq)]]]; intros Hn; try done.
    + destruct (H5 Hn). split; [by apply (keeps_done _ _ (HG false))|done].
    + split; [by apply (keeps_done _ _ (HG false))|done].
Qed.

Lemma shape_reachable DoLog channel p : rtc (any_step DoLog) (Start channel) p -> shape DoLog p.
Proof.
  intros Hr. apply (rtc_invariant (any_step DoLog) (shape DoLog) (Start channel) p); [intros a b Ha Hab; by apply (shape_step _ a)|exact Hr|by split; cbn; try naive_solver].
Qed.

(** A copy waits for the peer of a channel: for the end that the peer sends, or for
    room in the peer's window. *)
Definition waits (p : shovelPair) (d : bool) : Prop :=
  (copy (shovels p d) = Copying /\ is_channel (ends p (negb d)) = true /\ inbox (ends p (negb d)) = [] /\ eof (ends p (negb d)) = false) \/
  (exists x, copy (shovels p d) = Waiting x /\ is_channel (ends p d) = true /\ full (ends p d) = true /\ broken (ends p d) = false).

(** The pair has ended: it and its shovels are done and both connections closed. *)
Definition ended (p : shovelPair) : Prop :=
  watch p = Ended /\ pair_done p = true /\
  forall d, conn_closed (ends p d) = true /\ done_ (shovels p d) = true /\ (copy (shovels p d) = Finished \/ waits p d).
(** And no goroutine is left. *)
Definition over (p : shovelPair) : Prop := ended p /\ forall d, copy (shovels p d) = Finished.

(** The peers of the channels have closed them too, or the ssh connection has ended. *)
Definition peers_closed (p : shovelPair) : Prop :=
  forall d, is_channel (ends p d) = true -> eof (ends p d) = true /\ broken (ends p d) = true.

(** Something makes the pair stop: it was asked to, or one peer has said its last and
    the other takes what is left. *)
Definition ending (p : shovelPair) : Prop :=
  triggered p = true \/ exists d, eof (ends p d) = true /\ full (ends p (negb d)) = false.

Lemma ended_over p : ended p -> peers_closed p -> over p.
Proof.
  intros (H1 & H2 & H3) Hp. split; [done|]. intros d. destruct (H3 d) as (_ & _ & [Hk|[(_ & Hc & _ & He)|(x & _ & Hc & _ & Hb)]]); [done|..].
  - destruct (Hp _ Hc). congruence.
  - destruct (Hp _ Hc). congruence.
Qed.

(** A copy between closed connections, or one whose source has ended, goes on. *)
Lemma copier_moves DoLog p d :
  (conn_closed (ends p (negb d)) = true /\ conn_closed (ends p d) = true) \/ (eof (ends p (negb d)) = true /\ full (ends p d) = false) ->
  copy (shovels p d) = Finished \/ waits p d \/ exists p', pair_step DoLog p p'.
Proof.
  intros H. destruct (copy (shovels p d)) as [|x|x|] eqn:Ek; [right..|by left].
  - destruct (read_fails (ends p (negb d))) eqn:Ec; [right; eexists; eapply copy_end; eauto|].
    destruct (inbox (ends p (negb d))) as [|x xs] eqn:Ei; [|right; eexists; by eapply copy_read].
    destruct (eof (ends p (negb d))) eqn:Ee; [right; eexists; eapply copy_end; eauto|]. left. left. split_and!; try done.
    destruct H as [[H _]|[H _]]; [|done]. unfold read_fails in Ec. rewrite H in Ec. by apply negb_false_iff in Ec.
  - right. destruct (write_fails (ends p d)) eqn:Ec; [eexists; by eapply copy_fail|].
    destruct (full (ends p d)) eqn:Ef; [eexists; eapply (copy_wait _ _ d x); [done|unfold can_wait; by rewrite Ef, Ec]|].
    eexists. eapply (copy_write _ _ d x ""); [by rewrite string_app_nil_r|by right|done|done].
  - destruct (wakes (ends p d)) eqn:Ew; [right; eexists; by eapply copy_wake|]. left. right. exists x. unfold wakes, read_fails in Ew.
    apply orb_false_iff in Ew as [[Ef Eb]%orb_false_iff Er]. apply negb_false_iff in Ef. split_and!; try done.
    destruct H as [[_ H]|[_ H]]; [|congruence]. rewrite H in Er. by apply negb_false_iff in Er.
Qed.

Lemma done_triggers p d : flags_ok (shovels p d) -> copy (shovels p d) = Finished -> triggered p = true.
Proof. intros (_ & H & _) Hk. specialize (H Hk). unfold triggered. destruct d; rewrite H; by rewrite ?orb_true_r. Qed.

(** A shovel that was asked to stop is closed and done, or its goroutine can run. *)
Lemma asked_stops p d : shape false p -> reqStop (shovels p d) = true ->
  ((forall e, conn_closed (ends p e) = true) /\ done_ (shovels p d) = true) \/ exists p', pair_step false p p'.
Proof.
  intros H Hr. destruct (stopper_ran (shovels p d)) eqn:Er; [left|right; eexists; by apply stopper].
  split; [intros e; by apply (ran_closed _ _ H eq_refl d)|destruct (flags _ _ H d) as (Hd & _); by apply Hd].
Qed.

Lemma progress p : shape false p -> ending p -> ended p \/ exists p', pair_step false p p'.
Proof.
  intros H He. destruct (triggered p) eqn:Et; cycle 1.
  - destruct He as [He|(d & He & Hf)]; [congruence|].
    destruct (copier_moves false p (negb d)) as [Hk|[Hk|?]]; [right; by rewrite negb_involutive|..|by right].
    + apply done_triggers in Hk; [congruence|apply (flags _ _ H)].
    + exfalso. destruct Hk as [(_ & _ & _ & Hn)|(x & _ & _ & Hn & _)]; rewrite ?negb_involutive in Hn; congruence.
  - destruct (watch p) eqn:Ew; [right; eexists; by apply watch_reason|..].
    all: destruct (asked_stops p true H) as [[Hc Hd]|?]; [by apply (watch_req _ _ H); congruence| |by right].
    + right. eexists. by apply watch_ab.
    + destruct (asked_stops p false H) as [[_ Hd']|?]; [apply (watch_second _ _ H); by left| |by right].
      right. eexists. by apply watch_ba.
    + destruct (asked_stops p false H) as [[_ Hd']|?]; [apply (watch_second _ _ H); by right| |by right].
      destruct (copier_moves false p true) as [Hk|[Hk|?]]; [left; auto|..|by right].
      all: destruct (copier_moves false p false) as [Hk'|[Hk'|?]]; [left; auto|..|by right].
      all: left; split; [done|]; split; [by apply (watch_over _ _ H)|]; intros []; auto.
Qed.

Lemma triggered_grows DoLog p p' : pair_step DoLog p p' -> triggered p = true -> triggered p' = true.
Proof.
  intros HS. pose proof (fun e => step_grows _ _ _ (or_introl HS) e) as HG.
  assert (pair_req p = true -> pair_req p' = true) as E1 by (destruct HS; try destruct DoLog; done).
  assert (pair_done p = true -> pair_done p' = true) as E2 by (destruct HS; try destruct DoLog; done).
  unfold triggered. rewrite !orb_true_iff. intros [[[[[A|A]|A]|A]|A]|A].
  - rewrite (E1 A). tauto.
  - rewrite (E2 A). tauto.
  - rewrite (keeps_req _ _ (HG true) A). tauto.
  - rewrite (keeps_done _ _ (HG true) A). tauto.
  - rewrite (keeps_req _ _ (HG false) A). tauto.
  - rewrite (keeps_done _ _ (HG false) A). tauto.
Qed.

(** The goroutines change nothing of what the peers and the system do. *)
Lemma step_outside DoLog p p' e : pair_step DoLog p p' ->
  is_channel (ends p' e) = is_channel (ends p e) /\ eof (ends p' e) = eof (ends p e) /\
  broken (ends p' e) = broken (ends p e) /\ full (ends p' e) = full (ends p e).
Proof. intros HS. destruct HS; try destruct DoLog; cbn; unfold upd; try destruct d; by destruct e. Qed.

Lemma ending_step DoLog p p' : pair_step DoLog p p' -> ending p -> ending p'.
Proof.
  intros HS [H|(d & H & Hf)]; [left; by apply (triggered_grows DoLog p)|]. right. exists d.
  destruct (step_outside _ _ _ d HS) as (_ & -> & _), (step_outside _ _ _ (negb d) HS) as (_ & _ & _ & ->). done.
Qed.

Lemma peers_step DoLog p p' : pair_step DoLog p p' -> peers_closed p -> peers_closed p'.
Proof. intros HS H d. destruct (step_outside _ _ _ d HS) as (-> & -> & -> & _). apply H. Qed.

Lemma run_keeps n : forall p p', nsteps (pair_step false) n p p' -> shape false p -> ending p ->
  shape false p' /\ ending p' /\ (peers_closed p -> peers_closed p') /\ (n + measure p' <= measure p)%nat.
Proof.
  induction n as [|n IH]; intros p p' Hn H He.
  - inversion Hn; subst. auto.
  - inversion Hn as [|? ? q ? Hq Hn']; subst.
    destruct (IH q p' Hn') as (H1 & H2 & H3 & H4); [by apply (shape_step false p q (or_introl Hq))|by apply (ending_step _ _ _ Hq)|].
    pose proof (peers_step _ _ _ Hq). apply measure_decreases in Hq. split_and!; try done; [auto|lia].
Qed.

Lemma can_end n : forall p, (measure p < n)%nat -> shape false p -> ending p ->
  exists p', rtc (pair_step false) p p' /\ ended p' /\ (peers_closed p -> over p').
Proof.
  induction n as [|n IH]; intros p Hn H He; [lia|].
  destruct (progress p H He) as [Ho|[q Hq]]; [exists p; split; [done|]; split; [done|]; by apply ended_over|].
  destruct (IH q) as (p' & Hr & Ho & Hp); [apply measure_decreases in Hq; lia|by apply (shape_step _ p); [left|]|by apply (ending_step _ _ _ Hq)|].
  exists p'. split; [by eapply rtc_l|]. split; [done|]. intros H'. by apply Hp, (peers_step _ _ _ Hq).
Qed.

(** C19: A tunnel without logging ends: once it is asked to stop, or a peer has said its
    last and the other takes what is left, the goroutines take a bounded number of steps of
    their own, and when they can do no more both connections are closed and the pair and
    its shovels are done. Both copies have returned then, but for one that waits for the
    peer of a channel, which Close does not interrupt; when the peers have closed their
    ends of the channels too, none is left. *)
Theorem tunnel_ends channel p :
  rtc (any_step false) (Start channel) p -> ending p ->
  (exists p', rtc (pair_step false) p p' /\ ended p' /\ (peers_closed p -> over p')) /\
  forall n p', nsteps (pair_step false) n p p' ->
    (n <= measure p)%nat /\ ((ended p' /\ (peers_closed p -> over p')) \/ exists p'', pair_step false p' p'').
Proof.
  intros Hr He. pose proof (shape_reachable _ _ _ Hr) as H. split; [apply (can_end (S (measure p))); [lia|done..]|].
  intros n p' Hn. destruct (run_keeps n p p' Hn H He) as (H1 & H2 & H3 & H4). split; [lia|].
  destruct (progress p' H1 H2) as [Ho|?]; [left|by right]. split; [done|]. intros Hp. by apply ended_over, H3.
Qed.

(** ** What goes wrong *)

(** One step of a run, with its state computed. *)
Tactic Notation "go" tactic3(t) :=
  eapply rtc_l; [t|match goal with |- rtc _ ?p _ => let q := eval vm_compute in p in change p with q end].

(** A forward tunnel: the connection of the client is a socket, the other one a channel. *)
Definition forward_ends (d : bool) : bool := negb d.

(** The first peer asks, says that it will ask no more and waits: what the other
    answers is lost when it is on its way as the pair shuts down. *)
Theorem half_close_loses_answer : exists p,
  rtc (any_step false) (Start forward_ends) p /\ over p /\
  out (ends p false) = "question" /\ arrived (ends p false) = ["answer"] /\ out (ends p true) = "".
Proof.
  eexists. split.
  - go (right; by apply (env_arrive _ true "question")). go (right; by apply (env_eof _ true)).
    go (left; by eapply (copy_read false _ false)). go (left; by eapply (copy_write false _ false "question" ""); [|right|..]).
    go (left; eapply (copy_end false _ false); [done|by right]).
    go (right; by apply (env_arrive _ false "answer")). go (left; by apply watch_reason).
    go (left; by apply (stopper false _ true)). go (left; by eapply (copy_read false _ true)). go (left; by eapply (copy_fail false _ true)).
    go (left; by apply watch_ab). go (left; by apply watch_ba). apply rtc_refl.
  - split; [|done]. split; [|by intros []]. split; [done|]. split; [done|]. intros []; auto.
Qed.

(** A shovel that says it is done may still be copying: Stop returns and a chunk is
    written on a connection after it. *)
Theorem done_before_copied : exists p p',
  rtc (any_step false) (Start forward_ends) p /\ done_ (shovels p true) = true /\ copy (shovels p true) = Holding "late" /\
  rtc (any_step true) (Start forward_ends) p' /\ watch p' = Ended /\ pair_done p' = true /\
  exists p'', pair_step true p' p'' /\ out (ends p'' true) = out (ends p' true) +:+ "late".
Proof.
  do 2 eexists. split; [|split; [|split; [|split]]].
  - go (right; by apply (env_arrive _ false "late")). go (left; by eapply (copy_read false _ true)).
    go (right; apply env_stop). go (left; by apply (stopper false _ true)). apply rtc_refl.
  - done.
  - done.
  - go (right; by apply (env_arrive _ false "late")). go (left; by eapply (copy_read true _ true)).
    go (right; apply env_stop). go (left; by apply (stopper true _ true)).
    go (left; by apply (stopper true _ false)). go (left; by apply watch_reason).
    go (left; by apply watch_ab). go (left; by apply watch_ba). apply rtc_refl.
  - split; [done|]. split; [done|]. eexists. split; [by eapply (copy_write true _ true "late" ""); [|right|..]|done].
Qed.

(** Close of a channel does not wake the goroutine that reads it: when the server does not
    close its end too, the pair is over and the copy waits for ever. *)
Theorem silent_peer_keeps_copy : exists p,
  rtc (any_step false) (Start forward_ends) p /\ ended p /\ copy (shovels p true) = Copying /\ forall p', ~ pair_step false p p'.
Proof.
  eexists. split; [|split; [|split]].
  - go (right; apply env_stop). go (left; by apply (stopper false _ true)). go (left; by apply (stopper false _ false)).
    go (left; eapply (copy_end false _ false); [done|by left]).
    go (left; by apply watch_reason). go (left; by apply watch_ab). go (left; by apply watch_ba). apply rtc_refl.
  - split; [done|]. split; [done|]. intros []; split_and!; try done; [|by left]. right. left. done.
  - done.
  - intros p' HS. inversion HS; subst; repeat match goal with d : bool |- _ => destruct d end; cbn in *; try done; naive_solver.
Qed.

(** With DoLog, Close of what wraps a connection does nothing: no connection is ever
    closed. *)
Lemma log_step_closes_nothing p p' : any_step true p p' -> forall d, conn_closed (ends p' d) = conn_closed (ends p d).
Proof. intros [HS|HS] e; destruct HS; cbn; unfold upd; try destruct d; by destruct e. Qed.

Theorem log_never_closes channel p : rtc (any_step true) (Start channel) p -> forall d, conn_closed (ends p d) = false.
Proof.
  intros Hr. apply (rtc_invariant (any_step true) (fun p => forall d, conn_closed (ends p d) = false) (Start channel) p); [|exact Hr|done].
  intros a b Ha Hab d. by rewrite (log_step_closes_nothing _ _ Hab).
Qed.

(** ** Where tunnels come from *)

(** What [StartupForwardListener] asks the system for; without an IP it is every
    interface. *)
Definition forward_listen_addr (t : TunnelSpec) : option IP * Z := (ParseIP (Host (Listen t)), Port (Listen t)).

Section Tunnels.
(** The transport's answer to a packet, the wait for the answer to an open channel,
    the system's listening, name lookup and dialling, and which errors are of type
    *net.OpError. *)
Context (conn : string -> option string) (await_open : nat -> mux -> mux * outcome error_).
Context (net_listen : option IP * Z -> error_) (ResolveTCPAddr : string -> outcome (option IP * Z)).
Context (net_dial : string -> outcome unit) (op_error : string -> bool).

(** A connection that was accepted: a pair of shovels between it and a channel of
    the ssh connection or a local connection, or nothing, with the connection left
    open. *)
Inductive tunnel := Shovelled (from : nat) (DoLog : bool) (to : nat) | LeftOpen (from : nat).

Definition NewForward (t : TunnelSpec) (fromBrowser : nat) (m : mux) : mux * list string * outcome tunnel :=
  match DialWithContext conn "tcp" (Config.Addr (Remote t)) m with
  | Ok (m, sent, (_, Some _)) => (m, sent, Ok (LeftOpen fromBrowser))
  | Ok (m, sent, (ch, None)) =>
      let '(m, r) := await_open ch m in
      (m, sent, let? e := r in Ok (match e with None => Shovelled fromBrowser false ch | Some _ => LeftOpen fromBrowser end))
  | Err _ => (m, [], Ok (LeftOpen fromBrowser))
  | Panic s => (m, [], Panic s)
  | Blocked => (m, [], Blocked)
  end.

(** What Accept of the local listener returns; a deadline of ten seconds is an
    *net.OpError too. *)
Inductive accepted := Browser (n : nat) | Failed (err : string).

Fixpoint forward_loop (t : TunnelSpec) (evs : list accepted) (m : mux) : mux * list string * list tunnel * outcome unit :=
  match evs with
  | [] => (m, [], [], Blocked)
  | Failed e :: evs => if op_error e then forward_loop t evs m else (m, [], [], Panic e)
  | Browser n :: evs =>
      let '(m, sent, r) := NewForward t n m in
      match r with
      | Ok x => let '(m, sent', l, r) := forward_loop t evs m in (m, sent ++ sent', x :: l, r)
      | Err e => (m, sent, [], Err e)
      | Panic s => (m, sent, [], Panic s)
      | Blocked => (m, sent, [], Blocked)
      end
  end.

Definition StartupForwardListener (t : TunnelSpec) (evs : list accepted) (m : mux)
  : error_ * (mux * list string * list tunnel * outcome unit) :=
  match net_listen (forward_listen_addr t) with
  | Some e => (Some ("could not -listen on " +:+ Config.Addr (Listen t) +:+ ": " +:+ e), (m, [], [], Ok tt))
  | None => (None, forward_loop t evs m)
  end.

Definition StartNewReverse (t : TunnelSpec) (fromRemote : chanConn) (local : nat) : outcome (tunnel + string) :=
  match net_dial (Config.Addr (Remote t)) with
  | Ok _ => Ok (inl (Shovelled (Channel_ fromRemote) false local))
  | Err e => Ok (inr ("Remote dial to '" +:+ Config.Addr (Remote t) +:+ "' error: " +:+ e))
  | Panic s => Panic s
  | Blocked => Blocked
  end.

(** The loop of [StartupReverseListener]: what select finds when the listener's Accept
    is called, and the number of the local connection. *)
Fixpoint reverse_loop (t : TunnelSpec) (ln : listener) (evs : list (bool * bool * nat)) (m : mux) (l : ForwardList)
  : mux * ForwardList * list string * list (tunnel + string) * outcome unit :=
  match evs with
  | [] => (m, l, [], [], Blocked)
  | (stop, pick, local) :: evs =>
      let '(m, l, sent, r) := listener_Accept conn stop pick ln m l in
      match r with
      | Err e =>
          if op_error e then let '(m, l, sent', ts, r) := reverse_loop t ln evs m l in (m, l, sent ++ sent', ts, r)
          else (m, l, sent, [], Panic e)
      | Ok c =>
          match StartNewReverse t c local with
          | Ok x => let '(m, l, sent', ts, r) := reverse_loop t ln evs m l in (m, l, sent ++ sent', x :: ts, r)
          | Err e => (m, l, sent, [], Err e)
          | Panic s => (m, l, sent, [], Panic s)
          | Blocked => (m, l, sent, [], Blocked)
          end
      | Panic s => (m, l, sent, [], Panic s)
      | Blocked => (m, l, sent, [], Blocked)
      end
  end.

(** [StartupReverseListener] up to its goroutine: the listener it serves. [ctx]: the
    ssh client has a context of its own. *)
Definition reverse_listener (await : mux -> mux * outcome (bool * string * error_)) (ServerVersion : string) (ctx : bool)
  (ports : list Z) (t : TunnelSpec) (m : mux) (l : ForwardList) : listening :=
  match ResolveTCPAddr (Config.Addr (Listen t)) with
  | Ok (ip, port) => ListenTCP conn await ServerVersion ctx ports ip port m l
  | Err e => (m, l, [], Err e)
  | Panic s => (m, l, [], Panic s)
  | Blocked => (m, l, [], Blocked)
  end.

(** *** Forward tunnels *)

Definition browsers (evs : list accepted) : list nat := omap (fun ev => match ev with Browser n => Some n | Failed _ => None end) evs.
Definition from_of (x : tunnel) : nat := match x with Shovelled n _ _ | LeftOpen n => n end.

Lemma NewForward_from t n m m' sent x : NewForward t n m = (m', sent, Ok x) -> from_of x = n.
Proof.
  unfold NewForward. intros H. destruct (DialWithContext conn "tcp" (Config.Addr (Remote t)) m) as [[[m1 s1] [ch e]]|e|e|]; try (by injection H as _ _ <-); try done.
  destruct e as [e|]; [by injection H as _ _ <-|]. destruct (await_open ch m1) as [m2 [[e|]|e|e|]]; by inversion H.
Qed.

Lemma NewForward_answered t n m m' sent r :
  (forall ch m, exists e, (await_open ch m).2 = Ok e) -> (exists hp, dial_target (Config.Addr (Remote t)) = Ok hp) ->
  NewForward t n m = (m', sent, r) -> exists x, r = Ok x.
Proof.
  intros Ha [[host port] Hd] H. unfold NewForward, DialWithContext in H. cbn [orb String.eqb Ascii.eqb Bool.eqb] in H. rewrite Hd in H. cbn [obind] in H.
  destruct (dialDirect conn IPv4zero 0 host port m) as [[m1 s1] [ch [e|]]]; [inversion H; eauto|].
  destruct (await_open ch m1) as [m2 r2] eqn:Ew. destruct (Ha ch m1) as [e He]. rewrite Ew in He. cbn in He. subst r2. inversion H. cbn. eauto.
Qed.

(** The loop of a forward tunnel serves the connections in order, each once, and never
    returns; when the ssh server answers every channel that is asked for, none is
    left out. *)
Theorem forward_loop_serves t evs : forall m m' sent ts r,
  forward_loop t evs m = (m', sent, ts, r) ->
  (from_of <$> ts) `prefix_of` browsers evs /\ (forall x, r <> Ok x) /\
  ((forall ch m, exists e, (await_open ch m).2 = Ok e) -> (exists hp, dial_target (Config.Addr (Remote t)) = Ok hp) ->
   (forall e, Failed e ∈ evs -> op_error e = true) -> from_of <$> ts = browsers evs /\ r = Blocked).
Proof.
  induction evs as [|ev evs IH]; intros m m' sent ts r H.
  { injection H as _ _ <- <-. split; [apply prefix_nil|]. by split. }
  destruct ev as [n|e]; cbn [forward_loop] in H; cycle 1.
  { destruct (op_error e) eqn:Ee; [|injection H as _ _ <- <-; split; [apply prefix_nil|]; split; [done|]; intros _ _ Hf;
      rewrite (Hf e) in Ee; [done|left]].
    destruct (IH m m' sent ts r H) as (H1 & H2 & H3). do 2 (split; [done|]). intros Ha Hd Hf. apply H3; [done|done|]. intros e' He'. apply Hf. by right. }
  destruct (NewForward t n m) as [[m1 s1] rx] eqn:EN. destruct rx as [x|e|e|].
  1: destruct (forward_loop t evs m1) as [[[m2 s2] ts2] r2] eqn:EL; injection H as _ _ <- <-.
  1: destruct (IH _ _ _ _ _ EL) as (H1 & H2 & H3); apply NewForward_from in EN; cbn; rewrite EN.
  1: split; [by apply prefix_cons|]; split; [done|]; intros Ha Hd Hf; destruct H3 as [-> ->]; [done|done| |done].
  1: intros e' He'; apply Hf; by right.
  all: injection H as _ _ <- <-; split; [apply prefix_nil|]; split; [done|]; intros Ha Hd _; by destruct (NewForward_answered t n m m1 s1 _ Ha Hd EN).
Qed.

(** A server that leaves one channel unanswered keeps every later connection of the
    tunnel waiting: the loop that accepts does the dialling itself. *)
Theorem unanswered_channel_blocks_tunnel t n evs m m1 s1 ch :
  DialWithContext conn "tcp" (Config.Addr (Remote t)) m = Ok (m1, s1, (ch, None)) -> (await_open ch m1).2 = Blocked ->
  (forward_loop t (Browser n :: evs) m).1.2 = [].
Proof. intros Hd Ha. cbn. unfold NewForward. rewrite Hd. destruct (await_open ch m1) as [m2 r]. cbn in Ha. by subst r. Qed.

(** *** Reverse tunnels *)

Lemma auto_port_ok await ctx ip ports : forall err m l m' l' sent ln,
  auto_port conn await ctx ip ports err m l = (m', l', sent, Ok ln) -> exists port' p, ln = mkListener (TCPAddr ip port') p ctx.
Proof.
  induction ports as [|n ports IH]; intros err m l m' l' sent ln H; [done|]. cbn [auto_port] in H.
  destruct (listen_tcp conn await ctx ip (1024 + n) m l) as [[[m1 l1] s1] [ln1|e|e|]] eqn:E; try done.
  - injection H as _ _ _ <-. apply listen_tcp_ok in E as (port' & -> & _). eauto.
  - destruct (auto_port conn await ctx ip ports e m1 l1) as [[[m2 l2] s2] r] eqn:E2. injection H as _ _ _ ->. by apply IH in E2.
Qed.

Lemma ListenTCP_ok await v ctx ports ip port m l m' l' sent ln :
  ListenTCP conn await v ctx ports ip port m l = (m', l', sent, Ok ln) -> exists port' p, ln = mkListener (TCPAddr ip port') p ctx.
Proof.
  unfold ListenTCP. destruct (_ && _); [apply auto_port_ok|]. intros (port' & -> & _)%listen_tcp_ok. eauto.
Qed.

(** The listener of a reverse tunnel, which SSHConnect makes before its client has a
    context, cannot be used: the first Accept panics. *)
Theorem reverse_tunnel_panics await ServerVersion ports t m l m' l' sent ln :
  reverse_listener await ServerVersion false ports t m l = (m', l', sent, Ok ln) ->
  forall ev evs m l, (reverse_loop t ln (ev :: evs) m l).2 = Panic "invalid memory address or nil pointer dereference".
Proof.
  unfold reverse_listener. destruct (ResolveTCPAddr _) as [[ip port]|e|e|]; try done. intros H [[stop pick] local] evs m0 l0.
  apply ListenTCP_ok in H as (port' & p & ->). done.
Qed.

(** With a context it serves connections; the end of the ssh connection, io.EOF,
    which is no *net.OpError, is a panic. *)
Theorem reverse_loop_eof t ip port p evs m l local :
  op_error EOF = false ->
  (reverse_loop t (mkListener (TCPAddr ip port) p true) ((true, true, local) :: evs) m l).2 = Panic EOF.
Proof. intros H. cbn. by rewrite H. Qed.

(** A connection that the ssh server forwards goes, once accepted, to the local
    address of the tunnel, over its own channel. *)
Theorem reverse_loop_serves t ln stop pick local evs m l m1 l1 s1 c :
  listener_Accept conn stop pick ln m l = (m1, l1, s1, Ok c) -> net_dial (Config.Addr (Remote t)) = Ok tt ->
  (reverse_loop t ln ((stop, pick, local) :: evs) m l).1.2 =
    inl (Shovelled (Channel_ c) false local) :: (reverse_loop t ln evs m1 l1).1.2.
Proof.
  intros H Hd. cbn. rewrite H. unfold StartNewReverse. rewrite Hd.
  by destruct (reverse_loop t ln evs m1 l1) as [[[[m2 l2] s2] ts] r].
Qed.

End Tunnels.

(** ** The address that is listened on *)

(** -listen with an IP address listens on it, and on the loopback without a host;
    with a name, localhost too, it listens on all interfaces. *)
Theorem forward_listens_at title host (port : N) remote :
  plain_host host = true -> Z.of_N port < 65536 ->
  forward_listen_addr (mkTunnel (ParseAddr (blank_addr title (host +:+ ":" +:+ pretty port))).1 remote) =
    (ParseIP (if (host =? "")%string then "127.0.0.1" else host), Z.of_N port).
Proof. intros Hh Hp. rewrite (parse_addr_host_port _ host port) by done. done. Qed.

Example localhost_listens_everywhere :
  forward_listen_addr (mkTunnel (ParseAddr (blank_addr "listen" "localhost:8080")).1 (blank_addr "remote" "")) = (None, 8080).
Proof. vm_compute. reflexivity. Qed.

(** ** Concrete tunnels *)

(** A chunk on its way from one side to the other; the server closes its end of the
    channel, and the pair is asked to stop. *)
Definition demo_pair : shovelPair :=
  let p := set_end true (arrive "hello" (fresh false)) (Start forward_ends) in
  let p := set_end false (set_eof (ends p false)) p in
  request_stop_pair (set_end false (set_broken (ends p false)) p).

Lemma demo_reachable : rtc (any_step false) (Start forward_ends) demo_pair.
Proof.
  eapply rtc_l; [right; by apply (env_arrive _ true "hello")|]. eapply rtc_l; [right; apply (env_eof _ false)|].
  eapply rtc_l; [right; apply (env_break _ false)|]. eapply rtc_l; [right; apply env_stop|]. apply rtc_refl.
Qed.

Lemma tunnel_copies_witness :
  exists rest, "hello" = out (ends demo_pair false) +:+ rest /\ (copy (shovels demo_pair false) <> Finished -> rest = "hello").
Proof. exact (tunnel_copies false forward_ends demo_pair demo_reachable false). Defined.

Lemma tunnel_ends_witness : exists p', rtc (pair_step false) demo_pair p' /\ over p'.
Proof.
  destruct (proj1 (tunnel_ends forward_ends demo_pair demo_reachable (or_introl eq_refl))) as (p' & Hr & _ & Ho). exists p'. split; [exact Hr|].
  apply Ho. intros [|] Hc; [discriminate Hc|split; reflexivity].
Defined.
