(* ===== verification/Negotiate.v ===== *)
(** The negotiation of algorithms (xendor/github.com/glycerine/xcryptossh,
    common.go): the lists two ends offer, the algorithms they agree on, and the
    defaults of a configuration. *)
From S2P Require Import Prelude.
From S2P Require Import GoStrings.
From S2P Require Import Wire.

(** ** Algorithms *)

Definition gcmCipherID : string := "aes128-gcm@openssh.com".
Definition aes128cbcID : string := "aes128-cbc".
Definition tripledescbcID : string := "3des-cbc".

Definition supportedCiphers : list string :=
  ["aes128-ctr"; "aes192-ctr"; "aes256-ctr"; gcmCipherID; "arcfour256"; "arcfour128"].
Definition supportedKexAlgos : list string :=
  ["curve25519-sha256@libssh.org"; "ecdh-sha2-nistp256"; "ecdh-sha2-nistp384"; "ecdh-sha2-nistp521";
   "diffie-hellman-group14-sha1"; "diffie-hellman-group1-sha1"].
Definition supportedHostKeyAlgos : list string :=
  ["ssh-rsa-cert-v01@openssh.com"; "ssh-dss-cert-v01@openssh.com"; "ecdsa-sha2-nistp256-cert-v01@openssh.com";
   "ecdsa-sha2-nistp384-cert-v01@openssh.com"; "ecdsa-sha2-nistp521-cert-v01@openssh.com";
   "ssh-ed25519-cert-v01@openssh.com"; "ecdsa-sha2-nistp256"; "ecdsa-sha2-nistp384"; "ecdsa-sha2-nistp521";
   "ssh-rsa"; "ssh-dss"; "ssh-ed25519"].
Definition supportedMACs : list string :=
  ["hmac-sha2-256-etm@openssh.com"; "hmac-sha2-256"; "hmac-sha1"; "hmac-sha1-96"].
Definition supportedCompressions : list string := ["none"].
(** The keys of [cipherModes]. *)
Definition cipherModes : list string :=
  ["aes128-ctr"; "aes192-ctr"; "aes256-ctr"; "arcfour128"; "arcfour256"; "arcfour"; gcmCipherID;
   aes128cbcID; tripledescbcID].

(** The fields of a kexInitMsg that the code reads. *)
Record kexInit := mkInit {
  Cookie : string;
  KexAlgos : list string;
  ServerHostKeyAlgos : list string;
  CiphersClientServer : list string;
  CiphersServerClient : list string;
  MACsClientServer : list string;
  MACsServerClient : list string;
  CompressionClientServer : list string;
  CompressionServerClient : list string;
  FirstKexFollows : bool;
}.

(** As it goes over the wire. *)
Definition init_values (m : kexInit) : list value :=
  [VArray (Cookie m); VNames (KexAlgos m); VNames (ServerHostKeyAlgos m); VNames (CiphersClientServer m);
   VNames (CiphersServerClient m); VNames (MACsClientServer m); VNames (MACsServerClient m);
   VNames (CompressionClientServer m); VNames (CompressionServerClient m); VNames []; VNames [];
   VBool (FirstKexFollows m); VUint32 0].

Definition names_text (l : list string) : string := "[" +:+ join " " l +:+ "]".

(** The inner loop of [findCommon]. *)
Fixpoint offers (server : list string) (c : string) : bool :=
  match server with [] => false | s :: server => (c =? s)%string || offers server c end.

Fixpoint first_common (client server : list string) : option string :=
  match client with
  | [] => None
  | c :: client => if offers server c then Some c else first_common client server
  end.

Definition findCommon (what : string) (client server : list string) : outcome string :=
  match first_common client server with
  | Some c => Ok c
  | None => Err ("ssh: no common algorithm for " +:+ what +:+ "; client offered: " +:+ names_text client +:+
                 ", server offered: " +:+ names_text server)
  end.

Record directionAlgorithms := mkDir { Cipher : string; MAC : string; Compression : string }.
Record algorithms := mkAlgs { kex : string; hostKey : string; w : directionAlgorithms; r : directionAlgorithms }.

Definition rekeyBytes (a : directionAlgorithms) : Z :=
  if offers ["aes128-ctr"; "aes192-ctr"; "aes256-ctr"; gcmCipherID; aes128cbcID] (Cipher a)
  then 16 * 2 ^ 32 else 2 ^ 30.

Definition findAgreedAlgorithms (clientKexInit serverKexInit : kexInit) : outcome algorithms :=
  let? kex := findCommon "key exchange" (KexAlgos clientKexInit) (KexAlgos serverKexInit) in
  let? hostKey := findCommon "host key" (ServerHostKeyAlgos clientKexInit) (ServerHostKeyAlgos serverKexInit) in
  let? wCipher := findCommon "client to server cipher"
                    (CiphersClientServer clientKexInit) (CiphersClientServer serverKexInit) in
  let? rCipher := findCommon "server to client cipher"
                    (CiphersServerClient clientKexInit) (CiphersServerClient serverKexInit) in
  let? wMAC := findCommon "client to server MAC" (MACsClientServer clientKexInit) (MACsClientServer serverKexInit) in
  let? rMAC := findCommon "server to client MAC" (MACsServerClient clientKexInit) (MACsServerClient serverKexInit) in
  let? wComp := findCommon "client to server compression"
                  (CompressionClientServer clientKexInit) (CompressionClientServer serverKexInit) in
  let? rComp := findCommon "server to client compression"
                  (CompressionServerClient clientKexInit) (CompressionServerClient serverKexInit) in
  Ok (mkAlgs kex hostKey (mkDir wCipher wMAC wComp) (mkDir rCipher rMAC rComp)).

(** ** Configuration *)

(** A nil slice is [None]. *)
Record Config := mkConfig {
  RekeyThreshold : Z;
  KeyExchanges : option (list string);
  Ciphers : option (list string);
  MACs : option (list string);
}.

Definition minRekeyThreshold : Z := 256.

Definition SetDefaults (c : Config) : Config :=
  let ciphers := List.filter (offers cipherModes) (default supportedCiphers (Ciphers c)) in
  mkConfig
    (if RekeyThreshold c =? 0 then 0
     else if RekeyThreshold c <? minRekeyThreshold then minRekeyThreshold
     else if max_int64 <=? RekeyThreshold c then max_int64
     else RekeyThreshold c)
    (Some (default supportedKexAlgos (KeyExchanges c)))
    (match ciphers with [] => None | _ => Some ciphers end)
    (Some (default supportedMACs (MACs c))).
(** ** The agreement *)

(** The first of the client's names that the server offers too. *)
Definition preferred (client server : list string) (x : string) : Prop :=
  exists before after, client = before ++ x :: after /\ x ∈ server /\ forall y, y ∈ before -> y ∉ server.

Lemma offers_spec l x : offers l x = true <-> x ∈ l.
Proof.
  induction l as [|y l IH]; simpl; [split; [done|by intros ?%elem_of_nil]|].
  rewrite orb_true_iff, String.eqb_eq, elem_of_cons. by rewrite IH.
Qed.

Lemma first_common_spec client server :
  match first_common client server with
  | Some x => preferred client server x
  | None => forall y, y ∈ client -> y ∉ server
  end.
Proof.
  induction client as [|c client IH]; simpl; [by intros y ?%elem_of_nil|].
  destruct (offers server c) eqn:E.
  - apply offers_spec in E. exists [], client. split_and!; [done|done|]. by intros y ?%elem_of_nil.
  - assert (c ∉ server) as Hc by (intros H%offers_spec; congruence).
    destruct (first_common client server) as [x|].
    + destruct IH as (before & after & -> & Hx & Hb). exists (c :: before), after. split_and!; [done|done|].
      intros y [->|Hy]%elem_of_cons; auto.
    + intros y [->|Hy]%elem_of_cons; auto.
Qed.

Lemma findCommon_spec what client server :
  (exists x, findCommon what client server = Ok x /\ preferred client server x) \/
  (exists e, findCommon what client server = Err e /\ forall y, y ∈ client -> y ∉ server).
Proof.
  unfold findCommon. pose proof (first_common_spec client server) as H.
  destruct (first_common client server) as [x|]; [left|right]; eauto.
Qed.

(** The eight choices: the lists of the two ends and what was agreed. *)
Definition choices (cl sv : kexInit) (a : algorithms) : list (list string * list string * string) :=
  [(KexAlgos cl, KexAlgos sv, kex a); (ServerHostKeyAlgos cl, ServerHostKeyAlgos sv, hostKey a);
   (CiphersClientServer cl, CiphersClientServer sv, Cipher (w a));
   (CiphersServerClient cl, CiphersServerClient sv, Cipher (r a));
   (MACsClientServer cl, MACsClientServer sv, MAC (w a)); (MACsServerClient cl, MACsServerClient sv, MAC (r a));
   (CompressionClientServer cl, CompressionClientServer sv, Compression (w a));
   (CompressionServerClient cl, CompressionServerClient sv, Compression (r a))].
Definition no_algorithm : algorithms := mkAlgs "" "" (mkDir "" "" "") (mkDir "" "" "").

(** What is agreed on. *)
Lemma agreement cl sv :
  (exists a, findAgreedAlgorithms cl sv = Ok a /\
     Forall (fun c => preferred c.1.1 c.1.2 c.2) (choices cl sv a)) \/
  (exists e, findAgreedAlgorithms cl sv = Err e /\
     Exists (fun c => forall y, y ∈ c.1.1 -> y ∉ c.1.2) (choices cl sv no_algorithm)).
Proof.
  unfold findAgreedAlgorithms, choices.
  repeat match goal with
  | |- context [findCommon ?t ?c ?s] =>
      destruct (findCommon_spec t c s) as [(? & -> & ?)|(? & -> & ?)]; cbn [obind];
      [|right; eexists; split; [reflexivity|];
        repeat first [by apply Exists_cons_hd | apply Exists_cons_tl]]
  end.
  left. eexists. split; [reflexivity|]. repeat (apply Forall_cons; split; [done|]). by apply Forall_nil.
Qed.

(** Two ends agree exactly when they have something in common in all eight
    lists; then each choice is the first of the client's names that the server
    offers, whichever end computes it. *)
Theorem agreement_spec cl sv :
  (exists a, findAgreedAlgorithms cl sv = Ok a /\
     Forall (fun c => preferred c.1.1 c.1.2 c.2) (choices cl sv a)) \/
  (exists e, findAgreedAlgorithms cl sv = Err e /\
     Exists (fun c => forall y, y ∈ c.1.1 -> y ∉ c.1.2) (choices cl sv no_algorithm)).
Proof. apply agreement. Qed.


(** ** The defaults *)

Lemma filter_all {A} (p : A -> bool) l : Forall (fun x => p x = true) (List.filter p l).
Proof. induction l as [|x l IH]; simpl; [done|]. case_match; auto. Qed.

Lemma filter_id {A} (p : A -> bool) l : Forall (fun x => p x = true) l -> List.filter p l = l.
Proof. induction 1 as [|x l Hx _ IH]; simpl; [done|]. by rewrite Hx, IH. Qed.

(** What SetDefaults makes of the threshold and of the ciphers. *)
Lemma default_threshold c :
  0 <= RekeyThreshold c ->
  (RekeyThreshold (SetDefaults c) = 0 \/ minRekeyThreshold <= RekeyThreshold (SetDefaults c) <= max_int64).
Proof. unfold SetDefaults, minRekeyThreshold, max_int64; simpl. intros H. cases; z_prop; lia. Qed.

Lemma default_ciphers c :
  Forall (fun x => offers cipherModes x = true) (default [] (Ciphers (SetDefaults c))).
Proof.
  unfold SetDefaults. cbn [Ciphers].
  pose proof (filter_all (offers cipherModes) (default supportedCiphers (Ciphers c))) as F.
  by destruct (List.filter _ _).
Qed.

Lemma default_ciphers_nonempty c l : Ciphers (SetDefaults c) = Some l -> l <> [].
Proof. unfold SetDefaults. cbn [Ciphers]. intros H ->. by case_match. Qed.

Lemma SetDefaults_again c :
  0 <= RekeyThreshold c -> Ciphers (SetDefaults c) <> None -> SetDefaults (SetDefaults c) = SetDefaults c.
Proof.
  intros Hr Hn. pose proof (default_threshold c Hr) as Ht. pose proof (default_ciphers c) as Hc.
  pose proof (default_ciphers_nonempty c) as He.
  unfold SetDefaults at 1. destruct (Ciphers (SetDefaults c)) as [l|] eqn:El; [|done]. simpl default in *.
  rewrite filter_id by done. destruct l as [|x l]; [by destruct (He _ eq_refl)|].
  rewrite <- El. unfold minRekeyThreshold, max_int64 in *.
  assert (forall d, RekeyThreshold d = 0 \/ 256 <= RekeyThreshold d <= 2 ^ 63 - 1 ->
    (if RekeyThreshold d =? 0 then 0 else if RekeyThreshold d <? 256 then 256
     else if 2 ^ 63 - 1 <=? RekeyThreshold d then 2 ^ 63 - 1 else RekeyThreshold d) = RekeyThreshold d) as E.
  { intros d Hd. cases; z_prop; lia. }
  by rewrite E.
Qed.

(** After SetDefaults every list is set to supported names or to what was
    asked for, no cipher without an implementation is left, and the rekey
    threshold is zero (the cipher's own) or fits an int64 and is at least 256,
    so that its conversion never wraps; applying it again changes nothing but
    a list of ciphers of which none was known. *)
Theorem set_defaults_spec c :
  0 <= RekeyThreshold c < 2 ^ 64 ->
  let d := SetDefaults c in
  (RekeyThreshold d = 0 \/ minRekeyThreshold <= RekeyThreshold d <= max_int64) /\
  to_int64 (RekeyThreshold d) = RekeyThreshold d /\
  KeyExchanges d = Some (default supportedKexAlgos (KeyExchanges c)) /\
  MACs d = Some (default supportedMACs (MACs c)) /\
  Forall (fun x => x ∈ cipherModes) (default [] (Ciphers d)) /\
  (Ciphers d <> None -> SetDefaults d = d).
Proof.
  intros Hr d. pose proof (default_threshold c ltac:(lia)) as Hd.
  split_and!; [done| |done|done| |].
  - apply to_int64_id. unfold in_int64, min_int64, minRekeyThreshold, max_int64 in *. subst d. lia.
  - eapply Forall_impl; [apply default_ciphers|]. intros y. apply offers_spec.
  - apply SetDefaults_again. lia.
Qed.

Lemma set_defaults_spec_witness :
  SetDefaults (mkConfig 5 None (Some ["rot13"; "aes128-ctr"]) None) =
    mkConfig 256 (Some supportedKexAlgos) (Some ["aes128-ctr"]) (Some supportedMACs) /\
  SetDefaults (mkConfig 256 (Some supportedKexAlgos) (Some ["aes128-ctr"]) (Some supportedMACs)) =
    mkConfig 256 (Some supportedKexAlgos) (Some ["aes128-ctr"]) (Some supportedMACs).
Proof.
  split; [reflexivity|].
  apply (set_defaults_spec (mkConfig 5 None (Some ["rot13"; "aes128-ctr"]) None)); [simpl; lia|].
  vm_compute. discriminate.
Defined.

(** A configuration whose ciphers are all unknown is left without any, and would
    get the defaults if it were completed twice. *)
Lemma set_defaults_twice :
  Ciphers (SetDefaults (mkConfig 0 None (Some ["rot13"]) None)) = None /\
  Ciphers (SetDefaults (SetDefaults (mkConfig 0 None (Some ["rot13"]) None))) = Some supportedCiphers.
Proof. split; reflexivity. Qed.
