(* ===== verification/Transport.v ===== *)
(** The packet layer (xendor/github.com/glycerine/xcryptossh: cipher.go,
    transport.go): how a packet is padded, encrypted and authenticated by a
    stream cipher and by GCM, the change of keys, and the exchange of version
    lines. The primitives are parameters: the key stream of a cipher, the sum of
    a MAC, sealing and opening of an AEAD, the bytes of the random source. What
    a connection delivers is the string of all bytes that arrive. *)
From S2P Require Import Prelude.
From S2P Require Import GoStrings.
From S2P Require Import Wire.

Definition packetSizeMultiple : Z := 16.
Definition maxPacket : Z := 256 * 1024.
Definition prefixLen : Z := 5.
Definition gcmTagSize : Z := 16.

(** [io.ReadFull] of [n] bytes: what is left, and the bytes. *)
Definition read_full (n : nat) (r : string) : string * outcome string :=
  if (n =? 0)%nat then (r, Ok "")
  else if (r =? "")%string then ("", Err EOF)
  else if (String.length r <? n)%nat then ("", Err ErrUnexpectedEOF)
  else (sdrop n r, Ok (stake n r)).

Definition byte_at (n : nat) (s : string) : Z :=
  match String.get n s with Some c => val c | None => 0 end.

(** ** The interface of a packet cipher

    [writePacket] returns the bytes that go to the connection, [readPacket] what
    is left of it and the packet. *)
Class PacketCipher (C : Type) := {
  writePacket : Z -> string -> string -> C -> C * outcome string;
  readPacket : Z -> string -> C -> C * string * outcome string;
}.

(** A packet that every cipher can carry. *)
Definition packet_ok (p : string) : Prop := 0 < slen p <= maxPacket - 20.

(** What a cipher promises: a writer and a reader that are [matched] stay so, and
    the reader finds each packet that was written, however much follows it. *)
Class PacketCipherLaws (C : Type) `{PacketCipher C} := {
  matched : C -> C -> Prop;
  write_read : forall seq rand p cw cr cw' out rest,
    matched cw cr -> packet_ok p -> writePacket seq rand p cw = (cw', Ok out) ->
    exists cr', readPacket seq (out +:+ rest) cr = (cr', rest, Ok p) /\ matched cw' cr';
  write_fails : forall seq rand p cw cr, matched cw cr -> packet_ok p ->
    32 <= slen rand -> exists cw' out, writePacket seq rand p cw = (cw', Ok out);
}.

(** ** Stream ciphers *)

(** A cipher.Stream: its key stream and how much of it was used. *)
Record stream := mkStream { ks : nat -> ascii; pos : nat }.

Definition xor_byte (a b : ascii) : ascii := byte (Z.lxor (val a) (val b)).

Fixpoint xor_from (k : nat -> ascii) (n : nat) (s : string) : string :=
  match s with
  | "" => ""
  | String c s => String (xor_byte c (k n)) (xor_from k (S n) s)
  end.

Definition XORKeyStream (s : string) (st : stream) : string * stream :=
  (xor_from (ks st) (pos st) s, mkStream (ks st) (pos st + String.length s)).

(** Before the first exchange nothing is encrypted. *)
Definition noneCipher : stream := mkStream (fun _ => byte 0) 0.

(** A hash.Hash with a key: the sum of what was written since Reset. *)
Record macAlg := mkMac { etm : bool; Sum : string -> string; Size : Z }.

Record streamPacketCipher := mkSPC { mac : option macAlg; cipher : stream }.

Definition uses_etm (c : streamPacketCipher) : bool :=
  match mac c with Some m => etm m | None => false end.

Definition stream_padding (len aadlen : Z) : Z :=
  let paddingLength := packetSizeMultiple - (prefixLen + len - aadlen) mod packetSizeMultiple in
  if paddingLength <? 4 then paddingLength + packetSizeMultiple else paddingLength.

(** [streamPacketCipher.writePacket]. *)
Definition stream_write (seqNum : Z) (rand packet : string) (c : streamPacketCipher)
  : streamPacketCipher * outcome string :=
  if maxPacket <? slen packet then (c, Err "ssh: packet too large")
  else
    let aadlen := if uses_etm c then 4 else 0 in
    let paddingLength := stream_padding (slen packet) aadlen in
    let length := slen packet + 1 + paddingLength in
    let len4 := be_bytes 4 length in
    let pad1 := String (byte paddingLength) "" in
    match read_full (Z.to_nat paddingLength) rand with
    | (_, Ok padding) =>
        if uses_etm c then
          let '(pad1, ci) := XORKeyStream pad1 (cipher c) in
          let '(packet, ci) := XORKeyStream packet ci in
          let '(padding, ci) := XORKeyStream padding ci in
          let prefix := len4 +:+ pad1 in
          let tag := match mac c with
                     | Some m => Sum m (be_bytes 4 seqNum +:+ prefix +:+ packet +:+ padding)
                     | None => "" end in
          (mkSPC (mac c) ci, Ok (prefix +:+ packet +:+ padding +:+ tag))
        else
          let tag := match mac c with
                     | Some m => Sum m (be_bytes 4 seqNum +:+ (len4 +:+ pad1) +:+ packet +:+ padding)
                     | None => "" end in
          let '(prefix, ci) := XORKeyStream (len4 +:+ pad1) (cipher c) in
          let '(packet, ci) := XORKeyStream packet ci in
          let '(padding, ci) := XORKeyStream padding ci in
          (mkSPC (mac c) ci, Ok (prefix +:+ packet +:+ padding +:+ tag))
    | (_, Err e) => (c, Err e)
    | (_, Panic s) => (c, Panic s)
    | (_, Blocked) => (c, Blocked)
    end.

(** The prefix as it was sent, decrypted where it is encrypted. *)
Definition open_prefix (prefix : string) (c : streamPacketCipher) : string * stream :=
  if uses_etm c then
    let '(pad1, ci) := XORKeyStream (sdrop 4 prefix) (cipher c) in (stake 4 prefix +:+ pad1, ci)
  else XORKeyStream prefix (cipher c).

(** What the MAC of a received packet is computed of. *)
Definition mac_input (c : streamPacketCipher) (seqNum : Z) (prefix plain_prefix data plain_data : string) : string :=
  if uses_etm c then be_bytes 4 seqNum +:+ prefix +:+ data
  else be_bytes 4 seqNum +:+ plain_prefix +:+ plain_data.

(** [streamPacketCipher.readPacket]. *)
Definition stream_read (seqNum : Z) (r : string) (c : streamPacketCipher)
  : streamPacketCipher * string * outcome string :=
  match read_full 5 r with
  | (r, Ok prefix) =>
      let '(plain_prefix, ci) := open_prefix prefix c in
      let c := mkSPC (mac c) ci in
      let length := be (stake 4 plain_prefix) in
      let paddingLength := byte_at 4 plain_prefix in
      let macSize := match mac c with Some m => Size m | None => 0 end in
      if length <=? paddingLength + 1 then (c, r, Err "ssh: invalid packet length, packet too small")
      else if maxPacket <? length then (c, r, Err "ssh: invalid packet length, packet too large")
      else
        match read_full (Z.to_nat (length - 1 + macSize)) r with
        | (r, Ok packetData) =>
            let data := stake (Z.to_nat (length - 1)) packetData in
            let tag := sdrop (Z.to_nat (length - 1)) packetData in
            let '(plain, ci) := XORKeyStream data ci in
            let c := mkSPC (mac c) ci in
            if match mac c with
               | Some m => negb (Sum m (mac_input c seqNum prefix plain_prefix data plain) =? tag)%string
               | None => false end
            then (c, r, Err "ssh: MAC failure")
            else (c, r, Ok (stake (Z.to_nat (length - paddingLength - 1)) plain))
        | (r, e) => (c, r, e)
        end
  | (r, e) => (c, r, e)
  end.

#[export] Instance stream_cipher : PacketCipher streamPacketCipher :=
  { writePacket := stream_write; readPacket := stream_read }.

(** ** GCM *)

(** A cipher.AEAD with its nonce. *)
Record gcmCipher := mkGCM {
  Seal : string -> string -> string -> string;
  Open : string -> string -> string -> outcome string;
  iv : string;
}.

(** The last eight bytes of the nonce count up; the result also says whether the
    count wrapped around. *)
Fixpoint inc_be (s : string) : string * bool :=
  match s with
  | "" => ("", true)
  | String c s =>
      let '(s, carry) := inc_be s in
      if carry then (String (byte (val c + 1)) s, val c =? 255) else (String c s, false)
  end.
Definition incIV (c : gcmCipher) : gcmCipher :=
  mkGCM (Seal c) (Open c) (stake 4 (iv c) +:+ (inc_be (sdrop 4 (iv c))).1).

Definition gcm_padding (len : Z) : Z :=
  let padding := packetSizeMultiple - (1 + len) mod packetSizeMultiple in
  if padding <? 4 then padding + packetSizeMultiple else padding.

(** [gcmCipher.writePacket]. *)
Definition gcm_write (seqNum : Z) (rand packet : string) (c : gcmCipher) : gcmCipher * outcome string :=
  let padding := gcm_padding (slen packet) in
  let length := to_uint32 (slen packet + padding + 1) in
  let prefix := be_bytes 4 length in
  match read_full (Z.to_nat padding) rand with
  | (_, Ok pad) =>
      let buf := String (byte padding) "" +:+ packet +:+ pad in
      (incIV c, Ok (prefix +:+ Seal c (iv c) buf prefix))
  | (_, e) => (c, e)
  end.

(** [gcmCipher.readPacket]; [padding + 1] is computed in a byte. *)
Definition gcm_read (seqNum : Z) (r : string) (c : gcmCipher) : gcmCipher * string * outcome string :=
  match read_full 4 r with
  | (r, Ok prefix) =>
      let length := be prefix in
      if maxPacket <? length then (c, r, Err "ssh: max packet length exceeded.")
      else
        match read_full (Z.to_nat (length + gcmTagSize)) r with
        | (r, Ok buf) =>
            match Open c (iv c) buf prefix with
            | Ok plain =>
                let c := incIV c in
                match plain with
                | "" => (c, r, Panic "index out of range")
                | String b _ =>
                    let padding := val b in
                    if padding <? 4 then (c, r, Err ("ssh: illegal padding " +:+ itoa padding))
                    else if slen plain <=? (padding + 1) mod 256
                    then (c, r, Err ("ssh: padding " +:+ itoa padding +:+ " too large"))
                    else
                      let stop := to_uint32 (length - padding) in
                      if (stop <? 1) || (slen plain <? stop) then (c, r, Panic "slice bounds out of range")
                      else (c, r, Ok (sdrop 1 (stake (Z.to_nat stop) plain)))
                end
            | e => (c, r, e)
            end
        | (r, e) => (c, r, e)
        end
  | (r, e) => (c, r, e)
  end.

#[export] Instance gcm_cipher : PacketCipher gcmCipher := { writePacket := gcm_write; readPacket := gcm_read }.

(** ** Key streams cancel out *)

Lemma lxor_byte_bound a b : 0 <= a < 256 -> 0 <= b < 256 -> 0 <= Z.lxor a b < 256.
Proof.
  intros Ha Hb.
  assert (Z.lxor a b mod 2 ^ 8 = Z.lxor a b) as <-; [|apply Z.mod_pos_bound; lia].
  apply Z.bits_inj'. intros n Hn. destruct (decide (n < 8)).
  - by rewrite Z.mod_pow2_bits_low by lia.
  - rewrite Z.mod_pow2_bits_high by lia. rewrite Z.lxor_spec.
    assert (forall x, 0 <= x < 256 -> Z.testbit x n = false) as Hb0.
    { intros x Hx. destruct (decide (x = 0)) as [->|]; [apply Z.bits_0|].
      apply Z.bits_above_log2; [lia|]. apply Z.log2_lt_pow2; [lia|].
      assert (2 ^ 8 <= 2 ^ n) by (apply Z.pow_le_mono_r; lia). lia. }
    by rewrite (Hb0 a), (Hb0 b).
Qed.

Lemma xor_byte_twice a b : xor_byte (xor_byte a b) b = a.
Proof.
  unfold xor_byte. pose proof (val_range a); pose proof (val_range b).
  pose proof (lxor_byte_bound (val a) (val b)).
  rewrite val_byte, Z.mod_small by lia.
  by rewrite Z.lxor_assoc, Z.lxor_nilpotent, Z.lxor_0_r, byte_val.
Qed.

Lemma xor_from_twice k n s : xor_from k n (xor_from k n s) = s.
Proof. revert n. induction s as [|c s IH]; intros n; simpl; [done|]. by rewrite xor_byte_twice, IH. Qed.

Lemma xor_from_length k n s : String.length (xor_from k n s) = String.length s.
Proof. revert n. induction s as [|c s IH]; intros n; simpl; by rewrite ?IH. Qed.

Lemma xor_from_app k n a b :
  xor_from k n (a +:+ b) = xor_from k n a +:+ xor_from k (n + String.length a) b.
Proof.
  revert n. induction a as [|c a IH]; intros n; simpl.
  - by rewrite Nat.add_0_r.
  - rewrite IH. simpl. do 3 f_equal. lia.
Qed.

(** What the reader gets of two pieces encrypted one after the other. *)
Lemma XOR_app st a b :
  XORKeyStream (a +:+ b) st =
    let '(a, st) := XORKeyStream a st in let '(b, st) := XORKeyStream b st in (a +:+ b, st).
Proof.
  unfold XORKeyStream; simpl. rewrite xor_from_app, string_app_length. do 2 f_equal. lia.
Qed.

Lemma XOR_twice st s : XORKeyStream (XORKeyStream s st).1 st = (s, (XORKeyStream s st).2).
Proof. unfold XORKeyStream; simpl. by rewrite xor_from_twice, xor_from_length. Qed.

Lemma XOR_length st s : String.length (XORKeyStream s st).1 = String.length s.
Proof. apply xor_from_length. Qed.

(** ** Padding *)

Lemma stream_padding_spec len aad :
  0 <= len -> 0 <= aad <= 4 -> 4 <= stream_padding len aad <= 19 /\ (prefixLen + len - aad + stream_padding len aad) mod 16 = 0.
Proof.
  intros Hl Ha. unfold stream_padding, packetSizeMultiple, prefixLen.
  pose proof (Z.mod_pos_bound (5 + len - aad) 16 ltac:(lia)).
  pose proof (Z.div_mod (5 + len - aad) 16 ltac:(lia)) as E. set (q := (5 + len - aad) / 16) in *.
  case_match; z_prop.
  - split; [lia|]. replace (_ + _) with ((q + 2) * 16) by lia. by rewrite Z.mod_mul.
  - split; [lia|]. replace (_ + _) with ((q + 1) * 16) by lia. by rewrite Z.mod_mul.
Qed.

Lemma gcm_padding_eq len : gcm_padding len = stream_padding len 4.
Proof. unfold gcm_padding, stream_padding, prefixLen. by replace (5 + len - 4) with (1 + len) by lia. Qed.

(** ** [read_full] *)

Lemma read_full_app n a b : String.length a = n -> read_full n (a +:+ b) = (b, Ok a).
Proof.
  intros <-. unfold read_full. destruct a as [|c a]; [done|]. cbn [String.length Nat.eqb].
  destruct (_ =? "")%string eqn:E; [by apply String.eqb_eq in E|].
  rewrite string_app_length. destruct (_ <? _)%nat eqn:F; [apply Nat.ltb_lt in F; simpl in F; lia|].
  change (S (String.length a)) with (String.length (String c a)).
  by rewrite stake_app, sdrop_app.
Qed.

Lemma read_full_ok n r r' s :
  read_full n r = (r', Ok s) -> r = s +:+ r' /\ String.length s = n.
Proof.
  unfold read_full. destruct (n =? 0)%nat eqn:E0.
  { intros [= <- <-]. apply Nat.eqb_eq in E0. done. }
  destruct (r =? "")%string; [done|]. destruct (_ <? _)%nat eqn:E; [done|]. intros [= <- <-].
  apply Nat.ltb_ge in E. split; [by rewrite stake_sdrop|rewrite stake_length; lia].
Qed.

Lemma read_full_enough n r : (n <= String.length r)%nat -> exists r' s, read_full n r = (r', Ok s).
Proof.
  intros H. unfold read_full. destruct (n =? 0)%nat eqn:E0; [eauto|]. apply Nat.eqb_neq in E0.
  destruct (r =? "")%string eqn:E; [apply String.eqb_eq in E as ->; simpl in H; lia|].
  destruct (_ <? _)%nat eqn:F; [apply Nat.ltb_lt in F; lia|eauto].
Qed.

(** ** A stream cipher keeps the promise *)

Definition mac_wf (c : streamPacketCipher) : Prop :=
  forall m, mac c = Some m -> 0 <= Size m /\ forall s, slen (Sum m s) = Size m.
Definition stream_matched (cw cr : streamPacketCipher) : Prop := cw = cr /\ mac_wf cw.

Lemma to_nat_slen s : Z.to_nat (slen s) = String.length s.
Proof. unfold slen. lia. Qed.

(** A written packet in its parts: header, payload, padding and tag. *)
Lemma stream_write_eq seq rand p c c' out :
  stream_write seq rand p c = (c', Ok out) ->
  exists padding, let pl := stream_padding (slen p) (if uses_etm c then 4 else 0) in
    slen p <= maxPacket /\ slen padding = pl /\ 4 <= pl <= 19 /\ mac c' = mac c /\
    exists prefix data tag plain,
      out = prefix +:+ data +:+ tag /\ String.length prefix = 5%nat /\
      String.length data = String.length (p +:+ padding) /\ plain = be_bytes 4 (slen p + 1 + pl) +:+ String (byte pl) "" /\
      open_prefix prefix c = (plain, mkStream (ks (cipher c)) (pos (cipher c) + if uses_etm c then 1 else 5)%nat) /\
      XORKeyStream data (open_prefix prefix c).2 = (p +:+ padding, cipher c') /\
      tag = match mac c with Some m => Sum m (mac_input c seq prefix plain data (p +:+ padding)) | None => "" end.
Proof.
  unfold stream_write. destruct (maxPacket <? slen p) eqn:Hm; [done|]. z_prop.
  set (pl := stream_padding _ _). pose proof (slen_nonneg p).
  assert (4 <= pl <= 19) as Hpl by (apply stream_padding_spec; [done|destruct (uses_etm c); lia]).
  destruct (read_full _ rand) as [r' [padding| | |]] eqn:Er; [|done..]. apply read_full_ok in Er as [_ Hpad].
  intros Hw. exists padding. cbn zeta. fold pl. split_and!; [done|unfold slen; lia|lia|lia|destruct (uses_etm c); simpl in Hw; by inversion Hw|].
  set (pre := be_bytes 4 (slen p + 1 + pl)) in *.
  assert (String.length pre = 4%nat) as Hpre by apply be_bytes_length.
  unfold open_prefix, mac_input. set (sq := be_bytes 4 seq) in *. clearbody pre sq. destruct (uses_etm c) eqn:He.
  - unfold XORKeyStream in Hw. simpl in Hw. injection Hw as <- <-. simpl mac.
    exists (pre +:+ String (xor_byte (byte pl) (ks (cipher c) (pos (cipher c)))) ""),
      (xor_from (ks (cipher c)) (pos (cipher c) + 1) (p +:+ padding)).
    eexists _, _. split; [|split_and!; [|by rewrite xor_from_length|reflexivity|..]].
    + rewrite xor_from_app, !string_app_assoc. reflexivity.
    + by rewrite string_app_length, Hpre.
    + rewrite sdrop_app_len, stake_app_len by done. simpl. by rewrite xor_byte_twice.
    + rewrite sdrop_app_len, stake_app_len by done. simpl.
      unfold XORKeyStream; simpl. rewrite xor_from_twice, xor_from_length, string_app_length. do 2 f_equal. lia.
    + destruct (mac c); [|done]. f_equal. by rewrite xor_from_app, !string_app_assoc.
  - unfold XORKeyStream in Hw. cbn [fst snd ks pos] in Hw. injection Hw as <- <-. cbn [mac cipher].
    assert (String.length (pre +:+ String (byte pl) "") = 5%nat) as H5 by (rewrite string_app_length, Hpre; done).
    rewrite H5.
    exists (xor_from (ks (cipher c)) (pos (cipher c)) (pre +:+ String (byte pl) "")),
      (xor_from (ks (cipher c)) (pos (cipher c) + 5) (p +:+ padding)).
    eexists _, _. split; [|split_and!; [|by rewrite xor_from_length|reflexivity|..]].
    + rewrite (xor_from_app _ (pos (cipher c) + 5)), !string_app_assoc. reflexivity.
    + by rewrite xor_from_length.
    + unfold XORKeyStream. by rewrite xor_from_twice, xor_from_length, H5.
    + unfold XORKeyStream; simpl. rewrite !xor_from_length, H5, xor_from_twice, string_app_length. do 2 f_equal. lia.
    + destruct (mac c); [|done]. by rewrite !string_app_assoc.
Qed.

Lemma byte_at_4 a c s : String.length a = 4%nat -> byte_at 4 (a +:+ String c s) = val c.
Proof. intros H. unfold byte_at. by destruct a as [|? [|? [|? [|? [|]]]]]. Qed.

(** [stream_read] of a packet whose parts are known. *)
Lemma stream_read_parts seq c prefix data tag rest plen plain_data c2 :
  String.length prefix = 5%nat ->
  open_prefix prefix c = (be_bytes 4 (slen data + 1) +:+ String (byte plen) "", c2) ->
  0 <= plen < 256 -> plen < slen data -> slen data < maxPacket -> mac_wf c ->
  XORKeyStream data c2 = (plain_data, mkStream (ks c2) (pos c2 + String.length data)) ->
  tag = match mac c with
        | Some m => Sum m (mac_input c seq prefix (be_bytes 4 (slen data + 1) +:+ String (byte plen) "") data plain_data)
        | None => "" end ->
  stream_read seq (prefix +:+ data +:+ tag +:+ rest) c =
    (mkSPC (mac c) (mkStream (ks c2) (pos c2 + String.length data)), rest,
     Ok (stake (Z.to_nat (slen data - plen)) plain_data)).
Proof.
  intros Hp Ho Hr Hl Hm Hw Hx Ht. unfold stream_read. rewrite read_full_app by done. rewrite Ho.
  rewrite stake_app_len by apply be_bytes_length.
  rewrite be_be_bytes by (unfold maxPacket in *; pose proof (slen_nonneg data); lia).
  rewrite byte_at_4 by apply be_bytes_length. rewrite val_byte, Z.mod_small by lia.
  destruct (_ <=? plen + 1) eqn:E1; [z_prop; lia|]. destruct (maxPacket <? _) eqn:E2; [z_prop; lia|].
  replace (slen data + 1 - 1) with (slen data) by lia. rewrite to_nat_slen. cbn [mac cipher].
  set (macSize := match mac c with Some m => Size m | None => 0 end).
  assert (slen tag = macSize /\ 0 <= macSize) as [Hs Hs0].
  { unfold macSize. rewrite Ht. destruct (mac c) as [m|] eqn:Em; [|done].
    destruct (Hw m Em) as [? Hsum]. by rewrite Hsum. }
  rewrite <- string_app_assoc. rewrite read_full_app.
  2:{ rewrite string_app_length. unfold slen in *. lia. }
  rewrite stake_app, sdrop_app, Hx.
  replace (slen data + 1 - plen - 1) with (slen data - plen) by lia.
  unfold mac_input, uses_etm in *. cbn [mac] in *. destruct (mac c) as [m|]; [|done]. by rewrite <- Ht, String.eqb_refl.
Qed.

Lemma stream_write_read seq rand p cw cr cw' out rest :
  stream_matched cw cr -> packet_ok p -> stream_write seq rand p cw = (cw', Ok out) ->
  stream_read seq (out +:+ rest) cr = (cw', rest, Ok p) /\ mac cw' = mac cw.
Proof.
  intros [<- Hwf] [Hp0 Hp] H.
  apply stream_write_eq in H as (padding & _ & Hpad & Hpl & Hmac & prefix & data & tag & plain &
    -> & H5 & Hlen & Hplain & Hopen & Hx & Htag). split; [|done].
  set (pl := stream_padding _ _) in *. rewrite Hopen in Hx. simpl snd in Hx.
  assert (slen data = slen p + pl) as Hd.
  { unfold slen at 1. rewrite Hlen. change (Z.of_nat (String.length (p +:+ padding))) with (slen (p +:+ padding)).
    rewrite slen_app. lia. }
  assert (plain = be_bytes 4 (slen data + 1) +:+ String (byte pl) "") as ->
    by (rewrite Hplain, Hd; by replace (slen p + pl + 1) with (slen p + 1 + pl) by lia).
  rewrite !string_app_assoc.
  assert (cw' = mkSPC (mac cw) (cipher cw')) as Hcw by (destruct cw'; simpl in *; by subst).
  unfold XORKeyStream in Hx. simpl ks in Hx; simpl pos in Hx. injection Hx as Hx1 Hx2.
  erewrite stream_read_parts with (plen := pl) (plain_data := p +:+ padding); [|done|exact Hopen|lia|lia|unfold maxPacket in *; lia|done| |exact Htag].
  2:{ unfold XORKeyStream; simpl. by rewrite Hx1. }
  simpl. rewrite Hx2, <- Hcw. do 3 f_equal.
  replace (slen data - pl) with (slen p) by lia. by rewrite to_nat_slen, stake_app.
Qed.

Lemma stream_write_total seq rand p cw cr :
  stream_matched cw cr -> packet_ok p -> 32 <= slen rand ->
  exists cw' out, stream_write seq rand p cw = (cw', Ok out).
Proof.
  intros _ [Hp0 Hp] Hr. unfold stream_write. destruct (maxPacket <? slen p) eqn:Hm; [z_prop; unfold maxPacket in *; lia|].
  pose proof (stream_padding_spec (slen p) (if uses_etm cw then 4 else 0) ltac:(lia) ltac:(case_match; lia)) as [Hpl _].
  destruct (read_full_enough (Z.to_nat (stream_padding (slen p) (if uses_etm cw then 4 else 0))) rand) as (r' & s & ->);
    [unfold slen in *; lia|].
  destruct (uses_etm cw); simpl; eauto.
Qed.

#[export, refine] Instance stream_cipher_laws : PacketCipherLaws streamPacketCipher :=
  { matched := stream_matched }.
Proof.
  - intros seq rand p cw cr cw' out rest Hm Hp Hw. simpl in *.
    destruct (stream_write_read seq rand p cw cr cw' out rest Hm Hp Hw) as [Hr Hmac].
    exists cw'. split; [exact Hr|]. destruct Hm as [_ Hwf]. split; [done|]. intros m Hm. rewrite Hmac in Hm. auto.
  - intros. by eapply stream_write_total.
Defined.

(** ** What a stream cipher accepts *)

Lemma stake_slen k s : 0 <= k <= slen s -> slen (stake (Z.to_nat k) s) = k.
Proof. intros H. unfold slen in *. rewrite stake_length. lia. Qed.
Lemma sdrop_slen n s : slen (sdrop n s) = Z.max 0 (slen s - Z.of_nat n).
Proof.
  revert s. induction n as [|n IH]; intros [|c s]; unfold slen in *; simpl; try lia.
  rewrite IH. lia.
Qed.

Lemma byte_at_range n s : 0 <= byte_at n s < 256.
Proof. unfold byte_at. destruct (String.get n s) as [c|]; [apply val_range|lia]. Qed.

(** C30: Whatever arrives, a stream cipher never panics, and it accepts a packet
    only if the bytes it used end in the MAC of the sequence number and of what
    came before; the packet is then the announced part of the decrypted bytes,
    is not empty and is no longer than the maximum. *)
Theorem stream_accepts_authentic seq r c c' r' res :
  mac_wf c -> stream_read seq r c = (c', r', res) ->
  (forall s, res <> Panic s) /\ res <> Blocked /\
  forall p, res = Ok p ->
    exists prefix data tag plain_prefix plain c2,
      r = prefix +:+ data +:+ tag +:+ r' /\ open_prefix prefix c = (plain_prefix, c2) /\
      XORKeyStream data c2 = (plain, cipher c') /\ slen data = be (stake 4 plain_prefix) - 1 /\
      (forall m, mac c = Some m -> tag = Sum m (mac_input c seq prefix plain_prefix data plain)) /\
      p = stake (Z.to_nat (slen data - byte_at 4 plain_prefix)) plain /\ 0 < slen p < maxPacket.
Proof.
  intros Hw H. unfold stream_read in H.
  assert (forall n r s, (read_full n r).2 <> Panic s /\ (read_full n r).2 <> Blocked) as Hrf.
  { intros n r0 s. unfold read_full. by cases. }
  destruct (read_full 5 r) as [r1 o1] eqn:E1. pose proof (Hrf 5%nat r) as F1. rewrite E1 in F1; simpl in F1.
  destruct o1 as [prefix| | |]; [|injection H as <- <- <-; naive_solver..]. clear F1.
  apply read_full_ok in E1 as [-> Hp].
  destruct (open_prefix prefix c) as [pp c2] eqn:Eo. cbn [mac cipher] in H.
  set (length := be (stake 4 pp)) in *. set (ms := match mac c with Some m => Size m | None => 0 end) in *.
  destruct (length <=? _) eqn:El; [injection H as <- <- <-; naive_solver|].
  destruct (maxPacket <? length) eqn:Em; [injection H as <- <- <-; naive_solver|]. z_prop.
  pose proof (byte_at_range 4 pp) as Hb.
  assert (0 <= ms) as Hms.
  { unfold ms. destruct (mac c) as [m|] eqn:Hmc; [apply (Hw m Hmc)|lia]. }
  destruct (read_full _ r1) as [r2 o2] eqn:E2. pose proof (Hrf (Z.to_nat (length - 1 + ms)) r1) as F2.
  rewrite E2 in F2; simpl in F2.
  destruct o2 as [pd| | |]; [|injection H as <- <- <-; naive_solver..]. clear F2.
  apply read_full_ok in E2 as [-> Hpd].
  assert (slen (stake (Z.to_nat (length - 1)) pd) = length - 1) as Hd by (apply stake_slen; unfold slen; lia).
  destruct (XORKeyStream _ c2) as [plain c3] eqn:Ex.
  assert (slen plain = length - 1) as Hpl.
  { pose proof (XOR_length c2 (stake (Z.to_nat (length - 1)) pd)) as Hl. rewrite Ex in Hl. simpl in Hl.
    unfold slen in *. lia. }
  destruct (match mac c with Some m => _ | None => false end) eqn:Emac;
    [injection H as <- <- <-; naive_solver|]. injection H as <- <- <-.
  split_and!; [done|done|]. intros p [= <-].
  exists prefix, (stake (Z.to_nat (length - 1)) pd), (sdrop (Z.to_nat (length - 1)) pd), pp, plain, c2.
  rewrite Hd. split_and!; try done.
  - by rewrite <- (string_app_assoc _ (sdrop _ pd)), stake_sdrop.
  - intros m Hm. rewrite Hm in Emac. apply negb_false_iff, String.eqb_eq in Emac. rewrite <- Emac.
    unfold mac_input, uses_etm; simpl. by rewrite Hm.
  - do 2 f_equal. lia.
  - rewrite stake_slen by lia. lia.
  - rewrite stake_slen by lia. lia.
Qed.

(** ** GCM *)

Lemma be_go_acc acc s : be_go acc s = acc * 256 ^ slen s + be s.
Proof.
  revert acc. unfold be. induction s as [|c s IH]; intros acc; cbn [be_go]; [unfold slen; simpl; lia|].
  rewrite (IH (acc * 256 + val c)), (IH (0 * 256 + val c)). unfold slen; cbn [String.length].
  rewrite Nat2Z.inj_succ, Z.pow_succ_r by lia. lia.
Qed.

Lemma be_String c s : be (String c s) = val c * 256 ^ slen s + be s.
Proof. unfold be at 1. cbn [be_go]. rewrite be_go_acc. lia. Qed.

Lemma be_range s : 0 <= be s < 256 ^ slen s.
Proof.
  induction s as [|c s IH]; [unfold slen; simpl; unfold be; simpl; lia|]. rewrite be_String.
  pose proof (val_range c). unfold slen in *; cbn [String.length]. rewrite Nat2Z.inj_succ, Z.pow_succ_r by lia. nia.
Qed.

(** [inc_be] counts modulo a power of 256. *)
Lemma inc_be_spec s :
  String.length (inc_be s).1 = String.length s /\
  be (inc_be s).1 = (be s + 1) mod 256 ^ slen s /\
  ((inc_be s).2 = true <-> be s = 256 ^ slen s - 1).
Proof.
  induction s as [|c s (IH1 & IH2 & IH3)]; [unfold slen; simpl; split_and!; done|]. cbn [inc_be].
  destruct (inc_be s) as [s' carry]. simpl fst in *; simpl snd in *.
  assert (slen s' = slen s) as Hs by (unfold slen; by rewrite IH1).
  assert (256 ^ slen (String c s) = 256 * 256 ^ slen s) as Hpow.
  { unfold slen; simpl. rewrite Nat2Z.inj_succ, Z.pow_succ_r by lia. lia. }
  pose proof (be_range s) as Hbs. pose proof (val_range c) as Hv. rewrite Hpow, be_String.
  destruct carry; simpl fst; simpl snd; (split; [simpl; by rewrite IH1|]); rewrite be_String, Hs, IH2.
  - assert (be s = 256 ^ slen s - 1) as E by (by apply IH3). rewrite E.
    replace (256 ^ slen s - 1 + 1) with (256 ^ slen s) by lia. rewrite Z.mod_same by lia.
    rewrite val_byte, Z.add_0_r. split; [|rewrite Z.eqb_eq; nia].
    replace (val c * 256 ^ slen s + (256 ^ slen s - 1) + 1) with ((val c + 1) * 256 ^ slen s) by lia.
    by rewrite Z.mul_mod_distr_r by lia.
  - assert (be s <> 256 ^ slen s - 1) as E by (intros E; by apply IH3 in E).
    rewrite (Z.mod_small (be s + 1)) by lia. split; [rewrite Z.mod_small; nia|]. split; [done|nia].
Qed.

(** The count in a nonce, and the nonce of the [n]-th packet. *)
Definition counter (c : gcmCipher) : Z := be (sdrop 4 (iv c)).
Fixpoint after_packets (n : nat) (c : gcmCipher) : gcmCipher :=
  match n with O => c | S n => incIV (after_packets n c) end.

Lemma incIV_counter c :
  slen (iv c) = 12 -> slen (iv (incIV c)) = 12 /\ counter (incIV c) = (counter c + 1) mod 2 ^ 64.
Proof.
  intros H. unfold counter, incIV; cbn [iv].
  destruct (inc_be_spec (sdrop 4 (iv c))) as (Hl & Hb & _).
  assert (String.length (stake 4 (iv c)) = 4%nat) as H4 by (rewrite stake_length; unfold slen in H; lia).
  assert (slen (sdrop 4 (iv c)) = 8) as H8 by (rewrite sdrop_slen; lia).
  rewrite slen_app, sdrop_app_len, Hb, H8 by done. split; [unfold slen in *; lia|done].
Qed.

Lemma after_packets_counter n c :
  slen (iv c) = 12 ->
  slen (iv (after_packets n c)) = 12 /\ counter (after_packets n c) = (counter c + Z.of_nat n) mod 2 ^ 64.
Proof.
  intros H. induction n as [|n [IH1 IH2]].
  - split; [done|]. rewrite Z.add_0_r, Z.mod_small; [done|]. unfold counter.
    pose proof (be_range (sdrop 4 (iv c))) as Hr. rewrite sdrop_slen, H in Hr. exact Hr.
  - cbn [after_packets]. destruct (incIV_counter _ IH1) as [H1 H2]. split; [done|].
    rewrite H2, IH2, Zplus_mod_idemp_l. f_equal. lia.
Qed.

(** The first 2^64 packets under one key are sealed with different nonces. *)
Theorem gcm_nonces_differ c i j :
  slen (iv c) = 12 -> (i < j)%nat -> Z.of_nat j < 2 ^ 64 -> iv (after_packets i c) <> iv (after_packets j c).
Proof.
  intros H Hij Hj E. destruct (after_packets_counter i c H) as [_ Hi]. destruct (after_packets_counter j c H) as [_ Hc].
  unfold counter at 1 in Hi. unfold counter at 1 in Hc. rewrite E, Hc in Hi.
  apply (f_equal (fun x => (x - counter c) mod 2 ^ 64)) in Hi. rewrite !Zminus_mod_idemp_l in Hi.
  replace (counter c + Z.of_nat i - counter c) with (Z.of_nat i) in Hi by lia.
  replace (counter c + Z.of_nat j - counter c) with (Z.of_nat j) in Hi by lia.
  rewrite !Z.mod_small in Hi; lia.
Qed.

(** What is relied on of cipher.AEAD. *)
Definition aead_ok (c : gcmCipher) : Prop :=
  slen (iv c) = 12 /\
  forall n p a, Open c n (Seal c n p a) a = Ok p /\ slen (Seal c n p a) = slen p + gcmTagSize.
Definition gcm_matched (cw cr : gcmCipher) : Prop := cw = cr /\ aead_ok cw.

Lemma incIV_aead_ok c : aead_ok c -> aead_ok (incIV c).
Proof. intros [H1 H2]. split; [by apply incIV_counter|exact H2]. Qed.

Lemma slen_String c s : slen (String c s) = slen s + 1.
Proof. unfold slen; simpl. lia. Qed.

Lemma gcm_write_read seq rand p c c' out rest :
  aead_ok c -> packet_ok p -> gcm_write seq rand p c = (c', Ok out) ->
  gcm_read seq (out +:+ rest) c = (c', rest, Ok p) /\ c' = incIV c.
Proof.
  intros [Hiv Haead] [Hp0 Hp] H. unfold gcm_write in H.
  set (padding := gcm_padding (slen p)) in *.
  assert (4 <= padding <= 19) as Hpd
    by (unfold padding; rewrite gcm_padding_eq; apply stream_padding_spec; lia).
  unfold maxPacket in Hp. rewrite to_uint32_id in H by (unfold in_uint32; lia).
  destruct (read_full _ rand) as [r' [pad| | |]] eqn:Er; [|done..]. apply read_full_ok in Er as [_ Hpad].
  set (length := slen p + padding + 1) in *. set (pre := be_bytes 4 length) in *.
  assert (String.length pre = 4%nat /\ be pre = length) as [Hpre Hbe]
    by (split; [apply be_bytes_length|apply be_be_bytes; unfold length; lia]).
  clearbody pre. injection H as <- <-. split; [|done].
  set (plain := String (byte padding) (p +:+ pad)).
  assert (slen plain = length) as Hlen.
  { unfold plain. rewrite slen_String, slen_app. unfold slen at 2. unfold length. lia. }
  change (String (byte padding) "" +:+ p +:+ pad) with plain.
  destruct (Haead (iv c) plain pre) as [Ho Hs]. unfold gcmTagSize in Hs.
  unfold gcm_read. rewrite string_app_assoc, read_full_app by done. rewrite Hbe.
  destruct (maxPacket <? length) eqn:Em; [unfold maxPacket, length in Em; z_prop; lia|].
  rewrite read_full_app by (unfold gcmTagSize, slen in *; lia). rewrite Ho.
  unfold plain at 1. cbn iota beta. rewrite val_byte, Z.mod_small by lia.
  destruct (padding <? 4) eqn:E4; [z_prop; lia|].
  rewrite Z.mod_small by lia. fold plain. rewrite Hlen.
  destruct (length <=? padding + 1) eqn:E5; [unfold length in E5; z_prop; lia|].
  rewrite to_uint32_id by (unfold in_uint32, length; lia).
  destruct (_ || _) eqn:E6; [apply orb_true_iff in E6; unfold length in E6; destruct E6; z_prop; lia|].
  do 2 f_equal. replace (Z.to_nat (length - padding)) with (S (String.length p)) by (unfold length, slen; lia).
  unfold plain. simpl. by rewrite stake_app.
Qed.

Lemma gcm_write_total seq rand p c :
  packet_ok p -> 32 <= slen rand -> exists c' out, gcm_write seq rand p c = (c', Ok out).
Proof.
  intros [Hp0 Hp] Hr. unfold gcm_write.
  pose proof (stream_padding_spec (slen p) 4 ltac:(lia) ltac:(lia)) as [Hpl _]. rewrite <- gcm_padding_eq in Hpl.
  destruct (read_full_enough (Z.to_nat (gcm_padding (slen p))) rand) as (r' & s & ->); [unfold slen in *; lia|].
  eauto.
Qed.

#[export, refine] Instance gcm_cipher_laws : PacketCipherLaws gcmCipher := { matched := gcm_matched }.
Proof.
  - intros seq rand p cw cr cw' out rest [<- Ha] Hp Hw. simpl in *.
    destruct (gcm_write_read seq rand p cw cw' out rest Ha Hp Hw) as [Hr ->].
    eexists. split; [exact Hr|]. split; [done|by apply incIV_aead_ok].
  - intros. by apply gcm_write_total.
Defined.

(** Reading under GCM panics on two kinds of packets only, both made by a
    peer that has the key: one whose plaintext is empty, and one of at most 255
    bytes that claims a padding of 255, for which the check of the padding
    wraps around in a byte. *)
Theorem gcm_read_panics seq r c c' r' s :
  (forall n b a t, Open c n b a <> Panic t) -> (forall n b a p, Open c n b a = Ok p -> slen b = slen p + gcmTagSize) ->
  gcm_read seq r c = (c', r', Panic s) ->
  exists buf plain, Open c (iv c) buf (stake 4 r) = Ok plain /\
    (plain = "" \/ byte_at 0 plain = 255 /\ slen plain <= 255).
Proof.
  intros Hop Hlen H. unfold gcm_read in H.
  destruct (read_full 4 r) as [r1 [prefix| |t|]] eqn:E1; [|done|unfold read_full in E1; by cases_in E1|done].
  apply read_full_ok in E1 as [-> Hp]. rewrite stake_app_len by done.
  destruct (maxPacket <? be prefix) eqn:Em; [done|]. z_prop.
  destruct (read_full _ r1) as [r2 [buf| |t|]] eqn:E2; [|done|unfold read_full in E2; by cases_in E2|done].
  apply read_full_ok in E2 as [-> Hb].
  destruct (Open c (iv c) buf prefix) as [plain|e|t|] eqn:Eo; [|done|by apply Hop in Eo|done].
  exists buf, plain. split; [done|]. apply Hlen in Eo as Hl. unfold gcmTagSize in *.
  pose proof (be_range prefix) as Hbe.
  destruct plain as [|b plain]; [by left|]. right.
  destruct (val b <? 4) eqn:E4; [done|]. destruct (slen (String b plain) <=? (val b + 1) mod 256) eqn:E5; [done|].
  pose proof (val_range b) as Hv. z_prop. unfold byte_at; simpl.
  assert (slen (String b plain) = be prefix) as Hs by (unfold slen in *; lia). rewrite Hs in *.
  destruct (decide (val b = 255)) as [Hb255|Hb255].
  - split; [done|]. destruct (decide (be prefix <= 255)) as [|Hbig]; [done|]. exfalso.
    unfold maxPacket in Em. rewrite to_uint32_id in H by (unfold in_uint32; lia).
    destruct (_ || _) eqn:E6; [|done]. apply orb_true_iff in E6 as [E6|E6]; z_prop; lia.
  - exfalso. rewrite Z.mod_small in E5 by lia.
    unfold maxPacket in Em. rewrite to_uint32_id in H by (unfold in_uint32; lia).
    destruct (_ || _) eqn:E6; [|done]. apply orb_true_iff in E6 as [E6|E6]; z_prop; lia.
Qed.

(** ** Connections and the change of keys (transport.go) *)

Section Connection.
Context {C : Type} `{PacketCipher C}.

(** One side of the connection; the channel of pending keys holds one. *)
Record connectionState := mkConn { packetCipher : C; seqNum : Z; pendingKeyChange : option C }.

Definition disconnect_text (vs : list value) : string :=
  match vs with
  | [VUint32 reason; VString message; _] => "ssh: disconnect, reason " +:+ itoa reason +:+ ": " +:+ message
  | _ => ""
  end.

(** [connectionState.readPacket]. *)
Definition conn_read (r : string) (s : connectionState) : connectionState * string * outcome string :=
  let '(c, r, res) := readPacket (seqNum s) r (packetCipher s) in
  let s := mkConn c (to_uint32 (seqNum s + 1)) (pendingKeyChange s) in
  match res with
  | Ok "" => (s, r, Err "ssh: zero length packet")
  | Ok (String b _ as packet) =>
      if val b =? 21 then
        match pendingKeyChange s with
        | Some cipher => (mkConn cipher (seqNum s) None, r, Ok packet)
        | None => (s, r, Err "ssh: got bogus newkeys message.")
        end
      else if val b =? 1 then
        (s, r, let? vs := Unmarshal packet disconnectMsg in Err (disconnect_text vs))
      else (s, r, Ok packet)
  | res => (s, r, res)
  end.

(** [connectionState.writePacket]; [flush] is the answer of the connection. *)
Definition conn_write (rand : string) (flush : error_) (packet : string) (s : connectionState)
  : connectionState * outcome string :=
  let changeKeys := match packet with "" => false | String b _ => val b =? 21 end in
  let '(c, res) := writePacket (seqNum s) rand packet (packetCipher s) in
  match res with
  | Ok out =>
      match flush with
      | Some e => (mkConn c (seqNum s) (pendingKeyChange s), Err e)
      | None =>
          let s := mkConn c (to_uint32 (seqNum s + 1)) (pendingKeyChange s) in
          if changeKeys then
            match pendingKeyChange s with
            | Some cipher => (mkConn cipher (seqNum s) None, Ok out)
            | None => (s, Panic "ssh: no key material for msgNewKeys")
            end
          else (s, Ok out)
      end
  | res => (mkConn c (seqNum s) (pendingKeyChange s), res)
  end.

(** [transport.readPacket] skips ignored and debug packets; [fuel] bounds how
    many, and the bytes that arrive are enough. *)
Fixpoint transport_read (fuel : nat) (r : string) (s : connectionState)
  : option (connectionState * string * outcome string) :=
  match fuel with
  | O => None
  | S fuel =>
      let '(s, r, res) := conn_read r s in
      match res with
      | Ok (String b _) => if (val b =? 2) || (val b =? 4) then transport_read fuel r s else Some (s, r, res)
      | _ => Some (s, r, res)
      end
  end.
End Connection.
Arguments connectionState C : clear implicits.

(** A cipher never gives bytes back, and a packet costs at least one. *)
Class PacketCipherReads (C : Type) `{PacketCipher C} :=
  read_shrinks : forall seq r c c' r' p, readPacket seq r c = (c', r', Ok p) -> slen r' < slen r.

Lemma read_full_shrinks n r : slen (read_full n r).1 <= slen r.
Proof.
  unfold read_full. pose proof (slen_nonneg r). cases; try (unfold slen; simpl; lia).
  rewrite sdrop_slen. lia.
Qed.

#[export] Instance stream_cipher_reads : PacketCipherReads streamPacketCipher.
Proof.
  intros seq r c c' r' p H. simpl in H. unfold stream_read in H.
  destruct (read_full 5 r) as [r1 [prefix| | |]] eqn:E1; [|done..].
  apply read_full_ok in E1 as [-> Hp]. destruct (open_prefix prefix c) as [pp c2].
  destruct (_ <=? _); [done|]. destruct (_ <? _); [done|].
  destruct (read_full _ r1) as [r2 [pd| | |]] eqn:E2; [|done..]. apply read_full_ok in E2 as [-> Hpd].
  destruct (XORKeyStream _ _). case_match; [done|]. injection H as _ <- _.
  rewrite !slen_app. pose proof (slen_nonneg pd). unfold slen in *. lia.
Qed.

#[export] Instance gcm_cipher_reads : PacketCipherReads gcmCipher.
Proof.
  intros seq r c c' r' p H. simpl in H. unfold gcm_read in H.
  destruct (read_full 4 r) as [r1 [prefix| | |]] eqn:E1; [|done..].
  apply read_full_ok in E1 as [-> Hp]. destruct (_ <? _); [done|].
  destruct (read_full _ r1) as [r2 [pd| | |]] eqn:E2; [|done..]. apply read_full_ok in E2 as [-> Hpd].
  assert (r' = r2) as ->.
  { destruct (Open _ _ _ _) as [[|b plain]| | |]; [done| |done..].
    destruct (_ <? 4); [done|]. destruct (_ <=? _); [done|]. destruct (_ || _); [done|]. by injection H as _ <- _. }
  rewrite !slen_app. pose proof (slen_nonneg pd). unfold slen in *. lia.
Qed.

Section Transport_laws.
Context {C : Type} `{PacketCipherLaws C} `{!PacketCipherReads C}.

(** The writer of one end and the reader of the other. *)
Definition linked (sw sr : connectionState C) : Prop :=
  matched (packetCipher sw) (packetCipher sr) /\ seqNum sw = seqNum sr /\
  match pendingKeyChange sw, pendingKeyChange sr with
  | Some cw, Some cr => matched cw cr
  | None, None => True
  | _, _ => False
  end.

(** A packet that is passed up as it is. *)
Definition plain_packet (p : string) : Prop := packet_ok p /\ byte_at 0 p <> 1.

Lemma conn_read_shrinks r (s s' : connectionState C) r' p :
  conn_read r s = (s', r', Ok p) -> slen r' < slen r.
Proof.
  unfold conn_read. destruct (readPacket _ _ _) as [[c r1] res] eqn:E.
  intros Hc. assert (exists q, res = Ok q /\ r1 = r') as (q & -> & ->).
  { destruct res as [[|b q]| | |]; [done| |done..]. exists (String b q). split; [done|].
    destruct (val b =? 21); [simpl in Hc; destruct (pendingKeyChange s); by inversion Hc|].
    destruct (val b =? 1); [|by inversion Hc]. injection Hc as _ <- _. done. }
  by apply read_shrinks in E.
Qed.

Lemma transport_read_fuel fuel r (s : connectionState C) :
  slen r < Z.of_nat fuel -> exists res, transport_read fuel r s = Some res.
Proof.
  revert r s. induction fuel as [|fuel IH]; intros r s Hf; [pose proof (slen_nonneg r); lia|].
  cbn [transport_read]. destruct (conn_read r s) as [[s' r'] res] eqn:E.
  destruct res as [[|b p]| | |]; eauto. destruct (_ || _); eauto.
  apply IH. apply conn_read_shrinks in E. lia.
Qed.

(** One packet: what the writer sends, the reader gets. *)
Lemma conn_write_read rand p (sw sr sw' : connectionState C) out rest :
  linked sw sr -> plain_packet p -> conn_write rand None p sw = (sw', Ok out) ->
  exists sr', conn_read (out +:+ rest) sr = (sr', rest, Ok p) /\ linked sw' sr'.
Proof.
  intros (Hm & Hs & Hk) [Hp Hb] Hw. unfold conn_write in Hw.
  destruct (writePacket _ rand p _) as [cw [out'| | |]] eqn:E; [|done..].
  assert (out' = out) as ->.
  { destruct p as [|b p]; [by injection Hw|]. destruct (val b =? 21); [|by injection Hw].
    simpl in Hw. destruct (pendingKeyChange sw); [by injection Hw|done]. }
  destruct (write_read (seqNum sw) rand p _ (packetCipher sr) _ out rest Hm Hp E) as (cr & Hr & Hm').
  unfold conn_read. rewrite <- Hs, Hr.
  destruct p as [|b p]; [by destruct Hp|]. unfold byte_at in Hb; simpl in Hb.
  destruct (val b =? 21) eqn:E21.
  - simpl in *. destruct (pendingKeyChange sw) as [kw|] eqn:Ew; [|done]. injection Hw as <-.
    destruct (pendingKeyChange sr) as [kr|]; [|done]. eexists. split; [done|]. split_and!; simpl; done.
  - injection Hw as <-. destruct (val b =? 1) eqn:E1; [z_prop; done|].
    eexists. split; [done|]. split_and!; simpl; done.
Qed.
End Transport_laws.

(** Two kinds of ciphers in one type. *)
#[export] Instance sum_cipher {A B} `{PacketCipher A} `{PacketCipher B} : PacketCipher (A + B) := {
  writePacket seq rand p c :=
    match c with
    | inl c => let '(c, out) := writePacket seq rand p c in (inl c, out)
    | inr c => let '(c, out) := writePacket seq rand p c in (inr c, out)
    end;
  readPacket seq r c :=
    match c with
    | inl c => let '(c, r, res) := readPacket seq r c in (inl c, r, res)
    | inr c => let '(c, r, res) := readPacket seq r c in (inr c, r, res)
    end }.

#[export, refine] Instance sum_cipher_laws {A B} `{PacketCipherLaws A} `{PacketCipherLaws B} : PacketCipherLaws (A + B) := {
  matched cw cr := match cw, cr with inl a, inl b => matched a b | inr a, inr b => matched a b | _, _ => False end }.
Proof.
  - intros seq rand p [cw|cw] [cr|cr] cw' out rest Hm Hp Hw; simpl in *; try done;
      destruct (writePacket seq rand p cw) as [c1 o] eqn:E; injection Hw as <- ->;
      destruct (write_read seq rand p cw cr c1 out rest Hm Hp E) as (cr' & Hr & Hm'); rewrite Hr; eauto.
  - intros seq rand p [cw|cw] [cr|cr] Hm Hp Hr; simpl in *; try done;
      destruct (write_fails seq rand p cw cr Hm Hp Hr) as (cw' & out & E); rewrite E; eauto.
Defined.

#[export] Instance sum_cipher_reads {A B} `{PacketCipherReads A} `{PacketCipherReads B} : PacketCipherReads (A + B).
Proof.
  intros seq r [c|c] c' r' p E; simpl in E; destruct (readPacket seq r c) as [[c1 r1] res] eqn:E1;
    injection E as _ <- ->; by apply read_shrinks in E1.
Qed.

(** What the transport runs: a stream cipher or GCM. *)
Definition anyCipher : Type := (streamPacketCipher + gcmCipher)%type.

(** The loop of [readPacket] ends within as many packets as there are bytes. *)
Theorem transport_read_ends r (s : connectionState anyCipher) :
  exists res, transport_read (S (String.length r)) r s = Some res.
Proof. apply transport_read_fuel. unfold slen. lia. Qed.

(** *** A whole conversation *)

(** A packet to send, or new keys to use after the next NEWKEYS packet. *)
Inductive action (C : Type) := SendPacket (rand p : string) | KeyChange (cw cr : C).
Arguments SendPacket {C}.
Arguments KeyChange {C}.

Section Conversation.
Context {C : Type} `{PacketCipherLaws C}.

(** The channel of pending keys has room for one. *)
Definition put_keys (c : C) (s : connectionState C) : option (connectionState C) :=
  match pendingKeyChange s with
  | None => Some (mkConn (packetCipher s) (seqNum s) (Some c))
  | Some _ => None
  end.

Fixpoint run_writer (l : list (action C)) (s : connectionState C) : option (connectionState C * string) :=
  match l with
  | [] => Some (s, "")
  | KeyChange cw _ :: l => match put_keys cw s with Some s => run_writer l s | None => None end
  | SendPacket rand p :: l =>
      match conn_write rand None p s with
      | (s, Ok out) => match run_writer l s with Some (s, outs) => Some (s, out +:+ outs) | None => None end
      | _ => None
      end
  end.

Fixpoint run_reader (l : list (action C)) (r : string) (s : connectionState C)
  : option (connectionState C * string * list string) :=
  match l with
  | [] => Some (s, r, [])
  | KeyChange _ cr :: l => match put_keys cr s with Some s => run_reader l r s | None => None end
  | SendPacket _ _ :: l =>
      match conn_read r s with
      | (s, r, Ok p) => match run_reader l r s with Some (s, r, ps) => Some (s, r, p :: ps) | None => None end
      | _ => None
      end
  end.

Definition packets (l : list (action C)) : list string :=
  flat_map (fun a => match a with SendPacket _ p => [p] | _ => [] end) l.
Definition action_ok (a : action C) : Prop :=
  match a with SendPacket _ p => plain_packet p | KeyChange cw cr => matched cw cr end.

Lemma conversation l sw sr sw' out rest :
  linked sw sr -> Forall action_ok l -> run_writer l sw = Some (sw', out) ->
  exists sr', run_reader l (out +:+ rest) sr = Some (sr', rest, packets l) /\ linked sw' sr'.
Proof.
  revert sw sr sw' out. induction l as [|[rand p|kw kr] l IH]; intros sw sr sw' out Hl Hok Hw; simpl in Hw.
  - injection Hw as <- <-. exists sr. done.
  - apply Forall_cons in Hok as [Hp Hok]. destruct (conn_write rand None p sw) as [s1 [o| | |]] eqn:E; [|done..].
    destruct (run_writer l s1) as [[s2 os]|] eqn:E2; [|done]. injection Hw as <- <-.
    destruct (conn_write_read _ _ _ _ _ _ (os +:+ rest) Hl Hp E) as (sr1 & Hr & Hl1).
    destruct (IH _ _ _ _ Hl1 Hok E2) as (sr2 & Hr2 & Hl2). exists sr2.
    simpl. by rewrite string_app_assoc, Hr, Hr2.
  - apply Forall_cons in Hok as [Hk Hok]. destruct Hl as (Hm & Hs & Hp). unfold put_keys in Hw.
    destruct (pendingKeyChange sw) eqn:Ew; [done|].
    assert (linked (mkConn (packetCipher sw) (seqNum sw) (Some kw)) (mkConn (packetCipher sr) (seqNum sr) (Some kr)))
      as Hl' by (split_and!; simpl; done).
    destruct (IH _ _ _ _ Hl' Hok Hw) as (sr2 & Hr2 & Hl2). exists sr2. split; [|done]. simpl. unfold put_keys.
    destruct (pendingKeyChange sr); done.
Qed.
End Conversation.

(** Whatever packets are sent and whenever keys change on the way, the other
    end reads exactly these packets, in order, and leaves what follows them. *)
Theorem transport_roundtrip (l : list (action anyCipher)) sw sr sw' out rest :
  linked sw sr -> Forall action_ok l -> run_writer l sw = Some (sw', out) ->
  exists sr', run_reader l (out +:+ rest) sr = Some (sr', rest, packets l) /\ linked sw' sr'.
Proof. apply conversation. Qed.

(** Packets that [writePacket] accepts and no reader does: the writer bounds the
    payload, the reader the packet with its padding. *)
Lemma longest_packet_unreadable seq rand p c c' out :
  slen p = maxPacket -> mac c = None -> stream_write seq rand p c = (c', Ok out) ->
  (stream_read seq out c).2 = Err "ssh: invalid packet length, packet too large".
Proof.
  intros Hp Hmac Hw. apply stream_write_eq in Hw as (padding & _ & Hpad & Hpl & _ & prefix & data & tag & plain &
    -> & H5 & Hlen & Hplain & Hopen & _). unfold stream_read.
  rewrite read_full_app, Hopen by done. set (pl := stream_padding _ _) in *. rewrite Hplain.
  rewrite stake_app_len, be_be_bytes by (apply be_bytes_length || (unfold maxPacket in *; lia)).
  rewrite byte_at_4 by apply be_bytes_length. rewrite val_byte, Z.mod_small by lia.
  destruct (_ <=? _) eqn:E1; [z_prop; unfold maxPacket in *; lia|].
  destruct (maxPacket <? _) eqn:E2; [done|z_prop; lia].
Qed.

(** *** Version lines *)

Definition maxVersionStringBytes : nat := 255.

(** [n] more bytes may be read. *)
Fixpoint version_loop (n : nat) (versionString r : string) : string * outcome string :=
  match n with
  | O => (r, Err "ssh: overflow reading version string")
  | S n =>
      match r with
      | "" => ("", Err EOF)
      | String c r => if Ascii.eqb c nl_byte then (r, Ok versionString) else version_loop n (versionString +:+ String c "") r
      end
  end.

Definition cr_byte : ascii := "013".

Fixpoint strip_cr (s : string) : string :=
  match s with
  | "" => ""
  | String c "" => if Ascii.eqb c cr_byte then "" else s
  | String c s => String c (strip_cr s)
  end.

Definition readVersion (r : string) : string * outcome string :=
  let '(r, res) := version_loop maxVersionStringBytes "" r in
  (r, let? versionString := res in Ok (strip_cr versionString)).

(** What is written, and what is left after the answer. [werr] is the outcome of
    the write. *)
Definition exchangeVersions (versionLine r : string) (werr : error_) : string * string * outcome string :=
  if sall (fun c => negb (val c <? 32)) versionLine then
    match werr with
    | Some e => ("", r, Err e)
    | None =>
        let '(r, res) := readVersion r in
        (versionLine +:+ String cr_byte nl, r, res)
    end
  else ("", r, Err "ssh: junk character in version line").

(** The first line and what follows it, with the limit on its length. *)
Definition version_spec (r : string) : string * outcome string :=
  match cut nl_byte r with
  | (line, Some rest) =>
      if (String.length line <? 255)%nat then (rest, Ok (strip_cr line))
      else (sdrop 255 r, Err "ssh: overflow reading version string")
  | (line, None) =>
      if (String.length line <? 255)%nat then ("", Err EOF)
      else (sdrop 255 r, Err "ssh: overflow reading version string")
  end.

Lemma version_loop_spec n acc r :
  version_loop n acc r =
    match cut nl_byte r with
    | (line, o) =>
        if (String.length line <? n)%nat then
          match o with Some rest => (rest, Ok (acc +:+ line)) | None => ("", Err EOF) end
        else (sdrop n r, Err "ssh: overflow reading version string")
    end.
Proof.
  revert acc r. induction n as [|n IH]; intros acc r; simpl; [by destruct (cut nl_byte r)|].
  destruct r as [|c r]; [done|]. simpl. destruct (Ascii.eqb c nl_byte) eqn:E.
  - by rewrite string_app_nil_r.
  - rewrite IH. destruct (cut nl_byte r) as [line o]. simpl.
    change (S (String.length line) <? S n)%nat with (String.length line <? n)%nat.
    destruct (_ <? _)%nat; [|done]. destruct o; [|done]. by rewrite string_app_assoc.
Qed.

(** Reading byte by byte with a limit is taking the first line, without its
    carriage return, provided it has less than 255 bytes. *)
Theorem readVersion_equiv r : readVersion r = version_spec r.
Proof.
  unfold readVersion, version_spec, maxVersionStringBytes. rewrite version_loop_spec.
  destruct (cut nl_byte r) as [line [rest|]]; by destruct (_ <? _)%nat.
Qed.

Lemma strip_cr_app s : strip_cr (s +:+ String cr_byte "") = s.
Proof. induction s as [|c s IH]; [done|]. simpl. rewrite IH. by destruct s. Qed.

(** Of a version line without control characters and at most 253 bytes long
    the other end reads exactly the line. *)
Theorem version_roundtrip line r rest :
  slen line <= 253 -> (exchangeVersions line r None).1.1 <> "" ->
  readVersion ((exchangeVersions line r None).1.1 +:+ rest) = (rest, Ok line).
Proof.
  intros Hl. unfold exchangeVersions. destruct (sall _ line) eqn:E; [|done]. intros _.
  destruct (readVersion r) as [r' res]. simpl fst.
  unfold readVersion, maxVersionStringBytes. rewrite version_loop_spec.
  replace ((line +:+ String cr_byte nl) +:+ rest) with ((line +:+ String cr_byte "") +:+ String nl_byte rest)
    by (rewrite !string_app_assoc; done).
  rewrite cut_app.
  2:{ unfold lacks. rewrite sall_app. apply andb_true_iff. split; [|done]. eapply sall_impl; [|exact E].
      intros c Hc. destruct (Ascii.eqb c nl_byte) eqn:Ec; [apply Ascii.eqb_eq in Ec as ->; done|done]. }
  rewrite string_app_length. change (String.length (String cr_byte "")) with 1%nat.
  destruct (_ <? _)%nat eqn:F; [|apply Nat.ltb_ge in F; unfold slen in Hl; lia].
  simpl. by rewrite strip_cr_app.
Qed.

(** ** Witnesses *)

Definition demo_mac (e : bool) : macAlg := mkMac e (fun s => be_bytes 4 (be s)) 4.
Definition demo_stream (e : bool) : streamPacketCipher :=
  mkSPC (Some (demo_mac e)) (mkStream (fun n => byte (7 * Z.of_nat n + 3)) 2).
Definition demo_tag : string := be_bytes 16 99.
Definition demo_gcm : gcmCipher :=
  mkGCM (fun n p a => p +:+ demo_tag)
    (fun n b a => if slen b <? 16 then Err "short" else Ok (stake (String.length b - 16) b))
    (be_bytes 12 (2 ^ 64 - 1)).
Definition demo_rand : string := be_bytes 32 12345678901234567890.

Lemma demo_mac_wf e : mac_wf (demo_stream e).
Proof. intros m [= <-]. split; [done|]. intros s. apply slen_be_bytes. Qed.

Lemma demo_aead_ok : aead_ok demo_gcm.
Proof.
  split; [reflexivity|]. intros n p a. simpl. rewrite slen_app.
  pose proof (slen_nonneg p). change (slen demo_tag) with 16. unfold gcmTagSize. split; [|done].
  destruct (_ <? 16) eqn:E; [z_prop; lia|]. rewrite string_app_length. change (String.length demo_tag) with 16%nat.
  do 2 f_equal. rewrite Nat.add_sub. apply stake_app.
Qed.

Lemma gcm_nonces_differ_witness : iv (after_packets 1 demo_gcm) <> iv (after_packets 3 demo_gcm).
Proof. apply gcm_nonces_differ; [reflexivity|lia|lia]. Defined.

(** An empty sealed packet, which the peer can send. *)
Definition empty_sealed : string := be_bytes 4 0 +:+ demo_tag.
Lemma gcm_read_panics_witness :
  exists buf plain, Open demo_gcm (iv demo_gcm) buf (stake 4 empty_sealed) = Ok plain /\
    (plain = "" \/ byte_at 0 plain = 255 /\ slen plain <= 255).
Proof.
  apply (gcm_read_panics 0 empty_sealed demo_gcm (incIV demo_gcm) "" "index out of range").
  - intros n b a t. simpl. by destruct (_ <? 16).
  - intros n b a p. simpl. destruct (slen b <? 16) eqn:E; [done|]. z_prop. intros [= <-].
    unfold gcmTagSize, slen in *. rewrite stake_length. lia.
  - vm_compute. reflexivity.
Defined.

(** A packet of sixteen bytes that claims a padding of 255 makes it panic too. *)
Lemma gcm_padding_wraps :
  (gcm_read 0 (be_bytes 4 16 +:+ String (byte 255) (be_bytes 15 0) +:+ demo_tag) demo_gcm).2 =
    Panic "slice bounds out of range".
Proof. vm_compute. reflexivity. Qed.

Definition demo_packet : string := "some payload".
Lemma stream_accepts_authentic_witness :
  exists prefix data tag plain_prefix plain c2 c' r',
    (stream_write 7 demo_rand demo_packet (demo_stream true)).2 = Ok (prefix +:+ data +:+ tag +:+ r') /\
    XORKeyStream data c2 = (plain, cipher c') /\
    tag = Sum (demo_mac true) (mac_input (demo_stream true) 7 prefix plain_prefix data plain).
Proof.
  pose (out := match (stream_write 7 demo_rand demo_packet (demo_stream true)).2 with Ok o => o | _ => "" end).
  destruct (stream_read 7 out (demo_stream true)) as [[c' r'] res] eqn:E.
  destruct (stream_accepts_authentic 7 out (demo_stream true) c' r' res (demo_mac_wf true) E) as (_ & _ & H).
  assert (res = Ok demo_packet) as Hr by (vm_compute in E; injection E as _ _ <-; reflexivity).
  destruct (H _ Hr) as (prefix & data & tag & pp & plain & c2 & Ho & _ & Hx & _ & Ht & _).
  exists prefix, data, tag, pp, plain, c2, c', r'. split; [|split; [exact Hx|by apply Ht]].
  rewrite <- Ho. vm_compute. reflexivity.
Defined.

(** Packets before, at and after a change from no cipher to a stream cipher and
    on to GCM. *)
Definition demo_plain : streamPacketCipher := mkSPC None noneCipher.
Definition demo_talk : list (action anyCipher) :=
  [SendPacket demo_rand "hello"; KeyChange (inl (demo_stream true)) (inl (demo_stream true));
   SendPacket demo_rand (String (byte 21) ""); SendPacket demo_rand "secret";
   KeyChange (inr demo_gcm) (inr demo_gcm); SendPacket demo_rand "still stream";
   SendPacket demo_rand (String (byte 21) ""); SendPacket demo_rand "under gcm"].
Definition demo_end : connectionState anyCipher := mkConn (inl demo_plain) 4294967295 None.

Lemma transport_roundtrip_witness :
  exists sw' out sr', run_writer demo_talk demo_end = Some (sw', out) /\
    run_reader demo_talk (out +:+ "more") demo_end =
      Some (sr', "more", ["hello"; String (byte 21) ""; "secret"; "still stream"; String (byte 21) ""; "under gcm"]).
Proof.
  destruct (run_writer demo_talk demo_end) as [[sw' out]|] eqn:E; [|vm_compute in E; discriminate].
  destruct (transport_roundtrip demo_talk demo_end demo_end sw' out "more") as (sr' & Hr & _); [| |exact E|].
  - split_and!; [|done|done]. split; [done|]. intros m Hm. discriminate.
  - repeat (apply Forall_cons; split); [..|by apply Forall_nil].
    all: try (by (split; [vm_compute; split; congruence|vm_compute; discriminate])).
    + split; [done|]. apply demo_mac_wf.
    + split; [done|]. apply demo_aead_ok.
  - exists sw', out, sr'. split; [done|exact Hr].
Defined.

Lemma version_roundtrip_witness :
  readVersion ((exchangeVersions "SSH-2.0-Go" "" None).1.1 +:+ "rest") = ("rest", Ok "SSH-2.0-Go").
Proof. apply version_roundtrip; [vm_compute; congruence|vm_compute; discriminate]. Defined.
