(* ===== verification/Cbc.v ===== *)
(** The CBC ciphers of the packet layer
    (xendor/github.com/glycerine/xcryptossh/cipher.go: [cbcCipher]), as an instance
    of the interface of [Transport]. The block cipher is a parameter; the chaining
    of blocks, which is Go's crypto/cipher, is written out. *)
From S2P Require Import Prelude.
From S2P Require Import GoStrings.
From S2P Require Import Wire.
From S2P Require Import Transport.

Definition cbcMinPacketSizeMultiple : Z := 8.
Definition cbcMinPacketSize : Z := 16.
Definition cbcMinPaddingSize : Z := 4.

(** A cipher.Block. *)
Record blockCipher := mkBlock { BlockSize : Z; Encrypt : string -> string; Decrypt : string -> string }.

(** The cipher of one direction: the last block of what was encrypted, and of what
    was decrypted, is the next initialization vector. *)
Record cbcCipher := mkCBC {
  cbc_mac : option macAlg;
  block : blockCipher;
  enc_iv : string;
  dec_iv : string;
  oracleCamouflage : Z;
}.

Definition set_enc_iv (v : string) (c : cbcCipher) : cbcCipher := mkCBC (cbc_mac c) (block c) v (dec_iv c) (oracleCamouflage c).
Definition set_dec_iv (v : string) (c : cbcCipher) : cbcCipher := mkCBC (cbc_mac c) (block c) (enc_iv c) v (oracleCamouflage c).
Definition set_oracle (n : Z) (c : cbcCipher) : cbcCipher := mkCBC (cbc_mac c) (block c) (enc_iv c) (dec_iv c) n.

Definition macSize (c : cbcCipher) : Z := match cbc_mac c with Some m => Size m | None => 0 end.

Fixpoint xor_string (a b : string) : string :=
  match a, b with
  | String x a, String y b => String (xor_byte x y) (xor_string a b)
  | _, _ => ""
  end.

(** CryptBlocks on [n] blocks: the result, and the next vector. *)
Fixpoint cbc_encrypt (b : blockCipher) (n : nat) (iv s : string) : string * string :=
  match n with
  | O => ("", iv)
  | S n =>
      let x := Encrypt b (xor_string (stake (Z.to_nat (BlockSize b)) s) iv) in
      let '(out, iv) := cbc_encrypt b n x (sdrop (Z.to_nat (BlockSize b)) s) in
      (x +:+ out, iv)
  end.
Fixpoint cbc_decrypt (b : blockCipher) (n : nat) (iv s : string) : string * string :=
  match n with
  | O => ("", iv)
  | S n =>
      let x := stake (Z.to_nat (BlockSize b)) s in
      let '(out, iv') := cbc_decrypt b n x (sdrop (Z.to_nat (BlockSize b)) s) in
      (xor_string (Decrypt b x) iv +:+ out, iv')
  end.

Definition not_full : string := "crypto/cipher: input not full blocks".
Definition blocks (b : blockCipher) (s : string) : outcome nat :=
  if slen s mod BlockSize b =? 0 then Ok (Z.to_nat (slen s / BlockSize b)) else Panic not_full.
Definition encrypt_blocks (s : string) (c : cbcCipher) : outcome (string * cbcCipher) :=
  let? n := blocks (block c) s in
  let '(out, iv) := cbc_encrypt (block c) n (enc_iv c) s in Ok (out, set_enc_iv iv c).
Definition decrypt_blocks (s : string) (c : cbcCipher) : outcome (string * cbcCipher) :=
  let? n := blocks (block c) s in
  let '(out, iv) := cbc_decrypt (block c) n (dec_iv c) s in Ok (out, set_dec_iv iv c).

Definition maxUInt32 (a b : Z) : Z := to_uint32 (if b <? a then a else b).

(** [firstBlockLength]: as many blocks as hold the header. *)
Definition first_block (c : cbcCipher) : Z := (prefixLen + BlockSize (block c) - 1) / BlockSize (block c) * BlockSize (block c).

(** The length that a header claims is looked at before anything else is read. *)
Definition header_error (length : Z) (c : cbcCipher) (firstBlock : string) : option string :=
  if maxPacket <? length then Some "ssh: packet too large"
  else if to_uint32 (length + 4) <? maxUInt32 cbcMinPacketSize (BlockSize (block c)) then Some "ssh: packet too small"
  else if negb (to_uint32 (length + 4) mod maxUInt32 cbcMinPacketSizeMultiple (BlockSize (block c)) =? 0)
  then Some "ssh: invalid packet length multiple"
  else
    let paddingLength := byte_at 4 firstBlock in
    if (paddingLength <? cbcMinPaddingSize) || (length <=? paddingLength + 1) then Some "ssh: invalid packet length"
    else None.

(** What is returned, and whether an error is a [cbcError]. *)
Definition leaky : Type := cbcCipher * string * outcome string * bool.

(** The packet after its header: the rest of the blocks, the tag. *)
Definition cbc_body (seqNum length : Z) (firstBlock r : string) (c : cbcCipher) : leaky :=
  let macStart := 4 + length in
  let entirePacketSize := macStart + macSize c in
  match read_full (Z.to_nat (entirePacketSize - first_block c)) r with
  | (r, Ok rest) =>
      let c := set_oracle (oracleCamouflage c - slen rest) c in
      let crypted := stake (Z.to_nat (macStart - first_block c)) rest in
      let tag := sdrop (Z.to_nat (macStart - first_block c)) rest in
      match decrypt_blocks crypted c with
      | Ok (plain, c) =>
          let packetData := firstBlock +:+ plain in
          if match cbc_mac c with
             | Some m => negb (Sum m (be_bytes 4 seqNum +:+ packetData) =? tag)%string
             | None => false end
          then (c, r, Err "ssh: MAC failure", true)
          else
            let paddingStart := macStart - byte_at 4 firstBlock in
            (c, r, Ok (sdrop (Z.to_nat prefixLen) (stake (Z.to_nat paddingStart) packetData)), false)
      | Err e => (c, r, Err e, false)
      | Panic s => (c, r, Panic s, false)
      | Blocked => (c, r, Blocked, false)
      end
  | (r, e) => (c, r, e, false)
  end.

Definition readPacketLeaky (seqNum : Z) (r : string) (c : cbcCipher) : leaky :=
  match read_full (Z.to_nat (first_block c)) r with
  | (r, Ok firstBlock) =>
      let c := set_oracle (maxPacket + 4 + macSize c - first_block c) c in
      match decrypt_blocks firstBlock c with
      | Ok (firstBlock, c) =>
          let length := be (stake 4 firstBlock) in
          match header_error length c firstBlock with
          | Some e => (c, r, Err e, true)
          | None => cbc_body seqNum length firstBlock r c
          end
      | Err e => (c, r, Err e, false)
      | Panic s => (c, r, Panic s, false)
      | Blocked => (c, r, Blocked, false)
      end
  | (r, e) => (c, r, e, false)
  end.

(** [cbcCipher.readPacket]: after a verification error a fixed amount is read. *)
Definition cbc_read (seqNum : Z) (r : string) (c : cbcCipher) : cbcCipher * string * outcome string :=
  let '(c, r, res, verification) := readPacketLeaky seqNum r c in
  (c, if verification then sdrop (Z.to_nat (oracleCamouflage c)) r else r, res).

(** The encrypted part of a packet of [n] bytes: header, payload, padding. *)
Definition cbc_encLength (bs n : Z) : Z :=
  let effectiveBlockSize := maxUInt32 cbcMinPacketSizeMultiple bs in
  let encLength := maxUInt32 (prefixLen + n + cbcMinPaddingSize) cbcMinPaddingSize in
  to_uint32 (to_uint32 (encLength + effectiveBlockSize - 1) / effectiveBlockSize * effectiveBlockSize).

(** [cbcCipher.writePacket]. *)
Definition cbc_write (seqNum : Z) (rand packet : string) (c : cbcCipher) : cbcCipher * outcome string :=
  let encLength := cbc_encLength (BlockSize (block c)) (slen packet) in
  let length := encLength - 4 in
  let paddingLength := length - (1 + slen packet) in
  if paddingLength <? 0 then (c, Panic "slice bounds out of range")
  else
    match read_full (Z.to_nat paddingLength) rand with
    | (_, Ok padding) =>
        let packetData := be_bytes 4 length +:+ String (byte paddingLength) (packet +:+ padding) in
        let tag := match cbc_mac c with Some m => Sum m (be_bytes 4 seqNum +:+ packetData) | None => "" end in
        match encrypt_blocks packetData c with
        | Ok (out, c) => (c, Ok (out +:+ tag))
        | Err e => (c, Err e)
        | Panic s => (c, Panic s)
        | Blocked => (c, Blocked)
        end
    | (_, Err e) => (c, Err e)
    | (_, Panic s) => (c, Panic s)
    | (_, Blocked) => (c, Blocked)
    end.

#[export] Instance cbc_cipher : PacketCipher cbcCipher := { writePacket := cbc_write; readPacket := cbc_read }.

(** ** Chaining undone *)

(** What is relied on of cipher.Block, with the block sizes of AES and DES. *)
Definition block_ok (b : blockCipher) : Prop :=
  (BlockSize b = 8 \/ BlockSize b = 16) /\
  forall s, slen s = BlockSize b -> slen (Encrypt b s) = BlockSize b /\ Decrypt b (Encrypt b s) = s.

Lemma sdrop_length n s : String.length (sdrop n s) = (String.length s - n)%nat.
Proof. pose proof (sdrop_slen n s) as H. unfold slen in H. lia. Qed.

Lemma xor_string_length a b : String.length (xor_string a b) = Nat.min (String.length a) (String.length b).
Proof. revert b. induction a as [|x a IH]; intros [|y b]; simpl; [done..|]. by rewrite IH. Qed.
Lemma xor_string_twice a b : String.length a = String.length b -> xor_string (xor_string a b) b = a.
Proof.
  revert b. induction a as [|x a IH]; intros [|y b] H; simpl in *; try done. rewrite xor_byte_twice, IH by lia. done.
Qed.

Section chain.
Context (b : blockCipher) (Hb : block_ok b).
Local Abbreviation bs := (Z.to_nat (BlockSize b)).

Lemma bs_pos : (0 < bs)%nat.
Proof. destruct Hb as [[-> | ->] _]; simpl; lia. Qed.

Lemma cbc_roundtrip n iv s :
  String.length s = (n * bs)%nat -> String.length iv = bs ->
  let '(out, iv') := cbc_encrypt b n iv s in
  cbc_decrypt b n iv out = (s, iv') /\ String.length out = String.length s /\ String.length iv' = bs.
Proof.
  revert iv s. induction n as [|n IH]; intros iv s Hs Hiv; cbn [cbc_encrypt].
  - destruct s; [|done]. by split_and!.
  - set (p := stake bs s). set (x := Encrypt b (xor_string p iv)).
    assert (String.length p = bs) as Hp by (unfold p; rewrite stake_length; lia).
    destruct Hb as [Hbs HE]. destruct (HE (xor_string p iv)) as [Hx HD]; [unfold slen; rewrite xor_string_length, Hp, Hiv; lia|].
    fold x in Hx, HD. assert (String.length x = bs) as Hxl by (unfold slen in Hx; lia).
    specialize (IH x (sdrop bs s)). destruct (cbc_encrypt b n x (sdrop bs s)) as [out iv'].
    destruct IH as (Hd & Hl & Hiv'); [rewrite sdrop_length, Hs; lia|done|]. cbn [cbc_decrypt].
    rewrite (stake_app_len bs x out Hxl), (sdrop_app_len bs x out Hxl), Hd, HD, xor_string_twice by congruence.
    unfold p. rewrite stake_sdrop. split_and!; [done| |done]. rewrite string_app_length, Hl, Hxl, sdrop_length, Hs. lia.
Qed.

Lemma cbc_first m iv s out iv' :
  String.length s = (S m * bs)%nat -> String.length iv = bs -> cbc_encrypt b (S m) iv s = (out, iv') ->
  cbc_decrypt b 1 iv (stake bs out) = (stake bs s, stake bs out).
Proof.
  intros Hs Hiv. cbn [cbc_encrypt]. set (p := stake bs s). set (x := Encrypt b (xor_string p iv)).
  assert (String.length p = bs) as Hp by (unfold p; rewrite stake_length; lia).
  destruct Hb as [Hbs HE]. destruct (HE (xor_string p iv)) as [Hx HD]; [unfold slen; rewrite xor_string_length, Hp, Hiv; lia|].
  fold x in Hx, HD. assert (String.length x = bs) as Hxl by (unfold slen in Hx; lia).
  destruct (cbc_encrypt b m x (sdrop bs s)) as [o iv1]. intros [= <- <-]. rewrite (stake_app_len bs x o Hxl). cbn [cbc_decrypt].
  rewrite <- (string_app_nil_r x) at 1. rewrite (stake_app_len bs x "" Hxl), HD, xor_string_twice, string_app_nil_r by congruence.
  f_equal. rewrite <- (string_app_nil_r x) at 1. by rewrite (stake_app_len bs x "" Hxl).
Qed.

(** Decrypting in two goes, as the reader does. *)
Lemma cbc_decrypt_app n1 n2 iv s1 s2 :
  String.length s1 = (n1 * bs)%nat ->
  cbc_decrypt b (n1 + n2) iv (s1 +:+ s2) =
  let '(p1, iv1) := cbc_decrypt b n1 iv s1 in let '(p2, iv2) := cbc_decrypt b n2 iv1 s2 in (p1 +:+ p2, iv2).
Proof.
  revert iv s1. induction n1 as [|n1 IH]; intros iv s1 Hs; cbn [cbc_decrypt Nat.add].
  - destruct s1; [|done]. cbn. by destruct (cbc_decrypt b n2 iv s2).
  - assert (stake bs (s1 +:+ s2) = stake bs s1 /\ sdrop bs (s1 +:+ s2) = sdrop bs s1 +:+ s2) as [-> ->].
    { assert (String.length (stake bs s1) = bs) as E by (rewrite stake_length; lia).
      assert (s1 +:+ s2 = stake bs s1 +:+ (sdrop bs s1 +:+ s2)) as -> by by rewrite <- string_app_assoc, stake_sdrop.
      split; [by apply stake_app_len|by apply sdrop_app_len]. }
    rewrite IH by (rewrite sdrop_length; lia). destruct (cbc_decrypt b n1 _ (sdrop bs s1)) as [p1 iv1].
    destruct (cbc_decrypt b n2 iv1 s2). by rewrite string_app_assoc.
Qed.
End chain.

(** ** A CBC cipher keeps the promise *)

Definition cbc_matched (cw cr : cbcCipher) : Prop :=
  cbc_mac cw = cbc_mac cr /\ block cw = block cr /\ enc_iv cw = dec_iv cr /\
  block_ok (block cw) /\ slen (enc_iv cw) = BlockSize (block cw) /\
  forall m, cbc_mac cw = Some m -> 0 <= Size m /\ forall s, slen (Sum m s) = Size m.

Lemma first_block_eq c : block_ok (block c) -> first_block c = BlockSize (block c).
Proof. intros [[H|H] _]; unfold first_block; by rewrite H. Qed.

Lemma cbc_encLength_spec bs n :
  bs = 8 \/ bs = 16 -> 0 <= n <= maxPacket ->
  exists k, cbc_encLength bs n = k * bs /\ n + 9 <= k * bs <= n + 9 + bs - 1 /\ 16 <= k * bs.
Proof.
  intros Hbs Hn. unfold cbc_encLength, maxUInt32, prefixLen, cbcMinPaddingSize, cbcMinPacketSizeMultiple, maxPacket in *.
  rewrite (proj2 (Z.ltb_lt 4 (5 + n + 4))) by lia. rewrite (to_uint32_id (5 + n + 4)) by (unfold in_uint32; lia).
  assert (to_uint32 (if bs <? 8 then 8 else bs) = bs) as -> by by destruct Hbs as [-> | ->].
  rewrite (to_uint32_id (5 + n + 4 + bs - 1)) by (unfold in_uint32; lia).
  pose proof (Z.div_mod (5 + n + 4 + bs - 1) bs ltac:(lia)) as E. pose proof (Z.mod_pos_bound (5 + n + 4 + bs - 1) bs ltac:(lia)).
  set (q := (5 + n + 4 + bs - 1) / bs) in *. exists q. rewrite to_uint32_id by (unfold in_uint32; lia).
  split; [done|]. split; [lia|]. destruct Hbs as [-> | ->]; lia.
Qed.

Lemma blocks_full b k s : block_ok b -> slen s = k * BlockSize b -> blocks b s = Ok (Z.to_nat k).
Proof.
  intros [Hb _] Hs. unfold blocks. rewrite Hs, Z.mod_mul, Z.div_mul by lia. done.
Qed.

(** A written packet: the blocks of its header and body, the tag. *)
Lemma cbc_write_eq seq rand p cw cw' out :
  block_ok (block cw) -> 0 <= slen p <= maxPacket -> cbc_write seq rand p cw = (cw', Ok out) ->
  exists k pl padding data crypted iv,
    data = be_bytes 4 (k * BlockSize (block cw) - 4) +:+ String (byte pl) (p +:+ padding) /\
    slen data = k * BlockSize (block cw) /\ slen padding = pl /\ 4 <= pl <= 19 /\ 16 <= k * BlockSize (block cw) /\
    cbc_encrypt (block cw) (Z.to_nat k) (enc_iv cw) data = (crypted, iv) /\ cw' = set_enc_iv iv cw /\
    out = crypted +:+ match cbc_mac cw with Some m => Sum m (be_bytes 4 seq +:+ data) | None => "" end.
Proof.
  intros Hb Hp Hw. unfold cbc_write in Hw. destruct (cbc_encLength_spec (BlockSize (block cw)) (slen p) (proj1 Hb) Hp) as (k & He & Hk1 & Hk2).
  rewrite He in Hw. set (pl := k * BlockSize (block cw) - 4 - (1 + slen p)) in *.
  assert (4 <= pl <= 19) as Hpl by (destruct Hb as [[E|E] _]; rewrite E in *; lia).
  destruct (pl <? 0) eqn:E; [z_prop; lia|].
  destruct (read_full _ rand) as [r' [padding| | |]] eqn:Er; [|done..]. apply read_full_ok in Er as [_ Hpad].
  set (data := be_bytes 4 _ +:+ _) in *. assert (slen data = k * BlockSize (block cw)) as Hd.
  { unfold data. rewrite slen_app, slen_be_bytes, slen_String, slen_app. unfold slen at 2. unfold pl in *. lia. }
  unfold encrypt_blocks in Hw. rewrite (blocks_full _ k) in Hw by done. cbn [obind] in Hw.
  destruct (cbc_encrypt _ _ _ data) as [crypted iv] eqn:Ee. injection Hw as <- <-.
  exists k, pl, padding, data, crypted, iv. split_and!; try done; try lia. unfold slen. lia.
Qed.

Lemma stake_slen_Z k s : 0 <= k <= slen s -> String.length (stake (Z.to_nat k) s) = Z.to_nat k.
Proof. intros H. rewrite stake_length. unfold slen in H. lia. Qed.

Lemma stake_app_le n a b : (n <= String.length a)%nat -> stake n (a +:+ b) = stake n a.
Proof.
  intros H. rewrite <- (stake_sdrop n a) at 1. rewrite string_app_assoc.
  assert (String.length (stake n a) = n) as E by (rewrite stake_length; lia). by apply stake_app_len.
Qed.
Lemma sdrop_app_le n a b : (n <= String.length a)%nat -> sdrop n (a +:+ b) = sdrop n a +:+ b.
Proof.
  intros H. rewrite <- (stake_sdrop n a) at 1. rewrite string_app_assoc.
  assert (String.length (stake n a) = n) as E by (rewrite stake_length; lia). by apply sdrop_app_len.
Qed.

Lemma stake_app_ge j a b : stake (String.length a + j) (a +:+ b) = a +:+ stake j b.
Proof. induction a as [|c a IH]; [done|]. cbn. by rewrite IH. Qed.

Lemma header_ok bs k pl n c firstBlock :
  BlockSize (block c) = bs -> bs = 8 \/ bs = 16 -> byte_at 4 firstBlock = pl -> 4 <= pl -> 0 < n -> 16 <= k * bs ->
  k * bs - 4 = n + 1 + pl -> k * bs - 4 <= maxPacket -> header_error (k * bs - 4) c firstBlock = None.
Proof.
  intros Hc Hbs Hp Hpl Hn Hk Hl Hm. unfold header_error. rewrite Hc, Hp.
  destruct (maxPacket <? _) eqn:E1; [z_prop; lia|]. unfold maxPacket in *.
  replace (k * bs - 4 + 4) with (k * bs) by lia. rewrite to_uint32_id by (unfold in_uint32; lia).
  unfold maxUInt32, cbcMinPacketSize, cbcMinPacketSizeMultiple, cbcMinPaddingSize.
  assert (to_uint32 (if bs <? 16 then 16 else bs) = 16) as -> by by destruct Hbs as [-> | ->].
  assert (to_uint32 (if bs <? 8 then 8 else bs) = bs) as -> by by destruct Hbs as [-> | ->].
  destruct (_ <? 16) eqn:E2; [z_prop; lia|]. rewrite Z.mod_mul by lia.
  cbn [Z.eqb negb]. destruct (pl <? 4) eqn:E3; [z_prop; lia|]. destruct (_ <=? pl + 1) eqn:E4; [z_prop; lia|]. done.
Qed.

Lemma cbc_write_read seq rand p cw cr cw' out rest :
  cbc_matched cw cr -> packet_ok p -> cbc_write seq rand p cw = (cw', Ok out) ->
  exists cr', cbc_read seq (out +:+ rest) cr = (cr', rest, Ok p) /\ cbc_matched cw' cr'.
Proof.
  intros (Hmac & Hblk & Hiv & Hb & Hivl & Hwf) [Hp0 Hp] Hw.
  apply cbc_write_eq in Hw as (k & pl & padding & data & crypted & iv' & Hdata & Hlen & Hpad & Hpl & Hk & Henc & -> & ->); [|done|unfold maxPacket in *; lia].
  pose proof Hb as [Hbs _]. set (bs := BlockSize (block cw)) in *.
  assert (exists m, Z.to_nat k = S m) as [m Hm] by (exists (Z.to_nat (k - 1)); lia).
  pose proof (cbc_roundtrip (block cw) Hb (Z.to_nat k) (enc_iv cw) data) as HR. rewrite Henc in HR. fold bs in HR.
  destruct HR as (Hdec & Hcl & Hivl'); [unfold slen in Hlen; lia|unfold slen in Hivl; lia|].
  set (nb := Z.to_nat bs) in *. assert (0 < nb)%nat as Hnb by lia.
  assert (nb <= String.length crypted)%nat as Hnc by (rewrite Hcl; unfold slen in Hlen; lia).
  set (o1 := stake nb crypted). set (o2 := sdrop nb crypted).
  assert (String.length o1 = nb) as Ho1 by (unfold o1; rewrite stake_length; lia).
  assert (crypted = o1 +:+ o2) as Ec by by unfold o1, o2; rewrite stake_sdrop.
  pose proof (cbc_first (block cw) Hb m (enc_iv cw) data crypted iv') as HF. fold bs nb in HF. rewrite <- Hm in HF.
  specialize (HF ltac:(unfold slen in Hlen; lia) ltac:(unfold slen in Hivl; lia) Henc). fold o1 in HF. set (d1 := stake nb data) in *.
  rewrite Hm in Hdec. change (S m) with (1 + m)%nat in Hdec. rewrite Ec, cbc_decrypt_app, HF in Hdec by (fold bs nb; lia).
  destruct (cbc_decrypt (block cw) m o1 o2) as [d2 iv2] eqn:E2. injection Hdec as Hd ->.
  set (L := k * bs - 4) in *.
  assert (exists t, d1 = be_bytes 4 L +:+ String (byte pl) t) as [t Hd1].
  { unfold d1. rewrite Hdata. replace nb with (String.length (be_bytes 4 L) + S (nb - 5))%nat by (rewrite be_bytes_length; lia).
    rewrite stake_app_ge. by eexists. }
  assert (String.length d1 = nb) as Hd1l by (unfold d1; rewrite stake_length; unfold slen in Hlen; lia).
  assert (slen crypted = k * bs) as Hcz by (unfold slen in *; lia).
  assert (L = slen p + 1 + pl) as HL.
  { rewrite Hdata, slen_app, slen_be_bytes, slen_String, slen_app, Hpad in Hlen. unfold L. lia. }
  assert (0 <= L < 2 ^ 32) as HLr by (unfold maxPacket in *; lia).
  set (tag := match cbc_mac cw with Some m => Sum m (be_bytes 4 seq +:+ data) | None => "" end).
  assert (slen tag = macSize cr) as Htag.
  { unfold tag, macSize. rewrite <- Hmac. destruct (cbc_mac cw) as [mm|]; [by apply Hwf|done]. }
  assert (first_block cr = bs) as Hfb by (rewrite first_block_eq; by rewrite <- Hblk).
  assert (0 <= macSize cr) as Hms by (rewrite <- Htag; apply slen_nonneg).
  unfold cbc_read, readPacketLeaky. rewrite Hfb, Ec. fold nb.
  rewrite !string_app_assoc, read_full_app by done.
  set (c1 := set_oracle _ cr). unfold decrypt_blocks at 1. change (block c1) with (block cr). rewrite <- Hblk, (blocks_full _ 1) by (done || (fold bs; unfold slen; lia)).
  cbn [obind]. change (dec_iv c1) with (dec_iv cr). rewrite <- Hiv. change (Z.to_nat 1) with 1%nat. rewrite HF.
  assert (be (stake 4 d1) = L) as ->.
  { rewrite Hd1, stake_app_len by apply be_bytes_length. by apply be_be_bytes. }
  set (c2 := set_dec_iv o1 c1).
  assert (byte_at 4 d1 = pl) as Hb4 by (rewrite Hd1, byte_at_4 by apply be_bytes_length; rewrite val_byte, Z.mod_small; lia).
  unfold L. rewrite (header_ok bs k pl (slen p)); try done; try lia; [|by change (block c2) with (block cr); rewrite <- Hblk].
  fold L. unfold cbc_body. change (first_block c2) with (first_block cr). change (macSize c2) with (macSize cr). rewrite Hfb.
  assert (slen o2 = 4 + L - bs) as Ho2 by (rewrite Ec, slen_app in Hcz; unfold slen in *; unfold L; lia).
  rewrite <- string_app_assoc. rewrite read_full_app by (rewrite string_app_length; unfold slen in *; lia).
  set (c3 := set_oracle _ c2). change (first_block c3) with (first_block cr). rewrite Hfb. rewrite (stake_app_len _ o2), (sdrop_app_len _ o2) by (unfold slen in Ho2; lia).
  unfold decrypt_blocks. change (block c3) with (block cr). rewrite <- Hblk, (blocks_full _ (k - 1)) by (done || (fold bs; unfold L in Ho2; lia)).
  cbn [obind]. change (dec_iv c3) with o1. replace (Z.to_nat (k - 1)) with m by lia. rewrite E2. change (cbc_mac (set_dec_iv iv' c3)) with (cbc_mac cr).
  rewrite Hd, <- Hmac. assert (match cbc_mac cw with Some m0 => negb (Sum m0 (be_bytes 4 seq +:+ data) =? tag)%string | None => false end = false) as ->.
  { unfold tag. destruct (cbc_mac cw); [|done]. by rewrite String.eqb_refl. }
  rewrite Hb4. exists (set_dec_iv iv' c3). split.
  - do 2 f_equal. rewrite Hdata. change (String (byte pl) (p +:+ padding)) with (String (byte pl) "" +:+ (p +:+ padding)).
    rewrite <- !string_app_assoc. rewrite stake_app_len by (rewrite !string_app_length, be_bytes_length; cbn; unfold slen in *; lia).
    by apply sdrop_app_len.
  - split_and!; try done. cbn. unfold slen in *. fold bs. lia.
Qed.

Lemma cbc_write_total seq rand p cw cr :
  cbc_matched cw cr -> packet_ok p -> 32 <= slen rand -> exists cw' out, cbc_write seq rand p cw = (cw', Ok out).
Proof.
  intros (_ & _ & _ & Hb & _ & _) [Hp0 Hp] Hr. unfold cbc_write.
  destruct (cbc_encLength_spec (BlockSize (block cw)) (slen p) (proj1 Hb)) as (k & He & Hk1 & Hk2); [unfold maxPacket in *; lia|].
  rewrite He. set (pl := k * BlockSize (block cw) - 4 - (1 + slen p)) in *.
  assert (4 <= pl <= 19) as Hpl by (destruct Hb as [[E|E] _]; rewrite E in *; lia).
  destruct (pl <? 0) eqn:E; [z_prop; lia|].
  destruct (read_full_enough (Z.to_nat pl) rand) as (r' & pad & Er); [unfold slen in Hr; lia|]. rewrite Er.
  apply read_full_ok in Er as [_ Hpad]. unfold encrypt_blocks. rewrite (blocks_full _ k).
  - cbn [obind]. destruct (cbc_encrypt _ _ _ _). by eexists _, _.
  - done.
  - rewrite slen_app, slen_be_bytes, slen_String, slen_app. unfold slen at 2. unfold pl in *. lia.
Qed.

#[export, refine] Instance cbc_cipher_laws : PacketCipherLaws cbcCipher := { matched := cbc_matched }.
Proof.
  - intros seq rand p cw cr cw' out rest Hm Hp Hw. by apply (cbc_write_read seq rand p cw).
  - intros. by eapply cbc_write_total.
Defined.

Lemma Zmod_0_l a : 0 mod a = 0.
Proof. by destruct a. Qed.
Lemma Zdiv_0_l a : 0 / a = 0.
Proof. by destruct a. Qed.
Lemma header_error_empty l c : header_error l c "" <> None.
Proof. unfold header_error. cbn [byte_at String.get]. change (0 <? cbcMinPaddingSize) with true. by repeat case_match. Qed.

#[export] Instance cbc_cipher_reads : PacketCipherReads cbcCipher.
Proof.
  intros seq r c c' r' p H. simpl in H. unfold cbc_read in H.
  destruct (readPacketLeaky seq r c) as [[[c1 r1] res] v] eqn:E. injection H as _ Hr ->.
  unfold readPacketLeaky in E. destruct (read_full _ r) as [r2 [fb| | |]] eqn:E1; [|done..].
  apply read_full_ok in E1 as [-> _]. unfold decrypt_blocks in E at 1. destruct (blocks _ fb) as [n| | |] eqn:En; [|done..].
  cbn [obind] in E. destruct (cbc_decrypt _ n _ fb) as [d iv] eqn:Ed. destruct (header_error _ _ d) eqn:Eh; [done|].
  assert (0 < slen fb) as Hfb.
  { destruct fb; [|unfold slen; simpl; lia]. unfold blocks in En. change (slen "") with 0 in En. rewrite Zmod_0_l, Zdiv_0_l in En.
    injection En as <-. injection Ed as <- _. by apply header_error_empty in Eh. }
  unfold cbc_body in E. destruct (read_full _ r2) as [r3 [rest| | |]] eqn:E2; [|done..]. apply read_full_ok in E2 as [-> _].
  rewrite !slen_app. pose proof (slen_nonneg rest).
  destruct (decrypt_blocks _ _) as [[pl c3]| | |]; [|done..]. destruct (match cbc_mac c3 with Some _ => _ | None => false end); [done|].
  injection E as _ <- _ <-. subst r'. lia.
Qed.

(** ** What a CBC cipher accepts *)

Lemma cbc_decrypt_length b n iv s :
  (forall x, slen x = BlockSize b -> slen (Decrypt b x) = BlockSize b) -> 0 < BlockSize b ->
  String.length s = (n * Z.to_nat (BlockSize b))%nat -> slen iv = BlockSize b ->
  slen (cbc_decrypt b n iv s).1 = slen s /\ slen (cbc_decrypt b n iv s).2 = BlockSize b.
Proof.
  intros HD H0. revert iv s. induction n as [|n IH]; intros iv s Hs Hiv; cbn [cbc_decrypt]; [by destruct s|].
  set (bs := Z.to_nat (BlockSize b)) in *. set (x := stake bs s).
  assert (slen x = BlockSize b) as Hx by (unfold x, slen; rewrite stake_length; lia).
  destruct (IH x (sdrop bs s)) as [H1 H2]; [rewrite sdrop_length; lia|done|].
  destruct (cbc_decrypt b n x (sdrop bs s)) as [out iv']. cbn [fst snd] in *. split; [|done].
  rewrite slen_app, H1. unfold slen at 1. rewrite xor_string_length. specialize (HD x Hx). unfold slen in *. rewrite sdrop_length. lia.
Qed.

Lemma byte_at_app n a b : (n < String.length a)%nat -> byte_at n (a +:+ b) = byte_at n a.
Proof.
  unfold byte_at. intros H. assert (String.get n (a +:+ b) = String.get n a) as ->; [|done].
  revert n H. induction a as [|c a IH]; intros [|n] H; simpl in *; try lia; [done|]. apply IH. lia.
Qed.

Lemma read_full_never n r s : (read_full n r).2 <> Panic s /\ (read_full n r).2 <> Blocked.
Proof. unfold read_full. by cases. Qed.

(** What a header that is not refused says. *)
Lemma header_facts L c d (bs := BlockSize (block c)) :
  (bs = 8 \/ bs = 16) -> 0 <= L -> header_error L c d = None ->
  L <= maxPacket /\ (exists q, L + 4 = q * bs /\ 1 <= q) /\ 4 <= byte_at 4 d /\ byte_at 4 d + 1 < L.
Proof.
  intros Hbs HL0. unfold header_error. fold bs.
  destruct (Z.ltb_spec maxPacket L) as [?|F1]; [done|]. pose proof F1 as F1'. unfold maxPacket in F1'.
  assert (maxUInt32 cbcMinPacketSizeMultiple bs = bs) as -> by (destruct Hbs as [-> | ->]; reflexivity).
  assert (maxUInt32 cbcMinPacketSize bs = 16) as -> by (destruct Hbs as [-> | ->]; reflexivity).
  rewrite !to_uint32_id by (unfold in_uint32; lia).
  destruct (Z.ltb_spec (L + 4) 16); [done|]. destruct (negb _) eqn:F3; [done|]. apply negb_false_iff in F3. z_prop.
  destruct (_ || _) eqn:F4; [done|]. apply orb_false_iff in F4 as [F4 F5]. z_prop. unfold cbcMinPaddingSize in F4. intros _.
  split_and!; try lia. exists ((L + 4) / bs). pose proof (Z.div_mod (L + 4) bs ltac:(lia)). split; [lia|].
  apply Z.div_le_lower_bound; lia.
Qed.

(** Whatever arrives, a CBC cipher never panics, and it accepts a packet only
    if the blocks it decrypted are as many as their header says, are followed by
    the MAC of the sequence number and of all of the decrypted bytes, padding
    included, and end in the padding that the header announces; the packet is
    what lies between, and it is not empty. *)
Theorem cbc_accepts_authentic seq r c c' r' res :
  (BlockSize (block c) = 8 \/ BlockSize (block c) = 16) ->
  (forall x, slen x = BlockSize (block c) -> slen (Decrypt (block c) x) = BlockSize (block c)) ->
  slen (dec_iv c) = BlockSize (block c) -> (forall m, cbc_mac c = Some m -> 0 <= Size m) ->
  cbc_read seq r c = (c', r', res) ->
  (forall s, res <> Panic s) /\ res <> Blocked /\
  forall p, res = Ok p ->
    exists n crypted tag data,
      r = crypted +:+ tag +:+ r' /\ cbc_decrypt (block c) n (dec_iv c) crypted = (data, dec_iv c') /\
      slen data = Z.of_nat n * BlockSize (block c) /\ slen data = 4 + be (stake 4 data) /\
      (forall m, cbc_mac c = Some m -> tag = Sum m (be_bytes 4 seq +:+ data)) /\ slen tag = macSize c /\
      4 <= byte_at 4 data /\ p = sdrop 5 (stake (Z.to_nat (slen data - byte_at 4 data)) data) /\ 0 < slen p < maxPacket.
Proof.
  intros Hbs HD Hiv Hmac. unfold cbc_read. destruct (readPacketLeaky seq r c) as [[[c1 r1] res1] v] eqn:E. intros [= <- Hr <-].
  set (bs := BlockSize (block c)) in *. assert (first_block c = bs) as Hfb by (unfold first_block; fold bs; by destruct Hbs as [-> | ->]).
  unfold readPacketLeaky in E. rewrite Hfb in E.
  pose proof (read_full_never (Z.to_nat bs) r) as HN. destruct (read_full _ r) as [r2 [fb| | |]] eqn:E1; cbn [snd] in HN;
    [clear HN|injection E as <- <- <- <-; split_and!; naive_solver..].
  apply read_full_ok in E1 as [-> Hfbl].
  set (c2 := set_oracle _ c) in E. unfold decrypt_blocks in E at 1. change (block c2) with (block c) in E.
  assert (blocks (block c) fb = Ok 1%nat) as Eb by (unfold blocks, slen; rewrite Hfbl; fold bs; by destruct Hbs as [-> | ->]).
  rewrite Eb in E. cbn [obind] in E. change (dec_iv c2) with (dec_iv c) in E.
  pose proof (cbc_decrypt_length (block c) 1 (dec_iv c) fb HD ltac:(fold bs; lia) ltac:(fold bs; lia) Hiv) as [Hd1 Hi1].
  destruct (cbc_decrypt (block c) 1 (dec_iv c) fb) as [d1 iv1] eqn:Ed1. cbn [fst snd] in Hd1, Hi1.
  set (c3 := set_dec_iv iv1 c2) in E. set (L := be (stake 4 d1)) in *.
  destruct (header_error L c3 d1) as [e|] eqn:Eh; [injection E as <- <- <- <-; split_and!; naive_solver|].
  assert (0 <= L) as HL0 by apply be_range.
  destruct (header_facts L c3 d1 Hbs HL0 Eh) as (HLm & (q & Hq & Hq1) & Hp4 & HpL).
  change (block c3) with (block c) in Hq. fold bs in Hq.
  assert (0 <= macSize c) as Hms by (unfold macSize; destruct (cbc_mac c) eqn:Em; [by apply Hmac|lia]).
  unfold cbc_body in E. change (first_block c3) with (first_block c) in E. change (macSize c3) with (macSize c) in E. rewrite Hfb in E.
  pose proof (read_full_never (Z.to_nat (4 + L + macSize c - bs)) r2) as HN. destruct (read_full _ r2) as [r3 [rest| | |]] eqn:E2; cbn [snd] in HN;
    [clear HN|injection E as <- <- <- <-; split_and!; naive_solver..].
  apply read_full_ok in E2 as [-> Hrest]. set (c4 := set_oracle _ c3) in E. change (first_block c4) with (first_block c) in E. rewrite Hfb in E.
  set (crypted := stake (Z.to_nat (4 + L - bs)) rest) in E. set (tag := sdrop (Z.to_nat (4 + L - bs)) rest) in E.
  assert (slen crypted = (q - 1) * bs) as Hcl by (unfold crypted, slen; rewrite stake_length; lia).
  assert (slen tag = macSize c) as Htl by (unfold tag, slen; rewrite sdrop_length; lia).
  unfold decrypt_blocks in E. change (block c4) with (block c) in E. assert (blocks (block c) crypted = Ok (Z.to_nat (q - 1))) as Eb2.
  { unfold blocks. fold bs. rewrite Hcl, Z.mod_mul, Z.div_mul by lia. done. }
  rewrite Eb2 in E. cbn [obind] in E. change (dec_iv c4) with iv1 in E.
  pose proof (cbc_decrypt_length (block c) (Z.to_nat (q - 1)) iv1 crypted HD ltac:(fold bs; lia) ltac:(fold bs; unfold slen in Hcl; lia) Hi1) as [Hd2 Hi2].
  destruct (cbc_decrypt (block c) (Z.to_nat (q - 1)) iv1 crypted) as [d2 iv2] eqn:Ed2. cbn [fst snd] in Hd2, Hi2.
  change (cbc_mac (set_dec_iv iv2 c4)) with (cbc_mac c) in E.
  destruct (match cbc_mac c with Some _ => _ | None => false end) eqn:Emac; injection E as <- <- <- <-; [split_and!; naive_solver|].
  split_and!; [done|done|]. intros p [= <-]. cbn zeta in Hr. subst r'.
  exists (1 + Z.to_nat (q - 1))%nat, (fb +:+ crypted), tag, (d1 +:+ d2).
  assert (String.length d1 = Z.to_nat bs) as Hd1l by (unfold slen in *; lia).
  assert (stake 4 (d1 +:+ d2) = stake 4 d1) as Hst by (apply stake_app_le; lia).
  assert (byte_at 4 (d1 +:+ d2) = byte_at 4 d1) as Hby by (apply byte_at_app; lia).
  assert (slen (d1 +:+ d2) = 4 + L) as Hdl by (rewrite slen_app, Hd1, Hd2, Hcl; unfold slen; lia).
  pose proof (byte_at_range 4 d1). rewrite Hst, Hby, Hdl. fold L. split_and!; try done; try lia.
  - rewrite !string_app_assoc. f_equal. unfold crypted, tag. by rewrite <- string_app_assoc, stake_sdrop.
  - rewrite cbc_decrypt_app by (fold bs; lia). by rewrite Ed1, Ed2.
  - intros m Hm. rewrite Hm in Emac. apply negb_false_iff, String.eqb_eq in Emac. done.
  - pose proof (sdrop_slen 5 (stake (Z.to_nat (4 + L - byte_at 4 d1)) (d1 +:+ d2))) as Hs. rewrite stake_slen in Hs by lia.
    cbn [sdrop] in Hs. lia.
  - pose proof (sdrop_slen 5 (stake (Z.to_nat (4 + L - byte_at 4 d1)) (d1 +:+ d2))) as Hs. rewrite stake_slen in Hs by lia.
    cbn [sdrop] in Hs. unfold maxPacket in *. lia.
Qed.

(** ** A concrete packet *)

(** A block cipher that xors with a key. *)
Definition demo_block : blockCipher :=
  mkBlock 8 (fun s => xor_string s (be_bytes 8 1234567890123)) (fun s => xor_string s (be_bytes 8 1234567890123)).
Definition demo_cbc : cbcCipher := mkCBC (Some (demo_mac false)) demo_block (be_bytes 8 77) (be_bytes 8 77) 0.
Definition demo_wire : string := match (cbc_write 9 demo_rand "hello" demo_cbc).2 with Ok out => out | _ => "" end.

Lemma cbc_accepts_authentic_witness :
  exists n crypted tag data, demo_wire +:+ "next" = crypted +:+ tag +:+ "next" /\
    slen data = Z.of_nat n * 8 /\ tag = be_bytes 4 (be (be_bytes 4 9 +:+ data)) /\
    "hello" = sdrop 5 (stake (Z.to_nat (slen data - byte_at 4 data)) data).
Proof.
  assert (forall x, slen x = 8 -> slen (Decrypt demo_block x) = 8) as HD.
  { intros x Hx. change (Decrypt demo_block x) with (xor_string x (be_bytes 8 1234567890123)). unfold slen in *. rewrite xor_string_length, be_bytes_length. lia. }
  destruct (cbc_accepts_authentic 9 (demo_wire +:+ "next") demo_cbc (cbc_read 9 (demo_wire +:+ "next") demo_cbc).1.1 "next" (Ok "hello"))
    as (_ & _ & H); [by left|exact HD|reflexivity|by intros m [= <-]|vm_compute; reflexivity|].
  destruct (H "hello" eq_refl) as (n & crypted & tag & data & H1 & _ & H3 & _ & H5 & _ & _ & H8 & _).
  exists n, crypted, tag, data. split; [exact H1|]. split; [exact H3|]. split; [exact (H5 _ eq_refl)|exact H8].
Defined.
