(* ===== verification/Kex.v ===== *)
(** The bookkeeping of key exchanges (xendor/github.com/glycerine/xcryptossh,
    handshake.go): the thresholds that call for new keys, one exchange as each
    end runs it, and the queue of packets written while keys are exchanged. The
    key agreement itself and signatures are parameters. *)
From S2P Require Import Prelude.
From S2P Require Import GoStrings.
From S2P Require Import Wire.
From S2P Require Import Negotiate.
From S2P Require Import Transport.

(** ** The transport that exchanges keys *)

(** [hostKeys] are the types of a server's host keys, [hostKeyAlgorithms] what a
    client accepts. [sentInit] is our message of the exchange under way and the
    packet it went out as; [requestKex] that the channel of that name is full;
    [mu] that the mutex is held for good. *)
Record handshakeTransport := mkTransport {
  config : Config;
  clientVersion : string;
  serverVersion : string;
  hostKeys : list string;
  hostKeyAlgorithms : list string;
  writeError : option string;
  sentInit : option (kexInit * string);
  pendingPackets : list string;
  requestKex : bool;
  agreed : option algorithms;
  readPacketsLeft : Z;
  readBytesLeft : Z;
  writePacketsLeft : Z;
  writeBytesLeft : Z;
  sessionID : option string;
  mu : bool;
}.

Definition packetRekeyThreshold : Z := 2 ^ 31.

(** The fields that operations assign. *)
Definition set_write (e : option string) (pend : list string) (t : handshakeTransport) : handshakeTransport :=
  mkTransport (config t) (clientVersion t) (serverVersion t) (hostKeys t) (hostKeyAlgorithms t) e
    (sentInit t) pend (requestKex t) (agreed t) (readPacketsLeft t) (readBytesLeft t) (writePacketsLeft
    t) (writeBytesLeft t) (sessionID t) (mu t).
Definition set_sentInit (m : option (kexInit * string)) (t : handshakeTransport) : handshakeTransport :=
  mkTransport (config t) (clientVersion t) (serverVersion t) (hostKeys t) (hostKeyAlgorithms t)
    (writeError t) m (pendingPackets t) (requestKex t) (agreed t) (readPacketsLeft t) (readBytesLeft t)
    (writePacketsLeft t) (writeBytesLeft t) (sessionID t) (mu t).
Definition set_requestKex (b : bool) (t : handshakeTransport) : handshakeTransport :=
  mkTransport (config t) (clientVersion t) (serverVersion t) (hostKeys t) (hostKeyAlgorithms t)
    (writeError t) (sentInit t) (pendingPackets t) b (agreed t) (readPacketsLeft t) (readBytesLeft t)
    (writePacketsLeft t) (writeBytesLeft t) (sessionID t) (mu t).
Definition set_agreed (a : option algorithms) (t : handshakeTransport) : handshakeTransport :=
  mkTransport (config t) (clientVersion t) (serverVersion t) (hostKeys t) (hostKeyAlgorithms t)
    (writeError t) (sentInit t) (pendingPackets t) (requestKex t) a (readPacketsLeft t) (readBytesLeft
    t) (writePacketsLeft t) (writeBytesLeft t) (sessionID t) (mu t).
Definition set_readLeft (p b : Z) (t : handshakeTransport) : handshakeTransport :=
  mkTransport (config t) (clientVersion t) (serverVersion t) (hostKeys t) (hostKeyAlgorithms t)
    (writeError t) (sentInit t) (pendingPackets t) (requestKex t) (agreed t) p b (writePacketsLeft t)
    (writeBytesLeft t) (sessionID t) (mu t).
Definition set_writeLeft (p b : Z) (t : handshakeTransport) : handshakeTransport :=
  mkTransport (config t) (clientVersion t) (serverVersion t) (hostKeys t) (hostKeyAlgorithms t)
    (writeError t) (sentInit t) (pendingPackets t) (requestKex t) (agreed t) (readPacketsLeft t)
    (readBytesLeft t) p b (sessionID t) (mu t).
Definition set_sessionID (s : option string) (t : handshakeTransport) : handshakeTransport :=
  mkTransport (config t) (clientVersion t) (serverVersion t) (hostKeys t) (hostKeyAlgorithms t)
    (writeError t) (sentInit t) (pendingPackets t) (requestKex t) (agreed t) (readPacketsLeft t)
    (readBytesLeft t) (writePacketsLeft t) (writeBytesLeft t) s (mu t).
Definition set_mu (b : bool) (t : handshakeTransport) : handshakeTransport :=
  mkTransport (config t) (clientVersion t) (serverVersion t) (hostKeys t) (hostKeyAlgorithms t)
    (writeError t) (sentInit t) (pendingPackets t) (requestKex t) (agreed t) (readPacketsLeft t)
    (readBytesLeft t) (writePacketsLeft t) (writeBytesLeft t) (sessionID t) b.

Definition isServer (t : handshakeTransport) : bool := match hostKeys t with [] => false | _ => true end.

(** [0] for the threshold means the cipher's own. *)
Definition byte_limit (a : option directionAlgorithms) (t : handshakeTransport) : Z :=
  if 0 <? RekeyThreshold (config t) then to_int64 (RekeyThreshold (config t))
  else match a with Some d => rekeyBytes d | None => 2 ^ 30 end.

Definition resetWriteThresholds (t : handshakeTransport) : handshakeTransport :=
  set_writeLeft packetRekeyThreshold (byte_limit (w <$> agreed t) t) t.
Definition resetReadThresholds (t : handshakeTransport) : handshakeTransport :=
  set_readLeft packetRekeyThreshold (byte_limit (r <$> agreed t) t) t.

(** Every transport starts with a key exchange requested. A client without a list
    of host key algorithms accepts all that are supported. *)
Definition newHandshakeTransport (c : Config) (clientVersion serverVersion : string) : handshakeTransport :=
  let t := mkTransport c clientVersion serverVersion [] [] None None [] false None 0 0 0 0 None false in
  set_requestKex true (resetWriteThresholds (resetReadThresholds t)).
Definition newClientTransport (c : Config) (cv sv : string) (algos : option (list string)) : handshakeTransport :=
  let t := newHandshakeTransport c cv sv in
  mkTransport (config t) cv sv [] (default supportedHostKeyAlgos algos) (writeError t) (sentInit t) (pendingPackets t)
    (requestKex t) (agreed t) (readPacketsLeft t) (readBytesLeft t) (writePacketsLeft t) (writeBytesLeft t)
    (sessionID t) (mu t).
Definition newServerTransport (c : Config) (cv sv : string) (keys : list string) : handshakeTransport :=
  let t := newHandshakeTransport c cv sv in
  mkTransport (config t) cv sv keys [] (writeError t) (sentInit t) (pendingPackets t)
    (requestKex t) (agreed t) (readPacketsLeft t) (readBytesLeft t) (writePacketsLeft t) (writeBytesLeft t)
    (sessionID t) (mu t).

Definition requestKeyExchange (t : handshakeTransport) : handshakeTransport := set_requestKex true t.

Definition recordWriteError (e : option string) (t : handshakeTransport) : handshakeTransport :=
  match writeError t, e with
  | None, Some _ => set_write e (pendingPackets t) t
  | _, _ => t
  end.

Definition first_byte (packet : string) : Z := byte_at 0 packet.

Section Conn.
(** What the connection below answers a packet with. *)
Context (conn : string -> option string).

(** [writePacket] of the transport: a failing push is recorded, and reported
    from the next packet on. *)
Definition transport_writePacket (p : string) (t : handshakeTransport)
  : handshakeTransport * list string * outcome error_ :=
  if (p =? "")%string then (t, [], Panic "index out of range")
  else if first_byte p =? 20 then (t, [], Ok (Some "ssh: only handshakeTransport can send kexInit"))
  else if first_byte p =? 21 then (t, [], Ok (Some "ssh: only handshakeTransport can send newKeys"))
  else if mu t then (t, [], Blocked)
  else
    match writeError t with
    | Some e => (t, [], Ok (Some e))
    | None =>
        match sentInit t with
        | Some _ => (set_write None (pendingPackets t ++ [p]) t, [], Ok None)
        | None =>
            let t := if 0 <? writeBytesLeft t
                     then set_writeLeft (writePacketsLeft t) (writeBytesLeft t - slen p) t
                     else requestKeyExchange t in
            let t := if 0 <? writePacketsLeft t
                     then set_writeLeft (writePacketsLeft t - 1) (writeBytesLeft t) t
                     else requestKeyExchange t in
            match conn p with
            | None => (t, [p], Ok None)
            | Some e => (set_write (Some e) (pendingPackets t) t, [], Ok None)
            end
        end
    end.

(** The message of [sendKexInit]. *)
Definition own_init (cookie : string) (t : handshakeTransport) : kexInit :=
  let c := config t in
  let ciphers := default [] (Ciphers c) in
  let macs := default [] (MACs c) in
  mkInit cookie (default [] (KeyExchanges c)) (if isServer t then hostKeys t else hostKeyAlgorithms t)
    ciphers ciphers macs macs supportedCompressions supportedCompressions false.

Definition sendKexInit (cookie : string) (t : handshakeTransport)
  : handshakeTransport * list string * outcome error_ :=
  if mu t then (t, [], Blocked)
  else match sentInit t with
       | Some _ => (t, [], Ok None)
       | None =>
           let msg := own_init cookie t in
           let packet := Marshal kexInitMsg (init_values msg) in
           match conn packet with
           | Some e => (t, [], Ok (Some e))
           | None => (set_sentInit (Some (msg, packet)) t, [packet], Ok None)
           end
       end.

(** ** One exchange *)

(** The message of the other end, from its packet. *)
Definition init_of_values (vs : list value) : kexInit :=
  match vs with
  | [VArray c; VNames l1; VNames l2; VNames l3; VNames l4; VNames l5; VNames l6; VNames l7; VNames l8;
     VNames _; VNames _; VBool b; VUint32 _] => mkInit c l1 l2 l3 l4 l5 l6 l7 l8 b
  | _ => mkInit "" [] [] [] [] [] [] [] [] false
  end.

(** The first of the other side's guessed algorithms, or a panic. *)
Definition index0 (l : list string) : outcome string :=
  match l with s :: _ => Ok s | [] => Panic "index out of range" end.

Definition guessed_wrong (otherInit clientInit serverInit : kexInit) : outcome bool :=
  if FirstKexFollows otherInit then
    let? ck := index0 (KexAlgos clientInit) in
    let? sk := index0 (KexAlgos serverInit) in
    if negb (ck =? sk)%string then Ok true
    else
      let? ch := index0 (ServerHostKeyAlgos clientInit) in
      let? sh := index0 (ServerHostKeyAlgos serverInit) in
      Ok (negb (ch =? sh)%string)
  else Ok false.

(** What is hashed of the messages exchanged in the clear. *)
Record handshakeMagics := mkMagics {
  m_clientVersion : string; m_serverVersion : string; m_clientKexInit : string; m_serverKexInit : string }.

Record kexResult := mkResult { H_ : string; HostKey : string; Signature_ : string }.

(** The cryptography of one exchange, and what the other end sends in it: the
    packet after a wrong guess, the run of the key agreement on either side (its
    packets and its result), a public key, its verification, the callback that
    trusts it, the new ciphers, and the packet that should be NEWKEYS. *)
Record exchange (Key : Type) := mkExchange {
  skipped : outcome string;
  kex_Server : string -> handshakeMagics -> option string -> list string * outcome kexResult;
  kex_Client : string -> handshakeMagics -> list string * outcome kexResult;
  ParsePublicKey : string -> outcome Key;
  Verify : Key -> string -> Signature -> outcome unit;
  hostKeyCallback : Key -> outcome unit;
  newPacketCipher : bool -> directionAlgorithms -> outcome unit;
  answer : outcome string;
}.
Arguments skipped {Key}. Arguments kex_Server {Key}. Arguments kex_Client {Key}. Arguments ParsePublicKey {Key}.
Arguments Verify {Key}. Arguments hostKeyCallback {Key}. Arguments newPacketCipher {Key}. Arguments answer {Key}.

Context {Key : Type}.

Definition verifyHostKeySignature (x : exchange Key) (hostKey : Key) (result : kexResult) : outcome unit :=
  match parseSignatureBody (Signature_ result) with
  | Some (sig, "") => Verify x hostKey (H_ result) sig
  | _ => Err "ssh: signature parse error"
  end.

(** The last host key of the agreed type signs. *)
Definition server_key (algs : algorithms) (t : handshakeTransport) : option string :=
  fold_left (fun k ty => if (hostKey algs =? ty)%string then Some ty else k) (hostKeys t) None.

Definition server (x : exchange Key) (algs : algorithms) (magics : handshakeMagics) (t : handshakeTransport)
  : list string * outcome kexResult :=
  kex_Server x (kex algs) magics (server_key algs t).

Definition client (x : exchange Key) (algs : algorithms) (magics : handshakeMagics)
  : list string * outcome kexResult :=
  let '(sent, res) := kex_Client x (kex algs) magics in
  (sent,
   let? result := res in
   let? key := ParsePublicKey x (HostKey result) in
   let? _ := verifyHostKeySignature x key result in
   let? _ := hostKeyCallback x key in
   Ok result).

(** [prepareKeyChange]: the reader first; the direction is told by the role of
    the end that writes ([true] for the keys of the client), the algorithms by
    the direction only. *)
Definition prepareKeyChange (x : exchange Key) (isClient : bool) (algs : algorithms) : outcome unit :=
  let? _ := newPacketCipher x (negb isClient) (r algs) in
  let? _ := newPacketCipher x isClient (w algs) in
  Ok tt.

(** Who is the client decides whose message is whose: the other's message, the
    client's, the server's, and what is hashed. *)
Definition kex_inputs (otherInitPacket : string) (t : handshakeTransport)
  : outcome (kexInit * kexInit * kexInit * handshakeMagics) :=
  let? vs := Unmarshal otherInitPacket kexInitMsg in
  let otherInit := init_of_values vs in
  match sentInit t with
  | None => Panic "invalid memory address or nil pointer dereference"
  | Some (own, ownPacket) =>
      Ok (if isServer t
          then (otherInit, otherInit, own, mkMagics (clientVersion t) (serverVersion t) otherInitPacket ownPacket)
          else (otherInit, own, otherInit, mkMagics (clientVersion t) (serverVersion t) ownPacket otherInitPacket))
  end.

(** [enterKeyExchange] up to the choice of the key agreement: a wrongly guessed
    packet is dropped. *)
Definition choose_kex (x : exchange Key) (otherInit clientInit serverInit : kexInit) (a : algorithms) : outcome unit :=
  let? wrong := guessed_wrong otherInit clientInit serverInit in
  let? _ := if wrong then skipped x else Ok "" in
  if offers supportedKexAlgos (kex a) then Ok tt
  else Err ("ssh: unexpected key exchange algorithm " +:+ kex a).

(** Its end: our NEWKEYS, and the other's. *)
Definition switch_keys (x : exchange Key) (a : algorithms) (t : handshakeTransport) : list string * outcome unit :=
  match prepareKeyChange x (negb (isServer t)) a with
  | Ok _ =>
      let newKeys := String (byte 21) "" in
      match conn newKeys with
      | Some e => ([], Err e)
      | None =>
          ([newKeys],
           let? packet := answer x in
           if first_byte packet =? 21 then Ok tt else Err (unexpectedMessageError 21 (first_byte packet)))
      end
  | e => ([], e)
  end.

Definition enterKeyExchange (x : exchange Key) (otherInitPacket : string) (t : handshakeTransport)
  : handshakeTransport * list string * outcome unit :=
  match kex_inputs otherInitPacket t with
  | Ok (otherInit, clientInit, serverInit, magics) =>
      match findAgreedAlgorithms clientInit serverInit with
      | Ok a =>
          let t := set_agreed (Some a) t in
          match choose_kex x otherInit clientInit serverInit a with
          | Ok _ =>
              match (if isServer t then server x a magics t else client x a magics) with
              | (sent, Ok result) =>
                  let t := set_sessionID (match sessionID t with Some s => Some s | None => Some (H_ result) end) t in
                  let '(sent', res) := switch_keys x a t in
                  (t, sent ++ sent', res)
              | (sent, res) => (t, sent, let? _ := res in Ok tt)
              end
          | res => (t, [], res)
          end
      | res => (set_agreed None t, [], let? _ := res in Ok tt)
      end
  | res => (t, [], let? _ := res in Ok tt)
  end.

(** The packets that waited, pushed until one fails; each push overwrites the
    error. *)
Fixpoint push_all (l : list string) (e : error_) : list string * error_ :=
  match l with
  | [] => ([], e)
  | p :: l =>
      match conn p with
      | Some e => ([], Some e)
      | None => let '(sent, e) := push_all l None in (p :: sent, e)
      end
  end.

(** What [kexLoop] does after an exchange that ended with [err]. Told to stop
    when it reports the result, it returns and leaves the mutex locked. *)
Definition finish_kex (stopped : bool) (err : error_) (t : handshakeTransport)
  : outcome (handshakeTransport * list string) :=
  if mu t then Blocked
  else
    let t := set_sentInit None (set_write err (pendingPackets t) t) in
    let t := set_requestKex false (resetWriteThresholds t) in
    if stopped then Ok (set_mu true t, [])
    else
      let '(sent, e) := push_all (pendingPackets t) err in
      Ok (set_write e [] t, sent).

End Conn.

(** ** Reading *)

Inductive incoming := Deliver (p : string) | ReadFails (e : string) | StartKex (p : string).

(** [readOnePacket] up to the wait for an exchange, of a packet that was read. *)
Definition readOnePacket (first : bool) (p : string) (t : handshakeTransport) : handshakeTransport * incoming :=
  let t := if 0 <? readPacketsLeft t
           then set_readLeft (readPacketsLeft t - 1) (readBytesLeft t) t else requestKeyExchange t in
  let t := if 0 <? readBytesLeft t
           then set_readLeft (readPacketsLeft t) (readBytesLeft t - slen p) t else requestKeyExchange t in
  if first && negb (first_byte p =? 20) then (t, ReadFails "ssh: first packet should be msgKexInit")
  else if negb (first_byte p =? 20) then (t, Deliver p)
  else (t, StartKex p).

(** Its end: the packet that stands for the exchange. *)
Definition read_after_kex (firstKex : bool) (err : error_) (t : handshakeTransport)
  : handshakeTransport * outcome string :=
  match err with
  | Some e => (t, Err e)
  | None => (resetReadThresholds t, Ok (String (byte (if firstKex then 21 else 2)) ""))
  end.


(** ** An exchange *)

(** A client's exchange that succeeds, in its parts. *)
Lemma exchange_trusted {Key} conn (x : exchange Key) other t t' sent :
  isServer t = false -> enterKeyExchange conn x other t = (t', sent, Ok tt) ->
  exists otherInit own magics a result key sig,
    kex_inputs other t = Ok (otherInit, own, otherInit, magics) /\ findAgreedAlgorithms own otherInit = Ok a /\
    (kex_Client _ x (kex a) magics).2 = Ok result /\ ParsePublicKey _ x (HostKey result) = Ok key /\
    parseSignatureBody (Signature_ result) = Some (sig, "") /\ Verify _ x key (H_ result) sig = Ok tt /\
    hostKeyCallback _ x key = Ok tt /\
    agreed t' = Some a /\ sessionID t' = Some (default (H_ result) (sessionID t)).
Proof.
  intros Hs H. unfold enterKeyExchange in H.
  destruct (kex_inputs other t) as [[[[oi ci] si] mg]| | |] eqn:Ei; [|by inversion H..].
  assert (si = oi) as ->.
  { unfold kex_inputs in Ei. apply obind_ok in Ei as (vs & _ & Ei). destruct (sentInit t) as [[own pk]|]; [|done].
    rewrite Hs in Ei. by injection Ei as <- _ <- _. }
  destruct (findAgreedAlgorithms ci oi) as [a| | |] eqn:Ea; [|by inversion H..].
  destruct (choose_kex x oi ci oi a); [|by inversion H..].
  replace (isServer (set_agreed (Some a) t)) with false in H by done.
  unfold client in H. destruct (kex_Client _ x (kex a) mg) as [sent1 res] eqn:Ek.
  destruct (let? result := res in _) as [result| | |] eqn:Ec; [|by inversion H..].
  apply obind_ok in Ec as (result' & -> & Ec). apply obind_ok in Ec as (key & Ep & Ec).
  apply obind_ok in Ec as ([] & Ev & Ec). apply obind_ok in Ec as ([] & Ecb & [= <-]).
  unfold verifyHostKeySignature in Ev. destruct (parseSignatureBody _) as [[sig [|]]|] eqn:Eg; try done.
  destruct (switch_keys _ _ _ _) as [sent2 res2]. injection H as <- _ _.
  exists oi, ci, mg, a, result', key, sig. rewrite Ek. split_and!; try done. simpl. by destruct (sessionID t).
Qed.

(** C7: On a client an exchange succeeds only with a server that proved, by a
    signature over the exchange hash, to hold the host key that the callback
    accepted; the algorithms are those agreed on, and the hash of the first
    exchange names the session ever after. *)
Theorem exchange_trusts_host_key {Key} conn (x : exchange Key) other t t' sent :
  isServer t = false -> enterKeyExchange conn x other t = (t', sent, Ok tt) ->
  exists otherInit own magics a result key sig,
    kex_inputs other t = Ok (otherInit, own, otherInit, magics) /\ findAgreedAlgorithms own otherInit = Ok a /\
    (kex_Client _ x (kex a) magics).2 = Ok result /\ ParsePublicKey _ x (HostKey result) = Ok key /\
    parseSignatureBody (Signature_ result) = Some (sig, "") /\ Verify _ x key (H_ result) sig = Ok tt /\
    hostKeyCallback _ x key = Ok tt /\
    agreed t' = Some a /\ sessionID t' = Some (default (H_ result) (sessionID t)).
Proof. intros Hs H. exact (exchange_trusted conn x other t t' sent Hs H). Qed.

(** An exchange does not panic but for what the cryptography does. *)
Lemma choose_kex_no_panic {Key} (x : exchange Key) oi cl sv a s :
  Forall (fun c => preferred c.1.1 c.1.2 c.2) (choices cl sv a) -> skipped _ x <> Panic s ->
  choose_kex x oi cl sv a <> Panic s.
Proof.
  intros Ha Hx. unfold choose_kex.
  assert (exists b, guessed_wrong oi cl sv = Ok b) as [b ->].
  { unfold guessed_wrong. destruct (FirstKexFollows oi); [|by eexists].
    unfold choices in Ha. apply Forall_cons in Ha as [(b1 & a1 & H1 & H1' & _) Ha].
    apply Forall_cons in Ha as [(b2 & a2 & H2 & H2' & _) _]. simpl in *.
    destruct (KexAlgos cl), (KexAlgos sv), (ServerHostKeyAlgos cl), (ServerHostKeyAlgos sv);
      try (by destruct b1); try (by destruct b2); try (by apply elem_of_nil in H1'); try (by apply elem_of_nil in H2').
    simpl. destruct (negb _); by eexists. }
  simpl. destruct b; [destruct (skipped _ x); simpl|simpl]; try case_match; congruence.
Qed.

Lemma init_of_init_values m : init_of_values (init_values m) = m.
Proof. by destruct m. Qed.

Lemma same_lists_same_directions c1 c2 client server a :
  findAgreedAlgorithms (own_init c1 client) (own_init c2 server) = Ok a -> w a = r a.
Proof.
  unfold findAgreedAlgorithms. simpl. intros H.
  repeat match type of H with
  | obind ?m _ = Ok _ => apply obind_ok in H as (? & ? & H)
  end.
  injection H as <-. simpl. unfold findCommon in *. repeat case_match; by simplify_eq.
Qed.

Lemma sendKexInit_sent conn cookie t t' p :
  sendKexInit conn cookie t = (t', [p], Ok None) ->
  p = Marshal kexInitMsg (init_values (own_init cookie t)) /\ t' = set_sentInit (Some (own_init cookie t, p)) t.
Proof.
  unfold sendKexInit. destruct (mu t); [done|]. destruct (sentInit t); [done|].
  destruct (conn _); [done|]. by intros [= <- <-].
Qed.

(** When both ends have sent their lists and each got the other's packet,
    they put the same messages in the same places: they hash the same data, find
    the same algorithms, and each reads a direction with the algorithms that the
    other writes it with. *)
Theorem ends_agree conn1 conn2 cookie1 cookie2 c s c' s' pc ps :
  isServer c = false -> isServer s = true ->
  clientVersion c = clientVersion s -> serverVersion c = serverVersion s ->
  typed_msg kexInitMsg (init_values (own_init cookie1 c)) -> typed_msg kexInitMsg (init_values (own_init cookie2 s)) ->
  sendKexInit conn1 cookie1 c = (c', [pc], Ok None) -> sendKexInit conn2 cookie2 s = (s', [ps], Ok None) ->
  exists ci si magics, kex_inputs ps c' = Ok (si, ci, si, magics) /\ kex_inputs pc s' = Ok (ci, ci, si, magics) /\
    forall a, findAgreedAlgorithms ci si = Ok a -> w a = r a.
Proof.
  intros Hc Hs Hcv Hsv Tc Ts Sc Ss.
  apply sendKexInit_sent in Sc as [-> ->]. apply sendKexInit_sent in Ss as [-> ->].
  exists (own_init cookie1 c), (own_init cookie2 s). eexists. unfold kex_inputs.
  rewrite !Unmarshal_Marshal by done. cbn [obind]. rewrite !init_of_init_values.
  change (isServer (set_sentInit _ c)) with (isServer c). change (isServer (set_sentInit _ s)) with (isServer s).
  rewrite Hc, Hs. simpl. split; [done|]. split; [by rewrite <- Hcv, <- Hsv|]. apply same_lists_same_directions.
Qed.

(** A client that prefers another cipher for each direction, as the protocol
    allows, is written to and read from with the wrong one by this server:
    its reader takes the algorithms of the direction to the client. *)
Lemma server_reads_with_wrong_cipher :
  exists cl sv a, findAgreedAlgorithms cl sv = Ok a /\
    preferred (CiphersClientServer cl) (CiphersClientServer sv) "aes128-ctr" /\ Cipher (r a) = "aes256-ctr" /\
    forall Key (x : exchange Key), newPacketCipher _ x true (r a) = Err "wrong cipher" ->
      prepareKeyChange x false a = Err "wrong cipher".
Proof.
  exists (mkInit "" ["k"] ["h"] ["aes128-ctr"] ["aes256-ctr"] ["m"] ["m"] ["none"] ["none"] false),
         (mkInit "" ["k"] ["h"] supportedCiphers supportedCiphers ["m"] ["m"] ["none"] ["none"] false).
  eexists. split; [vm_compute; reflexivity|]. split_and!; [|done|].
  - exists [], []. split_and!; [done|unfold supportedCiphers; set_solver|]. by intros y ?%elem_of_nil.
  - intros Key x Hx. unfold prepareKeyChange. cbn [negb r w]. cbn [r] in Hx. by rewrite Hx.
Qed.

(** ** Packets written while keys are exchanged *)

(** What goes over the wire: packets of the users, and packets of exchanges. *)
Inductive entry := Data (p : string) | KexPacket (p : string).

(** A transport; whether the kex loop is past an exchange, and with what error;
    what was sent; the packets that were accepted for sending; the errors of the
    exchanges so far. *)
Record system := mkSys {
  tr : handshakeTransport; over : option error_; wire : list entry; accepted : list string; failures : list string }.

Definition error_of (res : outcome unit) : option error_ :=
  match res with Ok _ => Some None | Err e => Some (Some e) | _ => None end.

(** The calls of users, and the turns of the two loops. An exchange is entered
    only after our message was sent and no error is recorded, and is finished
    before the next. *)
Inductive kex_step {Key} (conn : string -> option string) : system -> system -> Prop :=
| k_write s p t sent :
    transport_writePacket conn p (tr s) = (t, sent, Ok None) ->
    kex_step conn s (mkSys t (over s) (wire s ++ map Data sent) (accepted s ++ [p]) (failures s))
| k_refused s p t sent e :
    transport_writePacket conn p (tr s) = (t, sent, Ok (Some e)) ->
    kex_step conn s (mkSys t (over s) (wire s ++ map Data sent) (accepted s) (failures s))
| k_init s cookie t sent e :
    over s = None -> sendKexInit conn cookie (tr s) = (t, sent, Ok e) ->
    kex_step conn s (mkSys (recordWriteError e t) None (wire s ++ map KexPacket sent) (accepted s) (failures s))
| k_exchange s (x : exchange Key) other t sent res err :
    over s = None -> writeError (tr s) = None -> sentInit (tr s) <> None ->
    enterKeyExchange conn x other (tr s) = (t, sent, res) -> error_of res = Some err ->
    kex_step conn s (mkSys t (Some err) (wire s ++ map KexPacket sent) (accepted s) (failures s ++ option_list err))
| k_finish s stopped err t sent :
    over s = Some err -> finish_kex conn stopped err (tr s) = Ok (t, sent) ->
    kex_step conn s (mkSys t None (wire s ++ map Data sent) (accepted s) (failures s))
| k_read s first p t i :
    readOnePacket first p (tr s) = (t, i) ->
    kex_step conn s (mkSys t (over s) (wire s) (accepted s) (failures s))
| k_read_end s firstKex err t i :
    read_after_kex firstKex err (tr s) = (t, i) ->
    kex_step conn s (mkSys t (over s) (wire s) (accepted s) (failures s))
| k_read_error s e :
    kex_step conn s (mkSys (recordWriteError e (tr s)) (over s) (wire s) (accepted s) (failures s)).

Definition kex_start (t : handshakeTransport) : system := mkSys t None [] [] [].

Fixpoint data_of (l : list entry) : list string :=
  match l with [] => [] | Data p :: l => p :: data_of l | _ :: l => data_of l end.

(** Whether an exchange is under way after these entries: from its first packet
    to our NEWKEYS. *)
Definition exchanging (l : list entry) : bool :=
  fold_left (fun b e => match e with Data _ => b | KexPacket p => negb (first_byte p =? 21) end) l false.

(** No data between the start of an exchange and its end. *)
Definition quiet (l : list entry) : Prop :=
  forall a p b, l = a ++ Data p :: b -> exchanging a = false.

Lemma data_of_app a b : data_of (a ++ b) = data_of a ++ data_of b.
Proof. induction a as [|[] a IH]; simpl; by rewrite ?IH. Qed.
Lemma data_of_Data l : data_of (map Data l) = l.
Proof. induction l as [|p l IH]; simpl; by rewrite ?IH. Qed.
Lemma data_of_Kex l : data_of (map KexPacket l) = [].
Proof. by induction l. Qed.
Hint Rewrite data_of_app data_of_Data data_of_Kex app_nil_r : sshego.

Lemma exchanging_data a l : exchanging (a ++ map Data l) = exchanging a.
Proof. unfold exchanging. rewrite fold_left_app. by induction l. Qed.
Lemma exchanging_end a l p : first_byte p = 21 -> exchanging (a ++ map KexPacket (l ++ [p])) = false.
Proof. intros H. unfold exchanging. rewrite map_app, !fold_left_app. simpl. by rewrite H. Qed.

Lemma quiet_app a b :
  quiet a -> (forall c p d, b = c ++ Data p :: d -> exchanging (a ++ c) = false) -> quiet (a ++ b).
Proof.
  intros Ha Hb c p d E. apply app_eq_inv in E as [(k & -> & E)|(k & -> & E)].
  - destruct k as [|x k]; simpl in E.
    + specialize (Hb [] p d (eq_sym E)). by rewrite !app_nil_r in Hb.
    + injection E as <- _. by eapply Ha.
  - by eapply Hb.
Qed.

Lemma quiet_data a l : quiet a -> (l <> [] -> exchanging a = false) -> quiet (a ++ map Data l).
Proof.
  intros Ha He. apply quiet_app; [done|]. intros c p d E.
  assert (l <> []) as Hl by (intros ->; by destruct c).
  apply map_eq_app in E as (l1 & l2 & _ & E & _). rewrite <- E, exchanging_data. auto.
Qed.

Lemma quiet_kex a l : quiet a -> quiet (a ++ map KexPacket l).
Proof.
  intros Ha. apply quiet_app; [done|]. intros c p d E.
  apply map_eq_app in E as (l1 & l2 & _ & _ & E). by destruct l2.
Qed.

(** What a call of a user does to the queue. *)
Lemma writePacket_spec conn p t t' sent res :
  transport_writePacket conn p t = (t', sent, Ok res) ->
  sentInit t' = sentInit t /\ mu t' = mu t /\ (res = None -> mu t = false) /\
  match res with
  | Some _ => sent = [] /\ writeError t' = writeError t /\ pendingPackets t' = pendingPackets t
  | None =>
      match sentInit t with
      | Some _ => sent = [] /\ writeError t = None /\ writeError t' = None /\ pendingPackets t' = pendingPackets t ++ [p]
      | None => pendingPackets t' = pendingPackets t /\ writeError t = None /\
                (sent = [p] /\ writeError t' = None \/ sent = [] /\ writeError t' <> None)
      end
  end.
Proof.
  unfold transport_writePacket. destruct (p =? "")%string; [done|].
  destruct (_ =? 20); [by intros [= <- <- <-]|]. destruct (_ =? 21); [by intros [= <- <- <-]|].
  destruct (mu t) eqn:Em; [done|]. destruct (writeError t) as [e|] eqn:Ew; [by intros [= <- <- <-]|].
  destruct (sentInit t) eqn:Es; [by intros [= <- <- <-]|].
  set (t1 := if _ <? writeBytesLeft t then _ else _).
  set (t2 := if _ <? writePacketsLeft t1 then _ else _).
  assert (sentInit t2 = None /\ writeError t2 = None /\ pendingPackets t2 = pendingPackets t /\ mu t2 = mu t) as (F1 & F2 & F3 & F4).
  { unfold t2, t1. by destruct (0 <? writeBytesLeft t); simpl; destruct (0 <? writePacketsLeft t). }
  destruct (conn p); intros [= <- <- <-]; simpl; split_and!; try done; auto; congruence.
Qed.

(** The same of the other calls. *)
Lemma sendKexInit_spec conn cookie t t' sent e :
  sendKexInit conn cookie t = (t', sent, Ok e) ->
  writeError t' = writeError t /\ pendingPackets t' = pendingPackets t /\ mu t' = mu t /\
  ((sent = [] /\ t' = t) \/ (sentInit t = None /\ sentInit t' <> None /\ exists p, sent = [p])).
Proof.
  unfold sendKexInit. destruct (mu t) eqn:Em; [done|]. destruct (sentInit t) eqn:E; [intros [= <- <- <-]; split_and!; auto|].
  destruct (conn _); intros [= <- <- <-]; simpl; (split_and!; [done..|]); [by left|right; split_and!; eauto].
Qed.

Lemma recordWriteError_spec e t :
  sentInit (recordWriteError e t) = sentInit t /\ pendingPackets (recordWriteError e t) = pendingPackets t /\ mu (recordWriteError e t) = mu t /\
  (writeError (recordWriteError e t) = None -> writeError t = None).
Proof. unfold recordWriteError. by destruct (writeError t) eqn:E, e; rewrite ?E. Qed.

Lemma readPacket_spec first p t t' i :
  readOnePacket first p t = (t', i) ->
  sentInit t' = sentInit t /\ writeError t' = writeError t /\ pendingPackets t' = pendingPackets t /\ mu t' = mu t.
Proof.
  unfold readOnePacket. intros H. repeat case_match; injection H as <- _; done.
Qed.

Lemma push_all_spec conn l e sent e' :
  push_all conn l e = (sent, e') -> (e' = None -> sent = l) /\ (l <> [] -> e' = None \/ exists p, p ∈ l /\ conn p = e').
Proof.
  revert e sent e'. induction l as [|p l IH]; intros e sent e'; simpl; [by intros [= <- <-]|].
  destruct (conn p) as [er|] eqn:Ec; [intros [= <- <-]; split; [done|]; intros _; right; exists p; set_solver|].
  destruct (push_all conn l None) as [s e1] eqn:E. intros [= <- <-]. destruct (IH _ _ _ E) as [H1 H2].
  split; [intros ->; by rewrite H1|]. intros _. destruct l as [|q l]; [simpl in E; injection E as _ <-; by left|].
  destruct H2 as [->|(q' & Hq & Hc)]; [done|by left|right; exists q'; set_solver].
Qed.

Lemma enter_spec {Key} conn (x : exchange Key) other t t' sent res :
  enterKeyExchange conn x other t = (t', sent, res) ->
  sentInit t' = sentInit t /\ writeError t' = writeError t /\ pendingPackets t' = pendingPackets t /\ mu t' = mu t /\
  (res = Ok tt -> exists sent0, sent = sent0 ++ [String (byte 21) ""]).
Proof.
  unfold enterKeyExchange. intros H.
  assert (forall A (o : outcome A), (let? _ := o in Ok tt) = Ok tt -> exists a, o = Ok a) as Ho
    by (intros A [a| | |]; simpl; eauto; done).
  destruct (kex_inputs other t) as [[[[oi ci] si] mg]| | |]; [|by inversion H..].
  destruct (findAgreedAlgorithms ci si) as [a| | |]; [|by inversion H..].
  destruct (choose_kex x oi ci si a); [|by inversion H..].
  destruct (if isServer _ then _ else _) as [s1 [result| | |]]; [|by inversion H..].
  destruct (switch_keys _ _ _ _) as [s2 r2] eqn:Es. injection H as <- <- <-. split_and!; try done.
  intros ->. exists s1. f_equal. unfold switch_keys in Es.
  destruct (prepareKeyChange _ _ _); [|by inversion Es..]. destruct (conn _); by inversion Es.
Qed.

(** ** The queue loses nothing *)

(** What every step keeps: what was accepted was sent or waits, unless an error
    is recorded; packets wait only while an exchange is under way. *)
Definition kex_inv (s : system) : Prop :=
  (writeError (tr s) = None \/ over s <> None -> accepted s = data_of (wire s) ++ pendingPackets (tr s)) /\
  (over s <> None -> sentInit (tr s) <> None) /\
  (sentInit (tr s) = None -> mu (tr s) = false -> pendingPackets (tr s) = []) /\
  (failures s = [] -> quiet (wire s) /\ (sentInit (tr s) = None -> exchanging (wire s) = false) /\
     (over s <> None -> exchanging (wire s) = false)).

Lemma kex_inv_write {Key} conn s s' : @kex_step Key conn s s' -> kex_inv s -> kex_inv s'.
Proof.
  intros Hst (I1 & I2 & I3 & I4).
  destruct Hst as [s p t sent H|s p t sent e H|s cookie t sent e Hov H|s x other t sent res err Hov Hw Hs H Hres
    |s stopped err t sent Hov H|s first p t i H|s firstKex err t i H|s e]; unfold kex_inv; simpl.
  - apply writePacket_spec in H as (Hsi & Hmu & Hm & H). specialize (Hm eq_refl). rewrite Hsi, Hmu.
    destruct (sentInit (tr s)) eqn:Es.
    + destruct H as (-> & Hw0 & Hw & Hp). simpl. rewrite !app_nil_r, Hp. split_and!; [|done|done|done].
      intros _. rewrite I1 by (by left). by rewrite app_assoc.
    + destruct H as (Hp & Hw0 & Hc). rewrite Hp, I3 by done.
      assert (over s = None) as Ho by (destruct (over s); [by destruct I2|done]).
      assert (accepted s = data_of (wire s)) as Ha by (rewrite I1, I3 by auto; by rewrite app_nil_r).
      destruct Hc as [[-> Hw]|[-> Hw]].
      * split_and!; [|congruence|done|].
        { intros _. change (map Data [p]) with ([Data p]). rewrite data_of_app, app_nil_r, Ha. done. }
        intros Hf. destruct (I4 Hf) as (Hq & He & _). rewrite exchanging_data. split_and!; auto.
        apply quiet_data; auto.
      * simpl. rewrite !app_nil_r. split_and!; [intros [?|?]; congruence|congruence|done|auto].
  - apply writePacket_spec in H as (Hsi & Hmu & _ & -> & Hw & Hp). simpl.
    rewrite !app_nil_r, Hw, Hp, Hsi, Hmu. done.
  - apply sendKexInit_spec in H as (Hw & Hp & Hmu & H). destruct (recordWriteError_spec e t) as (E1 & E2 & E3 & E4).
    rewrite E1, E2, E3, Hp, Hmu. destruct H as [[-> ->]|(Hs & Hs' & p & ->)].
    + simpl. rewrite !app_nil_r. split_and!; [|done|done|naive_solver]. intros [H|?]; [|done]. auto.
    + rewrite data_of_app, data_of_Kex, app_nil_r. split_and!; [|done|done|].
      { intros [H|?]; [|done]. apply I1. left. rewrite <- Hw. auto. }
      intros Hf. destruct (I4 Hf) as (Hq & _). split_and!; [by apply quiet_kex|done|done].
  - apply enter_spec in H as (Hs' & Hw' & Hp & Hmu & Hok). rewrite Hs', Hp, Hmu, data_of_app, data_of_Kex, app_nil_r.
    split_and!; [auto|done|done|]. intros Hf. apply app_eq_nil in Hf as [Hf He].
    destruct err; [done|]. destruct res as [[]| | |]; try done. destruct (Hok eq_refl) as [s0 ->].
    destruct (I4 Hf) as (Hq & _). split_and!; [by apply quiet_kex|done|by rewrite exchanging_end].
  - assert (over s <> None) as Ho by (by rewrite Hov). specialize (I1 (or_intror Ho)).
    unfold finish_kex in H. destruct (mu (tr s)) eqn:Em; [done|]. destruct stopped.
    + injection H as <- <-. simpl. rewrite !app_nil_r. split_and!; [done|done|done|]. intros Hf.
      destruct (I4 Hf) as (? & ? & ?). auto.
    + simpl in H. destruct (push_all conn (pendingPackets (tr s)) err) as [s1 e1] eqn:Ep. injection H as <- <-. simpl.
      apply push_all_spec in Ep as [Ep _]. split_and!; [|done|done|].
      { intros [->|?]; [|done]. by rewrite data_of_app, data_of_Data, app_nil_r, Ep. }
      intros Hf. destruct (I4 Hf) as (Hq & He & Ho'). rewrite exchanging_data. split_and!; auto. apply quiet_data; auto.
  - apply readPacket_spec in H as (-> & -> & -> & ->). done.
  - unfold read_after_kex in H. destruct err; by injection H as <- _.
  - destruct (recordWriteError_spec e (tr s)) as (-> & -> & -> & Hw). split_and!; [|done|done|done].
    intros [?|?]; auto.
Qed.

(** C5: However writes and key exchanges interleave, as long as no error is recorded
    every packet that was accepted has been sent, in order and once, or waits in order
    for the end of the exchange; and as long as no exchange has failed, no packet of a
    user goes out between our first packet of an exchange and our NEWKEYS. When an
    exchange fails, what waited for it does go out: see [failed_exchange_forgotten]. *)
Theorem rekey_keeps_order {Key} conn t s :
  writeError t = None -> sentInit t = None -> pendingPackets t = [] -> mu t = false ->
  rtc (@kex_step Key conn) (kex_start t) s ->
  (writeError (tr s) = None -> accepted s = data_of (wire s) ++ pendingPackets (tr s)) /\
  (sentInit (tr s) = None -> mu (tr s) = false -> pendingPackets (tr s) = []) /\
  (failures s = [] -> quiet (wire s)).
Proof.
  intros Hw Hs Hp Hm Hr.
  assert (kex_inv s) as (I1 & _ & I3 & I4).
  { eapply rtc_invariant; [|exact Hr|].
    - intros a b Ha Hst. by eapply kex_inv_write.
    - unfold kex_inv, kex_start; simpl. rewrite Hp. split_and!; try done. intros _. split_and!; try done.
      intros a p b E. by destruct a. }
  split_and!; auto. intros Hf. by apply I4.
Qed.

(** An exchange that failed is forgotten when packets waited for it: pushing them
    overwrites the error, and they go out under the old keys. *)
Lemma failed_exchange_forgotten conn e t t' sent :
  pendingPackets t <> [] -> (forall p, p ∈ pendingPackets t -> conn p = None) ->
  finish_kex conn false (Some e) t = Ok (t', sent) ->
  writeError t' = None /\ sent = pendingPackets t.
Proof.
  intros Hp Hc H. unfold finish_kex in H. destruct (mu t); [done|]. simpl in H.
  destruct (push_all conn (pendingPackets t) (Some e)) as [s1 e1] eqn:E. injection H as <- <-.
  apply push_all_spec in E as [E1 E2]. simpl.
  destruct (E2 Hp) as [->|(p & Hin & Hp')]; [auto|]. rewrite (Hc p Hin) in Hp'. subst e1. auto.
Qed.

(** A loop that is told to stop while it reports an exchange leaves the mutex
    locked: every later write waits for ever. *)
Lemma stopped_kex_blocks_writers conn err t t' sent p :
  finish_kex conn true err t = Ok (t', sent) -> p <> "" -> first_byte p <> 20 -> first_byte p <> 21 ->
  (transport_writePacket conn p t').2 = Blocked.
Proof.
  unfold finish_kex. destruct (mu t); [done|]. intros [= <- <-] Hp H20 H21. unfold transport_writePacket.
  destruct (p =? "")%string eqn:E; [by apply String.eqb_eq in E|].
  destruct (first_byte p =? 20) eqn:E20; [by apply Z.eqb_eq in E20|].
  destruct (first_byte p =? 21) eqn:E21; [by apply Z.eqb_eq in E21|]. done.
Qed.

(** ** When new keys are asked for *)

(** Packets written one after the other; [None] once one is refused. *)
Fixpoint write_all (conn : string -> option string) (ps : list string) (t : handshakeTransport) : option handshakeTransport :=
  match ps with
  | [] => Some t
  | p :: ps =>
      match transport_writePacket conn p t with
      | (t, _, Ok None) => write_all conn ps t
      | _ => None
      end
  end.

Definition bytes_of (ps : list string) : Z := fold_right (fun p n => slen p + n) 0 ps.

(** One write while no exchange is under way: new keys are asked for, or the
    counters go down from a positive value. *)
Lemma write_counts conn p t t' sent :
  sentInit t = None -> transport_writePacket conn p t = (t', sent, Ok None) ->
  sentInit t' = None /\ (requestKex t = true -> requestKex t' = true) /\
  (requestKex t' = true \/
   0 < writeBytesLeft t /\ writeBytesLeft t' = writeBytesLeft t - slen p /\
   0 < writePacketsLeft t /\ writePacketsLeft t' = writePacketsLeft t - 1).
Proof.
  intros Hs H. unfold transport_writePacket in H. rewrite Hs in H.
  destruct (p =? "")%string; [done|]. destruct (first_byte p =? 20); [done|]. destruct (first_byte p =? 21); [done|].
  destruct (mu t); [done|]. destruct (writeError t); [done|].
  destruct (0 <? writeBytesLeft t) eqn:Eb; simpl in H; destruct (0 <? writePacketsLeft t) eqn:Ep; simpl in H;
    destruct (conn p); injection H as <- <-; simpl; z_prop; auto 10.
Qed.

Lemma write_all_counts conn ps t t' :
  sentInit t = None -> write_all conn ps t = Some t' ->
  (requestKex t = true -> requestKex t' = true) /\
  (requestKex t' = true \/
   writeBytesLeft t' = writeBytesLeft t - bytes_of ps /\ writePacketsLeft t' = writePacketsLeft t - Z.of_nat (List.length ps) /\
   forall a p, ps = a ++ [p] -> bytes_of a < writeBytesLeft t /\ Z.of_nat (List.length a) < writePacketsLeft t).
Proof.
  revert t. induction ps as [|p ps IH]; intros t Hs H; simpl in H.
  - injection H as <-. split; [done|]. right. simpl. split_and!; try lia. intros a p E. by destruct a.
  - destruct (transport_writePacket conn p t) as [[t1 sent] [[]| | |]] eqn:E; [done| |done..].
    destruct (write_counts _ _ _ _ _ Hs E) as (Hs1 & Hk & Hc). destruct (IH _ Hs1 H) as [Hk' Hc'].
    split; [auto|]. destruct Hc as [Hr|(Hb & Hb' & Hp & Hp')]; [left; auto|].
    destruct Hc' as [Hr|(Hb1 & Hp1 & Hl)]; [by left|right]. simpl. split_and!; [lia|lia|].
    intros [|q a] x Eq; [simpl; lia|]. injection Eq as -> ->. destruct (Hl a x eq_refl). simpl. lia.
Qed.

(** New keys are asked for no later than with the packet that follows the
    last of the allowed bytes or packets: while nobody asked, all packets
    written since the counters were reset, but for the last one, are fewer and
    shorter together than the limits. *)
Theorem rekey_requested conn t t' a p :
  sentInit t = None -> write_all conn (a ++ [p]) (resetWriteThresholds t) = Some t' -> requestKex t' = false ->
  bytes_of a < byte_limit (w <$> agreed t) t /\ Z.of_nat (List.length a) < packetRekeyThreshold.
Proof.
  intros Hs H Hk. destruct (write_all_counts conn (a ++ [p]) (resetWriteThresholds t) t' Hs H) as [_ [Hr|(_ & _ & Hl)]].
  - congruence.
  - exact (Hl a p eq_refl).
Qed.

(** ** Witnesses *)

Definition demo_config : Config := SetDefaults (mkConfig 0 None None None).
Definition demo_client : handshakeTransport := newClientTransport demo_config "SSH-2.0-A" "SSH-2.0-B" None.
Definition demo_server : handshakeTransport := newServerTransport demo_config "SSH-2.0-A" "SSH-2.0-B" ["ssh-rsa"].
Definition demo_cookie : string := be_bytes 16 77.
Definition accepts (_ : string) : option string := None.
Definition after_init (t : handshakeTransport) : handshakeTransport := (sendKexInit accepts demo_cookie t).1.1.
Definition init_packet (t : handshakeTransport) : string :=
  Marshal kexInitMsg (init_values (own_init demo_cookie t)).

Definition demo_exchange : exchange string := {|
  skipped := Ok "";
  kex_Server := fun _ _ _ => ([], Err "not a server");
  kex_Client := fun _ _ => ([String (byte 30) "x"], Ok (mkResult "hash" "host key" (appendString (appendString "" "fmt") "sig")));
  ParsePublicKey := Ok;
  Verify := fun k h s => if (h =? "hash")%string && (Blob s =? "sig")%string then Ok tt else Err "bad signature";
  hostKeyCallback := fun k => if (k =? "host key")%string then Ok tt else Err "unknown host";
  newPacketCipher := fun _ _ => Ok tt;
  answer := Ok (String (byte 21) "") |}.

Lemma demo_typed t : t = demo_client \/ t = demo_server -> typed_msg kexInitMsg (init_values (own_init demo_cookie t)).
Proof.
  intros [-> | ->]; (split; [|vm_compute; reflexivity]);
    repeat (apply Forall2_cons; split); try (apply Forall2_nil; exact I); try exact I; try (vm_compute; reflexivity).
  all: try (vm_compute; split; congruence).
  all: (split; [vm_compute; congruence|]); vm_compute; repeat constructor.
Qed.

Lemma ends_agree_witness :
  exists ci si magics,
    kex_inputs (init_packet demo_server) (after_init demo_client) = Ok (si, ci, si, magics) /\
    kex_inputs (init_packet demo_client) (after_init demo_server) = Ok (ci, ci, si, magics) /\
    forall a, findAgreedAlgorithms ci si = Ok a -> w a = r a.
Proof.
  apply (ends_agree accepts accepts demo_cookie demo_cookie demo_client demo_server); try reflexivity.
  - apply demo_typed. by left.
  - apply demo_typed. by right.
Defined.

Lemma exchange_trusts_host_key_witness :
  exists t' sent key sig, enterKeyExchange accepts demo_exchange (init_packet demo_server) (after_init demo_client) = (t', sent, Ok tt) /\
    key = "host key" /\ Verify _ demo_exchange key "hash" sig = Ok tt /\ hostKeyCallback _ demo_exchange key = Ok tt /\
    sessionID t' = Some "hash".
Proof.
  assert ((enterKeyExchange accepts demo_exchange (init_packet demo_server) (after_init demo_client)).2 = Ok tt) as Hres
    by (vm_compute; reflexivity).
  destruct (enterKeyExchange accepts demo_exchange (init_packet demo_server) (after_init demo_client)) as [[t' sent] res] eqn:E.
  cbn [snd] in Hres. subst res.
  destruct (exchange_trusts_host_key accepts demo_exchange (init_packet demo_server) (after_init demo_client) t' sent eq_refl E)
    as (oi & own & mg & a & result & key & sig & _ & _ & Hk & Hp & _ & Hv & Hc & _ & Hid).
  injection Hk as <-. injection Hp as <-. exists t', sent, "host key", sig.
  split; [reflexivity|]. split; [reflexivity|]. split; [exact Hv|]. split; [exact Hc|exact Hid].
Defined.

Lemma rekey_requested_witness :
  let t := newClientTransport (mkConfig 256 None None None) "" "" None in
  exists t', write_all accepts ["abc"; "defg"] (resetWriteThresholds (set_requestKex false t)) = Some t' /\
    bytes_of ["abc"] < byte_limit (w <$> agreed (set_requestKex false t)) (set_requestKex false t).
Proof.
  intros t. pose (t1 := set_requestKex false t).
  assert (requestKex <$> write_all accepts ["abc"; "defg"] (resetWriteThresholds t1) = Some false) as Hk
    by (vm_compute; reflexivity).
  destruct (write_all accepts ["abc"; "defg"] (resetWriteThresholds t1)) as [t'|] eqn:E; [|discriminate].
  injection Hk as Hk. exists t'. split; [exact E|].
  exact (proj1 (rekey_requested accepts t1 t' ["abc"] "defg" eq_refl E Hk)).
Defined.

(** A write while keys are exchanged goes out after our NEWKEYS. *)
Lemma rekey_keeps_order_witness :
  exists s, rtc (@kex_step string accepts) (kex_start demo_client) s /\
    wire s = [KexPacket (init_packet demo_client); KexPacket (String (byte 30) "x"); KexPacket (String (byte 21) ""); Data "hello"] /\
    accepts "hello" = None /\ accepted s = data_of (wire s) ++ pendingPackets (tr s).
Proof.
  pose (s1 := mkSys (after_init demo_client) None [KexPacket (init_packet demo_client)] [] []).
  pose (t2 := (transport_writePacket accepts "hello" (tr s1)).1.1).
  pose (s2 := mkSys t2 None (wire s1) ["hello"] []).
  pose (t3 := (enterKeyExchange accepts demo_exchange (init_packet demo_server) t2).1.1).
  pose (s3 := mkSys t3 (Some None) (wire s1 ++ map KexPacket [String (byte 30) "x"; String (byte 21) ""]) ["hello"] []).
  pose (t4 := match finish_kex accepts false None t3 with Ok (t, _) => t | _ => t3 end).
  pose (s4 := mkSys t4 None (wire s3 ++ [Data "hello"]) ["hello"] []).
  assert (rtc (@kex_step string accepts) (kex_start demo_client) s4) as Hr.
  { eapply rtc_l; [apply (k_init accepts (kex_start demo_client) demo_cookie (after_init demo_client)
      [init_packet demo_client] None); [done|vm_compute; reflexivity]|].
    eapply (rtc_l _ _ s2); [apply (k_write accepts s1 "hello" t2 []); vm_compute; reflexivity|].
    eapply (rtc_l _ _ s3); [apply (k_exchange accepts s2 demo_exchange (init_packet demo_server) t3
      [String (byte 30) "x"; String (byte 21) ""] (Ok tt) None); try done; vm_compute; reflexivity|].
    eapply (rtc_l _ _ s4); [apply (k_finish accepts s3 false None t4 ["hello"]); [done|vm_compute; reflexivity]|].
    apply rtc_refl. }
  exists s4. split; [exact Hr|]. split; [vm_compute; reflexivity|]. split; [done|].
  refine (proj1 (rekey_keeps_order accepts demo_client s4 eq_refl eq_refl eq_refl eq_refl Hr) _). vm_compute. reflexivity.
Defined.
