(* ===== verification/Keys.v ===== *)
(** Public keys and certificates (xendor/github.com/glycerine/xcryptossh: keys.go,
    certs.go): their wire format, signatures on them, and what makes a
    certificate acceptable. The mathematics of the signature schemes and of the
    curves are parameters. *)
From stdpp Require Import sorting.
From S2P Require Import Prelude.
From S2P Require Import GoStrings.
From S2P Require Import Wire.

(** ** Algorithms *)

Definition KeyAlgoRSA : string := "ssh-rsa".
Definition KeyAlgoDSA : string := "ssh-dss".
Definition KeyAlgoECDSA256 : string := "ecdsa-sha2-nistp256".
Definition KeyAlgoECDSA384 : string := "ecdsa-sha2-nistp384".
Definition KeyAlgoECDSA521 : string := "ecdsa-sha2-nistp521".
Definition KeyAlgoED25519 : string := "ssh-ed25519".

(** From the algorithm of a key to that of its certificates. *)
Definition certAlgoNames : list (string * string) :=
  [(KeyAlgoRSA, "ssh-rsa-cert-v01@openssh.com"); (KeyAlgoDSA, "ssh-dss-cert-v01@openssh.com");
   (KeyAlgoECDSA256, "ecdsa-sha2-nistp256-cert-v01@openssh.com");
   (KeyAlgoECDSA384, "ecdsa-sha2-nistp384-cert-v01@openssh.com");
   (KeyAlgoECDSA521, "ecdsa-sha2-nistp521-cert-v01@openssh.com");
   (KeyAlgoED25519, "ssh-ed25519-cert-v01@openssh.com")].

Fixpoint cert_algo (l : list (string * string)) (key : string) : option string :=
  match l with [] => None | (k, c) :: l => if (k =? key)%string then Some c else cert_algo l key end.
Fixpoint priv_algo (l : list (string * string)) (cert : string) : option string :=
  match l with [] => None | (k, c) :: l => if (c =? cert)%string then Some k else priv_algo l cert end.

(** Panics if a non-certificate algorithm is passed. *)
Definition certToPrivAlgo (algo : string) : outcome string :=
  match priv_algo certAlgoNames algo with Some k => Ok k | None => Panic "unknown cert algorithm" end.

(** ** Keys *)

(** The implementations of the interface PublicKey. An elliptic curve is its bit
    size. *)
Inductive PublicKey :=
| RSA (E N : Z)
| DSA (P Q G Y : Z)
| ECDSA (bits X Y : Z)
| ED25519 (keyBytes : string)
| CertKey (c : Certificate)
with Certificate :=
| mkCert (nonce : string) (key : PublicKey) (serial certType : Z) (keyId : string) (principals : list string)
    (after before : Z) (options extensions : gmap string string) (reserved : string) (signatureKey : PublicKey)
    (signature : option Signature).

Definition Nonce (c : Certificate) : string := let 'mkCert n _ _ _ _ _ _ _ _ _ _ _ _ := c in n.
Definition Key (c : Certificate) : PublicKey := let 'mkCert _ k _ _ _ _ _ _ _ _ _ _ _ := c in k.
Definition Serial (c : Certificate) : Z := let 'mkCert _ _ s _ _ _ _ _ _ _ _ _ _ := c in s.
Definition CertType (c : Certificate) : Z := let 'mkCert _ _ _ t _ _ _ _ _ _ _ _ _ := c in t.
Definition KeyId (c : Certificate) : string := let 'mkCert _ _ _ _ i _ _ _ _ _ _ _ _ := c in i.
Definition ValidPrincipals (c : Certificate) : list string := let 'mkCert _ _ _ _ _ p _ _ _ _ _ _ _ := c in p.
Definition ValidAfter (c : Certificate) : Z := let 'mkCert _ _ _ _ _ _ a _ _ _ _ _ _ := c in a.
Definition ValidBefore (c : Certificate) : Z := let 'mkCert _ _ _ _ _ _ _ b _ _ _ _ _ := c in b.
Definition CriticalOptions (c : Certificate) : gmap string string := let 'mkCert _ _ _ _ _ _ _ _ o _ _ _ _ := c in o.
Definition Extensions (c : Certificate) : gmap string string := let 'mkCert _ _ _ _ _ _ _ _ _ e _ _ _ := c in e.
Definition Reserved (c : Certificate) : string := let 'mkCert _ _ _ _ _ _ _ _ _ _ r _ _ := c in r.
Definition SignatureKey (c : Certificate) : PublicKey := let 'mkCert _ _ _ _ _ _ _ _ _ _ _ k _ := c in k.
Definition CertSignature (c : Certificate) : option Signature := let 'mkCert _ _ _ _ _ _ _ _ _ _ _ _ s := c in s.
Definition set_Signature (s : option Signature) (c : Certificate) : Certificate :=
  let 'mkCert n k se t i p a b o e r sk _ := c in mkCert n k se t i p a b o e r sk s.

Definition nistID (bits : Z) : outcome string :=
  match bits with
  | 256 => Ok "nistp256"
  | 384 => Ok "nistp384"
  | 521 => Ok "nistp521"
  | _ => Panic "ssh: unsupported ecdsa key size"
  end.

Fixpoint Type_ (k : PublicKey) : outcome string :=
  match k with
  | RSA _ _ => Ok KeyAlgoRSA
  | DSA _ _ _ _ => Ok KeyAlgoDSA
  | ECDSA bits _ _ => let? id := nistID bits in Ok ("ecdsa-sha2-" +:+ id)
  | ED25519 _ => Ok KeyAlgoED25519
  | CertKey c => cert_Type c
  end
with cert_Type (c : Certificate) : outcome string :=
  match c with
  | mkCert _ key _ _ _ _ _ _ _ _ _ _ _ =>
      let? ty := Type_ key in
      match cert_algo certAlgoNames ty with
      | Some algo => Ok algo
      | None => Panic ("unknown cert key type " +:+ ty)
      end
  end.

(** ** Lists of names and options *)

Definition nameStruct := mkType "" [] [("N", KString)].
Definition marshalStringList (namelist : list string) : string :=
  fold_left (fun to name => to +:+ Marshal nameStruct [VString name]) namelist "".

(** The loop of [parseCert] on the principals. *)
Fixpoint parse_principals (fuel : nat) (principals : string) : outcome (list string) :=
  match fuel with
  | O => Blocked
  | S fuel =>
      match principals with
      | "" => Ok []
      | _ =>
          match parseString principals with
          | None => Err errShortRead
          | Some (principal, rest) => let? l := parse_principals fuel rest in Ok (principal :: l)
          end
      end
  end.

(** Go's order of strings, and sort.Strings. *)
Definition str_le (a b : string) : Prop := String.leb a b = true.
#[export] Instance str_le_dec : RelDecision str_le := fun a b => decide (String.leb a b = true).

Definition sorted_keys (tups : gmap string string) : list string := merge_sort str_le (map fst (map_to_list tups)).

Definition optionsTuple := mkType "optionsTuple" [] [("Key", KString); ("Value", KBytes)].
Definition optionsTupleValue := mkType "optionsTupleValue" [] [("Value", KString)].

Definition marshalTuples (tups : gmap string string) : string :=
  fold_left (fun ret key =>
    let value := default "" (tups !! key) in
    let v := if (value =? "")%string then "" else Marshal optionsTupleValue [VString value] in
    ret +:+ Marshal optionsTuple [VString key; VBytes v]) (sorted_keys tups) "".

Fixpoint tuples_loop (fuel : nat) (data : string) (lastKey : option string) (tups : gmap string string)
  : outcome (gmap string string) :=
  match fuel with
  | O => Blocked
  | S fuel =>
      match data with
      | "" => Ok tups
      | _ =>
          match parseString data with
          | None => Err errShortRead
          | Some (key, data) =>
              if match lastKey with Some last => String.leb key last | None => false end
              then Err "ssh: certificate options are not in lexical order"
              else
                match parseString data with
                | None => Err errShortRead
                | Some ("", data) => tuples_loop fuel data (Some key) (<[key := ""]> tups)
                | Some (val, data) =>
                    match parseString val with
                    | None => Err errShortRead
                    | Some (val, "") => tuples_loop fuel data (Some key) (<[key := val]> tups)
                    | Some (_, _) => Err "ssh: unexpected trailing data after certificate option value"
                    end
                end
          end
      end
  end.
Definition parseTuples (data : string) : outcome (gmap string string) :=
  tuples_loop (S (String.length data)) data None ∅.

(** ** Marshalling *)

Definition genericCertData := mkType "genericCertData" []
  [("Serial", KUint64); ("CertType", KUint32); ("KeyId", KString); ("ValidPrincipals", KBytes);
   ("ValidAfter", KUint64); ("ValidBefore", KUint64); ("CriticalOptions", KBytes); ("Extensions", KBytes);
   ("Reserved", KBytes); ("SignatureKey", KBytes); ("Signature", KBytes)].
Definition certPrefix := mkType "" [] [("Name", KString); ("Nonce", KBytes); ("Key", KRest)].
Definition signatureStruct := mkType "Signature" [] [("Format", KString); ("Blob", KBytes)].

Section Crypto.
(** Points of curves, and the schemes' own verification: of RSA, DSA and ECDSA on
    the data (hashed there), the equation that Ed25519 checks. *)
Context (ecMarshal : Z -> Z -> Z -> string) (ecUnmarshal : Z -> string -> option (Z * Z)).
Context (rsa_verify : Z -> Z -> string -> string -> error_)
        (dsa_verify : Z -> Z -> Z -> Z -> string -> Z -> Z -> bool)
        (ecdsa_verify : Z -> Z -> Z -> string -> Z -> Z -> bool)
        (ed25519_equation : string -> string -> string -> bool).

Definition rsa_Marshal (E N : Z) : string :=
  Marshal (mkType "" [] [("Name", KString); ("E", KInt); ("N", KInt)]) [VString KeyAlgoRSA; VInt E; VInt N].
Definition dsa_Marshal (P Q G Y : Z) : string :=
  Marshal (mkType "" [] [("Name", KString); ("P", KInt); ("Q", KInt); ("G", KInt); ("Y", KInt)])
    [VString KeyAlgoDSA; VInt P; VInt Q; VInt G; VInt Y].
Definition ecdsa_Marshal (bits X Y : Z) : outcome string :=
  let? id := nistID bits in
  Ok (Marshal (mkType "" [] [("Name", KString); ("ID", KString); ("Key", KBytes)])
        [VString ("ecdsa-sha2-" +:+ id); VString id; VBytes (ecMarshal bits X Y)]).
Definition ed25519_Marshal (keyBytes : string) : string :=
  Marshal (mkType "" [] [("Name", KString); ("KeyBytes", KBytes)]) [VString KeyAlgoED25519; VBytes keyBytes].

(** Keys by their own methods, certificates by theirs. *)
Fixpoint KeyMarshal (k : PublicKey) : outcome string :=
  match k with
  | RSA E N => Ok (rsa_Marshal E N)
  | DSA P Q G Y => Ok (dsa_Marshal P Q G Y)
  | ECDSA bits X Y => ecdsa_Marshal bits X Y
  | ED25519 keyBytes => Ok (ed25519_Marshal keyBytes)
  | CertKey c => CertMarshal c
  end
with CertMarshal (c : Certificate) : outcome string :=
  match c with
  | mkCert nonce key serial certType keyId principals after before options extensions reserved signatureKey signature =>
      let? sigKey := KeyMarshal signatureKey in
      let sig := match signature with
                 | Some s => Marshal signatureStruct [VString (Format s); VBytes (Blob s)]
                 | None => "" end in
      let genericBytes := Marshal genericCertData
        [VUint64 serial; VUint32 certType; VString keyId; VBytes (marshalStringList principals); VUint64 after;
         VUint64 before; VBytes (marshalTuples options); VBytes (marshalTuples extensions); VBytes reserved;
         VBytes sigKey; VBytes sig] in
      let? keyBytes := KeyMarshal key in
      let keyBytes := match parseString keyBytes with Some (_, rest) => rest | None => "" end in
      let? name := cert_Type c in
      Ok (Marshal certPrefix [VString name; VBytes nonce; VRest keyBytes] +:+ genericBytes)
  end.

(** Without the length of the signature, which is left out. *)
Definition bytesForSigning (c : Certificate) : outcome string :=
  let? out := CertMarshal (set_Signature None c) in
  if slen out <? 4 then Panic "slice bounds out of range" else Ok (stake (String.length out - 4) out).

(** ** Parsing *)

Definition parseRSA (data : string) : outcome (PublicKey * string) :=
  let? vs := Unmarshal data (mkType "" [] [("E", KInt); ("N", KInt); ("Rest", KRest)]) in
  match vs with
  | [VInt E; VInt N; VRest rest] =>
      if 24 <? BitLen E then Err "ssh: exponent too large"
      else if (E <? 3) || Z.even E then Err "ssh: incorrect exponent"
      else Ok (RSA E N, rest)
  | _ => Panic "unreachable"
  end.

Definition parseDSA (data : string) : outcome (PublicKey * string) :=
  let? vs := Unmarshal data (mkType "" [] [("P", KInt); ("Q", KInt); ("G", KInt); ("Y", KInt); ("Rest", KRest)]) in
  match vs with
  | [VInt P; VInt Q; VInt G; VInt Y; VRest rest] => Ok (DSA P Q G Y, rest)
  | _ => Panic "unreachable"
  end.

Definition curve_bits (name : string) : option Z :=
  if (name =? "nistp256")%string then Some 256
  else if (name =? "nistp384")%string then Some 384
  else if (name =? "nistp521")%string then Some 521 else None.

Definition parseECDSA (data : string) : outcome (PublicKey * string) :=
  let? vs := Unmarshal data (mkType "" [] [("Curve", KString); ("KeyBytes", KBytes); ("Rest", KRest)]) in
  match vs with
  | [VString curve; VBytes keyBytes; VRest rest] =>
      match curve_bits curve with
      | None => Err "ssh: unsupported curve"
      | Some bits =>
          match ecUnmarshal bits keyBytes with
          | None => Err "ssh: invalid curve point"
          | Some (X, Y) => Ok (ECDSA bits X Y, rest)
          end
      end
  | _ => Panic "unreachable"
  end.

Definition parseED25519 (data : string) : outcome (PublicKey * string) :=
  let? vs := Unmarshal data (mkType "" [] [("KeyBytes", KBytes); ("Rest", KRest)]) in
  match vs with
  | [VBytes keyBytes; VRest rest] => Ok (ED25519 keyBytes, rest)
  | _ => Panic "unreachable"
  end.

(** [ParsePublicKey] and [parseCert] over the parser of keys that they call. *)
Definition parse_public (parsePubKey : string -> string -> outcome (PublicKey * string)) (data : string)
  : outcome PublicKey :=
  match parseString data with
  | None => Err errShortRead
  | Some (algo, data) =>
      let? '(out, rest) := parsePubKey data algo in
      if (rest =? "")%string then Ok out else Err "ssh: trailing junk in public key"
  end.

Definition parse_cert (parsePubKey : string -> string -> outcome (PublicKey * string)) (data privAlgo : string)
  : outcome Certificate :=
  match parseString data with
  | None => Err errShortRead
  | Some (nonce, rest) =>
      let? '(key, rest) := parsePubKey rest privAlgo in
      let? g := Unmarshal rest genericCertData in
      match g with
      | [VUint64 serial; VUint32 certType; VString keyId; VBytes principals; VUint64 after; VUint64 before;
         VBytes options; VBytes extensions; VBytes reserved; VBytes sigKey; VBytes sig] =>
          let? principals := parse_principals (S (String.length principals)) principals in
          let? options := parseTuples options in
          let? extensions := parseTuples extensions in
          let? k := parse_public parsePubKey sigKey in
          match parseSignatureBody sig with
          | Some (s, "") =>
              Ok (mkCert nonce key serial certType keyId principals after before options extensions reserved k (Some s))
          | _ => Err "ssh: signature parse error"
          end
      | _ => Panic "unreachable"
      end
  end.

(** [parsePubKey]; a certificate may be signed by a certificate, each within the
    bytes of the last, so [fuel] above their number is enough. *)
Fixpoint parsePubKey (fuel : nat) (data algo : string) : outcome (PublicKey * string) :=
  match fuel with
  | O => Blocked
  | S fuel =>
      if (algo =? KeyAlgoRSA)%string then parseRSA data
      else if (algo =? KeyAlgoDSA)%string then parseDSA data
      else if (algo =? KeyAlgoECDSA256)%string || (algo =? KeyAlgoECDSA384)%string || (algo =? KeyAlgoECDSA521)%string
      then parseECDSA data
      else if (algo =? KeyAlgoED25519)%string then parseED25519 data
      else match priv_algo certAlgoNames algo with
           | Some _ =>
               let? privAlgo := certToPrivAlgo algo in
               let? cert := parse_cert (parsePubKey fuel) data privAlgo in
               Ok (CertKey cert, "")
           | None => Err ("ssh: unknown key algorithm: " +:+ algo)
           end
  end.

Definition ParsePublicKey (data : string) : outcome PublicKey :=
  parse_public (parsePubKey (S (String.length data))) data.

(** ** Signatures *)

Definition format_error (sig : Signature) (ty : string) : outcome unit :=
  Err ("ssh: signature type " +:+ Format sig +:+ " for key type " +:+ ty).
Definition asn1Struct := mkType "" [] [("R", KInt); ("S", KInt)].

(** ed25519.Verify: it panics on a key of another length than 32 bytes. *)
Definition ed25519_Verify (publicKey message sig : string) : outcome bool :=
  if negb (slen publicKey =? 32) then Panic ("ed25519: bad public key length: " +:+ itoa (slen publicKey))
  else if negb (slen sig =? 64) || negb (Z.land (be (sdrop 63 sig)) 224 =? 0) then Ok false
  else Ok (ed25519_equation publicKey message sig).

Definition rsa_Verify (E N : Z) (data : string) (sig : Signature) : outcome unit :=
  if negb (Format sig =? KeyAlgoRSA)%string then format_error sig KeyAlgoRSA
  else match rsa_verify E N data (Blob sig) with None => Ok tt | Some e => Err e end.
Definition dsa_Verify (P Q G Y : Z) (data : string) (sig : Signature) : outcome unit :=
  if negb (Format sig =? KeyAlgoDSA)%string then format_error sig KeyAlgoDSA
  else if negb (slen (Blob sig) =? 40) then Err "ssh: DSA signature parse error"
  else if dsa_verify P Q G Y data (be (stake 20 (Blob sig))) (be (sdrop 20 (Blob sig)))
  then Ok tt else Err "ssh: signature did not verify".
Definition ecdsa_Verify (bits X Y : Z) (data : string) (sig : Signature) : outcome unit :=
  let? id := nistID bits in
  if negb (Format sig =? "ecdsa-sha2-" +:+ id)%string then format_error sig ("ecdsa-sha2-" +:+ id)
  else
    let? vs := Unmarshal (Blob sig) asn1Struct in
    match vs with
    | [VInt r; VInt s] =>
        if ecdsa_verify bits X Y data r s then Ok tt else Err "ssh: signature did not verify"
    | _ => Panic "unreachable"
    end.
Definition ed25519_key_Verify (keyBytes data : string) (sig : Signature) : outcome unit :=
  if negb (Format sig =? KeyAlgoED25519)%string then format_error sig KeyAlgoED25519
  else
    let? ok := ed25519_Verify keyBytes data (Blob sig) in
    if ok : bool then Ok tt else Err "ssh: signature did not verify".

Fixpoint Verify (k : PublicKey) (data : string) (sig : Signature) : outcome unit :=
  match k with
  | RSA E N => rsa_Verify E N data sig
  | DSA P Q G Y => dsa_Verify P Q G Y data sig
  | ECDSA bits X Y => ecdsa_Verify bits X Y data sig
  | ED25519 keyBytes => ed25519_key_Verify keyBytes data sig
  | CertKey c => cert_Verify c data sig
  end
with cert_Verify (c : Certificate) (data : string) (sig : Signature) : outcome unit :=
  match c with mkCert _ key _ _ _ _ _ _ _ _ _ _ _ => Verify key data sig end.

(** ** The checker of certificates *)

Record CertChecker := mkChecker {
  SupportedCriticalOptions : list string;
  IsUserAuthority : PublicKey -> bool;
  IsHostAuthority : PublicKey -> string -> bool;
  UserKeyFallback : option (PublicKey -> outcome (gmap string string * gmap string string));
  HostKeyFallback : option (string -> PublicKey -> outcome unit);
  IsRevoked : option (Certificate -> bool);
}.

Definition UserCert : Z := 1.
Definition HostCert : Z := 2.
Definition sourceAddressCriticalOption : string := "source-address".
Definition CertTimeInfinity : Z := 2 ^ 64 - 1.

Definition in_list (l : list string) (x : string) : bool := existsb (fun y => (y =? x)%string) l.

(** The first option, in the order [opts] in which Go ranges over the map, that
    nothing enforces. *)
Definition unsupported (c : CertChecker) (opts : list string) : option string :=
  List.find (fun opt => negb (opt =? sourceAddressCriticalOption)%string && negb (in_list (SupportedCriticalOptions c) opt)) opts.

(** [%q] of text without special characters. *)
Definition quoted_list (l : list string) : string := "[" +:+ join " " (map (fun x => dq +:+ x +:+ dq) l) +:+ "]".

(** By default, certs are valid for all users and hosts. *)
Definition wrong_principal (l : list string) (principal : string) : bool :=
  match l with [] => false | _ => negb (in_list l principal) end.

(** [CheckCert] at the time [unixNow]. *)
Definition CheckCert (c : CertChecker) (opts : list string) (unixNow : Z) (principal : string) (cert : Certificate)
  : outcome unit :=
  if match IsRevoked c with Some f => f cert | None => false end
  then Err ("ssh: certicate serial " +:+ itoa (Serial cert) +:+ " revoked")
  else
    match unsupported c opts with
    | Some opt => Err ("ssh: unsupported critical option " +:+ dq +:+ opt +:+ dq +:+ " in certificate")
    | None =>
        if wrong_principal (ValidPrincipals cert) principal
        then Err ("ssh: principal " +:+ dq +:+ principal +:+ dq +:+
                  " not in the set of valid principals for given certificate: " +:+ quoted_list (ValidPrincipals cert))
        else if (to_int64 (ValidAfter cert) <? 0) || (unixNow <? to_int64 (ValidAfter cert))
        then Err "ssh: cert is not yet valid"
        else if negb (ValidBefore cert =? CertTimeInfinity) &&
                ((to_int64 (ValidBefore cert) <=? unixNow) || (to_int64 (ValidBefore cert) <? 0))
        then Err "ssh: cert has expired"
        else
          let? data := bytesForSigning cert in
          match CertSignature cert with
          | None => Panic "invalid memory address or nil pointer dereference"
          | Some sig =>
              match Verify (SignatureKey cert) data sig with
              | Err _ => Err "ssh: certificate signature does not verify"
              | r => r
              end
          end
    end.

Definition CheckHostKey (c : CertChecker) (opts : list string) (unixNow : Z) (addr : string) (key : PublicKey) : outcome unit :=
  match key with
  | CertKey cert =>
      if negb (CertType cert =? HostCert)
      then Err ("ssh: certificate presented as a host key has type " +:+ itoa (CertType cert))
      else if negb (IsHostAuthority c (SignatureKey cert) addr) then Err ("ssh: no authorities for hostname: " +:+ addr)
      else let? '(hostname, _) := SplitHostPort addr in CheckCert c opts unixNow hostname cert
  | _ => match HostKeyFallback c with Some f => f addr key | None => Err "ssh: non-certificate host key" end
  end.

(** The permissions of a certificate are its options and extensions. *)
Definition Authenticate (c : CertChecker) (opts : list string) (unixNow : Z) (user : string) (pubKey : PublicKey)
  : outcome (gmap string string * gmap string string) :=
  match pubKey with
  | CertKey cert =>
      if negb (CertType cert =? UserCert) then Err ("ssh: cert has type " +:+ itoa (CertType cert))
      else if negb (IsUserAuthority c (SignatureKey cert))
      then Err "ssh: certificate signed by unrecognized authority"
      else let? _ := CheckCert c opts unixNow user cert in Ok (CriticalOptions cert, Extensions cert)
  | _ => match UserKeyFallback c with Some f => f pubKey | None => Err "ssh: normal key pairs not accepted" end
  end.

(** [SignCert]: a fresh nonce, the authority's key, and its signature over the
    rest. *)
Definition SignCert (nonce : outcome string) (authority : PublicKey) (sign : string -> outcome Signature)
    (c : Certificate) : outcome Certificate :=
  let? n := nonce in
  let 'mkCert _ k se t i p a b o e r _ s := c in
  let c := mkCert n k se t i p a b o e r authority s in
  let? data := bytesForSigning c in
  let? sig := sign data in
  Ok (set_Signature (Some sig) c).
End Crypto.

(** ** Structs without a type byte *)

Lemma Ok_inj {A} (a b : A) : Ok a = Ok b -> a = b.
Proof. congruence. Qed.

Lemma Marshal_untagged name fs vs : Marshal (mkType name [] fs) vs = fields_bytes vs.
Proof. unfold Marshal, marshalStruct; simpl. by rewrite fold_marshalField. Qed.

Lemma Unmarshal_untagged name fs vs :
  typed_fields fs vs -> rest_last fs = true -> slen (fields_bytes vs) < 2 ^ 32 -> fields_bytes vs <> "" ->
  Unmarshal (fields_bytes vs) (mkType name [] fs) = Ok vs.
Proof.
  intros Ht Hr Hl Hne. unfold Unmarshal. rewrite bool_decide_eq_false_2 by (cbn [t_fields]; intros ->; inversion Ht; by subst). destruct (fields_bytes vs) as [|c s] eqn:E; [done|]. rewrite <- E in *.
  cbn [typeTags obind t_fields]. by rewrite unmarshalFields_be.
Qed.

(** The encoding of a string field. *)
Lemma field_string s : field_bytes (VString s) = be_bytes 4 (to_uint32 (slen s)) +:+ s.
Proof. done. Qed.
Lemma field_VBytes s : field_bytes (VBytes s) = field_bytes (VString s).
Proof. done. Qed.
Lemma field_string_slen s : slen (field_bytes (VString s)) = 4 + slen s.
Proof. rewrite field_string, slen_app, slen_be_bytes. lia. Qed.

Lemma parseString_field s rest :
  slen s + slen rest < 2 ^ 32 -> parseString (field_bytes (VString s) +:+ rest) = Some (s, rest).
Proof.
  intros H. pose proof (slen_nonneg s). pose proof (slen_nonneg rest).
  rewrite field_string, to_uint32_id by (unfold in_uint32; lia). rewrite string_app_assoc.
  apply parseString_be; lia.
Qed.

Lemma field_nonempty s rest : field_bytes (VString s) +:+ rest <> "".
Proof.
  intros E. apply (f_equal slen) in E. rewrite slen_app, field_string_slen in E.
  pose proof (slen_nonneg s). pose proof (slen_nonneg rest). unfold slen at 3 in E. simpl in E. lia.
Qed.

(** ** Lists of names *)

Lemma marshalStringList_app l to :
  fold_left (fun to name => to +:+ Marshal nameStruct [VString name]) l to = to +:+ marshalStringList l.
Proof.
  unfold marshalStringList. revert to. induction l as [|x l IH]; intros to; simpl; [by rewrite string_app_nil_r|].
  rewrite (IH (to +:+ _)), (IH (Marshal _ _)), string_app_assoc. done.
Qed.

Lemma marshalStringList_cons x l : marshalStringList (x :: l) = field_bytes (VString x) +:+ marshalStringList l.
Proof.
  unfold marshalStringList at 1. cbn [fold_left]. rewrite marshalStringList_app. unfold nameStruct.
  rewrite Marshal_untagged. cbn [fields_bytes]. by rewrite string_app_nil_r.
Qed.

Lemma parse_principals_list l fuel :
  slen (marshalStringList l) < 2 ^ 32 -> (List.length l < fuel)%nat ->
  parse_principals fuel (marshalStringList l) = Ok l.
Proof.
  revert fuel. induction l as [|x l IH]; intros [|fuel] Hl Hf; try (simpl in Hf; lia); [done|].
  rewrite marshalStringList_cons in *. rewrite slen_app, field_string_slen in Hl.
  pose proof (slen_nonneg x). pose proof (slen_nonneg (marshalStringList l)).
  cbn [parse_principals]. destruct (field_bytes (VString x) +:+ marshalStringList l) as [|c s] eqn:E; [by apply field_nonempty in E|].
  rewrite <- E, parseString_field by lia. simpl. simpl in Hf. rewrite IH; [done|lia|lia].
Qed.

Lemma marshalStringList_length l : Z.of_nat (List.length l) <= slen (marshalStringList l).
Proof.
  induction l as [|x l IH]; [done|]. rewrite marshalStringList_cons, slen_app, field_string_slen.
  pose proof (slen_nonneg x). simpl. lia.
Qed.

(** ** Options *)

Lemma leb_String c a d b :
  String.leb (String c a) (String d b) = (val c <? val d) || ((val c =? val d) && String.leb a b).
Proof.
  unfold String.leb; simpl. unfold Ascii.compare, val.
  destruct (N.compare_spec (N_of_ascii c) (N_of_ascii d)) as [E|E|E].
  - rewrite E, Z.ltb_irrefl, Z.eqb_refl. done.
  - replace (_ <? _) with true by (symmetry; apply Z.ltb_lt; lia). done.
  - replace (_ <? _) with false by (symmetry; apply Z.ltb_ge; lia).
    replace (_ =? _) with false by (symmetry; apply Z.eqb_neq; lia). done.
Qed.

Lemma str_leb_trans a b c : String.leb a b = true -> String.leb b c = true -> String.leb a c = true.
Proof.
  revert b c. induction a as [|x a IH]; intros [|y b] [|z c]; try done. rewrite !leb_String, !orb_true_iff, !andb_true_iff.
  rewrite !Z.ltb_lt, !Z.eqb_eq. intros [?|[? H1]] [?|[? H2]]; try (left; lia). right. split; [lia|by eapply IH].
Qed.

#[export] Instance str_le_total : Total str_le.
Proof. intros a b. apply String.leb_total. Qed.
#[export] Instance str_le_trans : Transitive str_le.
Proof. intros a b c. apply str_leb_trans. Qed.

Lemma sorted_keys_spec tups :
  StronglySorted str_le (sorted_keys tups) /\ NoDup (sorted_keys tups) /\
  forall k, k ∈ sorted_keys tups <-> is_Some (tups !! k).
Proof.
  unfold sorted_keys. pose proof (merge_sort_Permutation str_le (map fst (map_to_list tups))) as P.
  split_and!; [apply (StronglySorted_merge_sort str_le)| |].
  - rewrite P. apply NoDup_fst_map_to_list.
  - intros k. rewrite P. rewrite list_elem_of_fmap. split.
    + intros ([k' v] & -> & H). apply elem_of_map_to_list in H. by exists v.
    + intros [v H]. exists (k, v). split; [done|]. by apply elem_of_map_to_list.
Qed.

(** One option as it is written. *)
Definition tuple_bytes (key value : string) : string :=
  field_bytes (VString key) +:+
  field_bytes (VString (if (value =? "")%string then "" else field_bytes (VString value))).

Definition tuples_bytes (tups : gmap string string) (keys : list string) : string :=
  fold_right (fun k s => tuple_bytes k (default "" (tups !! k)) +:+ s) "" keys.

Lemma marshalTuples_eq tups : marshalTuples tups = tuples_bytes tups (sorted_keys tups).
Proof.
  unfold marshalTuples. generalize (sorted_keys tups) as l. intros l.
  assert (forall ret, fold_left (fun ret key =>
    let value := default "" (tups !! key) in
    let v := if (value =? "")%string then "" else Marshal optionsTupleValue [VString value] in
    ret +:+ Marshal optionsTuple [VString key; VBytes v]) l ret = ret +:+ tuples_bytes tups l) as H; [|apply H].
  induction l as [|k l IH]; intros ret; cbn [fold_left tuples_bytes fold_right]; [by rewrite string_app_nil_r|].
  rewrite IH. fold (tuples_bytes tups l). rewrite string_app_assoc. f_equal. f_equal.
  unfold optionsTuple, optionsTupleValue. rewrite !Marshal_untagged. cbn [fields_bytes]. rewrite !string_app_nil_r.
  unfold tuple_bytes. by rewrite field_VBytes.
Qed.

Definition put_option (tups : gmap string string) (m : gmap string string) (k : string) : gmap string string :=
  <[k := default "" (tups !! k)]> m.

Lemma slen_nil_inv s : slen s = 0 -> s = "".
Proof. destruct s; [done|]. unfold slen; simpl. lia. Qed.

Lemma tuples_bytes_cons tups k keys :
  tuples_bytes tups (k :: keys) = tuple_bytes k (default "" (tups !! k)) +:+ tuples_bytes tups keys.
Proof. done. Qed.

Lemma tuples_loop_bytes tups keys fuel last acc :
  StronglySorted str_le keys -> NoDup keys ->
  (forall l, last = Some l -> Forall (fun k => str_le l k /\ l <> k) keys) ->
  slen (tuples_bytes tups keys) < 2 ^ 32 -> (List.length keys < fuel)%nat ->
  tuples_loop fuel (tuples_bytes tups keys) last acc = Ok (fold_left (put_option tups) keys acc).
Proof.
  intros Hs. revert fuel last acc. induction Hs as [|k keys Hs IH Hk]; intros [|fuel] last acc Hn Hlast Hl Hf;
    try (simpl in Hf; lia); [done|].
  rewrite tuples_bytes_cons in *. set (v := default "" (tups !! k)) in *. set (rest := tuples_bytes tups keys) in *.
  apply NoDup_cons in Hn as [Hkn Hn].
  unfold tuple_bytes in Hl |- *. set (val := if (v =? "")%string then "" else field_bytes (VString v)) in *.
  rewrite !slen_app, !field_string_slen in Hl. pose proof (slen_nonneg k). pose proof (slen_nonneg val). pose proof (slen_nonneg rest).
  rewrite string_app_assoc. set (tail := field_bytes (VString val) +:+ rest).
  assert (slen tail = 4 + slen val + slen rest) as Htail by (unfold tail; rewrite slen_app, field_string_slen; lia).
  cbn [tuples_loop]. destruct (field_bytes (VString k) +:+ tail) as [|c s] eqn:E; [by apply field_nonempty in E|].
  rewrite <- E, parseString_field by lia.
  replace (match last with Some last => String.leb k last | None => false end) with false.
  2:{ destruct last as [l|]; [|done]. symmetry. apply not_true_is_false. intros Hle.
      specialize (Hlast l eq_refl). apply Forall_cons in Hlast as [[Ha Hb] _]. apply Hb. by apply String.leb_antisym. }
  unfold tail. rewrite parseString_field by lia. simpl in Hf.
  assert (forall l, Some k = Some l -> Forall (fun k => str_le l k /\ l <> k) keys) as Hlast'.
  { intros l [= <-]. apply Forall_forall. intros x Hx. split; [by eapply (proj1 (Forall_forall _ _)) in Hk|].
    intros ->. done. }
  cbn [fold_left]. unfold put_option at 2. fold v. unfold val.
  destruct (v =? "")%string eqn:Ev.
  - apply String.eqb_eq in Ev. rewrite Ev. apply IH; try done; lia.
  - destruct (field_bytes (VString v)) as [|c' s'] eqn:Ef; [by apply (f_equal slen) in Ef; rewrite field_string_slen in Ef; pose proof (slen_nonneg v); unfold slen at 2 in Ef; simpl in Ef; lia|].
    rewrite <- Ef. rewrite <- (string_app_nil_r (field_bytes (VString v))).
    assert (slen val = 4 + slen v) as Hv by (unfold val; rewrite <- Ef; apply field_string_slen).
    rewrite parseString_field by (unfold slen at 2; simpl; lia). apply IH; try done; lia.
Qed.

Lemma fold_put_lookup tups keys acc k :
  fold_left (put_option tups) keys acc !! k = if decide (k ∈ keys) then Some (default "" (tups !! k)) else acc !! k.
Proof.
  revert acc. induction keys as [|x keys IH]; intros acc; cbn [fold_left].
  - rewrite decide_False; [done|]. apply not_elem_of_nil.
  - rewrite IH. destruct (decide (k ∈ keys)) as [Hk|Hk].
    + rewrite decide_True; [done|]. by right.
    + unfold put_option. destruct (decide (k = x)) as [->|Hne].
      * rewrite decide_True by left. by rewrite lookup_insert_eq.
      * rewrite decide_False by (rewrite elem_of_cons; naive_solver). by rewrite lookup_insert_ne.
Qed.

Lemma tuples_length tups keys : Z.of_nat (List.length keys) <= slen (tuples_bytes tups keys).
Proof.
  induction keys as [|k keys IH]; [done|]. rewrite tuples_bytes_cons, slen_app. unfold tuple_bytes.
  rewrite slen_app, !field_string_slen. simpl List.length. pose proof (slen_nonneg k).
  case_match; pose proof (slen_nonneg (field_bytes (VString (default "" (tups !! k))))); [change (slen "") with 0|]; lia.
Qed.

(** Options are read back as they were written, whatever order the map has. *)
Lemma parseTuples_marshalTuples tups :
  slen (marshalTuples tups) < 2 ^ 32 -> parseTuples (marshalTuples tups) = Ok tups.
Proof.
  intros Hl. unfold parseTuples. rewrite marshalTuples_eq in *.
  destruct (sorted_keys_spec tups) as (Hs & Hn & Hk).
  rewrite tuples_loop_bytes; try done.
  - f_equal. apply map_eq. intros k. rewrite fold_put_lookup, lookup_empty.
    destruct (decide (k ∈ sorted_keys tups)) as [H|H].
    + apply Hk in H as [v ->]. done.
    + rewrite Hk in H. destruct (tups !! k) eqn:E; [|done]. destruct H. by eexists.
  - pose proof (tuples_length tups (sorted_keys tups)). unfold slen in *. lia.
Qed.

(** ** Keys are read back as they were written *)

Section Roundtrip.
Context (ecMarshal : Z -> Z -> Z -> string) (ecUnmarshal : Z -> string -> option (Z * Z)).
Abbreviation KeyMarshal := (KeyMarshal ecMarshal).
Abbreviation CertMarshal := (CertMarshal ecMarshal).
Abbreviation parsePubKey := (parsePubKey ecUnmarshal).
Abbreviation ParsePublicKey := (ParsePublicKey ecUnmarshal).

(** A key whose numbers are in range; a point is one that is read back. *)
Definition wf_plain (k : PublicKey) : Prop :=
  match k with
  | RSA E N => 3 <= E < 2 ^ 24 /\ Z.even E = false
  | DSA P Q G Y => True
  | ECDSA bits X Y => bits ∈ [256; 384; 521] /\ ecUnmarshal bits (ecMarshal bits X Y) = Some (X, Y)
  | ED25519 _ => True
  | CertKey _ => False
  end.
Fixpoint wf_key (k : PublicKey) : Prop :=
  match k with
  | CertKey c => wf_cert c
  | k => wf_plain k
  end
with wf_cert (c : Certificate) : Prop :=
  match c with
  | mkCert _ key serial certType _ _ after before _ _ _ signatureKey signature =>
      wf_plain key /\ (forall b, KeyMarshal key = Ok b -> slen b < 2 ^ 32) /\ 0 <= serial < 2 ^ 64 /\ in_uint32 certType /\ 0 <= after < 2 ^ 64 /\ 0 <= before < 2 ^ 64 /\
      wf_key signatureKey /\ signature <> None
  end.

(** Untagged structs with a rest, as the parsers of keys use them. *)
Lemma Unmarshal_rest name fs vs rest :
  typed_fields fs vs -> forallb (fun f => negb (bool_decide (f.2 = KRest))) fs = true ->
  slen (fields_bytes vs) + slen rest < 2 ^ 32 -> fields_bytes vs +:+ rest <> "" ->
  Unmarshal (fields_bytes vs +:+ rest) (mkType name [] (fs ++ [("Rest", KRest)])) = Ok (vs ++ [VRest rest]).
Proof.
  intros Ht Hf Hl Hne.
  assert (fields_bytes (vs ++ [VRest rest]) = fields_bytes vs +:+ rest) as E.
  { clear. induction vs as [|v vs IH]; cbn [app fields_bytes]; [by rewrite string_app_nil_r|]. by rewrite IH, string_app_assoc. }
  rewrite <- E in *. apply Unmarshal_untagged; [| |by rewrite E, slen_app|done].
  - apply Forall2_app; [done|]. by apply Forall2_cons.
  - clear -Hf. induction fs as [|[n k] fs IH]; [done|]. simpl in *. apply andb_true_iff in Hf as [H1 H2].
    destruct (fs ++ _) eqn:E; [by destruct fs|]. rewrite H1. by apply IH.
Qed.

Ltac read_rest fs vs rest :=
  let U := fresh "U" in pose proof (Unmarshal_rest "" fs vs rest) as U; cbn [app] in U; rewrite U; clear U.

(** The body of a key: what follows its name. *)
Lemma plain_key k :
  wf_plain k ->
  exists ty body, Type_ k = Ok ty /\ KeyMarshal k = Ok (field_bytes (VString ty) +:+ body) /\
    is_Some (cert_algo certAlgoNames ty) /\ slen ty <= 19 /\
    forall fuel rest, slen body + slen rest < 2 ^ 32 -> parsePubKey (S fuel) (body +:+ rest) ty = Ok (k, rest).
Proof.
  destruct k as [E N|P Q G Y|bits X Y|b|c]; intros Hw; [| | | |done].
  - exists KeyAlgoRSA, (fields_bytes [VInt E; VInt N]). destruct Hw as [HE Ho]. split_and!; try done.
    { cbn [KeyMarshal]. unfold rsa_Marshal, dsa_Marshal, ed25519_Marshal. rewrite Marshal_untagged. done. }
    intros fuel rest Hl. unfold parsePubKey. cbn [Keys.parsePubKey]. change (KeyAlgoRSA =? KeyAlgoRSA)%string with true.
    cbn iota. unfold parseRSA.
    read_rest [("E", KInt); ("N", KInt)] [VInt E; VInt N] rest; try done; try (by repeat constructor).
    cbn [obind app]. replace (24 <? BitLen E) with false.
    2:{ symmetry. apply Z.ltb_ge. unfold BitLen. replace (E =? 0) with false by (symmetry; apply Z.eqb_neq; lia).
          rewrite Z.abs_eq by lia. enough (Z.log2 E < 24) by lia. apply Z.log2_lt_pow2; lia. }
    rewrite Ho. by replace (E <? 3) with false by (symmetry; apply Z.ltb_ge; lia).
  - exists KeyAlgoDSA, (fields_bytes [VInt P; VInt Q; VInt G; VInt Y]). split_and!; try done.
    { cbn [KeyMarshal]. unfold rsa_Marshal, dsa_Marshal, ed25519_Marshal. rewrite Marshal_untagged. done. }
    intros fuel rest Hl. cbn [Keys.parsePubKey]. change (KeyAlgoDSA =? KeyAlgoRSA)%string with false.
    change (KeyAlgoDSA =? KeyAlgoDSA)%string with true. cbn iota. unfold parseDSA.
    read_rest [("P", KInt); ("Q", KInt); ("G", KInt); ("Y", KInt)] [VInt P; VInt Q; VInt G; VInt Y] rest; try done; try (by repeat constructor).
  - destruct Hw as [Hb He].
    assert (exists id ty, nistID bits = Ok id /\ ty = "ecdsa-sha2-" +:+ id /\ curve_bits id = Some bits /\
      is_Some (cert_algo certAlgoNames ty) /\ slen ty <= 19 /\
      (forall fuel data, parsePubKey (S fuel) data ty = parseECDSA ecUnmarshal data)) as (id & ty & Hid & Hty & Hcb & Hca & Hsl & Hp).
    { repeat (apply elem_of_cons in Hb as [->|Hb]; [do 2 eexists; split_and!; [reflexivity..|by eexists|vm_compute; congruence|reflexivity]|]).
      by apply elem_of_nil in Hb. }
    exists ty, (fields_bytes [VString id; VBytes (ecMarshal bits X Y)]). split_and!; try done.
    { cbn [Type_]. rewrite Hid. cbn [obind]. by rewrite Hty. }
    { cbn [KeyMarshal]. unfold ecdsa_Marshal. rewrite Hid. cbn [obind]. rewrite Marshal_untagged, Hty. done. }
    intros fuel rest Hl. rewrite Hp. unfold parseECDSA.
    read_rest [("Curve", KString); ("KeyBytes", KBytes)] [VString id; VBytes (ecMarshal bits X Y)] rest; try done; try (by repeat constructor).
    cbn [obind app]. by rewrite Hcb, He.
  - exists KeyAlgoED25519, (fields_bytes [VBytes b]). split_and!; try done.
    { cbn [KeyMarshal]. unfold rsa_Marshal, dsa_Marshal, ed25519_Marshal. rewrite Marshal_untagged. done. }
    intros fuel rest Hl. cbn [Keys.parsePubKey].
    change (parseED25519 (fields_bytes [VBytes b] +:+ rest) = Ok (ED25519 b, rest)). unfold parseED25519.
    read_rest [("KeyBytes", KBytes)] [VBytes b] rest; try done; try (by repeat constructor).
Qed.

(** A key as it is written, and that any parser with enough fuel reads it. *)
Definition readable (k : PublicKey) : Prop :=
  exists ty body, Type_ k = Ok ty /\ KeyMarshal k = Ok (field_bytes (VString ty) +:+ body) /\
    slen ty <= 40 /\
    forall fuel, slen (field_bytes (VString ty) +:+ body) < 2 ^ 32 -> slen body < Z.of_nat fuel ->
      parsePubKey fuel body ty = Ok (k, "").

Lemma readable_public k b fuel :
  readable k -> KeyMarshal k = Ok b -> slen b < 2 ^ 32 -> slen b <= Z.of_nat fuel ->
  parse_public (parsePubKey fuel) b = Ok k.
Proof.
  intros (ty & body & _ & Hk & _ & Hp) Hb Hl Hf.
  assert (b = field_bytes (VString ty) +:+ body) as -> by congruence. unfold parse_public.
  rewrite slen_app, field_string_slen in Hl, Hf. pose proof (slen_nonneg ty).
  rewrite parseString_field by lia. rewrite Hp by (rewrite ?slen_app, ?field_string_slen; lia). done.
Qed.

(** The certificate algorithms and the keys they stand for. *)
Lemma cert_algo_in l ty algo : cert_algo l ty = Some algo -> (ty, algo) ∈ l.
Proof.
  induction l as [|[k c] l IH]; cbn [cert_algo]; [done|]. destruct (k =? ty)%string eqn:E.
  - intros [= ->]. apply String.eqb_eq in E as ->. left.
  - right. auto.
Qed.

Lemma cert_algo_cases ty algo :
  cert_algo certAlgoNames ty = Some algo ->
  slen algo <= 40 /\ certToPrivAlgo algo = Ok ty /\
  forall fuel data, parsePubKey (S fuel) data algo =
    (let? cert := parse_cert (parsePubKey fuel) data ty in Ok (CertKey cert, "")).
Proof.
  intros H%cert_algo_in. unfold certAlgoNames in H.
  repeat (apply elem_of_cons in H as [H|H];
    [injection H as -> ->; split; [vm_compute; congruence|split; [reflexivity|reflexivity]]|]).
  by apply elem_of_nil in H.
Qed.

Definition generic_values (c : Certificate) (sigKey sig : string) : list value :=
  [VUint64 (Serial c); VUint32 (CertType c); VString (KeyId c); VBytes (marshalStringList (ValidPrincipals c));
   VUint64 (ValidAfter c); VUint64 (ValidBefore c); VBytes (marshalTuples (CriticalOptions c));
   VBytes (marshalTuples (Extensions c)); VBytes (Reserved c); VBytes sigKey; VBytes sig].

Definition signature_bytes (s : option Signature) : string :=
  match s with Some s => field_bytes (VString (Format s)) +:+ field_bytes (VString (Blob s)) | None => "" end.

Lemma CertMarshal_unfold c :
  CertMarshal c =
    (let? sigKey := KeyMarshal (SignatureKey c) in
     let? keyBytes := KeyMarshal (Key c) in
     let? name := cert_Type c in
     Ok (Marshal certPrefix [VString name; VBytes (Nonce c);
                             VRest (match parseString keyBytes with Some (_, rest) => rest | None => "" end)] +:+
         Marshal genericCertData (generic_values c sigKey
           match CertSignature c with
           | Some s => Marshal signatureStruct [VString (Format s); VBytes (Blob s)]
           | None => "" end))).
Proof. by destruct c. Qed.

(** A certificate as it is written. *)
Lemma CertMarshal_eq c ty body algo sk :
  KeyMarshal (Key c) = Ok (field_bytes (VString ty) +:+ body) -> Type_ (Key c) = Ok ty ->
  cert_algo certAlgoNames ty = Some algo -> KeyMarshal (SignatureKey c) = Ok sk -> slen ty + slen body < 2 ^ 32 ->
  cert_Type c = Ok algo /\
  CertMarshal c = Ok (field_bytes (VString algo) +:+ field_bytes (VBytes (Nonce c)) +:+ body +:+
                      fields_bytes (generic_values c sk (signature_bytes (CertSignature c)))).
Proof.
  intros Hk Ht Ha Hsk Hl. assert (cert_Type c = Ok algo) as Hct.
  { destruct c. cbn [cert_Type Key] in *. rewrite Ht. cbn [obind]. by rewrite Ha. }
  split; [done|]. rewrite CertMarshal_unfold, Hsk. cbn [obind]. rewrite Hk. cbn [obind].
  rewrite parseString_field by lia. rewrite Hct. cbn [obind]. unfold certPrefix, genericCertData.
  rewrite !Marshal_untagged. cbn [fields_bytes]. f_equal. rewrite !string_app_assoc. do 2 f_equal.
  change (field_bytes (VRest body)) with body. f_equal. rewrite string_app_nil_l. do 2 f_equal.
  destruct (CertSignature c) as [s|]; [|done]. unfold signatureStruct. rewrite Marshal_untagged.
  cbn [fields_bytes signature_bytes]. by rewrite string_app_nil_r.
Qed.

Lemma parse_signature s :
  slen (signature_bytes (Some s)) < 2 ^ 32 -> parseSignatureBody (signature_bytes (Some s)) = Some (s, "").
Proof.
  cbn [signature_bytes]. rewrite slen_app, !field_string_slen. intros H.
  pose proof (slen_nonneg (Format s)). pose proof (slen_nonneg (Blob s)). unfold parseSignatureBody.
  rewrite parseString_field by (rewrite field_string_slen; lia).
  rewrite <- (string_app_nil_r (field_bytes (VString (Blob s)))).
  rewrite parseString_field by (change (slen "") with 0; lia). by destruct s.
Qed.

(** The fields of a certificate that follow the key. *)
Lemma generic_typed c sk sig :
  0 <= Serial c < 2 ^ 64 -> in_uint32 (CertType c) -> 0 <= ValidAfter c < 2 ^ 64 -> 0 <= ValidBefore c < 2 ^ 64 ->
  slen (fields_bytes (generic_values c sk sig)) < 2 ^ 32 ->
  Unmarshal (fields_bytes (generic_values c sk sig)) genericCertData = Ok (generic_values c sk sig) /\
  slen (marshalStringList (ValidPrincipals c)) < 2 ^ 32 /\ slen (marshalTuples (CriticalOptions c)) < 2 ^ 32 /\
  slen (marshalTuples (Extensions c)) < 2 ^ 32 /\ slen sig < 2 ^ 32 /\
  slen sk < slen (fields_bytes (generic_values c sk sig)).
Proof.
  intros H1 H2 H3 H4 Hl.
  assert (slen (fields_bytes (generic_values c sk sig)) =
    8 + 4 + (4 + slen (KeyId c)) + (4 + slen (marshalStringList (ValidPrincipals c))) + 8 + 8 +
    (4 + slen (marshalTuples (CriticalOptions c))) + (4 + slen (marshalTuples (Extensions c))) +
    (4 + slen (Reserved c)) + (4 + slen sk) + (4 + slen sig)) as E.
  { unfold generic_values. cbn [fields_bytes]. rewrite !slen_app, !field_VBytes, !field_string_slen.
    unfold field_bytes; cbn [marshalField]. unfold appendU64, appendU32. rewrite !slen_app, !slen_be_bytes.
    change (slen "") with 0. lia. }
  pose proof (slen_nonneg (KeyId c)). pose proof (slen_nonneg (marshalStringList (ValidPrincipals c))).
  pose proof (slen_nonneg (marshalTuples (CriticalOptions c))). pose proof (slen_nonneg (marshalTuples (Extensions c))).
  pose proof (slen_nonneg (Reserved c)). pose proof (slen_nonneg sk). pose proof (slen_nonneg sig).
  split_and!; try lia. apply Unmarshal_untagged; try done.
  unfold generic_values, genericCertData. repeat (apply Forall2_cons; split); try done.
Qed.

Lemma readable_plain k : wf_plain k -> readable k.
Proof.
  intros Hw. destruct (plain_key k Hw) as (ty & body & Ht & Hk & _ & Hs & Hp). exists ty, body. split_and!; try done; [lia|].
  intros [|fuel] Hl Hf; [pose proof (slen_nonneg body); lia|]. rewrite <- (string_app_nil_r body). apply Hp.
  rewrite slen_app in Hl. pose proof (slen_nonneg (field_bytes (VString ty))). change (slen "") with 0. lia.
Qed.

Lemma readable_cert c : wf_cert c -> readable (SignatureKey c) -> readable (CertKey c).
Proof.
  intros Hw Hr.
  assert (wf_plain (Key c) /\ (forall b, KeyMarshal (Key c) = Ok b -> slen b < 2 ^ 32) /\
    0 <= Serial c < 2 ^ 64 /\ in_uint32 (CertType c) /\ 0 <= ValidAfter c < 2 ^ 64 /\
    0 <= ValidBefore c < 2 ^ 64 /\ CertSignature c <> None) as (Hk & Hsz & H1 & H2 & H3 & H4 & Hs)
    by (destruct c; cbn in *; tauto).
  destruct (plain_key _ Hk) as (ty & body & Ht & Hkm & [algo Ha] & Hts & Hp).
  apply Hsz in Hkm as Hkl. rewrite slen_app, field_string_slen in Hkl.
  destruct (cert_algo_cases ty algo Ha) as (Hal & Hpriv & Hparse).
  destruct (CertSignature c) as [sig|] eqn:Esig; [|done]. set (sb := signature_bytes (Some sig)).
  pose proof Hr as (sty & sbody & _ & Hsk & _). set (sk := field_bytes (VString sty) +:+ sbody) in *.
  set (gen := fields_bytes (generic_values c sk sb)).
  destruct (CertMarshal_eq c ty body algo sk Hkm Ht Ha Hsk) as [Hct Hcm]; [pose proof (slen_nonneg ty); lia|].
  rewrite Esig in Hcm. fold sb in Hcm. fold gen in Hcm.
  exists algo, (field_bytes (VBytes (Nonce c)) +:+ body +:+ gen). split_and!; [by cbn|exact Hcm|done|].
  intros fuel Hl Hf. rewrite field_VBytes, !slen_app, !field_string_slen in *.
  pose proof (slen_nonneg algo). pose proof (slen_nonneg (Nonce c)). pose proof (slen_nonneg body). pose proof (slen_nonneg gen).
  destruct (generic_typed c sk sb H1 H2 H3 H4 ltac:(fold gen; lia)) as (Hg & Hpr & Hco & Hex & Hsb & Hskl).
  destruct fuel as [|[|fuel]]; [lia|lia|]. rewrite Hparse. unfold parse_cert.
  rewrite parseString_field by (rewrite slen_app; lia). rewrite Hp by lia. cbn [obind].
  fold gen in Hg. rewrite Hg. cbn [obind generic_values].
  rewrite parse_principals_list; [|lia|pose proof (marshalStringList_length (ValidPrincipals c)); unfold slen in *; lia].
  cbn [obind]. rewrite !parseTuples_marshalTuples by lia. cbn [obind].
  rewrite (readable_public (SignatureKey c)); [|done|done|fold gen in Hskl; lia|fold gen in Hskl; lia]. cbn [obind].
  unfold sb. rewrite parse_signature by done. clear -Esig. destruct c. cbn in Esig |- *. by subst.
Qed.

Lemma wf_readable k : wf_key k -> readable k.
Proof.
  revert k. fix IH 1. intros [E N|P Q G Y|bits X Y|b|c] Hw; [by apply readable_plain..|].
  destruct c as [n key se t i p a b o e r sigkey s] eqn:E. apply readable_cert; [exact Hw|].
  apply IH. cbn in Hw |- *. tauto.
Qed.

Lemma wf_read k b : wf_key k -> KeyMarshal k = Ok b -> slen b < 2 ^ 32 -> ParsePublicKey b = Ok k.
Proof. intros Hw Hb Hl. apply readable_public; [by apply wf_readable|done..|]. unfold slen. lia. Qed.

(** C14: Every key and every certificate, signed by a key or again by a
    certificate, is read back as it was written; its fields, the lists and the
    maps of options included, are all in the bytes. *)
Theorem public_key_roundtrip k :
  wf_key k -> exists b, KeyMarshal k = Ok b /\ (slen b < 2 ^ 32 -> ParsePublicKey b = Ok k).
Proof.
  intros Hw. destruct (wf_readable _ Hw) as (ty & body & _ & Hk & _). eexists. split; [exact Hk|]. by apply wf_read.
Qed.

(** A certificate is the signed part and its signature. *)
Lemma signed_part c b :
  wf_cert c -> CertMarshal c = Ok b -> slen b < 2 ^ 32 ->
  exists data, bytesForSigning ecMarshal c = Ok data /\ b = data +:+ field_bytes (VString (signature_bytes (CertSignature c))).
Proof.
  intros Hw Hb Hl.
  assert (wf_plain (Key c) /\ (forall b, KeyMarshal (Key c) = Ok b -> slen b < 2 ^ 32) /\ wf_key (SignatureKey c)) as (Hk & Hsz & Hsk)
    by (destruct c; cbn in *; tauto).
  destruct (plain_key _ Hk) as (ty & body & Ht & Hkm & [algo Ha] & _).
  apply Hsz in Hkm as Hkl. rewrite slen_app, field_string_slen in Hkl. pose proof (slen_nonneg ty).
  apply wf_readable in Hsk as (sty & sbody & _ & Hskm & _). set (sk := field_bytes (VString sty) +:+ sbody) in *.
  destruct (CertMarshal_eq c ty body algo sk Hkm Ht Ha Hskm) as [_ Hc]; [lia|]. rewrite Hc in Hb. apply Ok_inj in Hb. subst b.
  set (c0 := set_Signature None c).
  destruct (CertMarshal_eq c0 ty body algo sk) as [_ Hc0]; [by destruct c..|lia|].
  unfold bytesForSigning. fold c0. rewrite Hc0. cbn [obind].
  set (pre := fields_bytes (removelast (generic_values c sk ""))).
  assert (forall s, fields_bytes (generic_values c sk s) = pre +:+ field_bytes (VString s)) as Hgen.
  { intros s. unfold pre, generic_values. cbn [removelast fields_bytes]. rewrite !string_app_assoc, !string_app_nil_r. done. }
  replace (fields_bytes (generic_values c0 sk (signature_bytes (CertSignature c0)))) with (pre +:+ be_bytes 4 0).
  2:{ transitivity (fields_bytes (generic_values c sk "")); [by rewrite Hgen|]. unfold c0. by destruct c. }
  replace (Nonce c0) with (Nonce c) by (unfold c0; by destruct c). rewrite Hgen.
  rewrite <- !string_app_assoc. set (data := ((_ +:+ _) +:+ _) +:+ pre).
  exists data. split; [|done]. rewrite slen_app, slen_be_bytes. pose proof (slen_nonneg data).
  destruct (_ <? 4) eqn:E; [z_prop; lia|]. rewrite string_app_length, be_bytes_length, Nat.add_sub. by rewrite stake_app.
Qed.
End Roundtrip.

(** ** Any bytes at all *)

(** Nothing that is read is longer than what it is read from. *)
Definition content_size (v : value) : Z :=
  match v with VString s | VBytes s | VRest s => slen s | _ => 0 end.

Lemma slen_stake_le n s : slen (stake n s) <= slen s.
Proof. unfold slen. rewrite stake_length. lia. Qed.
Lemma slen_sdrop_le n s : slen (sdrop n s) <= slen s.
Proof. pose proof (stake_sdrop n s) as E. rewrite <- E at 2. rewrite slen_app. pose proof (slen_nonneg (stake n s)). lia. Qed.

Lemma parseString_size data s rest :
  parseString data = Some (s, rest) -> slen s + slen rest + 4 = slen data.
Proof.
  unfold parseString. cbv zeta. destruct (slen data <? 4) eqn:E; [done|]. z_prop.
  pose proof (stake_sdrop 4 data) as Ed. apply (f_equal slen) in Ed. rewrite slen_app in Ed.
  assert (slen (stake 4 data) = 4) as E4 by (unfold slen in *; rewrite stake_length; lia).
  set (d := sdrop 4 data) in *. clearbody d. destruct (to_uint32 _ <? _); [done|].
  intros H. injection H as Hs Hr. subst s rest. rewrite <- slen_app, stake_sdrop. lia.
Qed.

Lemma unmarshalField_size t name k data v rest :
  unmarshalField t name k data = Ok (v, rest) -> content_size v <= slen data /\ slen rest <= slen data.
Proof.
  pose proof (slen_nonneg data) as Hd.
  assert (forall s r, parseString data = Some (s, r) -> slen s <= slen data /\ slen r <= slen data) as Hp.
  { intros s r H%parseString_size. pose proof (slen_nonneg s). pose proof (slen_nonneg r). lia. }
  destruct k; cbn [unmarshalField].
  - destruct data as [|c d]; [done|]. intros [= <- <-]. simpl. unfold slen in *; simpl in *. lia.
  - destruct (_ <? _)%nat; [done|]. intros [= <- <-]. split; [simpl; lia|apply slen_sdrop_le].
  - unfold parseUint64. pose proof (slen_sdrop_le 8 data). set (d := sdrop 8 data) in *. clearbody d.
    destruct (slen data <? 8); [done|]. intros [= <- <-]. by split.
  - unfold parseUint32. pose proof (slen_sdrop_le 4 data). set (d := sdrop 4 data) in *. clearbody d.
    destruct (slen data <? 4); [done|]. intros [= <- <-]. by split.
  - destruct data as [|c d]; [done|]. intros [= <- <-]. simpl. unfold slen in *; simpl in *. lia.
  - destruct (parseString data) as [[s r]|] eqn:E; [|done]. intros [= <- <-]. by apply Hp.
  - destruct (parseString data) as [[s r]|] eqn:E; [|done]. intros [= <- <-]. by apply Hp.
  - intros [= <- <-]. change (slen "") with 0. simpl. lia.
  - unfold parseNameList. destruct (parseString data) as [[s r]|] eqn:E; [|done].
    destruct (Hp _ _ eq_refl). destruct (s =? "")%string; intros [= <- <-]; simpl; lia.
  - unfold parseInt. destruct (parseString data) as [[s r]|] eqn:E; [|done].
    destruct (Hp _ _ eq_refl). intros [= <- <-]; simpl; lia.
Qed.

Lemma unmarshalFields_size t fs data vs rest :
  unmarshalFields t fs data = Ok (vs, rest) -> Forall (fun v => content_size v <= slen data) vs.
Proof.
  revert data vs rest. induction fs as [|[n k] fs IH]; intros data vs rest; cbn [unmarshalFields].
  - intros [= <- _]. by apply List.Forall_nil.
  - intros H. apply obind_ok in H as ([v d] & H1 & H). apply obind_ok in H as ([vs' d'] & H2 & H). injection H as <- <-.
    apply unmarshalField_size in H1 as [Hv Hd]. apply Forall_cons. split; [done|].
    eapply Forall_impl; [by eapply IH|]. simpl. intros x Hx. lia.
Qed.

Lemma Unmarshal_size data t vs : Unmarshal data t = Ok vs -> Forall (fun v => content_size v <= slen data) vs.
Proof.
  unfold Unmarshal. destruct (bool_decide _); [done|]. destruct data as [|c data]; [done|]. intros H. apply obind_ok in H as (d & Hd & H).
  apply obind_ok in H as ([vs' r] & H1 & H). destruct (r =? "")%string; [|done]. injection H as <-.
  apply unmarshalFields_size in H1. assert (slen d <= slen (String c data)) as Hl.
  { destruct (typeTags t); [by injection Hd as <-|]. destruct (goodType _ _); [|done]. injection Hd as <-.
    unfold slen; simpl; lia. }
  eapply Forall_impl; [exact H1|]. simpl. intros x Hx. lia.
Qed.

(** The fields of a struct that was read: their kinds and their sizes. *)
Lemma Unmarshal_returns data t : t_fields t <> [] ->
  returns (Unmarshal data t) (fun vs => fields_of t vs /\ Forall (fun v => content_size v <= slen data) vs).
Proof.
  intros Hne. pose proof (Unmarshal_fields data t Hne) as H. destruct (Unmarshal data t) eqn:E; [|done..].
  split; [exact H|by eapply Unmarshal_size].
Qed.

Ltac take_fields H :=
  repeat (apply Forall2_cons_inv_l in H as (? & ? & ? & H & ->));
  apply Forall2_nil_inv_l in H as ->;
  repeat match goal with Hk : has_kind _ ?v = true |- _ => destruct v; try discriminate Hk; clear Hk end.

Lemma parse_principals_returns fuel s :
  slen s < Z.of_nat fuel -> returns (parse_principals fuel s) (fun _ => True).
Proof.
  revert s. induction fuel as [|fuel IH]; intros s Hf; [pose proof (slen_nonneg s); lia|].
  destruct s as [|c s]; [done|]. cbn [parse_principals]. destruct (parseString (String c s)) as [[p r]|] eqn:E; [|done].
  apply parseString_size in E. pose proof (slen_nonneg p).
  eapply returns_bind; [apply IH; lia|done].
Qed.

Lemma tuples_loop_returns fuel s last m :
  slen s < Z.of_nat fuel -> returns (tuples_loop fuel s last m) (fun _ => True).
Proof.
  revert s last m. induction fuel as [|fuel IH]; intros s last m Hf; [pose proof (slen_nonneg s); lia|].
  destruct s as [|c s]; [done|]. cbn [tuples_loop]. destruct (parseString (String c s)) as [[k r]|] eqn:E; [|done].
  apply parseString_size in E. pose proof (slen_nonneg k).
  destruct (match last with Some _ => _ | None => _ end); [done|].
  destruct (parseString r) as [[v r']|] eqn:E2; [|done]. apply parseString_size in E2. pose proof (slen_nonneg v).
  destruct v as [|c' v]; [apply IH; lia|]. destruct (parseString (String c' v)) as [[v' [|]]|]; [|done..]. apply IH. lia.
Qed.

Lemma parseTuples_returns s : returns (parseTuples s) (fun _ => True).
Proof. apply tuples_loop_returns. unfold slen. lia. Qed.

Section Any.
Context (ecUnmarshal : Z -> string -> option (Z * Z)).
Abbreviation parsePubKey := (parsePubKey ecUnmarshal).

(** A parser of keys that returns, and returns no more than it was given. *)
Definition bounded_parser (parse : string -> string -> outcome (PublicKey * string)) (n : Z) : Prop :=
  forall data algo, slen data <= n -> returns (parse data algo) (fun r => slen r.2 <= slen data).

Lemma plain_parsers_return data :
  returns (parseRSA data) (fun r => slen r.2 <= slen data) /\ returns (parseDSA data) (fun r => slen r.2 <= slen data) /\
  returns (parseECDSA ecUnmarshal data) (fun r => slen r.2 <= slen data) /\
  returns (parseED25519 data) (fun r => slen r.2 <= slen data).
Proof.
  split_and!; unfold parseRSA, parseDSA, parseECDSA, parseED25519;
    (eapply returns_bind; [by apply Unmarshal_returns|]); intros vs [Hf Hs]; unfold fields_of in Hf; simpl in Hf; take_fields Hf;
    repeat (apply Forall_cons in Hs as [? Hs]); simpl in *; try done.
  - destruct (24 <? _); [done|]. by destruct (_ || _).
  - destruct (curve_bits _); [|done]. by destruct (ecUnmarshal _ _) as [[]|].
Qed.

Lemma parse_public_returns parse data n :
  bounded_parser parse n -> slen data <= n + 4 -> returns (parse_public parse data) (fun _ => True).
Proof.
  intros Hp Hn. unfold parse_public. destruct (parseString data) as [[algo r]|] eqn:E; [|done].
  apply parseString_size in E. pose proof (slen_nonneg algo).
  eapply returns_bind; [apply Hp; lia|]. intros [k rest] _. by destruct (rest =? "")%string.
Qed.

Lemma parse_cert_returns parse data algo n :
  bounded_parser parse n -> slen data <= n + 4 -> returns (parse_cert parse data algo) (fun _ => True).
Proof.
  intros Hp Hn. unfold parse_cert. destruct (parseString data) as [[nonce r]|] eqn:E; [|done].
  apply parseString_size in E. pose proof (slen_nonneg nonce). pose proof (slen_nonneg r).
  eapply returns_bind; [apply Hp; lia|]. intros [key rest] Hr. simpl in Hr.
  eapply returns_bind; [by apply Unmarshal_returns|]. intros vs [Hf Hs]. unfold fields_of in Hf; simpl in Hf. take_fields Hf.
  repeat (apply Forall_cons in Hs as [? Hs]). cbn [content_size] in *.
  eapply returns_bind; [apply parse_principals_returns; unfold slen; lia|]. intros principals _.
  eapply returns_bind; [apply parseTuples_returns|]. intros options _.
  eapply returns_bind; [apply parseTuples_returns|]. intros extensions _.
  eapply returns_bind; [eapply (parse_public_returns _ _ n); [exact Hp|lia]|]. intros k _.
  by destruct (parseSignatureBody _) as [[? [|]]|].
Qed.

Lemma parsePubKey_returns fuel : bounded_parser (parsePubKey (S fuel)) (Z.of_nat fuel).
Proof.
  induction fuel as [|fuel IH]; intros data algo Hd; cbn [Keys.parsePubKey];
    destruct (plain_parsers_return data) as (H1 & H2 & H3 & H4);
    (destruct (algo =? KeyAlgoRSA)%string; [done|]); (destruct (algo =? KeyAlgoDSA)%string; [done|]);
    (destruct (_ || _); [done|]); (destruct (algo =? KeyAlgoED25519)%string; [done|]);
    (destruct (priv_algo certAlgoNames algo) as [p|] eqn:Ep; [|done]); unfold certToPrivAlgo; rewrite Ep; cbn [obind].
  - pose proof (slen_nonneg data). apply (returns_bind _ _ (fun _ => True)); [|intros c _; simpl; apply slen_nonneg].
    unfold parse_cert. destruct (parseString data) as [[n r]|] eqn:E; [|done].
    apply parseString_size in E. pose proof (slen_nonneg n). pose proof (slen_nonneg r). lia.
  - apply (returns_bind _ _ (fun _ => True)); [|intros c _; simpl; apply slen_nonneg].
    eapply parse_cert_returns; [exact IH|lia].
Qed.

Lemma read_returns data : returns (ParsePublicKey ecUnmarshal data) (fun _ => True).
Proof.
  unfold ParsePublicKey. eapply parse_public_returns; [apply parsePubKey_returns|]. unfold slen. lia.
Qed.

(** Whatever bytes come from the other end, reading a public key from them
    ends, within the depth that their number bounds, with a key or an error:
    no panic, and no endless chain of certificates. *)
Theorem ParsePublicKey_returns data : returns (ParsePublicKey ecUnmarshal data) (fun _ => True).
Proof. apply read_returns. Qed.
End Any.

(** ** What makes a certificate acceptable *)

Section Checker.
Context (ecMarshal : Z -> Z -> Z -> string).
Context (rsa_verify : Z -> Z -> string -> string -> error_)
        (dsa_verify : Z -> Z -> Z -> Z -> string -> Z -> Z -> bool)
        (ecdsa_verify : Z -> Z -> Z -> string -> Z -> Z -> bool)
        (ed25519_equation : string -> string -> string -> bool).
Abbreviation Verify := (Verify rsa_verify dsa_verify ecdsa_verify ed25519_equation).
Abbreviation CheckCert := (CheckCert ecMarshal rsa_verify dsa_verify ecdsa_verify ed25519_equation).
Abbreviation CheckHostKey := (CheckHostKey ecMarshal rsa_verify dsa_verify ecdsa_verify ed25519_equation).
Abbreviation Authenticate := (Authenticate ecMarshal rsa_verify dsa_verify ecdsa_verify ed25519_equation).

Lemma in_list_spec l x : in_list l x = true <-> x ∈ l.
Proof.
  unfold in_list. rewrite existsb_exists. setoid_rewrite String.eqb_eq. rewrite list_elem_of_In. naive_solver.
Qed.

Lemma unsupported_none c opts :
  unsupported c opts = None <->
  forall o, o ∈ opts -> o = sourceAddressCriticalOption \/ o ∈ SupportedCriticalOptions c.
Proof.
  unfold unsupported. induction opts as [|o opts IH]; simpl.
  - split; [|done]. by intros _ o ?%elem_of_nil.
  - destruct (o =? sourceAddressCriticalOption)%string eqn:E; simpl.
    + rewrite IH. apply String.eqb_eq in E as ->. setoid_rewrite elem_of_cons. naive_solver.
    + apply String.eqb_neq in E. destruct (in_list _ o) eqn:E2; simpl.
      * rewrite IH. apply in_list_spec in E2. setoid_rewrite elem_of_cons. naive_solver.
      * split; [done|]. intros H. destruct (H o) as [?|Hin]; [by left|done|]. apply in_list_spec in Hin. congruence.
Qed.

(** The conditions of [CheckCert], for the options of the certificate in any
    order. *)
Definition acceptable (c : CertChecker) (now : Z) (principal : string) (cert : Certificate) : Prop :=
  match IsRevoked c with Some f => f cert = false | None => True end /\
  (forall o, is_Some (CriticalOptions cert !! o) -> o = sourceAddressCriticalOption \/ o ∈ SupportedCriticalOptions c) /\
  (ValidPrincipals cert = [] \/ principal ∈ ValidPrincipals cert) /\
  ValidAfter cert <= now /\ ValidAfter cert < 2 ^ 63 /\
  (ValidBefore cert = CertTimeInfinity \/ now < ValidBefore cert < 2 ^ 63) /\
  exists data sig, bytesForSigning ecMarshal cert = Ok data /\ CertSignature cert = Some sig /\
    Verify (SignatureKey cert) data sig = Ok tt.

Lemma to_int64_u64 x : 0 <= x < 2 ^ 64 -> to_int64 x = if x <? 2 ^ 63 then x else x - 2 ^ 64.
Proof.
  intros H. destruct (x <? 2 ^ 63) eqn:E; z_prop.
  - apply to_int64_id. unfold in_int64, min_int64, max_int64. lia.
  - unfold to_int64. replace (x + 2 ^ 63) with ((x - 2 ^ 63) + 1 * 2 ^ 64) by lia.
    rewrite Z_mod_plus_full, Z.mod_small by lia. lia.
Qed.

Lemma check_cert c opts now principal cert :
  0 <= ValidAfter cert < 2 ^ 64 -> 0 <= ValidBefore cert < 2 ^ 64 -> 0 <= now < 2 ^ 63 ->
  opts ≡ₚ map fst (map_to_list (CriticalOptions cert)) ->
  CheckCert c opts now principal cert = Ok tt <-> acceptable c now principal cert.
Proof.
  intros Ha Hb Hn Hopts. unfold Keys.CheckCert, acceptable, CertTimeInfinity.
  assert ((forall o, is_Some (CriticalOptions cert !! o) -> o = sourceAddressCriticalOption \/ o ∈ SupportedCriticalOptions c)
    <-> unsupported c opts = None) as ->.
  { rewrite unsupported_none. setoid_rewrite Hopts. setoid_rewrite list_elem_of_fmap. split.
    - intros H o ([k v] & -> & Hin). apply H. apply elem_of_map_to_list in Hin. by exists v.
    - intros H o [v Hv]. apply H. exists (o, v). split; [done|]. by apply elem_of_map_to_list. }
  destruct (match IsRevoked c with Some f => f cert | None => false end) eqn:Er.
  { split; [done|]. intros [H _]. destruct (IsRevoked c); [congruence|done]. }
  assert (match IsRevoked c with Some f => f cert = false | None => True end) as Hr by (by destruct (IsRevoked c)).
  destruct (unsupported c opts); [naive_solver|].
  assert (wrong_principal (ValidPrincipals cert) principal = false <->
    (ValidPrincipals cert = [] \/ principal ∈ ValidPrincipals cert)) as Hwp.
  { unfold wrong_principal. rewrite <- in_list_spec. destruct (ValidPrincipals cert) as [|p l]; [naive_solver|].
    rewrite negb_false_iff. naive_solver. }
  rewrite <- Hwp. destruct (wrong_principal _ _); [naive_solver|].
  rewrite (to_int64_u64 (ValidAfter cert)), (to_int64_u64 (ValidBefore cert)) by done.
  destruct (_ || _) eqn:Eaf.
  { split; [done|]. intros (_ & _ & _ & H1 & H2 & _). apply orb_true_iff in Eaf as [E|E]; case_match; z_prop; lia. }
  apply orb_false_iff in Eaf as [Ea1 Ea2].
  assert (ValidAfter cert <= now /\ ValidAfter cert < 2 ^ 63) as [Haf1 Haf2] by (case_match; z_prop; lia).
  destruct (negb _ && _) eqn:Ebe.
  { split; [done|]. intros (_ & _ & _ & _ & _ & H & _). apply andb_true_iff in Ebe as [E1 E2].
    apply negb_true_iff in E1. apply orb_true_iff in E2. case_match; z_prop; destruct E2 as [E2|E2]; z_prop; lia. }
  assert (ValidBefore cert = 2 ^ 64 - 1 \/ now < ValidBefore cert < 2 ^ 63) as Hbe.
  { apply andb_false_iff in Ebe as [E|E]; [left; apply negb_false_iff in E; by z_prop|right].
    apply orb_false_iff in E as [E1 E2]. case_match; z_prop; lia. }
  destruct (bytesForSigning ecMarshal cert) as [data| | |]; cbn [obind];
    [|split; [done|]; by intros (_ & _ & _ & _ & _ & _ & ? & ? & ? & _)..].
  destruct (CertSignature cert) as [sig|]; [|split; [done|]; by intros (_ & _ & _ & _ & _ & _ & ? & ? & _ & ? & _)].
  split.
  - intros H. split_and!; try done. exists data, sig. split_and!; try done.
    destruct (Verify (SignatureKey cert) data sig) as [[]| | |]; congruence.
  - intros (_ & _ & _ & _ & _ & _ & d & s & [= <-] & [= <-] & ->). done.
Qed.

(** C28: A user is let in by a certificate exactly when it is a user certificate
    of a recognised authority, not revoked, for that user, within its time, with
    no option that nothing enforces, and with a signature of the authority that
    verifies; otherwise nothing is granted. The order in which Go ranges over
    the options does not matter. *)
Theorem user_certificate_accepted c opts now user cert perms :
  0 <= ValidAfter cert < 2 ^ 64 -> 0 <= ValidBefore cert < 2 ^ 64 -> 0 <= now < 2 ^ 63 ->
  opts ≡ₚ map fst (map_to_list (CriticalOptions cert)) ->
  Authenticate c opts now user (CertKey cert) = Ok perms <->
  CertType cert = UserCert /\ IsUserAuthority c (SignatureKey cert) = true /\ acceptable c now user cert /\
  perms = (CriticalOptions cert, Extensions cert).
Proof.
  intros Ha Hb Hn Ho. unfold Keys.Authenticate. rewrite <- (check_cert c opts now user cert) by done.
  destruct (CertType cert =? UserCert) eqn:Et; z_prop; simpl; [|naive_solver].
  destruct (IsUserAuthority c (SignatureKey cert)); simpl; [|naive_solver].
  destruct (CheckCert c opts now user cert) as [[]| | |]; simpl; naive_solver.
Qed.

(** The same of the certificate of a host, at the address dialled. *)
Lemma host_certificate_accepted c opts now addr cert :
  0 <= ValidAfter cert < 2 ^ 64 -> 0 <= ValidBefore cert < 2 ^ 64 -> 0 <= now < 2 ^ 63 ->
  opts ≡ₚ map fst (map_to_list (CriticalOptions cert)) ->
  CheckHostKey c opts now addr (CertKey cert) = Ok tt <->
  CertType cert = HostCert /\ IsHostAuthority c (SignatureKey cert) addr = true /\
  exists host port, SplitHostPort addr = Ok (host, port) /\ acceptable c now host cert.
Proof.
  intros Ha Hb Hn Ho. unfold Keys.CheckHostKey.
  destruct (CertType cert =? HostCert) eqn:Et; z_prop; simpl; [|naive_solver].
  destruct (IsHostAuthority c (SignatureKey cert) addr); simpl; [|naive_solver].
  destruct (SplitHostPort addr) as [[host port]| | |]; cbn [obind]; [|naive_solver..].
  rewrite check_cert by done. split; [intros H; split_and!; eauto|]. intros (_ & _ & h & p & [= <- <-] & H). done.
Qed.

End Checker.

(** The signature is left out of what is signed. *)
Lemma bytesForSigning_signature ecMarshal s c : bytesForSigning ecMarshal (set_Signature s c) = bytesForSigning ecMarshal c.
Proof. by destruct c. Qed.

(** The bytes that the authority signs determine every field of a certificate
    but the signature: two certificates with the same signed bytes are the same. *)
Theorem signature_covers_fields ecMarshal ecUnmarshal c1 c2 data b1 b2 :
  wf_cert ecMarshal ecUnmarshal c1 -> wf_cert ecMarshal ecUnmarshal c2 ->
  KeyMarshal ecMarshal (CertKey c1) = Ok b1 -> slen b1 < 2 ^ 32 ->
  KeyMarshal ecMarshal (CertKey (set_Signature (CertSignature c1) c2)) = Ok b2 -> slen b2 < 2 ^ 32 ->
  bytesForSigning ecMarshal c1 = Ok data -> bytesForSigning ecMarshal c2 = Ok data ->
  set_Signature None c1 = set_Signature None c2.
Proof.
  intros W1 W2 M1 L1 M2 L2 D1 D2. set (c2' := set_Signature (CertSignature c1) c2) in *.
  assert (wf_cert ecMarshal ecUnmarshal c2') as W2' by (unfold c2'; destruct c1, c2; simpl in *; tauto).
  destruct (signed_part _ _ _ _ W1 M1 L1) as (d1 & E1 & ->). destruct (signed_part _ _ _ _ W2' M2 L2) as (d2 & E2 & ->).
  unfold c2' in E2. rewrite bytesForSigning_signature, D2 in E2. rewrite D1 in E1. apply Ok_inj in E1 as <-. apply Ok_inj in E2 as <-.
  replace (CertSignature c2') with (CertSignature c1) in * by (unfold c2'; by destruct c2).
  pose proof (wf_readable _ ecUnmarshal (CertKey c1) W1) as R1. pose proof (wf_readable _ ecUnmarshal (CertKey c2') W2') as R2.
  set (bs := data +:+ _) in *.
  apply (fun R => readable_public _ _ _ bs (String.length bs) R M1 L1 (Z.le_refl _)) in R1.
  apply (fun R => readable_public _ _ _ bs (String.length bs) R M2 L2 (Z.le_refl _)) in R2.
  rewrite R1 in R2. apply Ok_inj in R2. injection R2 as R2. rewrite R2. unfold c2'. by destruct c2.
Qed.

(** What [SignCert] returns carries the authority's key and its signature over
    the certificate's own bytes, so that [CheckCert] verifies exactly what was
    signed; nothing but nonce, key and signature is changed. *)
Theorem sign_cert_spec ecMarshal nonce authority sign c c' :
  SignCert ecMarshal nonce authority sign c = Ok c' ->
  exists data sig, bytesForSigning ecMarshal c' = Ok data /\ sign data = Ok sig /\ CertSignature c' = Some sig /\
    SignatureKey c' = authority /\ nonce = Ok (Nonce c') /\
    (Key c', Serial c', CertType c', KeyId c', ValidPrincipals c', ValidAfter c', ValidBefore c') =
    (Key c, Serial c, CertType c, KeyId c, ValidPrincipals c, ValidAfter c, ValidBefore c) /\
    (CriticalOptions c', Extensions c', Reserved c') = (CriticalOptions c, Extensions c, Reserved c).
Proof.
  intros H. unfold SignCert in H. apply obind_ok in H as (n & Hn & H).
  destruct c as [n0 k se t i p a b o e r sk0 s0].
  apply obind_ok in H as (data & Hd & H). apply obind_ok in H as (sig & Hs & H). apply Ok_inj in H. subst c'.
  exists data, sig. rewrite bytesForSigning_signature. split_and!; try done.
Qed.

(** ** Witnesses *)

Definition demo_ecMarshal (bits x y : Z) : string := be_bytes 4 x +:+ be_bytes 4 y.
Definition demo_ecUnmarshal (bits : Z) (s : string) : option (Z * Z) := Some (be (stake 4 s), be (sdrop 4 s)).
Definition demo_ed_verify (k data blob : string) : bool := (blob =? k +:+ stake 31 data +:+ String (byte 0) "")%string.
Definition demo_seed : string := "0123456789abcdef0123456789abcdef".
Definition demo_ca : PublicKey := ED25519 demo_seed.
Definition demo_unsigned : Certificate :=
  mkCert "" (RSA 65537 (2 ^ 100 + 1)) 7 UserCert "id" ["alice"; "bob"] 1000 2000 {["source-address" := "10.0.0.1"]}
    {["permit-pty" := ""; "x" := "1"]} "" (RSA 3 5) None.
Definition demo_sign (data : string) : outcome Signature := Ok (mkSignature KeyAlgoED25519 (demo_seed +:+ stake 31 data +:+ String (byte 0) "")).
Definition demo_cert : Certificate :=
  match SignCert demo_ecMarshal (Ok "nonce") demo_ca demo_sign demo_unsigned with Ok c => c | _ => demo_unsigned end.
Definition demo_checker : CertChecker :=
  mkChecker [] (fun k => match k with ED25519 b => (b =? demo_seed)%string | _ => false end) (fun _ _ => false) None None None.

Lemma demo_wf k s :
  s <> None -> wf_cert demo_ecMarshal demo_ecUnmarshal
    (mkCert "nonce" (RSA 65537 (2 ^ 100 + 1)) 7 UserCert "id" ["alice"; "bob"] 1000 2000
       {["source-address" := "10.0.0.1"]} {["permit-pty" := ""; "x" := "1"]} "" (ED25519 k) s).
Proof.
  intros Hs. cbn [wf_cert wf_plain wf_key]. unfold in_uint32, UserCert.
  split; [split; [lia|reflexivity]|]. split; [|split_and!; (lia || exact I || exact Hs)].
  intros b Hb. vm_compute in Hb. injection Hb as <-. reflexivity.
Qed.

Lemma demo_cert_wf : wf_cert demo_ecMarshal demo_ecUnmarshal demo_cert.
Proof.
  assert (exists s, s <> None /\ demo_cert = mkCert "nonce" (RSA 65537 (2 ^ 100 + 1)) 7 UserCert "id" ["alice"; "bob"] 1000 2000
    {["source-address" := "10.0.0.1"]} {["permit-pty" := ""; "x" := "1"]} "" demo_ca s) as (s & Hs & ->).
  { eexists (Some _). split; [discriminate|]. vm_compute. reflexivity. }
  by apply demo_wf.
Qed.

Lemma public_key_roundtrip_witness :
  exists b, KeyMarshal demo_ecMarshal (CertKey demo_cert) = Ok b /\ ParsePublicKey demo_ecUnmarshal b = Ok (CertKey demo_cert).
Proof.
  destruct (public_key_roundtrip demo_ecMarshal demo_ecUnmarshal (CertKey demo_cert) demo_cert_wf) as (b & Hb & Hp).
  exists b. split; [exact Hb|]. apply Hp. vm_compute in Hb. injection Hb as <-. reflexivity.
Defined.

Lemma user_certificate_accepted_witness :
  exists now, Authenticate demo_ecMarshal (fun _ _ _ _ => None) (fun _ _ _ _ _ _ _ => false) (fun _ _ _ _ _ _ => false) demo_ed_verify
    demo_checker ["source-address"] now "bob" (CertKey demo_cert) = Ok (CriticalOptions demo_cert, Extensions demo_cert) /\
  CertType demo_cert = UserCert.
Proof.
  exists 1500.
  assert (Authenticate demo_ecMarshal (fun _ _ _ _ => None) (fun _ _ _ _ _ _ _ => false) (fun _ _ _ _ _ _ => false) demo_ed_verify
    demo_checker ["source-address"] 1500 "bob" (CertKey demo_cert) = Ok (CriticalOptions demo_cert, Extensions demo_cert)) as H
    by (vm_compute; reflexivity).
  split; [exact H|].
  refine (proj1 (proj1 (user_certificate_accepted demo_ecMarshal _ _ _ _ demo_checker ["source-address"] 1500 "bob" demo_cert
    (CriticalOptions demo_cert, Extensions demo_cert) _ _ _ _) H)); [vm_compute; split; congruence..|].
  vm_compute. reflexivity.
Defined.

Lemma sign_cert_spec_witness :
  exists data sig, bytesForSigning demo_ecMarshal demo_cert = Ok data /\ demo_sign data = Ok sig /\ CertSignature demo_cert = Some sig.
Proof.
  destruct (sign_cert_spec demo_ecMarshal (Ok "nonce") demo_ca demo_sign demo_unsigned demo_cert) as (data & sig & H1 & H2 & H3 & _);
    [vm_compute; reflexivity|]. exists data, sig. auto.
Defined.

(** The same certificate with the signature of someone else. *)
Definition demo_forged : Certificate := set_Signature (Some (mkSignature "f" "b")) demo_cert.
Lemma signature_covers_fields_witness : set_Signature None demo_cert = set_Signature None demo_forged.
Proof.
  assert (wf_cert demo_ecMarshal demo_ecUnmarshal demo_forged) as W2.
  { pose proof demo_cert_wf as W. unfold demo_forged. destruct demo_cert. cbn in *. naive_solver. }
  assert (exists b, KeyMarshal demo_ecMarshal (CertKey demo_cert) = Ok b /\ slen b < 2 ^ 32 /\
    KeyMarshal demo_ecMarshal (CertKey (set_Signature (CertSignature demo_cert) demo_forged)) = Ok b) as (b & Hb & Hl & Hb2)
    by (eexists; split_and!; [vm_compute; reflexivity..|]; vm_compute; reflexivity).
  assert (exists d, bytesForSigning demo_ecMarshal demo_cert = Ok d /\ bytesForSigning demo_ecMarshal demo_forged = Ok d)
    as (d & Hd & Hd2) by (eexists; split; vm_compute; reflexivity).
  exact (signature_covers_fields demo_ecMarshal demo_ecUnmarshal demo_cert demo_forged d b b demo_cert_wf W2 Hb Hl Hb2 Hl Hd Hd2).
Defined.
