(* ===== verification/KexAlgo.v ===== *)
(** The key agreements (xendor/github.com/glycerine/xcryptossh/kex.go; [ecHash] of
    keys.go): Diffie-Hellman in a group, on a curve, and with curve25519, on either
    side. Modular powers are computed; hash functions and the points of curves are
    parameters. What is drawn from the random source is an argument. *)
From Stdlib Require Import Zpow_facts.
From S2P Require Import Prelude.
From S2P Require Import GoStrings.
From S2P Require Import Wire.
From S2P Require Import Negotiate.
From S2P Require Import Keys.
From S2P Require Import Kex.

(** ** Data *)

(** crypto.Hash. *)
Inductive Hash := SHA1 | SHA256 | SHA384 | SHA512.

(** The result of a key agreement: [Kex]'s, the shared secret, and the function
    that hashed it. *)
Record Result := mkKex { res : kexResult; K_ : string; Hash_ : Hash }.

(** A curve is its bit size. *)
Inductive kexAlgorithm :=
| dhGroup (g p pMinus1 : Z)
| ecdh (curve : Z)
| curve25519sha256.

Definition group1 : Z := 0xFFFFFFFFFFFFFFFFC90FDAA22168C234C4C6628B80DC1CD129024E088A67CC74020BBEA63B139B22514A08798E3404DDEF9519B3CD3A431B302B0A6DF25F14374FE1356D6D51C245E485B576625E7EC6F44C42E9A637ED6B0BFF5CB6F406B7EDEE386BFB5A899FA5AE9F24117C4B1FE649286651ECE65381FFFFFFFFFFFFFFFF.
Definition group14 : Z := 0xFFFFFFFFFFFFFFFFC90FDAA22168C234C4C6628B80DC1CD129024E088A67CC74020BBEA63B139B22514A08798E3404DDEF9519B3CD3A431B302B0A6DF25F14374FE1356D6D51C245E485B576625E7EC6F44C42E9A637ED6B0BFF5CB6F406B7EDEE386BFB5A899FA5AE9F24117C4B1FE649286651ECE45B3DC2007CB8A163BF0598DA48361C55D39A69163FA8FD24CF5F83655D23DCA3AD961C62F356208552BB9ED529077096966D670C354E4ABC9804F1746C08CA18217C32905E462E36CE3BE39E772C180E86039B2783A2EC07A28FB5C55DF06F4C52C9DE2BCBF6955817183995497CEA956AE515D2261898FA051015728E5A8AACAA68FFFFFFFFFFFFFFFF.

Definition kexAlgoMap (name : string) : option kexAlgorithm :=
  if (name =? "diffie-hellman-group1-sha1")%string then Some (dhGroup 2 group1 (group1 - 1))
  else if (name =? "diffie-hellman-group14-sha1")%string then Some (dhGroup 2 group14 (group14 - 1))
  else if (name =? "ecdh-sha2-nistp521")%string then Some (ecdh 521)
  else if (name =? "ecdh-sha2-nistp384")%string then Some (ecdh 384)
  else if (name =? "ecdh-sha2-nistp256")%string then Some (ecdh 256)
  else if (name =? "curve25519-sha256@libssh.org")%string then Some curve25519sha256
  else None.

Definition ecHash (bitSize : Z) : Hash :=
  if bitSize <=? 256 then SHA256 else if bitSize <=? 384 then SHA384 else SHA512.

(** ** What is hashed *)

Definition writeString (s : string) : string := be_bytes 4 (slen s) +:+ s.
Definition write_magics (m : handshakeMagics) : string :=
  writeString (m_clientVersion m) +:+ writeString (m_serverVersion m) +:+
  writeString (m_clientKexInit m) +:+ writeString (m_serverKexInit m).

(** big.Int.Exp. *)
Definition Exp (x y m : Z) : Z := Zpow_mod x y m.

Definition dh_bounds : string := "ssh: DH parameter out of bounds".
Definition diffieHellman (p pMinus1 theirPublic myPrivate : Z) : outcome Z :=
  if (theirPublic <=? 1) || (pMinus1 <=? theirPublic) then Err dh_bounds else Ok (Exp theirPublic myPrivate p).

(** rand.Int until the number is positive; the numbers that the source yields. *)
Fixpoint draw (numbers : list Z) : outcome Z :=
  match numbers with [] => Err EOF | x :: numbers => if 0 <? x then Ok x else draw numbers end.

(** The random source of one side: the numbers of rand.Int, the 32 bytes of a
    curve25519 key, the key of a curve with its point. *)
Record source := mkSource { numbers : list Z; bytes32 : outcome string; ec_key : Z -> outcome (Z * (Z * Z)) }.

(** The host key of a server: its bytes, and signing with it. *)
Record HostSigner := mkHostSigner { hostKeyBytes : outcome string; SignHash : string -> outcome Signature }.

Definition wrong_length : string := "ssh: peer's curve25519 public value has wrong length".
Definition wrong_order : string := "ssh: peer's curve25519 public value has wrong order".
Definition unmarshal_failure : string := "ssh: elliptic.Unmarshal failure".
Definition not_on_curve : string := "ssh: public key not on curve".
Definition curve25519Zeros : string := be_bytes 32 0.

Section KexAlgo.
(** A hash function; the points of the curves: the field's order, the equation,
    multiples, encodings. curve25519: multiples of a point and of the base. *)
Context (sum : Hash -> string -> string).
Context (field_P : Z -> Z) (IsOnCurve : Z -> Z -> Z -> bool) (ScalarMult : Z -> Z * Z -> Z -> Z * Z)
        (ecMarshal : Z -> Z -> Z -> string) (ecUnmarshal : Z -> string -> option (Z * Z)).
Context (X25519 : string -> string -> string) (X25519Base : string -> string).

Definition validateECPublicKey (curve x y : Z) : bool :=
  if (x =? 0) && (y =? 0) then false
  else if field_P curve <=? x then false
  else if field_P curve <=? y then false
  else IsOnCurve curve x y.

Definition unmarshalECKey (curve : Z) (pubkey : string) : outcome (Z * Z) :=
  match ecUnmarshal curve pubkey with
  | None => Err unmarshal_failure
  | Some (x, y) => if validateECPublicKey curve x y then Ok (x, y) else Err not_on_curve
  end.

(** The hash of an exchange with numbers, and with encoded points. *)
Definition dh_hash (magics : handshakeMagics) (hostKey : string) (X Y kInt : Z) : string :=
  sum SHA1 (write_magics magics +:+ writeString hostKey +:+ marshalInt X +:+ marshalInt Y +:+ marshalInt kInt).
Definition ec_hash (h : Hash) (magics : handshakeMagics) (hostKey clientPub serverPub : string) (secret : Z) : string :=
  sum h (write_magics magics +:+ writeString hostKey +:+ writeString clientPub +:+ writeString serverPub +:+ marshalInt secret).

(** *** The client *)

Section Client.
(** Whether the transport takes a packet; the packet of the server. *)
Context (write : string -> error_) (answer : outcome string) (magics : handshakeMagics).

(** The packet is written, then the answer is read. *)
Definition ask_server {A} (packet : string) (k : string -> outcome A) : list string * outcome A :=
  match write packet with
  | Some e => ([], Err e)
  | None => ([packet], let? reply := answer in k reply)
  end.

Definition dh_Client (g p pMinus1 : Z) (rand : source) : list string * outcome Result :=
  match draw (numbers rand) with
  | Ok x =>
      let X := Exp g x p in
      ask_server (Marshal kexDHInitMsg [VInt X]) (fun packet =>
        let? vs := Unmarshal packet kexDHReplyMsg in
        match vs with
        | [VBytes hostKey; VInt Y; VBytes signature] =>
            let? kInt := diffieHellman p pMinus1 Y x in
            Ok (mkKex (mkResult (dh_hash magics hostKey X Y kInt) hostKey signature) (marshalInt kInt) SHA1)
        | _ => Panic "unreachable"
        end)
  | Err e => ([], Err e)
  | Panic s => ([], Panic s)
  | Blocked => ([], Blocked)
  end.

Definition ecdh_Client (curve : Z) (rand : source) : list string * outcome Result :=
  match ec_key rand curve with
  | Ok (d, (qx, qy)) =>
      let clientPub := ecMarshal curve qx qy in
      ask_server (Marshal kexECDHInitMsg [VBytes clientPub]) (fun packet =>
        let? vs := Unmarshal packet kexECDHReplyMsg in
        match vs with
        | [VBytes hostKey; VBytes serverPub; VBytes signature] =>
            let? point := unmarshalECKey curve serverPub in
            let secret := (ScalarMult curve point d).1 in
            Ok (mkKex (mkResult (ec_hash (ecHash curve) magics hostKey clientPub serverPub secret) hostKey signature)
                  (marshalInt secret) (ecHash curve))
        | _ => Panic "unreachable"
        end)
  | Err e => ([], Err e)
  | Panic s => ([], Panic s)
  | Blocked => ([], Blocked)
  end.

(** The shared secret of curve25519, as both sides check it. *)
Definition shared25519 (priv theirPub : string) : outcome Z :=
  let secret := X25519 priv theirPub in
  if (secret =? curve25519Zeros)%string then Err wrong_order else Ok (be secret).

Definition c25519_Client (rand : source) : list string * outcome Result :=
  match bytes32 rand with
  | Ok priv =>
      let clientPub := X25519Base priv in
      ask_server (Marshal kexECDHInitMsg [VBytes clientPub]) (fun packet =>
        let? vs := Unmarshal packet kexECDHReplyMsg in
        match vs with
        | [VBytes hostKey; VBytes serverPub; VBytes signature] =>
            if negb (slen serverPub =? 32) then Err wrong_length
            else
              let? secret := shared25519 priv serverPub in
              Ok (mkKex (mkResult (ec_hash SHA256 magics hostKey clientPub serverPub secret) hostKey signature)
                    (marshalInt secret) SHA256)
        | _ => Panic "unreachable"
        end)
  | Err e => ([], Err e)
  | Panic s => ([], Panic s)
  | Blocked => ([], Blocked)
  end.

Definition Client (a : kexAlgorithm) (rand : source) : list string * outcome Result :=
  match a with
  | dhGroup g p pMinus1 => dh_Client g p pMinus1 rand
  | ecdh curve => ecdh_Client curve rand
  | curve25519sha256 => c25519_Client rand
  end.
End Client.

(** *** The server *)

Section Server.
(** Whether the transport takes the reply; the packet of the client. *)
Context (write : string -> error_) (packet : outcome string) (magics : handshakeMagics) (priv : HostSigner).

Definition signAndMarshal (data : string) : outcome string :=
  let? sig := SignHash priv data in Ok (signature_bytes (Some sig)).

(** The reply; a failure to write it is an error only where [checked]. *)
Definition reply_to (checked : bool) (r : outcome (string * Result)) : list string * outcome Result :=
  match r with
  | Ok (reply, result) =>
      match write reply with
      | Some e => ([], if checked then Err e else Ok result)
      | None => ([reply], Ok result)
      end
  | Err e => ([], Err e)
  | Panic s => ([], Panic s)
  | Blocked => ([], Blocked)
  end.

Definition dh_Server (g p pMinus1 : Z) (rand : source) : list string * outcome Result :=
  reply_to false
    (let? init := packet in
     let? vs := Unmarshal init kexDHInitMsg in
     match vs with
     | [VInt X] =>
         let? y := draw (numbers rand) in
         let Y := Exp g y p in
         let? kInt := diffieHellman p pMinus1 X y in
         let? hostKey := hostKeyBytes priv in
         let H := dh_hash magics hostKey X Y kInt in
         let? sig := signAndMarshal H in
         Ok (Marshal kexDHReplyMsg [VBytes hostKey; VInt Y; VBytes sig],
             mkKex (mkResult H hostKey sig) (marshalInt kInt) SHA1)
     | _ => Panic "unreachable"
     end).

Definition ecdh_Server (curve : Z) (rand : source) : list string * outcome Result :=
  reply_to true
    (let? init := packet in
     let? vs := Unmarshal init kexECDHInitMsg in
     match vs with
     | [VBytes clientPub] =>
         let? point := unmarshalECKey curve clientPub in
         let? '(d, (qx, qy)) := ec_key rand curve in
         let? hostKey := hostKeyBytes priv in
         let serverPub := ecMarshal curve qx qy in
         let secret := (ScalarMult curve point d).1 in
         let H := ec_hash (ecHash curve) magics hostKey clientPub serverPub secret in
         let? sig := signAndMarshal H in
         Ok (Marshal kexECDHReplyMsg [VBytes hostKey; VBytes serverPub; VBytes sig],
             mkKex (mkResult H hostKey sig) (marshalInt secret) (ecHash curve))
     | _ => Panic "unreachable"
     end).

Definition c25519_Server (rand : source) : list string * outcome Result :=
  reply_to true
    (let? init := packet in
     let? vs := Unmarshal init kexECDHInitMsg in
     match vs with
     | [VBytes clientPub] =>
         if negb (slen clientPub =? 32) then Err wrong_length
         else
           let? priv25519 := bytes32 rand in
           let? secret := shared25519 priv25519 clientPub in
           let? hostKey := hostKeyBytes priv in
           let serverPub := X25519Base priv25519 in
           let H := ec_hash SHA256 magics hostKey clientPub serverPub secret in
           let? sig := signAndMarshal H in
           Ok (Marshal kexECDHReplyMsg [VBytes hostKey; VBytes serverPub; VBytes sig],
               mkKex (mkResult H hostKey sig) (marshalInt secret) SHA256)
     | _ => Panic "unreachable"
     end).

Definition Server (a : kexAlgorithm) (rand : source) : list string * outcome Result :=
  match a with
  | dhGroup g p pMinus1 => dh_Server g p pMinus1 rand
  | ecdh curve => ecdh_Server curve rand
  | curve25519sha256 => c25519_Server rand
  end.
End Server.
End KexAlgo.

(** ** Both ends agree *)

Lemma Marshal_read t vs tag :
  wf_type t = true -> typeTags t = [tag] -> typed_fields (t_fields t) vs -> slen (Marshal t vs) < 2 ^ 32 ->
  Unmarshal (Marshal t vs) t = Ok vs.
Proof.
  intros Hw Ht Hty Hs. apply Unmarshal_Marshal; [done|]. split; [done|].
  rewrite (Marshal_eq t vs tag []) in Hs by done. change (String (byte tag) ?x) with (String (byte tag) "" +:+ x) in Hs.
  rewrite slen_app in Hs. change (slen (String _ "")) with 1 in Hs. lia.
Qed.

Lemma Exp_spec x y m : 0 <= y -> 1 < m -> Exp x y m = x ^ y mod m.
Proof. intros Hy Hm. unfold Exp. apply Zpow_mod_correct. lia. Qed.

(** g^x, raised to y. *)
Lemma Exp_Exp g x y p : 0 <= x -> 0 <= y -> 1 < p -> Exp (Exp g x p) y p = g ^ (x * y) mod p.
Proof. intros Hx Hy Hp. rewrite !Exp_spec by done. rewrite <- Zpower_mod by lia. by rewrite <- Z.pow_mul_r. Qed.

Lemma draw_pos l x : draw l = Ok x -> 0 < x.
Proof. induction l as [|y l IH]; cbn [draw]; [done|]. destruct (Z.ltb_spec 0 y); [by intros [= <-]|done]. Qed.

Section Agreement.
Context (sum : Hash -> string -> string).
Context (field_P : Z -> Z) (IsOnCurve : Z -> Z -> Z -> bool) (ScalarMult : Z -> Z * Z -> Z -> Z * Z)
        (ecMarshal : Z -> Z -> Z -> string) (ecUnmarshal : Z -> string -> option (Z * Z)).
Context (X25519 : string -> string -> string) (X25519Base : string -> string).
Abbreviation unmarshalECKey := (unmarshalECKey field_P IsOnCurve ecUnmarshal).
Abbreviation Client := (Client sum field_P IsOnCurve ScalarMult ecMarshal ecUnmarshal X25519 X25519Base).
Abbreviation Server := (Server sum field_P IsOnCurve ScalarMult ecMarshal ecUnmarshal X25519 X25519Base).

(** What is relied on of the arithmetic: multiples of the base point commute, and
    a point that was generated is read back. *)
Definition curve_ok (a : kexAlgorithm) (randc rands : source) : Prop :=
  match a with
  | dhGroup g p pMinus1 => 1 < p /\ pMinus1 = p - 1 /\ forall y, draw (numbers rands) = Ok y -> 1 < Exp g y p < pMinus1
  | ecdh curve =>
      forall dc qc ds qs, ec_key randc curve = Ok (dc, qc) -> ec_key rands curve = Ok (ds, qs) ->
        ScalarMult curve qs dc = ScalarMult curve qc ds /\
        unmarshalECKey curve (ecMarshal curve qc.1 qc.2) = Ok qc /\ unmarshalECKey curve (ecMarshal curve qs.1 qs.2) = Ok qs
  | curve25519sha256 =>
      forall c s, bytes32 randc = Ok c -> bytes32 rands = Ok s ->
        X25519 c (X25519Base s) = X25519 s (X25519Base c) /\ slen (X25519Base s) = 32
  end.

Lemma reply_to_ok write checked r reply rs :
  reply_to write checked r = ([reply], Ok rs) -> r = Ok (reply, rs).
Proof. unfold reply_to. destruct r as [[? ?]| | |]; try done. destruct (write _); [done|]. by intros [= -> ->]. Qed.

Lemma ask_server_ok {A} write answer packet (k : string -> outcome A) p r :
  ask_server write (Ok answer) packet k = ([p], r) -> p = packet /\ r = k answer.
Proof. unfold ask_server. destruct (write packet); [done|]. by intros [= <- <-]. Qed.

Lemma kex_agree a magics randc rands write_c write_s priv init reply r rs :
  curve_ok a randc rands -> slen init < 2 ^ 32 -> slen reply < 2 ^ 32 ->
  Server write_s (Ok init) magics priv a rands = ([reply], Ok rs) ->
  Client write_c (Ok reply) magics a randc = ([init], r) -> r = Ok rs.
Proof.
  destruct a as [g p q|curve|]; cbn [KexAlgo.Client KexAlgo.Server curve_ok]; intros Hok Hi Hr Hs Hc.
  - unfold dh_Client in Hc. destruct (draw (numbers randc)) as [x| | |] eqn:Ex; [|done..].
    apply ask_server_ok in Hc as [-> ->]. unfold dh_Server in Hs. apply reply_to_ok in Hs.
    cbn [obind] in Hs. rewrite (Marshal_read _ _ 30) in Hs by (done || by repeat constructor). cbn [obind] in Hs.
    destruct (draw (numbers rands)) as [y| | |] eqn:Ey; [|done..]. cbn [obind] in Hs.
    destruct Hok as (Hp & -> & Hb). specialize (Hb y eq_refl). pose proof (draw_pos _ _ Ex). pose proof (draw_pos _ _ Ey).
    apply obind_ok in Hs as (kInt & Hk & Hs). apply obind_ok in Hs as (hostKey & Hh & Hs). apply obind_ok in Hs as (sig & Hsig & Hs).
    injection Hs as <- <-. rewrite (Marshal_read _ _ 31) by (done || by repeat constructor). cbn [obind].
    unfold diffieHellman in *. destruct (_ || _) in Hk; [done|]. injection Hk as <-.
    assert ((Exp g y p <=? 1) || (p - 1 <=? Exp g y p) = false) as -> by (apply orb_false_iff; split; apply Z.leb_gt; lia).
    cbn [obind]. rewrite !Exp_Exp by lia. by rewrite (Z.mul_comm y x).
  - unfold ecdh_Client in Hc. destruct (ec_key randc curve) as [[d [qx qy]]| | |] eqn:Ec; [|done..].
    apply ask_server_ok in Hc as [-> ->]. unfold ecdh_Server in Hs. apply reply_to_ok in Hs.
    cbn [obind] in Hs. rewrite (Marshal_read _ _ 30) in Hs by (done || by repeat constructor). cbn [obind] in Hs.
    apply obind_ok in Hs as (point & Hp & Hs). apply obind_ok in Hs as ([ds [sx sy]] & Es & Hs).
    apply obind_ok in Hs as (hostKey & Hh & Hs). apply obind_ok in Hs as (sig & Hsig & Hs).
    destruct (Hok d (qx, qy) ds (sx, sy) eq_refl Es) as (Hcomm & Hqc & Hqs). cbn [fst snd] in *. rewrite Hqc in Hp. injection Hp as <-.
    injection Hs as <- <-. rewrite (Marshal_read _ _ 31) by (done || by repeat constructor). cbn [obind]. rewrite Hqs. cbn [obind].
    by rewrite Hcomm.
  - unfold c25519_Client in Hc. destruct (bytes32 randc) as [c| | |] eqn:Ec; [|done..].
    apply ask_server_ok in Hc as [-> ->]. unfold c25519_Server in Hs. apply reply_to_ok in Hs.
    cbn [obind] in Hs. rewrite (Marshal_read _ _ 30) in Hs by (done || by repeat constructor). cbn [obind] in Hs.
    destruct (negb _); [done|]. apply obind_ok in Hs as (s & Es & Hs). apply obind_ok in Hs as (secret & Hsec & Hs).
    apply obind_ok in Hs as (hostKey & Hh & Hs). apply obind_ok in Hs as (sig & Hsig & Hs).
    destruct (Hok c s eq_refl Es) as [Hcomm Hlen]. injection Hs as <- <-.
    rewrite (Marshal_read _ _ 31) by (done || by repeat constructor). cbn [obind]. rewrite Hlen. cbn [Z.eqb Pos.eqb negb].
    unfold shared25519 in *. rewrite Hcomm. by rewrite Hsec.
Qed.
(** C10: Whatever key agreement was negotiated, when the server answers the
    client's packet and the client takes the answer, both have the same secret,
    the same hash of the exchange, the same host key and signature, and the same
    hash function; and the client does take the answer. *)
Theorem kex_ends_agree a magics randc rands write_c write_s priv init reply r rs :
  curve_ok a randc rands -> slen init < 2 ^ 32 -> slen reply < 2 ^ 32 ->
  Server write_s (Ok init) magics priv a rands = ([reply], Ok rs) ->
  Client write_c (Ok reply) magics a randc = ([init], r) -> r = Ok rs.
Proof. apply kex_agree. Qed.

(** *** Values that are refused *)

(** A public value of the other end from which a secret may be computed. *)
Definition acceptable (a : kexAlgorithm) (rand : source) (v : value) : Prop :=
  match a, v with
  | dhGroup _ _ pMinus1, VInt Y => 1 < Y < pMinus1
  | ecdh curve, VBytes pub =>
      exists x y, ecUnmarshal curve pub = Some (x, y) /\ ~ (x = 0 /\ y = 0) /\ x < field_P curve /\ y < field_P curve /\
                  IsOnCurve curve x y = true
  | curve25519sha256, VBytes pub =>
      slen pub = 32 /\ forall priv, bytes32 rand = Ok priv -> X25519 priv pub <> curve25519Zeros
  | _, _ => False
  end.

Lemma unmarshalECKey_ok curve pub q :
  unmarshalECKey curve pub = Ok q ->
  exists x y, ecUnmarshal curve pub = Some (x, y) /\ ~ (x = 0 /\ y = 0) /\ x < field_P curve /\ y < field_P curve /\ IsOnCurve curve x y = true.
Proof.
  unfold KexAlgo.unmarshalECKey, validateECPublicKey. destruct (ecUnmarshal curve pub) as [[x y]|]; [|done].
  destruct ((x =? 0) && (y =? 0)) eqn:E0; [done|]. destruct (field_P curve <=? x) eqn:E1; [done|].
  destruct (field_P curve <=? y) eqn:E2; [done|]. destruct (IsOnCurve curve x y) eqn:E3; [|done]. intros _. exists x, y. z_prop.
  split_and!; try done. intros [-> ->]. done.
Qed.
Lemma diffieHellman_ok p q v x k : diffieHellman p q v x = Ok k -> 1 < v < q.
Proof. unfold diffieHellman. destruct (_ || _) eqn:E; [done|]. apply orb_false_iff in E as []. z_prop. lia. Qed.
Lemma shared25519_ok priv pub k : shared25519 X25519 priv pub = Ok k -> X25519 priv pub <> curve25519Zeros.
Proof. unfold shared25519. destruct (_ =? _)%string eqn:E; [done|]. by apply String.eqb_neq in E. Qed.

Lemma asked {A} write answer packet (k : string -> outcome A) sent a :
  ask_server write answer packet k = (sent, Ok a) -> exists reply, answer = Ok reply /\ k reply = Ok a.
Proof. unfold ask_server. destruct (write packet); [done|]. intros [= _ H]. by apply obind_ok in H. Qed.
Lemma replied write checked r sent rs : reply_to write checked r = (sent, Ok rs) -> exists reply, r = Ok (reply, rs).
Proof.
  unfold reply_to. destruct r as [[reply rs']| | |]; try done. destruct (write _), checked; try done; intros [= _ ->]; by exists reply.
Qed.

(** C24: An exchange ends well only on a public value of the other end that is in
    the bounds: not 0, 1 or p - 1 in a group, a point of the curve in its
    coordinates, a point of curve25519 that does not make the secret zero. So
    neither end can be made to compute a secret that its peer knows in advance. *)
Theorem degenerate_values_refused write a rand magics priv :
  (forall answer sent r, Client write answer magics a rand = (sent, Ok r) ->
     exists reply hostKey v sig, answer = Ok reply /\
       Unmarshal reply (match a with dhGroup _ _ _ => kexDHReplyMsg | _ => kexECDHReplyMsg end) = Ok [hostKey; v; sig] /\ acceptable a rand v) /\
  (forall packet sent r, Server write packet magics priv a rand = (sent, Ok r) ->
     exists init v, packet = Ok init /\
       Unmarshal init (match a with dhGroup _ _ _ => kexDHInitMsg | _ => kexECDHInitMsg end) = Ok [v] /\ acceptable a rand v).
Proof.
  split.
  - intros answer sent r H. destruct a as [g p q|curve|]; cbn [KexAlgo.Client] in H.
    + unfold dh_Client in H. destruct (draw _); [|done..]. apply asked in H as (reply & -> & H). apply obind_ok in H as (vs & Hu & H).
      repeat case_match; simplify_eq. apply obind_ok in H as (k & Hk & _). apply diffieHellman_ok in Hk. eauto 10.
    + unfold ecdh_Client in H. destruct (ec_key rand curve) as [[? [? ?]]| | |]; [|done..]. apply asked in H as (reply & -> & H).
      apply obind_ok in H as (vs & Hu & H). repeat case_match; simplify_eq. apply obind_ok in H as (k & Hk & _). apply unmarshalECKey_ok in Hk. eauto 10.
    + unfold c25519_Client in H. destruct (bytes32 rand) as [c| | |] eqn:Ec; [|done..]. apply asked in H as (reply & -> & H).
      apply obind_ok in H as (vs & Hu & H). repeat case_match; simplify_eq. apply obind_ok in H as (k & Hk & _). apply shared25519_ok in Hk.
      eexists _, _, _, _. split_and!; [done|done|]. match goal with E : negb _ = false |- _ => apply negb_false_iff in E end. z_prop.
      split; [done|]. rewrite Ec. by intros ? [= <-].
  - intros packet sent r H. destruct a as [g p q|curve|]; cbn [KexAlgo.Server] in H.
    + unfold dh_Server in H. apply replied in H as (reply & H). apply obind_ok in H as (init & -> & H). apply obind_ok in H as (vs & Hu & H).
      repeat case_match; simplify_eq. apply obind_ok in H as (y & _ & H). apply obind_ok in H as (k & Hk & _). apply diffieHellman_ok in Hk. eauto 10.
    + unfold ecdh_Server in H. apply replied in H as (reply & H). apply obind_ok in H as (init & -> & H). apply obind_ok in H as (vs & Hu & H).
      repeat case_match; simplify_eq. apply obind_ok in H as (k & Hk & _). apply unmarshalECKey_ok in Hk. eauto 10.
    + unfold c25519_Server in H. apply replied in H as (reply & H). apply obind_ok in H as (init & -> & H). apply obind_ok in H as (vs & Hu & H).
      repeat case_match; simplify_eq. apply obind_ok in H as (c & Ec & H). apply obind_ok in H as (k & Hk & _). apply shared25519_ok in Hk.
      eexists _, _. split_and!; [done|done|]. match goal with E : negb _ = false |- _ => apply negb_false_iff in E end. z_prop.
      split; [done|]. rewrite Ec. by intros ? [= <-].
Qed.

(** A server of the Diffie-Hellman groups does not notice that its reply could not
    be written: it goes on with the keys. *)
Theorem dh_write_error_ignored packet magics priv g p q rand e :
  Server (fun _ => Some e) packet magics priv (dhGroup g p q) rand =
  ([], (Server (fun _ => None) packet magics priv (dhGroup g p q) rand).2).
Proof.
  cbn [KexAlgo.Server]. unfold dh_Server, reply_to. by destruct (let? init := packet in _) as [[? ?]| | |].
Qed.

(** *** The whole of an exchange *)

(** The key agreement as the handshake of [Kex] calls it. *)
Definition client_kex (write : string -> error_) (answer : outcome string) (rand : source)
    (name : string) (magics : handshakeMagics) : list string * outcome kexResult :=
  match kexAlgoMap name with
  | Some a => let '(sent, r) := Client write answer magics a rand in (sent, let? r := r in Ok (res r))
  | None => ([], Err ("ssh: unexpected key exchange algorithm " +:+ name))
  end.

(** The agreements that are negotiated are those there are. *)
Lemma supported_kex name : name ∈ supportedKexAlgos <-> is_Some (kexAlgoMap name).
Proof.
  unfold supportedKexAlgos, kexAlgoMap. rewrite !elem_of_cons, elem_of_nil.
  split; [by intros [->|[->|[->|[->|[->|[->|[]]]]]]]; eexists|].
  intros [a H]. repeat match type of H with context [if (?x =? ?y)%string then _ else _] => destruct (String.eqb_spec x y) as [->|?]; [tauto|] end. done.
Qed.

Lemma server_signed write init magics priv a rand reply rs :
  Server write (Ok init) magics priv a rand = ([reply], Ok rs) ->
  exists sig, SignHash priv (H_ (res rs)) = Ok sig /\ Signature_ (res rs) = signature_bytes (Some sig) /\ hostKeyBytes priv = Ok (HostKey (res rs)).
Proof.
  destruct a as [g p q|curve|]; cbn [KexAlgo.Server]; intros H; apply reply_to_ok in H; cbn [obind] in H;
    apply obind_ok in H as (vs & Hu & H); repeat case_match; simplify_eq;
    repeat (match type of H with (let? _ := ?m in _) = _ => let x := fresh "x" in let E := fresh "E" in apply obind_ok in H as (x & E & H) end;
            try match goal with x : (_ * _)%type |- _ => destruct x end; try match goal with x : (_ * _)%type |- _ => destruct x end).
  all: injection H as _ <-; unfold signAndMarshal in *;
    match goal with E : (let? sig := _ in _) = Ok _ |- _ => apply obind_ok in E as (sig & Es & E) end;
    simplify_eq; by exists sig.
Qed.

(** An honest exchange succeeds: the client of the handshake accepts what the
    server of the handshake answers, if the host key is one that it reads and
    trusts and that verifies what its owner signs. *)
Theorem honest_exchange {Key} (x : exchange Key) algs a magics randc rands write_c write_s priv init reply rs key :
  kexAlgoMap (kex algs) = Some a -> kex_Client _ x = client_kex write_c (Ok reply) randc ->
  curve_ok a randc rands -> slen init < 2 ^ 32 -> slen reply < 2 ^ 32 ->
  (Client write_c (Ok reply) magics a randc).1 = [init] ->
  Server write_s (Ok init) magics priv a rands = ([reply], Ok rs) -> slen (Signature_ (res rs)) < 2 ^ 32 ->
  Kex.ParsePublicKey _ x (HostKey (res rs)) = Ok key -> hostKeyCallback _ x key = Ok tt ->
  (forall data sig, SignHash priv data = Ok sig -> Kex.Verify _ x key data sig = Ok tt) ->
  Kex.client x algs magics = ([init], Ok (res rs)).
Proof.
  intros Ha Hx Hok Hi Hr Hc Hs Hsl Hp Hcb Hv. unfold Kex.client. rewrite Hx. unfold client_kex. rewrite Ha.
  destruct (Client write_c (Ok reply) magics a randc) as [sent r] eqn:Ec. cbn [fst] in Hc. subst sent.
  rewrite (kex_agree _ _ _ _ _ _ _ _ _ _ _ Hok Hi Hr Hs Ec). cbn [obind]. rewrite Hp. cbn [obind].
  destruct (server_signed _ _ _ _ _ _ _ _ Hs) as (sig & Hsig & Hsb & _).
  unfold verifyHostKeySignature. rewrite Hsb in *. rewrite parse_signature by done. rewrite (Hv _ _ Hsig). cbn [obind]. by rewrite Hcb.
Qed.
End Agreement.

(** ** A concrete exchange *)

Definition toy_sum (h : Hash) (s : string) : string := be_bytes 4 (be s).
Definition toy_source (l : list Z) : source := mkSource l (Err EOF) (fun _ => Err EOF).
Definition toy_host : HostSigner := mkHostSigner (Ok "host") (fun data => Ok (mkSignature "toy" data)).
Definition toy_magics : handshakeMagics := mkMagics "SSH-2.0-A" "SSH-2.0-B" "c" "s".
Definition toy_group : kexAlgorithm := dhGroup 2 group1 (group1 - 1).
Definition toy_client (answer : outcome string) : list string * outcome Result :=
  Client toy_sum (fun _ => 0) (fun _ _ _ => false) (fun _ q _ => q) (fun _ _ _ => "") (fun _ _ => None) (fun _ _ => "") (fun _ => "")
    (fun _ => None) answer toy_magics toy_group (toy_source [0; 5]).
Definition toy_server (packet : outcome string) : list string * outcome Result :=
  Server toy_sum (fun _ => 0) (fun _ _ _ => false) (fun _ q _ => q) (fun _ _ _ => "") (fun _ _ => None) (fun _ _ => "") (fun _ => "")
    (fun _ => None) packet toy_magics toy_host toy_group (toy_source [7]).
Definition toy_init : string := Marshal kexDHInitMsg [VInt 32].
Definition toy_reply : string := match (toy_server (Ok toy_init)).1 with r :: _ => r | [] => "" end.
Definition toy_result : Result :=
  match (toy_server (Ok toy_init)).2 with Ok r => r | _ => mkKex (mkResult "" "" "") "" SHA1 end.

Lemma toy_ok : curve_ok (fun _ => 0) (fun _ _ _ => false) (fun _ q _ => q) (fun _ _ _ => "") (fun _ _ => None) (fun _ _ => "") (fun _ => "")
  toy_group (toy_source [0; 5]) (toy_source [7]).
Proof.
  split; [reflexivity|]. split; [reflexivity|]. intros y [= <-].
  assert (Exp 2 7 group1 = 128) as -> by (vm_compute; reflexivity). split; reflexivity.
Qed.
Lemma toy_served : toy_server (Ok toy_init) = ([toy_reply], Ok toy_result).
Proof. vm_compute. reflexivity. Qed.
Lemma toy_called : toy_client (Ok toy_reply) = ([toy_init], (toy_client (Ok toy_reply)).2).
Proof. vm_compute. reflexivity. Qed.

Lemma kex_ends_agree_witness : (toy_client (Ok toy_reply)).2 = Ok toy_result.
Proof.
  exact (kex_ends_agree _ _ _ _ _ _ _ _ toy_group toy_magics _ _ _ _ toy_host toy_init toy_reply _ _ toy_ok
    ltac:(vm_compute; reflexivity) ltac:(vm_compute; reflexivity) toy_served toy_called).
Defined.

Lemma degenerate_values_refused_witness :
  exists reply hostKey v sig, Ok toy_reply = Ok reply /\ Unmarshal reply kexDHReplyMsg = Ok [hostKey; v; sig] /\
    acceptable (fun _ => 0) (fun _ _ _ => false) (fun _ _ => None) (fun _ _ => "") toy_group (toy_source [0; 5]) v.
Proof.
  exact (proj1 (degenerate_values_refused toy_sum (fun _ => 0) (fun _ _ _ => false) (fun _ q _ => q) (fun _ _ _ => "") (fun _ _ => None)
    (fun _ _ => "") (fun _ => "") (fun _ => None) toy_group (toy_source [0; 5]) toy_magics toy_host) (Ok toy_reply) [toy_init] toy_result
    ltac:(vm_compute; reflexivity)).
Defined.

Definition toy_exchange : exchange string := {|
  skipped := Err EOF;
  kex_Server := fun _ _ _ => ([], Err EOF);
  kex_Client := client_kex toy_sum (fun _ => 0) (fun _ _ _ => false) (fun _ q _ => q) (fun _ _ _ => "") (fun _ _ => None)
    (fun _ _ => "") (fun _ => "") (fun _ => None) (Ok toy_reply) (toy_source [0; 5]);
  Kex.ParsePublicKey := fun k => Ok k;
  Kex.Verify := fun k data sig => if (Blob sig =? data)%string then Ok tt else Err "bad";
  hostKeyCallback := fun _ => Ok tt;
  newPacketCipher := fun _ _ => Ok tt;
  answer := Ok ""
|}.
Definition toy_algs : algorithms := mkAlgs "diffie-hellman-group1-sha1" "toy" (mkDir "" "" "") (mkDir "" "" "").

Lemma honest_exchange_witness : Kex.client toy_exchange toy_algs toy_magics = ([toy_init], Ok (res toy_result)).
Proof.
  apply (honest_exchange toy_sum (fun _ => 0) (fun _ _ _ => false) (fun _ q _ => q) (fun _ _ _ => "") (fun _ _ => None)
    (fun _ _ => "") (fun _ => "") toy_exchange toy_algs toy_group toy_magics (toy_source [0; 5]) (toy_source [7]) (fun _ => None) (fun _ => None)
    toy_host toy_init toy_reply toy_result (HostKey (res toy_result))).
  - reflexivity.
  - reflexivity.
  - exact toy_ok.
  - vm_compute; reflexivity.
  - vm_compute; reflexivity.
  - vm_compute; reflexivity.
  - exact toy_served.
  - vm_compute; reflexivity.
  - reflexivity.
  - reflexivity.
  - intros data sig [= <-]. cbn. by rewrite String.eqb_refl.
Defined.
