(* ===== verification/KeyMaterial.v ===== *)
(** The keys of a direction of the transport and the ciphers made of them
    (xendor/github.com/glycerine/xcryptossh: transport.go, cipher.go, mac.go): what an
    exchange of keys leaves becomes the ciphers that the packets go through. Hash
    functions, block ciphers, RC4 and the AEAD mode are parameters; counter mode,
    the skipping of a key stream and the truncation of a MAC are written out. *)
From S2P Require Import Prelude.
From S2P Require Import GoStrings.
From S2P Require Import Wire.
From S2P Require Import Negotiate.
From S2P Require Import Transport.
From S2P Require Import Cbc.
From S2P Require Import Kex.
From S2P Require Import KexAlgo.

(** ** Directions and algorithms *)

Record direction := mkDirection { ivTag : string; keyTag : string; macKeyTag : string }.
Definition serverKeys : direction := mkDirection "B" "D" "F".
Definition clientKeys : direction := mkDirection "A" "C" "E".

(** The functions that make a key stream. *)
Inductive createFunc := newAESCTR | newRC4.

Record streamCipherMode := mkCipherMode { keySize : Z; ivSize : Z; skip : Z; create : option createFunc }.

(** The map [cipherModes]; [Negotiate] has its keys. *)
Definition cipherMode (name : string) : option streamCipherMode :=
  if (name =? "aes128-ctr")%string then Some (mkCipherMode 16 16 0 (Some newAESCTR))
  else if (name =? "aes192-ctr")%string then Some (mkCipherMode 24 16 0 (Some newAESCTR))
  else if (name =? "aes256-ctr")%string then Some (mkCipherMode 32 16 0 (Some newAESCTR))
  else if (name =? "arcfour128")%string then Some (mkCipherMode 16 0 1536 (Some newRC4))
  else if (name =? "arcfour256")%string then Some (mkCipherMode 32 0 1536 (Some newRC4))
  else if (name =? "arcfour")%string then Some (mkCipherMode 16 0 0 (Some newRC4))
  else if (name =? gcmCipherID)%string then Some (mkCipherMode 16 12 0 None)
  else if (name =? aes128cbcID)%string then Some (mkCipherMode 16 16 0 None)
  else if (name =? tripledescbcID)%string then Some (mkCipherMode 24 8 0 None)
  else None.

(** A MAC: its hash function, and the length it is cut to if it is cut. *)
Record macMode := mkMacMode { mac_keySize : Z; mode_etm : bool; mac_hash : Hash; truncated : option Z }.

Definition macModes (name : string) : option macMode :=
  if (name =? "hmac-sha2-256-etm@openssh.com")%string then Some (mkMacMode 32 true SHA256 None)
  else if (name =? "hmac-sha2-256")%string then Some (mkMacMode 32 false SHA256 None)
  else if (name =? "hmac-sha1")%string then Some (mkMacMode 20 false SHA1 None)
  else if (name =? "hmac-sha1-96")%string then Some (mkMacMode 20 false SHA1 (Some 12))
  else None.

Definition hash_size (h : Hash) : Z :=
  match h with SHA1 => 20 | SHA256 => 32 | SHA384 => 48 | SHA512 => 64 end.

Definition nil_pointer : string := "invalid memory address or nil pointer dereference".

(** The ciphers of a connection. *)
Definition transportCipher : Type := (anyCipher + cbcCipher)%type.

Section KeyMaterial.
(** Hash.New().Sum, hmac.New(...).Sum with a key; aes.NewCipher, des.NewTripleDESCipher,
    the key stream of rc4.NewCipher, cipher.NewGCM. *)
Context (sum : Hash -> string -> string) (hmac : Hash -> string -> string -> string).
Context (aes tripleDES : string -> outcome blockCipher) (rc4 : string -> outcome (nat -> ascii))
        (NewGCM : blockCipher -> outcome ((string -> string -> string -> string) * (string -> string -> string -> outcome string))).

(** *** Keys *)

(** The loop of [generateKeyMaterial]: [n] bytes are still to be filled. *)
Fixpoint fill (fuel n : nat) (tag : string) (r : Result) (SessionID digestsSoFar : string) : outcome string :=
  match fuel, n with
  | _, O => Ok ""
  | O, _ => Blocked
  | S fuel, n =>
      let digest := sum (Hash_ r) (K_ r +:+ H_ (res r) +:+
                      (if slen digestsSoFar =? 0 then tag +:+ SessionID else digestsSoFar)) in
      let copied := stake n digest in
      let? rest := fill fuel (n - String.length copied) tag r SessionID (digestsSoFar +:+ digest) in
      Ok (copied +:+ rest)
  end.
Definition generateKeyMaterial (n : Z) (tag : string) (r : Result) (SessionID : string) : outcome string :=
  fill (Z.to_nat n) (Z.to_nat n) tag r SessionID "".

Definition generateKeys (d : direction) (algs : directionAlgorithms) (kex : Result) (SessionID : string)
  : outcome (string * string * string) :=
  match cipherMode (Cipher algs), macModes (MAC algs) with
  | Some c, Some m =>
      let? iv := generateKeyMaterial (ivSize c) (ivTag d) kex SessionID in
      let? key := generateKeyMaterial (keySize c) (keyTag d) kex SessionID in
      let? macKey := generateKeyMaterial (mac_keySize m) (macKeyTag d) kex SessionID in
      Ok (iv, key, macKey)
  | _, _ => Panic nil_pointer
  end.

(** *** Ciphers *)

(** [truncatingMAC.Sum]; a digest is never shorter than what it is cut to. *)
Definition truncatingMAC_Sum (length : Z) (digest : string) : string := stake (Z.to_nat length) digest.

(** [macMode.new], with the flag of the mode. *)
Definition new_mac (m : macMode) (key : string) : macAlg :=
  match truncated m with
  | Some n => mkMac (mode_etm m) (fun s => truncatingMAC_Sum n (hmac (mac_hash m) key s)) n
  | None => mkMac (mode_etm m) (hmac (mac_hash m) key) (hash_size (mac_hash m))
  end.

(** cipher.NewCTR: the counter is the vector, counted up with each block. *)
Definition ctr_ks (b : blockCipher) (iv : string) (n : nat) : ascii :=
  let bs := Z.to_nat (BlockSize b) in
  match String.get (n mod bs) (Encrypt b (be_bytes bs (be iv + Z.of_nat (n / bs)))) with Some c => c | None => byte 0 end.
Definition NewCTR (b : blockCipher) (iv : string) : outcome stream :=
  if slen iv =? BlockSize b then Ok (mkStream (ctr_ks b iv) 0)
  else Panic "cipher.NewCTR: IV length must equal block size".

Definition run_create (f : createFunc) (key iv : string) : outcome stream :=
  match f with
  | newAESCTR => let? c := aes key in NewCTR c iv
  | newRC4 => let? k := rc4 key in Ok (mkStream k 0)
  end.

(** The loop that throws away the start of the key stream, in place. *)
Fixpoint skip_stream (fuel : nat) (remaining : Z) (dump : string) (st : stream) : outcome stream :=
  if remaining <=? 0 then Ok st
  else
    match fuel with
    | O => Blocked
    | S fuel =>
        let now := if slen dump <? remaining then slen dump else remaining in
        let '(out, st) := XORKeyStream (stake (Z.to_nat now) dump) st in
        skip_stream fuel (remaining - now) (out +:+ sdrop (Z.to_nat now) dump) st
    end.

Definition createStream (c : streamCipherMode) (key iv : string) : outcome stream :=
  if slen key <? keySize c then Panic "ssh: key length too small for cipher"
  else if slen iv <? ivSize c then Panic "ssh: iv too small for cipher"
  else
    match create c with
    | None => Panic nil_pointer
    | Some f =>
        let? st := run_create f (stake (Z.to_nat (keySize c)) key) (stake (Z.to_nat (ivSize c)) iv) in
        let dump := if 0 <? skip c then be_bytes 512 0 else "" in
        skip_stream (Z.to_nat (skip c)) (skip c) dump st
    end.

Definition newGCMCipher (iv key macKey : string) : outcome gcmCipher :=
  let? c := aes key in
  let? '(seal, open) := NewGCM c in
  Ok (mkGCM seal open iv).

(** The flag of the MAC that says encrypt-then-MAC is not looked at. *)
Definition newCBCCipher (c : blockCipher) (iv key macKey : string) (algs : directionAlgorithms) : outcome cbcCipher :=
  match macModes (MAC algs) with
  | None => Panic nil_pointer
  | Some m =>
      if slen iv =? BlockSize c then Ok (mkCBC (Some (new_mac m macKey)) c iv iv 0)
      else Panic "cipher.NewCBCDecrypter: IV length must equal block size"
  end.
Definition newAESCBCCipher (iv key macKey : string) (algs : directionAlgorithms) : outcome cbcCipher :=
  let? c := aes key in newCBCCipher c iv key macKey algs.
Definition newTripleDESCBCCipher (iv key macKey : string) (algs : directionAlgorithms) : outcome cbcCipher :=
  let? c := tripleDES key in newCBCCipher c iv key macKey algs.

Definition newPacketCipher (d : direction) (algs : directionAlgorithms) (kex : Result) (SessionID : string)
  : outcome transportCipher :=
  let? '(iv, key, macKey) := generateKeys d algs kex SessionID in
  if (Cipher algs =? gcmCipherID)%string then let? c := newGCMCipher iv key macKey in Ok (inl (inr c))
  else if (Cipher algs =? aes128cbcID)%string then let? c := newAESCBCCipher iv key macKey algs in Ok (inr c)
  else if (Cipher algs =? tripledescbcID)%string then let? c := newTripleDESCBCCipher iv key macKey algs in Ok (inr c)
  else
    match macModes (MAC algs), cipherMode (Cipher algs) with
    | Some m, Some c => let? st := createStream c key iv in Ok (inl (inl (mkSPC (Some (new_mac m macKey)) st)))
    | _, _ => Panic nil_pointer
    end.

(** [newTransport]: the direction of the reader, and of the writer. *)
Definition directions (isClient : bool) : direction * direction :=
  if isClient then (serverKeys, clientKeys) else (clientKeys, serverKeys).

(** [prepareKeyChange]: the ciphers that wait for the NEWKEYS packets, of the
    reader and of the writer. *)
Definition prepareKeyChange (isClient : bool) (algs : algorithms) (kex : Result) (SessionID : string)
  : outcome (transportCipher * transportCipher) :=
  let? cr := newPacketCipher (directions isClient).1 (r algs) kex SessionID in
  let? cw := newPacketCipher (directions isClient).2 (w algs) kex SessionID in
  Ok (cr, cw).
End KeyMaterial.

(** ** The keys are those of RFC 4253 *)

Section Keys.
Context (sum : Hash -> string -> string) (r : Result) (SessionID : string) (tag : string).

(** Section 7.2: K1 = HASH(K || H || X || session_id), K2 = HASH(K || H || K1),
    K3 = HASH(K || H || K1 || K2), ...; the first [n] of them in a row. *)
Fixpoint rfc_keys (n : nat) : string :=
  match n with
  | O => ""
  | S n =>
      rfc_keys n +:+
      sum (Hash_ r) (K_ r +:+ H_ (res r) +:+ match n with O => tag +:+ SessionID | _ => rfc_keys n end)
  end.

Context (hash_ok : 0 < hash_size (Hash_ r) /\ forall s, slen (sum (Hash_ r) s) = hash_size (Hash_ r)).

Lemma rfc_keys_length n : slen (rfc_keys n) = Z.of_nat n * hash_size (Hash_ r).
Proof. induction n as [|n IH]; [done|]. cbn [rfc_keys]. rewrite slen_app, IH, (proj2 hash_ok). lia. Qed.

Lemma stake_app_gt n a b : (String.length a <= n)%nat -> stake n (a +:+ b) = a +:+ stake (n - String.length a) b.
Proof. intros H. replace n with (String.length a + (n - String.length a))%nat at 1 by lia. apply stake_app_ge. Qed.

Lemma stake_0 s : stake 0 s = "".
Proof. by destruct s. Qed.

Lemma fill_rfc fuel n j k :
  (n <= fuel)%nat -> Z.of_nat n <= Z.of_nat k * hash_size (Hash_ r) ->
  fill sum fuel n tag r SessionID (rfc_keys j) = Ok (stake n (sdrop (String.length (rfc_keys j)) (rfc_keys (j + k)))).
Proof.
  destruct hash_ok as [H0 HL]. revert n j k. induction fuel as [|fuel IH]; intros n j k Hf Hk.
  { by assert (n = 0)%nat as -> by lia. }
  destruct n as [|n]; [done|]. destruct k as [|k]; [lia|]. cbn [fill].
  rewrite rfc_keys_length. set (digest := sum _ _).
  assert (rfc_keys j +:+ digest = rfc_keys (S j)) as Ed.
  { cbn [rfc_keys]. unfold digest. do 3 f_equal. destruct j; [done|]. by destruct (Z.eqb_spec (Z.of_nat (S j) * hash_size (Hash_ r)) 0); [lia|]. }
  assert (slen digest = hash_size (Hash_ r)) as Hd by apply HL.
  assert (exists t, rfc_keys (j + S k) = rfc_keys (S j) +:+ t /\ rfc_keys (S j + k) = rfc_keys (S j) +:+ t) as (t & E1 & E2).
  { replace (j + S k)%nat with (S j + k)%nat by lia. assert (exists t, rfc_keys (S j + k) = rfc_keys (S j) +:+ t) as [t E]; [|by exists t].
    clear. induction k as [|k [t IH]]; [exists ""; by rewrite Nat.add_0_r, string_app_nil_r|].
    replace (S j + S k)%nat with (S (S j + k)) by lia. cbn [rfc_keys]. rewrite IH. rewrite string_app_assoc. by eexists. }
  rewrite Ed, (IH _ (S j) k); [|rewrite stake_length; unfold slen in Hd; lia|rewrite stake_length; unfold slen in Hd; lia].
  cbn [obind]. f_equal. rewrite E2, sdrop_app, E1, <- Ed, string_app_assoc, sdrop_app.
  destruct (Nat.le_gt_cases (String.length digest) (S n)) as [Hle|Hgt].
  - rewrite (stake_app_gt (S n) digest t) by done. rewrite stake_length. f_equal; [|f_equal; lia].
    rewrite <- (string_app_nil_r digest) at 1. rewrite stake_app_gt by done.
    assert (forall m, stake m "" = "") as -> by by intros []. by rewrite string_app_nil_r.
  - rewrite (stake_app_le (S n) digest t) by lia. rewrite stake_length. replace (S n - _)%nat with 0%nat by lia.
    by rewrite stake_0, string_app_nil_r.
Qed.
End Keys.

(** The loop that makes key material always ends and computes the keys of RFC
    4253: the bytes asked for, from the front of K1 || K2 || ..., where each key is
    the hash of the shared secret, the exchange hash and all keys before it, and
    the first one of the tag and the session. *)
Theorem key_material_rfc sum r SessionID tag n k :
  (0 < hash_size (Hash_ r) /\ forall s, slen (sum (Hash_ r) s) = hash_size (Hash_ r)) ->
  n <= Z.of_nat k * hash_size (Hash_ r) ->
  generateKeyMaterial sum n tag r SessionID = Ok (stake (Z.to_nat n) (rfc_keys sum r SessionID tag k)).
Proof.
  intros Hh Hn. unfold generateKeyMaterial. change "" with (rfc_keys sum r SessionID tag 0).
  rewrite (fill_rfc sum r SessionID tag Hh _ _ 0 k) by lia. done.
Qed.

(** ** Both ends get the same ciphers *)

Lemma cipher_supported name : name ∈ cipherModes <-> is_Some (cipherMode name).
Proof.
  unfold cipherModes, cipherMode. rewrite !elem_of_cons, elem_of_nil.
  split; [by intros [->|[->|[->|[->|[->|[->|[->|[->|[->|[]]]]]]]]]]; eexists|].
  intros [a H]. repeat match type of H with context [if (?x =? ?y)%string then _ else _] => destruct (String.eqb_spec x y) as [->|?]; [tauto|] end. done.
Qed.
Lemma mac_supported name : name ∈ supportedMACs <-> is_Some (macModes name).
Proof.
  unfold supportedMACs, macModes. rewrite !elem_of_cons, elem_of_nil.
  split; [by intros [->|[->|[->|[->|[]]]]]; eexists|].
  intros [a H]. repeat match type of H with context [if (?x =? ?y)%string then _ else _] => destruct (String.eqb_spec x y) as [->|?]; [tauto|] end. done.
Qed.

Definition supported (d : directionAlgorithms) : Prop := Cipher d ∈ cipherModes /\ MAC d ∈ supportedMACs.

Section Ciphers.
Context (sum : Hash -> string -> string) (hmac : Hash -> string -> string -> string).
Context (aes tripleDES : string -> outcome blockCipher) (rc4 : string -> outcome (nat -> ascii))
        (NewGCM : blockCipher -> outcome ((string -> string -> string -> string) * (string -> string -> string -> outcome string))).
Abbreviation newPacketCipher := (newPacketCipher sum hmac aes tripleDES rc4 NewGCM).
Abbreviation prepareKeyChange := (prepareKeyChange sum hmac aes tripleDES rc4 NewGCM).

(** What is relied on of the primitives: the sizes of digests, the sizes of keys
    that are taken, that block ciphers decrypt what they encrypt and GCM opens what
    it seals. *)
Record crypto_ok : Prop := {
  sum_size : forall h s, slen (sum h s) = hash_size h;
  hmac_size : forall h k s, slen (hmac h k s) = hash_size h;
  aes_ok : forall key, slen key ∈ [16; 24; 32] -> exists b, aes key = Ok b /\ BlockSize b = 16 /\ block_ok b;
  des_ok : forall key, slen key = 24 -> exists b, tripleDES key = Ok b /\ BlockSize b = 8 /\ block_ok b;
  rc4_ok : forall key, 1 <= slen key <= 256 -> exists k, rc4 key = Ok k;
  gcm_ok : forall b, BlockSize b = 16 -> exists seal open, NewGCM b = Ok (seal, open) /\
    forall n p a, open n (seal n p a) a = Ok p /\ slen (seal n p a) = slen p + gcmTagSize;
}.
Context (ok : crypto_ok).

Lemma hash_size_pos h : 20 <= hash_size h.
Proof. by destruct h. Qed.

Lemma material_size n tag r sid :
  0 <= n -> exists s, generateKeyMaterial sum n tag r sid = Ok s /\ slen s = n.
Proof.
  intros Hn. pose proof (hash_size_pos (Hash_ r)) as Hp.
  assert (0 < hash_size (Hash_ r) /\ forall s, slen (sum (Hash_ r) s) = hash_size (Hash_ r)) as Hh by (split; [lia|apply ok]).
  unfold generateKeyMaterial. change "" with (rfc_keys sum r sid tag 0). rewrite (fill_rfc sum r sid tag Hh _ _ 0 (Z.to_nat n)) by nia.
  eexists. split; [done|]. cbn [sdrop rfc_keys String.length Nat.add]. apply stake_slen.
  rewrite rfc_keys_length by done. nia.
Qed.

Lemma new_mac_wf m key st : truncated m = None \/ truncated m = Some 12 -> mac_wf (mkSPC (Some (new_mac hmac m key)) st).
Proof.
  intros Ht m' [= <-]. unfold new_mac. pose proof (hash_size_pos (mac_hash m)).
  destruct Ht as [-> | ->]; cbn [Size Sum]; (split; [lia|]); intros s; [apply ok|].
  unfold truncatingMAC_Sum. rewrite stake_slen; [done|]. rewrite (hmac_size ok). lia.
Qed.

Lemma skip_stream_total fuel remaining dump st :
  (0 < remaining -> 0 < slen dump) -> remaining <= Z.of_nat fuel -> exists st', skip_stream fuel remaining dump st = Ok st'.
Proof.
  revert remaining dump st. induction fuel as [|fuel IH]; intros rem dump st Hd Hf; cbn [skip_stream];
    destruct (Z.leb_spec rem 0); [by eexists|lia|by eexists|].
  destruct (XORKeyStream _ st) as [out st1] eqn:E. set (now := if _ <? _ then _ else _) in *.
  assert (0 < now <= slen dump) as Hn by (unfold now; destruct (Z.ltb_spec (slen dump) rem); lia).
  apply IH; [|lia]. intros _. rewrite slen_app, sdrop_slen. pose proof (XOR_length st (stake (Z.to_nat now) dump)) as HX.
  rewrite E in HX. cbn [fst] in HX. rewrite stake_length in HX. unfold slen in *. lia.
Qed.

Lemma stream_created c f key iv :
  create c = Some f -> slen key = keySize c -> slen iv = ivSize c ->
  match f with newAESCTR => slen key ∈ [16; 24; 32] /\ slen iv = 16 | newRC4 => 1 <= slen key <= 256 end ->
  exists st, createStream aes rc4 c key iv = Ok st.
Proof.
  intros Hc Hk Hi Hf. unfold createStream. rewrite Hk, Hi, !Z.ltb_irrefl, Hc, <- Hk, <- Hi, !to_nat_slen, !stake_all.
  assert (exists st, run_create aes rc4 f key iv = Ok st) as [st ->].
  { destruct f; cbn [run_create].
    - destruct Hf as [Hl Hi16]. destruct (aes_ok ok key Hl) as (b & -> & Hb & _). cbn [obind]. unfold NewCTR. rewrite Hb, Hi16. by eexists.
    - destruct (rc4_ok ok key Hf) as [k ->]. by eexists. }
  cbn [obind]. apply skip_stream_total; [|lia]. intros H0. by rewrite (proj2 (Z.ltb_lt _ _) H0).
Qed.

(** A supported cipher is made, and what one such cipher writes another reads. *)
Lemma new_cipher d algs r sid :
  supported algs -> exists c, newPacketCipher d algs r sid = Ok c /\ matched c c.
Proof.
  intros [Hc%cipher_supported Hm%mac_supported]. destruct Hc as [c Hc], Hm as [m Hm].
  unfold KeyMaterial.newPacketCipher, generateKeys. rewrite Hc, Hm.
  assert (0 <= ivSize c /\ 0 <= keySize c /\ 0 <= mac_keySize m) as (Hi & Hk & Hmk).
  { unfold cipherMode, macModes in *. repeat case_match; simplify_eq; cbn; lia. }
  destruct (material_size _ (ivTag d) r sid Hi) as (iv & -> & Hil). destruct (material_size _ (keyTag d) r sid Hk) as (key & -> & Hkl).
  destruct (material_size _ (macKeyTag d) r sid Hmk) as (mk & -> & Hml). cbn [obind].
  assert (truncated m = None \/ truncated m = Some 12) as Ht by (unfold macModes in Hm; repeat case_match; simplify_eq; tauto).
  pose proof (fun st => new_mac_wf m mk st Ht) as Hwf.
  assert (forall b, BlockSize b = slen iv -> block_ok b ->
            exists c, newCBCCipher hmac b iv key mk algs = Ok c /\ cbc_matched c c) as HCBC.
  { intros b Hb Hbo. unfold newCBCCipher. rewrite Hm, <- Hb, Z.eqb_refl. eexists. split; [done|]. by split_and!; try apply (Hwf noneCipher). }
  destruct (String.eqb_spec (Cipher algs) gcmCipherID) as [E|N1].
  { rewrite E in Hc. injection Hc as <-. cbn in Hil, Hkl. unfold newGCMCipher.
    destruct (aes_ok ok key) as (b & -> & Hb & _); [set_solver|]. cbn [obind]. destruct (gcm_ok ok b Hb) as (seal & open & -> & HG).
    cbn [obind]. eexists. split; [done|]. by split_and!. }
  destruct (String.eqb_spec (Cipher algs) aes128cbcID) as [E|N2].
  { rewrite E in Hc. injection Hc as <-. cbn in Hil, Hkl. unfold newAESCBCCipher.
    destruct (aes_ok ok key) as (b & -> & Hb & Hbo); [set_solver|]. cbn [obind].
    destruct (HCBC b) as (c & -> & HM); [lia|done|]. cbn [obind]. by eexists. }
  destruct (String.eqb_spec (Cipher algs) tripledescbcID) as [E|N3].
  { rewrite E in Hc. injection Hc as <-. cbn in Hil, Hkl. unfold newTripleDESCBCCipher.
    destruct (des_ok ok key) as (b & -> & Hb & Hbo); [done|]. cbn [obind].
    destruct (HCBC b) as (c & -> & HM); [lia|done|]. cbn [obind]. by eexists. }
  assert (exists f, create c = Some f /\ match f with newAESCTR => slen key ∈ [16; 24; 32] /\ slen iv = 16 | newRC4 => 1 <= slen key <= 256 end) as (f & Hf & Hfk).
  { unfold cipherMode in Hc. repeat case_match; simplify_eq;
      try (match goal with E : (_ =? _)%string = true |- _ => apply String.eqb_eq in E; contradiction end); cbn in Hil, Hkl; eexists; (split; [reflexivity|]); cbn; first [lia|set_solver]. }
  destruct (stream_created c f key iv Hf Hkl Hil Hfk) as [st ->]. cbn [obind]. eexists. split; [done|]. split; [done|apply Hwf].
Qed.

Lemma keys_prepared isClient a r sid :
  supported (w a) -> w a = Negotiate.r a ->
  exists cr cw, prepareKeyChange isClient a r sid = Ok (cr, cw) /\ prepareKeyChange (negb isClient) a r sid = Ok (cw, cr) /\
    matched cr cr /\ matched cw cw.
Proof.
  intros Hs Ha. unfold KeyMaterial.prepareKeyChange. rewrite <- Ha.
  destruct (new_cipher (directions isClient).1 (w a) r sid Hs) as (cr & Er & Mr).
  destruct (new_cipher (directions isClient).2 (w a) r sid Hs) as (cw & Ew & Mw).
  exists cr, cw. assert (directions (negb isClient) = ((directions isClient).2, (directions isClient).1)) as -> by by destruct isClient.
  cbn [fst snd]. by rewrite Er, Ew.
Qed.

(** *** A conversation across a change of keys *)

(** Packets with the random bytes of their padding. *)
Definition sends (l : list (string * string)) : list (action transportCipher) := map (fun '(rand, p) => SendPacket rand p) l.
Definition sendable (a : string * string) : Prop := 32 <= slen a.1 /\ plain_packet a.2 /\ byte_at 0 a.2 <> 21.

Lemma conn_written rand p (sw sr : connectionState transportCipher) :
  linked sw sr -> packet_ok p -> 32 <= slen rand -> (byte_at 0 p = 21 -> pendingKeyChange sw <> None) ->
  exists out, (conn_write rand None p sw).2 = Ok out /\
    pendingKeyChange (conn_write rand None p sw).1 = if byte_at 0 p =? 21 then None else pendingKeyChange sw.
Proof.
  intros (Hm & _ & _) Hp Hr Hk. unfold conn_write.
  destruct (write_fails (seqNum sw) rand p _ _ Hm Hp Hr) as (cw & out & ->). exists out.
  destruct p as [|b p]; [by destruct Hp|]. change (byte_at 0 (String b p)) with (val b) in *.
  destruct (Z.eqb_spec (val b) 21) as [E|E]; cbn [pendingKeyChange]; [|done].
  by destruct (pendingKeyChange sw); [|destruct (Hk E)].
Qed.

(** One packet of a run. *)
Lemma run_packet rand p l (sw sr : connectionState transportCipher) :
  linked sw sr -> plain_packet p -> 32 <= slen rand -> (byte_at 0 p = 21 -> pendingKeyChange sw <> None) ->
  (forall sw' sr', linked sw' sr' -> pendingKeyChange sw' = (if byte_at 0 p =? 21 then None else pendingKeyChange sw) ->
     is_Some (run_writer l sw')) ->
  is_Some (run_writer (SendPacket rand p :: l) sw).
Proof.
  intros Hl Hp Hr Hk IH. cbn [run_writer]. destruct (conn_written rand p sw sr Hl (proj1 Hp) Hr Hk) as (out & Ho & Hpend).
  destruct (conn_write rand None p sw) as [sw' res] eqn:E. cbn [fst snd] in Ho, Hpend. subst res.
  destruct (conn_write_read _ _ _ _ _ _ "" Hl Hp E) as (sr' & _ & Hl').
  destruct (IH sw' sr' Hl' Hpend) as [[s o] ->]. by eexists.
Qed.

Lemma run_sends l k (sw sr : connectionState transportCipher) :
  Forall sendable l -> linked sw sr ->
  (forall sw' sr', linked sw' sr' -> pendingKeyChange sw' = pendingKeyChange sw -> is_Some (run_writer k sw')) ->
  is_Some (run_writer (sends l ++ k) sw).
Proof.
  intros Hl. revert sw sr. induction Hl as [|[rand p] l (Hr & Hp & Hb) Hl IH]; intros sw sr Hlk Hk; [by apply (Hk sw sr)|].
  apply (run_packet rand p _ sw sr); try done. intros sw' sr' Hlk' Hpend. destruct (Z.eqb_spec (byte_at 0 p) 21); [done|].
  apply (IH sw' sr' Hlk'). intros sw2 sr2 H2 E2. apply (Hk sw2 sr2); [done|congruence].
Qed.

Definition newKeys_packet : string := String (byte 21) "".

Lemma newKeys_plain : plain_packet newKeys_packet.
Proof. by split. Qed.

(** C6: After an exchange whose lists both ends took from completed configurations,
    with MACs that exist at the client, the two ends prepare the same ciphers
    crosswise, whatever cipher and MAC were agreed on. The packets of either
    direction, before the change of keys and after it, are written and arrive in
    order and unchanged: the NEWKEYS packet still under the old keys, all that
    follow under the new ones. The packets are the [sendable] ones: not empty, of at
    most maxPacket - 20 bytes, with a first byte that is neither that of a disconnect
    (1) nor that of NEWKEYS (21), and 32 random bytes at least for their padding; a
    longer one can be written but not read, see [longest_packet_unreadable]. *)
Theorem keys_carry_packets (configs : Config * Config) cookies tc ts a kex sid isClient before rand after sw sr :
  config tc = SetDefaults configs.1 -> Forall (fun m => m ∈ supportedMACs) (default [] (MACs (config tc))) ->
  findAgreedAlgorithms (own_init cookies.1 tc) (own_init cookies.2 ts) = Ok a ->
  Forall sendable before -> Forall sendable after -> 32 <= slen rand ->
  linked sw sr -> pendingKeyChange sw = None ->
  exists cr cw, prepareKeyChange isClient a kex sid = Ok (cr, cw) /\ prepareKeyChange (negb isClient) a kex sid = Ok (cw, cr) /\
    let l := sends before ++ KeyChange cw cw :: SendPacket rand newKeys_packet :: sends after in
    exists sw' out, run_writer l sw = Some (sw', out) /\
      forall rest, exists sr', run_reader l (out +:+ rest) sr = Some (sr', rest, map snd before ++ newKeys_packet :: map snd after) /\
        linked sw' sr'.
Proof.
  intros Hcfg Hmacs Ha Hb Hf Hr Hl Hpend.
  pose proof (same_lists_same_directions _ _ _ _ _ Ha) as Hwr.
  assert (supported (w a)) as Hs.
  { destruct (agreement (own_init cookies.1 tc) (own_init cookies.2 ts)) as [(a' & Ea & Hall)|(e & Ee & _)]; [|congruence].
    rewrite Ea in Ha. injection Ha as ->. unfold choices in Hall. rewrite !Forall_cons in Hall.
    destruct Hall as (_ & _ & (b1 & a1 & Hc & _) & _ & (b2 & a2 & Hm & _) & _). cbn in Hc, Hm. split.
    - pose proof (default_ciphers configs.1) as HD. rewrite <- Hcfg, Hc, Forall_app, Forall_cons in HD. by apply offers_spec, HD.
    - rewrite Hm, Forall_app, Forall_cons in Hmacs. apply Hmacs. }
  destruct (keys_prepared isClient a kex sid Hs Hwr) as (cr & cw & E1 & E2 & _ & Mw).
  exists cr, cw. split; [done|]. split; [done|]. intros l.
  assert (is_Some (run_writer l sw)) as [[sw' out] Hrun].
  { apply (run_sends before _ sw sr Hb Hl). intros s1 r1 (L1 & L2 & L3) P1. rewrite P1, Hpend in L3.
    cbn [run_writer]. unfold put_keys. rewrite P1, Hpend.
    destruct (pendingKeyChange r1) eqn:Er1; [done|].
    apply (run_packet rand newKeys_packet _ _ (mkConn (packetCipher r1) (seqNum r1) (Some cw))); [|apply newKeys_plain|done|done|].
    - by split_and!.
    - intros s2 r2 H2 P2. rewrite <- (app_nil_r (sends after)). apply (run_sends after [] s2 r2 Hf H2). intros. by eexists. }
  exists sw', out. split; [done|]. intros rest.
  assert (packets l = map snd before ++ newKeys_packet :: map snd after) as <-.
  { assert (forall l, packets (sends l) = map snd l) as Hps by (induction l0 as [|[? ?] ? IH]; [done|]; cbn; by f_equal).
    unfold l, packets in *. rewrite flat_map_app. cbn. by rewrite !Hps. }
  apply (conversation l sw sr sw' out rest Hl); [|done].
  assert (forall l, Forall sendable l -> Forall action_ok (sends l)) as Hok.
  { intros l' H'. apply Forall_map. eapply Forall_impl; [exact H'|]. intros [? ?] (_ & ? & _). done. }
  apply Forall_app. split; [by apply Hok|]. do 2 (apply Forall_cons; split; [done || apply newKeys_plain|]). by apply Hok.
Qed.

(** A MAC that does not exist stops the program: SetDefaults rejects unknown
    ciphers, but not unknown MACs, so that two ends that were both configured with
    one agree on it, and making the keys follows a nil pointer. *)
Theorem unknown_mac_panics cookies tc ts name kex sid isClient :
  name ∉ supportedMACs -> config tc = SetDefaults (mkConfig 0 None None (Some [name])) -> config ts = config tc ->
  forall a, findAgreedAlgorithms (own_init cookies.1 tc) (own_init cookies.2 ts) = Ok a ->
  prepareKeyChange isClient a kex sid = Panic nil_pointer.
Proof.
  intros Hn Hc Hs a Ha. pose proof (same_lists_same_directions _ _ _ _ _ Ha) as Hwr.
  assert (MAC (Negotiate.r a) = name) as Hm.
  { destruct (agreement (own_init cookies.1 tc) (own_init cookies.2 ts)) as [(a' & Ea & Hall)|(e & Ee & _)]; [|congruence].
    rewrite Ea in Ha. injection Ha as ->. unfold choices in Hall. rewrite !Forall_cons in Hall.
    destruct Hall as (_ & _ & _ & _ & _ & (b2 & a2 & Hm & _) & _). cbn in Hm. rewrite Hc in Hm.
    destruct b2 as [|? []]; by injection Hm. }
  unfold KeyMaterial.prepareKeyChange, KeyMaterial.newPacketCipher, generateKeys. rewrite Hm.
  destruct (macModes name) eqn:E; [destruct Hn; apply mac_supported; by eexists|]. by destruct (cipherMode _).
Qed.
End Ciphers.

(** ** A concrete change of keys *)

Definition toy_block (n : Z) : blockCipher := mkBlock n (fun s => s) (fun s => s).
Definition toy_hash (h : Hash) (s : string) : string := be_bytes (Z.to_nat (hash_size h)) (be s).
Definition toy_aes (key : string) : outcome blockCipher :=
  if bool_decide (slen key ∈ [16; 24; 32]) then Ok (toy_block 16) else Err "crypto/aes: invalid key size".
Definition toy_des (key : string) : outcome blockCipher :=
  if slen key =? 24 then Ok (toy_block 8) else Err "crypto/des: invalid key size".
Definition toy_rc4 (key : string) : outcome (nat -> ascii) := Ok (fun n => byte (be key + Z.of_nat n)).
Definition toy_gcm (b : blockCipher) : outcome ((string -> string -> string -> string) * (string -> string -> string -> outcome string)) :=
  Ok (Seal demo_gcm, Open demo_gcm).

Lemma toy_crypto : crypto_ok toy_hash (fun h _ => toy_hash h) toy_aes toy_des toy_rc4 toy_gcm.
Proof.
  split.
  - intros h s. unfold toy_hash. rewrite slen_be_bytes. by destruct h.
  - intros h k s. unfold toy_hash. rewrite slen_be_bytes. by destruct h.
  - intros key H. unfold toy_aes. rewrite bool_decide_true by done. exists (toy_block 16). split_and!; try done. by split; [right|].
  - intros key H. unfold toy_des. rewrite H. exists (toy_block 8). split_and!; try done. by split; [left|].
  - intros key _. by eexists.
  - intros b _. exists (Seal demo_gcm), (Open demo_gcm). split; [done|]. exact (proj2 demo_aead_ok).
Qed.

Lemma key_material_rfc_witness :
  generateKeyMaterial toy_hash 50 "A" toy_result "session" = Ok (stake 50 (rfc_keys toy_hash toy_result "session" "A" 3)).
Proof.
  apply (key_material_rfc toy_hash toy_result "session" "A" 50 3); [split; [reflexivity|]|vm_compute; congruence].
  intros s. apply toy_crypto.
Defined.

Definition demo_algs : algorithms :=
  match findAgreedAlgorithms (own_init demo_cookie demo_client) (own_init demo_cookie demo_server) with Ok a => a | _ => no_algorithm end.
Lemma demo_agreed : findAgreedAlgorithms (own_init demo_cookie demo_client) (own_init demo_cookie demo_server) = Ok demo_algs.
Proof. vm_compute. reflexivity. Qed.

Definition toy_prepare : bool -> algorithms -> Result -> string -> outcome (transportCipher * transportCipher) :=
  prepareKeyChange toy_hash (fun h _ => toy_hash h) toy_aes toy_des toy_rc4 toy_gcm.
Definition first_state : connectionState transportCipher := mkConn (inl (inl demo_plain)) 0 None.
Lemma first_linked : linked first_state first_state.
Proof. by split_and!. Qed.

Lemma keys_carry_packets_witness :
  exists cr cw, toy_prepare true demo_algs toy_result "session" = Ok (cr, cw) /\
    toy_prepare false demo_algs toy_result "session" = Ok (cw, cr) /\
    let l := sends [(demo_rand, "one")] ++ KeyChange cw cw :: SendPacket demo_rand newKeys_packet :: sends [(demo_rand, "two")] in
    exists sw' out, run_writer l first_state = Some (sw', out) /\
      forall rest, exists sr', run_reader l (out +:+ rest) first_state = Some (sr', rest, ["one"; newKeys_packet; "two"]) /\ linked sw' sr'.
Proof.
  apply (keys_carry_packets toy_hash (fun h _ => toy_hash h) toy_aes toy_des toy_rc4 toy_gcm toy_crypto
    (mkConfig 0 None None None, mkConfig 0 None None None) (demo_cookie, demo_cookie) demo_client demo_server demo_algs toy_result "session" true
    [(demo_rand, "one")] demo_rand [(demo_rand, "two")] first_state first_state).
  - reflexivity.
  - apply List.Forall_forall. intros m Hm. exact (proj2 (list_elem_of_In _ _) Hm).
  - exact demo_agreed.
  - repeat constructor; vm_compute; congruence.
  - repeat constructor; vm_compute; congruence.
  - vm_compute. congruence.
  - exact first_linked.
  - reflexivity.
Defined.

Definition odd_config : Config := SetDefaults (mkConfig 0 None None (Some ["hmac-md5"])).
Definition odd_client : handshakeTransport := newClientTransport odd_config "SSH-2.0-A" "SSH-2.0-B" None.
Definition odd_server : handshakeTransport := newServerTransport odd_config "SSH-2.0-A" "SSH-2.0-B" ["ssh-rsa"].
Lemma unknown_mac_panics_witness :
  toy_prepare true (match findAgreedAlgorithms (own_init "" odd_client) (own_init "" odd_server) with Ok a => a | _ => no_algorithm end)
    toy_result "session" = Panic nil_pointer.
Proof.
  apply (unknown_mac_panics toy_hash (fun h _ => toy_hash h) toy_aes toy_des toy_rc4 toy_gcm ("", "") odd_client odd_server "hmac-md5").
  - apply (bool_decide_unpack ("hmac-md5" ∉ supportedMACs)). vm_compute. exact I.
  - reflexivity.
  - reflexivity.
  - vm_compute. reflexivity.
Defined.
