(* ===== verification/AuthorizedKeys.v ===== *)
(** Files of public keys (xendor/github.com/glycerine/xcryptossh: keys.go):
    authorized_keys and known_hosts lines, as [ParseAuthorizedKey],
    [ParseKnownHosts] and [MarshalAuthorizedKey] read and write them. White space
    is that of ASCII. *)
From S2P Require Import Prelude.
From S2P Require Import GoStrings.
From S2P Require Import Wire.
From S2P Require Import Base64.
From S2P Require Import Keys.

(** ** Words of a line *)

Definition blank (c : ascii) : bool := Ascii.eqb c " " || Ascii.eqb c "009".

(** What is before the first blank, and the rest from it. *)
Fixpoint cut_blank (s : string) : string * string :=
  match s with
  | "" => ("", "")
  | String c s' => if blank c then ("", s) else let '(a, b) := cut_blank s' in (String c a, b)
  end.

Section Parser.
Context (ecMarshal : Z -> Z -> Z -> string) (ecUnmarshal : Z -> string -> option (Z * Z)).

(** The text of a base64 error also names a position. *)
Definition parseAuthorizedKey (data : string) : outcome (PublicKey * string) :=
  let data := TrimSpace data in
  let '(base64Key, rest) := cut_blank data in
  match Base64.decode base64Key with
  | None => Err "illegal base64 data"
  | Some key => let? out := ParsePublicKey ecUnmarshal key in Ok (out, TrimSpace rest)
  end.

(** The next line without its end, and what follows it. *)
Definition next_line (data : string) : string * string :=
  match cut nl_byte data with
  | (line, Some rest) => (line, rest)
  | (line, None) => (line, "")
  end.
Definition line_text (line : string) : string := TrimSpace (cut "013" line).1.

Definition is_comment (s : string) : bool :=
  match s with "" => true | String c _ => Ascii.eqb c "#" end.

(** Whether a byte of the options field opens or closes a quotation. *)
Definition is_quote (prev : option ascii) (b : ascii) : bool :=
  Ascii.eqb b dq_byte && match prev with None => true | Some c => negb (Ascii.eqb c "\") end.

(** The loop over the options field: [cur] is the option being read, [prev] the
    byte before. The result is the options, and the line from where the loop
    ended: at the blank, or at the last byte. *)
Fixpoint options_loop (prev : option ascii) (inQuote : bool) (cur s : string) : list string * string :=
  match s with
  | "" => ([], "")
  | String b s' =>
      let isEnd := negb inQuote && blank b in
      let ends := (Ascii.eqb b "," && negb inQuote) || isEnd in
      let got := if ends && negb (cur =? "")%string then [cur] else [] in
      if isEnd then (got, s)
      else
        let cur := if ends then "" else cur +:+ String b "" in
        match s' with
        | "" => (got, s)
        | _ => let '(l, rest) := options_loop (Some b) (if is_quote prev b then negb inQuote else inQuote) cur s' in (got ++ l, rest)
        end
  end.

(** One line: what [ParseAuthorizedKey] returns for it, or [None] to go on with
    the next. *)
Definition authorized_line (text : string) : option (outcome (PublicKey * string * list string)) :=
  if is_comment text then None
  else
    let '(_, tail) := cut_blank text in
    if (tail =? "")%string then None
    else
      match parseAuthorizedKey tail with
      | Ok (out, comment) => Some (Ok (out, comment, []))
      | Panic s => Some (Panic s)
      | Blocked => Some Blocked
      | Err _ =>
          let '(candidateOptions, rest) := options_loop None false "" text in
          let rest := trim_left blank rest in
          let '(_, tail) := cut_blank rest in
          if (tail =? "")%string then None
          else
            match parseAuthorizedKey tail with
            | Ok (out, comment) => Some (Ok (out, comment, candidateOptions))
            | Panic s => Some (Panic s)
            | Blocked => Some Blocked
            | Err _ => None
            end
      end.

(** The loop over the lines; a line takes at least one byte. *)
Fixpoint authorized_loop (fuel : nat) (data : string) : outcome (PublicKey * string * list string * string) :=
  match fuel with
  | O => Blocked
  | S fuel =>
      match data with
      | "" => Err "ssh: no key found"
      | _ =>
          let '(line, rest) := next_line data in
          match authorized_line (line_text line) with
          | Some res => let? r := res in Ok (r, rest)
          | None => authorized_loop fuel rest
          end
      end
  end.
Definition ParseAuthorizedKey (data : string) : outcome (PublicKey * string * list string * string) :=
  authorized_loop (S (String.length data)) data.

Definition MarshalAuthorizedKey (key : PublicKey) : outcome string :=
  let? ty := Type_ key in
  let? b := KeyMarshal ecMarshal key in
  Ok (ty +:+ " " +:+ Base64.encode b +:+ nl).

(** *** known_hosts *)

(** One line: marker, hosts, key, comment. *)
Definition known_hosts_line (text : string) : option (outcome (string * list string * PublicKey * string)) :=
  if is_comment text then None
  else if (snd (cut_blank text) =? "")%string then None
  else
    let keyFields := Fields text in
    if (List.length keyFields <? 3)%nat || (5 <? List.length keyFields)%nat
    then Some (Err "ssh: invalid entry in known_hosts data")
    else
      let '(marker, keyFields) :=
        match keyFields with
        | String c m :: l => if Ascii.eqb c "@" then (m, l) else ("", keyFields)
        | _ => ("", keyFields)
        end in
      match keyFields with
      | hosts :: _ :: key =>
          Some (let? '(pubKey, comment) := parseAuthorizedKey (join " " key) in Ok (marker, Split comma hosts, pubKey, comment))
      | _ => Some (Panic "index out of range")
      end.

Fixpoint known_hosts_loop (fuel : nat) (data : string) : outcome (string * list string * PublicKey * string * string) :=
  match fuel with
  | O => Blocked
  | S fuel =>
      match data with
      | "" => Err EOF
      | _ =>
          let '(line, rest) := next_line data in
          match known_hosts_line (line_text line) with
          | Some res => let? r := res in Ok (r, rest)
          | None => known_hosts_loop fuel rest
          end
      end
  end.
Definition ParseKnownHosts (data : string) : outcome (string * list string * PublicKey * string * string) :=
  known_hosts_loop (S (String.length data)) data.
End Parser.

(** ** Lines *)

Lemma cut_lacks c s : lacks c s = true -> cut c s = (s, None).
Proof.
  induction s as [|d s IH]; [done|]. rewrite lacks_cons. intros H. bool_prop. simpl.
  destruct (Ascii.eqb_spec d c); [done|]. by rewrite IH.
Qed.

Lemma blank_space c : blank c = true -> is_space c = true.
Proof. unfold blank. intros [->%Ascii.eqb_eq| ->%Ascii.eqb_eq]%orb_true_iff; done. Qed.

Lemma word_lacks c s : is_space c = true -> word s = true -> lacks c s = true.
Proof.
  unfold word. intros Hc [_ H]%andb_true_iff. eapply sall_impl; [|exact H]. intros d Hd.
  apply negb_true_iff, Ascii.eqb_neq. intros ->. by rewrite Hc in Hd.
Qed.

(** A word ends at the end of the line or at a blank. *)
Definition blank_first (s : string) : bool := match s with "" => true | String c _ => blank c end.

Lemma cut_blank_word w s : word w = true -> blank_first s = true -> cut_blank (w +:+ s) = (w, s).
Proof.
  unfold word. intros [_ Hw]%andb_true_iff Hs. induction w as [|c w IH].
  - destruct s as [|c s]; [done|]. change ("" +:+ String c s) with (String c s). cbn [cut_blank]. cbn [blank_first] in Hs. by rewrite Hs.
  - cbn [sall] in Hw. apply andb_true_iff in Hw as [Hc Hw]. change (String c w +:+ s) with (String c (w +:+ s)). cbn [cut_blank].
    destruct (blank c) eqn:Eb; [by rewrite (blank_space c Eb) in Hc|]. by rewrite IH.
Qed.

Lemma blank_first_trim s : blank_first s = true -> blank_first (trim_right is_space s) = true.
Proof. destruct s as [|c s]; [done|]. intros H. simpl trim_right. by destruct (trim_right is_space s); [destruct (is_space c)|]. Qed.

(** What follows the key. *)
Definition comment_part (comment : string) : string := if (comment =? "")%string then "" else String " " comment.

Lemma comment_part_blank c : blank_first (comment_part c) = true.
Proof. unfold comment_part. by destruct (c =? "")%string. Qed.
Lemma comment_part_right c : trimmed c = true -> trim_right is_space (comment_part c) = comment_part c.
Proof.
  unfold comment_part. intros H. destruct (String.eqb_spec c ""); [done|]. change (String " " c) with (" " +:+ c).
  rewrite trim_right_app, trimmed_right by done. by destruct (String.eqb_spec c "").
Qed.
Lemma comment_part_trim c : trimmed c = true -> TrimSpace (comment_part c) = c.
Proof.
  unfold comment_part. intros H. destruct (String.eqb_spec c "") as [->|]; [done|].
  unfold TrimSpace. change (trim_left is_space (String " " c)) with (trim_left is_space c).
  by rewrite trimmed_left, trimmed_right.
Qed.

Lemma word_part_right w c :
  word w = true -> trimmed c = true -> trim_right is_space (w +:+ comment_part c) = w +:+ comment_part c.
Proof.
  intros Hw Hc. rewrite trim_right_app, comment_part_right by done.
  destruct (String.eqb_spec (comment_part c) "") as [->|]; [|done].
  rewrite trimmed_right by (by apply word_trimmed). by rewrite string_app_nil_r.
Qed.

Lemma encode_word b : b <> "" -> word (Base64.encode b) = true.
Proof.
  intros Hb. unfold word. apply andb_true_iff. split; [|apply encode_chars].
  destruct b as [|x [|y [|z b]]]; done.
Qed.

(** ** The names of the types of keys *)

Definition type_names : list string := map fst certAlgoNames ++ map snd certAlgoNames.

Lemma type_name k ty : Type_ k = Ok ty -> ty ∈ type_names.
Proof.
  assert (forall c x, cert_Type c = Ok x -> x ∈ type_names) as Hc.
  { intros [n key s t i p a b o e r sk sg] x. cbn [cert_Type]. destruct (Type_ key) as [t'| | |]; [|done..]. cbn [obind].
    destruct (cert_algo certAlgoNames t') eqn:E; [|done]. intros [= <-]. apply cert_algo_in in E.
    unfold type_names. apply elem_of_app. right. apply list_elem_of_In, (in_map snd _ _ (proj1 (list_elem_of_In _ _) E)). }
  destruct k as [E N|P Q G Y|bits X Y|kb|c]; cbn [Type_]; [| | | |by apply Hc]; try (intros [= <-]; by apply (bool_decide_unpack _)).
  unfold nistID. intros H. repeat (match type of H with context [match ?x with _ => _ end] => destruct x; try discriminate H end);
    injection H as <-; by apply (bool_decide_unpack _).
Qed.

Definition type_name_ok (ty : string) : bool :=
  word ty && negb (is_comment ty) && bool_decide (Base64.decode ty = None).

Lemma type_name_spec ty : ty ∈ type_names -> type_name_ok ty = true.
Proof.
  intros H%list_elem_of_In. assert (forallb type_name_ok type_names = true) as Hall by (vm_compute; reflexivity).
  rewrite forallb_forall in Hall. by apply Hall.
Qed.

(** ** The key of a line *)

Section Lines.
Context (ecMarshal : Z -> Z -> Z -> string) (ecUnmarshal : Z -> string -> option (Z * Z)).
Abbreviation KeyMarshal := (KeyMarshal ecMarshal).
Abbreviation ParsePublicKey := (ParsePublicKey ecUnmarshal).
Abbreviation parseAuthorizedKey := (parseAuthorizedKey ecUnmarshal).
Abbreviation authorized_line := (authorized_line ecUnmarshal).
Abbreviation ParseAuthorizedKey := (ParseAuthorizedKey ecUnmarshal).

(** The word after the blank decides. *)
Lemma parse_word w s :
  word w = true -> blank_first s = true ->
  parseAuthorizedKey (String " " (w +:+ s)) =
    match Base64.decode w with
    | None => Err "illegal base64 data"
    | Some key => let? out := ParsePublicKey key in Ok (out, TrimSpace (trim_right is_space s))
    end.
Proof.
  intros Hw Hs. unfold AuthorizedKeys.parseAuthorizedKey.
  assert (TrimSpace (String " " (w +:+ s)) = w +:+ trim_right is_space s) as ->.
  { unfold TrimSpace. change (trim_left is_space (String " " ?x)) with (trim_left is_space x).
    assert (trim_left is_space (w +:+ s) = w +:+ s) as ->.
    { destruct w as [|c w]; [done|]. apply trim_left_id. unfold word in Hw. cbn [sall] in Hw. by bool_prop. }
    rewrite trim_right_app. destruct (String.eqb_spec (trim_right is_space s) "") as [->|]; [|done].
    rewrite trimmed_right by (by apply word_trimmed). by rewrite string_app_nil_r. }
  by rewrite cut_blank_word by (done || by apply blank_first_trim).
Qed.

Lemma parse_key b k comment :
  ParsePublicKey b = Ok k -> trimmed comment = true ->
  parseAuthorizedKey (String " " (Base64.encode b +:+ comment_part comment)) = Ok (k, comment).
Proof.
  intros Hk Hc. assert (b <> "") as Hb by (by intros ->). rewrite parse_word by (by apply encode_word || apply comment_part_blank).
  by rewrite decode_encode, Hk, comment_part_right, comment_part_trim.
Qed.

(** The name of a type is no key: its hyphen is no base64. *)
Lemma parse_type ty s :
  type_name_ok ty = true -> blank_first s = true -> parseAuthorizedKey (String " " (ty +:+ s)) = Err "illegal base64 data".
Proof. unfold type_name_ok. intros H Hs. bool_prop. rewrite parse_word by done. by rewrite H0. Qed.

(** *** A line without options *)

Definition key_text (ty b comment : string) : string := ty +:+ String " " (Base64.encode b +:+ comment_part comment).

Lemma is_comment_app a s : a <> "" -> is_comment (a +:+ s) = is_comment a.
Proof. by destruct a. Qed.

Lemma plain_line ty b k comment :
  type_name_ok ty = true -> ParsePublicKey b = Ok k -> trimmed comment = true ->
  authorized_line (key_text ty b comment) = Some (Ok (k, comment, [])).
Proof.
  unfold type_name_ok. intros Ht Hk Hc. bool_prop. unfold AuthorizedKeys.authorized_line, key_text.
  assert (ty <> "") by (by intros ->). rewrite is_comment_app by done.
  match goal with H : is_comment ty = false |- _ => rewrite H end.
  rewrite cut_blank_word by done. cbn [String.eqb]. by rewrite (parse_key b k comment Hk Hc).
Qed.

(** *** The options before the type *)

(** The text of one option: commas and blanks are within quotations, which are closed. *)
Fixpoint option_text (prev : option ascii) (inQuote : bool) (s : string) : bool :=
  match s with
  | "" => negb inQuote
  | String b s' =>
      (inQuote || negb (blank b || Ascii.eqb b ",")) &&
      option_text (Some b) (if is_quote prev b then negb inQuote else inQuote) s'
  end.

Lemma options_loop_eq prev inQuote cur b s' :
  options_loop prev inQuote cur (String b s') =
    let isEnd := negb inQuote && blank b in
    let ends := (Ascii.eqb b "," && negb inQuote) || isEnd in
    let got := if ends && negb (cur =? "")%string then [cur] else [] in
    if isEnd then (got, String b s')
    else
      match s' with
      | "" => (got, String b s')
      | _ =>
          let '(l, rest) := options_loop (Some b) (if is_quote prev b then negb inQuote else inQuote)
                              (if ends then "" else cur +:+ String b "") s' in
          (got ++ l, rest)
      end.
Proof. reflexivity. Qed.

Lemma options_step prev q cur b d s :
  q = true \/ (blank b = false /\ Ascii.eqb b "," = false) ->
  options_loop prev q cur (String b (String d s)) =
    options_loop (Some b) (if is_quote prev b then negb q else q) (cur +:+ String b "") (String d s).
Proof.
  intros H. rewrite options_loop_eq. cbv zeta. assert (negb q && blank b = false /\ Ascii.eqb b "," && negb q = false) as [-> ->].
  { destruct H as [Hq|Hq]; [rewrite Hq; cbn [negb]; by rewrite andb_false_r|]. destruct Hq as [Hb Hc]. rewrite Hb, Hc. rewrite andb_false_r. done. }
  cbn [orb andb]. by destruct (options_loop _ _ _ _).
Qed.

Lemma options_text s : forall prev q cur d rest,
  option_text prev q s = true ->
  exists prev', options_loop prev q cur (s +:+ String d rest) = options_loop prev' false (cur +:+ s) (String d rest).
Proof.
  induction s as [|b s IH]; intros prev q cur d rest; cbn [option_text]; intros H.
  - bool_prop. rewrite string_app_nil_r. by exists prev.
  - apply andb_true_iff in H as [Hb Hs]. destruct (IH _ _ (cur +:+ String b "") d rest Hs) as [p' Hp]. exists p'.
    change (String b s +:+ String d rest) with (String b (s +:+ String d rest)).
    destruct (s +:+ String d rest) as [|d' s'] eqn:E; [by destruct s|].
    rewrite options_step; [by rewrite Hp, string_app_assoc|].
    apply orb_true_iff in Hb as [->|Hb]; [by left|right]. by apply negb_true_iff, orb_false_iff in Hb.
Qed.

Lemma options_comma prev cur d s :
  cur <> "" -> options_loop prev false cur (String "," (String d s)) =
    let '(l, rest) := options_loop (Some ","%char) false "" (String d s) in (cur :: l, rest).
Proof.
  intros Hc. rewrite options_loop_eq. cbv zeta. change (Ascii.eqb "," ",") with true. change (blank ",") with false. change (is_quote prev ",") with false.
  cbn [negb andb orb]. destruct (String.eqb_spec cur ""); [done|]. cbn [negb]. by destruct (options_loop _ _ _ _).
Qed.

Lemma options_blank prev cur s :
  cur <> "" -> options_loop prev false cur (String " " s) = ([cur], String " " s).
Proof. intros Hc. rewrite options_loop_eq. cbv zeta. change (blank " ") with true. cbn [negb andb orb]. rewrite orb_true_r. by destruct (String.eqb_spec cur ""). Qed.

Lemma option_text_first o : option_text None false o = true -> option_text (Some ","%char) false o = true.
Proof. by destruct o. Qed.

Lemma options_read opts : forall prev s,
  opts <> [] -> Forall (fun o => o <> "" /\ option_text None false o = true) opts -> (prev = None \/ prev = Some ","%char) ->
  options_loop prev false "" (join "," opts +:+ String " " s) = (opts, String " " s).
Proof.
  induction opts as [|o opts IH]; intros prev s Hn H Hp; [done|]. apply Forall_cons in H as [[Ho Ht] H].
  assert (option_text prev false o = true) as Ht' by (destruct Hp as [->| ->]; [done|by apply option_text_first]).
  destruct opts as [|o' opts].
  - cbn [join]. destruct (options_text o prev false "" " " s Ht') as [p' ->]. by apply options_blank.
  - change (join "," (o :: o' :: opts)) with (o +:+ String "," (join "," (o' :: opts))). rewrite string_app_assoc.
    change (String "," ?x +:+ ?y) with (String "," (x +:+ y)).
    destruct (options_text o prev false "" "," (join "," (o' :: opts) +:+ String " " s) Ht') as [p' ->]. change ("" +:+ o) with o.
    specialize (IH (Some ","%char) s ltac:(done) H ltac:(by right)).
    destruct (join "," (o' :: opts) +:+ String " " s) as [|d r] eqn:E; [by destruct (join "," (o' :: opts))|].
    rewrite options_comma by done. by rewrite IH.
Qed.

(** Options that the loop reads: not empty, quotations closed, no white space but
    blanks, and the first neither a comment nor indented. *)
Definition options_field (opts : list string) : bool :=
  let field := join "," opts in
  forallb (fun o => negb (o =? "")%string && option_text None false o) opts &&
  sall (fun c => negb (is_space c) || blank c) field && negb (is_comment field) &&
  match field with "" => true | String c _ => negb (is_space c) end.

(** The text before the type. *)
Definition options_part (opts : list string) : string :=
  match opts with [] => "" | _ => join "," opts +:+ " " end.

(** A text that the loop takes for a line: the key after its first blank is not one. *)
Definition first_try (text : string) : outcome (PublicKey * string) := parseAuthorizedKey (cut_blank text).2.

Lemma options_line opts ty b k comment :
  opts <> [] -> options_field opts = true -> type_name_ok ty = true -> ParsePublicKey b = Ok k -> trimmed comment = true ->
  (exists e, first_try (options_part opts +:+ key_text ty b comment) = Err e) ->
  authorized_line (options_part opts +:+ key_text ty b comment) = Some (Ok (k, comment, opts)).
Proof.
  intros Hn Ho Ht Hk Hc [e He]. unfold AuthorizedKeys.authorized_line.
  assert (options_part opts +:+ key_text ty b comment = join "," opts +:+ String " " (key_text ty b comment)) as E
    by (unfold options_part; destruct opts; [done|]; by rewrite string_app_assoc).
  unfold first_try in He. rewrite E in *.
  unfold options_field in Ho. apply andb_true_iff in Ho as [[[Ho _]%andb_true_iff Hcm]%andb_true_iff _].
  assert (Forall (fun o => o <> "" /\ option_text None false o = true) opts) as Hall.
  { apply Forall_forall. intros o Hin. apply list_elem_of_In in Hin. rewrite forallb_forall in Ho. specialize (Ho o Hin).
    by bool_prop. }
  assert (join "," opts <> "") as Hj.
  { destruct opts as [|o [|o' l]]; [done|apply Forall_cons in Hall as [[H _] _]; done|]. cbn [join]. by destruct o. }
  rewrite is_comment_app by done. apply negb_true_iff in Hcm. rewrite Hcm.
  destruct (cut_blank (join "," opts +:+ String " " (key_text ty b comment))) as [hd tl] eqn:Ecut. cbn [snd] in He.
  destruct (tl =? "")%string eqn:Et; [|rewrite He].
  - exfalso. apply String.eqb_eq in Et as ->. clear -Ecut. revert hd Ecut. induction (join "," opts) as [|c s IH]; intros hd.
    + by cbn [cut_blank].
    + change (String c s +:+ ?x) with (String c (s +:+ x)). cbn [cut_blank]. destruct (blank c); [done|].
      destruct (cut_blank _) as [a r]. intros [= <- ->]. by eapply IH.
  - rewrite options_read by (done || by left).
    assert (trim_left blank (String " " (key_text ty b comment)) = key_text ty b comment) as ->.
    { change (trim_left blank (key_text ty b comment) = key_text ty b comment). apply trim_left_id. unfold key_text.
      unfold type_name_ok, word in Ht. destruct ty as [|c ty]; [done|]. cbn [sall] in Ht.
      change (String c ty +:+ ?x) with (String c (ty +:+ x)). cbv iota. destruct (blank c) eqn:Eb; [|done].
      by rewrite (blank_space c Eb) in Ht. }
    unfold key_text. unfold type_name_ok in Ht. bool_prop. rewrite cut_blank_word by done. cbn [String.eqb].
    by rewrite (parse_key b k comment Hk Hc).
Qed.

(** *** From the file to the line *)

Lemma next_line_nl line rest : lacks nl_byte line = true -> next_line (line +:+ String nl_byte rest) = (line, rest).
Proof. intros H. unfold next_line. by rewrite cut_app. Qed.

Lemma line_text_id line : lacks "013" line = true -> trimmed line = true -> line_text line = line.
Proof. intros H Ht. unfold line_text. rewrite cut_lacks by done. by apply String.eqb_eq. Qed.

Definition comment_ok (comment : string) : bool := trimmed comment && lacks nl_byte comment && lacks "013" comment.

Lemma key_text_lacks c ty b comment :
  is_space c = true -> blank c = false -> word ty = true -> lacks c comment = true -> lacks c (key_text ty b comment) = true.
Proof.
  intros Hs Hb Ht Hc. unfold key_text. rewrite lacks_app, word_lacks, lacks_cons, lacks_app by done.
  rewrite encode_lacks by done. unfold blank in Hb. apply orb_false_iff in Hb as [Hb _]. rewrite Ascii.eqb_sym, Hb.
  unfold comment_part. destruct (comment =? "")%string; [done|]. by rewrite lacks_cons, Ascii.eqb_sym, Hb, Hc.
Qed.

Lemma options_part_lacks c opts :
  (opts <> [] -> options_field opts = true) -> is_space c = true -> blank c = false -> lacks c (options_part opts) = true.
Proof.
  unfold options_field, options_part. intros Ho Hs Hb. destruct opts as [|o l]; [done|]. specialize (Ho ltac:(done)).
  apply andb_true_iff in Ho as [[[_ Ho]%andb_true_iff _]%andb_true_iff _]. rewrite lacks_app. apply andb_true_iff. split.
  - eapply sall_impl; [|exact Ho]. intros d Hd. apply negb_true_iff, Ascii.eqb_neq. intros ->. by rewrite Hs, Hb in Hd.
  - change (negb (Ascii.eqb " " c) && true = true). unfold blank in Hb. apply orb_false_iff in Hb as [Hb _].
    by rewrite Ascii.eqb_sym, Hb.
Qed.

Lemma line_trimmed opts ty b comment :
  (opts <> [] -> options_field opts = true) -> word ty = true -> b <> "" -> trimmed comment = true ->
  trimmed (options_part opts +:+ key_text ty b comment) = true.
Proof.
  intros Ho Ht Hb Hc. unfold trimmed, key_text. apply String.eqb_eq.
  assert (options_part opts +:+ ty +:+ String " " (Base64.encode b +:+ comment_part comment)
          = (options_part opts +:+ ty +:+ " ") +:+ (Base64.encode b +:+ comment_part comment)) as ->
    by (by rewrite !string_app_assoc).
  apply TrimSpace_app.
  - by destruct (options_part opts), ty.
  - by destruct b as [|x [|y [|z b]]].
  - apply trim_left_id. unfold options_part. destruct opts as [|o l].
    + destruct ty as [|c ty]; [done|]. unfold word in Ht. cbn [sall] in Ht. by bool_prop.
    + specialize (Ho ltac:(done)). unfold options_field in Ho. apply andb_true_iff in Ho as [[_ Hcm]%andb_true_iff Ho].
      destruct (join "," (o :: l)) as [|c f]; [done|]. by apply negb_true_iff in Ho.
  - apply word_part_right; [by apply encode_word|done].
Qed.

Lemma authorized_loop_line fuel line rest res :
  line <> "" -> lacks nl_byte line = true -> lacks "013" line = true -> trimmed line = true ->
  authorized_line line = Some (Ok res) ->
  authorized_loop ecUnmarshal (S fuel) (line +:+ String nl_byte rest) = Ok (res, rest).
Proof.
  intros Hne Hn Hr Ht Hl. cbn [authorized_loop]. destruct (line +:+ String nl_byte rest) as [|c s] eqn:E; [by destruct line|].
  rewrite <- E, next_line_nl, line_text_id by done. by rewrite Hl.
Qed.

Lemma authorized_read opts ty b k comment rest :
  ParsePublicKey b = Ok k -> type_name_ok ty = true -> comment_ok comment = true ->
  (opts <> [] -> options_field opts = true) ->
  (opts <> [] -> exists e, first_try (options_part opts +:+ key_text ty b comment) = Err e) ->
  ParseAuthorizedKey ((options_part opts +:+ key_text ty b comment) +:+ String nl_byte rest) = Ok (k, comment, opts, rest).
Proof.
  unfold comment_ok. intros Hk Ht Hc Ho He. apply andb_true_iff in Hc as [[Hc Hn]%andb_true_iff Hr].
  assert (word ty = true) as Hw by (unfold type_name_ok in Ht; by bool_prop).
  assert (b <> "") as Hb by (by intros ->).
  apply authorized_loop_line.
  - unfold key_text. by destruct (options_part opts), ty.
  - by rewrite lacks_app, options_part_lacks, key_text_lacks.
  - by rewrite lacks_app, options_part_lacks, key_text_lacks.
  - by apply line_trimmed.
  - destruct (decide (opts = [])) as [->|Hne]; [by apply plain_line|by apply options_line; auto].
Qed.

(** A line of an authorized_keys file with options, a key and a comment
    is read back: the key, every option (with the commas and blanks within its
    quotations), the comment, and the lines that follow. *)
Theorem authorized_key_read k ty b opts comment rest :
  wf_key ecMarshal ecUnmarshal k -> Type_ k = Ok ty -> KeyMarshal k = Ok b -> slen b < 2 ^ 32 ->
  comment_ok comment = true -> (opts <> [] -> options_field opts = true) ->
  (opts <> [] -> exists e, first_try (options_part opts +:+ key_text ty b comment) = Err e) ->
  ParseAuthorizedKey ((options_part opts +:+ key_text ty b comment) +:+ String nl_byte rest) = Ok (k, comment, opts, rest).
Proof. intros Hw Ht Hb Hl. apply authorized_read; [by eapply wf_read|by eapply type_name_spec, type_name]. Qed.

Lemma marshalled_key_read k line rest :
  wf_key ecMarshal ecUnmarshal k -> (forall b, KeyMarshal k = Ok b -> slen b < 2 ^ 32) ->
  MarshalAuthorizedKey ecMarshal k = Ok line -> ParseAuthorizedKey (line +:+ rest) = Ok (k, "", [], rest).
Proof.
  intros Hw Hl H. unfold MarshalAuthorizedKey in H. apply obind_ok in H as (ty & Ht & H). apply obind_ok in H as (b & Hb & H).
  apply Ok_inj in H as <-.
  assert (ty +:+ " " +:+ Base64.encode b +:+ nl = (options_part [] +:+ key_text ty b "") +:+ nl) as ->.
  { unfold key_text, comment_part. simpl String.eqb. cbv iota. rewrite string_app_nil_r. cbn [options_part].
    change ("" +:+ ?x) with x. rewrite string_app_assoc. reflexivity. }
  rewrite string_app_assoc. change (nl +:+ rest) with (String nl_byte rest).
  apply authorized_read; [eapply wf_read; eauto|by eapply type_name_spec, type_name|done..].
Qed.

(** A key that [MarshalAuthorizedKey] has written is read back from the
    file, whatever follows. *)
Theorem authorized_key_roundtrip k line rest :
  wf_key ecMarshal ecUnmarshal k -> (forall b, KeyMarshal k = Ok b -> slen b < 2 ^ 32) ->
  MarshalAuthorizedKey ecMarshal k = Ok line -> ParseAuthorizedKey (line +:+ rest) = Ok (k, "", [], rest).
Proof. apply marshalled_key_read. Qed.

(** *** Any data *)

Lemma cut_spec c s a r : cut c s = (a, r) -> match r with Some b => s = a +:+ String c b | None => s = a end.
Proof.
  revert a. induction s as [|d s IH]; intros a; simpl; [by intros [= <- <-]|].
  destruct (Ascii.eqb_spec d c) as [->|]; [by intros [= <- <-]|]. destruct (cut c s) as [a' r']. intros [= <- <-].
  specialize (IH a' eq_refl). destruct r'; simpl; by rewrite <- IH.
Qed.

(** A line takes at least one byte of a file that is not empty. *)
Definition suffix_of (data rest : string) : Prop := exists used, used <> "" /\ data = used +:+ rest.

Lemma next_line_suffix data line rest : data <> "" -> next_line data = (line, rest) -> suffix_of data rest.
Proof.
  unfold next_line. intros Hd. destruct (cut nl_byte data) as [a [b|]] eqn:E; apply cut_spec in E as ->; intros [= <- <-].
  - exists (a +:+ nl). split; [by destruct a|]. by rewrite string_app_assoc.
  - exists a. split; [done|]. by rewrite string_app_nil_r.
Qed.

Lemma suffix_length data rest : suffix_of data rest -> (String.length rest < String.length data)%nat.
Proof. intros (u & Hu & ->). rewrite string_app_length. destruct u; [done|]. simpl. lia. Qed.
Lemma suffix_trans a b c : suffix_of a b -> suffix_of b c -> suffix_of a c.
Proof. intros (u & Hu & ->) (v & Hv & ->). exists (u +:+ v). split; [by destruct u|]. by rewrite string_app_assoc. Qed.

Lemma parse_returns s : returns (parseAuthorizedKey s) (fun _ => True).
Proof.
  unfold AuthorizedKeys.parseAuthorizedKey. destruct (cut_blank (TrimSpace s)). destruct (Base64.decode s0); [|done].
  eapply returns_bind; [apply read_returns|]. done.
Qed.

Lemma authorized_line_returns text m : authorized_line text = Some m -> returns m (fun _ => True).
Proof.
  unfold AuthorizedKeys.authorized_line. destruct (is_comment text); [done|]. destruct (cut_blank text) as [h t].
  destruct (t =? "")%string; [done|]. pose proof (parse_returns t) as H1. destruct (parseAuthorizedKey t) as [[o c]| | |]; try done; [by intros [= <-]|].
  destruct (options_loop None false "" text) as [opts r]. destruct (cut_blank (trim_left blank r)) as [h' t'].
  destruct (t' =? "")%string; [done|]. pose proof (parse_returns t') as H2. destruct (parseAuthorizedKey t') as [[o c]| | |]; try done. by intros [= <-].
Qed.

Lemma authorized_loop_returns fuel : forall data,
  (String.length data < fuel)%nat -> returns (authorized_loop ecUnmarshal fuel data) (fun r => suffix_of data r.2).
Proof.
  induction fuel as [|fuel IH]; intros data Hf; [lia|]. cbn [authorized_loop]. destruct data as [|c s] eqn:Ed; [done|].
  rewrite <- Ed in *. destruct (next_line data) as [line rest] eqn:E. assert (suffix_of data rest) as Hs by (eapply next_line_suffix; [by rewrite Ed|done]).
  destruct (authorized_line (line_text line)) as [m|] eqn:El.
  - eapply returns_bind; [by eapply authorized_line_returns|]. by intros r _.
  - pose proof (suffix_length _ _ Hs). specialize (IH rest ltac:(lia)). destruct (authorized_loop _ fuel rest); try done.
    simpl in *. by eapply suffix_trans.
Qed.

(** Reading a key from any file ends, without a panic, with a key or an
    error; with a key, it leaves a shorter file to go on with. *)
Theorem ParseAuthorizedKey_returns data : returns (ParseAuthorizedKey data) (fun '(_, rest) => suffix_of data rest).
Proof.
  pose proof (authorized_loop_returns (S (String.length data)) data ltac:(lia)) as H. unfold AuthorizedKeys.ParseAuthorizedKey.
  destruct (authorized_loop _ _ data) as [[r rest]| | |]; done.
Qed.

(** *** known_hosts *)

Lemma join_app_last sep l w : l <> [] -> join sep (l ++ [w]) = join sep l +:+ sep +:+ w.
Proof.
  induction l as [|x l IH]; [done|]. intros _. destruct l as [|y l]; [done|].
  change ((x :: y :: l) ++ [w]) with (x :: y :: (l ++ [w])). cbn [join app] in *. rewrite IH by done. by rewrite !string_app_assoc.
Qed.

Lemma words_trimmed l : Forall (fun w => word w = true) l -> trimmed (join " " l) = true.
Proof.
  intros H. destruct l as [|w l] using rev_ind; [done|]. apply Forall_app in H as [Hl [Hw _]%Forall_cons].
  destruct (decide (l = [])) as [->|Hn]; [by apply word_trimmed|]. rewrite join_app_last by done.
  unfold trimmed. apply String.eqb_eq. rewrite <- string_app_assoc. apply TrimSpace_app.
  - by destruct (join " " l).
  - by destruct w.
  - apply trim_left_id. destruct l as [|x l]; [done|]. apply Forall_cons in Hl as [Hx _]. unfold word in Hx.
    destruct x as [|c x]; [done|]. cbn [sall] in Hx. destruct l; cbn; by bool_prop.
  - by apply trimmed_right, word_trimmed.
Qed.

Lemma words_lacks c l : is_space c = true -> blank c = false -> Forall (fun w => word w = true) l -> lacks c (join " " l) = true.
Proof.
  intros Hs Hb H. induction l as [|w l IH]; [done|]. apply Forall_cons in H as [Hw Hl]. destruct l as [|x l]; [by apply word_lacks|].
  change (join " " (w :: x :: l)) with (w +:+ String " " (join " " (x :: l))). rewrite lacks_app, lacks_cons, word_lacks, IH by done.
  unfold blank in Hb. apply orb_false_iff in Hb as [Hb _]. by rewrite Ascii.eqb_sym, Hb.
Qed.

(** The words of an entry: a marker, the hosts, the type, the key, a comment. *)
Definition host_words (marker : string) (hosts : list string) (ty b comment : string) : list string :=
  (if (marker =? "")%string then [] else [String "@" marker]) ++ [join "," hosts; ty; Base64.encode b] ++
  (if (comment =? "")%string then [] else [comment]).

Definition hosts_ok (hosts : list string) : bool :=
  forallb (lacks ",") hosts && word (join "," hosts) &&
  match join "," hosts with "" => false | String c _ => negb (Ascii.eqb c "#") && negb (Ascii.eqb c "@") end.
Definition optional_word (s : string) : bool := (s =? "")%string || word s.

Lemma optional_words (f : string -> string) s :
  optional_word s = true -> (word s = true -> word (f s) = true) ->
  Forall (fun w => word w = true) (if (s =? "")%string then [] else [f s]).
Proof. unfold optional_word. intros H Hf. destruct (s =? "")%string; [done|]. simpl in H. by apply Forall_singleton, Hf. Qed.

Lemma host_words_words marker hosts ty b comment :
  optional_word marker = true -> hosts_ok hosts = true -> word ty = true -> b <> "" -> optional_word comment = true ->
  Forall (fun w => word w = true) (host_words marker hosts ty b comment).
Proof.
  unfold hosts_ok, host_words. intros Hm Hh Ht Hb Hc. bool_prop. rewrite !Forall_app. split_and!.
  - apply optional_words; [done|]. unfold word. intros H'. bool_prop. cbn [String.eqb sall]. by rewrite H3.
  - repeat constructor; [done..|by apply encode_word].
  - by apply (optional_words id).
Qed.

Lemma known_line marker hosts ty b k comment :
  ParsePublicKey b = Ok k -> word ty = true -> optional_word marker = true -> hosts_ok hosts = true -> optional_word comment = true ->
  known_hosts_line ecUnmarshal (join " " (host_words marker hosts ty b comment)) = Some (Ok (marker, hosts, k, comment)).
Proof.
  intros Hk Ht Hm Hh Hc. assert (b <> "") as Hb by (by intros ->).
  pose proof (host_words_words marker hosts ty b comment Hm Hh Ht Hb Hc) as Hw.
  assert (trimmed comment = true) as Hct.
  { unfold optional_word in Hc. apply orb_true_iff in Hc as [->%String.eqb_eq|Hc]; [done|by apply word_trimmed]. }
  pose proof (parse_key b k comment Hk Hct) as Hp.
  assert (join " " (Base64.encode b :: (if (comment =? "")%string then [] else [comment])) = Base64.encode b +:+ comment_part comment) as Hj.
  { unfold comment_part. destruct (comment =? "")%string; [by rewrite string_app_nil_r|done]. }
  unfold known_hosts_line. unfold hosts_ok in Hh. apply andb_true_iff in Hh as [[Hcm Hhw]%andb_true_iff Hc1].
  assert (hosts <> []) as Hne by (by intros ->).
  assert (Split "," (join "," hosts) = hosts) as Hsp.
  { change ","%char with comma. apply Split_join; [done|]. apply Forall_forall. intros x Hx%list_elem_of_In. rewrite forallb_forall in Hcm. by apply Hcm. }
  destruct (join "," hosts) as [|c h] eqn:Eh; [done|]. apply andb_true_iff in Hc1 as [Hc1 Hc2].
  rewrite Fields_join by done.
  assert (is_comment (join " " (host_words marker hosts ty b comment)) = false) as ->.
  { unfold host_words. rewrite Eh. destruct (marker =? "")%string; [|done]. simpl. by apply negb_true_iff in Hc1. }
  assert ((cut_blank (join " " (host_words marker hosts ty b comment))).2 <> "") as Hcut.
  { unfold host_words in *. rewrite Eh in *. destruct (marker =? "")%string; cbn [app] in *;
      (change (join " " (?x :: ?y :: ?l)) with (x +:+ String " " (join " " (y :: l)));
       apply Forall_cons in Hw as [Hx _]; by rewrite cut_blank_word). }
  apply String.eqb_neq in Hcut. rewrite Hcut. unfold host_words. rewrite Eh.
  assert (parseAuthorizedKey (join " " (Base64.encode b :: (if (comment =? "")%string then [] else [comment]))) = Ok (k, comment)) as Hp'
    by (by rewrite Hj).
  apply negb_true_iff in Hc2.
  destruct (String.eqb_spec marker "") as [->|Hmn]; cbn [app]; destruct (comment =? "")%string; cbn [List.length Nat.ltb Nat.leb orb];
    rewrite ?Hc2; change (Ascii.eqb "@" "@") with true; cbv iota; rewrite Hp'; cbn [obind]; change comma with ","%char; by rewrite Hsp.
Qed.

(** An entry of a known_hosts file, with a marker or without, is read
    back: the marker, every host, the key, a comment of one word, and the lines that follow. *)
Theorem known_host_read k ty b marker hosts comment rest :
  wf_key ecMarshal ecUnmarshal k -> Type_ k = Ok ty -> KeyMarshal k = Ok b -> slen b < 2 ^ 32 ->
  optional_word marker = true -> hosts_ok hosts = true -> optional_word comment = true ->
  ParseKnownHosts ecUnmarshal (join " " (host_words marker hosts ty b comment) +:+ String nl_byte rest) =
    Ok (marker, hosts, k, comment, rest).
Proof.
  intros Hw Ht Hb Hl Hm Hh Hc. assert (word ty = true) as Hty by (apply type_name, type_name_spec in Ht; unfold type_name_ok in Ht; by bool_prop).
  assert (ParsePublicKey b = Ok k) as Hk by (by eapply wf_read). assert (b <> "") as Hbn by (by intros ->).
  pose proof (host_words_words marker hosts ty b comment Hm Hh Hty Hbn Hc) as Hws.
  set (line := join " " (host_words marker hosts ty b comment)).
  assert (known_hosts_line ecUnmarshal line = Some (Ok (marker, hosts, k, comment))) as HL by (by apply known_line).
  assert (lacks nl_byte line = true) as Hn by (by apply words_lacks).
  assert (line_text line = line) as Hlt by (apply line_text_id; [by apply words_lacks|by apply words_trimmed]).
  unfold ParseKnownHosts. cbn [known_hosts_loop]. destruct (line +:+ String nl_byte rest) as [|c s] eqn:E; [by destruct line|].
  rewrite <- E, next_line_nl, Hlt by done. by rewrite HL.
Qed.
End Lines.

(** ** Concrete files *)

Definition demo_key : PublicKey := ED25519 "0123456789abcdef0123456789abcdef".
Definition demo_bytes : string := match KeyMarshal demo_ecMarshal demo_key with Ok b => b | _ => "" end.
Definition demo_options : list string := [String "c" ("ommand=" +:+ dq +:+ "echo a, b" +:+ dq); "no-pty"].

Lemma authorized_key_read_witness :
  ParseAuthorizedKey demo_ecUnmarshal
    ((options_part demo_options +:+ key_text KeyAlgoED25519 demo_bytes "alice@home pc") +:+ String nl_byte "more") =
  Ok (demo_key, "alice@home pc", demo_options, "more").
Proof.
  apply (authorized_key_read demo_ecMarshal); try exact I; try reflexivity; intros _.
  eexists. vm_compute. reflexivity.
Defined.

Lemma authorized_key_roundtrip_witness :
  exists line, MarshalAuthorizedKey demo_ecMarshal demo_key = Ok line /\
    ParseAuthorizedKey demo_ecUnmarshal (line +:+ "more") = Ok (demo_key, "", [], "more").
Proof.
  eexists. split; [reflexivity|]. apply (authorized_key_roundtrip demo_ecMarshal); try exact I; try reflexivity.
  intros b Hb. vm_compute in Hb. injection Hb as <-. reflexivity.
Defined.

Lemma known_host_read_witness :
  ParseKnownHosts demo_ecUnmarshal
    (join " " (host_words "revoked" ["a.example"; "10.0.0.1"] KeyAlgoED25519 demo_bytes "old") +:+ String nl_byte "more") =
  Ok ("revoked", ["a.example"; "10.0.0.1"], demo_key, "old", "more").
Proof. apply (known_host_read demo_ecMarshal); (exact I || reflexivity). Defined.

(** A key within a quotation is taken for the key of the line, and the options
    of the line are dropped. *)
Definition demo_other : PublicKey := ED25519 "abcdefghijklmnopqrstuvwxyz012345".
Definition demo_quoted : string :=
  match KeyMarshal demo_ecMarshal demo_other with
  | Ok b => "command=" +:+ dq +:+ "check " +:+ Base64.encode b +:+ " now" +:+ dq
  | _ => ""
  end.
Lemma quoted_key_misread :
  options_field [demo_quoted] = true /\
  ParseAuthorizedKey demo_ecUnmarshal ((options_part [demo_quoted] +:+ key_text KeyAlgoED25519 demo_bytes "") +:+ nl) =
    Ok (demo_other, "now" +:+ dq +:+ " " +:+ key_text KeyAlgoED25519 demo_bytes "", [], "").
Proof. split; vm_compute; reflexivity. Qed.
