(* ===== verification/HostsFile.v ===== *)
(** The known_hosts files of OpenSSH (xendor/github.com/glycerine/xcryptossh:
    knownhosts/knownhosts.go): the lines of a file with their patterns of host names,
    plain or hashed, the check of a server's key against them, and the writing of
    lines. *)
From S2P Require Import Prelude.
From S2P Require Import GoStrings.
From S2P Require Import Wire.
From S2P Require Import Base64.
From S2P Require Import Keys.
From S2P Require Import AuthorizedKeys.

(** ** Addresses and patterns *)

Record addr := mkHostPort { host : string; port : string }.

Definition addr_String (a : addr) : string :=
  (if lacks ":" (host a) then host a else String "[" (host a +:+ "]")) +:+ String ":" (port a).

Record hostPattern := mkPattern { negate : bool; paddr : addr }.

Definition hostPattern_String (p : hostPattern) : string := (if negate p then "!" else "") +:+ addr_String (paddr p).

(** The loop over the non-empty suffixes of a string. *)
Definition any_suffix (f : string -> bool) : string -> bool :=
  fix go s := match s with "" => false | String _ r => f s || go r end.

Fixpoint wildcardMatch (pat str : string) : bool :=
  match pat with
  | "" => (str =? "")%string
  | String p pat' =>
      match str with
      | "" => false
      | String c str' =>
          if Ascii.eqb p "*" then (pat' =? "")%string || any_suffix (wildcardMatch pat') str
          else if Ascii.eqb p "?" || Ascii.eqb p c then wildcardMatch pat' str' else false
      end
  end.

Definition hostPattern_match (p : hostPattern) (a : addr) : bool :=
  wildcardMatch (host (paddr p)) (host a) && (port (paddr p) =? port a)%string.

(** The inner loop; nothing when it returns false. *)
Fixpoint match_addrs (p : hostPattern) (addrs : list addr) (matched : bool) : option bool :=
  match addrs with
  | [] => Some matched
  | a :: addrs =>
      if negb (hostPattern_match p a) then match_addrs p addrs matched
      else if negate p then None
      else match_addrs p addrs true
  end.

Fixpoint match_patterns (ps : list hostPattern) (addrs : list addr) (matched : bool) : bool :=
  match ps with
  | [] => matched
  | p :: ps => match match_addrs p addrs matched with None => false | Some matched => match_patterns ps addrs matched end
  end.
Definition hostPatterns_match (ps : list hostPattern) (addrs : list addr) : bool := match_patterns ps addrs false.

(** [newHostnameMatcher], the loop over the words between commas. *)
Fixpoint pattern_words (words : list string) : outcome (list hostPattern) :=
  match words with
  | [] => Ok []
  | w :: words =>
      if (w =? "")%string then pattern_words words
      else
        let '(neg, p) := match w with String c w' => if Ascii.eqb c "!" then (true, w') else (false, w) | "" => (false, w) end in
        match p with
        | "" => Err "knownhosts: negation without following hostname"
        | String c _ =>
            let? a :=
              match SplitHostPort p with
              | Ok (h, po) => Ok (mkHostPort h po)
              | Err e => if Ascii.eqb c "[" then Err e else Ok (mkHostPort p "22")
              | Panic s => Panic s
              | Blocked => Blocked
              end in
            let? hps := pattern_words words in Ok (mkPattern neg a :: hps)
        end
  end.
Definition newHostnameMatcher (pattern : string) : outcome (list hostPattern) := pattern_words (Split "," pattern).

(** *** Writing addresses *)

Definition Normalize (address : string) : string :=
  let '(host, port) := match SplitHostPort address with Ok hp => hp | _ => (address, "22") end in
  if negb (port =? "22")%string then String "[" (host +:+ "]:" +:+ port)
  else if negb (lacks ":" host) && negb (HasPrefix host "[") then String "[" (host +:+ "]")
  else host.

(** *** Hashed names *)

Definition sha1HashType : string := "1".
Definition bar : ascii := "|".

Definition encodeHash (typ salt hash : string) : string :=
  join (String bar "") [""; typ; Base64.encode salt; Base64.encode hash].

Definition base64_bytes (s : string) : outcome string :=
  match Base64.decode s with Some b => Ok b | None => Err "illegal base64 data" end.

Definition decodeHash (encoded : string) : outcome (string * string * string) :=
  match encoded with
  | String c _ =>
      if negb (Ascii.eqb c bar) then Err "knownhosts: hashed host must start with '|'"
      else match Split bar encoded with
           | [_; hashType; salt; hash] =>
               let? salt := base64_bytes salt in let? hash := base64_bytes hash in Ok (hashType, salt, hash)
           | components => Err ("knownhosts: got " +:+ itoa (Z.of_nat (List.length components)) +:+ " components, want 3")
           end
  | "" => Err "knownhosts: hashed host must start with '|'"
  end.

Definition newHashedHost (encoded : string) : outcome (string * string) :=
  let? '(typ, salt, hash) := decodeHash encoded in
  if negb (typ =? sha1HashType)%string then Err ("knownhosts: got hash type " +:+ typ +:+ ", must be '1'") else Ok (salt, hash).

(** ** The database *)

Inductive matcher := Patterns (ps : list hostPattern) | HashedHost (salt hash : string).

Record KnownKey := mkKnown { k_Key : PublicKey; Filename : string; Line_ : Z }.
Record keyDBLine := mkLine { cert : bool; l_matcher : matcher; knownKey : KnownKey }.
Record hostKeyDB := mkDB { revoked : gmap string KnownKey; lines : list keyDBLine }.

Definition newHostKeyDB : hostKeyDB := mkDB ∅ [].

Definition markerCert : string := "@cert-authority".
Definition markerRevoked : string := "@revoked".

Definition nextWord (line : string) : string * string := let '(w, rest) := cut_blank line in (w, TrimSpace rest).

(** The errors of a check. The accepted keys by algorithm; Go lists them in the order
    in which it ranges over the map. *)
Inductive host_error := RevokedError (Revoked : KnownKey) | KeyError (Want : gmap string KnownKey) | OtherError (e : string).

Definition Error (e : host_error) : string :=
  match e with
  | RevokedError _ => "knownhosts: key is revoked"
  | KeyError Want => if bool_decide (Want = ∅) then "knownhosts: key is unknown" else "knownhosts: key mismatch"
  | OtherError e => e
  end.

Section Keys.
Context (ecMarshal : Z -> Z -> Z -> string) (ecUnmarshal : Z -> string -> option (Z * Z)).
(** The SHA-1 HMAC of a text under a key. *)
Context (hmac_sha1 : string -> string -> string).

Abbreviation KeyMarshal := (KeyMarshal ecMarshal).
Abbreviation ParsePublicKey := (ParsePublicKey ecUnmarshal).

Definition hashHost (hostname salt : string) : string := hmac_sha1 salt hostname.

(** [HashHostname] with the salt that was read. *)
Definition HashHostname (salt : outcome string) (hostname : string) : outcome string :=
  match salt with
  | Ok salt => Ok (encodeHash sha1HashType salt (hashHost hostname salt))
  | Err e => Panic ("crypto/rand failure " +:+ e)
  | Panic s => Panic s
  | Blocked => Blocked
  end.

Definition matcher_match (m : matcher) (addrs : list addr) : bool :=
  match m with
  | Patterns ps => hostPatterns_match ps addrs
  | HashedHost salt hash => existsb (fun a => (hashHost (Normalize (addr_String a)) salt =? hash)%string) addrs
  end.

Definition keyEq (a b : PublicKey) : outcome bool :=
  let? x := KeyMarshal a in let? y := KeyMarshal b in Ok (x =? y)%string.

Definition serialize (k : PublicKey) : outcome string :=
  let? ty := Type_ k in let? b := KeyMarshal k in Ok (ty +:+ String " " (Base64.encode b)).

(** *** Reading *)

(** [parseLine]: marker, host pattern, key. *)
Definition parseLine (line : string) : outcome (string * string * PublicKey) :=
  let '(w, next) := nextWord line in
  let '(marker, line) := if (w =? markerCert)%string || (w =? markerRevoked)%string then (w, next) else ("", line) in
  let '(host, line) := nextWord line in
  if (line =? "")%string then Err "knownhosts: missing host pattern"
  else
    let '(_, line) := nextWord line in
    if (line =? "")%string then Err "knownhosts: missing key type pattern"
    else
      let '(keyBlob, _) := nextWord line in
      let? keyBytes := base64_bytes keyBlob in
      let? key := ParsePublicKey keyBytes in
      Ok (marker, host, key).

Definition pattern_matcher (pattern : string) : outcome matcher :=
  match pattern with
  | "" => Panic "index out of range"
  | String c _ =>
      if Ascii.eqb c bar then let? '(salt, hash) := newHashedHost pattern in Ok (HashedHost salt hash)
      else let? ps := newHostnameMatcher pattern in Ok (Patterns ps)
  end.

(** The method of the database. *)
Definition db_parseLine (line filename : string) (linenum : Z) (db : hostKeyDB) : outcome hostKeyDB :=
  let? '(marker, pattern, key) := parseLine line in
  let known := mkKnown key filename linenum in
  if (marker =? markerRevoked)%string
  then let? b := KeyMarshal key in Ok (mkDB (<[b := known]> (revoked db)) (lines db))
  else
    let? m := pattern_matcher pattern in
    Ok (mkDB (revoked db) (lines db ++ [mkLine (marker =? markerCert)%string m known])).

(** The lines of a bufio.Scanner: without their ends, and whether all were read; a
    line that does not fit in 64 KiB ends it. *)
Definition MaxScanTokenSize : Z := 64 * 1024.
Definition drop_cr (s : string) : string := if HasSuffix s (String "013" "") then stake (String.length s - 1) s else s.
Fixpoint scan (l : list string) : list string * error_ :=
  match l with
  | [] => ([], None)
  | [last] => if (last =? "")%string then ([], None) else if MaxScanTokenSize <=? slen last then ([], Some "bufio.Scanner: token too long") else ([drop_cr last], None)
  | x :: l =>
      if MaxScanTokenSize <=? slen x then ([], Some "bufio.Scanner: token too long")
      else let '(xs, e) := scan l in (drop_cr x :: xs, e)
  end.

Fixpoint read_lines (l : list string) (filename : string) (lineNum : Z) (db : hostKeyDB) : outcome hostKeyDB :=
  match l with
  | [] => Ok db
  | line :: l =>
      let lineNum := lineNum + 1 in
      let line := TrimSpace line in
      if is_comment line then read_lines l filename lineNum db
      else
        match db_parseLine line filename lineNum db with
        | Ok db => read_lines l filename lineNum db
        | Err e => Err ("knownhosts: " +:+ filename +:+ ":" +:+ itoa lineNum +:+ ": " +:+ e)
        | Panic s => Panic s
        | Blocked => Blocked
        end
  end.

Definition Read (data filename : string) (db : hostKeyDB) : outcome hostKeyDB :=
  let '(l, e) := scan (Split nl_byte data) in
  let? db := read_lines l filename 0 db in
  match e with None => Ok db | Some e => Err e end.

(** *** Checking *)

(** [IsHostAuthority]. *)
Fixpoint authority_line (l : list keyDBLine) (remote : PublicKey) (a : addr) : outcome bool :=
  match l with
  | [] => Ok false
  | x :: l =>
      if cert x then
        let? same := keyEq (k_Key (knownKey x)) remote in
        if same && matcher_match (l_matcher x) [a] then Ok true else authority_line l remote a
      else authority_line l remote a
  end.

Definition IsHostAuthority_ (db : hostKeyDB) (remote : PublicKey) (address : string) : outcome bool :=
  match SplitHostPort address with
  | Ok (h, p) => authority_line (lines db) remote (mkHostPort h p)
  | _ => Ok false
  end.

Definition IsRevoked_ (db : hostKeyDB) (key : Certificate) : outcome bool :=
  let? b := KeyMarshal (CertKey key) in Ok (bool_decide (is_Some (revoked db !! b))).

(** The first key of every algorithm among the lines that match. *)
Fixpoint known_keys (l : list keyDBLine) (addrs : list addr) (known : gmap string KnownKey) : outcome (gmap string KnownKey) :=
  match l with
  | [] => Ok known
  | x :: l =>
      if matcher_match (l_matcher x) addrs then
        let? typ := Type_ (k_Key (knownKey x)) in
        known_keys l addrs (match known !! typ with Some _ => known | None => <[typ := knownKey x]> known end)
      else known_keys l addrs known
  end.

Definition checkAddrs (db : hostKeyDB) (addrs : list addr) (remoteKey : PublicKey) : outcome (option host_error) :=
  let? knownKeys := known_keys (lines db) addrs ∅ in
  if bool_decide (knownKeys = ∅) then Ok (Some (KeyError knownKeys))
  else
    let? typ := Type_ remoteKey in
    match knownKeys !! typ with
    | None => Ok (Some (KeyError knownKeys))
    | Some known => let? same := keyEq (k_Key known) remoteKey in Ok (if same then None else Some (KeyError knownKeys))
    end.

(** [check]; [remote] is the text of the net.Addr. *)
Definition check (db : hostKeyDB) (address remote : string) (remoteKey : PublicKey) : outcome (option host_error) :=
  let? b := KeyMarshal remoteKey in
  match revoked db !! b with
  | Some k => Ok (Some (RevokedError k))
  | None =>
      let split text (next : addr -> outcome (option host_error)) :=
        match SplitHostPort text with
        | Ok (h, p) => next (mkHostPort h p)
        | Err e => Ok (Some (OtherError ("knownhosts: SplitHostPort(" +:+ text +:+ "): " +:+ e)))
        | Panic s => Panic s
        | Blocked => Blocked
        end in
      split remote (fun a =>
        if (address =? "")%string then checkAddrs db [a] remoteKey
        else split address (fun a' => checkAddrs db [a; a'] remoteKey))
  end.

(** *** The callback *)

(** A file's contents, or the error of opening it. *)
Fixpoint read_files (fs : string -> outcome string) (files : list string) (db : hostKeyDB) : outcome hostKeyDB :=
  match files with
  | [] => Ok db
  | fn :: files => let? data := fs fn in let? db := Read data fn db in read_files fs files db
  end.

(** Keys that were read can be written: no callback panics. *)
Definition the_bool (r : outcome bool) : bool := match r with Ok b => b | _ => false end.

Definition checker_of (db : hostKeyDB) (remote : string) : CertChecker :=
  mkChecker [] (fun _ => false) (fun k a => the_bool (IsHostAuthority_ db k a)) None
    (Some (fun address key =>
       let? e := check db address remote key in match e with None => Ok tt | Some e => Err (Error e) end))
    (Some (fun c => the_bool (IsRevoked_ db c))).

(** [New]: the callback, as a checker for the remote address of a connection. *)
Definition New (fs : string -> outcome string) (files : list string) : outcome (string -> CertChecker) :=
  let? db := read_files fs files newHostKeyDB in Ok (checker_of db).

(** [Line]. *)
Definition Line (addresses : list string) (key : PublicKey) : outcome string :=
  let? s := serialize key in Ok (join "," (map Normalize addresses) +:+ String " " s).

End Keys.

(** ** Patterns *)

(** What a pattern with [*] and [?] stands for. *)
Inductive glob : string -> string -> Prop :=
| glob_end : glob "" ""
| glob_star p s t : glob p t -> glob (String "*" p) (s +:+ t)
| glob_any p c s : glob p s -> glob (String "?" p) (String c s)
| glob_char p c s : c <> "*"%char -> glob p s -> glob (String c p) (String c s).

(** A last [*] of the program stands for at least one byte. *)
Fixpoint pin (pat : string) : string :=
  match pat with
  | "" => ""
  | String c p => if Ascii.eqb c "*" && (p =? "")%string then "?*" else String c (pin p)
  end.

Lemma any_suffix_spec f s : any_suffix f s = true <-> exists a t, s = a +:+ t /\ t <> "" /\ f t = true.
Proof.
  induction s as [|c s IH]; cbn [any_suffix].
  - split; [done|]. intros ([|x a] & t & H & Ht & _); [by subst|done].
  - rewrite orb_true_iff, IH. split.
    + intros [H|(a & t & -> & Ht & H)]; [by exists "", (String c s)|by exists (String c a), t].
    + intros (a & t & H & Ht & Hf). destruct a as [|d a].
      * left. change ("" +:+ t) with t in H. by subst.
      * right. injection H as -> ->. by exists a, t.
Qed.

Lemma glob_star_inv p s : glob (String "*" p) s -> exists a t, s = a +:+ t /\ glob p t.
Proof. intros H. inversion H as [|p' a t Hg|p' c t Hg|p' c t Hc Hg]; subst; [by exists a, t|done]. Qed.

Lemma glob_pin_empty pat : pat <> "" -> ~ glob (pin pat) "".
Proof.
  induction pat as [|c p IH]; [done|]. intros _. cbn [pin]. destruct (Ascii.eqb_spec c "*") as [->|Hc]; cbn [andb].
  - destruct (String.eqb_spec p "") as [->|Hp].
    + intros H. by inversion H.
    + intros ([|x a] & t & H & Hg)%glob_star_inv; [|done]. change ("" +:+ t) with t in H. subst t. by apply IH.
  - intros H. inversion H; subst; done.
Qed.

Lemma wildcard_glob pat : forall str, wildcardMatch pat str = true <-> glob (pin pat) str.
Proof.
  induction pat as [|p pat IH]; intros str; cbn [wildcardMatch].
  { rewrite String.eqb_eq. cbn. split; [intros ->; constructor|by inversion 1]. }
  destruct str as [|c str].
  { split; [done|]. by intros H%glob_pin_empty. }
  cbn [pin]. destruct (Ascii.eqb_spec p "*") as [->|Hp]; cbn [andb].
  - destruct (String.eqb_spec pat "") as [->|Hpat]; cbn [orb].
    + split; [|done]. intros _. apply glob_any. rewrite <- (string_app_nil_r str). apply (glob_star "" str ""). constructor.
    + rewrite any_suffix_spec. split.
      * intros (a & t & -> & _ & Ht). apply glob_star. by apply IH.
      * intros (a & t & -> & Hg)%glob_star_inv. exists a, t. split; [done|]. split; [|by apply IH].
        intros ->. by apply (glob_pin_empty pat).
  - destruct (Ascii.eqb_spec p "?") as [->|Hq]; cbn [orb].
    + rewrite IH. split; [apply glob_any|]. intros H. by inversion H.
    + destruct (Ascii.eqb_spec p c) as [->|Hpc].
      * rewrite IH. split; [by apply glob_char|]. intros H. by inversion H; subst.
      * split; [done|]. intros H. inversion H; subst; congruence.
Qed.

(** The patterns of host names: a star stands for any bytes, dots included, and a
    question mark for one; but a star at the end does not stand for nothing. *)
Theorem wildcard_match_spec pat str : wildcardMatch pat str = true <-> glob (pin pat) str.
Proof. apply wildcard_glob. Qed.

(** The name before the star is not matched, as it is by OpenSSH. *)
Example star_needs_a_byte : glob "host*" "host" /\ wildcardMatch "host*" "host" = false.
Proof.
  split; [|reflexivity]. repeat (apply glob_char; [done|]). apply (glob_star "" "" ""). constructor.
Qed.

Lemma match_addrs_spec p addrs m :
  match_addrs p addrs m =
    (if existsb (hostPattern_match p) addrs then if negate p then None else Some true else Some m).
Proof.
  revert m. induction addrs as [|a addrs IH]; intros m; cbn [match_addrs existsb]; [done|].
  destruct (hostPattern_match p a); cbn [negb orb]; [|apply IH]. destruct (negate p); [done|]. rewrite IH. by destruct (existsb _ _).
Qed.

Lemma match_patterns_spec ps addrs m :
  match_patterns ps addrs m = true <->
  (m = true \/ exists p a, p ∈ ps /\ a ∈ addrs /\ negate p = false /\ hostPattern_match p a = true) /\
  forall p a, p ∈ ps -> a ∈ addrs -> hostPattern_match p a = true -> negate p = false.
Proof.
  revert m. induction ps as [|p ps IH]; intros m; cbn [match_patterns].
  { split; [intros ->; split; [by left|]; intros p a Hp; by apply elem_of_nil in Hp|]. intros [[H|(p & a & Hp & _)] _]; [done|by apply elem_of_nil in Hp]. }
  rewrite match_addrs_spec. destruct (existsb (hostPattern_match p) addrs) eqn:E.
  - apply existsb_exists in E as (a & Ha%list_elem_of_In & Hm). destruct (negate p) eqn:En.
    + split; [done|]. intros [_ H]. rewrite (H p a) in En; [done|left|done|done].
    + rewrite IH. split.
      * intros [_ H]. split; [right; exists p, a; repeat split; auto; left|]. intros q b [->|Hq]%elem_of_cons Hb Hqb; [done|by apply (H q b)].
      * intros [_ H]. split; [by left|]. intros q b Hq. apply H. by right.
  - assert (forall a, a ∈ addrs -> hostPattern_match p a = false) as HN.
    { intros a Ha%list_elem_of_In. destruct (hostPattern_match p a) eqn:Em; [|done]. rewrite <- E. symmetry. apply existsb_exists. eauto. }
    rewrite IH. split.
    + intros [H1 H2]. split.
      * destruct H1 as [H1|(q & a & Hq & H1)]; [by left|]. right. exists q, a. split; [by right|done].
      * intros q b [->|Hq]%elem_of_cons Hb Hqb; [by rewrite HN in Hqb|by apply (H2 q b)].
    + intros [H1 H2]. split.
      * destruct H1 as [H1|(q & a & [->|Hq]%elem_of_cons & Ha & Hn & H1)]; [by left|by rewrite HN in H1|]. right. eauto 6.
      * intros q b Hq. apply H2. by right.
Qed.

(** A list of patterns matches when one of them matches one of the addresses, and no
    negated one matches any. *)
Theorem host_patterns_spec ps addrs :
  hostPatterns_match ps addrs = true <->
  (exists p a, p ∈ ps /\ a ∈ addrs /\ negate p = false /\ hostPattern_match p a = true) /\
  forall p a, p ∈ ps -> a ∈ addrs -> hostPattern_match p a = true -> negate p = false.
Proof. unfold hostPatterns_match. rewrite match_patterns_spec. naive_solver. Qed.

(** ** Keys that were read *)

Section Parsed.
Context (ecMarshal : Z -> Z -> Z -> string) (ecUnmarshal : Z -> string -> option (Z * Z)).
Abbreviation KeyMarshal := (KeyMarshal ecMarshal).

(** A key has a type and bytes; a plain one may be in a certificate. *)
Definition plain (k : PublicKey) : bool := match k with CertKey _ => false | _ => true end.
Definition writable (k : PublicKey) : Prop :=
  (exists ty, Type_ k = Ok ty /\ (plain k = true -> is_Some (cert_algo certAlgoNames ty))) /\ exists b, KeyMarshal k = Ok b.

Lemma ecdsa_writable name bits X Y : curve_bits name = Some bits -> writable (ECDSA bits X Y).
Proof.
  unfold curve_bits. intros H. cases_in H; (split; eexists; [split|]; [reflexivity|intros _; vm_compute; eauto|reflexivity]).
Qed.

Lemma plain_parsed data k rest :
  parseRSA data = Ok (k, rest) \/ parseDSA data = Ok (k, rest) \/ parseECDSA ecUnmarshal data = Ok (k, rest) \/ parseED25519 data = Ok (k, rest) ->
  writable k /\ plain k = true.
Proof.
  intros [H|[H|[H|H]]]; apply obind_ok in H as (vs & _ & H).
  - cases_in H; (split; [|done]); (split; eexists; [split|]; [reflexivity|intros _; vm_compute; eauto|reflexivity]).
  - cases_in H; (split; [|done]); (split; eexists; [split|]; [reflexivity|intros _; vm_compute; eauto|reflexivity]).
  - cases_in H; (split; [|done]); by eapply ecdsa_writable.
  - cases_in H; (split; [|done]); (split; eexists; [split|]; [reflexivity|intros _; vm_compute; eauto|reflexivity]).
Qed.

(** The parser of a plain algorithm gives a plain key, that of a certificate one over
    a plain key. *)
Definition good_parser (parse : string -> string -> outcome (PublicKey * string)) : Prop :=
  forall data algo k rest, parse data algo = Ok (k, rest) ->
    writable k /\ (forall c, priv_algo certAlgoNames c = Some algo -> plain k = true).

Lemma parse_public_good parse data k : good_parser parse -> parse_public parse data = Ok k -> writable k.
Proof.
  intros Hp H. unfold parse_public in H. destruct (parseString data) as [[algo d]|]; [|done].
  apply obind_ok in H as ([out rest] & Ho & H). apply Hp in Ho as [Ho _]. destruct (rest =? "")%string; [|done]. by injection H as <-.
Qed.

Lemma writable_cert c :
  plain (Key c) = true -> writable (Key c) -> writable (SignatureKey c) -> writable (CertKey c).
Proof.
  intros Hp ((ty & Ht & Ha) & (b & Hb)) (_ & (sb & Hsb)). destruct (Ha Hp) as [algo Hal].
  assert (Type_ (CertKey c) = Ok algo) as HT. { destruct c. cbn [Key] in Ht. cbn [Type_ cert_Type]. rewrite Ht. cbn [obind]. by rewrite Hal. }
  split; [exists algo; split; [done|by intros ?]|].
  destruct c. cbn [Key SignatureKey] in *. cbn [Keys.KeyMarshal CertMarshal]. rewrite Hsb, Hb. cbn [obind].
  change (cert_Type ?c) with (Type_ (CertKey c)). rewrite HT. cbn [obind]. eauto.
Qed.

Lemma parse_cert_good parse data c algo cert :
  good_parser parse -> priv_algo certAlgoNames c = Some algo -> parse_cert parse data algo = Ok cert -> writable (CertKey cert).
Proof.
  intros Hp Hc H. unfold parse_cert in H. destruct (parseString data) as [[nonce rest]|]; [|done].
  apply obind_ok in H as ([key r1] & Hk & H). apply Hp in Hk as [Hk Hpl]. specialize (Hpl _ Hc).
  apply obind_ok in H as (g & _ & H).
  repeat (destruct g as [|[] g]; try discriminate H). cbn [fst snd] in H.
  apply obind_ok in H as (pr & _ & H). apply obind_ok in H as (op & _ & H). apply obind_ok in H as (ex & _ & H).
  apply obind_ok in H as (sk & Hsk & H). apply (parse_public_good _ _ _ Hp) in Hsk.
  destruct (parseSignatureBody _) as [[sg [|]]|]; try discriminate H. injection H as <-. by apply writable_cert.
Qed.

Lemma plain_not_cert algo c : priv_algo certAlgoNames c = Some algo -> priv_algo certAlgoNames algo = None.
Proof.
  unfold certAlgoNames. cbn [priv_algo]. intros H.
  repeat (match type of H with context [if ?b then _ else _] => destruct b end; [injection H as <-; vm_compute; reflexivity|]). done.
Qed.

Lemma parsePubKey_good fuel : good_parser (parsePubKey ecUnmarshal fuel).
Proof.
  induction fuel as [|fuel IH]; intros data algo k rest H; [done|]. cbn [parsePubKey] in H.
  assert (forall x, x = Ok (k, rest) -> x = parseRSA data \/ x = parseDSA data \/ x = parseECDSA ecUnmarshal data \/ x = parseED25519 data ->
    writable k /\ (forall c, priv_algo certAlgoNames c = Some algo -> plain k = true)) as Hplain.
  { intros x -> Hx. destruct (plain_parsed data k rest) as [H1 H2]; [naive_solver|]. by split. }
  destruct (algo =? KeyAlgoRSA)%string; [by eapply Hplain; eauto|]. destruct (algo =? KeyAlgoDSA)%string; [by eapply Hplain; eauto|].
  destruct (_ || _); [eapply Hplain; eauto|]. destruct (algo =? KeyAlgoED25519)%string; [by eapply Hplain; eauto 6|].
  destruct (priv_algo certAlgoNames algo) as [p|] eqn:Ep; [|done]. unfold certToPrivAlgo in H. rewrite Ep in H. cbn [obind] in H.
  apply obind_ok in H as (cert & Hc & H). injection H as <- <-. split; [by eapply parse_cert_good; eauto|].
  intros c Hc'. apply plain_not_cert in Hc'. congruence.
Qed.

Lemma parsed_writable data k : ParsePublicKey ecUnmarshal data = Ok k -> writable k.
Proof. apply parse_public_good, parsePubKey_good. Qed.
End Parsed.

(** ** The check *)

Lemma SplitHostPort_result s : (exists h p, SplitHostPort s = Ok (h, p)) \/ exists e, SplitHostPort s = Err e.
Proof. unfold SplitHostPort. repeat case_match; eauto. Qed.

Section Check.
Context (ecMarshal : Z -> Z -> Z -> string) (ecUnmarshal : Z -> string -> option (Z * Z)) (hmac_sha1 : string -> string -> string).
Abbreviation KeyMarshal := (KeyMarshal ecMarshal).
Abbreviation writable := (writable ecMarshal).
Abbreviation matcher_match := (matcher_match hmac_sha1).
Abbreviation db_parseLine := (db_parseLine ecMarshal ecUnmarshal).
Abbreviation read_lines := (read_lines ecMarshal ecUnmarshal).
Abbreviation Read := (Read ecMarshal ecUnmarshal).
Abbreviation known_keys := (known_keys hmac_sha1).
Abbreviation check := (check ecMarshal hmac_sha1).

(** *** The database *)

(** Every line, and every revoked key under its bytes, is a key that was read. *)
Record sound_db (db : hostKeyDB) : Prop := mkSound {
  sound_lines : forall x, x ∈ lines db -> writable (k_Key (knownKey x));
  sound_revoked : forall b k, revoked db !! b = Some k -> KeyMarshal (k_Key k) = Ok b;
}.

Lemma sound_new : sound_db newHostKeyDB.
Proof. split; [intros x Hx; by apply elem_of_nil in Hx|]. intros b k. cbn [revoked newHostKeyDB]. by rewrite lookup_empty. Qed.

Lemma parseLine_key line marker host key : parseLine ecUnmarshal line = Ok (marker, host, key) -> writable key.
Proof.
  unfold parseLine. destruct (nextWord line) as [w next]. destruct (if _ : bool then _ else _) as [mk ln].
  destruct (nextWord ln) as [h ln2]. destruct (ln2 =? "")%string; [done|]. destruct (nextWord ln2) as [t ln3].
  destruct (ln3 =? "")%string; [done|]. destruct (nextWord ln3) as [blob x]. intros H.
  apply obind_ok in H as (kb & _ & H). apply obind_ok in H as (k & Hk & H). injection H as _ _ <-. by eapply parsed_writable.
Qed.

Lemma db_parseLine_sound line fn n db db' : sound_db db -> db_parseLine line fn n db = Ok db' -> sound_db db'.
Proof.
  intros [H1 H2] H. unfold HostsFile.db_parseLine in H. apply obind_ok in H as ([[marker pattern] key] & Hk & H). apply parseLine_key in Hk.
  destruct (marker =? markerRevoked)%string.
  - apply obind_ok in H as (b & Hb & H). injection H as <-. split; [done|]. cbn [revoked]. intros b' k.
    destruct (decide (b = b')) as [->|Hne]; [rewrite lookup_insert_eq; by intros [= <-]|rewrite lookup_insert_ne by done; apply H2].
  - apply obind_ok in H as (m & _ & H). injection H as <-. split; [|done]. cbn [lines]. intros x [Hx| ->%list_elem_of_singleton]%elem_of_app; [by apply H1|done].
Qed.

Lemma read_lines_sound l fn : forall n db db', sound_db db -> read_lines l fn n db = Ok db' -> sound_db db'.
Proof.
  induction l as [|x l IH]; intros n db db' Hs H; cbn [HostsFile.read_lines] in H; [by injection H as <-|].
  destruct (is_comment (TrimSpace x)); [by eapply IH|]. destruct (db_parseLine _ fn (n + 1) db) as [db1|e|e|] eqn:E; try done.
  eapply IH; [|exact H]. by eapply db_parseLine_sound.
Qed.

Lemma Read_sound data fn db db' : sound_db db -> Read data fn db = Ok db' -> sound_db db'.
Proof.
  unfold HostsFile.Read. intros Hs H. destruct (scan (Split nl_byte data)) as [l e]. apply obind_ok in H as (d & Hd & H).
  destruct e; [done|]. injection H as <-. by eapply read_lines_sound.
Qed.

Lemma read_files_sound fs files : forall db db', sound_db db -> read_files ecMarshal ecUnmarshal fs files db = Ok db' -> sound_db db'.
Proof.
  induction files as [|fn files IH]; intros db db' Hs H; cbn [read_files] in H; [by injection H as <-|].
  apply obind_ok in H as (data & _ & H). apply obind_ok in H as (d & Hd & H). eapply IH; [|exact H]. by eapply Read_sound.
Qed.

(** *** Which key counts *)

Definition type_is (typ : string) (k : PublicKey) : bool := match Type_ k with Ok t => (t =? typ)%string | _ => false end.
Definition has_key (addrs : list addr) (typ : string) (x : keyDBLine) : bool :=
  matcher_match (l_matcher x) addrs && type_is typ (k_Key (knownKey x)).

Lemma known_keys_spec addrs l : forall known, (forall x, x ∈ l -> writable (k_Key (knownKey x))) ->
  exists m, known_keys l addrs known = Ok m /\
    forall typ, m !! typ = match known !! typ with Some k => Some k | None => knownKey <$> List.find (has_key addrs typ) l end.
Proof.
  induction l as [|x l IH]; intros known Hs.
  { exists known. split; [done|]. intros typ. by destruct (known !! typ). }
  assert (forall y, y ∈ l -> writable (k_Key (knownKey y))) as Hl by (intros y Hy; apply Hs; by right).
  cbn [HostsFile.known_keys List.find]. unfold has_key at 1. destruct (matcher_match (l_matcher x) addrs) eqn:Em; cbn [andb]; cycle 1.
  { destruct (IH known Hl) as (m & Hm & Hf). exists m. split; [done|]. intros typ. by rewrite Hf. }
  destruct (Hs x) as [(ty & Ht & _) _]; [left|]. rewrite Ht. cbn [obind].
  destruct (IH (match known !! ty with Some _ => known | None => <[ty := knownKey x]> known end) Hl) as (m & Hm & Hf).
  exists m. split; [done|]. intros typ. rewrite Hf. unfold type_is at 1. rewrite Ht.
  destruct (String.eqb_spec ty typ) as [->|Hne].
  - destruct (known !! typ) eqn:E; [by rewrite E|]. by rewrite lookup_insert_eq.
  - destruct (known !! ty) eqn:E; [done|]. by rewrite lookup_insert_ne.
Qed.

(** The addresses that the lines are matched against. *)
Definition addresses (address remote : string) : option (list addr) :=
  match SplitHostPort remote with
  | Ok (h, p) =>
      if (address =? "")%string then Some [mkHostPort h p]
      else match SplitHostPort address with Ok (h', p') => Some [mkHostPort h p; mkHostPort h' p'] | _ => None end
  | _ => None
  end.

(** The first line for one of the addresses with a key of the type has this key. *)
Definition first_is (l : list keyDBLine) (addrs : list addr) (key : PublicKey) : Prop :=
  exists l1 x l2 typ b, l = l1 ++ x :: l2 /\ matcher_match (l_matcher x) addrs = true /\
    Type_ key = Ok typ /\ Type_ (k_Key (knownKey x)) = Ok typ /\ KeyMarshal key = Ok b /\ KeyMarshal (k_Key (knownKey x)) = Ok b /\
    forall y, y ∈ l1 -> matcher_match (l_matcher y) addrs = true -> Type_ (k_Key (knownKey y)) <> Ok typ.

Lemma find_first {A} (f : A -> bool) l x :
  List.find f l = Some x <-> exists l1 l2, l = l1 ++ x :: l2 /\ f x = true /\ forall y, y ∈ l1 -> f y = false.
Proof.
  induction l as [|a l IH]; cbn [List.find].
  { split; [done|]. intros ([] & l2 & H & _); done. }
  destruct (f a) eqn:E.
  - split.
    + intros [= <-]. exists [], l. split; [done|]. split; [done|]. intros y Hy. by apply elem_of_nil in Hy.
    + intros ([|b l1] & l2 & H & Hf & Hn); [by injection H as <- <-|]. injection H as <- ->. rewrite (Hn a) in E; [done|left].
  - rewrite IH. split.
    + intros (l1 & l2 & -> & Hf & Hn). exists (a :: l1), l2. split; [done|]. split; [done|]. intros y [->|Hy]%elem_of_cons; [done|by apply Hn].
    + intros ([|b l1] & l2 & H & Hf & Hn); [injection H as <- <-; congruence|]. injection H as <- ->. exists l1, l2. split; [done|]. split; [done|].
      intros y Hy. apply Hn. by right.
Qed.

Lemma type_is_spec typ k : type_is typ k = true <-> Type_ k = Ok typ.
Proof. unfold type_is. destruct (Type_ k); [rewrite String.eqb_eq; naive_solver|done..]. Qed.

Lemma checkAddrs_spec db addrs key : sound_db db -> writable key ->
  (checkAddrs ecMarshal hmac_sha1 db addrs key = Ok None <-> first_is (lines db) addrs key) /\
  exists r, checkAddrs ecMarshal hmac_sha1 db addrs key = Ok r.
Proof.
  intros Hs [(typ & Ht & _) (b & Hb)]. unfold checkAddrs.
  destruct (known_keys_spec addrs (lines db) ∅ (sound_lines _ Hs)) as (m & Hm & Hf). rewrite Hm. cbn [obind].
  specialize (Hf typ). rewrite lookup_empty in Hf. split; cycle 1.
  { case_bool_decide; [eauto|]. rewrite Ht. cbn [obind]. destruct (m !! typ) as [k|] eqn:Ek; [|eauto].
    destruct (List.find _ _) as [x|] eqn:Ex; [|done]. injection Hf as ->. apply find_first in Ex as (l1 & l2 & El & _).
    destruct (sound_lines _ Hs x) as [_ [b' Hb']]; [rewrite El; apply elem_of_app; right; left|]. unfold keyEq. rewrite Hb', Hb. cbn. eauto. }
  case_bool_decide as Em.
  { split; [done|]. intros (l1 & x & l2 & ty & b' & El & Hma & H1 & H2 & _ & _ & Hn). rewrite Ht in H1. injection H1 as <-.
    subst m. rewrite lookup_empty in Hf. destruct (List.find (has_key addrs typ) (lines db)) eqn:E; [done|].
    pose proof (List.find_none _ _ E x) as Hx. rewrite El in Hx. specialize (Hx ltac:(apply in_or_app; right; by left)).
    unfold has_key in Hx. rewrite Hma in Hx. cbn in Hx. apply (proj2 (type_is_spec typ _)) in H2. congruence. }
  rewrite Ht. cbn [obind]. destruct (m !! typ) as [k|] eqn:Ek; cycle 1.
  { split; [done|]. intros (l1 & x & l2 & ty & b' & El & Hma & H1 & H2 & _ & _ & Hn). rewrite Ht in H1. injection H1 as <-.
    destruct (List.find (has_key addrs typ) (lines db)) eqn:E; [done|].
    pose proof (List.find_none _ _ E x) as Hx. rewrite El in Hx. specialize (Hx ltac:(apply in_or_app; right; by left)).
    unfold has_key in Hx. rewrite Hma in Hx. cbn in Hx. apply (proj2 (type_is_spec typ _)) in H2. congruence. }
  destruct (List.find _ _) as [x|] eqn:Ex; [|done]. injection Hf as ->. apply find_first in Ex as (l1 & l2 & El & Hx & Hn).
  destruct (sound_lines _ Hs x) as [_ [b' Hb']]; [rewrite El; apply elem_of_app; right; left|].
  unfold keyEq. rewrite Hb', Hb. cbn [obind]. unfold has_key in Hx. apply andb_true_iff in Hx as [Hma Hty%type_is_spec].
  assert (forall y, y ∈ l1 -> matcher_match (l_matcher y) addrs = true -> Type_ (k_Key (knownKey y)) <> Ok typ) as Hn'.
  { intros y Hy Hmy Hty'%type_is_spec. specialize (Hn y Hy). unfold has_key in Hn. rewrite Hmy, Hty' in Hn. done. }
  split.
  - destruct (String.eqb_spec b' b) as [->|]; [|done]. intros _. by exists l1, x, l2, typ, b.
  - intros (l1' & x' & l2' & ty & b'' & El' & Hma' & H1 & H2 & H3 & H4 & Hn2). rewrite Ht in H1. injection H1 as <-. rewrite Hb in H3. injection H3 as <-.
    assert (List.find (has_key addrs typ) (lines db) = Some x') as E'.
    { apply find_first. exists l1', l2'. split; [done|]. split; [unfold has_key; rewrite Hma'; by apply type_is_spec|].
      intros y Hy. unfold has_key. destruct (matcher_match (l_matcher y) addrs) eqn:E; [|done]. cbn.
      destruct (type_is typ _) eqn:Et; [|done]. apply type_is_spec in Et. by destruct (Hn2 y Hy E). }
    assert (List.find (has_key addrs typ) (lines db) = Some x) as E''.
    { apply find_first. exists l1, l2. split; [done|]. split; [unfold has_key; rewrite Hma; by apply type_is_spec|done]. }
    rewrite E' in E''. injection E'' as ->. rewrite Hb' in H4. injection H4 as ->. by rewrite String.eqb_refl.
Qed.

(** The error of a check cannot be a panic. *)
Lemma check_returns db address remote key : sound_db db -> writable key -> exists r, check db address remote key = Ok r.
Proof.
  intros Hs Hw. pose proof Hw as [_ [b Hb]]. unfold HostsFile.check. rewrite Hb. cbn [obind]. destruct (revoked db !! b); [eauto|].
  destruct (SplitHostPort_result remote) as [(h & p & E1)|[e E1]]; rewrite E1; [|eauto].
  destruct (address =? "")%string; [by apply checkAddrs_spec|].
  destruct (SplitHostPort_result address) as [(h' & p' & E2)|[e E2]]; rewrite E2; [by apply checkAddrs_spec|eauto].
Qed.

Lemma accepted_iff db address remote key :
  sound_db db -> writable key ->
  check db address remote key = Ok None <->
  (forall b, KeyMarshal key = Ok b -> revoked db !! b = None) /\
  exists addrs, addresses address remote = Some addrs /\ first_is (lines db) addrs key.
Proof.
  intros Hs Hw. pose proof Hw as [_ [b Hb]]. unfold HostsFile.check, addresses. rewrite Hb. cbn [obind].
  destruct (revoked db !! b) as [k|] eqn:Er.
  { split; [done|]. intros [H _]. specialize (H b eq_refl). congruence. }
  assert (forall b', Ok b = Ok b' -> revoked db !! b' = None) as Hr by congruence.
  destruct (SplitHostPort remote) as [[h p]|e|e|]; [|split; [done|by intros (_ & addrs & ? & _)]..].
  destruct (address =? "")%string.
  { rewrite (proj1 (checkAddrs_spec db [mkHostPort h p] key Hs Hw)). split; [eauto|]. by intros (_ & addrs & [= <-] & H). }
  destruct (SplitHostPort address) as [[h' p']|e|e|]; [|split; [done|by intros (_ & addrs & ? & _)]..].
  rewrite (proj1 (checkAddrs_spec db [mkHostPort h p; mkHostPort h' p'] key Hs Hw)). split; [eauto|]. by intros (_ & addrs & [= <-] & H).
Qed.
(** C18: A server's key is accepted exactly when its bytes were not revoked and the first
    line, for the server's address or for the name that was dialled, with a key of the
    same type has the same key. *)
Theorem server_key_accepted db address remote key :
  sound_db db -> writable key ->
  check db address remote key = Ok None <->
  (forall b, KeyMarshal key = Ok b -> revoked db !! b = None) /\
  exists addrs, addresses address remote = Some addrs /\ first_is (lines db) addrs key.
Proof. apply accepted_iff. Qed.
End Check.

(** ** Lines *)

(** A byte of a host name: no space, and nothing that the file gives a meaning. *)
Definition host_byte (c : ascii) : bool := negb (is_space c) && negb (in_set "[],|!#@" c).
Definition port_byte (c : ascii) : bool := host_byte c && negb (Ascii.eqb c ":").

(** An address that can be written: an IPv6 one only with a port other than 22. *)
Definition addr_ok (a : addr) : bool :=
  negb (host a =? "")%string && sall host_byte (host a) && sall port_byte (port a) && (lacks ":" (host a) || negb (port a =? "22")%string).

(** How it is written. *)
Definition entry (a : addr) : string :=
  if (port a =? "22")%string then host a else String "[" (host a +:+ String "]" (String ":" (port a))).

Lemma sall_lacks (p : ascii -> bool) c s : p c = false -> sall p s = true -> lacks c s = true.
Proof. intros Hc. apply sall_impl. intros d Hd. apply negb_true_iff, Ascii.eqb_neq. intros ->. congruence. Qed.

Lemma host_lacks c s : host_byte c = false -> sall host_byte s = true -> lacks c s = true.
Proof. apply sall_lacks. Qed.

Lemma index_byte_app c a b : lacks c a = true -> index_byte c (a +:+ String c b) = Some (String.length a).
Proof.
  induction a as [|d a IH]; intros H.
  - change ("" +:+ String c b) with (String c b). cbn [index_byte]. by rewrite Ascii.eqb_refl.
  - rewrite lacks_cons in H. apply andb_true_iff in H as [Hd H]. change (String d a +:+ ?x) with (String d (a +:+ x)). cbn [index_byte String.length].
    apply negb_true_iff in Hd. rewrite Hd, (IH H). done.
Qed.

Lemma sdrop_cons n c s : sdrop (S n) (String c s) = sdrop n s. Proof. done. Qed.

Lemma SplitHostPort_bracket h p :
  lacks "[" h = true -> lacks "]" h = true -> lacks ":" p = true -> lacks "[" p = true -> lacks "]" p = true ->
  SplitHostPort (String "[" (h +:+ String "]" (String ":" p))) = Ok (h, p).
Proof.
  intros Hh1 Hh2 Hp1 Hp2 Hp3. set (hp := String "[" (h +:+ String "]" (String ":" p))).
  assert (last_index_byte ":" hp = Some (S (S (String.length h)))) as E1.
  { replace hp with (String "[" (h +:+ "]") +:+ String ":" p).
    - rewrite last_index_byte_app by done. cbn [String.length]. rewrite string_app_length. cbn. f_equal. lia.
    - unfold hp. change (String "[" (h +:+ "]") +:+ String ":" p) with (String "[" ((h +:+ "]") +:+ String ":" p)). by rewrite string_app_assoc. }
  assert (index_byte "]" hp = Some (S (String.length h))) as E2.
  { unfold hp. cbn [index_byte]. change (Ascii.eqb "[" "]") with false. cbv iota. by rewrite index_byte_app. }
  assert (String.length hp = (String.length h + String.length p + 3)%nat) as E3.
  { unfold hp. cbn [String.length]. rewrite string_app_length. cbn [String.length]. lia. }
  assert (stake (S (String.length h) - 1) (sdrop 1 hp) = h) as E4.
  { unfold hp. rewrite sdrop_cons. change (sdrop 0 ?x) with x. replace (S (String.length h) - 1)%nat with (String.length h) by lia. apply stake_app. }
  assert (sdrop (S (S (String.length h))) hp = String ":" p) as E5.
  { unfold hp. rewrite sdrop_cons. replace (S (String.length h)) with (String.length (h +:+ "]")) by (rewrite string_app_length; cbn; lia).
    change (String "]" (String ":" p)) with ("]" +:+ String ":" p). rewrite <- string_app_assoc. apply sdrop_app. }
  assert (sdrop (S (S (S (String.length h)))) hp = p) as E6.
  { assert (forall n s, sdrop (S n) s = sdrop 1 (sdrop n s)) as Hd by (intros n; induction n as [|n IH]; intros [|c s]; [done|done|done|exact (IH s)]).
    rewrite (Hd (S (S (String.length h)))), E5. done. }
  assert (lacks "[" (sdrop 1 hp) = true) as E7. { unfold hp. rewrite sdrop_cons. change (sdrop 0 ?x) with x. rewrite lacks_app, !lacks_cons, Hh1, Hp2. done. }
  unfold SplitHostPort. rewrite E1. unfold hp at 1. cbv iota beta. fold hp. rewrite E2, E3, E4, E5, E6.
  destruct (Nat.eqb_spec (S (S (String.length h))) (String.length h + String.length p + 3)); [lia|].
  rewrite Nat.eqb_refl, E7, lacks_cons, Hp3. done.
Qed.

Lemma addr_ok_parts a : addr_ok a = true ->
  host a <> "" /\ sall host_byte (host a) = true /\ sall port_byte (port a) = true /\ (lacks ":" (host a) = true \/ port a <> "22").
Proof.
  unfold addr_ok. rewrite !andb_true_iff, orb_true_iff, !negb_true_iff, !String.eqb_neq. naive_solver.
Qed.

Lemma address_read a : addr_ok a = true -> SplitHostPort (addr_String a) = Ok (host a, port a).
Proof.
  intros (_ & Hh & Hp & _)%addr_ok_parts. unfold addr_String.
  assert (forall c, port_byte c = false -> lacks c (port a) = true) as Lp by (intros c Hc; by apply (sall_lacks port_byte)).
  assert (forall c, host_byte c = false -> lacks c (host a) = true) as Lh by (intros c Hc; by apply (sall_lacks host_byte)).
  destruct (lacks ":" (host a)) eqn:E.
  - apply SplitHostPort_join; auto.
  - change (String "[" (host a +:+ "]") +:+ String ":" (port a)) with (String "[" ((host a +:+ "]") +:+ String ":" (port a))).
    rewrite string_app_assoc. apply SplitHostPort_bracket; auto.
Qed.

Lemma Normalize_entry a : addr_ok a = true -> Normalize (addr_String a) = entry a.
Proof.
  intros H. unfold Normalize. rewrite (address_read a H). apply addr_ok_parts in H as (_ & _ & _ & H). unfold entry.
  destruct (String.eqb_spec (port a) "22") as [E|E]; cbn [negb]; [|done]. destruct H as [H|H]; [by rewrite H|done].
Qed.

Lemma entry_read a words : addr_ok a = true ->
  pattern_words (entry a :: words) = (let? hps := pattern_words words in Ok (mkPattern false a :: hps)).
Proof.
  intros H. pose proof (addr_ok_parts a H) as (Hne & Hh & Hp & H22).
  assert (forall c, port_byte c = false -> lacks c (port a) = true) as Lp by (intros c Hc; by apply (sall_lacks port_byte)).
  assert (forall c, host_byte c = false -> lacks c (host a) = true) as Lh by (intros c Hc; by apply (sall_lacks host_byte)).
  destruct a as [h p]. cbn [host port] in *. unfold entry. cbn [host port]. destruct (String.eqb_spec p "22") as [->|E].
  - destruct H22 as [H22|]; [|done]. assert (SplitHostPort h = Err (addr_error h "missing port in address")) as ES.
    { unfold SplitHostPort. by rewrite last_index_byte_lacks. }
    destruct h as [|c h]; [done|]. cbn [sall] in Hh. apply andb_true_iff in Hh as [Hc _]. cbn [pattern_words String.eqb].
    destruct (Ascii.eqb_spec c "!") as [->|_]; [done|]. rewrite ES. destruct (Ascii.eqb_spec c "[") as [->|_]; [done|]. done.
  - cbn [pattern_words String.eqb]. change (Ascii.eqb "[" "!") with false. cbv iota. rewrite SplitHostPort_bracket by auto. done.
Qed.

Lemma entries_read addrs : forallb addr_ok addrs = true -> pattern_words (map entry addrs) = Ok (map (mkPattern false) addrs).
Proof.
  induction addrs as [|a addrs IH]; [done|]. cbn [forallb map]. intros [Ha Hs]%andb_true_iff. by rewrite entry_read, IH.
Qed.

Lemma wildcard_self s : wildcardMatch s s = true.
Proof.
  induction s as [|c s IH]; [done|]. cbn [wildcardMatch]. destruct (Ascii.eqb c "*").
  - destruct (String.eqb_spec s "") as [->|Hs]; [done|]. cbn [orb]. apply any_suffix_spec. by exists (String c ""), s.
  - rewrite Ascii.eqb_refl, orb_true_r. done.
Qed.

(** The pattern of an address matches it, the hash of its entry too. *)
Lemma entries_match addrs as_ a : a ∈ addrs -> a ∈ as_ -> hostPatterns_match (map (mkPattern false) addrs) as_ = true.
Proof.
  intros Ha Has. unfold hostPatterns_match. apply match_patterns_spec. split.
  - right. exists (mkPattern false a), a. split; [apply list_elem_of_In, in_map, list_elem_of_In, Ha|]. split; [done|]. split; [done|].
    unfold hostPattern_match. cbn [paddr]. by rewrite wildcard_self, String.eqb_refl.
  - intros p b Hp%list_elem_of_In _ _. apply in_map_iff in Hp as (x & <- & _). done.
Qed.

(** What an entry consists of: nothing that ends a word or a pattern. *)
Definition entry_byte (c : ascii) : bool := negb (is_space c) && negb (in_set ",|!#@" c).

Lemma entry_bytes a : addr_ok a = true -> sall entry_byte (entry a) = true /\ entry a <> "".
Proof.
  intros (Hne & Hh & Hp & _)%addr_ok_parts.
  assert (sall entry_byte (host a) = true) as H1.
  { eapply sall_impl; [|exact Hh]. intros c. unfold host_byte, entry_byte. by destruct c as [[] [] [] [] [] [] [] []]. }
  assert (sall entry_byte (port a) = true) as H2.
  { eapply sall_impl; [|exact Hp]. intros c. unfold port_byte, host_byte, entry_byte. by destruct c as [[] [] [] [] [] [] [] []]. }
  unfold entry. destruct (port a =? "22")%string; [done|]. split; [|done]. cbn [sall]. rewrite sall_app. cbn [sall]. by rewrite H1, H2.
Qed.

Definition hosts_word (addrs : list addr) : string := join "," (map entry addrs).

Definition word_byte (c : ascii) : bool := negb (is_space c) && negb (in_set "|!#@" c).

Lemma hosts_word_bytes addrs : addrs <> [] -> forallb addr_ok addrs = true -> sall word_byte (hosts_word addrs) = true /\ hosts_word addrs <> "".
Proof.
  intros Hn H. unfold hosts_word. induction addrs as [|a addrs IH]; [done|]. cbn [forallb] in H. apply andb_true_iff in H as [Ha H].
  destruct (entry_bytes a Ha) as [He Hne].
  assert (sall word_byte (entry a) = true) as Hw by (eapply sall_impl; [|exact He]; intros c; unfold entry_byte, word_byte; by destruct c as [[] [] [] [] [] [] [] []]).
  destruct addrs as [|b addrs]; [done|].
  change (map entry (a :: b :: addrs)) with (entry a :: map entry (b :: addrs)).
  change (join "," (entry a :: map entry (b :: addrs))) with (entry a +:+ String "," (join "," (map entry (b :: addrs)))).
  destruct IH as [IH _]; [done|done|]. split; [rewrite sall_app; cbn [sall]; by rewrite Hw, IH|by destruct (entry a)].
Qed.

Lemma hosts_word_read addrs : addrs <> [] -> forallb addr_ok addrs = true ->
  newHostnameMatcher (hosts_word addrs) = Ok (map (mkPattern false) addrs).
Proof.
  intros Hn H. unfold newHostnameMatcher, hosts_word. rewrite Split_join; [by apply entries_read|by destruct addrs|].
  apply Forall_forall. intros w Hw%list_elem_of_In. apply in_map_iff in Hw as (a & <- & Ha). rewrite forallb_forall in H.
  destruct (entry_bytes a (H a Ha)) as [He _]. eapply sall_impl; [|exact He]. intros c. unfold entry_byte. by destruct c as [[] [] [] [] [] [] [] []].
Qed.

(** A hashed name is a word too, and is read back. *)
Definition hash_word (salt hash : string) : string := encodeHash sha1HashType salt hash.

Lemma hash_word_read salt hash : newHashedHost (hash_word salt hash) = Ok (salt, hash).
Proof.
  assert (forall b, lacks bar (Base64.encode b) = true) as Hb by (intros b; by apply encode_lacks_other).
  unfold newHashedHost, decodeHash, hash_word, encodeHash.
  assert (Split bar (join (String bar "") [""; sha1HashType; Base64.encode salt; Base64.encode hash]) =
    [""; sha1HashType; Base64.encode salt; Base64.encode hash]) as ->.
  { apply Split_join; [done|]. repeat constructor; auto. }
  cbn [join String.append]. change (negb (Ascii.eqb bar bar)) with false. cbv iota. unfold base64_bytes. rewrite !decode_encode. done.
Qed.

Lemma hash_word_bytes salt hash : sall (fun c => negb (is_space c)) (hash_word salt hash) = true.
Proof.
  unfold hash_word, encodeHash. cbn [join String.append]. cbn [sall]. rewrite !sall_app. cbn [sall String.append]. rewrite !sall_app.
  pose proof (encode_chars salt) as H1. pose proof (encode_chars hash) as H2. unfold b64_char in *. cbn [sall]. by rewrite H1, H2.
Qed.

(** *** A line of words *)

Lemma TrimSpace_words l : Forall (fun w => word w = true) l -> TrimSpace (String " " (join " " l)) = join " " l.
Proof.
  intros H. apply words_trimmed in H. unfold TrimSpace. change (trim_left is_space (String " " ?x)) with (trim_left is_space x).
  by rewrite trimmed_left, trimmed_right.
Qed.

Lemma nextWord_words w l : Forall (fun w => word w = true) (w :: l) -> nextWord (join " " (w :: l)) = (w, join " " l).
Proof.
  intros [Hw Hl]%Forall_cons. unfold nextWord. destruct l as [|x l].
  - change (join " " [w]) with w. rewrite <- (string_app_nil_r w) at 1. by rewrite cut_blank_word.
  - change (join " " (w :: x :: l)) with (w +:+ String " " (join " " (x :: l))). rewrite cut_blank_word by done. by rewrite TrimSpace_words.
Qed.

Lemma words_nonempty w l : word w = true -> (join " " (w :: l) =? "")%string = false.
Proof. intros H. apply String.eqb_neq. destruct w as [|c w]; [done|]. by destruct l. Qed.

Lemma line_read ecUnmarshal pattern ty b k :
  word pattern = true -> pattern <> markerCert -> pattern <> markerRevoked -> word ty = true -> ParsePublicKey ecUnmarshal b = Ok k ->
  parseLine ecUnmarshal (join " " [pattern; ty; Base64.encode b]) = Ok ("", pattern, k).
Proof.
  intros Hp H1 H2 Ht Hk. assert (b <> "") as Hb by (by intros ->).
  assert (Forall (fun w => word w = true) [pattern; ty; Base64.encode b]) as HW by (repeat constructor; auto using encode_word).
  unfold parseLine. rewrite !nextWord_words by done. apply String.eqb_neq in H1, H2. rewrite H1, H2. cbn [orb]. rewrite nextWord_words by done.
  inversion HW as [|? ? _ HW1]; subst. rewrite words_nonempty, nextWord_words by done.
  inversion HW1 as [|? ? _ HW2]; subst. inversion HW2; subst. rewrite words_nonempty, nextWord_words by done.
  unfold base64_bytes. rewrite decode_encode. cbn [obind]. by rewrite Hk.
Qed.

Lemma revoked_line_read ecUnmarshal marker pattern ty b k :
  marker = markerCert \/ marker = markerRevoked -> word pattern = true -> word ty = true -> ParsePublicKey ecUnmarshal b = Ok k ->
  parseLine ecUnmarshal (join " " [marker; pattern; ty; Base64.encode b]) = Ok (marker, pattern, k).
Proof.
  intros Hm Hp Ht Hk. assert (b <> "") as Hb by (by intros ->). assert (word marker = true) as Hw by (by destruct Hm as [->| ->]).
  assert (Forall (fun w => word w = true) [marker; pattern; ty; Base64.encode b]) as HW by (repeat constructor; auto using encode_word).
  unfold parseLine. rewrite !nextWord_words by done.
  assert ((marker =? markerCert)%string || (marker =? markerRevoked)%string = true) as -> by (by destruct Hm as [->| ->]).
  inversion HW as [|? ? _ HW0]; subst. rewrite nextWord_words by done.
  inversion HW0 as [|? ? _ HW1]; subst. rewrite words_nonempty, nextWord_words by done.
  inversion HW1 as [|? ? _ HW2]; subst. inversion HW2; subst. rewrite words_nonempty, nextWord_words by done.
  unfold base64_bytes. rewrite decode_encode. cbn [obind]. by rewrite Hk.
Qed.

(** ** Files *)

Lemma Split_snoc sep a b : Split sep (a +:+ String sep b) = Split sep a ++ Split sep b.
Proof.
  induction a as [|c a IH].
  - change ("" +:+ String sep b) with (String sep b). cbn [Split]. by rewrite Ascii.eqb_refl.
  - change (String c a +:+ String sep b) with (String c (a +:+ String sep b)). cbn [Split]. rewrite IH.
    destruct (Ascii.eqb c sep); [done|]. pose proof (Split_nonnil sep a). by destruct (Split sep a).
Qed.

Lemma drop_cr_trimmed s : trimmed s = true -> drop_cr s = s.
Proof.
  intros H. unfold drop_cr, HasSuffix. destruct (_ && _) eqn:E; [|done]. exfalso. apply andb_true_iff in E as [_ E%String.eqb_eq].
  assert (exists t, s = t +:+ String "013" "") as [t ->].
  { exists (stake (String.length s - String.length (String "013" "")) s). transitivity (stake (String.length s - String.length (String "013" "")) s +:+ sdrop (String.length s - String.length (String "013" "")) s); [symmetry; apply stake_sdrop|by rewrite E]. }
  apply trimmed_right in H. rewrite trim_right_cut in H by done. apply (f_equal String.length) in H.
  pose proof (trim_right_length is_space t). rewrite string_app_length in H. cbn in H. lia.
Qed.

Lemma scan_cons x y l :
  scan (x :: y :: l) =
    if MaxScanTokenSize <=? slen x then ([], Some "bufio.Scanner: token too long")
    else let '(xs, e) := scan (y :: l) in (drop_cr x :: xs, e).
Proof. done. Qed.

Lemma scan_snoc l line xs :
  scan (l ++ [""]) = (xs, None) -> slen line < MaxScanTokenSize -> trimmed line = true -> scan (l ++ [line; ""]) = (xs ++ [line], None).
Proof.
  intros H Hs Ht. revert xs H. induction l as [|x l IH]; intros xs H.
  - injection H as <-. cbn [app scan String.eqb]. destruct (Z.leb_spec MaxScanTokenSize (slen line)); [lia|]. by rewrite drop_cr_trimmed.
  - cbn [app] in *. destruct (l ++ [""]) as [|y l1] eqn:E1; [by destruct l|]. destruct (l ++ [line; ""]) as [|y' l1'] eqn:E2; [by destruct l|].
    rewrite scan_cons in H |- *. destruct (MaxScanTokenSize <=? slen x); [done|]. destruct (scan (y :: l1)) as [ys e] eqn:E3. injection H as <- ->.
    by rewrite (IH ys eq_refl).
Qed.

Section Files.
Context (ecMarshal : Z -> Z -> Z -> string) (ecUnmarshal : Z -> string -> option (Z * Z)) (hmac_sha1 : string -> string -> string).
Abbreviation KeyMarshal := (KeyMarshal ecMarshal).
Abbreviation ParsePublicKey := (ParsePublicKey ecUnmarshal).
Abbreviation writable := (writable ecMarshal).
Abbreviation matcher_match := (matcher_match hmac_sha1).
Abbreviation db_parseLine := (db_parseLine ecMarshal ecUnmarshal).
Abbreviation read_lines := (read_lines ecMarshal ecUnmarshal).
Abbreviation Read := (Read ecMarshal ecUnmarshal).
Abbreviation check := (check ecMarshal hmac_sha1).

Lemma read_lines_app l1 l2 fn : forall n db, read_lines (l1 ++ l2) fn n db = (let? db1 := read_lines l1 fn n db in read_lines l2 fn (n + Z.of_nat (List.length l1)) db1).
Proof.
  induction l1 as [|x l1 IH]; intros n db; cbn [app HostsFile.read_lines List.length]; [cbn [obind]; by rewrite Z.add_0_r|].
  destruct (is_comment (TrimSpace x)).
  - rewrite IH. by replace (n + 1 + Z.of_nat (List.length l1)) with (n + Z.of_nat (S (List.length l1))) by lia.
  - destruct (db_parseLine (TrimSpace x) fn (n + 1) db) as [db1|e|e|]; [|done..]. rewrite IH.
    by replace (n + 1 + Z.of_nat (List.length l1)) with (n + Z.of_nat (S (List.length l1))) by lia.
Qed.

(** A file to which lines can be appended. *)
Definition whole_lines (data : string) : Prop := data = "" \/ exists d, data = d +:+ nl.

(** A line that is read as one. *)
Definition line_ok (line : string) : Prop :=
  trimmed line = true /\ lacks nl_byte line = true /\ is_comment line = false /\ slen line < MaxScanTokenSize.

Lemma Read_snoc data line fn db db1 :
  whole_lines data -> line_ok line -> Read data fn db = Ok db1 ->
  exists n, forall db2, db_parseLine line fn n db1 = Ok db2 -> Read (data +:+ line +:+ nl) fn db = Ok db2.
Proof.
  intros Hd (Ht & Hn & Hc & Hs) H. unfold HostsFile.Read in *.
  assert (exists l, Split nl_byte data = l ++ [""] /\ Split nl_byte (data +:+ line +:+ nl) = l ++ [line; ""]) as (l & E1 & E2).
  { destruct Hd as [->|[d ->]].
    - exists []. split; [done|]. change ("" +:+ line +:+ nl) with (line +:+ nl). change nl with (String nl_byte ""). by rewrite Split_app.
    - exists (Split nl_byte d). change nl with (String nl_byte ""). rewrite string_app_assoc. change (String nl_byte "" +:+ ?x) with (String nl_byte x).
      rewrite !Split_snoc. split; [done|]. by rewrite (lacks_Split nl_byte line). }
  rewrite E1 in H. rewrite E2. destruct (scan (l ++ [""])) as [xs e] eqn:ES. apply obind_ok in H as (d & Hr & H). destruct e; [done|]. injection H as <-.
  rewrite (scan_snoc l line xs) by done. exists (0 + Z.of_nat (List.length xs) + 1). intros db2 H2.
  rewrite read_lines_app, Hr. cbn [obind HostsFile.read_lines]. apply String.eqb_eq in Ht. rewrite Ht, Hc, H2. done.
Qed.

(** A line without a marker. *)
Definition first_ok (pattern : string) : bool :=
  match pattern with String c _ => negb (Ascii.eqb c "#") && negb (Ascii.eqb c "@") | "" => false end.

Definition host_line (pattern ty b : string) : string := join " " [pattern; ty; Base64.encode b].

Lemma host_line_ok pattern ty b :
  word pattern = true -> first_ok pattern = true -> word ty = true -> b <> "" -> slen (host_line pattern ty b) < MaxScanTokenSize ->
  line_ok (host_line pattern ty b).
Proof.
  intros Hp Hf Ht Hb Hs. assert (Forall (fun w => word w = true) [pattern; ty; Base64.encode b]) as HW by (repeat constructor; auto using encode_word).
  split; [by apply words_trimmed|]. split; [by apply words_lacks|]. split; [|done].
  unfold host_line. destruct pattern as [|c pattern]; [done|]. cbn in Hf |- *. bool_prop. by apply Ascii.eqb_neq.
Qed.

Lemma line_added pattern ty b key m fn n db :
  word pattern = true -> first_ok pattern = true -> word ty = true -> ParsePublicKey b = Ok key -> pattern_matcher pattern = Ok m ->
  db_parseLine (host_line pattern ty b) fn n db = Ok (mkDB (revoked db) (lines db ++ [mkLine false m (mkKnown key fn n)])).
Proof.
  intros Hp Hf Ht Hk Hm. unfold HostsFile.db_parseLine, host_line. rewrite (line_read ecUnmarshal pattern ty b key); [|done| | |done..].
  - cbn [obind String.eqb]. by rewrite Hm.
  - intros ->. done.
  - intros ->. done.
Qed.

(** The first line for some addresses when the database had none for the type. *)
Lemma first_is_last l x addrs typ k :
  Type_ (k_Key (knownKey x)) = Ok typ -> Type_ k = Ok typ -> writable k -> writable (k_Key (knownKey x)) -> matcher_match (l_matcher x) addrs = true ->
  (forall y, y ∈ l -> matcher_match (l_matcher y) addrs = true -> Type_ (k_Key (knownKey y)) <> Ok typ) ->
  first_is ecMarshal hmac_sha1 (l ++ [x]) addrs k <-> KeyMarshal k = KeyMarshal (k_Key (knownKey x)).
Proof.
  intros Hx Hk [_ [b Hb]] [_ [b' Hb']] Hm Hn. split.
  - intros (l1 & y & l2 & ty & bb & El & Hy & H1 & H2 & H3 & H4 & H5). rewrite Hk in H1. injection H1 as <-. rewrite H3.
    destruct l2 as [|z l2 _] using rev_ind.
    + apply app_inj_tail in El as [_ ->]. by rewrite H4.
    + rewrite app_comm_cons, app_assoc in El. apply app_inj_tail in El as [-> _].
      destruct (Hn y); [|done|done]. apply elem_of_app. right. left.
  - intros E. exists l, x, [], typ, b. split_and!; try done. congruence.
Qed.

Definition hostport (h p : string) : addr := mkHostPort h p.

Lemma new_line_accepted db x a remote rh rp typ k :
  sound_db ecMarshal db -> Type_ (k_Key (knownKey x)) = Ok typ -> writable (k_Key (knownKey x)) ->
  addr_ok a = true -> SplitHostPort remote = Ok (rh, rp) ->
  matcher_match (l_matcher x) [hostport rh rp; a] = true ->
  (forall y, y ∈ lines db -> matcher_match (l_matcher y) [hostport rh rp; a] = true -> Type_ (k_Key (knownKey y)) <> Ok typ) ->
  Type_ k = Ok typ -> writable k -> (forall b, KeyMarshal k = Ok b -> revoked db !! b = None) ->
  check (mkDB (revoked db) (lines db ++ [x])) (addr_String a) remote k = Ok None <-> KeyMarshal k = KeyMarshal (k_Key (knownKey x)).
Proof.
  intros [Hs1 Hs2] Hx Hwx Ha Hr Hm Hn Hk Hw Hrev. rewrite accepted_iff; [|split; [|done]|done].
  - assert (addresses (addr_String a) remote = Some [hostport rh rp; a]) as EA.
    { unfold addresses. rewrite Hr, (address_read a Ha). destruct (String.eqb_spec (addr_String a) "") as [E|_]; [|by destruct a].
      apply (f_equal String.length) in E. unfold addr_String in E. rewrite string_app_length in E. cbn in E. lia. }
    cbn [revoked lines]. rewrite EA. split.
    + intros [_ (addrs & [= <-] & H)]. by eapply first_is_last.
    + intros H. split; [done|]. eexists. split; [done|]. by eapply first_is_last.
  - cbn [lines]. intros y [Hy| ->%list_elem_of_singleton]%elem_of_app; [by apply Hs1|done].
Qed.

Context (rsa_verify : Z -> Z -> string -> string -> error_) (dsa_verify : Z -> Z -> Z -> Z -> string -> Z -> Z -> bool)
        (ecdsa_verify : Z -> Z -> Z -> string -> Z -> Z -> bool) (ed25519_equation : string -> string -> string -> bool).
Abbreviation CheckHostKey := (CheckHostKey ecMarshal rsa_verify dsa_verify ecdsa_verify ed25519_equation).
Abbreviation checker_of := (checker_of ecMarshal hmac_sha1).

(** The callback on a key that is no certificate. *)
Lemma callback_check db remote opts now address k : sound_db ecMarshal db -> writable k -> plain k = true ->
  CheckHostKey (checker_of db remote) opts now address k = Ok tt <-> check db address remote k = Ok None.
Proof.
  intros Hs Hw Hp. assert (CheckHostKey (checker_of db remote) opts now address k =
    (let? e := check db address remote k in match e with None => Ok tt | Some e => Err (Error e) end)) as -> by (by destruct k).
  destruct (check_returns ecMarshal hmac_sha1 db address remote k Hs Hw) as [[e|] ->]; done.
Qed.

(** A file with one more line, for one address and one key. *)
Lemma appended data fn db pattern m ty b key :
  whole_lines data -> Read data fn newHostKeyDB = Ok db -> word pattern = true -> first_ok pattern = true -> pattern_matcher pattern = Ok m ->
  Type_ key = Ok ty -> ParsePublicKey b = Ok key -> slen (host_line pattern ty b) < MaxScanTokenSize ->
  exists db', Read (data +:+ host_line pattern ty b +:+ nl) fn newHostKeyDB = Ok db' /\ revoked db' = revoked db /\
    forall a remote rh rp, addr_ok a = true -> SplitHostPort remote = Ok (rh, rp) -> matcher_match m [hostport rh rp; a] = true ->
    (forall y, y ∈ lines db -> matcher_match (l_matcher y) [hostport rh rp; a] = true -> Type_ (k_Key (knownKey y)) <> Ok ty) ->
    forall k opts now, Type_ k = Ok ty -> plain k = true -> writable k -> (forall b, KeyMarshal k = Ok b -> revoked db !! b = None) ->
      CheckHostKey (checker_of db' remote) opts now (addr_String a) k = Ok tt <-> KeyMarshal k = KeyMarshal key.
Proof.
  intros Hd HR Hp Hf Hm Ht Hk Hs. pose proof (type_name_spec ty (type_name key ty Ht)) as Hty. unfold type_name_ok in Hty. bool_prop.
  assert (b <> "") as Hb by (by intros ->).
  destruct (Read_snoc data (host_line pattern ty b) fn newHostKeyDB db Hd (host_line_ok _ _ _ Hp Hf ltac:(done) Hb Hs) HR) as [n Hn].
  pose proof (line_added pattern ty b key m fn n db Hp Hf ltac:(done) Hk Hm) as Hl. apply Hn in Hl as HR'.
  eexists. split; [exact HR'|]. split; [done|]. intros a remote rh rp Ha Hr Hma Hno k opts now Hkt Hkp Hkw Hrev.
  pose proof (Read_sound ecMarshal ecUnmarshal data fn _ _ (sound_new ecMarshal) HR) as Hsd.
  rewrite callback_check; [|by eapply Read_sound; [apply sound_new|exact HR']|done|done].
  eapply new_line_accepted; try done. cbn [k_Key knownKey]. by eapply parsed_writable.
Qed.

Lemma hosts_word_matcher addrs : addrs <> [] -> forallb addr_ok addrs = true ->
  word (hosts_word addrs) = true /\ first_ok (hosts_word addrs) = true /\
  pattern_matcher (hosts_word addrs) = Ok (Patterns (map (mkPattern false) addrs)).
Proof.
  intros Hn H. destruct (hosts_word_bytes addrs Hn H) as [Hb Hne]. pose proof (hosts_word_read addrs Hn H) as HR.
  assert (sall (fun c => negb (is_space c)) (hosts_word addrs) = true) as Hsp.
  { eapply sall_impl; [|exact Hb]. intros c. unfold word_byte. by intros [? _]%andb_true_iff. }
  assert (word (hosts_word addrs) = true) as Hw by (unfold word; rewrite Hsp; by destruct (String.eqb_spec (hosts_word addrs) "")).
  split; [done|]. unfold pattern_matcher. rewrite HR. destruct (hosts_word addrs) as [|c w]; [done|].
  cbn [sall first_ok] in *. apply andb_true_iff in Hb as [Hb _]. unfold word_byte in Hb. apply andb_true_iff in Hb as [_ Hb].
  destruct (Ascii.eqb_spec c "#") as [->|_]; [done|]. destruct (Ascii.eqb_spec c "@") as [->|_]; [done|]. split; [done|].
  destruct (Ascii.eqb_spec c bar) as [->|_]; [done|]. done.
Qed.

(** A line that Line writes for some addresses and a key, put at the end of a
    known_hosts file that can be read, is read back, and the callback then accepts, for
    each of the addresses, exactly this key among those of its type, unless an earlier
    line for the same host has a key of this type. *)
Theorem written_line_accepted data fn db addrs key ty line :
  whole_lines data -> Read data fn newHostKeyDB = Ok db -> addrs <> [] -> forallb addr_ok addrs = true ->
  wf_key ecMarshal ecUnmarshal key -> (forall b, KeyMarshal key = Ok b -> slen b < 2 ^ 32) -> Type_ key = Ok ty ->
  Line ecMarshal (map addr_String addrs) key = Ok line -> slen line < MaxScanTokenSize ->
  exists db', Read (data +:+ line +:+ nl) fn newHostKeyDB = Ok db' /\ revoked db' = revoked db /\
    forall a remote rh rp, a ∈ addrs -> SplitHostPort remote = Ok (rh, rp) ->
    (forall y, y ∈ lines db -> matcher_match (l_matcher y) [hostport rh rp; a] = true -> Type_ (k_Key (knownKey y)) <> Ok ty) ->
    forall k opts now, Type_ k = Ok ty -> plain k = true -> writable k -> (forall b, KeyMarshal k = Ok b -> revoked db !! b = None) ->
      CheckHostKey (checker_of db' remote) opts now (addr_String a) k = Ok tt <-> KeyMarshal k = KeyMarshal key.
Proof.
  intros Hd HR Hne Ha Hw Hsz Ht HL Hs. destruct (hosts_word_matcher addrs Hne Ha) as (Hp & Hf & Hm).
  unfold Line, serialize in HL. rewrite Ht in HL. cbn [obind] in HL. destruct (KeyMarshal key) as [b| | |] eqn:Eb; try done. cbn [obind] in HL.
  injection HL as <-. assert (ParsePublicKey b = Ok key) as Hk by (by eapply wf_read; eauto).
  assert (join "," (map Normalize (map addr_String addrs)) +:+ String " " (ty +:+ String " " (Base64.encode b)) = host_line (hosts_word addrs) ty b) as EL.
  { unfold host_line, hosts_word. replace (map Normalize (map addr_String addrs)) with (map entry addrs); [done|].
    rewrite map_map. apply map_ext_in. intros a Hin. rewrite forallb_forall in Ha. symmetry. by apply Normalize_entry, Ha. }
  rewrite EL in *. destruct (appended data fn db (hosts_word addrs) _ ty b key Hd HR Hp Hf Hm Ht Hk Hs) as (db' & H1 & H2 & H3).
  exists db'. split; [done|]. split; [done|]. intros a remote rh rp Hin Hr. rewrite <- Eb. apply H3; [|done|].
  - rewrite forallb_forall in Ha. by apply Ha, list_elem_of_In.
  - cbn [HostsFile.matcher_match]. apply (entries_match _ _ a); [done|]. right. left.
Qed.

(** A host that was hashed is found again under its address, and the file does not
    say which it is. *)
Theorem hashed_line_accepted data fn db a salt w key ty b :
  whole_lines data -> Read data fn newHostKeyDB = Ok db -> addr_ok a = true -> Type_ key = Ok ty -> ParsePublicKey b = Ok key ->
  HashHostname hmac_sha1 (Ok salt) (Normalize (addr_String a)) = Ok w -> slen (host_line w ty b) < MaxScanTokenSize ->
  exists db', Read (data +:+ host_line w ty b +:+ nl) fn newHostKeyDB = Ok db' /\ revoked db' = revoked db /\
    forall remote rh rp, SplitHostPort remote = Ok (rh, rp) ->
    (forall y, y ∈ lines db -> matcher_match (l_matcher y) [hostport rh rp; a] = true -> Type_ (k_Key (knownKey y)) <> Ok ty) ->
    forall k opts now, Type_ k = Ok ty -> plain k = true -> writable k -> (forall b, KeyMarshal k = Ok b -> revoked db !! b = None) ->
      CheckHostKey (checker_of db' remote) opts now (addr_String a) k = Ok tt <-> KeyMarshal k = KeyMarshal key.
Proof.
  intros Hd HR Ha Ht Hk Hw Hs. injection Hw as <-. fold (hash_word salt (hashHost hmac_sha1 (Normalize (addr_String a)) salt)) in *.
  set (w := hash_word _ _) in *.
  assert (pattern_matcher w = Ok (HashedHost salt (hashHost hmac_sha1 (Normalize (addr_String a)) salt))) as Hm.
  { unfold pattern_matcher, w. rewrite hash_word_read. done. }
  assert (word w = true) as Hw by (unfold word; unfold w at 2; by rewrite hash_word_bytes).
  destruct (appended data fn db w _ ty b key Hd HR Hw eq_refl Hm Ht Hk Hs) as (db' & H1 & H2 & H3).
  exists db'. split; [done|]. split; [done|]. intros remote rh rp Hr. apply H3; [done|done|].
  cbn [HostsFile.matcher_match existsb]. by rewrite String.eqb_refl, !orb_true_r.
Qed.
End Files.

(** ** What goes wrong, and concrete files *)

Definition demo_hmac (salt text : string) : string := salt +:+ text.
Definition demo_addr : addr := mkHostPort "host.example" "22".
Definition demo_addrs : list addr := [demo_addr; mkHostPort "fe80::1" "2222"].
Definition demo_read (data : string) : outcome hostKeyDB := Read demo_ecMarshal demo_ecUnmarshal data "known_hosts" newHostKeyDB.
Definition demo_line : string := match Line demo_ecMarshal (map addr_String demo_addrs) AuthorizedKeys.demo_key with Ok l => l | _ => "" end.
Definition demo_verdict (data address remote : string) (k : PublicKey) : outcome string :=
  let? db := demo_read data in
  let? e := check demo_ecMarshal demo_hmac db address remote k in Ok (match e with None => "accepted" | Some e => Error e end).

(** Line writes an IPv6 address with port 22 in brackets and without the port; such an
    entry is an error of the whole file. *)
Example ipv6_line_unreadable :
  (let? line := Line demo_ecMarshal ["[fe80::1]:22"] AuthorizedKeys.demo_key in demo_read (line +:+ nl)) =
  Err "knownhosts: known_hosts:1: address [fe80::1]: missing port in address".
Proof. vm_compute. reflexivity. Qed.

(** The key of an authority counts as a key of the host: when it comes first, the host's
    own key of the same type is a mismatch, and a server that shows the authority's
    key itself is accepted. *)
Definition marked_line (marker host : string) (k : PublicKey) : string :=
  marker +:+ String " " (host +:+ String " " (match serialize demo_ecMarshal k with Ok s => s | _ => "" end)) +:+ nl.
Example authority_line_shadows :
  let data := marked_line markerCert "*.example" Keys.demo_ca +:+ marked_line "" "host.example" AuthorizedKeys.demo_other in
  demo_verdict data "host.example:22" "10.0.0.1:22" AuthorizedKeys.demo_other = Ok "knownhosts: key mismatch" /\
  demo_verdict data "host.example:22" "10.0.0.1:22" Keys.demo_ca = Ok "accepted".
Proof. split; vm_compute; reflexivity. Qed.

(** Revoking the key of an authority revokes no certificate that it has signed. *)
Theorem revoked_authority_certifies ecMarshal hmac db b k ca address c bc :
  Keys.KeyMarshal ecMarshal (CertKey c) = Ok bc -> bc <> b -> revoked db !! bc = None ->
  IsHostAuthority_ ecMarshal hmac (mkDB (<[b := k]> (revoked db)) (lines db)) ca address = IsHostAuthority_ ecMarshal hmac db ca address /\
  IsRevoked_ ecMarshal (mkDB (<[b := k]> (revoked db)) (lines db)) c = Ok false.
Proof.
  intros Hc Hne Hn. split; [done|]. unfold IsRevoked_. rewrite Hc. cbn [obind revoked]. rewrite lookup_insert_ne by done. by rewrite Hn.
Qed.

Lemma demo_written : Line demo_ecMarshal (map addr_String demo_addrs) AuthorizedKeys.demo_key = Ok demo_line.
Proof. vm_compute. reflexivity. Qed.

Lemma written_line_accepted_witness :
  exists db', demo_read ("" +:+ demo_line +:+ nl) = Ok db' /\
    Keys.CheckHostKey demo_ecMarshal (fun _ _ _ _ => None) (fun _ _ _ _ _ _ _ => true) (fun _ _ _ _ _ _ => true) (fun _ _ _ => true)
      (checker_of demo_ecMarshal demo_hmac db' "10.0.0.1:22") [] 0 "host.example:22" AuthorizedKeys.demo_key = Ok tt.
Proof.
  destruct (written_line_accepted demo_ecMarshal demo_ecUnmarshal demo_hmac (fun _ _ _ _ => None) (fun _ _ _ _ _ _ _ => true)
    (fun _ _ _ _ _ _ => true) (fun _ _ _ => true) "" "known_hosts" newHostKeyDB demo_addrs AuthorizedKeys.demo_key KeyAlgoED25519 demo_line)
    as (db' & H1 & H2 & H3).
  - by left.
  - reflexivity.
  - discriminate.
  - vm_compute. reflexivity.
  - exact I.
  - intros b Hb. injection Hb as <-. vm_compute. reflexivity.
  - reflexivity.
  - exact demo_written.
  - vm_compute. reflexivity.
  - exists db'. split; [exact H1|]. apply (H3 demo_addr "10.0.0.1:22" "10.0.0.1" "22"); try reflexivity.
    + left.
    + intros y Hy. destruct (proj1 (elem_of_nil y) Hy).
    + split; [exists KeyAlgoED25519; split; [reflexivity|intros _; vm_compute; eauto]|eexists; reflexivity].
Defined.

Definition demo_known : hostKeyDB := match demo_read (demo_line +:+ nl) with Ok db => db | _ => newHostKeyDB end.

Lemma server_key_accepted_witness :
  ~ exists addrs, addresses "host.example:22" "10.0.0.1:22" = Some addrs /\
      first_is demo_ecMarshal demo_hmac (lines demo_known) addrs AuthorizedKeys.demo_other.
Proof.
  intros H. assert (check demo_ecMarshal demo_hmac demo_known "host.example:22" "10.0.0.1:22" AuthorizedKeys.demo_other = Ok None) as E.
  - apply (server_key_accepted demo_ecMarshal demo_hmac).
    + apply (Read_sound demo_ecMarshal demo_ecUnmarshal (demo_line +:+ nl) "known_hosts" newHostKeyDB); [apply sound_new|vm_compute; reflexivity].
    + split; [exists KeyAlgoED25519; split; [reflexivity|intros _; vm_compute; eauto]|eexists; reflexivity].
    + split; [|exact H]. intros b Hb. injection Hb as <-. vm_compute. reflexivity.
  - vm_compute in E. discriminate E.
Defined.
