(* ===== verification/Signers.v ===== *)
(** Private keys and what signs with them (xendor/github.com/glycerine/xcryptossh:
    the second half of keys.go, the signers of certs.go; [Fingerprint] of
    sshutil.go): signers of every type of key, the private keys in files, and the
    fingerprints of public keys. *)
From S2P Require Import Prelude.
From S2P Require Import GoStrings.
From S2P Require Import NetIP.
From S2P Require Import Wire.
From S2P Require Import Base64.
From S2P Require Import Keys.
From S2P Require Import KexAlgo.

(** ** Private keys *)

(** The private keys of the standard library, by value or by pointer. *)
Inductive PrivateKey :=
| RSAPrivate (E N D : Z) (Primes : list Z)
| DSAPrivate (P Q G Y X : Z)
| ECDSAPrivate (bits X Y D : Z)
| ED25519Private (bytes : string)
| OtherPrivate (type_name : string).

(** Its public keys. *)
Inductive crypto_key :=
| RSAPublic (E N : Z)
| DSAPublic (P Q G Y : Z)
| ECDSAPublic (bits X Y : Z)
| ED25519Public (keyBytes : string)
| OtherPublic (type_name : string).

Definition bounds_panic : string := "slice bounds out of range".
Definition zero_bytes (n : nat) : string := be_bytes n 0.

(** [Public] of an ed25519.PrivateKey. *)
Definition ed25519_Public (priv : string) : outcome string :=
  if slen priv <? 32 then Panic bounds_panic else Ok (stake 32 (sdrop 32 priv +:+ zero_bytes 32)).

(** [Public] of a crypto.Signer; a DSA key is none. *)
Definition Public (k : PrivateKey) : outcome (option crypto_key) :=
  match k with
  | RSAPrivate E N _ _ => Ok (Some (RSAPublic E N))
  | ECDSAPrivate bits X Y _ => Ok (Some (ECDSAPublic bits X Y))
  | ED25519Private b => let? p := ed25519_Public b in Ok (Some (ED25519Public p))
  | DSAPrivate _ _ _ _ _ | OtherPrivate _ => Ok None
  end.

Definition supportedEllipticCurve (bits : Z) : bool := (bits =? 256) || (bits =? 384) || (bits =? 521).

Definition NewPublicKey (key : crypto_key) : outcome PublicKey :=
  match key with
  | RSAPublic E N => Ok (RSA E N)
  | ECDSAPublic bits X Y =>
      if negb (supportedEllipticCurve bits) then Err "ssh: only P-256, P-384 and P-521 EC keys are supported." else Ok (ECDSA bits X Y)
  | DSAPublic P Q G Y => Ok (DSA P Q G Y)
  | ED25519Public b => Ok (ED25519 b)
  | OtherPublic t => Err ("ssh: unsupported key type " +:+ t)
  end.

(** ** Signers *)

Inductive Signer :=
| wrappedSigner (signer : PrivateKey) (pubKey : PublicKey)
| dsaPrivateKey (P Q G Y X : Z)
| openSSHCertSigner (pub : Certificate) (signer : Signer).

Definition signer_PublicKey (s : Signer) : PublicKey :=
  match s with
  | wrappedSigner _ pubKey => pubKey
  | dsaPrivateKey P Q G Y _ => DSA P Q G Y
  | openSSHCertSigner pub _ => CertKey pub
  end.

Definition NewSignerFromSigner (signer : PrivateKey) (public : crypto_key) : outcome Signer :=
  let? pubKey := NewPublicKey public in Ok (wrappedSigner signer pubKey).

Definition NewSignerFromKey (key : PrivateKey) : outcome Signer :=
  let? p := Public key in
  match p, key with
  | Some p, _ => NewSignerFromSigner key p
  | None, DSAPrivate P Q G Y X => Ok (dsaPrivateKey P Q G Y X)
  | None, OtherPrivate t => Err ("ssh: unsupported key type " +:+ t)
  | None, _ => Panic "unreachable"
  end.

(** copy into a buffer, from a place that can be negative. *)
Definition overwrite (buf : string) (pos : Z) (b : string) : outcome string :=
  if pos <? 0 then Panic bounds_panic
  else Ok (stake (Z.to_nat pos) buf +:+ b +:+ sdrop (Z.to_nat pos + String.length b) buf).

(** The forty bytes of a DSA signature. *)
Definition dsa_blob (r s : Z) : outcome string :=
  let? sig := overwrite (zero_bytes 40) (20 - slen (Bytes r)) (Bytes r) in
  overwrite sig (40 - slen (Bytes s)) (Bytes s).

Section Signing.
Context (ecMarshal : Z -> Z -> Z -> string).
(** The hash functions, the signing of the standard library, with its randomness, and
    the reading of a pair of numbers in ASN.1. *)
Context (hash : Hash -> string -> string) (crypto_Sign : PrivateKey -> string -> option Hash -> outcome string)
        (dsa_Sign : Z -> Z -> Z -> Z -> string -> outcome (Z * Z)) (asn1_pair : string -> outcome (Z * Z)).

(** [Sign] of the type dsaPrivateKey. *)
Definition dsa_signer_Sign (P Q G Y X : Z) (data : string) : outcome Signature :=
  let? '(r, s) := dsa_Sign P Q G X (hash SHA1 data) in
  let? sig := dsa_blob r s in Ok (mkSignature KeyAlgoDSA sig).

(** The hash function that goes with a public key. *)
Definition hash_func (pubKey : PublicKey) : outcome (option Hash) :=
  match pubKey with
  | RSA _ _ | DSA _ _ _ _ => Ok (Some SHA1)
  | ECDSA bits _ _ => Ok (Some (ecHash bits))
  | ED25519 _ => Ok None
  | CertKey _ => Err "ssh: unsupported key type *ssh.Certificate"
  end.

Definition wrapped_Sign (signer : PrivateKey) (pubKey : PublicKey) (data : string) : outcome Signature :=
  let? hashFunc := hash_func pubKey in
  let digest := match hashFunc with Some h => hash h data | None => data end in
  let? signature := crypto_Sign signer digest hashFunc in
  let? signature :=
    match pubKey with
    | ECDSA _ _ _ => let? '(r, s) := asn1_pair signature in Ok (Marshal asn1Struct [VInt r; VInt s])
    | DSA _ _ _ _ => let? '(r, s) := asn1_pair signature in dsa_blob r s
    | _ => Ok signature
    end in
  let? ty := Type_ pubKey in Ok (mkSignature ty signature).

Fixpoint Sign (s : Signer) (data : string) : outcome Signature :=
  match s with
  | wrappedSigner signer pubKey => wrapped_Sign signer pubKey data
  | dsaPrivateKey P Q G Y X => dsa_signer_Sign P Q G Y X data
  | openSSHCertSigner _ signer => Sign signer data
  end.

Definition NewCertSigner (cert : Certificate) (signer : Signer) : outcome Signer :=
  let? a := KeyMarshal ecMarshal (Key cert) in
  let? b := KeyMarshal ecMarshal (signer_PublicKey signer) in
  if negb (a =? b)%string then Err "ssh: signer and cert have different public key" else Ok (openSSHCertSigner cert signer).
End Signing.

(** ** Private keys in files *)

Definition magic : string := "openssh-key-v1" +:+ String (byte 0) "".
Definition opensshStruct : msg_type := mkType "" []
  [("CipherName", KString); ("KdfName", KString); ("KdfOpts", KString); ("NumKeys", KUint32); ("PubKey", KBytes); ("PrivKeyBlock", KBytes)].
Definition pk1Struct : msg_type := mkType "" [] [("Check1", KUint32); ("Check2", KUint32); ("Keytype", KString); ("Rest", KRest)].
Definition rsaStruct : msg_type := mkType "" []
  [("N", KInt); ("E", KInt); ("D", KInt); ("Iqmp", KInt); ("P", KInt); ("Q", KInt); ("Comment", KString); ("Pad", KRest)].
Definition ed25519Struct : msg_type := mkType "" [] [("Pub", KBytes); ("Priv", KBytes); ("Comment", KString); ("Pad", KRest)].

(** The padding: 1, 2, 3 and so on. *)
Fixpoint pad_ok (i : Z) (pad : string) : bool :=
  match pad with "" => true | String c pad => (val c =? i + 1) && pad_ok (i + 1) pad end.

(** [Validate] of an rsa.PrivateKey. *)
Definition rsa_Validate (E N D : Z) (Primes : list Z) : error_ :=
  if E <? 2 then Some "crypto/rsa: public exponent too small"
  else if 2 ^ 31 - 1 <? E then Some "crypto/rsa: public exponent too large"
  else if existsb (fun p => p <=? 1) Primes then Some "crypto/rsa: invalid prime value"
  else if negb (fold_left Z.mul Primes 1 =? N) then Some "crypto/rsa: invalid modulus"
  else if existsb (fun p => negb ((E * D) mod (p - 1) =? 1)) Primes then Some "crypto/rsa: invalid exponents"
  else None.

Definition parseOpenSSHPrivateKey (key : string) : outcome PrivateKey :=
  if slen key <? slen magic then Panic bounds_panic
  else if negb (stake (String.length magic) key =? magic)%string then Err "ssh: invalid openssh private key format"
  else
    let? w := Unmarshal (sdrop (String.length magic) key) opensshStruct in
    match w with
    | [VString CipherName; VString KdfName; VString _; VUint32 _; VBytes _; VBytes PrivKeyBlock] =>
        if negb (KdfName =? "none")%string || negb (CipherName =? "none")%string then Err "ssh: cannot decode encrypted private keys"
        else
          let? pk1 := Unmarshal PrivKeyBlock pk1Struct in
          match pk1 with
          | [VUint32 Check1; VUint32 Check2; VString Keytype; VRest rest] =>
              if negb (Check1 =? Check2) then Err "ssh: checkint mismatch"
              else if (Keytype =? KeyAlgoRSA)%string then
                let? k := Unmarshal rest rsaStruct in
                match k with
                | [VInt N; VInt E; VInt D; VInt _; VInt P; VInt Q; VString _; VRest Pad] =>
                    if negb (pad_ok 0 Pad) then Err "ssh: padding not as expected"
                    else
                      match rsa_Validate (to_int64 E) N D [P; Q] with
                      | Some e => Err e
                      | None => Ok (RSAPrivate (to_int64 E) N D [P; Q])
                      end
                | _ => Panic "unreachable"
                end
              else if (Keytype =? KeyAlgoED25519)%string then
                let? k := Unmarshal rest ed25519Struct in
                match k with
                | [VBytes _; VBytes Priv; VString _; VRest Pad] =>
                    if negb (slen Priv =? 64) then Err "ssh: private key unexpected length"
                    else if negb (pad_ok 0 Pad) then Err "ssh: padding not as expected"
                    else Ok (ED25519Private Priv)
                | _ => Panic "unreachable"
                end
              else Err "ssh: unhandled key type"
          | _ => Panic "unreachable"
          end
    | _ => Panic "unreachable"
    end.

(** A PEM block: its type, its header Proc-Type, its bytes. *)
Record pem_block := mkBlock { Type_of : string; ProcType : string; Bytes_of : string }.
Definition encryptedBlock (block : pem_block) : bool := Contains (ProcType block) "ENCRYPTED".

Section Files.
(** The PEM format, the DER formats of RSA, elliptic and DSA keys and the encryption
    of blocks, of the standard library. *)
Context (pem_Decode : string -> option pem_block) (ParsePKCS1PrivateKey ParseECPrivateKey : string -> outcome PrivateKey).
Context (asn1_dsa : string -> outcome (Z * Z * Z * Z * Z * string)).
Context (IsEncryptedPEMBlock : pem_block -> bool) (DecryptPEMBlock : pem_block -> string -> outcome string).
Definition IncorrectPasswordError : string := "x509: decryption password incorrect".

Definition ParseDSAPrivateKey (der : string) : outcome PrivateKey :=
  match asn1_dsa der with
  | Ok (P, Q, G, Pub, Priv, rest) => if negb (rest =? "")%string then Err "ssh: garbage after DSA key" else Ok (DSAPrivate P Q G Pub Priv)
  | Err e => Err ("ssh: failed to parse DSA key: " +:+ e)
  | Panic s => Panic s
  | Blocked => Blocked
  end.

(** The switch on the type of a block. [%q] of a plain name. *)
Definition parse_block (ty bytes : string) : outcome PrivateKey :=
  if (ty =? "RSA PRIVATE KEY")%string then ParsePKCS1PrivateKey bytes
  else if (ty =? "EC PRIVATE KEY")%string then ParseECPrivateKey bytes
  else if (ty =? "DSA PRIVATE KEY")%string then ParseDSAPrivateKey bytes
  else if (ty =? "OPENSSH PRIVATE KEY")%string then parseOpenSSHPrivateKey bytes
  else Err ("ssh: unsupported key type " +:+ dq +:+ ty +:+ dq).

Definition ParseRawPrivateKey (pemBytes : string) : outcome PrivateKey :=
  match pem_Decode pemBytes with
  | None => Err "ssh: no key found"
  | Some block =>
      if encryptedBlock block then Err "ssh: cannot decode encrypted private keys"
      else parse_block (Type_of block) (Bytes_of block)
  end.

Definition ParseRawPrivateKeyWithPassphrase (pemBytes passPhrase : string) : outcome PrivateKey :=
  match pem_Decode pemBytes with
  | None => Err "ssh: no key found"
  | Some block =>
      let? buf :=
        if encryptedBlock block && IsEncryptedPEMBlock block then
          match DecryptPEMBlock block passPhrase with
          | Err e => Err (if (e =? IncorrectPasswordError)%string then e else "ssh: cannot decode encrypted private keys: " +:+ e)
          | r => r
          end
        else Ok (Bytes_of block) in
      parse_block (Type_of block) buf
  end.

Definition ParsePrivateKey (pemBytes : string) : outcome Signer :=
  let? key := ParseRawPrivateKey pemBytes in NewSignerFromKey key.
Definition ParsePrivateKeyWithPassphrase (pemBytes passPhrase : string) : outcome Signer :=
  let? key := ParseRawPrivateKeyWithPassphrase pemBytes passPhrase in NewSignerFromKey key.
End Files.

(** ** Fingerprints *)

Section Fingerprints.
Context (ecMarshal : Z -> Z -> Z -> string) (md5 sha256 : string -> string).

Definition hex_byte (c : ascii) : string := String (hex_digit (val c / 16)) (String (hex_digit (val c mod 16)) "").
Fixpoint hex_bytes (s : string) : list string := match s with "" => [] | String c s => hex_byte c :: hex_bytes s end.

Definition FingerprintLegacyMD5 (pubKey : PublicKey) : outcome string :=
  let? b := KeyMarshal ecMarshal pubKey in Ok (join ":" (hex_bytes (md5 b))).

(** RawStdEncoding: without padding. *)
Definition raw_encode (s : string) : string := remove_byte pad (Base64.encode s).
Definition FingerprintSHA256 (pubKey : PublicKey) : outcome string :=
  let? b := KeyMarshal ecMarshal pubKey in Ok ("SHA256:" +:+ raw_encode (sha256 b)).

(** [Fingerprint] of sshutil.go. *)
Definition Fingerprint (k : PublicKey) : outcome string :=
  let? b := KeyMarshal ecMarshal k in Ok ("SHA256:" +:+ Base64.encode (sha256 b)).
End Fingerprints.

(** ** Numbers in a fixed width *)

Lemma be_bytes_zeros k m n : 0 <= n < 256 ^ Z.of_nat m -> be_bytes (k + m) n = zero_bytes k +:+ be_bytes m n.
Proof.
  intros H. induction k as [|k IH]; [done|]. cbn [Nat.add be_bytes zero_bytes]. unfold zero_bytes in *. rewrite IH. cbn [be_bytes].
  change (String ?a ?b +:+ ?c) with (String a (b +:+ c)). f_equal.
  rewrite Z.shiftr_0_l, Z.shiftr_div_pow2 by lia. f_equal.
  rewrite Z.div_small; [done|]. split; [lia|]. eapply Z.lt_le_trans; [apply H|].
  change 256 with (2 ^ 8). rewrite <- Z.pow_mul_r by lia. apply Z.pow_le_mono_r; lia.
Qed.

Lemma Bytes_bound n : 0 <= n -> n < 256 ^ Z.of_nat (Z.to_nat ((BitLen n + 7) / 8)).
Proof.
  intros Hn. unfold BitLen. destruct (Z.eqb_spec n 0) as [->|Hz]; [done|]. rewrite Z.abs_eq by done.
  pose proof (Z.log2_spec n ltac:(lia)) as [_ Hl]. pose proof (Z.log2_nonneg n).
  eapply Z.lt_le_trans; [exact Hl|]. change 256 with (2 ^ 8). rewrite <- Z.pow_mul_r by lia. apply Z.pow_le_mono_r; [lia|].
  rewrite Z2Nat.id by (apply Z.div_pos; lia). Z.to_euclidean_division_equations. lia.
Qed.

Lemma Bytes_length n k : 0 <= n < 256 ^ Z.of_nat k -> (String.length (Bytes n) <= k)%nat.
Proof.
  intros [Hn Hk]. unfold Bytes. rewrite be_bytes_length. unfold BitLen. destruct (Z.eqb_spec n 0) as [->|Hz]; [exact (Nat.le_0_l k)|].
  rewrite Z.abs_eq by done. change 256 with (2 ^ 8) in Hk. rewrite <- Z.pow_mul_r in Hk by lia.
  apply Z.log2_lt_pow2 in Hk; [|lia]. pose proof (Z.log2_nonneg n). Z.to_euclidean_division_equations. lia.
Qed.

Lemma Bytes_padded n k : 0 <= n < 256 ^ Z.of_nat k -> zero_bytes (k - String.length (Bytes n)) +:+ Bytes n = be_bytes k n.
Proof.
  intros H. pose proof (Bytes_length n k H) as Hl. unfold Bytes in *. rewrite be_bytes_length in *. rewrite Z.abs_eq in * by lia.
  rewrite <- be_bytes_zeros; [f_equal; lia|]. split; [lia|]. apply Bytes_bound. lia.
Qed.

Lemma stake_app_more a b n : stake (String.length a + n) (a +:+ b) = a +:+ stake n b.
Proof. induction a as [|c a IH]; [done|]. cbn. by rewrite <- IH. Qed.

(** The forty bytes hold both numbers, when each has at most 160 bits. *)
Lemma dsa_blob_ok r s : 0 <= r < 2 ^ 160 -> 0 <= s < 2 ^ 160 -> dsa_blob r s = Ok (be_bytes 20 r +:+ be_bytes 20 s).
Proof.
  intros Hr Hs. change (2 ^ 160) with (256 ^ Z.of_nat 20) in *.
  pose proof (Bytes_length r 20 Hr) as Lr. pose proof (Bytes_length s 20 Hs) as Ls.
  pose proof (Bytes_padded r 20 Hr) as Er. pose proof (Bytes_padded s 20 Hs) as Es.
  set (rb := Bytes r) in *. set (sb := Bytes s) in *. unfold dsa_blob, overwrite. fold rb sb.
  destruct (Z.ltb_spec (20 - slen rb) 0); [unfold slen in *; lia|]. cbn [obind].
  destruct (Z.ltb_spec (40 - slen sb) 0); [unfold slen in *; lia|]. f_equal.
  assert (Z.to_nat (20 - slen rb) = 20 - String.length rb)%nat as -> by (unfold slen; lia).
  assert (Z.to_nat (40 - slen sb) = 20 + (20 - String.length sb))%nat as -> by (unfold slen; lia).
  assert (forall a b, (a <= b)%nat -> stake a (zero_bytes b) = zero_bytes a) as Ht.
  { intros a b Hab. unfold zero_bytes. replace b with (a + (b - a))%nat by lia. rewrite (be_bytes_zeros a (b - a) 0) by (split; [lia|apply Z.pow_pos_nonneg; lia]).
    apply stake_app_len, be_bytes_length. }
  assert (forall a b, (a <= b)%nat -> sdrop a (zero_bytes b) = zero_bytes (b - a)) as Hd.
  { intros a b Hab. unfold zero_bytes. replace b with (a + (b - a))%nat at 1 by lia. rewrite (be_bytes_zeros a (b - a) 0) by (split; [lia|apply Z.pow_pos_nonneg; lia]).
    apply sdrop_app_len, be_bytes_length. }
  rewrite Ht, Hd by lia. replace (40 - (20 - String.length rb + String.length rb))%nat with 20%nat by lia.
  rewrite <- (string_app_assoc _ rb), Er.
  assert (stake (20 + (20 - String.length sb)) (be_bytes 20 r +:+ zero_bytes 20) = be_bytes 20 r +:+ zero_bytes (20 - String.length sb)) as ->.
  { rewrite <- (Ht (20 - String.length sb)%nat 20%nat) by lia. rewrite <- (stake_app_more (be_bytes 20 r)). by rewrite be_bytes_length. }
  assert (sdrop (20 + (20 - String.length sb) + String.length sb) (be_bytes 20 r +:+ zero_bytes 20) = "") as ->.
  { replace (20 + (20 - String.length sb) + String.length sb)%nat with 40%nat by lia.
    assert (String.length (be_bytes 20 r +:+ zero_bytes 20) = 40%nat) as <- by (unfold zero_bytes; by rewrite string_app_length, !be_bytes_length).
    apply sdrop_all. }
  rewrite string_app_nil_r, string_app_assoc. by rewrite Es.
Qed.

(** ** What is signed verifies *)

Section Verified.
Context (ecMarshal : Z -> Z -> Z -> string) (ecUnmarshal : Z -> string -> option (Z * Z)).
Context (hash : Hash -> string -> string) (crypto_Sign : PrivateKey -> string -> option Hash -> outcome string)
        (dsa_Sign : Z -> Z -> Z -> Z -> string -> outcome (Z * Z)) (asn1_pair : string -> outcome (Z * Z)).
Context (rsa_verify : Z -> Z -> string -> string -> error_) (dsa_verify : Z -> Z -> Z -> Z -> string -> Z -> Z -> bool)
        (ecdsa_verify : Z -> Z -> Z -> string -> Z -> Z -> bool) (ed25519_equation : string -> string -> string -> bool).
Abbreviation Sign := (Sign hash crypto_Sign dsa_Sign asn1_pair).
Abbreviation Verify := (Verify rsa_verify dsa_verify ecdsa_verify ed25519_equation).
Abbreviation KeyMarshal := (KeyMarshal ecMarshal).

(** The private keys that belong to their public halves. *)
Context (key_pair : PrivateKey -> Prop).

(** What the schemes promise of a key pair. *)
Record schemes : Prop := mkSchemes {
  rsa_signs : forall E N D ps data sig, key_pair (RSAPrivate E N D ps) ->
    crypto_Sign (RSAPrivate E N D ps) (hash SHA1 data) (Some SHA1) = Ok sig -> rsa_verify E N data sig = None;
  dsa_signs : forall P Q G Y X data r s, key_pair (DSAPrivate P Q G Y X) -> dsa_Sign P Q G X (hash SHA1 data) = Ok (r, s) ->
    0 <= r < Q /\ 0 <= s < Q /\ dsa_verify P Q G Y data r s = true;
  ecdsa_signs : forall bits X Y D data der r s, key_pair (ECDSAPrivate bits X Y D) ->
    crypto_Sign (ECDSAPrivate bits X Y D) (hash (ecHash bits) data) (Some (ecHash bits)) = Ok der -> asn1_pair der = Ok (r, s) ->
    0 <= r < 2 ^ bits /\ 0 <= s < 2 ^ bits /\ ecdsa_verify bits X Y data r s = true;
  ed25519_signs : forall b data sig, key_pair (ED25519Private b) -> slen b = 64 -> crypto_Sign (ED25519Private b) data None = Ok sig ->
    Keys.ed25519_Verify ed25519_equation (sdrop 32 b) data sig = Ok true;
}.

(** A subgroup of at most 160 bits for DSA; the length of an ed25519 key. *)
Definition valid (k : PrivateKey) : Prop :=
  match k with DSAPrivate _ Q _ _ _ => Q <= 2 ^ 160 | ED25519Private b => slen b = 64 | _ => True end.

(** The signers that the library makes. *)
Inductive made : Signer -> Prop :=
| made_key k s : key_pair k -> valid k -> NewSignerFromKey k = Ok s -> made s
| made_cert cert s s' b :
    made s -> wf_plain ecMarshal ecUnmarshal (Key cert) -> wf_key ecMarshal ecUnmarshal (signer_PublicKey s) ->
    KeyMarshal (Key cert) = Ok b -> slen b < 2 ^ 32 -> NewCertSigner ecMarshal cert s = Ok s' -> made s'.

Lemma int_size n k : 0 <= n < 256 ^ Z.of_nat k -> slen (field_bytes (VInt n)) <= 5 + Z.of_nat k.
Proof.
  intros H. unfold field_bytes. cbn [marshalField]. unfold marshalInt. change ("" +:+ ?x) with x. rewrite slen_app, slen_be_bytes.
  pose proof (Bytes_length n k H) as Hl. unfold int_content. destruct (Z.ltb_spec n 0); [lia|]. destruct (n =? 0); [change (slen "") with 0; lia|].
  destruct (_ && _); [change (String (byte 0) (Bytes n)) with (String (byte 0) "" +:+ Bytes n); rewrite slen_app; change (slen (String (byte 0) "")) with 1|]; unfold slen; lia.
Qed.

Lemma pair_read r s : 0 <= r < 256 ^ Z.of_nat 66 -> 0 <= s < 256 ^ Z.of_nat 66 ->
  Unmarshal (Marshal asn1Struct [VInt r; VInt s]) asn1Struct = Ok [VInt r; VInt s].
Proof.
  intros Hr Hs. pose proof (int_size r 66 Hr). pose proof (int_size s 66 Hs).
  apply Unmarshal_struct; [done|done|by repeat constructor|].
  cbn [fields_bytes]. rewrite string_app_nil_r, slen_app. pose proof (slen_nonneg (field_bytes (VInt s))).
  assert (4 <= slen (field_bytes (VInt r))); [|lia].
  unfold field_bytes. cbn [marshalField]. unfold marshalInt. change ("" +:+ ?x) with x. rewrite slen_app, slen_be_bytes. pose proof (slen_nonneg (int_content r)). lia.
Qed.

Lemma curve_size bits n : supportedEllipticCurve bits = true -> 0 <= n < 2 ^ bits -> 0 <= n < 256 ^ Z.of_nat 66.
Proof.
  intros Hb [H1 H2]. split; [done|]. eapply Z.lt_le_trans; [exact H2|]. change 256 with (2 ^ 8). rewrite <- Z.pow_mul_r by lia.
  unfold supportedEllipticCurve in Hb. apply Z.pow_le_mono_r; [lia|].
  destruct (Z.eqb_spec bits 256); [lia|]. destruct (Z.eqb_spec bits 384); [lia|]. destruct (Z.eqb_spec bits 521); [lia|done].
Qed.

Lemma key_signer_verifies k s data sig : schemes -> key_pair k -> valid k -> NewSignerFromKey k = Ok s -> Sign s data = Ok sig ->
  Verify (signer_PublicKey s) data sig = Ok tt.
Proof.
  intros HS Hk Hv Hn H. destruct k as [E N D ps|P Q G Y X|bits X Y D|b|t].
  - injection Hn as <-. cbn in H. apply obind_ok in H as (sg & Hs & H). injection H as <-.
    cbn. unfold rsa_Verify. cbn. by rewrite (rsa_signs HS _ _ _ _ _ _ Hk Hs).
  - injection Hn as <-. cbn in H. unfold dsa_signer_Sign in H. apply obind_ok in H as ([r s] & Hs & H).
    destruct (dsa_signs HS _ _ _ _ _ _ _ _ Hk Hs) as (Hr & Hs' & Hd). cbn in Hv. rewrite dsa_blob_ok in H by lia. cbn [obind] in H. apply Ok_inj in H as <-.
    cbn [signer_PublicKey Keys.Verify]. unfold dsa_Verify. cbn [Format Blob]. rewrite String.eqb_refl. cbn [negb]. rewrite slen_app, !slen_be_bytes.
    change (negb (Z.of_nat 20 + Z.of_nat 20 =? 40)) with false. cbv iota.
    rewrite stake_app_len, sdrop_app_len by apply be_bytes_length. rewrite !be_be_bytes by (change (256 ^ Z.of_nat 20) with (2 ^ 160); lia). by rewrite Hd.
  - unfold NewSignerFromKey, NewSignerFromSigner in Hn. cbn [Public obind] in Hn. unfold NewPublicKey in Hn.
    destruct (supportedEllipticCurve bits) eqn:Eb; [|done]. injection Hn as <-. cbn [Signers.Sign] in H. unfold wrapped_Sign in H. cbn [hash_func obind] in H.
    apply obind_ok in H as (der & Hs & H). apply obind_ok in H as (sg & Hp & H). apply obind_ok in Hp as ([r s] & Hp & Hq). injection Hq as <-.
    destruct (ecdsa_signs HS _ _ _ _ _ _ _ _ Hk Hs Hp) as (Hr & Hs' & Hd).
    apply obind_ok in H as (ty & Ht & H). injection H as <-. cbn [signer_PublicKey Keys.Verify]. unfold ecdsa_Verify. cbn [Type_] in Ht.
    apply obind_ok in Ht as (id & Hi & Ht). injection Ht as <-. rewrite Hi. cbn [obind Format Blob]. rewrite String.eqb_refl. cbn [negb].
    rewrite pair_read by (by eapply curve_size). cbn [obind]. by rewrite Hd.
  - cbn in Hv. unfold NewSignerFromKey in Hn. cbn [Public] in Hn. unfold ed25519_Public in Hn. destruct (Z.ltb_spec (slen b) 32); [lia|]. unfold NewSignerFromSigner, NewPublicKey in Hn. cbn [obind] in Hn. apply Ok_inj in Hn as <-.
    assert (stake 32 (sdrop 32 b +:+ zero_bytes 32) = sdrop 32 b) as Eb.
    { apply stake_app_len. rewrite <- (stake_sdrop 32 b) in Hv. unfold slen in Hv. rewrite string_app_length, stake_length in Hv. unfold slen in *. lia. }
    rewrite Eb in *. cbn [Signers.Sign] in H. unfold wrapped_Sign in H. cbn [hash_func obind] in H.
    apply obind_ok in H as (sg & Hs & H). cbn [obind Type_] in H. injection H as <-. cbn [signer_PublicKey Keys.Verify]. unfold ed25519_key_Verify.
    cbn [Format Blob]. rewrite String.eqb_refl. cbn [negb]. by rewrite (ed25519_signs HS _ _ _ Hk Hv Hs).
  - done.
Qed.

Lemma made_verifies s data sig : schemes -> made s -> Sign s data = Ok sig -> Verify (signer_PublicKey s) data sig = Ok tt.
Proof.
  intros HS Hm. revert sig. induction Hm as [k s Hk Hv Hn|cert s s' b Hm IH Hw1 Hw2 Hb Hl Hn]; intros sig H; [by eapply key_signer_verifies|].
  unfold NewCertSigner in Hn. rewrite Hb in Hn. cbn [obind] in Hn. apply obind_ok in Hn as (b' & Hb' & Hn).
  destruct (String.eqb_spec b b') as [<-|]; [|done]. injection Hn as <-. cbn [Signers.Sign] in H. cbn [signer_PublicKey].
  assert (Key cert = signer_PublicKey s) as E.
  { assert (wf_key ecMarshal ecUnmarshal (Key cert)) as Hw1' by (by destruct (Key cert)).
    pose proof (wf_read ecMarshal ecUnmarshal _ _ Hw1' Hb Hl) as E1. rewrite (wf_read ecMarshal ecUnmarshal _ _ Hw2 Hb' Hl) in E1. by injection E1. }
  apply IH in H. rewrite <- E in H. by destruct cert.
Qed.

(** What a signer signs its public key verifies, for keys of all types and for
    certificates over them; the keys of DSA with a subgroup of at most 160 bits. *)
Theorem signer_verifies s data sig : schemes -> made s -> Sign s data = Ok sig -> Verify (signer_PublicKey s) data sig = Ok tt.
Proof. apply made_verifies. Qed.
End Verified.

(** ** The private keys of OpenSSH *)

(** The file that the format asks for: one key, no encryption, a check number twice,
    the key with a comment, and a padding of [n] bytes. *)
Definition padding (n : nat) : string := string_of_list_ascii (map (fun i => byte (Z.of_nat i)) (seq 1 n)).

Definition openssh_body (k : PrivateKey) (pub : string) (iqmp : Z) (comment : string) (n : nat) : string :=
  match k with
  | RSAPrivate E N D [P; Q] =>
      Marshal rsaStruct [VInt N; VInt E; VInt D; VInt iqmp; VInt P; VInt Q; VString comment; VRest (padding n)]
  | ED25519Private b => Marshal ed25519Struct [VBytes pub; VBytes b; VString comment; VRest (padding n)]
  | _ => ""
  end.

Definition openssh_type (k : PrivateKey) : string := match k with RSAPrivate _ _ _ _ => KeyAlgoRSA | _ => KeyAlgoED25519 end.

Definition openssh_file (k : PrivateKey) (check : Z) (blob pub : string) (iqmp : Z) (comment : string) (n : nat) : string :=
  magic +:+ Marshal opensshStruct
    [VString "none"; VString "none"; VString ""; VUint32 1; VBytes blob;
     VBytes (Marshal pk1Struct [VUint32 check; VUint32 check; VString (openssh_type k); VRest (openssh_body k pub iqmp comment n)])].

(** The keys that such a file holds. *)
Definition openssh_key (k : PrivateKey) : Prop :=
  match k with
  | RSAPrivate E N D [P; Q] => rsa_Validate E N D [P; Q] = None
  | ED25519Private b => slen b = 64
  | _ => False
  end.

Lemma pad_ok_from n i : (i + n < 256)%nat -> pad_ok (Z.of_nat i) (string_of_list_ascii (map (fun i => byte (Z.of_nat i)) (seq (S i) n))) = true.
Proof.
  revert i. induction n as [|n IH]; intros i Hi; [done|]. cbn [seq map string_of_list_ascii pad_ok].
  rewrite val_byte, Z.mod_small by lia. replace (Z.of_nat (S i)) with (Z.of_nat i + 1) by lia. rewrite Z.eqb_refl. cbn [andb].
  replace (Z.of_nat i + 1) with (Z.of_nat (S i)) by lia. apply IH. lia.
Qed.

Lemma padding_ok n : (n < 256)%nat -> pad_ok 0 (padding n) = true.
Proof. intros H. exact (pad_ok_from n 0 H). Qed.

Lemma public_exponent E N D ps : rsa_Validate E N D ps = None -> 2 <= E <= 2 ^ 31 - 1.
Proof. unfold rsa_Validate. destruct (Z.ltb_spec E 2); [done|]. destruct (Z.ltb_spec (2 ^ 31 - 1) E); [done|]. lia. Qed.

Lemma fields_size_last vs s : slen s <= slen (fields_bytes (vs ++ [VRest s])).
Proof.
  induction vs as [|v vs IH]; cbn [app fields_bytes]; rewrite slen_app; [|pose proof (slen_nonneg (field_bytes v)); lia].
  change (field_bytes (VRest s)) with s. pose proof (slen_nonneg ""). lia.
Qed.

Lemma fields_size_bytes vs s : slen s + 4 <= slen (fields_bytes (vs ++ [VBytes s])).
Proof.
  induction vs as [|v vs IH]; cbn [app fields_bytes]; rewrite slen_app; [|pose proof (slen_nonneg (field_bytes v)); lia].
  assert (slen (field_bytes (VBytes s)) = 4 + slen s) as ->; [|pose proof (slen_nonneg ""); lia].
  unfold field_bytes. cbn [marshalField]. unfold appendString, appendInt, appendU32. rewrite string_app_nil_l, slen_app, slen_be_bytes. lia.
Qed.

(** The type of [Pad]'s struct and the key that its fields make. *)
Lemma openssh_inner k pub iqmp comment n : openssh_key k -> (n < 256)%nat -> slen (openssh_body k pub iqmp comment n) < 2 ^ 32 ->
  openssh_body k pub iqmp comment n <> "" /\
  match k with
  | RSAPrivate E N D [P; Q] =>
      Unmarshal (openssh_body k pub iqmp comment n) rsaStruct = Ok [VInt N; VInt E; VInt D; VInt iqmp; VInt P; VInt Q; VString comment; VRest (padding n)]
  | _ => exists b, k = ED25519Private b /\
      Unmarshal (openssh_body k pub iqmp comment n) ed25519Struct = Ok [VBytes pub; VBytes b; VString comment; VRest (padding n)]
  end.
Proof.
  intros Hk Hn Hl.
  assert (forall t v vs, typeTags t = [] -> rest_last (t_fields t) = true -> typed_fields (t_fields t) (v :: vs) ->
            4 <= slen (field_bytes v) -> slen (Marshal t (v :: vs)) < 2 ^ 32 ->
            Marshal t (v :: vs) <> "" /\ Unmarshal (Marshal t (v :: vs)) t = Ok (v :: vs)) as HU.
  { intros t v vs Ht Hr Hty Hv Hs. assert (Marshal t (v :: vs) = fields_bytes (v :: vs)) as E by (unfold Marshal, marshalStruct; by rewrite Ht, fold_marshalField).
    assert (0 < slen (fields_bytes (v :: vs))) as Hp by (cbn [fields_bytes]; rewrite slen_app; pose proof (slen_nonneg (fields_bytes vs)); lia).
    split; [rewrite E; intros E0; rewrite E0 in Hp; done|]. apply Unmarshal_struct; [done..|]. split; [exact Hp|by rewrite <- E]. }
  destruct k as [E N D ps|?????|????|b|]; try done.
  - destruct ps as [|P [|Q [|? ?]]]; try done. apply HU; [done|done|by repeat constructor| |done].
    unfold field_bytes. cbn [marshalField]. unfold marshalInt. rewrite string_app_nil_l, slen_app, slen_be_bytes. pose proof (slen_nonneg (int_content N)). lia.
  - assert (4 <= slen (field_bytes (VBytes pub))) as Hf.
    { unfold field_bytes. cbn [marshalField]. unfold appendString, appendInt, appendU32. rewrite string_app_nil_l, slen_app, slen_be_bytes. pose proof (slen_nonneg pub). lia. }
    destruct (HU ed25519Struct (VBytes pub) [VBytes b; VString comment; VRest (padding n)] eq_refl eq_refl ltac:(by repeat constructor) Hf Hl) as [H1 H2].
    split; [exact H1|]. by exists b.
Qed.

(** [parseOpenSSHPrivateKey] reads the keys that the format of OpenSSH holds:
    from a file without encryption, with any check number, public key, comment and
    padding, the RSA key that [Validate] accepts, or the ed25519 key, is read back. *)
Theorem openssh_roundtrip k check blob pub iqmp comment n :
  openssh_key k -> in_uint32 check -> (n < 256)%nat -> slen (openssh_file k check blob pub iqmp comment n) < 2 ^ 32 ->
  parseOpenSSHPrivateKey (openssh_file k check blob pub iqmp comment n) = Ok k.
Proof.
  intros Hk Hc Hn Hl. unfold openssh_file, opensshStruct, pk1Struct in *. rewrite !Marshal_untagged in *.
  set (body := openssh_body k pub iqmp comment n) in *.
  set (p1 := [VUint32 check; VUint32 check; VString (openssh_type k); VRest body]) in *.
  set (w := [VString "none"; VString "none"; VString ""; VUint32 1; VBytes blob; VBytes (fields_bytes p1)]) in *.
  rewrite slen_app in Hl. pose proof (slen_nonneg magic) as Hm. assert (slen (fields_bytes w) < 2 ^ 32) as Hw by lia. clear Hl.
  pose proof (fields_size_bytes [VString "none"; VString "none"; VString ""; VUint32 1; VBytes blob] (fields_bytes p1)) as H1. cbn [app] in H1.
  fold w in H1.
  pose proof (fields_size_last [VUint32 check; VUint32 check; VString (openssh_type k)] body) as H2. cbn [app] in H2. fold p1 in H2.
  pose proof (slen_nonneg (fields_bytes p1)) as Hp1. pose proof (slen_nonneg body) as Hb.
  destruct (openssh_inner k pub iqmp comment n Hk Hn ltac:(fold body; lia)) as [Hne Hin]. fold body in Hne, Hin.
  assert (forall (c : string), c <> "" -> 0 < slen c) as Hpos by (intros [|? c] ?; [done|unfold slen; cbn; lia]). apply Hpos in Hne.
  unfold parseOpenSSHPrivateKey. rewrite slen_app. destruct (Z.ltb_spec (slen magic + slen (fields_bytes w)) (slen magic)); [lia|].
  rewrite stake_app_len, String.eqb_refl, sdrop_app_len by done. cbn [negb].
  unfold opensshStruct. rewrite (Unmarshal_untagged "" _ w); [|by repeat constructor|done|done|intros E; rewrite E in H1; change (slen "") with 0 in H1; lia].
  cbn [obind]. unfold w at 1. cbv iota. change (negb ("none" =? "none")%string || negb ("none" =? "none")%string) with false. cbv iota.
  unfold pk1Struct. rewrite (Unmarshal_untagged "" _ p1); [|unfold p1; repeat (apply Forall2_cons; split; [first [exact Hc|done]|]); done|done|lia|intros E; rewrite E in H2; change (slen "") with 0 in H2; lia].
  cbn [obind]. unfold p1 at 1. cbv iota. rewrite Z.eqb_refl. cbn [negb].
  destruct k as [E N D ps|?????|????|b|]; try done.
  - destruct ps as [|P [|Q [|? ?]]]; try done. cbn [openssh_type]. rewrite String.eqb_refl. fold body. rewrite Hin. cbn [obind].
    rewrite padding_ok by done. cbn [negb]. cbn in Hk. pose proof (public_exponent _ _ _ _ Hk). rewrite to_int64_id by (unfold in_int64, min_int64, max_int64; lia).
    by rewrite Hk.
  - destruct Hin as (b' & [= <-] & Hin). cbn [openssh_type]. change (KeyAlgoED25519 =? KeyAlgoRSA)%string with false. cbv iota.
    rewrite String.eqb_refl. fold body. rewrite Hin. cbn [obind]. cbn in Hk. rewrite Hk. cbn [Z.eqb negb]. rewrite padding_ok by done. done.
Qed.

(** A body shorter than the magic is cut anyway: [key[0:len(magic)]] (of a block whose
    capacity is its length). *)
Theorem short_openssh_key_panics key : slen key < 15 -> parseOpenSSHPrivateKey key = Panic bounds_panic.
Proof. intros H. unfold parseOpenSSHPrivateKey. change (slen magic) with 15. by destruct (Z.ltb_spec (slen key) 15); [|lia]. Qed.

(** A number of a DSA signature beyond 160 bits makes the signer panic. *)
Theorem long_dsa_number_panics r s : 2 ^ 160 <= r -> dsa_blob r s = Panic bounds_panic.
Proof.
  intros H. unfold dsa_blob, overwrite. destruct (Z.ltb_spec (20 - slen (Bytes r)) 0) as [|Hle]; [done|].
  assert (slen (Bytes r) <= 20) as Hl by lia. pose proof (Bytes_bound r ltac:(lia)) as Hb.
  assert (slen (Bytes r) = Z.of_nat (Z.to_nat ((BitLen r + 7) / 8))) as E by (unfold Bytes, slen; by rewrite be_bytes_length).
  rewrite E in Hl. assert (256 ^ Z.of_nat (Z.to_nat ((BitLen r + 7) / 8)) <= 256 ^ 20) by (apply Z.pow_le_mono_r; lia).
  change (2 ^ 160) with (256 ^ 20) in H. lia.
Qed.

(** ** Fingerprints of files *)

(** [Fingerprint] of sshutil.go ends in the [=] that OpenSSH leaves out. *)

(** ** Fingerprints in base 64 *)

(** What fills the last group of four characters. *)
Fixpoint fill_group (s : string) : string :=
  match s with
  | String _ (String _ (String _ s)) => fill_group s
  | String _ (String _ "") => String pad ""
  | String _ "" => String pad (String pad "")
  | "" => ""
  end.

Lemma digit_kept d s : 0 <= d < 64 -> remove_byte pad (String (enc_digit d) s) = String (enc_digit d) (remove_byte pad s).
Proof.
  intros H. cbn [remove_byte]. destruct (Ascii.eqb (enc_digit d) pad) eqn:E; [|done]. apply Ascii.eqb_eq in E.
  destruct (dec_enc_digit d H) as [Hd _]. by rewrite E in Hd.
Qed.

Lemma encode_filled s : Base64.encode s = raw_encode s +:+ fill_group s.
Proof.
  unfold raw_encode.
  assert (forall n s, (String.length s <= n)%nat -> Base64.encode s = remove_byte pad (Base64.encode s) +:+ fill_group s) as H.
  { clear s. induction n as [|n IH]; intros [|a [|b [|c rest]]] Hn; try done; simpl in Hn; try lia.
    - pose proof (digits_range a "000" "000") as (R1 & R2 & _). change (val "000") with 0 in *. rewrite Z.mul_0_l, !Z.add_0_r in *.
      cbn [Base64.encode]. by rewrite !digit_kept.
    - pose proof (digits_range a b "000") as (R1 & R2 & R3 & _). change (val "000") with 0 in *. rewrite !Z.add_0_r in *.
      cbn [Base64.encode]. by rewrite !digit_kept.
    - pose proof (digits_range a b c) as (R1 & R2 & R3 & R4).
      cbn [Base64.encode fill_group]. rewrite !digit_kept by done. rewrite (IH rest) at 1 by lia. done. }
  by eapply H.
Qed.

Lemma fill_length a b : String.length a = String.length b -> fill_group a = fill_group b.
Proof.
  assert (forall n a b, (String.length a <= n)%nat -> String.length a = String.length b -> fill_group a = fill_group b) as H; [|by eapply H].
  clear a b. induction n as [|n IH]; intros [|a [|a' [|a'' r]]] [|b [|b' [|b'' q]]]; simpl; try lia; try done. intros H1 H2. apply IH; lia.
Qed.

(** Two public keys with the same fingerprint have the same SHA-256 digest, and
    [Fingerprint] of sshutil.go is the fingerprint of [ssh.FingerprintSHA256] with the
    padding character that OpenSSH leaves out. *)
Theorem fingerprint_identifies ecMarshal sha256 k1 k2 b1 b2 fp : (forall s, String.length (sha256 s) = 32%nat) ->
  KeyMarshal ecMarshal k1 = Ok b1 -> KeyMarshal ecMarshal k2 = Ok b2 -> FingerprintSHA256 ecMarshal sha256 k1 = Ok fp ->
  Fingerprint ecMarshal sha256 k1 = Ok (fp +:+ "=") /\ (FingerprintSHA256 ecMarshal sha256 k2 = Ok fp <-> sha256 b1 = sha256 b2).
Proof.
  intros Hs H1 H2 H. unfold FingerprintSHA256, Fingerprint in *. rewrite H1, H2 in *. cbn [obind] in *. apply Ok_inj in H as <-. split.
  - rewrite encode_filled, (fill_length _ (sha256 "")) by (by rewrite !Hs). rewrite string_app_assoc. repeat f_equal.
    assert (forall s, String.length s = 32%nat -> fill_group s = "=") as Hf; [|by apply Hf].
    intros s E. rewrite (fill_length s (zero_bytes 32)); [done|]. by rewrite E.
  - split; [|by intros ->]. intros E. apply Ok_inj in E. injection E as E.
    assert (Base64.encode (sha256 b1) = Base64.encode (sha256 b2)) as He.
    { rewrite !encode_filled, E. f_equal. apply fill_length. by rewrite !Hs. }
    apply (f_equal decode) in He. rewrite !decode_encode in He. by injection He.
Qed.

(** ** Witnesses *)

Definition demo_dsa : PrivateKey := DSAPrivate 23 11 2 18 6.
Definition demo_dsa_Sign (P Q G X : Z) (digest : string) : outcome (Z * Z) := Ok (3, 5).
Definition demo_dsa_verify (P Q G Y : Z) (data : string) (r s : Z) : bool := (r =? 3) && (s =? 5).
Definition demo_certified : Certificate :=
  mkCert "nonce" (DSA 23 11 2 18) 7 UserCert "id" ["alice"] 1000 2000 ∅ ∅ "" demo_ca None.
Definition demo_hash (h : Hash) (s : string) : string := s.
Definition demo_no_sign (k : PrivateKey) (s : string) (h : option Hash) : outcome string := Err "no".
Definition demo_no_pair (s : string) : outcome (Z * Z) := Err "no".
Definition demo_no_ecdsa (bits X Y : Z) (data : string) (r s : Z) : bool := false.
Definition demo_cert_signer : Signer := openSSHCertSigner demo_certified (dsaPrivateKey 23 11 2 18 6).

(** A certificate over a DSA key. *)
Lemma signer_verifies_witness : exists sig,
  Sign demo_hash demo_no_sign demo_dsa_Sign demo_no_pair demo_cert_signer "data" = Ok sig /\
  Keys.Verify (fun _ _ _ _ => None) demo_dsa_verify demo_no_ecdsa demo_ed_verify (signer_PublicKey demo_cert_signer) "data" sig = Ok tt.
Proof.
  eexists. split; [vm_compute; reflexivity|].
  apply (signer_verifies demo_ecMarshal demo_ecUnmarshal demo_hash demo_no_sign demo_dsa_Sign demo_no_pair
           (fun _ _ _ _ => None) demo_dsa_verify demo_no_ecdsa demo_ed_verify (fun k => k = demo_dsa)).
  - split; try (intros; done). intros P Q G Y X data r s [= -> -> -> -> ->] [= <- <-]. split; [lia|]. split; [lia|done].
  - assert (made demo_ecMarshal demo_ecUnmarshal (fun k => k = demo_dsa) (dsaPrivateKey 23 11 2 18 6)) as Hm.
    { apply (made_key _ _ _ demo_dsa); [done|vm_compute; discriminate|done]. }
    eapply (made_cert _ _ _ demo_certified); [exact Hm|exact I|exact I|vm_compute; reflexivity|reflexivity|vm_compute; reflexivity].
  - vm_compute. reflexivity.
Defined.

Definition demo_rsa : PrivateKey := RSAPrivate 3 55 27 [5; 11].

(** A file with an RSA key and three bytes of padding. *)
Lemma openssh_roundtrip_witness :
  parseOpenSSHPrivateKey (openssh_file demo_rsa 7 "blob" "pub" 1 "me@host" 3) = Ok demo_rsa.
Proof. apply openssh_roundtrip; [reflexivity|unfold in_uint32; lia|lia|vm_compute; reflexivity]. Defined.

Lemma fingerprint_identifies_witness :
  Fingerprint demo_ecMarshal (fun _ => zero_bytes 32) (RSA 3 55) = Ok ("SHA256:AAAAAAAAAAAAAAAAAAAAAAAAAAAAAAAAAAAAAAAAAAA" +:+ "=").
Proof.
  refine (proj1 (fingerprint_identifies demo_ecMarshal (fun _ => zero_bytes 32) (RSA 3 55) (RSA 3 55) _ _ _ _ eq_refl eq_refl _)); vm_compute; reflexivity.
Defined.
