(* ===== verification/Keyring.v ===== *)
(** The keyring of the agent (xendor/github.com/glycerine/xcryptossh/agent/keyring.go):
    private keys in memory, with comments, times of expiry and a lock. A slice is its
    backing array and its length, for keys are removed by moving the last one into
    their place while a loop runs over the same array. *)
From S2P Require Import Prelude.
From S2P Require Import GoStrings.
From S2P Require Import Wire.
From S2P Require Import Keys.
From S2P Require Import KexAlgo.
From S2P Require Import Signers.

(** ** What an agent keeps and what it is asked *)

(** client.go: the types Key, ConstraintExtension and AddedKey. *)
Record agentKey := mkAgentKey { Key_Format : string; Key_Blob : string; Key_Comment : string }.
Record AddedKey := mkAdded {
  added_PrivateKey : PrivateKey;
  added_Certificate : option Certificate;
  added_Comment : string;
  LifetimeSecs : Z;
  ConfirmBeforeUse : bool;
  ConstraintExtensions : list (string * string);
}.

(** The values of the interface ssh.PublicKey that an agent is given. *)
Inductive anyKey := SshKey (k : PublicKey) | OfAgent (k : agentKey).

Record privKey := mkPriv { signer : Signer; comment : string; expire : option Z }.
Record keyring := mkRing { keys : list privKey; locked : bool; passphrase : string }.

Definition errLocked : string := "agent: locked".
Definition index_panic : string := "index out of range".
Definition NewKeyring : keyring := mkRing [] false "".

(** The interface Agent over the states of an agent. What an operation reads from the
    clock, in nanoseconds, is the function [now]. *)
Class Agent (S : Type) := {
  agent_List : (nat -> Z) -> S -> outcome (list agentKey) * S;
  agent_Sign : (nat -> Z) -> anyKey -> string -> S -> outcome Signature * S;
  agent_Add : (nat -> Z) -> AddedKey -> S -> outcome unit * S;
  agent_Remove : anyKey -> S -> outcome unit * S;
  agent_RemoveAll : S -> outcome unit * S;
  agent_Lock : string -> S -> outcome unit * S;
  agent_Unlock : string -> S -> outcome unit * S;
}.

Section Keyring.
Context (ecMarshal : Z -> Z -> Z -> string).
Context (hash : Hash -> string -> string) (crypto_Sign : PrivateKey -> string -> option Hash -> outcome string)
        (dsa_Sign : Z -> Z -> Z -> Z -> string -> outcome (Z * Z)) (asn1_pair : string -> outcome (Z * Z)).

(** [Marshal] of the interface. *)
Definition any_Marshal (k : anyKey) : outcome string :=
  match k with SshKey k => KeyMarshal ecMarshal k | OfAgent k => Ok (Key_Blob k) end.
Definition blob (k : privKey) : outcome string := KeyMarshal ecMarshal (signer_PublicKey (signer k)).

(** The loop of [removeLocked] on the array [arr], of which [len] entries are in use. *)
Fixpoint remove_loop (fuel i : nat) (found : bool) (arr : list privKey) (len : nat) (want : string)
  : outcome (bool * list privKey * nat) :=
  match fuel with
  | O => Blocked
  | S fuel =>
      if (i <? len)%nat then
        match arr !! i, arr !! (len - 1)%nat with
        | Some k, Some last =>
            let? b := blob k in
            if (b =? want)%string then remove_loop fuel i true (<[i := last]> arr) (len - 1) want
            else remove_loop fuel (S i) found arr len want
        | _, _ => Panic index_panic
        end
      else Ok (found, arr, len)
  end.

Definition removeLocked (arr : list privKey) (len : nat) (want : string) : outcome (error_ * list privKey * nat) :=
  let? '(found, arr, len) := remove_loop (S len) 0 false arr len want in
  Ok (if found : bool then None else Some "agent: key not found", arr, len).

(** The loop of [expireKeysLocked]: the range is over the slice as it was before. *)
Definition expired (t : Z) (k : privKey) : bool := match expire k with Some e => e <? t | None => false end.
Fixpoint expire_loop (n i : nat) (now : nat -> Z) (arr : list privKey) (len : nat) : outcome (list privKey * nat) :=
  match n with
  | O => Ok (arr, len)
  | S n =>
      match arr !! i with
      | None => Panic index_panic
      | Some k =>
          if expired (now i) k then
            let? b := blob k in
            let? '(_, arr, len) := removeLocked arr len b in
            expire_loop n (S i) now arr len
          else expire_loop n (S i) now arr len
      end
  end.

Definition expireKeysLocked (now : nat -> Z) (r : keyring) : outcome keyring :=
  let? '(arr, len) := expire_loop (List.length (keys r)) 0 now (keys r) (List.length (keys r)) in
  Ok (mkRing (take len arr) (locked r) (passphrase r)).

Definition RemoveAll (r : keyring) : outcome unit * keyring :=
  if locked r then (Err errLocked, r) else (Ok tt, mkRing [] (locked r) (passphrase r)).

Definition Remove (key : anyKey) (r : keyring) : outcome unit * keyring :=
  if locked r then (Err errLocked, r)
  else
    match (let? want := any_Marshal key in removeLocked (keys r) (List.length (keys r)) want) with
    | Ok (err, arr, len) => (match err with None => Ok tt | Some e => Err e end, mkRing (take len arr) (locked r) (passphrase r))
    | Err e => (Err e, r)
    | Panic s => (Panic s, r)
    | Blocked => (Blocked, r)
    end.

Definition Lock (pw : string) (r : keyring) : outcome unit * keyring :=
  if locked r then (Err errLocked, r) else (Ok tt, mkRing (keys r) true pw).

Definition Unlock (pw : string) (r : keyring) : outcome unit * keyring :=
  if negb (locked r) then (Err "agent: not locked", r)
  else if negb (pw =? passphrase r)%string then (Err "agent: incorrect passphrase", r)
  else (Ok tt, mkRing (keys r) false "").

(** What follows the expiry of keys. *)
Definition after_expiry {A} (now : nat -> Z) (r : keyring) (f : keyring -> outcome A) : outcome A * keyring :=
  match expireKeysLocked now r with
  | Ok r => (f r, r)
  | Err e => (Err e, r)
  | Panic s => (Panic s, r)
  | Blocked => (Blocked, r)
  end.

Fixpoint list_keys (ks : list privKey) : outcome (list agentKey) :=
  match ks with
  | [] => Ok []
  | k :: ks =>
      let? ty := Type_ (signer_PublicKey (signer k)) in
      let? b := blob k in
      let? ids := list_keys ks in
      Ok (mkAgentKey ty b (comment k) :: ids)
  end.

(** A nil slice and an empty one are the same list. *)
Definition List (now : nat -> Z) (r : keyring) : outcome (list agentKey) * keyring :=
  if locked r then (Ok [], r) else after_expiry now r (fun r => list_keys (keys r)).

Definition Add (now : nat -> Z) (key : AddedKey) (r : keyring) : outcome unit * keyring :=
  if locked r then (Err errLocked, r)
  else
    match (let? s := NewSignerFromKey (added_PrivateKey key) in
           match added_Certificate key with Some cert => NewCertSigner ecMarshal cert s | None => Ok s end) with
    | Ok s =>
        let e := if 0 <? LifetimeSecs key then Some (now 0%nat + LifetimeSecs key * 1000000000) else None in
        (Ok tt, mkRing (keys r ++ [mkPriv s (added_Comment key) e]) (locked r) (passphrase r))
    | Err e => (Err e, r)
    | Panic s => (Panic s, r)
    | Blocked => (Blocked, r)
    end.

Fixpoint sign_with (ks : list privKey) (wanted data : string) : outcome Signature :=
  match ks with
  | [] => Err "not found"
  | k :: ks =>
      let? b := blob k in
      if (b =? wanted)%string then Sign hash crypto_Sign dsa_Sign asn1_pair (signer k) data else sign_with ks wanted data
  end.

Definition keyring_Sign (now : nat -> Z) (key : anyKey) (data : string) (r : keyring) : outcome Signature * keyring :=
  if locked r then (Err errLocked, r)
  else after_expiry now r (fun r => let? wanted := any_Marshal key in sign_with (keys r) wanted data).

Definition Signers (now : nat -> Z) (r : keyring) : outcome (list Signer) * keyring :=
  if locked r then (Err errLocked, r) else after_expiry now r (fun r => Ok (map signer (keys r))).

#[export] Instance keyring_agent : Agent keyring := {
  agent_List := List; agent_Sign := keyring_Sign; agent_Add := Add; agent_Remove := Remove;
  agent_RemoveAll := RemoveAll; agent_Lock := Lock; agent_Unlock := Unlock;
}.

End Keyring.

(** ** Removing and expiring *)

Section Expiry.
Context (ecMarshal : Z -> Z -> Z -> string).
Abbreviation blob := (blob ecMarshal).
Abbreviation remove_loop := (remove_loop ecMarshal).
Abbreviation removeLocked := (removeLocked ecMarshal).
Abbreviation expire_loop := (expire_loop ecMarshal).
Abbreviation expireKeysLocked := (expireKeysLocked ecMarshal).

(** Keys whose public halves have an encoding, and that encoding. *)
Definition encodable (k : privKey) : Prop := exists b, blob k = Ok b.
Definition pub (k : privKey) : string := match blob k with Ok b => b | _ => "" end.

Lemma blob_pub k : encodable k -> blob k = Ok (pub k).
Proof. intros [b H]. unfold pub. by rewrite H. Qed.

Notation keep want := (filter (fun k => pub k <> want)).

Lemma filter_everything (P : privKey -> Prop) `{forall k, Decision (P k)} (l : list privKey) : (forall k, k ∈ l -> P k) -> filter P l = l.
Proof.
  induction l as [|k l IH]; intros H'; [done|]. rewrite filter_cons_True by (apply H'; left). f_equal. apply IH. intros k' Hk'. apply H'. by right.
Qed.

(** What the loops keep: the entries of other keys stay at their places, no entry is
    new, and those in use are the others than the wanted. *)
Record removed (arr : list privKey) (len : nat) (want : string) (arr' : list privKey) (len' : nat) : Prop := mkRemoved {
  rm_length : List.length arr' = List.length arr;
  rm_len : (len' <= len)%nat;
  rm_kept : take len' arr' ≡ₚ keep want (take len arr);
  rm_place : forall j k, arr !! j = Some k -> pub k <> want -> arr' !! j = Some k;
  rm_old : forall k, k ∈ arr' -> k ∈ arr;
}.

Lemma take_last_swap (arr : list privKey) i len k l : (i < len)%nat -> arr !! i = Some k -> arr !! (len - 1)%nat = Some l ->
  k :: take (len - 1) (<[i := l]> arr) ≡ₚ take len arr.
Proof.
  intros Hi Hk Hl. assert (len = S (len - 1)) as El by lia. rewrite El at 2. rewrite (take_S_r _ _ l) by done.
  destruct (decide (i = len - 1)%nat) as [->|Hne].
  - rewrite take_insert_ge by lia. rewrite Hk in Hl. injection Hl as ->. by rewrite Permutation_app_comm.
  - rewrite take_insert_lt by lia. assert (take (len - 1) arr !! i = Some k) as Ht by (by rewrite lookup_take_lt by lia).
    rewrite (insert_take_drop _ i) by (apply lookup_lt_is_Some; eauto).
    rewrite <- (take_drop_middle (take (len - 1) arr) i k Ht) at 3.
    rewrite <- !app_assoc. cbn [app]. rewrite <- !Permutation_middle. constructor.
    by rewrite app_nil_r.
Qed.

Lemma remove_loop_spec want fuel i found arr len :
  (len <= List.length arr)%nat -> (i <= len)%nat -> (len - i < fuel)%nat -> Forall encodable arr ->
  (forall j k, (j < i)%nat -> arr !! j = Some k -> pub k <> want) ->
  exists found' arr' len', remove_loop fuel i found arr len want = Ok (found', arr', len') /\ removed arr len want arr' len' /\
    (found' = found || existsb (fun k => pub k =? want)%string (take len arr)).
Proof.
  revert i found arr len. induction fuel as [|fuel IH]; intros i found arr len Hl Hi Hf He Hb; [lia|]. cbn [Keyring.remove_loop].
  destruct (Nat.ltb_spec i len) as [Hlt|Hge].
  - destruct (lookup_lt_is_Some_2 arr i ltac:(lia)) as [k Hk]. destruct (lookup_lt_is_Some_2 arr (len - 1)%nat ltac:(lia)) as [l Hl'].
    rewrite Hk, Hl'. rewrite Forall_forall in He. rewrite (blob_pub k) by (apply He, list_elem_of_lookup; eauto). cbn [obind].
    destruct (String.eqb_spec (pub k) want) as [E|E].
    + destruct (IH i true (<[i:=l]> arr) (len - 1)%nat) as (f' & arr' & len' & -> & [R1 R2 R3 R4 R5] & Hf').
      * rewrite length_insert. lia.
      * lia.
      * lia.
      * apply Forall_insert; [by apply Forall_forall|apply He, list_elem_of_lookup; eauto].
      * intros j k' Hj Hk'. rewrite list_lookup_insert_ne in Hk' by lia. eauto.
      * exists f', arr', len'. split; [done|]. split.
        -- split; [by rewrite R1, length_insert|lia| | |].
           ++ rewrite R3. rewrite <- (take_last_swap arr i len k l) by done. by rewrite filter_cons_False by auto.
           ++ intros j k' Hj Hp. apply R4; [|done]. rewrite list_lookup_insert_ne; [done|]. intros ->. congruence.
           ++ intros k' Hk'. apply R5 in Hk'. apply list_elem_of_lookup in Hk' as [j Hj]. apply list_elem_of_lookup.
              apply list_lookup_insert_Some in Hj as [(-> & -> & _)|[_ Hj]]; eauto.
        -- rewrite Hf'. cbn [orb]. rewrite orb_comm. symmetry. rewrite orb_comm. symmetry.
           assert (existsb (fun k => pub k =? want)%string (take len arr) = true) as ->; [|by destruct found].
           apply existsb_exists. exists k. split; [|by apply String.eqb_eq]. apply list_elem_of_In, list_elem_of_lookup. exists i.
           by rewrite lookup_take_lt.
    + apply IH; try lia; [by apply Forall_forall|]. intros j k' Hj Hk'. destruct (decide (j = i)) as [->|]; [congruence|]. apply (Hb j); [lia|done].
  - exists found, arr, len. split; [done|]. assert (forall k, k ∈ take len arr -> pub k <> want) as Hall.
    { intros k Hk. apply elem_of_take in Hk as (j & Hj & Hlt). apply (Hb j); [lia|done]. }
    split.
    + split; try done. by rewrite filter_everything.
    + symmetry. assert (existsb (fun k => pub k =? want)%string (take len arr) = false) as ->; [|apply orb_false_r].
      apply not_true_iff_false. intros (k & Hk & E)%existsb_exists. apply String.eqb_eq in E. apply (Hall k); [by apply list_elem_of_In|done].
Qed.

Lemma removeLocked_spec want arr len : (len <= List.length arr)%nat -> Forall encodable arr ->
  exists arr' len', removed arr len want arr' len' /\
    removeLocked arr len want =
      Ok (if existsb (fun k => pub k =? want)%string (take len arr) then None else Some "agent: key not found", arr', len').
Proof.
  intros Hl He. destruct (remove_loop_spec want (S len) 0 false arr len) as (f & arr' & len' & E & R & Hf); try done; try lia.
  exists arr', len'. split; [done|]. unfold Keyring.removeLocked. rewrite E. cbn [obind]. by rewrite Hf.
Qed.

(** The public keys that the expiry removes. *)
Notation keep_out R := (filter (fun k => pub k ∉ R)).

Lemma keep_keep want R (l : list privKey) : keep want (keep_out R l) = keep_out (want :: R) l.
Proof.
  induction l as [|k l IH]; [done|]. rewrite !filter_cons. repeat case_decide; rewrite ?filter_cons; repeat case_decide; rewrite ?IH; try done; exfalso; set_solver.
Qed.

Lemma expire_loop_spec now (ks : list privKey) n i (arr : list privKey) len (R : list string) :
  List.length ks = (i + n)%nat -> List.length arr = List.length ks -> (len <= List.length arr)%nat -> Forall encodable ks ->
  (forall k, k ∈ arr -> k ∈ ks) ->
  take len arr ≡ₚ keep_out R ks ->
  (forall k, k ∈ ks -> pub k ∈ R \/ (exists j, (i <= j)%nat /\ arr !! j = Some k) \/ (exists j, expired (now j) k = false)) ->
  (forall p, p ∈ R -> exists k j, k ∈ ks /\ pub k = p /\ expired (now j) k = true) ->
  exists arr' len' (R' : list string), expire_loop n i now arr len = Ok (arr', len') /\ take len' arr' ≡ₚ keep_out R' ks /\
    (forall k, k ∈ ks -> pub k ∈ R' \/ exists j, expired (now j) k = false) /\
    (forall p, p ∈ R' -> exists k j, k ∈ ks /\ pub k = p /\ expired (now j) k = true).
Proof.
  revert i arr len R. induction n as [|n IH]; intros i arr len R Hn Ha Hl He Hold Hp Hc Hr; cbn [Keyring.expire_loop].
  { exists arr, len, R. split; [done|]. split; [done|]. split; [|done]. intros k Hk. destruct (Hc k Hk) as [|[(j & Hj & E)|]]; [by left| |by right].
    apply lookup_lt_Some in E. lia. }
  destruct (lookup_lt_is_Some_2 arr i ltac:(lia)) as [k0 Hk0]. rewrite Hk0.
  assert (k0 ∈ ks) as Hin by (apply Hold, list_elem_of_lookup; eauto).
  destruct (expired (now i) k0) eqn:Ex.
  - rewrite blob_pub by (by rewrite Forall_forall in He; apply He). cbn [obind].
    destruct (removeLocked_spec (pub k0) arr len Hl) as (arr' & len' & [R1 R2 R3 R4 R5] & ->).
    { rewrite Forall_forall in *. auto. }
    cbn [obind]. apply (IH (S i) arr' len' (pub k0 :: R)); try lia; auto.
    + by rewrite R3, Hp, keep_keep.
    + intros k Hk. destruct (decide (pub k = pub k0)) as [->|Hne]; [left; by left|]. destruct (Hc k Hk) as [|[(j & Hj & E)|]]; [left; by right| |by right; right].
      right; left. exists j. split; [|by apply R4]. destruct (decide (j = i)) as [->|]; [congruence|lia].
    + intros p [->|Hpp]%elem_of_cons; [by exists k0, i|by apply Hr].
  - apply (IH (S i) arr len R); try lia; auto.
    intros k Hk. destruct (Hc k Hk) as [|[(j & Hj & E)|]]; [by left| |by right; right].
    destruct (decide (j = i)) as [->|]; [|right; left; exists j; split; [lia|done]]. rewrite Hk0 in E. injection E as ->. right; right. by exists i.
Qed.

Lemma expire_ring now r : Forall encodable (keys r) ->
  exists r' (R : list string), expireKeysLocked now r = Ok r' /\ locked r' = locked r /\ passphrase r' = passphrase r /\
    keys r' ≡ₚ keep_out R (keys r) /\
    (forall k, k ∈ keys r -> pub k ∈ R \/ exists j, expired (now j) k = false) /\
    (forall p, p ∈ R -> exists k j, k ∈ keys r /\ pub k = p /\ expired (now j) k = true).
Proof.
  intros He. destruct (expire_loop_spec now (keys r) (List.length (keys r)) 0 (keys r) (List.length (keys r)) []) as (arr & len & R & E & Hp & Hc & Hr);
    try done.
  - by rewrite firstn_all, filter_everything by (intros; apply not_elem_of_nil).
  - intros k Hk. right; left. apply list_elem_of_lookup in Hk as [j Hj]. exists j. split; [lia|done].
  - by intros p Hp%elem_of_nil.
  - unfold Keyring.expireKeysLocked. rewrite E. cbn [obind]. eexists _, R. by split_and!.
Qed.

(** No key is new after the expiry. *)
Lemma expire_old now r r' : Forall encodable (keys r) -> expireKeysLocked now r = Ok r' -> forall k, k ∈ keys r' -> k ∈ keys r.
Proof.
  intros He H k Hk. destruct (expire_ring now r He) as (r2 & R & E & _ & _ & Hp & _). rewrite H in E. apply Ok_inj in E as <-.
  rewrite Hp in Hk. by apply list_elem_of_filter in Hk as [_ Hk].
Qed.

(** What the expiry of keys leaves is, in some order, every key but those with a
    public key of an expired one: no key that is expired stays, though the array is
    rearranged while it is gone through, and a key that goes has a public key that an
    expired key has. The clock may move on meanwhile, from [t0] to [t1]. *)
Theorem keys_expire now t0 t1 r :
  Forall encodable (keys r) -> (forall j, t0 <= now j <= t1) ->
  exists r' (R : list string), expireKeysLocked now r = Ok r' /\ locked r' = locked r /\ passphrase r' = passphrase r /\
    keys r' ≡ₚ keep_out R (keys r) /\
    (forall k, k ∈ keys r -> expired t0 k = true -> pub k ∈ R) /\
    (forall p, p ∈ R -> exists k, k ∈ keys r /\ pub k = p /\ expired t1 k = true).
Proof.
  intros He Ht. destruct (expire_ring now r He) as (r' & R & E & El & Epw & Hp & Hc & Hr). exists r', R. split_and!; try done.
  all: assert (forall k t t', t <= t' -> expired t k = true -> expired t' k = true) as Hm
      by (intros k t t' Hle; unfold expired; destruct (expire k); [rewrite !Z.ltb_lt; lia|done]).
  - intros k Hk Hx. destruct (Hc k Hk) as [|[j Hj]]; [done|]. rewrite (Hm k t0 (now j)) in Hj; [done|apply Ht|done].
  - intros p Hpp. destruct (Hr p Hpp) as (k & j & Hk & E1 & Hx). exists k. split; [done|]. split; [done|]. apply (Hm k (now j)); [apply Ht|done].
Qed.
End Expiry.

(** ** What goes wrong *)

Definition demo_entry (comment : string) (expire : option Z) : privKey := mkPriv (dsaPrivateKey 23 11 2 18 6) comment expire.

(** A key that was added without a lifetime goes with an entry of the same key that had one. *)
Example expired_entry_takes_others :
  expireKeysLocked demo_ecMarshal (fun _ => 10) (mkRing [demo_entry "for ever" None; demo_entry "for a while" (Some 5)] false "") = Ok NewKeyring.
Proof. vm_compute. reflexivity. Qed.

(** ** Witnesses *)

Definition demo_other (expire : option Z) : privKey := mkPriv (dsaPrivateKey 47 23 2 3 19) "other" expire.
Definition demo_ring : keyring := mkRing [demo_entry "a" (Some 5); demo_other None; demo_entry "b" None] false "".

Lemma keys_expire_witness : exists r' R, expireKeysLocked demo_ecMarshal (fun _ => 10) demo_ring = Ok r' /\ pub demo_ecMarshal (demo_entry "a" (Some 5)) ∈ (R : list string) /\
  filter (fun k => pub demo_ecMarshal k ∉ R) (keys demo_ring) ≡ₚ keys r'.
Proof.
  destruct (keys_expire demo_ecMarshal (fun _ => 10) 10 10 demo_ring) as (r' & R & E & _ & _ & Hp & Hx & _).
  - apply List.Forall_cons; [by eexists|]. apply List.Forall_cons; [by eexists|]. apply List.Forall_cons; [by eexists|]. apply List.Forall_nil.
  - intros j. lia.
  - exists r', R. split; [exact E|]. split; [apply Hx; [by left|reflexivity]|]. by rewrite Hp.
Defined.
