(* ===== verification/Agent.v ===== *)
(** The agent protocol (xendor/github.com/glycerine/xcryptossh/agent: client.go,
    server.go): requests and replies on the wire, the server over any agent, the
    client over any connection, and the client at the end of a connection that
    [ServeAgent] serves. *)
From S2P Require Import Prelude.
From S2P Require Import GoStrings.
From S2P Require Import NetIP.
From S2P Require Import Wire.
From S2P Require Import Base64.
From S2P Require Import Keys.
From S2P Require Import KexAlgo.
From S2P Require Import Signers.
From S2P Require Import Keyring.

(** ** Messages *)

Definition maxAgentResponseBytes : Z := 16777216.
Definition agentRequestV1Identities : Z := 1.
Definition agentV1IdentitiesAnswer : Z := 2.
Definition agentFailure : Z := 5.
Definition agentSuccess : Z := 6.
Definition agentRemoveAllV1Identities : Z := 9.
Definition agentRequestIdentities : Z := 11.
Definition agentIdentitiesAnswer : Z := 12.
Definition agentSignRequest : Z := 13.
Definition agentSignResponse : Z := 14.
Definition agentAddIdentity : Z := 17.
Definition agentRemoveIdentity : Z := 18.
Definition agentRemoveAllIdentities : Z := 19.
Definition agentLock : Z := 22.
Definition agentUnlock : Z := 23.
Definition agentAddIdConstrained : Z := 25.
Definition agentConstrainLifetime : Z := 1.
Definition agentConstrainConfirm : Z := 2.
Definition agentConstrainExtension : Z := 3.

Definition failureAgentMsg := mkType "failureAgentMsg" [] [].
Definition successAgentMsg := mkType "successAgentMsg" [] [].
Definition agentV1IdentityMsg := mkType "agentV1IdentityMsg" [2] [("Numkeys", KUint32)].
Definition agentRemoveIdentityMsg := mkType "agentRemoveIdentityMsg" [18] [("KeyBlob", KBytes)].
Definition agentLockMsg := mkType "agentLockMsg" [22] [("Passphrase", KBytes)].
Definition agentUnlockMsg := mkType "agentUnlockMsg" [23] [("Passphrase", KBytes)].
Definition identitiesAnswerAgentMsg := mkType "identitiesAnswerAgentMsg" [12] [("NumKeys", KUint32); ("Keys", KRest)].
Definition signRequestAgentMsg := mkType "signRequestAgentMsg" [13] [("KeyBlob", KBytes); ("Data", KBytes); ("Flags", KUint32)].
Definition signResponseAgentMsg := mkType "signResponseAgentMsg" [14] [("SigBlob", KBytes)].
Definition constrainLifetimeAgentMsg := mkType "constrainLifetimeAgentMsg" [1] [("LifetimeSecs", KUint32)].
Definition constrainExtensionAgentMsg := mkType "constrainExtensionAgentMsg" [3]
  [("ExtensionName", KString); ("ExtensionDetails", KBytes); ("Rest", KRest)].
Definition wireKey := mkType "wireKey" [] [("Format", KString); ("Rest", KRest)].
Definition keyRecord := mkType "" [] [("Blob", KBytes); ("Comment", KString)].
Definition parseKeyRecord := mkType "" [] [("Blob", KBytes); ("Comment", KString); ("Rest", KRest)].
Definition insertRecord := mkType "" [17; 25] [("Type", KString); ("Rest", KRest)].

Definition with_constraints (fs : list (string * kind)) : list (string * kind) := fs ++ [("Comments", KString); ("Constraints", KRest)].
Definition rsaKeyMsg := mkType "rsaKeyMsg" [17; 25]
  (with_constraints [("Type", KString); ("N", KInt); ("E", KInt); ("D", KInt); ("Iqmp", KInt); ("P", KInt); ("Q", KInt)]).
Definition dsaKeyMsg := mkType "dsaKeyMsg" [17; 25]
  (with_constraints [("Type", KString); ("P", KInt); ("Q", KInt); ("G", KInt); ("Y", KInt); ("X", KInt)]).
Definition ecdsaKeyMsg := mkType "ecdsaKeyMsg" [17; 25]
  (with_constraints [("Type", KString); ("Curve", KString); ("KeyBytes", KBytes); ("D", KInt)]).
Definition ed25519KeyMsg := mkType "ed25519KeyMsg" [17; 25] (with_constraints [("Type", KString); ("Pub", KBytes); ("Priv", KBytes)]).
Definition rsaCertMsg := mkType "rsaCertMsg" [17; 25]
  (with_constraints [("Type", KString); ("CertBytes", KBytes); ("D", KInt); ("Iqmp", KInt); ("P", KInt); ("Q", KInt)]).
Definition dsaCertMsg := mkType "dsaCertMsg" [17; 25] (with_constraints [("Type", KString); ("CertBytes", KBytes); ("X", KInt)]).
Definition ecdsaCertMsg := mkType "ecdsaCertMsg" [17; 25] (with_constraints [("Type", KString); ("CertBytes", KBytes); ("D", KInt)]).
Definition ed25519CertMsg := mkType "ed25519CertMsg" [17; 25]
  (with_constraints [("Type", KString); ("CertBytes", KBytes); ("Pub", KBytes); ("Priv", KBytes)]).

(** ** The server *)

Section Wire.
Context (ecMarshal : Z -> Z -> Z -> string) (ecUnmarshal : Z -> string -> option (Z * Z)).
(** The inverse modulo a prime, of math/big. *)
Context (ModInverse : Z -> Z -> Z).

Definition marshalKey (k : agentKey) : string := Marshal keyRecord [VBytes (Key_Blob k); VString (Key_Comment k)].

(** [parseConstraints]: the lifetime, whether to confirm, the extensions. The number of
    bytes is fuel enough, for every constraint takes one. *)
Fixpoint constraints_loop (fuel : nat) (constraints : string) (secs : Z) (confirm : bool) (exts : list (string * string))
  : outcome (Z * bool * list (string * string)) :=
  match fuel with
  | O => Blocked
  | S fuel =>
      match constraints with
      | "" => Ok (secs, confirm, exts)
      | String c rest =>
          if val c =? agentConstrainLifetime then
            if slen constraints <? 5 then Panic bounds_panic
            else constraints_loop fuel (sdrop 4 rest) (be (stake 4 rest)) confirm exts
          else if val c =? agentConstrainConfirm then constraints_loop fuel rest secs true exts
          else if val c =? agentConstrainExtension then
            let? vs := Unmarshal constraints constrainExtensionAgentMsg in
            match vs with
            | [VString name; VBytes details; VRest rest] => constraints_loop fuel rest secs confirm (exts ++ [(name, details)])
            | _ => Panic "unreachable"
            end
          else Err ("unknown constraint type: " +:+ itoa (val c))
      end
  end.
Definition parseConstraints (constraints : string) : outcome (Z * bool * list (string * string)) :=
  constraints_loop (S (String.length constraints)) constraints 0 false [].

(** The key to add, with [setConstraints]. *)
Definition with_setConstraints (priv : PrivateKey) (cert : option Certificate) (comments constraints : string) : outcome AddedKey :=
  let? '(secs, confirm, exts) := parseConstraints constraints in
  Ok (mkAdded priv cert comments secs confirm exts).

(** [Precompute] of an RSA key divides by the primes less one. *)
Definition Precompute (primes : list Z) : outcome unit :=
  if existsb (fun p => p =? 1) primes then Panic "division by zero" else Ok tt.

Definition parseRSAKey (req : string) : outcome AddedKey :=
  let? k := Unmarshal req rsaKeyMsg in
  match k with
  | [VString _; VInt N; VInt E; VInt D; VInt _; VInt P; VInt Q; VString comments; VRest constraints] =>
      if 30 <? BitLen E then Err "agent: RSA public exponent too large"
      else
        let? _ := Precompute [P; Q] in
        with_setConstraints (RSAPrivate (to_int64 E) N D [P; Q]) None comments constraints
  | _ => Panic "unreachable"
  end.

Definition parseEd25519Key (req : string) : outcome AddedKey :=
  let? k := Unmarshal req ed25519KeyMsg in
  match k with
  | [VString _; VBytes _; VBytes Priv; VString comments; VRest constraints] =>
      with_setConstraints (ED25519Private Priv) None comments constraints
  | _ => Panic "unreachable"
  end.

Definition parseDSAKey (req : string) : outcome AddedKey :=
  let? k := Unmarshal req dsaKeyMsg in
  match k with
  | [VString _; VInt P; VInt Q; VInt G; VInt Y; VInt X; VString comments; VRest constraints] =>
      with_setConstraints (DSAPrivate P Q G Y X) None comments constraints
  | _ => Panic "unreachable"
  end.

Definition unmarshalECDSA (curveName keyBytes : string) (D : Z) : outcome PrivateKey :=
  match curve_bits curveName with
  | None => Err ("agent: unknown curve " +:+ dq +:+ curveName +:+ dq)
  | Some bits =>
      match ecUnmarshal bits keyBytes with
      | None => Err "agent: point not on curve"
      | Some (X, Y) => Ok (ECDSAPrivate bits X Y D)
      end
  end.

Definition parseECDSAKey (req : string) : outcome AddedKey :=
  let? k := Unmarshal req ecdsaKeyMsg in
  match k with
  | [VString _; VString curve; VBytes keyBytes; VInt D; VString comments; VRest constraints] =>
      let? priv := unmarshalECDSA curve keyBytes D in
      with_setConstraints priv None comments constraints
  | _ => Panic "unreachable"
  end.

(** [ParsePublicKey] and the assertion that the key is a certificate. *)
Definition parse_certificate (CertBytes name : string) : outcome Certificate :=
  let? pubKey := ParsePublicKey ecUnmarshal CertBytes in
  match pubKey with CertKey cert => Ok cert | _ => Err ("agent: bad " +:+ name +:+ " certificate") end.

Definition parseEd25519Cert (req : string) : outcome AddedKey :=
  let? k := Unmarshal req ed25519CertMsg in
  match k with
  | [VString _; VBytes CertBytes; VBytes _; VBytes Priv; VString comments; VRest constraints] =>
      let? cert := parse_certificate CertBytes "ED25519" in
      with_setConstraints (ED25519Private Priv) (Some cert) comments constraints
  | _ => Panic "unreachable"
  end.

Definition rsaPubStruct := mkType "" [] [("Name", KString); ("E", KInt); ("N", KInt)].
Definition parseRSACert (req : string) : outcome AddedKey :=
  let? k := Unmarshal req rsaCertMsg in
  match k with
  | [VString _; VBytes CertBytes; VInt D; VInt _; VInt P; VInt Q; VString comments; VRest constraints] =>
      let? cert := parse_certificate CertBytes "RSA" in
      let? keyBytes := KeyMarshal ecMarshal (Key cert) in
      match Unmarshal keyBytes rsaPubStruct with
      | Ok [VString _; VInt E; VInt N] =>
          if 30 <? BitLen E then Err "agent: RSA public exponent too large"
          else
            let? _ := Precompute [Q; P] in
            with_setConstraints (RSAPrivate (to_int64 E) N D [Q; P]) (Some cert) comments constraints
      | Err e => Err ("agent: Unmarshal failed to parse public key: " +:+ e)
      | _ => Panic "unreachable"
      end
  | _ => Panic "unreachable"
  end.

Definition dsaPubStruct := mkType "" [] [("Name", KString); ("P", KInt); ("Q", KInt); ("G", KInt); ("Y", KInt)].
Definition parseDSACert (req : string) : outcome AddedKey :=
  let? k := Unmarshal req dsaCertMsg in
  match k with
  | [VString _; VBytes CertBytes; VInt X; VString comments; VRest constraints] =>
      let? cert := parse_certificate CertBytes "DSA" in
      let? keyBytes := KeyMarshal ecMarshal (Key cert) in
      match Unmarshal keyBytes dsaPubStruct with
      | Ok [VString _; VInt P; VInt Q; VInt G; VInt Y] =>
          with_setConstraints (DSAPrivate P Q G Y X) (Some cert) comments constraints
      | Err e => Err ("agent: Unmarshal failed to parse public key: " +:+ e)
      | _ => Panic "unreachable"
      end
  | _ => Panic "unreachable"
  end.

Definition ecdsaPubStruct := mkType "" [] [("Name", KString); ("ID", KString); ("Key", KBytes)].
Definition parseECDSACert (req : string) : outcome AddedKey :=
  let? k := Unmarshal req ecdsaCertMsg in
  match k with
  | [VString _; VBytes CertBytes; VInt D; VString comments; VRest constraints] =>
      let? cert := parse_certificate CertBytes "ECDSA" in
      let? keyBytes := KeyMarshal ecMarshal (Key cert) in
      let? ecdsaPub := Unmarshal keyBytes ecdsaPubStruct in
      match ecdsaPub with
      | [VString _; VString ID; VBytes K] =>
          let? priv := unmarshalECDSA ID K D in
          with_setConstraints priv (Some cert) comments constraints
      | _ => Panic "unreachable"
      end
  | _ => Panic "unreachable"
  end.

(** The switch of [insertIdentity]. *)
Definition parse_identity (ty req : string) : outcome AddedKey :=
  let same := String.eqb ty in
  if same KeyAlgoRSA then parseRSAKey req
  else if same KeyAlgoDSA then parseDSAKey req
  else if same KeyAlgoECDSA256 || same KeyAlgoECDSA384 || same KeyAlgoECDSA521 then parseECDSAKey req
  else if same KeyAlgoED25519 then parseEd25519Key req
  else if same "ssh-rsa-cert-v01@openssh.com" then parseRSACert req
  else if same "ssh-dss-cert-v01@openssh.com" then parseDSACert req
  else if same "ecdsa-sha2-nistp256-cert-v01@openssh.com" || same "ecdsa-sha2-nistp384-cert-v01@openssh.com" ||
          same "ecdsa-sha2-nistp521-cert-v01@openssh.com" then parseECDSACert req
  else if same "ssh-ed25519-cert-v01@openssh.com" then parseEd25519Cert req
  else Err ("agent: not implemented: " +:+ dq +:+ ty +:+ dq).

Definition added_key (req : string) : outcome AddedKey :=
  let? record := Unmarshal req insertRecord in
  match record with [VString ty; VRest _] => parse_identity ty req | _ => Panic "unreachable" end.

Section Server.
Context {S : Type} `{A : Agent S}.

(** Reading a request, then an operation of the agent on what it holds. *)
Definition on_request {A B} (m : outcome A) (f : A -> S -> outcome B * S) (s : S) : outcome B * S :=
  match m with
  | Ok a => f a s
  | Err e => (Err e, s)
  | Panic p => (Panic p, s)
  | Blocked => (Blocked, s)
  end.

(** A reply without content: [nil] and the error. *)
Definition no_reply (r : outcome unit * S) : outcome (option (msg_type * list value)) * S :=
  (let? _ := r.1 in Ok None, r.2).

Definition insertIdentity (now : nat -> Z) (req : string) : S -> outcome unit * S :=
  on_request (added_key req) (fun key => agent_Add now key).

(** The key of a request to remove or to sign. *)
Definition request_key (KeyBlob : string) : outcome agentKey :=
  let? wk := Unmarshal KeyBlob wireKey in
  match wk with [VString Format; VRest _] => Ok (mkAgentKey Format KeyBlob "") | _ => Panic "unreachable" end.

Definition remove_request (data : string) : outcome agentKey :=
  let? req := Unmarshal data agentRemoveIdentityMsg in
  match req with [VBytes KeyBlob] => request_key KeyBlob | _ => Panic "unreachable" end.
Definition identity_sign_request (data : string) : outcome (agentKey * string) :=
  let? req := Unmarshal data signRequestAgentMsg in
  match req with
  | [VBytes KeyBlob; VBytes Data; VUint32 _] => let? k := request_key KeyBlob in Ok (k, Data)
  | _ => Panic "unreachable"
  end.
Definition passphrase_request (t : msg_type) (data : string) : outcome string :=
  let? req := Unmarshal data t in match req with [VBytes pw] => Ok pw | _ => Panic "unreachable" end.

Definition sig_bytes (sig : Signature) : string := Marshal signatureStruct [VString (Format sig); VBytes (Blob sig)].
Definition sign_reply (sig : Signature) : option (msg_type * list value) := Some (signResponseAgentMsg, [VBytes (sig_bytes sig)]).
Definition list_reply (keys : list agentKey) : option (msg_type * list value) :=
  Some (identitiesAnswerAgentMsg,
        [VUint32 (to_uint32 (Z.of_nat (List.length keys))); VRest (fold_left (fun out k => out +:+ marshalKey k) keys "")]).

Definition processRequest (now : nat -> Z) (data : string) (s : S) : outcome (option (msg_type * list value)) * S :=
  match data with
  | "" => (Panic index_panic, s)
  | String c _ =>
      let same := Z.eqb (val c) in
      if same agentRequestV1Identities then (Ok (Some (agentV1IdentityMsg, [VUint32 0])), s)
      else if same agentRemoveAllV1Identities then (Ok None, s)
      else if same agentRemoveIdentity then no_reply (on_request (remove_request data) (fun k => agent_Remove (OfAgent k)) s)
      else if same agentRemoveAllIdentities then no_reply (agent_RemoveAll s)
      else if same agentLock then no_reply (on_request (passphrase_request agentLockMsg data) agent_Lock s)
      else if same agentUnlock then no_reply (on_request (passphrase_request agentUnlockMsg data) agent_Unlock s)
      else if same agentSignRequest then
        on_request (identity_sign_request data)
          (fun kd s => let '(r, s) := agent_Sign now (OfAgent kd.1) kd.2 s in (let? sig := r in Ok (sign_reply sig), s)) s
      else if same agentRequestIdentities then
        let '(r, s) := agent_List now s in (let? keys := r in Ok (list_reply keys), s)
      else if same agentAddIdConstrained || same agentAddIdentity then no_reply (insertIdentity now data s)
      else (Err ("unknown opcode " +:+ itoa (val c)), s)
  end.

(** What goes out: a failure for every error; those other than [errLocked] are logged. *)
Definition reply_data (r : outcome (option (msg_type * list value))) : outcome string :=
  match r with
  | Err _ => Ok (String (byte agentFailure) "")
  | Ok None => Ok (String (byte agentSuccess) "")
  | Ok (Some (t, vs)) => Ok (Marshal t vs)
  | Panic p => Panic p
  | Blocked => Blocked
  end.
Definition processRequestBytes (now : nat -> Z) (reqData : string) (s : S) : outcome string * S :=
  let '(r, s) := processRequest now reqData s in (reply_data r, s).

(** One round of [ServeAgent] on the bytes that have come in. *)
Inductive round :=
| NeedMore
| Ends (e : string) (s : S)
| Replied (reply rest : string) (s : S)
| Panics (p : string)
| Hangs.

Definition serve_one (now : nat -> Z) (inp : string) (s : S) : round :=
  if slen inp <? 4 then NeedMore
  else
    let l := be (stake 4 inp) in
    if maxAgentResponseBytes <? l then Ends ("agent: request too large: " +:+ itoa l) s
    else if slen (sdrop 4 inp) <? l then NeedMore
    else
      let '(r, s) := processRequestBytes now (stake (Z.to_nat l) (sdrop 4 inp)) s in
      match r with
      | Ok rep =>
          if maxAgentResponseBytes <? slen rep then Ends ("agent: reply too large: " +:+ itoa (slen rep) +:+ " bytes") s
          else Replied (be_bytes 4 (slen rep) +:+ rep) (sdrop (Z.to_nat l) (sdrop 4 inp)) s
      | Panic p => Panics p
      | Err _ => Panics "unreachable"
      | Blocked => Hangs
      end.

(** What [io.ReadFull] answers at the end of the input: of the length, or of the request. *)
Definition read_error (inp : string) : string :=
  if (inp =? "")%string || ((slen inp =? 4) && negb (be inp =? 0)) then EOF else ErrUnexpectedEOF.

(** [ServeAgent] on an input that ends, with the rounds numbered for the clock, over a
    connection that takes what is written to it: the error, the output, the agent. *)
Fixpoint serve_loop (fuel n : nat) (now : nat -> nat -> Z) (inp out : string) (s : S) : outcome (string * string * S) :=
  match fuel with
  | O => Blocked
  | Datatypes.S fuel =>
      match serve_one (now n) inp s with
      | NeedMore => Ok (read_error inp, out, s)
      | Ends e s => Ok (e, out, s)
      | Panics p => Panic p
      | Hangs => Blocked
      | Replied reply rest s => serve_loop fuel (Datatypes.S n) now rest (out +:+ reply) s
      end
  end.
Definition ServeAgent (now : nat -> nat -> Z) (inp : string) (s : S) : outcome (string * string * S) :=
  serve_loop (Datatypes.S (String.length inp)) 0 now inp "" s.
End Server.

(** ** The client *)

(** The methods of a Key of the agent. *)
Definition Key_String (k : agentKey) : string :=
  Key_Format k +:+ " " +:+ Base64.encode (Key_Blob k) +:+ (if (Key_Comment k =? "")%string then "" else " " +:+ Key_Comment k).
Definition Key_Verify (Verify : PublicKey -> string -> Signature -> outcome unit) (k : agentKey) (data : string) (sig : Signature) : outcome unit :=
  match ParsePublicKey ecUnmarshal (Key_Blob k) with
  | Ok pubKey => Verify pubKey data sig
  | Err e => Err ("agent: bad public key: " +:+ e)
  | Panic p => Panic p
  | Blocked => Blocked
  end.

Definition clientErr (e : string) : string := "agent: client error: " +:+ e.

(** [unmarshal] of a reply. *)
Definition unmarshal (packet : string) : outcome (msg_type * list value) :=
  match packet with
  | "" => Err "agent: empty packet"
  | String c _ =>
      if val c =? agentFailure then Ok (failureAgentMsg, [])
      else if val c =? agentSuccess then Ok (successAgentMsg, [])
      else
        match
          (if val c =? agentIdentitiesAnswer then Some identitiesAnswerAgentMsg
           else if val c =? agentSignResponse then Some signResponseAgentMsg
           else if val c =? agentV1IdentitiesAnswer then Some agentV1IdentityMsg else None)
        with
        | None => Err ("agent: unknown type tag " +:+ itoa (val c))
        | Some t => let? vs := Unmarshal packet t in Ok (t, vs)
        end
  end.

(** The connection, an io.ReadWriter: writing, and [io.ReadFull] of some bytes. *)
Class Conn (C : Type) := {
  conn_Write : string -> C -> error_ * C;
  conn_ReadFull : nat -> C -> outcome string * C;
}.

Section Client.
Context {C : Type} `{Cn : Conn C}.

(** [ReadFull] with its error in [clientErr]. *)
Definition full_read {B} (n : nat) (c : C) (k : string -> C -> outcome B * C) : outcome B * C :=
  match conn_ReadFull n c with
  | (Ok b, c) => k b c
  | (Err e, c) => (Err (clientErr e), c)
  | (Panic p, c) => (Panic p, c)
  | (Blocked, c) => (Blocked, c)
  end.

(** A reply that is too long is an error without a cause. *)
Definition call (req : string) (c : C) : outcome (msg_type * list value) * C :=
  match conn_Write (be_bytes 4 (to_uint32 (slen req)) +:+ req) c with
  | (Some e, c) => (Err (clientErr e), c)
  | (None, c) =>
      full_read 4 c (fun respSizeBuf c =>
        let respSize := be respSizeBuf in
        if maxAgentResponseBytes <? respSize then (Err (clientErr "<nil>"), c)
        else
          full_read (Z.to_nat respSize) c (fun buf c =>
            (match unmarshal buf with Err e => Err (clientErr e) | r => r end, c)))
  end.

Definition is_success (reply : msg_type * list value) : outcome unit :=
  if bool_decide (reply.1 = successAgentMsg) then Ok tt else Err "agent: failure".

(** A request that could be made, and what is done with the reply. *)
Definition requesting {B} (req : outcome string) (k : msg_type * list value -> outcome B) (c : C) : outcome B * C :=
  match req with
  | Ok req => let '(r, c) := call req c in (let? reply := r in k reply, c)
  | Err e => (Err e, c)
  | Panic p => (Panic p, c)
  | Blocked => (Blocked, c)
  end.
Definition simpleCall (req : outcome string) : C -> outcome unit * C := requesting req is_success.

Definition remove_req (key : anyKey) : outcome string :=
  let? b := any_Marshal ecMarshal key in Ok (Marshal agentRemoveIdentityMsg [VBytes b]).
Definition sign_req (key : anyKey) (data : string) : outcome string :=
  let? b := any_Marshal ecMarshal key in Ok (Marshal signRequestAgentMsg [VBytes b; VBytes data; VUint32 0]).

Definition client_RemoveAll : C -> outcome unit * C := simpleCall (Ok (String (byte agentRemoveAllIdentities) "")).
Definition client_Remove (key : anyKey) : C -> outcome unit * C := simpleCall (remove_req key).
Definition client_Lock (pw : string) : C -> outcome unit * C := simpleCall (Ok (Marshal agentLockMsg [VBytes pw])).
Definition client_Unlock (pw : string) : C -> outcome unit * C := simpleCall (Ok (Marshal agentUnlockMsg [VBytes pw])).

Definition parseKey (inp : string) : outcome (agentKey * string) :=
  let? record := Unmarshal inp parseKeyRecord in
  match record with
  | [VBytes b; VString c; VRest rest] =>
      let? wk := Unmarshal b wireKey in
      match wk with [VString Format; VRest _] => Ok (mkAgentKey Format b c, rest) | _ => Panic "unreachable" end
  | _ => Panic "unreachable"
  end.

(** The loop of [List] on the keys of the reply. What is left behind the last is not
    looked at. *)
Fixpoint parse_keys (n : nat) (data : string) : outcome (list agentKey) :=
  match n with
  | O => Ok []
  | S n => let? '(k, data) := parseKey data in let? ks := parse_keys n data in Ok (k :: ks)
  end.

Definition listed (reply : msg_type * list value) : outcome (list agentKey) :=
  if bool_decide (reply.1 = identitiesAnswerAgentMsg) then
    match reply.2 with
    | [VUint32 NumKeys; VRest Keys] =>
        if maxAgentResponseBytes / 8 <? NumKeys then Err "agent: too many keys in agent reply" else parse_keys (Z.to_nat NumKeys) Keys
    | _ => Panic "unreachable"
    end
  else if bool_decide (reply.1 = failureAgentMsg) then Err "agent: failed to list keys"
  else Panic "unreachable".

Definition client_List : C -> outcome (list agentKey) * C := requesting (Ok (String (byte agentRequestIdentities) "")) listed.

Definition signed (reply : msg_type * list value) : outcome Signature :=
  if bool_decide (reply.1 = signResponseAgentMsg) then
    match reply.2 with
    | [VBytes SigBlob] =>
        let? sig := Unmarshal SigBlob signatureStruct in
        match sig with [VString f; VBytes b] => Ok (mkSignature f b) | _ => Panic "unreachable" end
    | _ => Panic "unreachable"
    end
  else if bool_decide (reply.1 = failureAgentMsg) then Err "agent: failed to sign challenge"
  else Panic "unreachable".

Definition client_Sign (key : anyKey) (data : string) : C -> outcome Signature * C := requesting (sign_req key data) signed.

(** [Signers]: the keys of the agent, each with the client that signs for it. *)
Definition client_Signers : C -> outcome (list agentKey) * C := client_List.
Definition agentKeyringSigner_Sign (pub : agentKey) (data : string) : C -> outcome Signature * C := client_Sign (OfAgent pub) data.

(** The type byte of a request to add a key under constraints. *)
Definition constrained (constraints req : string) : string :=
  if (constraints =? "")%string then req else match req with String _ rest => String (byte agentAddIdConstrained) rest | "" => req end.

(** The request of [insertKey]; a private key is a pointer. *)
Definition key_req (s : PrivateKey) (comment constraints : string) : outcome string :=
  let tail := [VString comment; VRest constraints] in
  match s with
  | RSAPrivate E N D [P; Q] =>
      let? _ := Precompute [P; Q] in
      Ok (constrained constraints (Marshal rsaKeyMsg ([VString KeyAlgoRSA; VInt N; VInt E; VInt D; VInt (ModInverse Q P); VInt P; VInt Q] ++ tail)))
  | RSAPrivate _ _ _ primes => Err ("agent: unsupported RSA key with " +:+ itoa (Z.of_nat (List.length primes)) +:+ " primes")
  | DSAPrivate P Q G Y X =>
      Ok (constrained constraints (Marshal dsaKeyMsg ([VString KeyAlgoDSA; VInt P; VInt Q; VInt G; VInt Y; VInt X] ++ tail)))
  | ECDSAPrivate bits X Y D =>
      let nistID := "nistp" +:+ itoa bits in
      Ok (constrained constraints
            (Marshal ecdsaKeyMsg ([VString ("ecdsa-sha2-" +:+ nistID); VString nistID; VBytes (ecMarshal bits X Y); VInt D] ++ tail)))
  | ED25519Private b =>
      if slen b <? 32 then Panic bounds_panic
      else Ok (constrained constraints (Marshal ed25519KeyMsg ([VString KeyAlgoED25519; VBytes (sdrop 32 b); VBytes b] ++ tail)))
  | OtherPrivate t => Err ("agent: unsupported key type " +:+ t)
  end.
Definition insertKey (s : PrivateKey) (comment constraints : string) : C -> outcome unit * C :=
  requesting (key_req s comment constraints) is_success.

(** The request of [insertCert], with its check of the certificate. *)
Definition cert_message (s : PrivateKey) (cert : Certificate) (comment constraints : string) : outcome string :=
  let tail := [VString comment; VRest constraints] in
  let head (t : msg_type) (vs : list value) :=
    let? ty := cert_Type cert in
    let? b := CertMarshal ecMarshal cert in
    Ok (constrained constraints (Marshal t ([VString ty; VBytes b] ++ vs ++ tail))) in
  match s with
  | RSAPrivate E N D [P; Q] =>
      let? _ := Precompute [P; Q] in head rsaCertMsg [VInt D; VInt (ModInverse Q P); VInt P; VInt Q]
  | RSAPrivate _ _ _ primes => Err ("agent: unsupported RSA key with " +:+ itoa (Z.of_nat (List.length primes)) +:+ " primes")
  | DSAPrivate P Q G Y X => head dsaCertMsg [VInt X]
  | ECDSAPrivate bits X Y D => head ecdsaCertMsg [VInt D]
  | ED25519Private b => if slen b <? 32 then Panic bounds_panic else head ed25519CertMsg [VBytes (sdrop 32 b); VBytes b]
  | OtherPrivate t => Err ("agent: unsupported key type " +:+ t)
  end.
Definition cert_req (s : PrivateKey) (cert : Certificate) (comment constraints : string) : outcome string :=
  let? req := cert_message s cert comment constraints in
  let? signer := NewSignerFromKey s in
  let? a := KeyMarshal ecMarshal (Keys.Key cert) in
  let? b := KeyMarshal ecMarshal (signer_PublicKey signer) in
  if (a =? b)%string then Ok req else Err "agent: signer and cert have different public key".
Definition insertCert (s : PrivateKey) (cert : Certificate) (comment constraints : string) : C -> outcome unit * C :=
  requesting (cert_req s cert comment constraints) is_success.

Definition add_constraints (key : AddedKey) : string :=
  (if LifetimeSecs key =? 0 then "" else Marshal constrainLifetimeAgentMsg [VUint32 (LifetimeSecs key)]) +:+
  (if ConfirmBeforeUse key then String (byte agentConstrainConfirm) "" else "").
Definition client_Add (key : AddedKey) : C -> outcome unit * C :=
  match added_Certificate key with
  | None => insertKey (added_PrivateKey key) (added_Comment key) (add_constraints key)
  | Some cert => insertCert (added_PrivateKey key) cert (added_Comment key) (add_constraints key)
  end.

#[export] Instance client_agent : Agent C := {
  agent_List := fun _ => client_List; agent_Sign := fun _ => client_Sign; agent_Add := fun _ => client_Add;
  agent_Remove := client_Remove; agent_RemoveAll := client_RemoveAll; agent_Lock := client_Lock; agent_Unlock := client_Unlock;
}.
End Client.

(** ** A connection that [ServeAgent] serves *)

Record served (S : Type) := mkServed {
  sv_agent : S;
  sv_rounds : nat;
  sv_in : string;
  sv_out : string;
  sv_end : option string;
}.
#[global] Arguments mkServed {S}.
#[global] Arguments sv_agent {S}.
#[global] Arguments sv_rounds {S}.
#[global] Arguments sv_in {S}.
#[global] Arguments sv_out {S}.
#[global] Arguments sv_end {S}.

Section Served.
Context {S : Type} `{A : Agent S} (now : nat -> nat -> Z).

(** The rounds that what has come in allows. *)
Fixpoint serve_rounds (fuel : nat) (c : served S) : served S :=
  match fuel with
  | O => c
  | Datatypes.S fuel =>
      match serve_one (now (sv_rounds c)) (sv_in c) (sv_agent c) with
      | NeedMore | Hangs => c
      | Ends e s => mkServed s (sv_rounds c) (sv_in c) (sv_out c) (Some e)
      | Panics p => mkServed (sv_agent c) (sv_rounds c) (sv_in c) (sv_out c) (Some p)
      | Replied reply rest s => serve_rounds fuel (mkServed s (Datatypes.S (sv_rounds c)) rest (sv_out c +:+ reply) None)
      end
  end.

#[export] Instance served_conn : Conn (served S) := {
  conn_Write := fun m c =>
    match sv_end c with
    | Some _ => (Some "write on closed pipe", c)
    | None =>
        let inp := sv_in c +:+ m in
        (None, serve_rounds (Datatypes.S (String.length inp)) (mkServed (sv_agent c) (sv_rounds c) inp (sv_out c) None))
    end;
  conn_ReadFull := fun n c =>
    if (n <=? String.length (sv_out c))%nat then
      (Ok (stake n (sv_out c)), mkServed (sv_agent c) (sv_rounds c) (sv_in c) (sdrop n (sv_out c)) (sv_end c))
    else
      match sv_end c with
      | Some _ => (Err (if (sv_out c =? "")%string then EOF else ErrUnexpectedEOF), c)
      | None => (Blocked, c)
      end;
}.
End Served.
End Wire.

(** ** Messages with several tags *)

Lemma Unmarshal_tagged t tag vs :
  t_fields t <> [] -> goodType (typeTags t) tag = true -> 0 <= tag < 256 -> rest_last (t_fields t) = true -> typed_fields (t_fields t) vs ->
  slen (fields_bytes vs) < 2 ^ 32 -> Unmarshal (String (byte tag) (fields_bytes vs)) t = Ok vs.
Proof.
  intros Hne Hg Ht Hr Hty Hl. unfold Unmarshal. rewrite bool_decide_eq_false_2 by done. rewrite val_byte, Z.mod_small by lia. destruct (typeTags t) as [|tag0 tags]; [done|]. rewrite Hg.
  cbn [obind]. by rewrite unmarshalFields_be.
Qed.

Lemma constrained_eq constraints t vs : typeTags t = [17; 25] ->
  constrained constraints (Marshal t vs) = String (byte (if (constraints =? "")%string then 17 else 25)) (fields_bytes vs).
Proof. intros Ht. rewrite (Marshal_eq t vs 17 [25] Ht). unfold constrained. by destruct (constraints =? "")%string. Qed.

Lemma slen_first c s : slen (String c s) = 1 + slen s.
Proof. unfold slen. cbn. lia. Qed.

Lemma constrained_read constraints t vs :
  t_fields t <> [] -> typeTags t = [17; 25] -> rest_last (t_fields t) = true -> typed_fields (t_fields t) vs ->
  slen (constrained constraints (Marshal t vs)) < 2 ^ 32 -> Unmarshal (constrained constraints (Marshal t vs)) t = Ok vs.
Proof.
  intros Hne Ht Hr Hty. rewrite constrained_eq by done. rewrite slen_first. intros Hl. apply Unmarshal_tagged; try done; try lia.
  - rewrite Ht. by destruct (constraints =? "")%string.
  - by destruct (constraints =? "")%string.
Qed.

(** The type of the key is read before the rest. *)
Lemma constrained_type constraints t ty vs :
  typeTags t = [17; 25] -> slen (constrained constraints (Marshal t (VString ty :: vs))) < 2 ^ 32 ->
  Unmarshal (constrained constraints (Marshal t (VString ty :: vs))) insertRecord = Ok [VString ty; VRest (fields_bytes vs)].
Proof.
  intros Ht. rewrite constrained_eq by done. rewrite slen_first. intros Hl.
  assert (fields_bytes (VString ty :: vs) = fields_bytes [VString ty; VRest (fields_bytes vs)]) as E.
  { cbn [fields_bytes]. f_equal. change (field_bytes (VRest ?x)) with x. by rewrite string_app_nil_r. }
  rewrite E in *. apply Unmarshal_tagged; try done; try lia; [by destruct (constraints =? "")%string..|by repeat constructor].
Qed.

(** ** Constraints *)

Lemma lifetime_read fuel secs rest s c e : in_uint32 secs ->
  constraints_loop (S fuel) (String (byte 1) (be_bytes 4 secs +:+ rest)) s c e = constraints_loop fuel rest secs c e.
Proof.
  intros Hs. unfold constraints_loop at 1. fold constraints_loop. change (val (byte 1) =? agentConstrainLifetime) with true. cbv iota.
  rewrite slen_first, slen_app, slen_be_bytes. pose proof (slen_nonneg rest).
  destruct (Z.ltb_spec (1 + (Z.of_nat 4 + slen rest)) 5) as [Hlt|]; [lia|].
  rewrite stake_app_len, sdrop_app_len by apply be_bytes_length. by rewrite be_be_bytes by (unfold in_uint32 in Hs; lia).
Qed.

Lemma constraints_read key : in_uint32 (LifetimeSecs key) ->
  parseConstraints (add_constraints key) = Ok (LifetimeSecs key, ConfirmBeforeUse key, []).
Proof.
  intros Hs. unfold add_constraints, parseConstraints.
  assert (forall fuel secs, constraints_loop (S (S fuel)) (if ConfirmBeforeUse key then String (byte agentConstrainConfirm) "" else "") secs false [] =
            Ok (secs, ConfirmBeforeUse key, [])) as Hc by (intros; by destruct (ConfirmBeforeUse key)).
  destruct (Z.eqb_spec (LifetimeSecs key) 0) as [E|E].
  - rewrite E, string_app_nil_l. by destruct (ConfirmBeforeUse key).
  - change (Marshal constrainLifetimeAgentMsg [VUint32 (LifetimeSecs key)] +:+ ?rest) with (String (byte 1) (be_bytes 4 (LifetimeSecs key) +:+ rest)).
    rewrite lifetime_read by done. cbn [String.length]. rewrite string_app_length, be_bytes_length. cbn [Nat.add]. apply Hc.
Qed.

(** ** Keys on the wire *)

Section Added.
Context (ecMarshal : Z -> Z -> Z -> string) (ecUnmarshal : Z -> string -> option (Z * Z)) (ModInverse : Z -> Z -> Z).
Abbreviation key_req := (key_req ecMarshal ModInverse).
Abbreviation cert_req := (cert_req ecMarshal ModInverse).
Abbreviation added_key := (added_key ecMarshal ecUnmarshal).

(** The keys that the protocol carries. *)
Definition portable (k : PrivateKey) : Prop :=
  match k with
  | RSAPrivate E N D [P; Q] => 0 <= E /\ BitLen E <= 30 /\ P <> 1 /\ Q <> 1
  | DSAPrivate _ _ _ _ _ => True
  | ECDSAPrivate bits X Y D => bits ∈ [256; 384; 521] /\ ecUnmarshal bits (ecMarshal bits X Y) = Some (X, Y)
  | ED25519Private b => 32 <= slen b
  | _ => False
  end.

Lemma small_exponent E : 0 <= E -> BitLen E <= 30 -> to_int64 E = E.
Proof.
  intros H0 H. apply to_int64_id. unfold in_int64, min_int64, max_int64. unfold BitLen in H. destruct (Z.eqb_spec E 0) as [->|]; [lia|].
  rewrite Z.abs_eq in H by done. assert (E < 2 ^ 30); [|lia]. apply Z.log2_lt_pow2; lia.
Qed.

Lemma primes_ok P Q : P <> 1 -> Q <> 1 -> Precompute [P; Q] = Ok tt.
Proof. intros HP HQ. unfold Precompute. cbn [existsb]. by rewrite (proj2 (Z.eqb_neq P 1) HP), (proj2 (Z.eqb_neq Q 1) HQ). Qed.

Lemma supported_bits bits : bits ∈ [256; 384; 521] -> bits = 256 \/ bits = 384 \/ bits = 521.
Proof. rewrite !elem_of_cons, elem_of_nil. tauto. Qed.

(** A request reaches the parser of its type, which reads its fields. *)
Ltac read_request Hl :=
  unfold Agent.added_key; rewrite constrained_type by (done || exact Hl); cbn [obind]; unfold parse_identity;
  repeat match goal with |- context [String.eqb ?a ?b] => let v := eval vm_compute in (String.eqb a b) in change (String.eqb a b) with v end;
  cbn [orb]; cbv iota.
Ltac read_fields Hl := rewrite constrained_read by (done || exact Hl || by repeat constructor); cbn [obind].

Lemma key_read k comment constraints req secs confirm exts : portable k -> key_req k comment constraints = Ok req -> slen req < 2 ^ 32 ->
  parseConstraints constraints = Ok (secs, confirm, exts) -> added_key req = Ok (mkAdded k None comment secs confirm exts).
Proof.
  intros Hp Hr Hl Hc. destruct k as [E N D ps|P Q G Y X|bits X Y D|b|t]; try done; cbn [portable] in Hp.
  - destruct ps as [|P [|Q [|? ?]]]; try done. destruct Hp as (HE & Hb & HP & HQ). unfold Agent.key_req in Hr. rewrite primes_ok in Hr by done.
    apply Ok_inj in Hr as <-. cbn [app] in *. read_request Hl. unfold parseRSAKey. read_fields Hl.
    destruct (Z.ltb_spec 30 (BitLen E)); [lia|]. rewrite primes_ok by done. cbn [obind]. unfold with_setConstraints. rewrite Hc. cbn [obind].
    by rewrite small_exponent.
  - apply Ok_inj in Hr as <-. cbn [app] in *. read_request Hl. unfold parseDSAKey. read_fields Hl. unfold with_setConstraints. by rewrite Hc.
  - destruct Hp as [Hb He]. apply Ok_inj in Hr as <-. cbn [app] in *.
    destruct (supported_bits _ Hb) as [-> | [-> | ->]]; read_request Hl; unfold parseECDSAKey; read_fields Hl; unfold unmarshalECDSA;
      match goal with |- context [curve_bits ?x] => let v := eval vm_compute in (curve_bits x) in change (curve_bits x) with v end;
      cbv iota; rewrite He; cbn [obind]; unfold with_setConstraints; by rewrite Hc.
  - unfold Agent.key_req in Hr. destruct (Z.ltb_spec (slen b) 32); [done|]. apply Ok_inj in Hr as <-. cbn [app] in *.
    read_request Hl. unfold parseEd25519Key. read_fields Hl. unfold with_setConstraints. by rewrite Hc.
Qed.

(** The key that arrives with a certificate: an RSA key has its primes swapped. *)
Definition arrived (k : PrivateKey) : PrivateKey :=
  match k with RSAPrivate E N D [P; Q] => RSAPrivate E N D [Q; P] | k => k end.

(** A certificate on the public half of a key. *)
Definition certifies (cert : Certificate) (k : PrivateKey) : Prop :=
  wf_cert ecMarshal ecUnmarshal cert /\ exists s, NewSignerFromKey k = Ok s /\ signer_PublicKey s = Keys.Key cert.

Lemma cert_wf cert : wf_cert ecMarshal ecUnmarshal cert ->
  wf_plain ecMarshal ecUnmarshal (Keys.Key cert) /\ (forall b, KeyMarshal ecMarshal (Keys.Key cert) = Ok b -> slen b < 2 ^ 32).
Proof. destruct cert. cbn. intros (H1 & H2 & _). split; [exact H1|exact H2]. Qed.

Lemma certificate_read cert b name : wf_cert ecMarshal ecUnmarshal cert -> CertMarshal ecMarshal cert = Ok b -> slen b < 2 ^ 32 ->
  parse_certificate ecUnmarshal b name = Ok cert.
Proof. intros Hw Hb Hl. unfold parse_certificate. by rewrite (wf_read ecMarshal ecUnmarshal (CertKey cert) b). Qed.

Lemma bytes_smaller constraints t ty b vs : typeTags t = [17; 25] ->
  slen (constrained constraints (Marshal t (VString ty :: VBytes b :: vs))) < 2 ^ 32 -> slen b < 2 ^ 32.
Proof.
  intros Ht. rewrite constrained_eq by done. rewrite slen_first. cbn [fields_bytes]. rewrite !slen_app.
  pose proof (slen_nonneg (field_bytes (VString ty))). pose proof (slen_nonneg (fields_bytes vs)).
  assert (slen (field_bytes (VBytes b)) = 4 + slen b) as ->; [|lia].
  unfold field_bytes. cbn [marshalField]. unfold appendString, appendInt, appendU32. rewrite string_app_nil_l, slen_app, slen_be_bytes. lia.
Qed.

(** What the struct of a public key reads from its encoding. *)
Lemma public_fields name fs vs k b : KeyMarshal ecMarshal k = Ok b -> slen b < 2 ^ 32 -> b = Marshal (mkType name [] fs) vs ->
  typed_fields fs vs -> rest_last fs = true -> fields_bytes vs <> "" -> Unmarshal b (mkType name [] fs) = Ok vs.
Proof. intros Hb Hl -> Hty Hr Hne. rewrite Marshal_untagged in *. by apply Unmarshal_untagged. Qed.

Lemma ecdsa_fields bits X Y b : bits ∈ [256; 384; 521] -> ecdsa_Marshal ecMarshal bits X Y = Ok b -> slen b < 2 ^ 32 ->
  exists id, curve_bits id = Some bits /\ Unmarshal b ecdsaPubStruct = Ok [VString ("ecdsa-sha2-" +:+ id); VString id; VBytes (ecMarshal bits X Y)].
Proof.
  intros Hb H Hl. assert (exists id, nistID bits = Ok id /\ curve_bits id = Some bits) as (id & Hi & Hc).
  { destruct (supported_bits _ Hb) as [-> | [-> | ->]]; eexists; split; reflexivity. }
  exists id. split; [done|]. unfold ecdsa_Marshal in H. rewrite Hi in H. cbn [obind] in H. apply Ok_inj in H as <-.
  unfold ecdsaPubStruct. rewrite Marshal_untagged in *. apply Unmarshal_untagged; [by repeat constructor|done|done|done].
Qed.

Lemma cert_Type_eq cert k : Keys.Key cert = k ->
  cert_Type cert = (let? ty := Type_ k in match cert_algo certAlgoNames ty with Some algo => Ok algo | None => Panic ("unknown cert key type " +:+ ty) end).
Proof. intros <-. by destruct cert. Qed.

(** The steps that the four types of certificate share: the request holds the type and
    the bytes of the certificate, and the server reads them back. *)
Ltac cert_step Hk Hm Hl Hw :=
  rewrite (cert_Type_eq _ _ (eq_sym Hk)) in Hm; cbn [signer_PublicKey Type_ nistID obind] in Hm;
  repeat match type of Hm with context [cert_algo certAlgoNames ?x] => let v := eval vm_compute in (cert_algo certAlgoNames x) in change (cert_algo certAlgoNames x) with v in Hm end;
  cbn [obind] in Hm; let b := fresh "b" in let Hb := fresh "Hb" in apply obind_ok in Hm as (b & Hb & Hm); apply Ok_inj in Hm as <-;
  cbn [app] in *; assert (slen b < 2 ^ 32) as Hbl by (eapply bytes_smaller; [|exact Hl]; reflexivity); read_request Hl;
  match goal with |- ?f _ _ _ = _ => unfold f | |- ?f _ _ = _ => unfold f end; read_fields Hl;
  rewrite (certificate_read _ b) by done; cbn [obind]; unfold with_setConstraints.

Lemma cert_read k cert comment constraints req secs confirm exts : portable k -> certifies cert k ->
  cert_req k cert comment constraints = Ok req -> slen req < 2 ^ 32 ->
  parseConstraints constraints = Ok (secs, confirm, exts) ->
  added_key req = Ok (mkAdded (arrived k) (Some cert) comment secs confirm exts).
Proof.
  intros Hp (Hw & s & Hs & Hk) Hr Hl Hc. destruct (cert_wf cert Hw) as [Hwk Hsz].
  unfold Agent.cert_req in Hr. apply obind_ok in Hr as (req' & Hm & Hr). rewrite Hs in Hr. cbn [obind] in Hr.
  apply obind_ok in Hr as (kb & Hkb & Hr). rewrite Hk, Hkb in Hr. cbn [obind] in Hr. rewrite String.eqb_refl in Hr. apply Ok_inj in Hr as ->. specialize (Hsz kb Hkb).
  destruct k as [E N D ps|P Q G Y X|bits X Y D|b|t]; try done; cbn [portable] in Hp.
  - destruct ps as [|P [|Q [|? ?]]]; try done. destruct Hp as (HE & Hb & HP & HQ). injection Hs as <-.
    unfold cert_message in Hm. rewrite primes_ok in Hm by done. cbn [obind] in Hm. cert_step Hk Hm Hl Hw.
    rewrite Hkb. cbn [obind]. rewrite <- Hk in Hkb. cbn [signer_PublicKey KeyMarshal] in Hkb.
    unfold rsaPubStruct. rewrite (public_fields "" _ [VString KeyAlgoRSA; VInt E; VInt N] (RSA E N) kb); try done;
      [|by apply Ok_inj in Hkb as <-|by repeat constructor].
    destruct (Z.ltb_spec 30 (BitLen E)); [lia|]. rewrite primes_ok by done. cbn [obind]. rewrite Hc. cbn [obind]. by rewrite small_exponent.
  - injection Hs as <-. unfold cert_message in Hm. cert_step Hk Hm Hl Hw.
    rewrite Hkb. cbn [obind]. rewrite <- Hk in Hkb. cbn [signer_PublicKey KeyMarshal] in Hkb.
    unfold dsaPubStruct. rewrite (public_fields "" _ [VString KeyAlgoDSA; VInt P; VInt Q; VInt G; VInt Y] (DSA P Q G Y) kb); try done;
      [|by apply Ok_inj in Hkb as <-|by repeat constructor]. by rewrite Hc.
  - destruct Hp as [Hb He]. destruct (supported_bits _ Hb) as [-> | [-> | ->]]; injection Hs as <-; unfold cert_message in Hm; cert_step Hk Hm Hl Hw;
      rewrite Hkb; cbn [obind]; rewrite <- Hk in Hkb; cbn [signer_PublicKey KeyMarshal] in Hkb;
      destruct (ecdsa_fields _ X Y kb Hb Hkb Hsz) as (id & Hid & ->); cbn [obind]; unfold unmarshalECDSA; rewrite Hid;
      rewrite He; cbn [obind]; by rewrite Hc.
  - unfold NewSignerFromKey in Hs. cbn [Public] in Hs. unfold ed25519_Public in Hs. destruct (Z.ltb_spec (slen b) 32); [lia|].
    injection Hs as <-. unfold cert_message in Hm. destruct (Z.ltb_spec (slen b) 32); [lia|]. cert_step Hk Hm Hl Hw. by rewrite Hc.
Qed.
End Added.

(** ** A call over a connection that is served *)

Section Calls.
Context (ecMarshal : Z -> Z -> Z -> string) (ecUnmarshal : Z -> string -> option (Z * Z)) (ModInverse : Z -> Z -> Z).
Context {S : Type} `{A : Agent S} (now : nat -> nat -> Z).
Abbreviation processRequest := (processRequest ecMarshal ecUnmarshal).
Abbreviation processRequestBytes := (processRequestBytes ecMarshal ecUnmarshal).
#[local] Instance the_conn : Conn (served S) := served_conn ecMarshal ecUnmarshal now.

(** Between calls: nothing is on its way. *)
Definition idle (c : served S) : Prop := sv_in c = "" /\ sv_out c = "" /\ sv_end c = None.
(** The connection after a round that leaves the agent in the state [s]. *)
Definition after_round (c : served S) (s : S) : served S := mkServed s (Datatypes.S (sv_rounds c)) "" "" None.

Lemma idle_after c s : idle (after_round c s).
Proof. done. Qed.

Lemma serve_one_request n req s rep s' : slen req <= maxAgentResponseBytes ->
  processRequestBytes n req s = (Ok rep, s') -> slen rep <= maxAgentResponseBytes ->
  serve_one ecMarshal ecUnmarshal n (be_bytes 4 (to_uint32 (slen req)) +:+ req) s = Replied (be_bytes 4 (slen rep) +:+ rep) "" s'.
Proof.
  intros Hl Hp Hr. pose proof (slen_nonneg req) as H0. unfold maxAgentResponseBytes in Hl. unfold serve_one. rewrite slen_app, slen_be_bytes.
  destruct (Z.ltb_spec (Z.of_nat 4 + slen req) 4); [lia|]. rewrite stake_app_len, sdrop_app_len by apply be_bytes_length.
  rewrite to_uint32_id by (unfold in_uint32; lia). rewrite be_be_bytes by lia. unfold maxAgentResponseBytes in *.
  destruct (Z.ltb_spec 16777216 (slen req)); [lia|]. rewrite Z.ltb_irrefl. unfold slen at 1. rewrite Nat2Z.id, stake_all, Hp.
  destruct (Z.ltb_spec 16777216 (slen rep)); [lia|]. f_equal. unfold slen. by rewrite Nat2Z.id, sdrop_all.
Qed.

(** A request and a reply of bearable length: the client gets what the reply says. *)
Lemma call_served c req rep s' : idle c -> slen req <= maxAgentResponseBytes ->
  processRequestBytes (now (sv_rounds c)) req (sv_agent c) = (Ok rep, s') -> slen rep <= maxAgentResponseBytes ->
  call req c = (match unmarshal rep with Err e => Err (clientErr e) | r => r end, after_round c s').
Proof.
  intros (Hi & Ho & He) Hl Hp Hr. unfold call. cbn [conn_Write the_conn served_conn]. rewrite He, Hi, Ho, string_app_nil_l.
  generalize (String.length (be_bytes 4 (to_uint32 (slen req)) +:+ req)) as f. intros f.
  cbn [serve_rounds sv_rounds sv_in sv_agent sv_out]. rewrite (serve_one_request _ req _ rep s') by done.
  assert (forall reply, serve_rounds ecMarshal ecUnmarshal now f (mkServed s' (Datatypes.S (sv_rounds c)) "" reply None) = mkServed s' (Datatypes.S (sv_rounds c)) "" reply None) as ->
    by (intros; by destruct f).
  rewrite string_app_nil_l; unfold full_read at 1; cbn [conn_ReadFull the_conn served_conn sv_out]; rewrite string_app_length, be_bytes_length; cbn [Nat.leb Nat.add];
    rewrite stake_app_len, sdrop_app_len by apply be_bytes_length; unfold maxAgentResponseBytes in *; pose proof (slen_nonneg rep);
    rewrite be_be_bytes by lia; destruct (Z.ltb_spec 16777216 (slen rep)); [lia|]; unfold full_read; cbn [conn_ReadFull the_conn served_conn sv_out sv_agent sv_rounds sv_in sv_end];
    unfold slen; rewrite Nat2Z.id, Nat.leb_refl, stake_all, sdrop_all; reflexivity.
Qed.

(** ** Operations and what they answer *)

Inductive op :=
| OList
| OSign (key : anyKey) (data : string)
| OAdd (key : AddedKey)
| ORemove (key : anyKey)
| ORemoveAll
| OLock (pw : string)
| OUnlock (pw : string).

Inductive answer := AKeys (l : list agentKey) | ASig (sig : Signature) | ADone.

Definition answered {T B} (f : B -> answer) (r : outcome B * T) : outcome answer * T := (let? b := r.1 in Ok (f b), r.2).

Definition perform {T} `{Agent T} (t : nat -> Z) (o : op) (s : T) : outcome answer * T :=
  match o with
  | OList => answered AKeys (agent_List t s)
  | OSign key data => answered ASig (agent_Sign t key data s)
  | OAdd key => answered (fun _ => ADone) (agent_Add t key s)
  | ORemove key => answered (fun _ => ADone) (agent_Remove key s)
  | ORemoveAll => answered (fun _ => ADone) (agent_RemoveAll s)
  | OLock pw => answered (fun _ => ADone) (agent_Lock pw s)
  | OUnlock pw => answered (fun _ => ADone) (agent_Unlock pw s)
  end.

(** The request of the client for an operation, and what it makes of the reply. *)
Definition request_of (o : op) : outcome string :=
  match o with
  | OList => Ok (String (byte agentRequestIdentities) "")
  | OSign key data => sign_req ecMarshal key data
  | OAdd key =>
      match added_Certificate key with
      | None => key_req ecMarshal ModInverse (added_PrivateKey key) (added_Comment key) (add_constraints key)
      | Some cert => cert_req ecMarshal ModInverse (added_PrivateKey key) cert (added_Comment key) (add_constraints key)
      end
  | ORemove key => remove_req ecMarshal key
  | ORemoveAll => Ok (String (byte agentRemoveAllIdentities) "")
  | OLock pw => Ok (Marshal agentLockMsg [VBytes pw])
  | OUnlock pw => Ok (Marshal agentUnlockMsg [VBytes pw])
  end.
Definition reading (o : op) (reply : msg_type * list value) : outcome answer :=
  match o with
  | OList => let? l := listed reply in Ok (AKeys l)
  | OSign _ _ => let? sig := signed reply in Ok (ASig sig)
  | _ => let? _ := is_success reply in Ok ADone
  end.

(** Not code of its own: what the parser of the server ([insertIdentity]) makes of the
    request that the client wrote for an operation. It is the operation that was issued,
    but for an Add that is not [whole]: extensions of constraints are not sent,
    and an RSA key with a certificate arrives with its primes swapped. *)
Definition received (o : op) : op :=
  match o with
  | OAdd key =>
      OAdd (mkAdded (match added_Certificate key with Some _ => arrived (added_PrivateKey key) | None => added_PrivateKey key end)
              (added_Certificate key) (added_Comment key) (LifetimeSecs key) (ConfirmBeforeUse key) [])
  | o => o
  end.

(** A key whose bytes start with a name. *)
Definition named (b : string) : Prop := exists ty rest, Unmarshal b wireKey = Ok [VString ty; VRest rest].
Definition key_named (key : anyKey) : Prop := exists b, any_Marshal ecMarshal key = Ok b /\ named b.

(** What the protocol can carry: requests of bearable length, keys in the formats it has. *)
Definition carried (o : op) (req : string) : Prop :=
  request_of o = Ok req /\ slen req <= maxAgentResponseBytes /\
  match o with
  | OSign key _ | ORemove key => key_named key
  | OAdd key =>
      in_uint32 (LifetimeSecs key) /\ portable ecMarshal ecUnmarshal (added_PrivateKey key) /\
      match added_Certificate key with Some cert => certifies ecMarshal ecUnmarshal cert (added_PrivateKey key) | None => True end
  | _ => True
  end.

(** What the client relies on in an agent: it goes by the bytes of public keys, and the
    keys it lists start with their format. *)
Class AgentLaws : Prop := {
  sign_by_blob : forall t key f b data s, any_Marshal ecMarshal key = Ok b ->
    agent_Sign t (OfAgent (mkAgentKey f b "")) data s = agent_Sign t key data s;
  remove_by_blob : forall key f b s, any_Marshal ecMarshal key = Ok b ->
    agent_Remove (OfAgent (mkAgentKey f b "")) s = agent_Remove key s;
  list_named : forall t s ks s', agent_List t s = (Ok ks, s') ->
    Forall (fun k => slen (Key_Blob k) < 2 ^ 32 -> exists rest, Unmarshal (Key_Blob k) wireKey = Ok [VString (Key_Format k); VRest rest]) ks;
}.

Definition reply_bytes (a : answer) : string :=
  match a with
  | AKeys ks => match list_reply ks with Some (t, vs) => Marshal t vs | None => "" end
  | ASig sig => match sign_reply sig with Some (t, vs) => Marshal t vs | None => "" end
  | ADone => String (byte agentSuccess) ""
  end.
Definition reply_of (r : outcome answer) : outcome string :=
  match r with
  | Ok a => Ok (reply_bytes a)
  | Err _ => Ok (String (byte agentFailure) "")
  | Panic p => Panic p
  | Blocked => Blocked
  end.

Lemma request_key_named b : named b -> exists f, request_key b = Ok (mkAgentKey f b "").
Proof. intros (ty & rest & H). exists ty. unfold request_key. by rewrite H. Qed.

Lemma no_reply_spec (r : outcome unit * S) :
  (let '(r, s) := no_reply r in (reply_data r, s)) = (reply_of (answered (fun _ => ADone) r).1, (answered (fun _ => ADone) r).2).
Proof. by destruct r as [[[]| | |] ?]. Qed.

(** The branch of the switch for a known first byte. *)
Ltac branch :=
  unfold Agent.processRequestBytes, Agent.processRequest; cbv beta zeta;
  repeat match goal with |- context [Z.eqb (val (byte ?n)) ?k] => let v := eval vm_compute in (Z.eqb (val (byte n)) k) in change (Z.eqb (val (byte n)) k) with v end;
  cbn [orb]; cbv iota.

Lemma pw_read t pw : typeTags t = [22] \/ typeTags t = [23] -> t_fields t = [("Passphrase", KBytes)] -> slen (Marshal t [VBytes pw]) < 2 ^ 32 ->
  passphrase_request t (Marshal t [VBytes pw]) = Ok pw.
Proof.
  intros Ht Hf Hl. unfold passphrase_request. rewrite Unmarshal_Marshal; [done|unfold wf_type; destruct Ht as [-> | ->]; by rewrite Hf|].
  split; [rewrite Hf; by repeat constructor|]. destruct Ht as [Ht|Ht]; rewrite (Marshal_eq t _ _ [] Ht), slen_first in Hl; lia.
Qed.

Lemma tagged_size t tag vs : typeTags t = [tag] -> slen (Marshal t vs) < 2 ^ 32 -> slen (fields_bytes vs) < 2 ^ 32.
Proof. intros Ht. rewrite (Marshal_eq t vs tag [] Ht), slen_first. lia. Qed.

Lemma sign_performed `{!AgentLaws} t key data req s : sign_req ecMarshal key data = Ok req -> slen req < 2 ^ 32 -> key_named key ->
  processRequestBytes t req s = (reply_of (perform t (OSign key data) s).1, (perform t (OSign key data) s).2).
Proof.
  intros Hr Hl (b & Hb & Hn). unfold sign_req in Hr. rewrite Hb in Hr. cbn [obind] in Hr. apply Ok_inj in Hr as <-.
  destruct (request_key_named b Hn) as [f Hf].
  assert (identity_sign_request (Marshal signRequestAgentMsg [VBytes b; VBytes data; VUint32 0]) = Ok (mkAgentKey f b "", data)) as E.
  { unfold identity_sign_request. rewrite Unmarshal_Marshal; [cbn [obind]; by rewrite Hf|done|]. split; [by repeat constructor|].
    eapply tagged_size; [|exact Hl]; reflexivity. }
  rewrite (Marshal_eq _ _ 13 []) in * by done. branch. rewrite E. cbn [on_request fst snd].
  rewrite (sign_by_blob t key f b data s Hb). cbn [perform]. unfold answered. by destruct (agent_Sign t key data s) as [[| | |] ?].
Qed.

Lemma remove_performed `{!AgentLaws} t key req s : remove_req ecMarshal key = Ok req -> slen req < 2 ^ 32 -> key_named key ->
  processRequestBytes t req s = (reply_of (perform t (ORemove key) s).1, (perform t (ORemove key) s).2).
Proof.
  intros Hr Hl (b & Hb & Hn). unfold remove_req in Hr. rewrite Hb in Hr. cbn [obind] in Hr. apply Ok_inj in Hr as <-.
  destruct (request_key_named b Hn) as [f Hf].
  assert (remove_request (Marshal agentRemoveIdentityMsg [VBytes b]) = Ok (mkAgentKey f b "")) as E.
  { unfold remove_request. rewrite Unmarshal_Marshal; [cbn [obind]; by rewrite Hf|done|]. split; [by repeat constructor|].
    eapply tagged_size; [|exact Hl]; reflexivity. }
  rewrite (Marshal_eq _ _ 18 []) in * by done. branch. rewrite E. cbn [on_request].
  rewrite (remove_by_blob key f b s Hb). cbn [perform]. exact (no_reply_spec (agent_Remove key s)).
Qed.

Lemma add_request_tag key req : request_of (OAdd key) = Ok req -> exists rest, req = String (byte 17) rest \/ req = String (byte 25) rest.
Proof.
  assert (forall constraints t vs, typeTags t = [17; 25] -> exists rest, constrained constraints (Marshal t vs) = String (byte 17) rest \/
            constrained constraints (Marshal t vs) = String (byte 25) rest) as Hc.
  { intros constraints t vs Ht. rewrite constrained_eq by done. eexists. destruct (constraints =? "")%string; eauto. }
  cbn [request_of]. destruct (added_Certificate key) as [cert|].
  - unfold cert_req. intros H. apply obind_ok in H as (req' & Hm & H). apply obind_ok in H as (? & _ & H). apply obind_ok in H as (? & _ & H).
    apply obind_ok in H as (? & _ & H). case_match; [|done]. apply Ok_inj in H as <-. unfold cert_message in Hm.
    repeat case_match; try done; repeat (apply obind_ok in Hm as (? & _ & Hm)); apply Ok_inj in Hm as <-; by apply Hc.
  - unfold key_req. intros H. repeat case_match; try done; repeat (apply obind_ok in H as (? & _ & H)); apply Ok_inj in H as <-; by apply Hc.
Qed.

Lemma add_performed t key req s : carried (OAdd key) req ->
  processRequestBytes t req s = (reply_of (perform t (received (OAdd key)) s).1, (perform t (received (OAdd key)) s).2).
Proof.
  intros (Hr & Hl & Hs & Hp & Hc). unfold maxAgentResponseBytes in Hl.
  assert (added_key ecMarshal ecUnmarshal req = Ok (mkAdded (match added_Certificate key with Some _ => arrived (added_PrivateKey key) | None => added_PrivateKey key end)
              (added_Certificate key) (added_Comment key) (LifetimeSecs key) (ConfirmBeforeUse key) [])) as E.
  { pose proof (constraints_read key Hs) as Hk. cbn [request_of] in Hr. destruct (added_Certificate key) as [cert|].
    - eapply cert_read; [done|done|exact Hr|lia|done].
    - eapply key_read; [done|exact Hr|lia|done]. }
  destruct (add_request_tag key req Hr) as (rest & [-> | ->]); branch; unfold insertIdentity; rewrite E; cbn [on_request received perform];
    exact (no_reply_spec (agent_Add t _ s)).
Qed.

(** The request of an operation makes the server perform it and reply. *)
Lemma request_performed `{!AgentLaws} t o req s : carried o req ->
  processRequestBytes t req s = (reply_of (perform t (received o) s).1, (perform t (received o) s).2).
Proof.
  intros Hc. pose proof Hc as (Hr & Hl & Hx). unfold maxAgentResponseBytes in Hl. assert (slen req < 2 ^ 32) as Hl' by lia.
  destruct o as [|key data|key|key| |pw|pw].
  - apply Ok_inj in Hr as <-. branch. cbn [received perform]. unfold answered. by destruct (agent_List t s) as [[| | |] ?].
  - by apply sign_performed.
  - by apply add_performed.
  - by apply remove_performed.
  - apply Ok_inj in Hr as <-. branch. exact (no_reply_spec (agent_RemoveAll s)).
  - apply Ok_inj in Hr as <-. pose proof (pw_read agentLockMsg pw ltac:(by left) eq_refl Hl') as E.
    rewrite (Marshal_eq _ _ 22 []) in * by done. branch. rewrite E. exact (no_reply_spec (agent_Lock pw s)).
  - apply Ok_inj in Hr as <-. pose proof (pw_read agentUnlockMsg pw ltac:(by right) eq_refl Hl') as E.
    rewrite (Marshal_eq _ _ 23 []) in * by done. branch. rewrite E. exact (no_reply_spec (agent_Unlock pw s)).
Qed.

(** ** What the client reads *)

Lemma perform_client t o c : perform (H := client_agent ecMarshal ModInverse) t o c = requesting (request_of o) (reading o) c.
Proof.
  assert (forall B (f : B -> answer) req (k : msg_type * list value -> outcome B) (c : served S),
            answered f (requesting req k c) = requesting req (fun r => let? b := k r in Ok (f b)) c) as Hr.
  { intros B f [req| | |] k c'; try done. unfold requesting, answered. destruct (call req c') as [[r| | |] c'']; try done. }
  destruct o as [|key data|key|key| |pw|pw]; cbn [perform agent_List agent_Sign agent_Add agent_Remove agent_RemoveAll agent_Lock agent_Unlock client_agent request_of];
    unfold client_List, client_Sign, client_Remove, client_RemoveAll, client_Lock, client_Unlock, simpleCall; try apply Hr.
  unfold client_Add, insertCert, insertKey. destruct (added_Certificate key); apply Hr.
Qed.

(** The keys of a reply, one after the other. *)
Lemma keys_bytes_cons out ks : fold_left (fun out k => out +:+ marshalKey k) ks out = out +:+ fold_left (fun out k => out +:+ marshalKey k) ks "".
Proof.
  revert out. induction ks as [|k ks IH]; intros out; cbn [fold_left]; [by rewrite string_app_nil_r|].
  rewrite IH, (IH ("" +:+ marshalKey k)), string_app_nil_l. by rewrite string_app_assoc.
Qed.

Definition well_named (k : agentKey) : Prop := slen (Key_Blob k) < 2 ^ 32 -> exists rest, Unmarshal (Key_Blob k) wireKey = Ok [VString (Key_Format k); VRest rest].

Lemma slen_field_string s : slen (field_bytes (VString s)) = 4 + slen s.
Proof. unfold field_bytes. cbn [marshalField]. unfold appendString, appendInt, appendU32. rewrite string_app_nil_l, slen_app, slen_be_bytes. lia. Qed.
Lemma slen_field_bytes s : slen (field_bytes (VBytes s)) = 4 + slen s.
Proof. exact (slen_field_string s). Qed.

Lemma marshalKey_eq k : marshalKey k = fields_bytes [VBytes (Key_Blob k); VString (Key_Comment k)].
Proof. apply Marshal_untagged. Qed.

Lemma key_parsed k rest : well_named k -> slen (marshalKey k +:+ rest) < 2 ^ 32 -> parseKey (marshalKey k +:+ rest) = Ok (k, rest).
Proof.
  intros Hn. rewrite slen_app, marshalKey_eq. intros Hl. unfold parseKey.
  pose proof (Unmarshal_rest "" [("Blob", KBytes); ("Comment", KString)] [VBytes (Key_Blob k); VString (Key_Comment k)] rest) as U. cbn [app] in U.
  cbn [fields_bytes] in Hl. rewrite !slen_app, slen_field_bytes, slen_field_string in Hl. change (slen "") with 0 in Hl.
  pose proof (slen_nonneg (Key_Blob k)). pose proof (slen_nonneg (Key_Comment k)). pose proof (slen_nonneg rest).
  unfold parseKeyRecord. rewrite U; clear U; [|by repeat constructor|done| |done].
  - cbn [obind]. destruct Hn as [rest' ->]; [lia|]. cbn [obind]. by destruct k.
  - cbn [fields_bytes]. rewrite !slen_app, slen_field_bytes, slen_field_string. change (slen "") with 0. lia.
Qed.

Lemma keys_parsed ks : Forall well_named ks -> slen (fold_left (fun out k => out +:+ marshalKey k) ks "") < 2 ^ 32 ->
  parse_keys (List.length ks) (fold_left (fun out k => out +:+ marshalKey k) ks "") = Ok ks.
Proof.
  induction 1 as [|k ks Hk Hks IH]; intros Hl; [done|]. cbn [fold_left List.length parse_keys] in *. rewrite string_app_nil_l in *.
  rewrite (keys_bytes_cons (marshalKey k)) in *. rewrite key_parsed by done. cbn [obind]. rewrite slen_app in Hl. pose proof (slen_nonneg (marshalKey k)).
  by rewrite IH by lia.
Qed.

Lemma keys_size ks : 8 * Z.of_nat (List.length ks) <= slen (fold_left (fun out k => out +:+ marshalKey k) ks "").
Proof.
  induction ks as [|k ks IH]; [done|]. cbn [fold_left List.length]. rewrite string_app_nil_l, keys_bytes_cons, slen_app, marshalKey_eq.
  cbn [fields_bytes]. rewrite !slen_app, slen_field_bytes, slen_field_string. pose proof (slen_nonneg (Key_Blob k)). pose proof (slen_nonneg (Key_Comment k)).
  change (slen "") with 0. lia.
Qed.

Lemma list_read ks : Forall well_named ks -> slen (reply_bytes (AKeys ks)) <= maxAgentResponseBytes ->
  exists reply, unmarshal (reply_bytes (AKeys ks)) = Ok reply /\ listed reply = Ok ks.
Proof.
  intros Hn Hl. unfold maxAgentResponseBytes in Hl. cbn [reply_bytes list_reply] in *. set (kb := fold_left (fun out k => out +:+ marshalKey k) ks "") in *.
  pose proof (keys_size ks) as Hk. fold kb in Hk. pose proof (keys_parsed ks Hn) as Hp. fold kb in Hp.
  rewrite (Marshal_eq _ _ 12 []) in * by done. rewrite slen_first in Hl. cbn [fields_bytes] in Hl. rewrite !slen_app in Hl.
  change (slen (field_bytes (VRest kb))) with (slen kb) in Hl. change (slen "") with 0 in Hl. pose proof (slen_nonneg (field_bytes (VUint32 (to_uint32 (Z.of_nat (List.length ks)))))).
  exists (identitiesAnswerAgentMsg, [VUint32 (to_uint32 (Z.of_nat (List.length ks))); VRest kb]). split.
  - rewrite <- (Marshal_eq identitiesAnswerAgentMsg _ 12 []) by done. unfold unmarshal. rewrite (Marshal_eq _ _ 12 []) at 1 by done.
    change (val (byte 12) =? agentFailure) with false. change (val (byte 12) =? agentSuccess) with false.
    change (val (byte 12) =? agentIdentitiesAnswer) with true. cbv iota. rewrite Unmarshal_Marshal; [done|done|]. split.
    + repeat constructor; unfold typed, in_uint32; pose proof (Z.mod_pos_bound (Z.of_nat (List.length ks)) (2 ^ 32) ltac:(lia)); unfold to_uint32; lia.
    + cbn [fields_bytes]. rewrite !slen_app. change (slen (field_bytes (VRest kb))) with (slen kb). change (slen "") with 0. lia.
  - unfold listed. cbn [fst snd]. rewrite bool_decide_eq_true_2 by done. rewrite to_uint32_id by (unfold in_uint32; lia).
    unfold maxAgentResponseBytes. destruct (Z.ltb_spec (16777216 / 8) (Z.of_nat (List.length ks))) as [Hx|]; [exfalso; change (16777216 / 8) with 2097152 in Hx; lia|].
    rewrite Nat2Z.id. apply Hp. lia.
Qed.

Lemma sig_read sig : slen (reply_bytes (ASig sig)) <= maxAgentResponseBytes ->
  exists reply, unmarshal (reply_bytes (ASig sig)) = Ok reply /\ signed reply = Ok sig.
Proof.
  intros Hl. unfold maxAgentResponseBytes in Hl. cbn [reply_bytes sign_reply] in *.
  rewrite (Marshal_eq _ _ 14 []) in Hl by done. rewrite slen_first in Hl. cbn [fields_bytes] in Hl. rewrite !slen_app, slen_field_bytes in Hl. change (slen "") with 0 in Hl.
  exists (signResponseAgentMsg, [VBytes (sig_bytes sig)]). split.
  - unfold unmarshal. rewrite (Marshal_eq _ _ 14 []) at 1 by done.
    change (val (byte 14) =? agentFailure) with false. change (val (byte 14) =? agentSuccess) with false.
    change (val (byte 14) =? agentIdentitiesAnswer) with false. change (val (byte 14) =? agentSignResponse) with true. cbv iota.
    rewrite Unmarshal_Marshal; [done|done|]. split; [by repeat constructor|]. cbn [fields_bytes]. rewrite !slen_app, slen_field_bytes. change (slen "") with 0. lia.
  - unfold signed. cbn [fst snd]. rewrite bool_decide_eq_true_2 by done. unfold sig_bytes in *. unfold signatureStruct at 1 in Hl. unfold signatureStruct.
    rewrite Marshal_untagged in *. rewrite Unmarshal_untagged; [cbn [obind]; by destruct sig|by repeat constructor|done|lia|done].
Qed.

(** ** The client is the agent *)

(** The same answer, up to the texts of errors. *)
Definition agrees (r r' : outcome answer) : Prop :=
  match r, r' with Ok a, Ok a' => a = a' | Err _, Err _ => True | _, _ => False end.

(** An answer of the agent that the protocol can carry. *)
Definition bearable (r : outcome answer) : Prop :=
  match r with Ok a => slen (reply_bytes a) <= maxAgentResponseBytes | Err _ => True | _ => False end.

Lemma answered_ok {T B} (f : B -> answer) (r : outcome B * T) a : (answered f r).1 = Ok a -> exists b, r.1 = Ok b /\ a = f b.
Proof. destruct r as [[b| | |] s]; cbn; try done. intros [= <-]. eauto. Qed.

Lemma reply_read `{!AgentLaws} t o s a : (perform t (received o) s).1 = Ok a -> slen (reply_bytes a) <= maxAgentResponseBytes ->
  exists reply, unmarshal (reply_bytes a) = Ok reply /\ reading o reply = Ok a.
Proof.
  intros Ha Hl.
  assert (forall u, is_success (successAgentMsg, u) = Ok tt) as Hd by done.
  destruct o as [|key data|key|key| |pw|pw]; cbn [received perform] in Ha; apply answered_ok in Ha as (b & Hb & ->); try (by eexists).
  - destruct (agent_List t s) as [r s'] eqn:E. cbn in Hb. subst r. destruct (list_read b (list_named t s b s' E) Hl) as (reply & Hu & Hr).
    exists reply. split; [done|]. cbn [reading]. by rewrite Hr.
  - destruct (sig_read b Hl) as (reply & Hu & Hr). exists reply. split; [done|]. cbn [reading]. by rewrite Hr.
Qed.

Lemma client_step `{!AgentLaws} t o c req : idle c -> carried o req ->
  bearable (perform (now (sv_rounds c)) (received o) (sv_agent c)).1 ->
  exists r', perform (H := client_agent ecMarshal ModInverse) t o c = (r', after_round c (perform (now (sv_rounds c)) (received o) (sv_agent c)).2) /\
    agrees (perform (now (sv_rounds c)) (received o) (sv_agent c)).1 r'.
Proof.
  intros Hi Hc Hb. pose proof (request_performed (now (sv_rounds c)) o req (sv_agent c) Hc) as Hp. pose proof Hc as (Hr & Hl & _).
  rewrite perform_client, Hr. unfold requesting.
  pose proof (reply_read (now (sv_rounds c)) o (sv_agent c)) as Hread.
  destruct (perform (now (sv_rounds c)) (received o) (sv_agent c)) as [r s']. cbn [fst snd] in *.
  destruct r as [a|e| |]; try done; cbn [reply_of bearable agrees] in *.
  - rewrite (call_served c req _ s' Hi Hl Hp Hb). destruct (Hread a eq_refl Hb) as (reply & -> & Ha). cbn [obind]. rewrite Ha. by eexists.
  - rewrite (call_served c req _ s' Hi Hl Hp) by done. cbn [unmarshal]. change (val (byte agentFailure) =? agentFailure) with true. cbv iota. cbn [obind].
    eexists. split; [done|]. by destruct o.
Qed.

(** Operations one after the other; the agent reads the clock of each round. *)
Fixpoint performs (n : nat) (os : list op) (s : S) : list (outcome answer) * S :=
  match os with
  | [] => ([], s)
  | o :: os => let '(r, s) := perform (now n) o s in let '(rs, s) := performs (Datatypes.S n) os s in (r :: rs, s)
  end.
Fixpoint client_performs (os : list op) (c : served S) : list (outcome answer) * served S :=
  match os with
  | [] => ([], c)
  | o :: os => let '(r, c) := perform (H := client_agent ecMarshal ModInverse) (fun _ => 0) o c in let '(rs, c) := client_performs os c in (r :: rs, c)
  end.

Lemma client_session `{!AgentLaws} os : forall c, idle c -> Forall (fun o => exists req, carried o req) os ->
  Forall bearable (performs (sv_rounds c) (map received os) (sv_agent c)).1 ->
  exists c', client_performs os c = ((client_performs os c).1, c') /\ idle c' /\ sv_agent c' = (performs (sv_rounds c) (map received os) (sv_agent c)).2 /\
    Forall2 agrees (performs (sv_rounds c) (map received os) (sv_agent c)).1 (client_performs os c).1.
Proof.
  induction os as [|o os IH]; intros c Hi Hc Hb; [by exists c|].
  apply Forall_cons in Hc as [[req Hc] Hcs]. cbn [map performs client_performs] in *.
  pose proof (client_step (fun _ => 0) o c req Hi Hc) as Hs.
  destruct (perform (now (sv_rounds c)) (received o) (sv_agent c)) as [r s'] eqn:E. cbn [fst snd] in *.
  specialize (IH (after_round c s') (idle_after c s') Hcs). cbn [after_round sv_rounds sv_agent] in IH.
  destruct (performs (Datatypes.S (sv_rounds c)) (map received os) s') as [rs s''] eqn:E2. cbn [fst snd] in *. apply Forall_cons in Hb as [Hb Hbs].
  destruct (Hs Hb) as (r' & Hr & Ha). rewrite Hr. destruct (IH Hbs) as (c' & Hc' & Hi' & Hs' & Hf).
  unfold after_round in *. destruct (client_performs os (mkServed s' (Datatypes.S (sv_rounds c)) "" "" None)) as [rs' c''] eqn:E3. cbn [fst snd] in *. injection Hc' as ->.
  exists c'. split_and!; try done. by constructor.
Qed.

(** An operation that arrives as it was issued. *)
Definition whole (o : op) : Prop :=
  match o with
  | OAdd key => ConstraintExtensions key = [] /\ (added_Certificate key = None \/ arrived (added_PrivateKey key) = added_PrivateKey key)
  | _ => True
  end.

Lemma whole_received o : whole o -> received o = o.
Proof. destruct o as [| |[k cert cm secs confirm ext]| | | |]; try done. cbn. intros [-> [-> | H]]; [done|]. rewrite H. by destruct cert. Qed.
Lemma all_whole os : Forall whole os -> map received os = os.
Proof. induction 1 as [|o os H _ IH]; [done|]. cbn. by rewrite whole_received, IH. Qed.
End Calls.

(** ** The keyring behind the protocol *)

Section OfKeyring.
Context (ecMarshal : Z -> Z -> Z -> string) (ecUnmarshal : Z -> string -> option (Z * Z)) (ModInverse : Z -> Z -> Z).
Context (hash : Hash -> string -> string) (crypto_Sign : PrivateKey -> string -> option Hash -> outcome string)
        (dsa_Sign : Z -> Z -> Z -> Z -> string -> outcome (Z * Z)) (asn1_pair : string -> outcome (Z * Z)).
#[local] Instance the_keyring : Agent keyring := keyring_agent ecMarshal hash crypto_Sign dsa_Sign asn1_pair.

(** A public key is encoded with its type first. *)
Lemma KeyMarshal_named k b ty : KeyMarshal ecMarshal k = Ok b -> Type_ k = Ok ty -> exists rest, b = field_bytes (VString ty) +:+ rest.
Proof.
  destruct k as [E N|P Q G Y|bits X Y|kb|c]; cbn [KeyMarshal Type_]; intros Hb Ht.
  - apply Ok_inj in Hb as <-. apply Ok_inj in Ht as <-. unfold rsa_Marshal. rewrite Marshal_untagged. by eexists.
  - apply Ok_inj in Hb as <-. apply Ok_inj in Ht as <-. unfold dsa_Marshal. rewrite Marshal_untagged. by eexists.
  - unfold ecdsa_Marshal in Hb. destruct (nistID bits) as [id| | |]; try done. cbn [obind] in *. apply Ok_inj in Hb as <-. apply Ok_inj in Ht as <-.
    rewrite Marshal_untagged. by eexists.
  - apply Ok_inj in Hb as <-. apply Ok_inj in Ht as <-. unfold ed25519_Marshal. rewrite Marshal_untagged. by eexists.
  - destruct c as [n key se t i p a b0 o e r sk sig]. cbn [CertMarshal] in Hb. apply obind_ok in Hb as (? & _ & Hb). apply obind_ok in Hb as (? & _ & Hb).
    rewrite Ht in Hb. cbn [obind] in Hb. apply Ok_inj in Hb as <-. unfold certPrefix. rewrite Marshal_untagged. cbn [fields_bytes]. rewrite !string_app_assoc. by eexists.
Qed.

Lemma wireKey_read ty rest : slen (field_bytes (VString ty) +:+ rest) < 2 ^ 32 ->
  Unmarshal (field_bytes (VString ty) +:+ rest) wireKey = Ok [VString ty; VRest rest].
Proof.
  intros Hl. rewrite slen_app in Hl. pose proof (Unmarshal_rest "wireKey" [("Format", KString)] [VString ty] rest) as U. cbn [app fields_bytes] in U.
  rewrite string_app_nil_r in U. apply U; try done. by repeat constructor.
Qed.

Lemma listed_named ks l : list_keys ecMarshal ks = Ok l -> Forall well_named l.
Proof.
  revert l. induction ks as [|k ks IH]; intros l; cbn [list_keys]; [by intros [= <-]|]. intros H.
  apply obind_ok in H as (ty & Ht & H). apply obind_ok in H as (b & Hb & H). apply obind_ok in H as (ids & Hi & H). apply Ok_inj in H as <-.
  constructor; [|by apply IH]. intros Hl. cbn [Key_Blob Key_Format] in *. destruct (KeyMarshal_named _ _ _ Hb Ht) as [rest ->].
  exists rest. by apply wireKey_read.
Qed.

#[export] Instance keyring_laws : AgentLaws ecMarshal (S := keyring).
Proof.
  split.
  - intros t key f b data s Hb. cbn [agent_Sign the_keyring keyring_agent]. unfold keyring_Sign, after_expiry. rewrite Hb. done.
  - intros key f b s Hb. cbn [agent_Remove the_keyring keyring_agent]. unfold Remove. rewrite Hb. done.
  - intros t s ks s'. cbn [agent_List the_keyring keyring_agent]. unfold Keyring.List, after_expiry. destruct (locked s); [by intros [= <- _]|].
    destruct (expireKeysLocked ecMarshal t s) as [r| | |]; try done. intros [= H _]. by eapply listed_named.
Qed.
End OfKeyring.

(** ** What the agent never does *)

Section Ends.
Context (ecMarshal : Z -> Z -> Z -> string) (ecUnmarshal : Z -> string -> option (Z * Z)).

(** A call that ends, with a value, an error or a panic. *)
Definition ends {A} (m : outcome A) : Prop := m <> Blocked.

Lemma ends_bind {A B} (m : outcome A) (k : A -> outcome B) : ends m -> (forall a, m = Ok a -> ends (k a)) -> ends (obind m k).
Proof. destruct m; cbn; try done. intros _ H. by apply H. Qed.

Lemma returns_ends {A} (m : outcome A) P : returns m P -> ends m.
Proof. by destruct m. Qed.

Lemma Unmarshal_ends data t : ends (Unmarshal data t).
Proof.
  destruct (decide (t_fields t = [])) as [E|E]; [unfold Unmarshal; by rewrite bool_decide_eq_true_2|eapply returns_ends; by apply Unmarshal_fields].
Qed.

Lemma plain_ends k : (forall c, k <> CertKey c) -> ends (KeyMarshal ecMarshal k) /\ ends (Type_ k).
Proof.
  intros Hk. destruct k as [E N|P Q G Y|bits X Y|b|c]; [done..| |done|by destruct (Hk c)].
  split; apply ends_bind; try done; unfold nistID; repeat case_match; done.
Qed.

Lemma cert_ends n key se t i p a b o e r sk sig :
  ends (KeyMarshal ecMarshal key) /\ ends (Type_ key) -> ends (KeyMarshal ecMarshal sk) /\ ends (Type_ sk) ->
  let k := CertKey (mkCert n key se t i p a b o e r sk sig) in ends (KeyMarshal ecMarshal k) /\ ends (Type_ k).
Proof.
  intros [H1 H2] [H3 _] k. assert (ends (Type_ k)) as H4 by (apply ends_bind; [exact H2|intros; by case_match]).
  split; [|exact H4]. apply ends_bind; [exact H3|]. intros. apply ends_bind; [exact H1|]. intros. apply ends_bind; [exact H4|]. done.
Qed.

Lemma KeyMarshal_ends k : ends (KeyMarshal ecMarshal k) /\ ends (Type_ k).
Proof.
  revert k. fix IH 1. intros [E N|P Q G Y|bits X Y|b|[n key se t i p a b o e r sk sig]]; [apply plain_ends; discriminate..|].
  exact (cert_ends n key se t i p a b o e r sk sig (IH key) (IH sk)).
Qed.

Lemma constraint_size c rest t vs : typeTags t <> [] -> Unmarshal (String c rest) t = Ok vs -> Forall (fun v => content_size v <= slen rest) vs.
Proof.
  intros Ht H. unfold Unmarshal in H. destruct (bool_decide _); [done|]. apply obind_ok in H as (d & Hd & H). destruct (typeTags t); [done|]. destruct (goodType _ _); [|done].
  apply Ok_inj in Hd as <-. apply obind_ok in H as ([vs' r] & H1 & H). destruct (r =? "")%string; [|done]. apply Ok_inj in H as <-. by eapply unmarshalFields_size.
Qed.

Lemma constraints_end fuel : forall data s c e, (String.length data < fuel)%nat -> ends (constraints_loop fuel data s c e).
Proof.
  induction fuel as [|fuel IH]; intros data s c e Hl; [lia|]. cbn [constraints_loop]. destruct data as [|ch rest]; [done|]. cbn [String.length] in Hl.
  destruct (val ch =? agentConstrainLifetime).
  { destruct (_ <? _); [done|]. apply IH. pose proof (slen_sdrop_le 4 rest). unfold slen in *. lia. }
  destruct (val ch =? agentConstrainConfirm); [apply IH; lia|]. destruct (val ch =? agentConstrainExtension); [|done].
  apply ends_bind; [apply Unmarshal_ends|]. intros vs Hv. apply constraint_size in Hv; [|done].
  destruct vs as [|[] [|[] [|[] [|]]]]; try done. apply IH. apply Forall_cons in Hv as [_ Hv]. apply Forall_cons in Hv as [_ Hv]. apply Forall_cons in Hv as [Hv _].
  cbn in Hv. unfold slen in Hv. lia.
Qed.

Lemma with_constraints_end k cert c d : ends (with_setConstraints k cert c d).
Proof. apply ends_bind; [apply constraints_end; lia|]. by intros [[] ?]. Qed.

Lemma certificate_end b name : ends (parse_certificate ecUnmarshal b name).
Proof. apply ends_bind; [eapply returns_ends, read_returns|]. by intros []. Qed.

Lemma unmarshalECDSA_end a b c : ends (unmarshalECDSA ecUnmarshal a b c).
Proof. unfold unmarshalECDSA. by repeat case_match. Qed.

Ltac ending :=
  repeat first [apply Unmarshal_ends | apply with_constraints_end | apply certificate_end | apply unmarshalECDSA_end | apply KeyMarshal_ends
    | apply ends_bind; [|intros ? ?] | progress (unfold Precompute) | done
    | match goal with |- ends (match ?x with _ => _ end) => destruct x eqn:?; try done end ].

Lemma added_key_ends req : ends (added_key ecMarshal ecUnmarshal req).
Proof.
  unfold added_key. apply ends_bind; [apply Unmarshal_ends|]. intros vs _. destruct vs as [|[] [|[] [|]]]; try done.
  unfold parse_identity. repeat case_match; unfold parseRSAKey, parseDSAKey, parseECDSAKey, parseEd25519Key, parseRSACert, parseDSACert, parseECDSACert, parseEd25519Cert;
    try done; apply ends_bind; try apply Unmarshal_ends; intros fs _; repeat (destruct fs as [|[] fs]; try done); ending.
Qed.
End Ends.

(** ** A locked agent *)

Section Locked.
Context (ecMarshal : Z -> Z -> Z -> string) (ecUnmarshal : Z -> string -> option (Z * Z)).
Context (hash : Hash -> string -> string) (crypto_Sign : PrivateKey -> string -> option Hash -> outcome string)
        (dsa_Sign : Z -> Z -> Z -> Z -> string -> outcome (Z * Z)) (asn1_pair : string -> outcome (Z * Z)).
#[local] Instance ring_agent : Agent keyring := keyring_agent ecMarshal hash crypto_Sign dsa_Sign asn1_pair.
Abbreviation processRequestBytes := (processRequestBytes ecMarshal ecUnmarshal).

(** The replies of an agent that does nothing. *)
Definition empty_replies : list string :=
  [String (byte agentFailure) ""; String (byte agentSuccess) ""; reply_bytes (AKeys []); Marshal agentV1IdentityMsg [VUint32 0]].
Definition nothing (out : outcome string) : Prop := exists b, out = Ok b /\ b ∈ empty_replies.
(** The requests that can stop the process: one without bytes, and those that add a key. *)
Definition may_panic (req : string) : Prop := req = "" \/ exists rest, req = String (byte 17) rest \/ req = String (byte 25) rest.

Lemma nothing_ok b : b ∈ empty_replies -> nothing (Ok b).
Proof. intros H. by exists b. Qed.

Definition quiet (r : keyring) (p : outcome (option (msg_type * list value)) * keyring) : Prop := p.2 = r /\ nothing (reply_data p.1).

Lemma quiet_request {A} (m : outcome A) (f : A -> keyring -> outcome (option (msg_type * list value)) * keyring) r :
  returns m (fun _ => True) -> (forall a, m = Ok a -> quiet r (f a r)) -> quiet r (on_request m f r).
Proof.
  intros He Hf. destruct m as [a|e|p|]; [|split; [done|]; apply nothing_ok; by left|by destruct He..]. by apply Hf.
Qed.

Lemma refused {A} (m : outcome A) (f : A -> keyring -> outcome unit * keyring) e r :
  returns m (fun _ => True) -> (forall a, m = Ok a -> f a r = (Err e, r)) -> quiet r (no_reply (on_request m f r)).
Proof.
  intros He Hf. destruct m as [a|e'|p|]; cbn [on_request]; [rewrite Hf by done|..|by destruct He|by destruct He];
    (split; [done|]); apply nothing_ok; by left.
Qed.

(** Reading these requests does not panic. *)
Ltac request_fields :=
  eapply returns_bind; [by apply Unmarshal_fields|]; intros vs Hf; unfold fields_of in Hf; simpl in Hf; take_fields Hf; subst; try done.
Lemma request_key_returns b : returns (request_key b) (fun _ => True).
Proof. unfold request_key. request_fields. Qed.
Lemma remove_request_returns data : returns (remove_request data) (fun _ => True).
Proof. unfold remove_request. request_fields. apply request_key_returns. Qed.
Lemma identity_sign_request_returns data : returns (identity_sign_request data) (fun _ => True).
Proof. unfold identity_sign_request. request_fields. by eapply returns_bind; [apply request_key_returns|]. Qed.
Lemma passphrase_returns t data : t_fields t = [("Passphrase", KBytes)] -> returns (passphrase_request t data) (fun _ => True).
Proof. intros Ht. unfold passphrase_request. eapply returns_bind; [apply Unmarshal_fields; by rewrite Ht|]. intros vs Hf. unfold fields_of in Hf. rewrite Ht in Hf. simpl in Hf. take_fields Hf; subst. done. Qed.

Lemma locked_request t req r : locked r = true ->
  let '(out, r') := processRequestBytes t req r in
  (r' = r /\ nothing out) \/
  (r' = r /\ (exists p, out = Panic p) /\ may_panic req) \/
  (passphrase_request agentUnlockMsg req = Ok (passphrase r) /\ out = Ok (String (byte agentSuccess) "") /\ r' = mkRing (keys r) false "").
Proof.
  intros Hl. unfold Agent.processRequestBytes.
  assert (forall p : outcome (option (msg_type * list value)) * keyring, quiet r p -> let '(out, r') := (let '(o, s) := p in (reply_data o, s)) in
    (r' = r /\ nothing out) \/ (r' = r /\ (exists p, out = Panic p) /\ may_panic req) \/
    (passphrase_request agentUnlockMsg req = Ok (passphrase r) /\ out = Ok (String (byte agentSuccess) "") /\ r' = mkRing (keys r) false "")) as Hq
    by (intros [o s] Hq; by left).
  destruct req as [|c rest]; [right; left; split; [done|]; split; [by eexists|by left]|]. unfold processRequest. cbv beta zeta. set (req := String c rest) in *.
  destruct (_ =? agentRequestV1Identities); [left; split; [done|]; apply nothing_ok; by repeat constructor|].
  destruct (_ =? agentRemoveAllV1Identities); [left; split; [done|]; apply nothing_ok; by repeat constructor|].
  destruct (_ =? agentRemoveIdentity).
  { apply Hq, (refused _ _ errLocked); [apply remove_request_returns|]. intros k _. cbn [agent_Remove ring_agent keyring_agent]. unfold Remove. by rewrite Hl. }
  destruct (_ =? agentRemoveAllIdentities).
  { apply Hq, (refused (Ok tt) (fun _ => RemoveAll) errLocked); [done|]. intros k _. unfold RemoveAll. by rewrite Hl. }
  destruct (_ =? agentLock).
  { apply Hq, (refused _ _ errLocked); [by apply passphrase_returns|]. intros k _. cbn [agent_Lock ring_agent keyring_agent]. unfold Lock. by rewrite Hl. }
  destruct (_ =? agentUnlock).
  { pose proof (passphrase_returns agentUnlockMsg req eq_refl) as He. destruct (passphrase_request agentUnlockMsg req) as [pw|e|p|] eqn:E; [| |by destruct He..].
    - cbn [on_request agent_Unlock ring_agent keyring_agent]. unfold Unlock. rewrite Hl. cbn [negb]. destruct (String.eqb_spec pw (passphrase r)) as [->|]; cbn [negb].
      + by right; right.
      + left. split; [done|]. apply nothing_ok. by left.
    - left. split; [done|]. apply nothing_ok. by left. }
  destruct (_ =? agentSignRequest).
  { apply Hq, quiet_request; [apply identity_sign_request_returns|]. intros [k d] _. cbn [agent_Sign ring_agent keyring_agent fst snd]. unfold keyring_Sign. rewrite Hl.
    split; [done|]. apply nothing_ok. by left. }
  destruct (_ =? agentRequestIdentities).
  { cbn [agent_List ring_agent keyring_agent]. unfold Keyring.List. rewrite Hl. left. split; [done|]. apply nothing_ok. by repeat constructor. }
  destruct (_ || _) eqn:Eadd.
  { unfold insertIdentity. pose proof (added_key_ends ecMarshal ecUnmarshal req) as He. destruct (added_key ecMarshal ecUnmarshal req) as [k|e|p|]; [|left; split; [done|]; apply nothing_ok; by left| |by destruct He].
    - apply Hq. apply (refused (Ok k) _ errLocked); [done|]. intros k' [= <-]. cbn [agent_Add ring_agent keyring_agent]. unfold Add. by rewrite Hl.
    - right. left. split; [done|]. split; [by eexists|]. right. exists rest. apply orb_prop in Eadd as [H|H]; apply Z.eqb_eq in H; [right|left]; unfold req; f_equal; rewrite <- (byte_val c); by rewrite H. }
  left. split; [done|]. apply nothing_ok. by left.
Qed.

(** C22: A locked agent gives nothing away: whatever bytes come as a request, the reply
    is a failure, an empty list or an answer of version 1 without content, and the keys
    stay as they are and locked; unless the request is to unlock with the passphrase of
    the lock. Only a request without bytes or to add a key can stop the server's process
    instead of being answered, and it changes nothing. *)
Theorem locked_agent_reveals_nothing t req r : locked r = true ->
  let '(out, r') := processRequestBytes t req r in
  (r' = r /\ nothing out) \/
  (r' = r /\ (exists p, out = Panic p) /\ may_panic req) \/
  (passphrase_request agentUnlockMsg req = Ok (passphrase r) /\ out = Ok (String (byte agentSuccess) "") /\ r' = mkRing (keys r) false "").
Proof. apply locked_request. Qed.
End Locked.

(** ** Signatures of an agent *)

Section Signatures.
Context (ecMarshal : Z -> Z -> Z -> string) (ecUnmarshal : Z -> string -> option (Z * Z)).
Context (hash : Hash -> string -> string) (crypto_Sign : PrivateKey -> string -> option Hash -> outcome string)
        (dsa_Sign : Z -> Z -> Z -> Z -> string -> outcome (Z * Z)) (asn1_pair : string -> outcome (Z * Z)).
Context (rsa_verify : Z -> Z -> string -> string -> error_) (dsa_verify : Z -> Z -> Z -> Z -> string -> Z -> Z -> bool)
        (ecdsa_verify : Z -> Z -> Z -> string -> Z -> Z -> bool) (ed25519_equation : string -> string -> string -> bool).
Context (key_pair : PrivateKey -> Prop).
#[local] Instance signing_agent : Agent keyring := keyring_agent ecMarshal hash crypto_Sign dsa_Sign asn1_pair.
Abbreviation Verify := (Keys.Verify rsa_verify dsa_verify ecdsa_verify ed25519_equation).
Abbreviation made := (made ecMarshal ecUnmarshal key_pair).
Abbreviation schemes := (schemes hash crypto_Sign dsa_Sign asn1_pair rsa_verify dsa_verify ecdsa_verify ed25519_equation key_pair).

(** A public key that is read back from its bytes. *)
Definition readable_key (k : PublicKey) : Prop := wf_key ecMarshal ecUnmarshal k /\ forall b, KeyMarshal ecMarshal k = Ok b -> slen b < 2 ^ 32.

(** The keyring holds signers that the library made, with such keys. *)
Definition ring_ok (r : keyring) : Prop := Forall (fun p => made (signer p) /\ readable_key (signer_PublicKey (signer p))) (keys r).

(** The operations of a caller: the keys that are added are pairs, with certificates
    and public halves that can be read. *)
Definition key_added (key : AddedKey) : Prop :=
  key_pair (added_PrivateKey key) /\ valid (added_PrivateKey key) /\
  (forall s, NewSignerFromKey (added_PrivateKey key) = Ok s -> readable_key (signer_PublicKey s)) /\
  match added_Certificate key with Some cert => readable_key (CertKey cert) | None => True end.
Definition op_ok (o : op) : Prop :=
  match o with
  | OAdd key => key_added key
  | OSign (SshKey k) _ => readable_key k
  | _ => True
  end.

Lemma ring_encodable r : ring_ok r -> Forall (encodable ecMarshal) (keys r).
Proof.
  intros H. eapply Forall_impl; [exact H|]. intros p [_ [Hw _]]. destruct (wf_readable _ _ _ Hw) as (ty & body & _ & Hk & _). by eexists.
Qed.

Lemma ring_subset r ks l p : ring_ok r -> (forall k, k ∈ ks -> k ∈ keys r) -> ring_ok (mkRing ks l p).
Proof. unfold ring_ok. rewrite !Forall_forall. auto. Qed.

Lemma expired_ok now r r' : ring_ok r -> expireKeysLocked ecMarshal now r = Ok r' -> ring_ok r'.
Proof.
  intros H E. pose proof (expire_old ecMarshal now r r' (ring_encodable r H) E) as Hs. unfold ring_ok in *. rewrite Forall_forall in *. auto.
Qed.

Lemma sign_with_own ks wanted data sig : sign_with ecMarshal hash crypto_Sign dsa_Sign asn1_pair ks wanted data = Ok sig ->
  exists k, k ∈ ks /\ blob ecMarshal k = Ok wanted /\ Sign hash crypto_Sign dsa_Sign asn1_pair (signer k) data = Ok sig.
Proof.
  induction ks as [|k ks IH]; cbn [sign_with]; [done|]. intros H. apply obind_ok in H as (b & Hb & H).
  destruct (String.eqb_spec b wanted) as [->|]; [exists k; split; [by left|done]|].
  destruct (IH H) as (k' & Hk & Hk'). exists k'. split; [by right|done].
Qed.

Lemma Add_ok t key r : ring_ok r -> key_added key -> ring_ok (Add ecMarshal t key r).2.
Proof.
  intros H (Hk & Hv & Hp & Hc). unfold Add. destruct (locked r); [done|].
  destruct (NewSignerFromKey (added_PrivateKey key)) as [s|e|p|] eqn:E; cbn [obind]; try done.
  assert (made s /\ readable_key (signer_PublicKey s)) as Hs by (split; [by eapply made_key|by apply Hp]).
  assert (forall s', made s' /\ readable_key (signer_PublicKey s') -> forall e, ring_ok (mkRing (keys r ++ [mkPriv s' (added_Comment key) e]) (locked r) (passphrase r))) as Ha.
  { intros s' Hs' e. unfold ring_ok. cbn [keys]. apply Forall_app. split; [done|]. by apply Forall_singleton. }
  destruct (added_Certificate key) as [cert|]; [|by apply Ha].
  destruct (NewCertSigner ecMarshal cert s) as [s'|e|p|] eqn:E2; try done. apply Ha.
  destruct Hs as [Hm [Hw Hl]], Hc as [Hcw Hcl]. pose proof E2 as E3. unfold NewCertSigner in E3. apply obind_ok in E3 as (b & Hb & E3).
  apply obind_ok in E3 as (b' & Hb' & E3). destruct (negb _); [done|]. apply Ok_inj in E3 as <-. split; [|done].
  destruct (cert_wf ecMarshal ecUnmarshal cert Hcw) as [Hpl Hsz]. exact (made_cert _ _ _ cert s _ b Hm Hpl Hw Hb (Hsz b Hb) E2).
Qed.

Lemma remove_ok key r : ring_ok r -> ring_ok (Remove ecMarshal key r).2.
Proof.
  intros H. unfold Remove. destruct (locked r); [done|]. destruct (any_Marshal ecMarshal key) as [want|e|p|]; cbn [obind]; try done.
  destruct (removeLocked_spec ecMarshal want (keys r) (List.length (keys r))) as (arr & len & [_ _ _ _ Ho] & ->); [lia|by apply ring_encodable|].
  cbn [snd]. eapply ring_subset; [exact H|]. intros k Hk. apply Ho. apply elem_of_take in Hk as (i & Hi & _). apply list_elem_of_lookup. eauto.
Qed.

Lemma perform_ok t o r : ring_ok r -> op_ok o -> ring_ok (perform t o r).2.
Proof.
  intros H Ho.
  assert (forall A (f : keyring -> outcome A), ring_ok (after_expiry ecMarshal t r f).2) as Hx.
  { intros A f. unfold after_expiry. destruct (expireKeysLocked ecMarshal t r) eqn:E; cbn [snd]; [by eapply expired_ok|done..]. }
  destruct o as [|key data|key|key| |pw|pw]; cbn [perform answered agent_List agent_Sign agent_Add agent_Remove agent_RemoveAll agent_Lock agent_Unlock signing_agent keyring_agent].
  - unfold Keyring.List, answered. destruct (locked r); [done|]. apply Hx.
  - unfold keyring_Sign, answered. destruct (locked r); [done|]. apply Hx.
  - by apply Add_ok.
  - by apply remove_ok.
  - unfold RemoveAll, answered. destruct (locked r); [done|]. by apply Forall_nil.
  - unfold Lock, answered. by destruct (locked r).
  - unfold Unlock, answered. destruct (negb (locked r)); [done|]. by destruct (negb _).
Qed.

Lemma signature_of t k data r sig : schemes -> ring_ok r -> readable_key k -> (keyring_Sign ecMarshal hash crypto_Sign dsa_Sign asn1_pair t (SshKey k) data r).1 = Ok sig ->
  Verify k data sig = Ok tt.
Proof.
  intros HS H [Hw Hsz]. unfold keyring_Sign, after_expiry. destruct (locked r); [done|].
  destruct (expireKeysLocked ecMarshal t r) as [r'|e|p|] eqn:E; try done. cbn [fst any_Marshal]. pose proof (expired_ok _ _ _ H E) as H'.
  intros Hs. apply obind_ok in Hs as (wanted & Hm & Hs). apply sign_with_own in Hs as (p & Hp & Hb & Hs).
  unfold ring_ok in H'. rewrite Forall_forall in H'. destruct (H' p Hp) as [Hmade [Hwp _]].
  assert (k = signer_PublicKey (signer p)) as ->.
  { pose proof (wf_read ecMarshal ecUnmarshal _ _ Hw Hm (Hsz _ Hm)) as E1.
    rewrite (wf_read ecMarshal ecUnmarshal _ _ Hwp Hb (Hsz _ Hm)) in E1. by injection E1. }
  exact (made_verifies ecMarshal ecUnmarshal hash crypto_Sign dsa_Sign asn1_pair rsa_verify dsa_verify ecdsa_verify ed25519_equation key_pair _ data sig HS Hmade Hs).
Qed.

(** Operations one after the other, with what they answer. *)
Fixpoint run (now : nat -> nat -> Z) (n : nat) (os : list op) (r : keyring) : list (op * outcome answer) :=
  match os with [] => [] | o :: os => (o, (perform (now n) o r).1) :: run now (S n) os (perform (now n) o r).2 end.

Lemma run_signs now : schemes -> forall os n r, ring_ok r -> Forall op_ok os ->
  Forall (fun oa => match oa with (OSign (SshKey k) data, Ok (ASig sig)) => Verify k data sig = Ok tt | _ => True end) (run now n os r).
Proof.
  intros HS os. induction os as [|o os IH]; intros n r H Ho; cbn [run]; [by apply Forall_nil|]. apply Forall_cons in Ho as [Ho Hos].
  apply Forall_cons. split; [|apply IH; [by apply perform_ok|done]].
  destruct o as [|[k|k] data|key|key| |pw|pw]; try done. destruct (perform (now n) (OSign (SshKey k) data) r).1 as [[l|sig|]|e|p|] eqn:E; try done.
  cbn [perform] in E. apply answered_ok in E as (sig' & E & [= <-]). exact (signature_of (now n) k data r sig HS H Ho E).
Qed.

(** C33: What an agent signs verifies: after any operations on a new keyring, with
    certificates, locks, removals and keys that expire in between, a signature that it
    gives for a public key verifies under this public key. *)
Theorem agent_signatures_verify now os k data sig : schemes -> Forall op_ok os ->
  (OSign (SshKey k) data, Ok (ASig sig)) ∈ run now 0 os NewKeyring -> Verify k data sig = Ok tt.
Proof.
  intros HS Ho Hin. pose proof (run_signs now HS os 0 NewKeyring ltac:(by apply Forall_nil) Ho) as Hr. rewrite Forall_forall in Hr. exact (Hr _ Hin).
Qed.
End Signatures.

(** ** The properties of the protocol *)

(** C21: The client at the end of a connection that [ServeAgent] serves is the agent
    behind it, for any agent that keeps to the interface and any operations that the
    protocol carries whole, one after the other: the client's answers are the agent's
    (up to the texts of errors), and the agent is left in the same state. Not carried
    whole are an Add with extensions of constraints, which the client drops, and an RSA
    key with a certificate, whose primes arrive swapped. *)
Theorem client_is_agent ecMarshal ecUnmarshal ModInverse {S} `{A : Agent S} `{!AgentLaws ecMarshal} now os (s : S) :
  Forall (fun o => exists req, carried ecMarshal ecUnmarshal ModInverse o req) os -> Forall whole os -> Forall bearable (performs now 0 os s).1 ->
  exists rs c, client_performs ecMarshal ecUnmarshal ModInverse now os (mkServed s 0 "" "" None) = (rs, c) /\
    sv_agent c = (performs now 0 os s).2 /\ Forall2 agrees (performs now 0 os s).1 rs.
Proof.
  intros Hc Hw Hb. destruct (client_session ecMarshal ecUnmarshal ModInverse now os (mkServed s 0 "" "" None)) as (c & E & _ & Hs & Hf); [done|done| |].
  - by rewrite all_whole.
  - rewrite all_whole in Hs, Hf by done. eexists _, c. by split_and!.
Qed.

(** What is not carried whole: the agent carries out the operation as it arrives. *)
Theorem client_is_agent_as_received ecMarshal ecUnmarshal ModInverse {S} `{A : Agent S} `{!AgentLaws ecMarshal} now os (s : S) :
  Forall (fun o => exists req, carried ecMarshal ecUnmarshal ModInverse o req) os -> Forall bearable (performs now 0 (map received os) s).1 ->
  exists rs c, client_performs ecMarshal ecUnmarshal ModInverse now os (mkServed s 0 "" "" None) = (rs, c) /\
    sv_agent c = (performs now 0 (map received os) s).2 /\ Forall2 agrees (performs now 0 (map received os) s).1 rs.
Proof.
  intros Hc Hb. destruct (client_session ecMarshal ecUnmarshal ModInverse now os (mkServed s 0 "" "" None)) as (c & E & _ & Hs & Hf); [done|done|done|].
  eexists _, c. by split_and!.
Qed.

Section Serving.
Context (ecMarshal : Z -> Z -> Z -> string) (ecUnmarshal : Z -> string -> option (Z * Z)).
Context {S : Type} `{A : Agent S}.

Lemma answered_ends {T B} (f : B -> answer) (r : outcome B * T) : ends (answered f r).1 -> ends r.1.
Proof. by destruct r as [[| | |] ?]. Qed.

Lemma request_ends t data s : (forall o s, ends (perform t o s).1) -> ends (processRequestBytes ecMarshal ecUnmarshal t data s).1.
Proof.
  intros H.
  assert (forall B (m : outcome B) (f : B -> S -> outcome unit * S), ends m -> (forall b s, ends (f b s).1) -> ends (no_reply (on_request m f s)).1) as Hn.
  { intros B m f Hm Hf. destruct m as [b| | |]; cbn [on_request]; [|done..]. specialize (Hf b s). destruct (f b s) as [[| | |] ?]; done. }
  assert (forall (f : outcome unit * S), ends f.1 -> ends (no_reply f).1) as Hr by (by intros [[| | |] ?]).
  assert (ends (processRequest ecMarshal ecUnmarshal t data s).1) as He.
  { unfold processRequest. destruct data as [|c rest]; [done|]. cbv beta zeta.
    destruct (_ =? agentRequestV1Identities); [done|]. destruct (_ =? agentRemoveAllV1Identities); [done|].
    destruct (_ =? agentRemoveIdentity). { apply Hn; [eapply returns_ends, remove_request_returns|]. intros k s'. exact (answered_ends _ _ (H (ORemove (OfAgent k)) s')). }
    destruct (_ =? agentRemoveAllIdentities). { apply Hr. exact (answered_ends _ _ (H ORemoveAll s)). }
    destruct (_ =? agentLock). { apply Hn; [by eapply returns_ends, passphrase_returns|]. intros k s'. exact (answered_ends _ _ (H (OLock k) s')). }
    destruct (_ =? agentUnlock). { apply Hn; [by eapply returns_ends, passphrase_returns|]. intros k s'. exact (answered_ends _ _ (H (OUnlock k) s')). }
    destruct (_ =? agentSignRequest).
    { pose proof (returns_ends _ _ (identity_sign_request_returns (String c rest))) as Hs. destruct (identity_sign_request (String c rest)) as [[k d]| | |]; cbn [on_request]; [|done..].
      specialize (H (OSign (OfAgent k) d) s). cbn [perform fst snd] in *. by destruct (agent_Sign t (OfAgent k) d s) as [[| | |] ?]. }
    destruct (_ =? agentRequestIdentities). { specialize (H OList s). cbn [perform] in H. by destruct (agent_List t s) as [[| | |] ?]. }
    destruct (_ || _); [|done]. unfold insertIdentity. apply Hn; [apply added_key_ends|]. intros k s'. exact (answered_ends _ _ (H (OAdd k) s')). }
  unfold processRequestBytes. destruct (processRequest ecMarshal ecUnmarshal t data s) as [[[[? ?]|]| | |] ?]; done.
Qed.

Lemma serve_loop_ends now : (forall n o s, ends (perform (now n) o s).1) ->
  forall fuel n inp out s, (String.length inp < fuel)%nat -> ends (serve_loop ecMarshal ecUnmarshal fuel n now inp out s).
Proof.
  intros H fuel. induction fuel as [|fuel IH]; intros n inp out s Hl; [lia|]. cbn [serve_loop]. unfold serve_one.
  destruct (Z.ltb_spec (slen inp) 4) as [|H4]; [done|]. cbv zeta. destruct (maxAgentResponseBytes <? _); [done|]. destruct (slen (sdrop 4 inp) <? _); [done|].
  match goal with |- context [processRequestBytes ?a ?b ?c ?d ?e] => pose proof (request_ends c d e (H n)) as Hr; destruct (processRequestBytes a b c d e) as [[rep|e'|p|] s'] end;
    try done. destruct (maxAgentResponseBytes <? slen rep); [done|]. apply IH.
  pose proof (slen_sdrop_le (Z.to_nat (be (stake 4 inp))) (sdrop 4 inp)) as Hd.
  assert (slen (sdrop 4 inp) = slen inp - 4) as E; [|unfold slen in *; lia].
  pose proof (stake_sdrop 4 inp) as Es. apply (f_equal slen) in Es. rewrite slen_app in Es.
  assert (slen (stake 4 inp) = 4) as E4 by (unfold slen in *; rewrite stake_length; lia). lia.
Qed.

(** [ServeAgent] ends on every input, whatever bytes it consists of: it returns
    with an error and what it wrote, or it panics, if the agent's operations end. *)
Theorem ServeAgent_ends now inp s : (forall n o s, ends (perform (now n) o s).1) ->
  (exists e out s', ServeAgent ecMarshal ecUnmarshal now inp s = Ok (e, out, s')) \/ exists p, ServeAgent ecMarshal ecUnmarshal now inp s = Panic p.
Proof.
  intros H. pose proof (serve_loop_ends now H (Datatypes.S (String.length inp)) 0 inp "" s ltac:(lia)) as He. unfold ServeAgent.
  assert (forall e, serve_loop ecMarshal ecUnmarshal (Datatypes.S (String.length inp)) 0 now inp "" s <> Err e) as Hx.
  { generalize (Datatypes.S (String.length inp)) as f, 0%nat as n, "" as out. intros f. clear He. revert inp s. induction f as [|f IH]; intros inp s n out e; [done|].
    cbn [serve_loop]. destruct (serve_one _ _ _ _ _); try done. }
  destruct (serve_loop _ _ _ _ _ _ _ _) as [[[e out] s']|e|p|] eqn:E; [left; by eexists _, _, _|by destruct (Hx e)|right; by eexists|by destruct He].
Qed.
End Serving.

(** The operations of a keyring end when the signing of the standard library does. *)
Section KeyringEnds.
Context (ecMarshal : Z -> Z -> Z -> string).
Context (hash : Hash -> string -> string) (crypto_Sign : PrivateKey -> string -> option Hash -> outcome string)
        (dsa_Sign : Z -> Z -> Z -> Z -> string -> outcome (Z * Z)) (asn1_pair : string -> outcome (Z * Z)).
Context (crypto_ends : forall k s h, ends (crypto_Sign k s h)) (dsa_ends : forall P Q G X s, ends (dsa_Sign P Q G X s)) (asn1_ends : forall s, ends (asn1_pair s)).
#[local] Instance ending_agent : Agent keyring := keyring_agent ecMarshal hash crypto_Sign dsa_Sign asn1_pair.

Lemma blob_ends k : ends (blob ecMarshal k).
Proof. apply KeyMarshal_ends. Qed.

Lemma remove_loop_ends want fuel : forall i found arr len, (len - i < fuel)%nat -> ends (remove_loop ecMarshal fuel i found arr len want).
Proof.
  induction fuel as [|fuel IH]; intros i found arr len Hl; [lia|]. cbn [remove_loop]. destruct (Nat.ltb_spec i len); [|done].
  destruct (arr !! i) as [k|]; [|done]. destruct (arr !! (len - 1)%nat); [|done]. apply ends_bind; [apply blob_ends|]. intros b _.
  destruct (b =? want)%string; apply IH; lia.
Qed.

Lemma removeLocked_ends arr len want : ends (removeLocked ecMarshal arr len want).
Proof. apply ends_bind; [apply remove_loop_ends; lia|]. by intros [[] ?] _. Qed.

Lemma expire_loop_ends n : forall i now arr len, ends (expire_loop ecMarshal n i now arr len).
Proof.
  induction n as [|n IH]; intros i now arr len; cbn [expire_loop]; [done|]. destruct (arr !! i) as [k|]; [|done]. destruct (expired _ k); [|apply IH].
  apply ends_bind; [apply blob_ends|]. intros b _. apply ends_bind; [apply removeLocked_ends|]. intros [[] ?] _. apply IH.
Qed.

Lemma expiry_ends {B} now r (f : keyring -> outcome B) : (forall r, ends (f r)) -> ends (after_expiry ecMarshal now r f).1.
Proof.
  intros Hf. unfold after_expiry. assert (ends (expireKeysLocked ecMarshal now r)) as He by (apply ends_bind; [apply expire_loop_ends|by intros []]).
  destruct (expireKeysLocked ecMarshal now r); try done. apply Hf.
Qed.

Lemma dsa_blob_ends r s : ends (dsa_blob r s).
Proof. unfold dsa_blob, overwrite. destruct (_ <? 0); [done|]. cbn [obind]. by destruct (_ <? 0). Qed.

Lemma Sign_ends s data : ends (Sign hash crypto_Sign dsa_Sign asn1_pair s data).
Proof.
  induction s as [k pk|P Q G Y X|cert s IH]; cbn [Sign]; [| |exact IH].
  - unfold wrapped_Sign. apply ends_bind; [by destruct pk|]. intros h _. apply ends_bind; [apply crypto_ends|]. intros sg _.
    apply ends_bind; [|intros; apply ends_bind; [apply KeyMarshal_ends; exact (fun _ _ _ => "")|done]].
    destruct pk; try done; (apply ends_bind; [apply asn1_ends|]); intros [r s] _; [apply dsa_blob_ends|done].
  - unfold dsa_signer_Sign. apply ends_bind; [apply dsa_ends|]. intros [r s] _. apply ends_bind; [apply dsa_blob_ends|done].
Qed.

Lemma sign_with_ends ks wanted data : ends (sign_with ecMarshal hash crypto_Sign dsa_Sign asn1_pair ks wanted data).
Proof.
  induction ks as [|k ks IH]; cbn [sign_with]; [done|]. apply ends_bind; [apply blob_ends|]. intros b _. destruct (b =? wanted)%string; [apply Sign_ends|apply IH].
Qed.

Lemma list_keys_ends ks : ends (list_keys ecMarshal ks).
Proof.
  induction ks as [|k ks IH]; cbn [list_keys]; [done|]. apply ends_bind; [apply (KeyMarshal_ends ecMarshal)|]. intros ty _.
  apply ends_bind; [apply blob_ends|]. intros b _. apply ends_bind; [exact IH|done].
Qed.

Lemma any_Marshal_ends k : ends (any_Marshal ecMarshal k).
Proof. destruct k; [apply KeyMarshal_ends|done]. Qed.

Lemma NewSigner_ends k : ends (NewSignerFromKey k).
Proof.
  unfold NewSignerFromKey. apply ends_bind.
  - destruct k; try done. cbn [Public]. apply ends_bind; [unfold ed25519_Public; by case_match|done].
  - intros [p|] _; [|by destruct k]. apply ends_bind; [|done]. destruct p; try done. cbn [NewPublicKey]. by case_match.
Qed.

Lemma keyring_ends t o s : ends (perform t o s).1.
Proof.
  assert (forall B (f : B -> answer) (r : outcome B * keyring), ends r.1 -> ends (answered f r).1) as Ha by (by intros B f [[| | |] ?]).
  destruct o as [|key data|key|key| |pw|pw]; apply Ha; cbn [agent_List agent_Sign agent_Add agent_Remove agent_RemoveAll agent_Lock agent_Unlock ending_agent keyring_agent].
  - unfold Keyring.List. destruct (locked s); [done|]. apply expiry_ends. intros r. apply list_keys_ends.
  - unfold keyring_Sign. destruct (locked s); [done|]. apply expiry_ends. intros r. apply ends_bind; [apply any_Marshal_ends|]. intros w _. apply sign_with_ends.
  - unfold Add. destruct (locked s); [done|].
    match goal with |- context [match ?m with Ok _ => _ | _ => _ end] => assert (ends m) as Hm; [|by destruct m] end.
    apply ends_bind; [apply NewSigner_ends|]. intros sg _. destruct (added_Certificate key) as [cert|]; [|done].
    apply ends_bind; [apply KeyMarshal_ends|]. intros a _. apply ends_bind; [apply KeyMarshal_ends|]. intros b _. by case_match.
  - unfold Remove. destruct (locked s); [done|].
    match goal with |- context [match ?m with Ok _ => _ | _ => _ end] => assert (ends m) as Hm; [|by destruct m as [[[[]]]| | |]] end.
    apply ends_bind; [apply any_Marshal_ends|]. intros w _. apply removeLocked_ends.
  - unfold RemoveAll. by destruct (locked s).
  - unfold Lock. by destruct (locked s).
  - unfold Unlock. destruct (negb (locked s)); [done|]. by destruct (negb _).
Qed.
End KeyringEnds.

(** ** What goes wrong *)

Section Faults.
Context (ecMarshal : Z -> Z -> Z -> string) (ecUnmarshal : Z -> string -> option (Z * Z)).

(** A request without bytes stops the agent's process. *)
Theorem empty_request_panics {S} `{A : Agent S} now s : ServeAgent ecMarshal ecUnmarshal now (be_bytes 4 0) s = Panic index_panic.
Proof. reflexivity. Qed.

(** So does a lifetime of fewer than four bytes. *)
Theorem short_lifetime_panics b : slen b < 4 -> parseConstraints (String (byte 1) b) = Panic bounds_panic.
Proof.
  intros H. unfold parseConstraints. cbn [constraints_loop String.length]. change (val (byte 1) =? agentConstrainLifetime) with true. cbv iota.
  rewrite slen_first. by destruct (Z.ltb_spec (1 + slen b) 5); [|lia].
Qed.

(** And an ed25519 key that is too short: the keyring asks it for its public half. *)
Theorem short_ed25519_key_panics now key b r : added_PrivateKey key = ED25519Private b -> slen b < 32 -> locked r = false ->
  (Add ecMarshal now key r).1 = Panic bounds_panic.
Proof.
  intros Hk Hl Hr. unfold Add. rewrite Hr, Hk. unfold NewSignerFromKey. cbn [Public]. unfold ed25519_Public.
  by destruct (Z.ltb_spec (slen b) 32); [|lia].
Qed.

(** A reply of success to a list or a signature stops the client's process. *)
Theorem unexpected_success_panics : listed (successAgentMsg, []) = Panic "unreachable" /\ signed (successAgentMsg, []) = Panic "unreachable".
Proof. by split. Qed.
End Faults.

(** ** Witnesses *)

Definition demo_public : PublicKey := DSA 23 11 2 18.
Definition demo_added (secs : Z) : AddedKey := mkAdded demo_dsa None "me" secs false [].
Definition demo_ops : list op :=
  [OAdd (demo_added 0); OList; OSign (SshKey demo_public) "data"; OLock "secret"; OSign (SshKey demo_public) "data"; OUnlock "secret"; ORemove (SshKey demo_public); OList].
#[local] Instance demo_ring_agent : Agent keyring := keyring_agent demo_ecMarshal demo_hash demo_no_sign demo_dsa_Sign demo_no_pair.

Lemma demo_carried : Forall (fun o => exists req, carried demo_ecMarshal demo_ecUnmarshal (fun _ _ => 0) o req) demo_ops.
Proof.
  assert (key_named demo_ecMarshal (SshKey demo_public)) as Hn by (eexists; split; [reflexivity|]; eexists _, _; vm_compute; reflexivity).
  unfold demo_ops. repeat (apply List.Forall_cons; [eexists; split; [vm_compute; reflexivity|split; [vm_compute; discriminate|]]; try exact I; try exact Hn|]);
    [|apply List.Forall_nil].
  split; [vm_compute; split; discriminate || reflexivity|]. split; exact I.
Qed.

Lemma client_is_agent_witness : exists rs c,
  client_performs (A := demo_ring_agent) demo_ecMarshal demo_ecUnmarshal (fun _ _ => 0) (fun _ _ => 7) demo_ops (mkServed NewKeyring 0 "" "" None) = (rs, c) /\
  sv_agent c = NewKeyring /\ Forall2 agrees (performs (A := demo_ring_agent) (fun _ _ => 7) 0 demo_ops NewKeyring).1 rs.
Proof.
  destruct (client_is_agent (A := demo_ring_agent) demo_ecMarshal demo_ecUnmarshal (fun _ _ => 0) (fun _ _ => 7) demo_ops NewKeyring) as (rs & c & E & Hs & Hf).
  - exact demo_carried.
  - unfold demo_ops. repeat (apply List.Forall_cons; [first [exact I|split; [reflexivity|left; reflexivity]]|]). apply List.Forall_nil.
  - match goal with |- Forall _ ?l => let v := eval vm_compute in l in change l with v end.
    repeat (apply List.Forall_cons; [first [exact I|vm_compute; discriminate]|]). apply List.Forall_nil.
  - exists rs, c. split; [exact E|]. split; [rewrite Hs; vm_compute; reflexivity|exact Hf].
Defined.

Lemma locked_agent_reveals_nothing_witness :
  let '(out, r') := processRequestBytes (A := demo_ring_agent) demo_ecMarshal demo_ecUnmarshal (fun _ => 7) (String (byte 11) "") (mkRing [demo_entry "a" None] true "secret") in
  r' = mkRing [demo_entry "a" None] true "secret" /\ nothing out.
Proof.
  destruct (locked_agent_reveals_nothing demo_ecMarshal demo_ecUnmarshal demo_hash demo_no_sign demo_dsa_Sign demo_no_pair (fun _ => 7) (String (byte 11) "")
           (mkRing [demo_entry "a" None] true "secret") eq_refl) as [H|[(_ & [p H] & _)|(H & _)]]; [exact H|discriminate H|vm_compute in H; discriminate H].
Defined.

Definition demo_log : list (op * outcome answer) :=
  run demo_ecMarshal demo_hash demo_no_sign demo_dsa_Sign demo_no_pair (fun _ _ => 7) 0 demo_ops NewKeyring.

Lemma agent_signatures_verify_witness : exists sig, (OSign (SshKey demo_public) "data", Ok (ASig sig)) ∈ demo_log /\
  Keys.Verify (fun _ _ _ _ => None) demo_dsa_verify demo_no_ecdsa demo_ed_verify demo_public "data" sig = Ok tt.
Proof.
  exists (mkSignature KeyAlgoDSA (be_bytes 20 3 +:+ be_bytes 20 5)).
  assert ((OSign (SshKey demo_public) "data", Ok (ASig (mkSignature KeyAlgoDSA (be_bytes 20 3 +:+ be_bytes 20 5)))) ∈ demo_log) as Hin.
  { vm_compute. do 2 apply list_elem_of_further. apply list_elem_of_here. }
  split; [exact Hin|].
  apply (agent_signatures_verify demo_ecMarshal demo_ecUnmarshal demo_hash demo_no_sign demo_dsa_Sign demo_no_pair
           (fun _ _ _ _ => None) demo_dsa_verify demo_no_ecdsa demo_ed_verify (fun k => k = demo_dsa) (fun _ _ => 7) demo_ops).
  - split; try (intros; done). intros P Q G Y X data r s [= -> -> -> -> ->] [= <- <-]. split; [lia|]. split; [lia|done].
  - assert (readable_key demo_ecMarshal demo_ecUnmarshal demo_public) as Hr by (split; [exact I|intros b Hb; apply Ok_inj in Hb as <-; vm_compute; reflexivity]).
    assert (key_added demo_ecMarshal demo_ecUnmarshal (fun k => k = demo_dsa) (demo_added 0)) as Ha.
    { split; [done|]. split; [vm_compute; discriminate|]. split; [|exact I]. intros s Hs. apply Ok_inj in Hs as <-. exact Hr. }
    unfold demo_ops. repeat (apply List.Forall_cons; [first [exact I|exact Hr|exact Ha]|]). apply List.Forall_nil.
  - exact Hin.
Defined.

Lemma ServeAgent_ends_witness :
  (exists e out s', ServeAgent demo_ecMarshal demo_ecUnmarshal (fun _ _ => 7) (be_bytes 4 1 +:+ String (byte 11) "") NewKeyring = Ok (e, out, s')) \/
  exists p, ServeAgent demo_ecMarshal demo_ecUnmarshal (fun _ _ => 7) (be_bytes 4 1 +:+ String (byte 11) "") NewKeyring = Panic p.
Proof.
  apply ServeAgent_ends. intros n o s. by apply keyring_ends.
Defined.
