(* ===== verification/AgentForward.v ===== *)
(** Forwarding of an agent (xendor/github.com/glycerine/xcryptossh/agent/forward.go): the
    request, the two handlers of the channels that a server opens, and one keyring that is
    served on many channels at a time. *)
From S2P Require Import Prelude.
From S2P Require Import GoStrings.
From S2P Require Import Wire.
From S2P Require Import Channel.
From S2P Require Import Mux.
From S2P Require Import Forwards.
From S2P Require Import Keys.
From S2P Require Import AuthorizedKeys.
From S2P Require Import KexAlgo.
From S2P Require Import Signers.
From S2P Require Import Keyring.
From S2P Require Import Agent.

Definition agentChannelType : string := "auth-agent@openssh.com".
Definition already_handled : string := "agent: already have handler for " +:+ agentChannelType.

(** [RequestAgentForwarding] on what SendRequest of the session answers. *)
Definition RequestAgentForwarding (SendRequest : string -> bool -> string -> outcome bool) : outcome unit :=
  let? ok := SendRequest "auth-agent-req@openssh.com" true "" in
  if ok then Ok tt else Err "forwarding request denied".

(** The error, and whether a goroutine goes over the channels: it does also over the closed
    Go channel of a client that has ended, where it finds none. *)
Definition ForwardToAgent (h : handlers) : handlers * outcome unit :=
  match HandleChannelOpen agentChannelType h with
  | (h, NilHandler) => (h, Err already_handled)
  | (h, _) => (h, Ok tt)
  end.

(** [ForwardToRemote]: the socket of the agent is tried after the handler is in place. *)
Definition ForwardToRemote (dial : error_) (h : handlers) : handlers * outcome unit :=
  match HandleChannelOpen agentChannelType h with
  | (h, NilHandler) => (h, Err already_handled)
  | (h, _) => (h, match dial with Some e => Err e | None => Ok tt end)
  end.

(** ** One agent on many channels *)

(** An accepted channel: what has come and was not served, the replies, whether it is closed. *)
Record agent_channel := mkAgentChannel { input : string; replies : list string; finished : bool }.

Section Serving.
Context (ecMarshal : Z -> Z -> Z -> string) (ecUnmarshal : Z -> string -> option (Z * Z)).
Context {S : Type} `{A : Agent S} (now : nat -> nat -> Z).

(** The agent, the channels, the requests that were served, the last first. *)
Record forwarding := mkForwarding { agent : S; channels : list agent_channel; requests : list string }.

(** The request at the start of the input. *)
Definition request_of (inp : string) : string := stake (Z.to_nat (be (stake 4 inp))) (sdrop 4 inp).

Definition round_at (s : forwarding) (c : agent_channel) : round :=
  serve_one ecMarshal ecUnmarshal (now (List.length (requests s))) (input c) (agent s).

(** The goroutines of ForwardToAgent: a channel is accepted; bytes arrive on one; the server
    of one answers a request, or ends with an error or at the end of the input and closes the
    channel. *)
Inductive forward_step : forwarding -> forwarding -> Prop :=
| f_accept s : forward_step s (mkForwarding (agent s) (channels s ++ [mkAgentChannel "" [] false]) (requests s))
| f_arrive s i c b : channels s !! i = Some c ->
    forward_step s (mkForwarding (agent s) (<[i := mkAgentChannel (input c +:+ b) (replies c) (finished c)]> (channels s)) (requests s))
| f_serve s i c reply rest a : channels s !! i = Some c -> finished c = false -> round_at s c = Replied reply rest a ->
    forward_step s (mkForwarding a (<[i := mkAgentChannel rest (replies c ++ [reply]) false]> (channels s)) (request_of (input c) :: requests s))
| f_error s i c e a : channels s !! i = Some c -> finished c = false -> round_at s c = Ends e a ->
    forward_step s (mkForwarding a (<[i := mkAgentChannel (input c) (replies c) true]> (channels s)) (request_of (input c) :: requests s))
| f_end s i c : channels s !! i = Some c -> finished c = false -> round_at s c = NeedMore ->
    forward_step s (mkForwarding (agent s) (<[i := mkAgentChannel (input c) (replies c) true]> (channels s)) (requests s)).
End Serving.
Arguments mkForwarding {S}. Arguments agent {S}. Arguments channels {S}. Arguments requests {S}.

(** ** A locked keyring *)

Section Locked.
Context (ecMarshal : Z -> Z -> Z -> string) (ecUnmarshal : Z -> string -> option (Z * Z)).
Context (hash : Hash -> string -> string) (crypto_Sign : PrivateKey -> string -> option Hash -> outcome string)
        (dsa_Sign : Z -> Z -> Z -> Z -> string -> outcome (Z * Z)) (asn1_pair : string -> outcome (Z * Z)).
Context (now : nat -> nat -> Z).
#[local] Instance forwarded_keyring : Agent keyring := keyring_agent ecMarshal hash crypto_Sign dsa_Sign asn1_pair.

(** A packet of one of the replies that give nothing away. *)
Definition empty_packet (p : string) : Prop := exists b, b ∈ empty_replies /\ p = be_bytes 4 (slen b) +:+ b.
(** No one has asked to unlock it with the passphrase. *)
Definition kept_locked (r : keyring) (s : forwarding (S := keyring)) : Prop :=
  Forall (fun req => passphrase_request agentUnlockMsg req <> Ok (passphrase r)) (requests s).
Definition silent (r : keyring) (s : forwarding (S := keyring)) : Prop :=
  kept_locked r s -> agent s = r /\ Forall (fun c => Forall empty_packet (replies c)) (channels s).

Lemma locked_round s c r : locked r = true -> agent s = r -> passphrase_request agentUnlockMsg (request_of (input c)) <> Ok (passphrase r) ->
  match round_at ecMarshal ecUnmarshal now s c with
  | Replied reply rest a => a = r /\ empty_packet reply
  | Ends e a => a = r
  | _ => True
  end.
Proof.
  intros Hl <- Hu. unfold round_at, serve_one. destruct (_ <? 4); [done|]. destruct (maxAgentResponseBytes <? _); [done|]. destruct (_ <? _); [done|].
  fold (request_of (input c)). pose proof (locked_request ecMarshal ecUnmarshal hash crypto_Sign dsa_Sign asn1_pair (now (List.length (requests s))) (request_of (input c)) (agent s) Hl) as H.
  unfold ring_agent in H. fold forwarded_keyring in H. destruct (processRequestBytes _ _ _ _ _) as [out r']. destruct H as [(-> & b & -> & Hb)|[(_ & (p & ->) & _)|(H & _)]]; [|done..]. destruct (maxAgentResponseBytes <? _); [done|]. split; [done|]. by exists b.
Qed.

Lemma replaced (P : agent_channel -> Prop) l i c : Forall P l -> P c -> Forall P (<[i := c]> l).
Proof. intros Hl Hc. by apply Forall_insert. Qed.

Lemma silent_step r s s' : locked r = true -> forward_step ecMarshal ecUnmarshal now s s' -> silent r s -> silent r s'.
Proof.
  intros Hl [s0|s0 i c b Hi|s0 i c reply rest a Hi Hf E|s0 i c e a Hi Hf E|s0 i c Hi Hf E] H Hk;
    unfold kept_locked in Hk; cbn [requests agent channels] in *; try (apply Forall_cons in Hk as [Hu Hk]); destruct (H Hk) as [Ha Hr].
  - split; [done|]. apply Forall_app. split; [done|]. apply List.Forall_cons; [by apply List.Forall_nil|by apply List.Forall_nil].
  - split; [done|]. apply replaced; [done|]. exact (proj1 (Forall_lookup _ _) Hr i c Hi).
  - pose proof (locked_round s0 c r Hl Ha Hu) as Hq. rewrite E in Hq. destruct Hq as [-> He]. split; [done|]. apply replaced; [done|]. cbn [replies].
    apply Forall_app. split; [exact (proj1 (Forall_lookup _ _) Hr i c Hi)|]. apply List.Forall_cons; [done|by apply List.Forall_nil].
  - pose proof (locked_round s0 c r Hl Ha Hu) as Hq. rewrite E in Hq. subst a. split; [done|]. apply replaced; [done|]. exact (proj1 (Forall_lookup _ _) Hr i c Hi).
  - split; [done|]. apply replaced; [done|]. exact (proj1 (Forall_lookup _ _) Hr i c Hi).
Qed.

(** A locked keyring stays shut on every forwarded channel: however channels are
    accepted, bytes arrive and the servers take turns, as long as no request was to unlock it
    with its passphrase the keyring is as it was, and every reply on every channel is a
    failure, an empty list or an answer without content. *)
Theorem forwarded_locked_keyring r s : locked r = true -> rtc (forward_step ecMarshal ecUnmarshal now) (mkForwarding r [] []) s -> kept_locked r s ->
  agent s = r /\ Forall (fun c => Forall empty_packet (replies c)) (channels s).
Proof.
  intros Hl Hs. enough (silent r s) as H by exact H.
  eapply (rtc_invariant (forward_step ecMarshal ecUnmarshal now) (silent r)); [|exact Hs|].
  - intros x y Hx Hxy. by eapply silent_step.
  - intros _. split; [done|by apply List.Forall_nil].
Qed.
End Locked.

(** ** Handlers *)

(** The channels are handled once: after either call, whether or not it ended well, the next
    is refused as long as the client lives. *)
Theorem forwarded_once dial h h1 res : is_Some h ->
  ForwardToAgent h = (h1, res) \/ ForwardToRemote dial h = (h1, res) ->
  (ForwardToAgent h1).2 = Err already_handled /\ forall dial', (ForwardToRemote dial' h1).2 = Err already_handled.
Proof.
  intros [hs ->] H.
  assert (exists hs1, h1 = Some hs1 /\ is_Some (hs1 !! agentChannelType)) as (hs1 & -> & w & Hw).
  { unfold ForwardToAgent, ForwardToRemote, HandleChannelOpen in H. destruct (hs !! agentChannelType) eqn:E.
    - destruct H as [[= <- _]|[= <- _]]; by exists hs.
    - destruct H as [[= <- _]|[= <- _]]; eexists; (split; [reflexivity|]); rewrite lookup_insert_eq; by eexists. }
  unfold ForwardToAgent, ForwardToRemote, HandleChannelOpen. by rewrite Hw.
Qed.

Lemma forwarded_once_witness : is_Some NewClient /\ (ForwardToAgent (ForwardToRemote (Some "no such file") NewClient).1).2 = Err already_handled.
Proof.
  split; [by eexists|].
  exact (proj1 (forwarded_once (Some "no such file") NewClient (ForwardToRemote (Some "no such file") NewClient).1 (ForwardToRemote (Some "no such file") NewClient).2
    ltac:(by eexists) (or_intror (surjective_pairing _)))).
Defined.

(** A call of ForwardToRemote that failed for want of a socket leaves its handler behind, from
    which no one takes channels: sixteen channels that the server opens stay unanswered, and
    the next stops the loop that hands out all channels that the server opens, also those of
    forwarded ports. *)
Theorem failed_forward_blocks_client conn dial hs m p ch waiting :
  hs !! agentChannelType = None -> heap m !! p = Some ch -> chanType ch = agentChannelType -> List.length waiting = chanSize ->
  ForwardToRemote (Some dial) (Some hs) = (Some (<[agentChannelType := []]> hs), Err dial) /\
  (handle_open conn false false p m (Some (<[agentChannelType := waiting]> hs))).2 = Blocked.
Proof.
  intros Hs Hp Ht Hw. split; [unfold ForwardToRemote, HandleChannelOpen; by rewrite Hs|].
  unfold handle_open. rewrite Hp, Ht. cbn [default id]. rewrite lookup_insert_eq. unfold offer. cbn [andb]. by rewrite Hw, Nat.ltb_irrefl.
Qed.

(** ** Examples *)

#[local] Instance demo_forwarded : Agent keyring := keyring_agent demo_ecMarshal demo_hash demo_no_sign demo_dsa_Sign demo_no_pair.
Definition demo_locked : keyring := mkRing [demo_entry "a" None] true "secret".
Definition demo_request : string := be_bytes 4 1 +:+ String (byte agentRequestIdentities) "".
#[local] Notation demo_step := (forward_step demo_ecMarshal demo_ecUnmarshal (fun _ _ => 7)).
Definition demo_accepted : forwarding := mkForwarding demo_locked [mkAgentChannel "" [] false] [].
Definition demo_arrived : forwarding := mkForwarding demo_locked [mkAgentChannel demo_request [] false] [].
Definition demo_reply : string := match round_at demo_ecMarshal demo_ecUnmarshal (fun _ _ => 7) demo_arrived (mkAgentChannel demo_request [] false) with Replied reply _ _ => reply | _ => "" end.
Definition demo_served : forwarding := mkForwarding demo_locked [mkAgentChannel "" [demo_reply] false] [String (byte agentRequestIdentities) ""].

Lemma demo_serves : rtc demo_step (mkForwarding demo_locked [] []) demo_served.
Proof.
  eapply rtc_l; [apply f_accept|]. eapply rtc_l; [by apply (f_arrive _ _ _ _ 0 (mkAgentChannel "" [] false) demo_request)|].
  eapply rtc_l; [|apply rtc_refl]. apply (f_serve _ _ _ demo_arrived 0 (mkAgentChannel demo_request [] false) demo_reply "" demo_locked); [done|done|vm_compute; reflexivity].
Qed.

Lemma forwarded_locked_keyring_witness :
  agent demo_served = demo_locked /\ Forall (fun c => Forall empty_packet (replies c)) (channels demo_served).
Proof.
  apply (forwarded_locked_keyring demo_ecMarshal demo_ecUnmarshal demo_hash demo_no_sign demo_dsa_Sign demo_no_pair (fun _ _ => 7) demo_locked demo_served);
    [reflexivity|exact demo_serves|].
  apply List.Forall_cons; [vm_compute; discriminate|apply List.Forall_nil].
Defined.
