(* ===== verification/Utf8.v ===== *)
(** Go's package unicode/utf8 and its conversions between strings and slices of
    runes, as the line editor uses them. A rune is a number. *)
From S2P Require Import Prelude.
From S2P Require Import GoStrings.
From S2P Require Import Wire.

Definition RuneError : Z := 65533.

(** The length that a first byte announces and the range of the second byte; a byte
    that starts nothing has length 1. *)
Definition starts (b : Z) : nat * Z * Z :=
  if b <? 194 then (1%nat, 128, 191)
  else if b <? 224 then (2%nat, 128, 191)
  else if b =? 224 then (3%nat, 160, 191)
  else if b =? 237 then (3%nat, 128, 159)
  else if b <? 240 then (3%nat, 128, 191)
  else if b =? 240 then (4%nat, 144, 191)
  else if b <? 244 then (4%nat, 128, 191)
  else if b =? 244 then (4%nat, 128, 143) else (1%nat, 128, 191).

Definition between (lo hi : Z) (c : ascii) : bool := (lo <=? val c) && (val c <=? hi).
Definition cont (c : ascii) : bool := between 128 191 c.

(** [DecodeRune]: the rune and its length in bytes. *)
Definition DecodeRune (s : string) : Z * nat :=
  match s with
  | "" => (RuneError, 0%nat)
  | String c0 s1 =>
      let b0 := val c0 in
      if b0 <? 128 then (b0, 1%nat)
      else
        match starts b0, s1 with
        | (2%nat, lo, hi), String c1 _ =>
            if between lo hi c1 then (b0 mod 32 * 64 + val c1 mod 64, 2%nat) else (RuneError, 1%nat)
        | (3%nat, lo, hi), String c1 (String c2 _) =>
            if between lo hi c1 && cont c2 then (b0 mod 16 * 4096 + val c1 mod 64 * 64 + val c2 mod 64, 3%nat) else (RuneError, 1%nat)
        | (4%nat, lo, hi), String c1 (String c2 (String c3 _)) =>
            if between lo hi c1 && cont c2 && cont c3
            then (b0 mod 8 * 262144 + val c1 mod 64 * 4096 + val c2 mod 64 * 64 + val c3 mod 64, 4%nat) else (RuneError, 1%nat)
        | _, _ => (RuneError, 1%nat)
        end
  end.

(** [FullRune]: the bytes start with a rune, or with what is none. *)
Definition FullRune (s : string) : bool :=
  match s with
  | "" => false
  | String c0 s1 =>
      match starts (val c0) with
      | (n, lo, hi) =>
          if (n <=? String.length s)%nat then true
          else
            match s1 with
            | String c1 s2 => if negb (between lo hi c1) then true else match s2 with String c2 _ => negb (cont c2) | "" => false end
            | "" => false
            end
      end
  end.

(** A rune as bytes; what is no rune is written as [RuneError]. *)
Definition valid_rune (r : Z) : bool := (0 <=? r) && (r <=? 1114111) && negb ((55296 <=? r) && (r <=? 57343)).
Definition encode_valid (r : Z) : string :=
  if r <? 128 then String (byte r) ""
  else if r <? 2048 then String (byte (192 + r / 64)) (String (byte (128 + r mod 64)) "")
  else if r <? 65536 then
    String (byte (224 + r / 4096)) (String (byte (128 + r / 64 mod 64)) (String (byte (128 + r mod 64)) ""))
  else
    String (byte (240 + r / 262144)) (String (byte (128 + r / 4096 mod 64))
      (String (byte (128 + r / 64 mod 64)) (String (byte (128 + r mod 64)) ""))).
Definition encode_rune (r : Z) : string := encode_valid (if valid_rune r then r else RuneError).

(** [string(runes)], [\[\]rune(s)] and [RuneCount]. *)
Fixpoint of_runes (rs : list Z) : string := match rs with [] => "" | r :: rs => encode_rune r +:+ of_runes rs end.
Fixpoint runes_go (fuel : nat) (s : string) : list Z :=
  match fuel, s with
  | S fuel, String _ _ => let '(r, n) := DecodeRune s in r :: runes_go fuel (sdrop n s)
  | _, _ => []
  end.
Definition runes (s : string) : list Z := runes_go (String.length s) s.
Definition RuneCount (s : string) : Z := Z.of_nat (List.length (runes s)).

(** ** Runes are read back *)

(** The second byte of a rune is in the range that its first byte asks for. *)
Lemma starts2 r : 128 <= r < 2048 -> starts (192 + r / 64) = (2%nat, 128, 191).
Proof. intros H. unfold starts. rewrite (proj2 (Z.ltb_ge _ _)), (proj2 (Z.ltb_lt _ _)); [done|..]; Z.to_euclidean_division_equations; lia. Qed.

Lemma starts3 r : 2048 <= r < 65536 -> valid_rune r = true -> exists lo hi, starts (224 + r / 4096) = (3%nat, lo, hi) /\ lo <= 128 + r / 64 mod 64 <= hi.
Proof.
  intros H Hv. unfold valid_rune in Hv. assert (0 <= r / 4096 < 16) as Hq by (Z.to_euclidean_division_equations; lia).
  assert (r < 55296 \/ 57343 < r) as Hs.
  { destruct (Z.leb_spec 55296 r); [|by left]. destruct (Z.leb_spec r 57343); [|right; lia]. destruct (0 <=? r), (r <=? 1114111); discriminate Hv. }
  unfold starts. destruct (Z.ltb_spec (224 + r / 4096) 194); [lia|]. destruct (Z.ltb_spec (224 + r / 4096) 224); [lia|].
  destruct (Z.eqb_spec (224 + r / 4096) 224) as [E|]; [eexists _, _; split; [reflexivity|]; Z.to_euclidean_division_equations; lia|].
  destruct (Z.eqb_spec (224 + r / 4096) 237) as [E|]; [eexists _, _; split; [reflexivity|]; Z.to_euclidean_division_equations; lia|].
  destruct (Z.ltb_spec (224 + r / 4096) 240); [|lia]. eexists _, _. split; [reflexivity|]. Z.to_euclidean_division_equations; lia.
Qed.

Lemma starts4 r : 65536 <= r <= 1114111 -> exists lo hi, starts (240 + r / 262144) = (4%nat, lo, hi) /\ lo <= 128 + r / 4096 mod 64 <= hi.
Proof.
  intros H. assert (0 <= r / 262144 <= 4) as Hq by (Z.to_euclidean_division_equations; lia).
  unfold starts. destruct (Z.ltb_spec (240 + r / 262144) 194); [lia|]. destruct (Z.ltb_spec (240 + r / 262144) 224); [lia|].
  destruct (Z.eqb_spec (240 + r / 262144) 224); [lia|]. destruct (Z.eqb_spec (240 + r / 262144) 237); [lia|]. destruct (Z.ltb_spec (240 + r / 262144) 240); [lia|].
  destruct (Z.eqb_spec (240 + r / 262144) 240) as [E|]; [eexists _, _; split; [reflexivity|]; Z.to_euclidean_division_equations; lia|].
  destruct (Z.ltb_spec (240 + r / 262144) 244); [eexists _, _; split; [reflexivity|]; Z.to_euclidean_division_equations; lia|].
  destruct (Z.eqb_spec (240 + r / 262144) 244) as [E|]; [|lia]. eexists _, _. split; [reflexivity|]. Z.to_euclidean_division_equations; lia.
Qed.

Lemma val_small z : 0 <= z < 256 -> val (byte z) = z.
Proof. intros H. by rewrite val_byte, Z.mod_small. Qed.

Lemma between_ok lo hi z : 0 <= z < 256 -> lo <= z <= hi -> between lo hi (byte z) = true.
Proof. intros H1 H2. unfold between. rewrite val_small by done. apply andb_true_iff. split; apply Z.leb_le; lia. Qed.

Lemma cont_ok z : 0 <= z < 64 -> cont (byte (128 + z)) = true.
Proof. intros H. apply between_ok; lia. Qed.

Ltac euclid := Z.to_euclidean_division_equations; lia.

(** The bytes of a rune and what its first byte says of them. *)
Lemma encode_shape r : valid_rune r = true ->
  (0 <= r < 128 /\ encode_valid r = String (byte r) "") \/
  (128 <= r < 2048 /\ encode_valid r = String (byte (192 + r / 64)) (String (byte (128 + r mod 64)) "") /\ starts (192 + r / 64) = (2%nat, 128, 191)) \/
  (2048 <= r < 65536 /\ encode_valid r = String (byte (224 + r / 4096)) (String (byte (128 + r / 64 mod 64)) (String (byte (128 + r mod 64)) "")) /\
     exists lo hi, starts (224 + r / 4096) = (3%nat, lo, hi) /\ between lo hi (byte (128 + r / 64 mod 64)) = true) \/
  (65536 <= r <= 1114111 /\
     encode_valid r = String (byte (240 + r / 262144)) (String (byte (128 + r / 4096 mod 64)) (String (byte (128 + r / 64 mod 64)) (String (byte (128 + r mod 64)) ""))) /\
     exists lo hi, starts (240 + r / 262144) = (4%nat, lo, hi) /\ between lo hi (byte (128 + r / 4096 mod 64)) = true).
Proof.
  intros Hv. assert (0 <= r <= 1114111) as Hr.
  { unfold valid_rune in Hv. destruct (Z.leb_spec 0 r); [|done]. destruct (Z.leb_spec r 1114111); [|done]. lia. }
  unfold encode_valid. destruct (Z.ltb_spec r 128); [left; split; [lia|done]|right]. destruct (Z.ltb_spec r 2048); [left|right].
  - split; [lia|]. split; [done|]. by apply starts2.
  - destruct (Z.ltb_spec r 65536); [left|right]; (split; [lia|]); (split; [done|]).
    + destruct (starts3 r ltac:(lia) Hv) as (lo & hi & E & Hb). exists lo, hi. split; [done|]. apply between_ok; [euclid|done].
    + destruct (starts4 r ltac:(lia)) as (lo & hi & E & Hb). exists lo, hi. split; [done|]. apply between_ok; [euclid|done].
Qed.

Lemma DecodeRune_encode r rest : valid_rune r = true -> DecodeRune (encode_valid r +:+ rest) = (r, String.length (encode_valid r)).
Proof.
  intros Hv. destruct (encode_shape r Hv) as [[H ->]|[(H & -> & Hs)|[(H & -> & lo & hi & Hs & Hb)|(H & -> & lo & hi & Hs & Hb)]]];
    cbn [append DecodeRune String.length]; change (String ?c ?a +:+ ?b) with (String c (a +:+ b)); cbn [append].
  - rewrite val_small by lia. destruct (Z.ltb_spec r 128); [done|lia].
  - rewrite val_small by euclid. destruct (Z.ltb_spec (192 + r / 64) 128); [euclid|]. rewrite Hs, between_ok by euclid.
    rewrite val_small by euclid. f_equal. euclid.
  - rewrite (val_small (224 + r / 4096)) by euclid. destruct (Z.ltb_spec (224 + r / 4096) 128); [euclid|]. rewrite Hs, Hb, cont_ok by euclid. cbn [andb].
    rewrite !val_small by euclid. f_equal. euclid.
  - rewrite (val_small (240 + r / 262144)) by euclid. destruct (Z.ltb_spec (240 + r / 262144) 128); [euclid|]. rewrite Hs, Hb, !cont_ok by euclid. cbn [andb].
    rewrite !val_small by euclid. f_equal. euclid.
Qed.

Lemma FullRune_encode r rest : valid_rune r = true -> FullRune (encode_valid r +:+ rest) = true.
Proof.
  intros Hv. destruct (encode_shape r Hv) as [[H ->]|[(H & -> & Hs)|[(H & -> & lo & hi & Hs & Hb)|(H & -> & lo & hi & Hs & Hb)]]];
    cbn [append FullRune String.length].
  - rewrite val_small by lia. unfold starts. by destruct (Z.ltb_spec r 194); [|lia].
  - rewrite val_small by euclid. by rewrite Hs.
  - rewrite val_small by euclid. by rewrite Hs.
  - rewrite val_small by euclid. by rewrite Hs.
Qed.

(** A beginning of a rune is not yet one. *)
Lemma FullRune_prefix r p q : valid_rune r = true -> encode_valid r = p +:+ q -> q <> "" -> FullRune p = false.
Proof.
  intros Hv E Hq.
  destruct (encode_shape r Hv) as [[H Er]|[(H & Er & Hs)|[(H & Er & lo & hi & Hs & Hb)|(H & Er & lo & hi & Hs & Hb)]]]; rewrite Er in E; clear Er;
    [destruct p as [|c p]|destruct p as [|c [|d p]]|destruct p as [|c [|d [|e p]]]|destruct p as [|c [|d [|e [|f p]]]]]; try done;
    cbn [append] in E; injection E; clear E; intros; subst;
    try (match goal with H : "" = _ +:+ _ |- _ => destruct p; [by destruct q|done] end);
    cbn [FullRune]; rewrite val_small by euclid; rewrite Hs; cbn [String.length Nat.leb]; rewrite ?Hb, ?cont_ok by euclid; done.
Qed.

Lemma encode_rune_valid r : valid_rune r = true -> encode_rune r = encode_valid r.
Proof. intros H. unfold encode_rune. by rewrite H. Qed.

Lemma encode_length r : (1 <= String.length (encode_valid r) <= 4)%nat.
Proof. unfold encode_valid. repeat case_match; cbn; lia. Qed.

(** Text of valid runes is read back. *)
Lemma runes_of_runes rs : Forall (fun r => valid_rune r = true) rs -> runes (of_runes rs) = rs.
Proof.
  unfold runes. assert (forall rs fuel, Forall (fun r => valid_rune r = true) rs -> (String.length (of_runes rs) <= fuel)%nat -> runes_go fuel (of_runes rs) = rs) as H;
    [|intros Hv; by apply H].
  clear rs. induction rs as [|r rs IH]; intros fuel Hv Hl; [by destruct fuel|]. apply Forall_cons in Hv as [Hv Hvs].
  cbn [of_runes] in *. rewrite encode_rune_valid in * by done. rewrite string_app_length in Hl. pose proof (encode_length r) as Hn.
  destruct fuel as [|fuel]; [lia|]. cbn [runes_go]. destruct (encode_valid r +:+ of_runes rs) eqn:E.
  { apply (f_equal String.length) in E. rewrite string_app_length in E. cbn in E. lia. }
  rewrite <- E, DecodeRune_encode by done. f_equal. rewrite sdrop_app_len by done. apply IH; [done|lia].
Qed.
