(* ===== verification/Terminal.v ===== *)
(** The line editor of the ssh library (xendor/github.com/glycerine/xcryptossh/terminal/terminal.go):
    keys from bytes, editing a line, its history, what is written to the screen, and the
    reading of lines and passwords. *)
From S2P Require Import Prelude.
From S2P Require Import GoStrings.
From S2P Require Import Wire.
From S2P Require Import Utf8.

(** ** Keys *)

Definition keyCtrlD : Z := 4.
Definition keyCtrlU : Z := 21.
Definition keyEnter : Z := 13.
Definition keyEscape : Z := 27.
Definition keyBackspace : Z := 127.
Definition keyUnknown : Z := 55301.
Definition keyUp : Z := 55302.
Definition keyDown : Z := 55303.
Definition keyLeft : Z := 55304.
Definition keyRight : Z := 55305.
Definition keyAltLeft : Z := 55306.
Definition keyAltRight : Z := 55307.
Definition keyHome : Z := 55308.
Definition keyEnd : Z := 55309.
Definition keyDeleteWord : Z := 55310.
Definition keyDeleteLine : Z := 55311.
Definition keyClearScreen : Z := 55312.
Definition keyPasteStart : Z := 55313.
Definition keyPasteEnd : Z := 55314.

Definition esc : ascii := "027".
Definition pasteStart : string := String esc "[200~".
Definition pasteEnd : string := String esc "[201~".

(** The end of a sequence that is not known. *)
Definition ends_sequence (c : ascii) : bool :=
  ((97 <=? val c) && (val c <=? 122)) || ((65 <=? val c) && (val c <=? 90)) || (val c =? 126).
Fixpoint after_sequence (b : string) : option string :=
  match b with "" => None | String c b => if ends_sequence c then Some b else after_sequence b end.

Definition control_key (c : Z) : option Z :=
  match c with
  | 1 => Some keyHome
  | 5 => Some keyEnd
  | 8 => Some keyBackspace
  | 11 => Some keyDeleteLine
  | 12 => Some keyClearScreen
  | 23 => Some keyDeleteWord
  | _ => None
  end.

(** The sequences of an escape. *)
Definition escape_key (b : string) (pasteActive : bool) : option (Z * string) :=
  let known (p : string) (k : Z) (next : option (Z * string)) :=
    if HasPrefix b (String esc p) then Some (k, sdrop (S (String.length p)) b) else next in
  if pasteActive then known "[201~" keyPasteEnd None
  else
    known "[A" keyUp (known "[B" keyDown (known "[C" keyRight (known "[D" keyLeft (known "[H" keyHome (known "[F" keyEnd
      (known "[1;3C" keyAltRight (known "[1;3D" keyAltLeft (known "[200~" keyPasteStart None)))))))).

Definition bytesToKey (b : string) (pasteActive : bool) : Z * string :=
  match b with
  | "" => (RuneError, "")
  | String c rest =>
      match (if pasteActive then None else control_key (val c)) with
      | Some k => (k, rest)
      | None =>
          if negb (val c =? keyEscape) then
            if negb (FullRune b) then (RuneError, b) else let '(r, l) := DecodeRune b in (r, sdrop l b)
          else
            match escape_key b pasteActive with
            | Some r => r
            | None => match after_sequence b with Some rest => (keyUnknown, rest) | None => (RuneError, b) end
            end
      end
  end.

(** ** History *)

Record stRingBuffer := mkRingBuffer { entries : list string; max : Z; head : Z; size : Z }.
Definition defaultNumEntries : Z := 100.

Definition ring_Add (a : string) (s : stRingBuffer) : stRingBuffer :=
  let s := match entries s with [] => mkRingBuffer (repeat "" (Z.to_nat defaultNumEntries)) defaultNumEntries (head s) (size s) | _ => s end in
  let head := Z.rem (head s + 1) (max s) in
  mkRingBuffer (<[Z.to_nat head := a]> (entries s)) (max s) head (if size s <? max s then size s + 1 else size s).

Definition NthPreviousEntry (n : Z) (s : stRingBuffer) : option string :=
  if size s <=? n then None
  else
    let index := head s - n in
    let index := if index <? 0 then index + max s else index in
    entries s !! Z.to_nat index.

(** ** The terminal *)

Record Terminal := mkTerminal {
  prompt : list Z;
  line : list Z;
  pos : nat;
  echo : bool;
  pasteActive : bool;
  cursorX : Z;
  cursorY : Z;
  maxLine : Z;
  termWidth : Z;
  termHeight : Z;
  outBuf : string;
  remainder : string;
  history : stRingBuffer;
  historyIndex : Z;
  historyPending : string;
  written : list string;
}.

Definition set_prompt x t := mkTerminal x (line t) (pos t) (echo t) (pasteActive t) (cursorX t) (cursorY t) (maxLine t) (termWidth t) (termHeight t) (outBuf t) (remainder t) (history t) (historyIndex t) (historyPending t) (written t).
Definition set_line x p t := mkTerminal (prompt t) x p (echo t) (pasteActive t) (cursorX t) (cursorY t) (maxLine t) (termWidth t) (termHeight t) (outBuf t) (remainder t) (history t) (historyIndex t) (historyPending t) (written t).
Definition set_echo x t := mkTerminal (prompt t) (line t) (pos t) x (pasteActive t) (cursorX t) (cursorY t) (maxLine t) (termWidth t) (termHeight t) (outBuf t) (remainder t) (history t) (historyIndex t) (historyPending t) (written t).
Definition set_paste x t := mkTerminal (prompt t) (line t) (pos t) (echo t) x (cursorX t) (cursorY t) (maxLine t) (termWidth t) (termHeight t) (outBuf t) (remainder t) (history t) (historyIndex t) (historyPending t) (written t).
Definition set_cursor x y m t := mkTerminal (prompt t) (line t) (pos t) (echo t) (pasteActive t) x y m (termWidth t) (termHeight t) (outBuf t) (remainder t) (history t) (historyIndex t) (historyPending t) (written t).
Definition set_size w h t := mkTerminal (prompt t) (line t) (pos t) (echo t) (pasteActive t) (cursorX t) (cursorY t) (maxLine t) w h (outBuf t) (remainder t) (history t) (historyIndex t) (historyPending t) (written t).
Definition set_out x t := mkTerminal (prompt t) (line t) (pos t) (echo t) (pasteActive t) (cursorX t) (cursorY t) (maxLine t) (termWidth t) (termHeight t) x (remainder t) (history t) (historyIndex t) (historyPending t) (written t).
Definition set_remainder x t := mkTerminal (prompt t) (line t) (pos t) (echo t) (pasteActive t) (cursorX t) (cursorY t) (maxLine t) (termWidth t) (termHeight t) (outBuf t) x (history t) (historyIndex t) (historyPending t) (written t).
Definition set_history h i p t := mkTerminal (prompt t) (line t) (pos t) (echo t) (pasteActive t) (cursorX t) (cursorY t) (maxLine t) (termWidth t) (termHeight t) (outBuf t) (remainder t) h i p (written t).
Definition set_written x t := mkTerminal (prompt t) (line t) (pos t) (echo t) (pasteActive t) (cursorX t) (cursorY t) (maxLine t) (termWidth t) (termHeight t) (outBuf t) (remainder t) (history t) (historyIndex t) (historyPending t) x.

Definition NewTerminal (p : string) : Terminal :=
  mkTerminal (runes p) [] 0 true false 0 0 0 80 24 "" "" (mkRingBuffer [] 0 0 0) (-1) "" [].

Definition bounds_panic : string := "slice bounds out of range".
Definition index_panic : string := "index out of range".

Definition queue (data : list Z) (t : Terminal) : Terminal := set_out (outBuf t +:+ of_runes data) t.
Definition space : list Z := [32].

Definition isPrintable (key : Z) : bool := (32 <=? key) && negb ((55296 <=? key) && (key <=? 56319)).

Definition is_letter (r : Z) : bool := ((97 <=? r) && (r <=? 122)) || ((65 <=? r) && (r <=? 90)).
Fixpoint visual_go (inEscapeSeq : bool) (rs : list Z) : Z :=
  match rs with
  | [] => 0
  | r :: rs =>
      if inEscapeSeq then visual_go (negb (is_letter r)) rs
      else if r =? 27 then visual_go true rs else 1 + visual_go false rs
  end.
Definition visualLength (rs : list Z) : Z := visual_go false rs.

(** [move]: three runes for every step. *)
Definition steps (n : Z) (dir : Z) : list Z := List.concat (repeat [keyEscape; 91; dir] (Z.to_nat n)).
Definition move (up down left right : Z) (t : Terminal) : Terminal :=
  queue (steps up 65 ++ steps down 66 ++ steps left 68 ++ steps right 67) t.

Definition moveCursorToPos (p : nat) (t : Terminal) : Terminal :=
  if negb (echo t) then t
  else
    let x := visualLength (prompt t) + Z.of_nat p in
    let y := Z.quot x (termWidth t) in
    let x := Z.rem x (termWidth t) in
    let up := if y <? cursorY t then cursorY t - y else 0 in
    let down := if cursorY t <? y then y - cursorY t else 0 in
    let left := if x <? cursorX t then cursorX t - x else 0 in
    let right := if cursorX t <? x then x - cursorX t else 0 in
    move up down left right (set_cursor x y (maxLine t) t).

Definition clearLineToRight (t : Terminal) : Terminal := queue [keyEscape; 91; 75] t.

Definition advanceCursor (places : Z) (t : Terminal) : Terminal :=
  let x := cursorX t + places in
  let y := cursorY t + Z.quot x (termWidth t) in
  let m := if maxLine t <? y then y else maxLine t in
  let x := Z.rem x (termWidth t) in
  let t := set_cursor x y m t in
  if (0 <? places) && (x =? 0) then set_out (outBuf t +:+ String "013" (String "010" "")) t else t.

(** [writeLine], one round for each row. *)
Fixpoint write_rows (fuel : nat) (l : list Z) (t : Terminal) : outcome Terminal :=
  match fuel with
  | O => Blocked
  | S fuel =>
      match l with
      | [] => Ok t
      | _ =>
          let remainingOnLine := termWidth t - cursorX t in
          let todo := if remainingOnLine <? Z.of_nat (List.length l) then remainingOnLine else Z.of_nat (List.length l) in
          if todo <? 0 then Panic bounds_panic
          else
            let row := take (Z.to_nat todo) l in
            write_rows fuel (drop (Z.to_nat todo) l) (advanceCursor (visualLength row) (queue row t))
      end
  end.
Definition writeLine (l : list Z) (t : Terminal) : outcome Terminal := write_rows (S (List.length l)) l t.

Definition maxLineLength : Z := 4096.

Fixpoint times {A} (n : nat) (f : A -> outcome A) (a : A) : outcome A :=
  match n with O => Ok a | S n => let? a := f a in times n f a end.

Definition setLine (newLine : list Z) (newPos : nat) (t : Terminal) : outcome Terminal :=
  let? t :=
    if echo t then
      let? t1 := writeLine newLine (moveCursorToPos 0 t) in
      let? t2 := times (List.length (line t) - List.length newLine) (writeLine space) t1 in
      Ok (moveCursorToPos newPos t2)
    else Ok t in
  Ok (set_line newLine newPos t).

(** The part of a slice from an index on. *)
Definition from (l : list Z) (i : nat) : outcome (list Z) :=
  if (i <=? List.length l)%nat then Ok (drop i l) else Panic bounds_panic.
Definition upto (l : list Z) (i : nat) : outcome (list Z) :=
  if (i <=? List.length l)%nat then Ok (take i l) else Panic bounds_panic.

Definition eraseNPreviousChars (n : nat) (t : Terminal) : outcome Terminal :=
  if (n =? 0)%nat then Ok t
  else
    let n := if (pos t <? n)%nat then pos t else n in
    let t := set_line (line t) (pos t - n) t in
    let t := moveCursorToPos (pos t) t in
    let? tail := from (line t) (n + pos t) in
    let t := set_line (take (pos t) (line t) ++ tail) (pos t) t in
    if echo t then
      let? t := writeLine (drop (pos t) (line t)) t in
      let t := Nat.iter n (queue space) t in
      Ok (moveCursorToPos (pos t) (advanceCursor (Z.of_nat n) t))
    else Ok t.

(** The two loops of [countToLeftWord], down to the start of the line. *)
Fixpoint skip_back (stop : Z -> bool) (l : list Z) (p : nat) : outcome (nat * bool) :=
  match p with
  | O => Ok (O, false)
  | S p' => match l !! p with None => Panic index_panic | Some r => if stop r then Ok (p, true) else skip_back stop l p' end
  end.
Definition countToLeftWord (t : Terminal) : outcome nat :=
  match pos t with
  | O => Ok O
  | S p =>
      let? '(p, _) := skip_back (fun r => negb (r =? 32)) (line t) p in
      let? '(p, found) := skip_back (fun r => r =? 32) (line t) p in
      Ok (pos t - (if found : bool then S p else p))%nat
  end.

Fixpoint skip_while (f : Z -> bool) (l : list Z) : nat := match l with [] => O | r :: l => if f r then S (skip_while f l) else O end.
Definition countToRightWord (t : Terminal) : nat :=
  let l := drop (pos t) (line t) in
  let n := skip_while (fun r => negb (r =? 32)) l in
  n + skip_while (fun r => r =? 32) (drop n l).

Definition addKeyToLine (key : Z) (t : Terminal) : outcome Terminal :=
  let? tail := from (line t) (pos t) in
  let t := set_line (take (pos t) (line t) ++ key :: tail) (pos t) t in
  let? t := if echo t then writeLine (drop (pos t) (line t)) t else Ok t in
  let t := set_line (line t) (S (pos t)) t in
  Ok (moveCursorToPos (pos t) t).

Definition crlf_runes : list Z := [13; 10].
Definition clear_screen : list Z := [27; 91; 50; 74; 27; 91; 72].

Section Editor.
(** The callback for completion: a line, the place in it and the key. *)
Context (AutoCompleteCallback : option (string -> Z -> Z -> option (string * Z))).

(** The default case of the switch. *)
Definition other_key (key : Z) (t : Terminal) : outcome Terminal :=
  let? completed :=
    match AutoCompleteCallback with
    | Some f =>
        let? prefix := upto (line t) (pos t) in
        let? suffix := from (line t) (pos t) in
        Ok (f (of_runes prefix +:+ of_runes suffix) (slen (of_runes prefix)) key)
    | None => Ok None
    end in
  match completed with
  | Some (newLine, newPos) =>
      if (newPos <? 0) || (slen newLine <? newPos) then Panic bounds_panic
      else setLine (runes newLine) (Z.to_nat (RuneCount (stake (Z.to_nat newPos) newLine))) t
  | None =>
      if negb (isPrintable key) then Ok t
      else if (Z.of_nat (List.length (line t)) =? maxLineLength) then Ok t
      else addKeyToLine key t
  end.

(** [handleKey]: the line that was entered, if any. *)
Definition handleKey (key : Z) (t : Terminal) : outcome (Terminal * option string) :=
  let at_ p t := Ok (moveCursorToPos p (set_line (line t) p t), None) in
  let edited (m : outcome Terminal) := let? t := m in Ok (t, None) in
  if pasteActive t && negb (key =? keyEnter) then edited (addKeyToLine key t)
  else if key =? keyBackspace then if (pos t =? 0)%nat then Ok (t, None) else edited (eraseNPreviousChars 1 t)
  else if key =? keyAltLeft then let? n := countToLeftWord t in at_ (pos t - n)%nat t
  else if key =? keyAltRight then at_ (pos t + countToRightWord t)%nat t
  else if key =? keyLeft then if (pos t =? 0)%nat then Ok (t, None) else at_ (pos t - 1)%nat t
  else if key =? keyRight then if (pos t =? List.length (line t))%nat then Ok (t, None) else at_ (S (pos t)) t
  else if key =? keyHome then if (pos t =? 0)%nat then Ok (t, None) else at_ 0%nat t
  else if key =? keyEnd then if (pos t =? List.length (line t))%nat then Ok (t, None) else at_ (List.length (line t)) t
  else if key =? keyUp then
    match NthPreviousEntry (historyIndex t + 1) (history t) with
    | None => Ok (t, None)
    | Some entry =>
        let pending := if historyIndex t =? -1 then of_runes (line t) else historyPending t in
        let t := set_history (history t) (historyIndex t + 1) pending t in
        edited (setLine (runes entry) (List.length (runes entry)) t)
    end
  else if key =? keyDown then
    if historyIndex t =? -1 then Ok (t, None)
    else if historyIndex t =? 0 then
      let r := runes (historyPending t) in
      let? t := setLine r (List.length r) t in
      Ok (set_history (history t) (historyIndex t - 1) (historyPending t) t, None)
    else
      match NthPreviousEntry (historyIndex t - 1) (history t) with
      | None => Ok (t, None)
      | Some entry =>
          edited (setLine (runes entry) (List.length (runes entry)) (set_history (history t) (historyIndex t - 1) (historyPending t) t))
      end
  else if key =? keyEnter then
    let t := queue crlf_runes (moveCursorToPos (List.length (line t)) t) in
    Ok (set_cursor 0 0 0 (set_line [] 0 t), Some (of_runes (line t)))
  else if key =? keyDeleteWord then let? n := countToLeftWord t in edited (eraseNPreviousChars n t)
  else if key =? keyDeleteLine then
    let t := Nat.iter (List.length (line t) - pos t) (fun t => advanceCursor 1 (queue space t)) t in
    let? l := upto (line t) (pos t) in
    at_ (pos t) (set_line l (pos t) t)
  else if key =? keyCtrlD then
    if (pos t <? List.length (line t))%nat then edited (eraseNPreviousChars 1 (set_line (line t) (S (pos t)) t)) else Ok (t, None)
  else if key =? keyCtrlU then edited (eraseNPreviousChars (pos t) t)
  else if key =? keyClearScreen then
    let t := queue (prompt t) (queue clear_screen t) in
    let t := advanceCursor (visualLength (prompt t)) (set_cursor 0 0 (maxLine t) t) in
    edited (setLine (line t) (pos t) t)
  else edited (other_key key t).

(** Sending what is waiting; [readLine] does not look at the error. *)
Definition flush (t : Terminal) : Terminal := set_out "" (set_written (written t ++ [outBuf t]) t).

Definition ErrPasteIndicator : string := "terminal: ErrPasteIndicator not correctly handled".

(** The inner loop of [readLine] on the bytes that have been read. *)
Inductive processed :=
| Entered (rest : string) (lineIsPasted : bool) (l : string) (t : Terminal)
| Wants (rest : string) (lineIsPasted : bool) (t : Terminal)
| AtEOF (t : Terminal).

Fixpoint process (fuel : nat) (rest : string) (lineIsPasted : bool) (t : Terminal) : outcome processed :=
  match fuel with
  | O => Blocked
  | S fuel =>
      let '(key, rest) := bytesToKey rest (pasteActive t) in
      if key =? RuneError then Ok (Wants rest lineIsPasted t)
      else
        let no_text := match line t with [] => true | _ => false end in
        if negb (pasteActive t) && (key =? keyCtrlD) && no_text then Ok (AtEOF t)
        else if negb (pasteActive t) && (key =? keyPasteStart) then
          process fuel rest (if no_text then true else lineIsPasted) (set_paste true t)
        else if pasteActive t && (key =? keyPasteEnd) then process fuel rest lineIsPasted (set_paste false t)
        else
          let lineIsPasted := if negb (pasteActive t) then false else lineIsPasted in
          let? '(t, l) := handleKey key t in
          match l with
          | Some l => Ok (Entered rest lineIsPasted l t)
          | None => process fuel rest lineIsPasted t
          end
  end.

(** The buffer of the terminal has 256 bytes, of which the remainder takes some. *)
Definition inBuf : nat := 256.

(** What the connection holds for the reader: chunks, each with bytes or an error. *)
Definition chunk : Type := (string + string)%type.

(** A Read into [n] bytes: what is there, and what stays for the next. *)
Definition c_Read (n : nat) (chunks : list chunk) : outcome (string + string) * list chunk :=
  match chunks with
  | [] => (Blocked, [])
  | inr e :: chunks => (Ok (inr e), chunks)
  | inl b :: chunks =>
      if (String.length b <=? n)%nat then (Ok (inl b), chunks) else (Ok (inl (stake n b)), inl (sdrop n b) :: chunks)
  end.

(** What a call returns: a line or an error, and a line with an error. *)
Record read_result := mkRead { r_line : string; r_err : error_ }.

Fixpoint line_rounds (fuel : nat) (lineIsPasted : bool) (chunks : list chunk) (t : Terminal)
  : outcome (read_result * Terminal * list chunk) :=
  match fuel with
  | O => Blocked
  | S fuel =>
      let? p := process (S (String.length (remainder t))) (remainder t) lineIsPasted t in
      match p with
      | AtEOF t => Ok (mkRead "" (Some EOF), t, chunks)
      | Entered rest lineIsPasted l t =>
          let t := flush (set_remainder (stake inBuf rest) t) in
          let t := if echo t then set_history (ring_Add l (history t)) (-1) (historyPending t) t else t in
          Ok (mkRead l (if lineIsPasted then Some ErrPasteIndicator else None), t, chunks)
      | Wants rest lineIsPasted t =>
          let t := flush (set_remainder (stake inBuf rest) t) in
          match c_Read (inBuf - String.length (remainder t)) chunks with
          | (Ok (inl b), chunks) => line_rounds fuel lineIsPasted chunks (set_remainder (remainder t +:+ b) t)
          | (Ok (inr e), chunks) => Ok (mkRead "" (Some e), t, chunks)
          | _ => Blocked
          end
      end
  end.

Definition readLine (fuel : nat) (chunks : list chunk) (t : Terminal) : outcome (read_result * Terminal * list chunk) :=
  let? t := if (cursorX t =? 0) && (cursorY t =? 0) then let? t := writeLine (prompt t) t in Ok (flush t) else Ok t in
  line_rounds fuel (pasteActive t) chunks t.

Definition ReadLine : nat -> list chunk -> Terminal -> outcome (read_result * Terminal * list chunk) := readLine.

Definition ReadPassword (p : string) (fuel : nat) (chunks : list chunk) (t : Terminal) : outcome (read_result * Terminal * list chunk) :=
  let oldPrompt := prompt t in
  let? '(r, t, chunks) := readLine fuel chunks (set_echo false (set_prompt (runes p) t)) in
  Ok (r, set_echo true (set_prompt oldPrompt t), chunks).
End Editor.

Definition SetPrompt (p : string) (t : Terminal) : Terminal := set_prompt (runes p) t.

(** ** Writing and the size of the screen *)

Section Writes.
(** The connection's answer to a write after those before: the bytes taken and an error. *)
Context (c_Write : list string -> string -> Z * error_).

Definition write (b : string) (t : Terminal) : Z * error_ * Terminal :=
  (c_Write (written t) b, set_written (written t ++ [b]) t).

(** [writeWithCRLF]: every line feed becomes two bytes, but counts as one. *)
Fixpoint writeWithCRLF (fuel : nat) (buf : string) (n : Z) (t : Terminal) : outcome (Z * error_ * Terminal) :=
  match fuel with
  | O => Blocked
  | S fuel =>
      match buf with
      | "" => Ok (n, None, t)
      | _ =>
          let i := index_byte "010" buf in
          let todo := match i with Some i => i | None => String.length buf end in
          let '(nn, err, t) := write (stake todo buf) t in
          match err with
          | Some e => Ok (n + nn, Some e, t)
          | None =>
              match i with
              | None => writeWithCRLF fuel (sdrop todo buf) (n + nn) t
              | Some _ =>
                  let '(_, err, t) := write (String "013" (String "010" "")) t in
                  match err with
                  | Some e => Ok (n + nn, Some e, t)
                  | None => writeWithCRLF fuel (sdrop (S todo) buf) (n + nn + 1) t
                  end
              end
          end
      end
  end.

(** The rows above are cleared one after the other. *)
Fixpoint clear_rows (n : nat) (t : Terminal) : Terminal :=
  match n with
  | O => t
  | S n => let t := move 1 0 0 0 t in clear_rows n (clearLineToRight (set_cursor (cursorX t) (cursorY t - 1) (maxLine t) t))
  end.

(** [Write]: the answer and the terminal. *)
Definition Write (buf : string) (t : Terminal) : outcome (Z * error_ * Terminal) :=
  let crlf_all t := writeWithCRLF (S (String.length buf)) buf 0 t in
  if (cursorX t =? 0) && (cursorY t =? 0) then crlf_all t
  else
    let t := move 0 0 (cursorX t) 0 t in
    let t := clearLineToRight (set_cursor 0 (cursorY t) (maxLine t) t) in
    let t := clear_rows (Z.to_nat (cursorY t)) t in
    let '(n, err, t) := write (outBuf t) t in
    match err with
    | Some e => Ok (0, Some e, t)
    | None =>
        let? '(n, err, t) := crlf_all (set_out "" t) in
        match err with
        | Some e => Ok (n, Some e, t)
        | None =>
            let? t := writeLine (prompt t) t in
            let? t := if echo t then writeLine (line t) t else Ok t in
            let t := moveCursorToPos (pos t) t in
            let '(_, err, t) := write (outBuf t) t in
            match err with Some e => Ok (n, Some e, t) | None => Ok (n, None, set_out "" t) end
        end
    end.

Fixpoint clear_down (n : nat) (t : Terminal) : Terminal :=
  match n with
  | O => t
  | S n => let t := move 0 1 0 0 t in clear_down n (clearLineToRight (set_cursor (cursorX t) (cursorY t + 1) (maxLine t) t))
  end.

Definition clearAndRepaintLinePlusNPrevious (numPrevLines : Z) (t : Terminal) : outcome Terminal :=
  let t := move (cursorY t) 0 (cursorX t) 0 t in
  let t := clearLineToRight (set_cursor 0 0 (maxLine t) t) in
  let t := clear_down (Z.to_nat numPrevLines) t in
  let t := move (cursorY t) 0 0 0 t in
  let t := queue (prompt t) (set_cursor 0 0 (maxLine t) t) in
  let? t := writeLine (line t) (advanceCursor (visualLength (prompt t)) t) in
  Ok (moveCursorToPos (pos t) t).

Definition SetSize (width height : Z) (t : Terminal) : outcome (error_ * Terminal) :=
  let width := if width =? 0 then 1 else width in
  let oldWidth := termWidth t in
  let t := set_size width height t in
  let send (t : Terminal) := let '(_, err, t) := write (outBuf t) t in Ok (err, set_out "" t) in
  if width =? oldWidth then Ok (None, t)
  else if (match line t with [] => true | _ => false end) && (cursorX t =? 0) && (cursorY t =? 0) then Ok (None, t)
  else if width <? oldWidth then
    let x := if termWidth t <=? cursorX t then termWidth t - 1 else cursorX t in
    let t := set_cursor x (cursorY t * 2) (maxLine t) t in
    let? t := clearAndRepaintLinePlusNPrevious (maxLine t * 2) t in send t
  else let? t := clearAndRepaintLinePlusNPrevious (maxLine t) t in send t.
End Writes.

Definition SetBracketedPasteMode (on : bool) : string := String esc (if on then "[?2004h" else "[?2004l").

(** ** A password without a terminal editor *)

(** [readPasswordLine], on what Read answers one byte at a time. *)
Fixpoint readPasswordLine (reads : list (ascii + string)) (ret : string) : outcome (string * error_) :=
  match reads with
  | [] => Blocked
  | inl c :: reads =>
      if Ascii.eqb c "010" then Ok (ret, None)
      else if Ascii.eqb c "013" then readPasswordLine reads ret
      else readPasswordLine reads (ret +:+ String c "")
  | inr e :: _ => Ok (ret, if (e =? EOF)%string && negb (ret =? "")%string then None else Some e)
  end.

(** ** The history is a ring *)

Definition ring_ok (s : stRingBuffer) : Prop :=
  (entries s = [] /\ size s = 0 /\ head s = 0) \/
  (Z.of_nat (List.length (entries s)) = max s /\ 0 < max s /\ 0 <= head s < max s /\ 0 <= size s <= max s).

(** The lines that the ring holds, the last first. *)
Definition recalled (s : stRingBuffer) (l : list string) : Prop :=
  Z.of_nat (List.length l) = size s /\ forall n, 0 <= n -> NthPreviousEntry n s = l !! Z.to_nat n.

Lemma nth_index s n : ring_ok s -> 0 <= n < size s ->
  NthPreviousEntry n s = entries s !! Z.to_nat ((head s - n) mod max s).
Proof.
  intros H Hn. destruct H as [(_ & H & _)|(Hl & Hm & Hh & Hs)]; [lia|]. unfold NthPreviousEntry.
  destruct (Z.leb_spec (size s) n); [lia|]. do 2 f_equal. destruct (Z.ltb_spec (head s - n) 0).
  - rewrite <- (Z.mod_add _ 1) by lia. rewrite Z.mod_small by lia. lia.
  - by rewrite Z.mod_small by lia.
Qed.

Lemma ring_Add_ok a s : ring_ok s -> ring_ok (ring_Add a s).
Proof.
  intros H. right. unfold ring_Add.
  assert (0 < max s -> 0 <= Z.rem (head s + 1) (max s) < max s \/ head s < 0) as Hr.
  { intros Hm. destruct (Z.ltb_spec (head s) 0); [by right|left]. rewrite Z.rem_mod_nonneg by lia. apply Z.mod_pos_bound. lia. }
  destruct H as [(-> & Hz & Hh)|(Hl & Hm & Hh & Hs)].
  - cbn [entries max head size]. rewrite Hz, Hh. rewrite length_insert. split; [by rewrite repeat_length|]. split; [done|]. split; [done|]. split; vm_compute; discriminate.
  - destruct (entries s) as [|e es] eqn:E; [cbn in Hl; lia|]. cbn [entries max head size]. rewrite E, length_insert. split; [done|]. split; [done|].
    split; [destruct (Hr Hm); lia|]. destruct (Z.ltb_spec (size s) (max s)); lia.
Qed.

Lemma ring_recalled a s l : ring_ok s -> (max s = defaultNumEntries \/ entries s = []) -> recalled s l ->
  recalled (ring_Add a s) (take (Z.to_nat defaultNumEntries) (a :: l)).
Proof.
  intros Hok Hmax [Hl Hn]. pose proof (ring_Add_ok a s Hok) as Hok'.
  assert (exists s0, ring_Add a s = ring_Add a s0 /\ size s0 = size s /\ max s0 = 100 /\ List.length (entries s0) = 100%nat /\ 0 <= head s0 < 100 /\ 0 <= size s0 <= 100 /\
            (forall n, 0 <= n < size s0 -> entries s0 !! Z.to_nat ((head s0 - n) mod 100) = l !! Z.to_nat n)) as (s0 & E & Es & Em & Ee & Eh & Ez & En).
  { destruct Hok as [(He & Hz & Hh)|(He & Hm & Hh & Hs)].
    - exists (mkRingBuffer (repeat "" 100) 100 (head s) (size s)). split; [unfold ring_Add; by rewrite He|]. cbn [size max head entries]. rewrite Hz, Hh.
      split_and!; try done; try lia. 
    - destruct Hmax as [Hmax|E]; [|rewrite E in He; cbn in He; lia]. unfold defaultNumEntries in Hmax. exists s. split_and!; try done; try lia.
      intros n H. rewrite <- Hn by lia. rewrite nth_index by (done || (right; done)). by rewrite Hmax. }
  rewrite E in *. clear E Hok. rewrite <- Es in Hl. clear Es Hmax Hn.
  set (h := (head s0 + 1) mod 100). assert (0 <= h < 100) as Hh by (apply Z.mod_pos_bound; lia).
  assert (ring_Add a s0 = mkRingBuffer (<[Z.to_nat h := a]> (entries s0)) 100 h (if size s0 <? 100 then size s0 + 1 else size s0)) as E.
  { unfold ring_Add. destruct (entries s0) as [|e es] eqn:E; [done|]. rewrite E, Em. unfold h. by rewrite Z.rem_mod_nonneg by lia. }
  rewrite E in *. split.
  - cbn [size]. rewrite length_take. cbn [List.length]. change (Z.to_nat defaultNumEntries) with 100%nat. destruct (Z.ltb_spec (size s0) 100); lia.
  - intros n H0. destruct (Z.ltb_spec n (if size s0 <? 100 then size s0 + 1 else size s0)) as [Hlt|Hge].
    + rewrite nth_index by done. cbn [entries head max size] in *. rewrite lookup_take_lt by (change (Z.to_nat defaultNumEntries) with 100%nat; destruct (Z.ltb_spec (size s0) 100); lia).
      destruct (Z.eqb_spec n 0) as [->|Hne].
      * rewrite Z.sub_0_r, Z.mod_small by lia. cbn. apply list_lookup_insert_eq. lia.
      * replace (Z.to_nat n) with (S (Z.to_nat (n - 1))) by lia. cbn [lookup list_lookup]. rewrite <- En by (destruct (Z.ltb_spec (size s0) 100); lia).
        assert ((h - n) mod 100 = (head s0 - (n - 1)) mod 100) as ->.
        { unfold h. rewrite Zminus_mod_idemp_l. f_equal. lia. }
        apply list_lookup_insert_ne. unfold h. intros Eq. apply Z2Nat.inj in Eq; [|apply Z.mod_pos_bound; lia..].
        assert (n <= 99) by (destruct (Z.ltb_spec (size s0) 100); lia). Z.to_euclidean_division_equations. lia.
    + unfold NthPreviousEntry. cbn [size]. destruct (Z.leb_spec (if size s0 <? 100 then size s0 + 1 else size s0) n); [|lia].
      symmetry. apply lookup_ge_None_2. rewrite length_take. cbn [List.length]. change (Z.to_nat defaultNumEntries) with 100%nat. destruct (Z.ltb_spec (size s0) 100); lia.
Qed.

Lemma ring_Add_max a s : max s = defaultNumEntries \/ entries s = [] -> max (ring_Add a s) = defaultNumEntries \/ entries (ring_Add a s) = [].
Proof. intros H. left. unfold ring_Add. destruct H as [H|H]; [destruct (entries s)|rewrite H]; done. Qed.

(** The history is the last hundred lines: whatever was added, the entry [n] steps
    back is the line that was added [n] lines before the last, if it is among them. *)
Theorem history_recalls lines n : 0 <= n ->
  NthPreviousEntry n (fold_left (fun s a => ring_Add a s) lines (mkRingBuffer [] 0 0 0)) = take (Z.to_nat defaultNumEntries) (rev lines) !! Z.to_nat n.
Proof.
  set (s := fold_left (fun s a => ring_Add a s) lines (mkRingBuffer [] 0 0 0)).
  assert (ring_ok s /\ (max s = defaultNumEntries \/ entries s = []) /\ recalled s (take (Z.to_nat defaultNumEntries) (rev lines))) as (_ & _ & _ & H); [|apply H].
  subst s. induction lines as [|a lines (H1 & H2 & H3)] using rev_ind.
  - split; [by left|]. split; [by right|]. split; [done|]. intros m Hm. unfold NthPreviousEntry. cbn [fold_left size]. cbn [rev]. rewrite firstn_nil. by destruct (Z.leb_spec 0 m); [|lia].
  - rewrite fold_left_app, rev_unit. cbn [fold_left]. split; [by apply ring_Add_ok|]. split; [by apply ring_Add_max|].
    pose proof (ring_recalled a _ _ H1 H2 H3) as H. revert H. generalize (Z.to_nat defaultNumEntries) as k. intros [|k] H; [done|].
    cbn [take] in *. rewrite take_take in H. replace (k `min` S k)%nat with k in H by lia. exact H.
Qed.

(** ** The cursor *)

Lemma visual_nonneg b l : 0 <= visual_go b l.
Proof. revert b. induction l as [|r l IH]; intros b; cbn [visual_go]; [lia|]. pose proof (IH (negb (is_letter r))). pose proof (IH true). pose proof (IH false). destruct b; [done|]. destruct (r =? 27); lia. Qed.

(** The cursor is on the screen; it stands at the place [p] of the line. *)
Definition cursor_ok (t : Terminal) : Prop := 0 < termWidth t /\ 0 <= cursorX t < termWidth t /\ 0 <= cursorY t.
Definition stands (p : nat) (t : Terminal) : Prop :=
  let x := visualLength (prompt t) + Z.of_nat p in cursorX t = x mod termWidth t /\ cursorY t = x / termWidth t.

(** What editing leaves alone. *)
Record same_frame (t t' : Terminal) : Prop := mkSame {
  sm_prompt : prompt t' = prompt t;
  sm_echo : echo t' = echo t;
  sm_paste : pasteActive t' = pasteActive t;
  sm_width : termWidth t' = termWidth t;
  sm_height : termHeight t' = termHeight t;
  sm_remainder : remainder t' = remainder t;
  sm_history : history t' = history t;
  sm_index : historyIndex t' = historyIndex t;
  sm_pending : historyPending t' = historyPending t;
  sm_written : written t' = written t;
}.
(** A change of the screen only. *)
Definition display (t t' : Terminal) : Prop := same_frame t t' /\ line t' = line t /\ pos t' = pos t.

#[export] Instance same_frame_refl : Reflexive same_frame.
Proof. by split. Qed.
#[export] Instance same_frame_trans : Transitive same_frame.
Proof. intros a b c [] []. split; congruence. Qed.
#[export] Instance display_refl : Reflexive display.
Proof. by split. Qed.
#[export] Instance display_trans : Transitive display.
Proof. intros a b c (H1 & H2 & H3) (H4 & H5 & H6). split; [by transitivity b|]. split; congruence. Qed.

Lemma queue_display l t : display t (queue l t).
Proof. done. Qed.
Lemma queue_cursor l t : cursor_ok t -> cursor_ok (queue l t).
Proof. done. Qed.

Lemma advance_display n t : display t (advanceCursor n t).
Proof. unfold advanceCursor. cbv zeta. by destruct (_ && _). Qed.

Lemma advance_cursor n t : 0 <= n -> cursor_ok t ->
  cursor_ok (advanceCursor n t) /\ cursorX (advanceCursor n t) = (cursorX t + n) mod termWidth t /\ cursorY (advanceCursor n t) = cursorY t + (cursorX t + n) / termWidth t.
Proof.
  intros Hn (Hw & Hx & Hy).
  assert (cursorX (advanceCursor n t) = (cursorX t + n) mod termWidth t) as Ex.
  { unfold advanceCursor. cbv zeta. destruct (_ && _); cbn; by rewrite Z.rem_mod_nonneg by lia. }
  assert (cursorY (advanceCursor n t) = cursorY t + (cursorX t + n) / termWidth t) as Ey.
  { unfold advanceCursor. cbv zeta. destruct (_ && _); cbn; by rewrite Z.quot_div_nonneg by lia. }
  split; [|done]. destruct (advance_display n t) as ([_ _ _ Ew _ _ _ _ _ _] & _ & _). unfold cursor_ok. rewrite Ew, Ex, Ey. split; [done|].
  split; [apply Z.mod_pos_bound; lia|]. pose proof (Z.div_pos (cursorX t + n) (termWidth t)). lia.
Qed.

Lemma move_display p t : display t (moveCursorToPos p t).
Proof. unfold moveCursorToPos, move. by destruct (echo t). Qed.

Lemma move_silent p t : echo t = false -> moveCursorToPos p t = t.
Proof. intros H. unfold moveCursorToPos. by rewrite H. Qed.

Lemma move_cursor p t : cursor_ok t -> cursor_ok (moveCursorToPos p t) /\ (echo t = true -> stands p (moveCursorToPos p t)).
Proof.
  intros (Hw & Hx & Hy). destruct (echo t) eqn:E; [|by rewrite move_silent]. pose proof (visual_nonneg false (prompt t)) as Hv. fold (visualLength (prompt t)) in Hv.
  unfold moveCursorToPos, move, queue, cursor_ok, stands. rewrite E. cbn. rewrite Z.quot_div_nonneg, Z.rem_mod_nonneg by lia.
  split; [|done]. split; [done|]. split; [apply Z.mod_pos_bound; lia|apply Z.div_pos; lia].
Qed.

Lemma rows_ok fuel : forall l t, cursor_ok t -> (List.length l < fuel)%nat -> exists t', write_rows fuel l t = Ok t' /\ display t t' /\ cursor_ok t'.
Proof.
  induction fuel as [|fuel IH]; intros l t Hc Hl; [lia|]. cbn [write_rows]. destruct l as [|r l]; [by exists t|]. pose proof Hc as (Hw & Hx & Hy).
  set (n := if termWidth t - cursorX t <? Z.of_nat (List.length (r :: l)) then termWidth t - cursorX t else Z.of_nat (List.length (r :: l))).
  assert (1 <= n <= Z.of_nat (List.length (r :: l))) as Hn by (unfold n; cbn [List.length]; destruct (Z.ltb_spec (termWidth t - cursorX t) (Z.of_nat (S (List.length l)))); lia).
  destruct (Z.ltb_spec n 0); [lia|]. set (row := take (Z.to_nat n) (r :: l)).
  destruct (advance_cursor (visualLength row) (queue row t)) as [Hc' _]; [apply visual_nonneg|done|].
  destruct (IH (drop (Z.to_nat n) (r :: l)) _ Hc') as (t' & E & Hd & Hk); [rewrite length_drop; cbn [List.length] in *; lia|].
  exists t'. split; [exact E|]. split; [|done]. etransitivity; [apply (queue_display row)|]. etransitivity; [apply advance_display|exact Hd].
Qed.

Lemma writeLine_ok l t : cursor_ok t -> exists t', writeLine l t = Ok t' /\ display t t' /\ cursor_ok t'.
Proof. intros H. apply rows_ok; [done|lia]. Qed.

Lemma times_ok n l : forall t, cursor_ok t -> exists t', times n (writeLine l) t = Ok t' /\ display t t' /\ cursor_ok t'.
Proof.
  induction n as [|n IH]; intros t H; [by exists t|]. cbn [times]. destruct (writeLine_ok l t H) as (t1 & -> & H1 & H2). cbn [obind].
  destruct (IH t1 H2) as (t' & -> & H3 & H4). exists t'. split; [done|]. split; [by transitivity t1|done].
Qed.

(** ** Editing *)

(** The line and the cursor after an operation. *)
Record edit_to (l : list Z) (p : nat) (t t' : Terminal) : Prop := mkEdit {
  ed_frame : same_frame t t';
  ed_line : line t' = l;
  ed_pos : pos t' = p;
  ed_cursor : cursor_ok t';
  ed_stands : echo t = true -> stands p t';
}.
(** Without echo the screen does not change. *)
Definition unseen (t t' : Terminal) : Prop :=
  echo t = false -> outBuf t' = outBuf t /\ cursorX t' = cursorX t /\ cursorY t' = cursorY t.

Lemma unseen_same t t' : outBuf t' = outBuf t -> cursorX t' = cursorX t -> cursorY t' = cursorY t -> unseen t t'.
Proof. by split. Qed.

Lemma set_line_frame l p t : same_frame t (set_line l p t).
Proof. done. Qed.

Lemma stands_frame p t t' : same_frame t t' -> cursorX t' = cursorX t -> cursorY t' = cursorY t -> stands p t -> stands p t'.
Proof. intros [Hp _ _ Hw _ _ _ _ _ _] Hx Hy. unfold stands. by rewrite Hp, Hw, Hx, Hy. Qed.

(** The last step of most operations: the cursor goes to its place. *)
Lemma goto_edit l p t t1 : same_frame t t1 -> cursor_ok t1 -> line t1 = l -> pos t1 = p -> edit_to l p t (moveCursorToPos p t1).
Proof.
  intros Hf Hc Hl Hp. destruct (move_display p t1) as (Hf' & Hl' & Hp'). destruct (move_cursor p t1 Hc) as [Hc' Hs].
  split; [by transitivity t1|congruence|congruence|done|]. intros He. apply Hs. by rewrite (sm_echo _ _ Hf).
Qed.

Lemma goto_ok p t : cursor_ok t -> edit_to (line t) p t (moveCursorToPos p (set_line (line t) p t)) /\ unseen t (moveCursorToPos p (set_line (line t) p t)).
Proof. intros H. split; [by apply goto_edit|]. intros He. by rewrite move_silent. Qed.

Lemma setLine_ok l p t : cursor_ok t -> exists t', setLine l p t = Ok t' /\ edit_to l p t t' /\ unseen t t'.
Proof.
  intros Hc. unfold setLine. destruct (echo t) eqn:E.
  - destruct (move_cursor 0 t Hc) as [Hc0 _]. destruct (writeLine_ok l _ Hc0) as (t1 & -> & Hd1 & Hc1). cbn [obind].
    destruct (times_ok (List.length (line t) - List.length l) space t1 Hc1) as (t2 & -> & Hd2 & Hc2). cbn [obind].
    eexists. split; [done|]. split; [|by intros He; congruence].
    assert (same_frame t t2) as Hf by (transitivity t1; [transitivity (moveCursorToPos 0 t); [apply move_display|apply Hd1]|apply Hd2]).
    destruct (move_display p t2) as (Hf' & _ & _). destruct (move_cursor p t2 Hc2) as [Hc' Hs].
    split; [by transitivity t2; [|transitivity (moveCursorToPos p t2)]|done|done|exact Hc'|]. intros _.
    apply (stands_frame _ (moveCursorToPos p t2)); [done|done|done|]. apply Hs. by rewrite (sm_echo _ _ Hf).
  - cbn [obind]. eexists. split; [done|]. split; [|by split]. split; [done|done|done|exact Hc|]. intros He. congruence.
Qed.

Lemma from_ok l i : (i <= List.length l)%nat -> from l i = Ok (drop i l).
Proof. intros H. unfold from. by rewrite (proj2 (Nat.leb_le _ _) H). Qed.
Lemma upto_ok l i : (i <= List.length l)%nat -> upto l i = Ok (take i l).
Proof. intros H. unfold upto. by rewrite (proj2 (Nat.leb_le _ _) H). Qed.

Lemma spaces_display n t : display t (Nat.iter n (queue space) t) /\ (cursor_ok t -> cursor_ok (Nat.iter n (queue space) t)).
Proof.
  induction n as [|n [H1 H2]]; [done|]. cbn [Nat.iter]. split; [etransitivity; [exact H1|apply queue_display]|]. intros Hc. apply queue_cursor. by apply H2.
Qed.

Lemma erase_ok n t : cursor_ok t -> (pos t <= List.length (line t))%nat -> (n <= pos t)%nat -> (n = 0%nat -> echo t = true -> stands (pos t) t) ->
  exists t', eraseNPreviousChars n t = Ok t' /\ edit_to (take (pos t - n) (line t) ++ drop (pos t) (line t)) (pos t - n) t t' /\ unseen t t'.
Proof.
  intros Hc Hp Hn Hs. unfold eraseNPreviousChars. destruct (Nat.eqb_spec n 0) as [->|Hne].
  { exists t. rewrite Nat.sub_0_r, take_drop. split; [done|]. split; [|by apply unseen_same]. split; [done|done|done|done|by apply Hs]. }
  destruct (Nat.ltb_spec (pos t) n); [lia|]. cbn [pos set_line].
  set (q := (pos t - n)%nat). set (t0 := set_line (line t) q t). destruct (move_display q t0) as (Hf1 & Hl1 & Hp1).
  destruct (move_cursor q t0 Hc) as [Hc1 _]. set (t1 := moveCursorToPos q t0) in *.
  cbn [pos set_line]. change (line t0) with (line t) in *. change (pos t0) with q in *.
  rewrite Hp1, Hl1, from_ok by lia. cbn [obind]. replace (n + q)%nat with (pos t) by lia.
  set (l := take q (line t) ++ drop (pos t) (line t)). set (t2 := set_line l q t1).
  assert (same_frame t t2) as Hf2 by (transitivity t0; [done|]; transitivity t1; [exact Hf1|done]).
  change (echo t2) with (echo t1). rewrite (sm_echo _ _ Hf1). change (echo t0) with (echo t). destruct (echo t) eqn:E.
  - change (line t2) with l. change (pos t2) with q. destruct (writeLine_ok (drop q l) t2 Hc1) as (t3 & -> & Hd3 & Hc3). cbn [obind]. eexists. split; [done|].
    destruct (spaces_display n t3) as [Hd4 Hc4]. specialize (Hc4 Hc3). set (t4 := Nat.iter n (queue space) t3) in *.
    destruct (advance_cursor (Z.of_nat n) t4) as [Hc5 _]; [lia|done|]. pose proof (advance_display (Z.of_nat n) t4) as Hd5.
    split; [|by intros He; congruence]. destruct Hd3 as (F3 & L3 & P3), Hd4 as (F4 & L4 & P4), Hd5 as (F5 & L5 & P5).
    rewrite P4, P3. change (pos t2) with q. apply goto_edit; [|exact Hc5|by rewrite L5, L4, L3|by rewrite P5, P4, P3].
    transitivity t2; [done|]. transitivity t3; [done|]. by transitivity t4.
  - exists t2. split; [done|]. split; [split; [done|done|done|exact Hc1|by intros He; congruence]|].
    intros _. subst t2 t1. by rewrite move_silent.
Qed.

Lemma add_ok key t : cursor_ok t -> (pos t <= List.length (line t))%nat ->
  exists t', addKeyToLine key t = Ok t' /\ edit_to (take (pos t) (line t) ++ key :: drop (pos t) (line t)) (S (pos t)) t t' /\ unseen t t'.
Proof.
  intros Hc Hp. unfold addKeyToLine. rewrite from_ok by done. cbn [obind]. set (l := take (pos t) (line t) ++ key :: drop (pos t) (line t)).
  set (t1 := set_line l (pos t) t). change (echo t1) with (echo t). destruct (echo t) eqn:E.
  - destruct (writeLine_ok (drop (pos t1) (line t1)) t1 Hc) as (t2 & -> & (F2 & L2 & P2) & Hc2). cbn [obind]. eexists. split; [done|].
    split; [|by intros He; congruence]. cbn [pos set_line]. rewrite P2. change (pos t1) with (pos t). apply goto_edit; [|exact Hc2|exact L2|done].
    transitivity t2; [|done]. by transitivity t1.
  - cbn [obind]. eexists. split; [done|]. split; [|by intros _; rewrite move_silent]. rewrite move_silent by done. split; [done|done|done|exact Hc|by intros He; congruence].
Qed.

(** *** The reference: a line in two parts *)

(** How many runes the word before the cursor takes, with the spaces after it; a word
    after one space at the start of the line takes this space with it. *)
Definition word_before (before : list Z) : nat :=
  let rb := rev before in
  let n := skip_while (fun r => r =? 32) rb in
  let n := (n + skip_while (fun r => negb (r =? 32)%Z) (drop n rb))%nat in
  if (List.length before =? S n)%nat then List.length before else n.

Definition word_after (after : list Z) : nat :=
  let n := skip_while (fun r => negb (r =? 32)%Z) after in (n + skip_while (fun r => (r =? 32)%Z) (drop n after))%nat.

(** What a key does to the part before the cursor and the part after it. *)
Definition edit (key : Z) (before after : list Z) : list Z * list Z :=
  let back n := take (List.length before - n) before in
  let taken n := drop (List.length before - n) before in
  if key =? keyBackspace then (back 1%nat, after)
  else if key =? keyAltLeft then (back (word_before before), taken (word_before before) ++ after)
  else if key =? keyAltRight then (before ++ take (word_after after) after, drop (word_after after) after)
  else if key =? keyLeft then (back 1%nat, taken 1%nat ++ after)
  else if key =? keyRight then (before ++ take 1 after, drop 1 after)
  else if key =? keyHome then ([], before ++ after)
  else if key =? keyEnd then (before ++ after, [])
  else if key =? keyDeleteWord then (back (word_before before), after)
  else if key =? keyDeleteLine then (before, [])
  else if key =? keyCtrlD then (before, drop 1 after)
  else if key =? keyCtrlU then ([], after)
  else if key =? keyClearScreen then (before, after)
  else if negb (isPrintable key) || (Z.of_nat (List.length (before ++ after)) =? maxLineLength) then (before, after)
  else (before ++ [key], after).

(** The terminal between keys. *)
Definition editing (t : Terminal) : Prop :=
  cursor_ok t /\ (pos t <= List.length (line t))%nat /\ (echo t = true -> stands (pos t) t).

Lemma skip_while_le f l : (skip_while f l <= List.length l)%nat.
Proof. induction l as [|r l IH]; cbn; [lia|]. destruct (f r); lia. Qed.

(** Going back over a list is going forward over its reverse. *)
Lemma skip_back_spec stop l p : (p < List.length l)%nat ->
  let n := skip_while (fun r => negb (stop r)) (rev (take (S p) l)) in
  skip_back stop l p = Ok (if (p <=? n)%nat then (0%nat, false) else ((p - n)%nat, true)).
Proof.
  induction p as [|p IH]; intros Hp; [done|]. cbv zeta. cbn [skip_back].
  destruct (lookup_lt_is_Some_2 l (S p) Hp) as [r Hr]. rewrite Hr. rewrite (take_S_r _ _ _ Hr), rev_unit. cbn [skip_while].
  destruct (stop r) eqn:E; cbn [negb]; [done|]. rewrite IH by lia.
  set (n := skip_while (fun r => negb (stop r)) (rev (take (S p) l))). destruct (Nat.leb_spec p n), (Nat.leb_spec (S p) (S n)); try lia; [done|]. 
  by replace (S p - S n)%nat with (p - n)%nat by lia.
Qed.

Lemma left_word t : (pos t <= List.length (line t))%nat -> countToLeftWord t = Ok (word_before (take (pos t) (line t))).
Proof.
  intros Hp. unfold countToLeftWord. destruct (pos t) as [|p] eqn:E; [done|]. set (l := line t) in *.
  set (before := take (S p) l). assert (List.length before = S p) as Hlen by (unfold before; rewrite length_take; lia).
  pose proof (skip_back_spec (fun r => negb (r =? 32)) l p ltac:(lia)) as H1. cbv zeta in H1.
  set (n1 := skip_while (fun r => negb (negb (r =? 32))) (rev (take (S p) l))) in H1.
  assert (n1 = skip_while (fun r => r =? 32) (rev before)) as E1.
  { unfold n1, before. generalize (rev (take (S p) l)) as x. induction x as [|r x IH]; [done|]. cbn [skip_while]. rewrite negb_involutive. destruct (r =? 32); [by rewrite IH|done]. }
  pose proof (skip_while_le (fun r => r =? 32) (rev before)) as L1. rewrite <- E1, length_rev, Hlen in L1.
  assert (exists b, (if (p <=? n1)%nat then (0%nat, false) else ((p - n1)%nat, true)) = ((p - n1)%nat, b)) as [b Eb].
  { destruct (Nat.leb_spec p n1); [|by eexists]. exists false. f_equal. lia. }
  rewrite H1, Eb. cbn [obind]. clear H1 Eb b.
  pose proof (skip_back_spec (fun r => r =? 32) l (p - n1) ltac:(lia)) as H2. cbv zeta in H2.
  set (n2 := skip_while (fun r => negb (r =? 32)) (rev (take (S (p - n1)) l))) in H2. rewrite H2. clear H2.
  unfold word_before. rewrite <- E1, Hlen.
  assert (skip_while (fun r => negb (r =? 32)) (drop n1 (rev before)) = if (n1 <=? p)%nat then n2 else 0%nat) as ->.
  { assert (drop n1 (rev before) = rev (take (S p - n1) l)) as ->.
    { unfold before. rewrite skipn_rev, length_take, take_take. f_equal. f_equal. lia. }
    destruct (Nat.leb_spec n1 p); [by replace (S p - n1)%nat with (S (p - n1)) by lia|]. by replace (S p - n1)%nat with 0%nat by lia. }
  pose proof (skip_while_le (fun r => negb (r =? 32)) (rev (take (S (p - n1)) l))) as L2. fold n2 in L2. rewrite length_rev, length_take in L2.
  destruct (Nat.leb_spec (p - n1) n2), (Nat.leb_spec n1 p); cbn [obind]; f_equal;
    match goal with |- context [(S p =? ?x)%nat] => destruct (Nat.eqb_spec (S p) x) end; lia.
Qed.

Lemma right_word t : countToRightWord t = word_after (drop (pos t) (line t)).
Proof. done. Qed.

(** A key that edits the line: none that recalls the history or enters the line. *)
Definition edits (key : Z) : Prop := key <> keyUp /\ key <> keyDown /\ key <> keyEnter.
(** The keys that write to the screen even without echo. *)
Definition writes (key : Z) : Prop := key = keyDeleteLine \/ key = keyClearScreen.

(** The outcome of a key: the two parts of the line, on a terminal between keys. *)
Definition edited_to (l r : list Z) (t t' : Terminal) : Prop := edit_to (l ++ r) (List.length l) t t'.

Lemma edited_editing l r t t' : edited_to l r t t' -> editing t'.
Proof.
  intros [F L P C S]. split; [done|]. rewrite L, P. split; [rewrite length_app; lia|]. intros He. apply S. by rewrite <- (sm_echo _ _ F).
Qed.

Lemma word_before_le before : (word_before before <= List.length before)%nat.
Proof.
  unfold word_before. set (n := skip_while (fun r => r =? 32) (rev before)). pose proof (skip_while_le (fun r => r =? 32) (rev before)) as H1. fold n in H1.
  pose proof (skip_while_le (fun r => negb (r =? 32)) (drop n (rev before))) as H2. rewrite length_drop in H2. rewrite length_rev in *.
  match goal with |- context [if ?c then _ else _] => destruct c end; lia.
Qed.
Lemma word_after_le after : (word_after after <= List.length after)%nat.
Proof.
  unfold word_after. set (n := skip_while (fun r => negb (r =? 32)) after). pose proof (skip_while_le (fun r => negb (r =? 32)) after) as H1. fold n in H1.
  pose proof (skip_while_le (fun r => r =? 32) (drop n after)) as H2. rewrite length_drop in H2. lia.
Qed.
Lemma clear_iter n t : cursor_ok t -> display t (Nat.iter n (fun t => advanceCursor 1 (queue space t)) t) /\ cursor_ok (Nat.iter n (fun t => advanceCursor 1 (queue space t)) t).
Proof.
  intros Hc. induction n as [|n [H1 H2]]; [done|]. cbn [Nat.iter]. split.
  - etransitivity; [exact H1|]. etransitivity; [apply (queue_display space)|]. apply advance_display.
  - apply advance_cursor; [lia|done].
Qed.

Section Edits.
Context (before after : list Z) (t : Terminal).
Hypothesis Hline : line t = before ++ after.
Hypothesis Hpos : pos t = List.length before.
Hypothesis Hok : editing t.

Lemma take_before : take (pos t) (line t) = before.
Proof. rewrite Hline, Hpos. apply take_app_length. Qed.
Lemma drop_before : drop (pos t) (line t) = after.
Proof. rewrite Hline, Hpos. apply drop_app_length. Qed.

Lemma stay_ok : edited_to before after t t /\ unseen t t.
Proof. destruct Hok as (Hc & _ & Hs). split; [|by apply unseen_same]. split; [done|done|done|done|]. by rewrite <- Hpos. Qed.

Lemma goto_parts l r : l ++ r = before ++ after -> edited_to l r t (moveCursorToPos (List.length l) (set_line (line t) (List.length l) t)) /\
  unseen t (moveCursorToPos (List.length l) (set_line (line t) (List.length l) t)).
Proof. intros E. destruct Hok as (Hc & _). destruct (goto_ok (List.length l) t Hc) as [H Hu]. split; [|done]. unfold edited_to. by rewrite E, <- Hline. Qed.

Lemma erase_parts n : (n <= List.length before)%nat ->
  exists t', eraseNPreviousChars n t = Ok t' /\ edited_to (take (List.length before - n) before) after t t' /\ unseen t t'.
Proof.
  intros Hn. destruct Hok as (Hc & Hp & Hs). destruct (erase_ok n t Hc Hp ltac:(lia) (fun _ => Hs)) as (t' & E & H & Hu). exists t'. split; [done|]. split; [|done].
  unfold edited_to. rewrite drop_before, Hpos in H. rewrite length_take, Nat.min_l by lia. rewrite Hline, take_app_le in H by lia. exact H.
Qed.

Lemma add_parts key : exists t', addKeyToLine key t = Ok t' /\ edited_to (before ++ [key]) after t t' /\ unseen t t'.
Proof.
  destruct Hok as (Hc & Hp & _). destruct (add_ok key t Hc Hp) as (t' & E & H & Hu). exists t'. split; [done|]. split; [|done].
  unfold edited_to. rewrite take_before, drop_before, Hpos in H. rewrite <- app_assoc, length_app. cbn [List.length app]. by rewrite Nat.add_1_r.
Qed.

Lemma setLine_parts l r : exists t', setLine (l ++ r) (List.length l) t = Ok t' /\ edited_to l r t t' /\ unseen t t'.
Proof. destruct Hok as (Hc & _). by apply setLine_ok. Qed.

End Edits.

Section Keys.
Context (before after : list Z) (t : Terminal).
Hypothesis Hline : line t = before ++ after.
Hypothesis Hpos : pos t = List.length before.
Hypothesis Hok : editing t.

(** What a key has to come to. *)
Abbreviation comes_to key :=
  (exists t', handleKey None key t = Ok (t', None) /\ edited_to (edit key before after).1 (edit key before after).2 t t' /\ (writes key \/ unseen t t')).

Lemma goto_comes key l r : edit key before after = (l, r) -> l ++ r = before ++ after ->
  handleKey None key t = Ok (moveCursorToPos (List.length l) (set_line (line t) (List.length l) t), None) -> comes_to key.
Proof.
  intros E El H. destruct (goto_parts before after t Hline Hok l r El) as [Ht Hu]. eexists. split; [exact H|]. rewrite E. split; [exact Ht|by right].
Qed.

Lemma stay_comes key : edit key before after = (before, after) -> handleKey None key t = Ok (t, None) -> comes_to key.
Proof. intros E H. destruct (stay_ok before after t Hline Hpos Hok) as [Ht Hu]. exists t. split; [exact H|]. rewrite E. split; [exact Ht|by right]. Qed.

Lemma erase_comes key n : (n <= List.length before)%nat -> edit key before after = (take (List.length before - n) before, after) ->
  handleKey None key t = (let? t' := eraseNPreviousChars n t in Ok (t', None)) -> comes_to key.
Proof.
  intros Hn E H. destruct (erase_parts before after t Hline Hpos Hok n Hn) as (t' & E' & Ht & Hu). exists t'. rewrite H, E', E. split; [done|]. split; [exact Ht|by right].
Qed.

Lemma other_comes key : edit key before after = (if negb (isPrintable key) || (Z.of_nat (List.length (before ++ after)) =? maxLineLength) then (before, after) else (before ++ [key], after)) ->
  handleKey None key t = (let? t := other_key None key t in Ok (t, None)) -> comes_to key.
Proof.
  intros E H. assert (List.length (line t) = List.length (before ++ after)) as Hl by by rewrite Hline. destruct Hok as (_ & Hp & _).
  assert (other_key None key t = if negb (isPrintable key) then Ok t else if Z.of_nat (List.length (before ++ after)) =? maxLineLength then Ok t else addKeyToLine key t) as Eo.
  { unfold other_key. cbn [obind]. by rewrite Hl. }
  rewrite Eo in H. clear Eo. destruct (stay_ok before after t Hline Hpos Hok) as [Ht Hu].
  destruct (negb (isPrintable key)); [exists t; rewrite H, E; split; [done|]; split; [exact Ht|by right]|].
  destruct (_ =? maxLineLength); [exists t; rewrite H, E; split; [done|]; split; [exact Ht|by right]|].
  destruct (add_parts before after t Hline Hpos Hok key) as (t' & Ea & Ht' & Hu'). exists t'. rewrite H, Ea, E. split; [done|]. split; [exact Ht'|by right].
Qed.

Lemma empty_before : pos t = 0%nat -> before = [].
Proof. rewrite Hpos. by destruct before. Qed.
Lemma empty_after : pos t = List.length (line t) -> after = [].
Proof. rewrite Hpos, Hline, length_app. destruct after; cbn; [done|lia]. Qed.

Lemma delete_line_comes : pasteActive t = false -> comes_to keyDeleteLine.
Proof.
  intros Hpaste. unfold handleKey. rewrite Hpaste. cbn [andb].
  repeat match goal with |- context [Z.eqb keyDeleteLine ?b] => let v := eval vm_compute in (Z.eqb keyDeleteLine b) in change (Z.eqb keyDeleteLine b) with v end.
  cbv iota zeta. destruct (clear_iter (List.length (line t) - pos t) t (proj1 Hok)) as [(F & L & P) Hc].
  set (t1 := Nat.iter (List.length (line t) - pos t) (fun t => advanceCursor 1 (queue space t)) t) in *.
  rewrite L, P, upto_ok by apply Hok. cbn [obind]. rewrite (take_before before after t Hline Hpos). eexists. split; [done|].
  change (edit keyDeleteLine before after) with (before, ([] : list Z)). cbn [fst snd]. split; [|left; by left].
  unfold edited_to. rewrite app_nil_r, Hpos. apply goto_edit; [|exact Hc|done|done]. etransitivity; [exact F|]. done.
Qed.

Lemma clear_screen_comes : pasteActive t = false -> comes_to keyClearScreen.
Proof.
  intros Hpaste. unfold handleKey. rewrite Hpaste. cbn [andb].
  repeat match goal with |- context [Z.eqb keyClearScreen ?b] => let v := eval vm_compute in (Z.eqb keyClearScreen b) in change (Z.eqb keyClearScreen b) with v end.
  cbv iota zeta. set (t0 := set_cursor 0 0 _ _). destruct Hok as (Hc & Hp & Hs). pose proof Hc as (Hw & _).
  assert (cursor_ok t0) as Hc0 by (split; [done|]; cbn; lia).
  destruct (advance_cursor (visualLength (prompt t)) t0) as [Hc1 _]; [apply visual_nonneg|done|].
  destruct (advance_display (visualLength (prompt t)) t0) as (F1 & L1 & P1). change (prompt (queue (prompt t) (queue clear_screen t))) with (prompt t).
  set (t1 := advanceCursor (visualLength (prompt t)) t0) in *.
  destruct (setLine_ok (line t1) (pos t1) t1 Hc1) as (t2 & -> & [F L P C S] & _). cbn [obind]. exists t2. split; [done|].
  change (edit keyClearScreen before after) with (before, after). cbn [fst snd]. split; [|left; by right].
  assert (same_frame t t1) as Ft1 by (transitivity t0; [done|exact F1]).
  split; [by transitivity t1|rewrite L, L1; exact Hline|rewrite P, P1; exact Hpos|exact C|]. intros He. rewrite <- Hpos. change (pos t) with (pos t0). rewrite <- P1. apply S.
  by rewrite (sm_echo _ _ Ft1).
Qed.

(** The tests of the switch on a key that is known. *)
Ltac key_is := cbn [andb]; repeat match goal with |- context [Z.eqb ?a ?b] => let v := eval vm_compute in (Z.eqb a b) in match v with true => idtac | false => idtac end; change (Z.eqb a b) with v end; cbv iota zeta.

Lemma known_key key : pasteActive t = false ->
  In key [keyBackspace; keyAltLeft; keyAltRight; keyLeft; keyRight; keyHome; keyEnd; keyDeleteWord; keyCtrlD; keyCtrlU] -> comes_to key.
Proof.
  intros Hpaste Hk. pose proof Hok as (Hc & Hp & Hs). pose proof (word_before_le before) as Hwb. pose proof (word_after_le after) as Hwa.
  assert (Hlw : countToLeftWord t = Ok (word_before before)) by (rewrite left_word, (take_before before after t Hline Hpos) by done; done).
  assert (Hrw : countToRightWord t = word_after after) by (rewrite right_word, (drop_before before after t Hline Hpos); done).
  assert (Hl : List.length (line t) = (List.length before + List.length after)%nat) by (rewrite Hline; apply length_app).
  cbn [In] in Hk. destruct Hk as [<-|[<-|[<-|[<-|[<-|[<-|[<-|[<-|[<-|[<-|[]]]]]]]]]]].
  - destruct (Nat.eqb_spec (pos t) 0) as [E0|Hne].
    + apply stay_comes; [by rewrite (empty_before E0)|]. unfold handleKey. rewrite Hpaste. key_is. by rewrite E0.
    + apply (erase_comes _ 1); [lia|done|]. unfold handleKey. rewrite Hpaste. key_is. by rewrite (proj2 (Nat.eqb_neq _ _) Hne).
  - eapply goto_comes; [reflexivity|by rewrite app_assoc, take_drop|]. unfold handleKey. rewrite Hpaste. key_is. rewrite Hlw. cbn [obind].
    rewrite length_take, Nat.min_l by lia. by rewrite Hpos.
  - eapply goto_comes; [reflexivity|by rewrite <- app_assoc, take_drop|]. unfold handleKey. rewrite Hpaste. key_is. rewrite Hrw, Hpos.
    by rewrite length_app, length_take, Nat.min_l by lia.
  - destruct (Nat.eqb_spec (pos t) 0) as [E0|Hne].
    + apply stay_comes; [by rewrite (empty_before E0)|]. unfold handleKey. rewrite Hpaste. key_is. by rewrite E0.
    + eapply goto_comes; [reflexivity|by rewrite app_assoc, take_drop|]. unfold handleKey. rewrite Hpaste. key_is. rewrite (proj2 (Nat.eqb_neq _ _) Hne).
      rewrite length_take, Nat.min_l by lia. by rewrite Hpos.
  - destruct (Nat.eqb_spec (pos t) (List.length (line t))) as [E0|Hne].
    + apply stay_comes; [rewrite (empty_after E0); unfold edit; key_is; by rewrite app_nil_r|]. unfold handleKey. rewrite Hpaste. key_is. by rewrite E0, Nat.eqb_refl.
    + eapply goto_comes; [reflexivity|by rewrite <- app_assoc, take_drop|]. unfold handleKey. rewrite Hpaste. key_is. rewrite (proj2 (Nat.eqb_neq _ _) Hne).
      rewrite length_app, length_take, Nat.min_l by lia. by rewrite Hpos, Nat.add_1_r.
  - destruct (Nat.eqb_spec (pos t) 0) as [E0|Hne].
    + apply stay_comes; [by rewrite (empty_before E0)|]. unfold handleKey. rewrite Hpaste. key_is. by rewrite E0.
    + eapply goto_comes; [reflexivity|done|]. unfold handleKey. rewrite Hpaste. key_is. by rewrite (proj2 (Nat.eqb_neq _ _) Hne).
  - destruct (Nat.eqb_spec (pos t) (List.length (line t))) as [E0|Hne].
    + apply stay_comes; [rewrite (empty_after E0); unfold edit; key_is; by rewrite app_nil_r|]. unfold handleKey. rewrite Hpaste. key_is. by rewrite E0, Nat.eqb_refl.
    + eapply goto_comes; [reflexivity|by rewrite app_nil_r|]. unfold handleKey. rewrite Hpaste. key_is. rewrite (proj2 (Nat.eqb_neq _ _) Hne). by rewrite Hline.
  - apply (erase_comes _ (word_before before)); [done|done|]. unfold handleKey. rewrite Hpaste. key_is. by rewrite Hlw.
  - destruct (Nat.ltb_spec (pos t) (List.length (line t))) as [Hlt|Hge].
    + destruct (erase_ok 1 (set_line (line t) (S (pos t)) t)) as (t' & E & [F L P C S] & Hu); [done|cbn; lia|cbn; lia|done|].
      exists t'. unfold handleKey. rewrite Hpaste. key_is. rewrite (proj2 (Nat.ltb_lt _ _) Hlt), E. split; [done|]. split; [|right; exact Hu].
      cbn [pos line set_line] in *. replace (Datatypes.S (pos t) - 1)%nat with (pos t) in * by lia.
      change (edit keyCtrlD before after) with (before, drop 1 after). cbn [fst snd].
      split; [by transitivity (set_line (line t) (Datatypes.S (pos t)) t)|rewrite L|by rewrite P|exact C|by rewrite <- Hpos].
      rewrite (take_before before after t Hline Hpos). f_equal. rewrite Hline, Hpos, <- Nat.add_1_r. by rewrite <- drop_drop, drop_app_length.
    + apply stay_comes; [rewrite (empty_after ltac:(lia)); done|]. unfold handleKey. rewrite Hpaste. key_is. by rewrite (proj2 (Nat.ltb_ge _ _) Hge).
  - apply (erase_comes _ (List.length before)); [done|by rewrite Nat.sub_diag|]. unfold handleKey. rewrite Hpaste. key_is. by rewrite Hpos.
Qed.

Lemma any_key key : pasteActive t = false -> edits key -> comes_to key.
Proof.
  intros Hpaste (Hu & Hd & He).
  destruct (in_dec Z.eq_dec key [keyBackspace; keyAltLeft; keyAltRight; keyLeft; keyRight; keyHome; keyEnd; keyDeleteWord; keyCtrlD; keyCtrlU]) as [Hin|Hout]; [by apply known_key|].
  destruct (Z.eq_dec key keyDeleteLine) as [->|Hdl]; [by apply delete_line_comes|]. destruct (Z.eq_dec key keyClearScreen) as [->|Hcs]; [by apply clear_screen_comes|].
  cbn [In] in Hout. assert (forall k, In k [keyBackspace; keyAltLeft; keyAltRight; keyLeft; keyRight; keyHome; keyEnd; keyDeleteWord; keyCtrlD; keyCtrlU; keyDeleteLine; keyClearScreen; keyUp; keyDown; keyEnter] -> (key =? k) = false) as Hne.
  { intros k Hk. apply Z.eqb_neq. intros ->. cbn [In] in Hk. intuition. }
  apply other_comes.
  - unfold edit. rewrite !Hne by (cbn [In]; tauto). done.
  - unfold handleKey. rewrite Hpaste. cbn [andb]. by rewrite !Hne by (cbn [In]; tauto).
Qed.
End Keys.

Lemma history_recalls_witness : 0 <= 1 /\
  NthPreviousEntry 1 (fold_left (fun s a => ring_Add a s) ["a"; "b"; "c"] (mkRingBuffer [] 0 0 0)) = take (Z.to_nat defaultNumEntries) (rev ["a"; "b"; "c"]) !! Z.to_nat 1.
Proof. split; [lia|]. apply (history_recalls ["a"; "b"; "c"] 1). lia. Defined.
