(* ===== verification/Lines.v ===== *)
(** Lines and passwords read from a terminal (xendor/github.com/glycerine/xcryptossh/terminal/terminal.go):
    the keys that are typed, in whatever pieces their bytes arrive, make the line that the
    reference editor makes of them; passwords are not shown. *)
From S2P Require Import Prelude.
From S2P Require Import GoStrings.
From S2P Require Import Wire.
From S2P Require Import Utf8.
From S2P Require Import Terminal.

(** ** Keys and their bytes *)

(** Runes that stand for themselves: not the ones of control keys, the escape, the ends of
    a line or of the input, nor the rune of an invalid encoding. *)
Definition plain_rune (r : Z) : bool :=
  valid_rune r && negb (existsb (Z.eqb r) [1; 5; 8; 11; 12; 23; keyCtrlD; keyEnter; keyEscape; RuneError]).

(** The bytes of a key. *)
Inductive spelled : Z -> string -> Prop :=
| spelled_rune r : plain_rune r = true -> spelled r (encode_valid r)
| spelled_control c k : In (c, k) [(1, keyHome); (5, keyEnd); (8, keyBackspace); (11, keyDeleteLine); (12, keyClearScreen); (23, keyDeleteWord)] ->
    spelled k (String (byte c) "")
| spelled_escape s k : In (s, k) [("[C", keyRight); ("[D", keyLeft); ("[H", keyHome); ("[F", keyEnd); ("[1;3C", keyAltRight); ("[1;3D", keyAltLeft)] ->
    spelled k (String esc s).

(** The first byte of a rune that stands for itself. *)
Lemma first_byte r : plain_rune r = true ->
  exists c s, encode_valid r = String c s /\ control_key (val c) = None /\ (val c =? keyEscape) = false.
Proof.
  intros H. apply andb_true_iff in H as [Hv Hn]. apply negb_true_iff in Hn.
  destruct (encode_shape r Hv) as [[Hr ->]|[(Hr & -> & _)|[(Hr & -> & _)|(Hr & -> & _)]]]; do 2 eexists; (split; [done|]); rewrite val_small by euclid.
  2-4: (split; [|apply Z.eqb_neq; unfold keyEscape; euclid]).
  2: assert (194 <= 192 + r / 64) as Hg by euclid; generalize dependent (192 + r / 64).
  3: assert (224 <= 224 + r / 4096) as Hg by euclid; generalize dependent (224 + r / 4096).
  4: assert (240 <= 240 + r / 262144) as Hg by euclid; generalize dependent (240 + r / 262144).
  2-4: intros z Hg; intros; unfold control_key; repeat case_match; lia || done.
  cbn [existsb] in Hn. repeat (apply orb_false_iff in Hn as [? Hn]). split; [|done].
  unfold control_key. repeat case_match; subst; done.
Qed.

Lemma rune_key r rest : plain_rune r = true -> bytesToKey (encode_valid r +:+ rest) false = (r, rest).
Proof.
  intros H. destruct (first_byte r H) as (c & s & E & Ec & Ee). apply andb_true_iff in H as [Hv _].
  pose proof (DecodeRune_encode r rest Hv) as Hd. pose proof (FullRune_encode r rest Hv) as Hf.
  rewrite E in *. cbn [append] in *. unfold bytesToKey. rewrite Ec, Ee, Hf, Hd. cbn [negb]. f_equal. apply (sdrop_app (String c s) rest).
Qed.

Lemma spelled_read k s rest : spelled k s -> bytesToKey (s +:+ rest) false = (k, rest).
Proof.
  intros [r H|c k' H|s' k' H]; [by apply rune_key|..]; cbn [In] in H;
    repeat match type of H with _ \/ _ => destruct H as [[= <- <-]|H] end; try done; by destruct rest.
Qed.

(** A part of a key is left for the next bytes. *)
Lemma spelled_part k s p q : spelled k s -> s = p +:+ q -> q <> "" -> bytesToKey p false = (RuneError, p).
Proof.
  intros [r H|c k' H|s' k' H] E Hq.
  - destruct (first_byte r H) as (c & s0 & Er & Ec & Ee). apply andb_true_iff in H as [Hv _]. destruct p as [|d p]; [done|].
    pose proof (FullRune_prefix r (String d p) q Hv E Hq) as Hf. rewrite Er in E. injection E as <- _. unfold bytesToKey. by rewrite Ec, Ee, Hf.
  - destruct p as [|d p]; [done|]. injection E as <- E. by destruct p, q.
  - cbn [In] in H. repeat match type of H with _ \/ _ => destruct H as [[= <- <-]|H] end; try done;
      repeat (destruct p as [|? p]; [try done; by subst q|cbn [append] in E; first [discriminate E|injection E as <- E]]); try done; by subst q.
Qed.

Lemma spelled_key k s : spelled k s -> edits k /\ k <> keyCtrlD /\ k <> RuneError /\ k <> keyPasteStart /\ (1 <= String.length s <= 6)%nat.
Proof.
  intros [r H|c k' H|s' k' H].
  - apply andb_true_iff in H as [Hv Hn]. apply negb_true_iff in Hn. cbn [existsb] in Hn. repeat (apply orb_false_iff in Hn as [?%Z.eqb_neq Hn]).
    assert (forall x, valid_rune x = false -> r <> x) as Hk by (intros x Hx ->; congruence). pose proof (encode_length r).
    split; [by split; [apply Hk|split; [apply Hk|]]|]. split; [done|]. split; [done|]. split; [by apply Hk|lia].
  - cbn [In] in H. repeat match type of H with _ \/ _ => destruct H as [[= <- <-]|H] end; try done; cbn; unfold edits; (repeat split); discriminate || lia.
  - cbn [In] in H. repeat match type of H with _ \/ _ => destruct H as [[= <- <-]|H] end; try done; cbn; unfold edits; (repeat split); discriminate || lia.
Qed.

(** ** A line in the buffer *)

(** The keys that are typed, each with its bytes. *)
Definition keystrokes : Type := list (Z * string).
Definition text (ks : keystrokes) : string := foldr (fun k s => k.2 +:+ s) "" ks.
(** What they make of a line in two parts. *)
Definition typed (ks : keystrokes) (l : list Z * list Z) : list Z * list Z := fold_left (fun l k => edit k.1 l.1 l.2) ks l.
Definition all_spelled (ks : keystrokes) : Prop := Forall (fun k => spelled k.1 k.2) ks.
(** None of the keys writes without echo. *)
Definition quiet (ks : keystrokes) : Prop := Forall (fun k => ~ writes k.1) ks.

Definition cr : string := String "013" "".
Definition crlf : string := String "013" (String "010" "").

(** The terminal after a line has been entered with keys [ks]. *)
Record entered (ks : keystrokes) (t t' : Terminal) : Prop := mkEntered {
  en_frame : same_frame t t';
  en_line : line t' = [];
  en_pos : pos t' = 0%nat;
  en_cursor : cursorX t' = 0 /\ cursorY t' = 0;
  en_out : quiet ks -> echo t = false -> outBuf t' = outBuf t +:+ crlf;
}.

Lemma unseen_trans t t1 t2 : same_frame t t1 -> unseen t t1 -> unseen t1 t2 -> unseen t t2.
Proof.
  intros F H1 H2 He. destruct (H1 He) as (E1 & E2 & E3). rewrite <- (sm_echo _ _ F) in He. destruct (H2 He) as (E4 & E5 & E6).
  split; [by rewrite E4|split; [by rewrite E5|by rewrite E6]].
Qed.

Lemma edited_trans l r l1 r1 t t1 t2 : edited_to l r t t1 -> edited_to l1 r1 t1 t2 -> edited_to l1 r1 t t2.
Proof. intros [F _ _ _ _] [F1 L P C S]. split; [by transitivity t1|done|done|done|]. intros He. apply S. by rewrite (sm_echo _ _ F). Qed.

Lemma enter_key t : pasteActive t = false -> exists t', handleKey None keyEnter t = Ok (t', Some (of_runes (line t))) /\ entered [] t t'.
Proof.
  intros Hp. destruct (move_display (List.length (line t)) t) as (F & L & _). eexists. split.
  - unfold handleKey. rewrite Hp. cbn. rewrite L. reflexivity.
  - split; [by destruct F; split|done|done|done|]. intros _ He. cbn. by rewrite move_silent.
Qed.

(** One piece of the input begins with all of the next key or with a part of it. *)
Lemma piece_split (s x b b' : string) : b +:+ b' = s +:+ x ->
  (exists b1, b = s +:+ b1 /\ b1 +:+ b' = x) \/ (exists q, q <> "" /\ s = b +:+ q /\ b' = q +:+ x).
Proof.
  revert b. induction s as [|c s IH]; intros b E; [by left; exists b|]. destruct b as [|d b]; [right; by exists (String c s)|].
  injection E as <- E. destruct (IH b E) as [(b1 & -> & E1)|(q & Hq & -> & E1)]; [left; by exists b1|right; by exists q].
Qed.

(** What the buffer [b] comes to when the input goes on with [b']: the line, or a part of a
    key is left and the keys [ks'] are still to be typed. *)
Inductive buffered (ks : keystrokes) (more b' : string) (l : list Z * list Z) (t : Terminal) : processed -> Prop :=
| buffer_line rest t' : rest +:+ b' = more -> entered ks t t' ->
    buffered ks more b' l t (Entered rest false (of_runes ((typed ks l).1 ++ (typed ks l).2)) t')
| buffer_part p ks' l' t' : b' <> "" -> p +:+ b' = text ks' +:+ cr +:+ more -> all_spelled ks' -> (String.length p <= 6)%nat -> edited_to l'.1 l'.2 t t' ->
    typed ks' l' = typed ks l -> (quiet ks -> unseen t t' /\ quiet ks') -> buffered ks more b' l t (Wants p false t').

Lemma entered_trans ks ks' t t1 t' : same_frame t t1 -> (quiet ks -> unseen t t1 /\ quiet ks') -> entered ks' t1 t' -> entered ks t t'.
Proof.
  intros F Hu [F' L P C O]. split; [by transitivity t1|done|done|done|]. intros Hq He. destruct (Hu Hq) as [Hs Hq']. destruct (Hs He) as (<- & _). apply O; [done|].
  by rewrite (sm_echo _ _ F).
Qed.

Lemma buffered_step k ks more b' l l1 t t1 p : edited_to l1.1 l1.2 t t1 -> edit k.1 l.1 l.2 = l1 -> (writes k.1 \/ unseen t t1) ->
  buffered ks more b' l1 t1 p -> buffered (k :: ks) more b' l t p.
Proof.
  intros He Ek Hu H. assert (typed (k :: ks) l = typed ks l1) as Et by (unfold typed; cbn [fold_left]; by rewrite Ek).
  assert (quiet (k :: ks) -> unseen t t1 /\ quiet ks) as Hq by (intros [Hw Hq]%Forall_cons; split; [by destruct Hu|done]).
  destruct H as [rest t' Er Hen|q ks' l' t' Hne Eq Hsp Hlen Hed Ety Hqu]; rewrite <- ?Et.
  - apply buffer_line; [done|]. by eapply entered_trans; [apply He| |].
  - apply (buffer_part _ _ _ _ _ _ ks' l'); [done|done|done|done|by eapply edited_trans|by rewrite Et|]. intros [H1 H2]%Hq. destruct (Hqu H2) as [H3 H4].
    split; [|done]. by eapply unseen_trans; [apply He| |].
Qed.

Lemma process_keys ks : forall b b' more fuel l t,
  all_spelled ks -> b +:+ b' = text ks +:+ cr +:+ more -> (String.length b < fuel)%nat ->
  editing t -> line t = l.1 ++ l.2 -> pos t = List.length l.1 -> pasteActive t = false ->
  exists p, process None fuel b false t = Ok p /\ buffered ks more b' l t p.
Proof.
  induction ks as [|[k s] ks IH]; intros b b' more fuel l t Hsp E Hf Hok Hl Hp Hpaste; (destruct fuel as [|fuel]; [lia|]); cbn [process]; rewrite Hpaste; cbn [negb andb].
  - change (text [] +:+ cr +:+ more) with (cr +:+ more) in E. destruct (piece_split cr more b b' E) as [(b1 & -> & E1)|(q & Hq & Eq & ->)].
    + destruct (enter_key t Hpaste) as (t' & Eh & Hen). change (bytesToKey (cr +:+ b1) false) with (keyEnter, b1). cbv iota beta.
      change (keyEnter =? RuneError) with false. change (keyEnter =? keyCtrlD) with false. change (keyEnter =? keyPasteStart) with false. cbn [andb]. rewrite Eh. cbn [obind].
      eexists. split; [reflexivity|]. rewrite Hl. by apply (buffer_line [] more b' l).
    + assert (b = "") as ->. { destruct b as [|c b]; [done|]. injection Eq as <- Eq. by destruct b, q. }
      eexists. split; [reflexivity|]. destruct (stay_ok l.1 l.2 t Hl Hp Hok) as [H1 H2]. apply (buffer_part _ _ _ _ _ _ [] l); [by destruct q|done|by apply List.Forall_nil|cbn; lia|exact H1|done|by intros Hqu].
  - apply Forall_cons in Hsp as [Hk Hsp]. cbn [fst snd] in Hk. change (text ((k, s) :: ks)) with (s +:+ text ks) in E. rewrite string_app_assoc in E.
    destruct (spelled_key k s Hk) as (Hed & Hnd & Hne & Hnp & Hlen). destruct (piece_split s _ b b' E) as [(b1 & -> & E1)|(q & Hq & Eq & ->)].
    + rewrite (spelled_read k s b1 Hk). cbv iota beta. rewrite (proj2 (Z.eqb_neq _ _) Hne), (proj2 (Z.eqb_neq _ _) Hnd), (proj2 (Z.eqb_neq _ _) Hnp). cbn [andb].
      destruct (any_key l.1 l.2 t Hl Hp Hok k Hpaste Hed) as (t1 & Eh & Ht1 & Hw). rewrite Eh. cbn [obind]. rewrite string_app_length in Hf.
      destruct (IH b1 b' more fuel (edit k l.1 l.2) t1) as (p & Ep & Hb); [done|done|lia|by eapply edited_editing|apply Ht1|apply Ht1|by rewrite (sm_paste _ _ (ed_frame _ _ _ _ Ht1))|].
      exists p. split; [exact Ep|]. by apply (buffered_step (k, s) ks more b' l (edit k l.1 l.2) t t1).
    + rewrite (spelled_part k s b q Hk Eq Hq). cbv iota beta. rewrite Z.eqb_refl. eexists. split; [reflexivity|].
      apply (buffer_part _ _ _ _ _ _ ((k, s) :: ks) l); [by destruct q| |by apply Forall_cons| |by apply (stay_ok l.1 l.2 t Hl Hp Hok)|done|].
      * change (text ((k, s) :: ks)) with (s +:+ text ks). rewrite (string_app_assoc s), Eq. by rewrite string_app_assoc.
      * rewrite Eq, string_app_length in Hlen. lia.
      * intros Hqu. split; [by apply (stay_ok l.1 l.2 t Hl Hp Hok)|done].
Qed.

(** ** A line from pieces *)

Definition joined (bs : list string) : string := foldr append "" bs.
(** More than the reads that the pieces take. *)
Definition weight (bs : list string) : nat := foldr (fun b n => S (String.length b + n))%nat 0%nat bs.
(** All that has been written. *)
Definition shown (t : Terminal) : string := joined (written t).

Lemma joined_snoc bs b : joined (bs ++ [b]) = joined bs +:+ b.
Proof. induction bs as [|a bs IH]; cbn [app joined foldr]; [apply string_app_nil_r|]. unfold joined in IH. by rewrite IH, string_app_assoc. Qed.

(** What stays the same from line to line. *)
Record same_terminal (t t' : Terminal) : Prop := mkSameTerminal {
  st_prompt : prompt t' = prompt t;
  st_echo : echo t' = echo t;
  st_paste : pasteActive t' = pasteActive t;
  st_width : termWidth t' = termWidth t;
  st_height : termHeight t' = termHeight t;
  st_pending : historyPending t' = historyPending t;
}.
#[export] Instance same_terminal_refl : Reflexive same_terminal.
Proof. by split. Qed.
#[export] Instance same_terminal_trans : Transitive same_terminal.
Proof. intros a b c [] []. split; congruence. Qed.
Lemma frame_terminal t t' : same_frame t t' -> same_terminal t t'.
Proof. intros []. by split. Qed.

(** Between two lines. *)
Definition idle (t : Terminal) : Prop :=
  line t = [] /\ pos t = 0%nat /\ cursorX t = 0 /\ cursorY t = 0 /\ (String.length (remainder t) <= inBuf)%nat.

(** What a read leaves: the line [l] was typed with the keys [ks], and [more] follows. *)
Record line_read (ks : keystrokes) (more l : string) (bs bs' : list string) (t t' : Terminal) : Prop := mkLineRead {
  lr_rest : remainder t' +:+ joined bs' = more;
  lr_weight : (weight bs' <= weight bs)%nat;
  lr_idle : idle t';
  lr_same : same_terminal t t';
  lr_history : history t' = (if echo t then ring_Add l (history t) else history t);
  lr_index : historyIndex t' = (if echo t then -1 else historyIndex t);
  lr_out : outBuf t' = "";
  lr_shown : quiet ks -> echo t = false -> shown t' = shown t +:+ outBuf t +:+ crlf;
}.

Lemma read_pieces n bs : (0 < n)%nat -> joined bs <> "" ->
  exists b bs', c_Read n (map inl bs) = (Ok (inl b), map inl bs') /\ b +:+ joined bs' = joined bs /\ (String.length b <= n)%nat /\ (weight bs' < weight bs)%nat.
Proof.
  intros Hn Hne. destruct bs as [|b bs]; [done|]. cbn [map c_Read joined foldr weight]. destruct (Nat.leb_spec (String.length b) n) as [Hle|Hgt].
  - exists b, bs. split; [done|]. split; [done|]. split; [done|]. unfold weight. lia.
  - exists (stake n b), (sdrop n b :: bs). split; [done|]. split; [cbn [joined foldr]; by rewrite <- string_app_assoc, stake_sdrop|]. rewrite stake_length. split; [lia|].
    pose proof (f_equal String.length (stake_sdrop n b)) as Hl. rewrite string_app_length, stake_length in Hl. cbn [weight foldr]. lia.
Qed.

Lemma flush_shown t : shown (flush t) = shown t +:+ outBuf t.
Proof. apply joined_snoc. Qed.

Lemma stake_le n s : (String.length s <= n)%nat -> stake n s = s.
Proof. revert n. induction s as [|c s IH]; intros [|n] H; cbn in *; [done|done|lia|]. by rewrite IH by lia. Qed.

(** Entering the line ends the read. *)
Lemma read_entered ks more bs t t' rest l : entered ks t t' -> rest +:+ joined bs = more -> (String.length rest <= inBuf)%nat ->
  let t1 := flush (set_remainder (stake inBuf rest) t') in
  line_read ks more l bs bs t (if echo t1 then set_history (ring_Add l (history t1)) (-1) (historyPending t1) t1 else t1).
Proof.
  intros [F L P [Cx Cy] O] E Hr. cbv zeta. rewrite (stake_le inBuf rest Hr).
  change (echo (flush (set_remainder rest t'))) with (echo t'). rewrite (sm_echo _ _ F). pose proof (frame_terminal _ _ F) as Hs.
  destruct (echo t) eqn:He; (split; [exact E|done|by split_and!|by destruct Hs; split|rewrite He; cbn; by rewrite (sm_history _ _ F)|by rewrite He; cbn; rewrite ?(sm_index _ _ F)|done|]).
  - intros _ He'. congruence.
  - intros Hq _. rewrite flush_shown. unfold shown. change (written (set_remainder rest t')) with (written t'). change (outBuf (set_remainder rest t')) with (outBuf t').
    by rewrite (sm_written _ _ F), (O Hq eq_refl).
Qed.

Lemma line_read_after ks ks' more l bs bs1 bs' t t1 t' : same_terminal t t1 -> history t1 = history t -> historyIndex t1 = historyIndex t -> (weight bs1 <= weight bs)%nat ->
  (quiet ks -> echo t = false -> shown t1 +:+ outBuf t1 = shown t +:+ outBuf t /\ quiet ks') ->
  line_read ks' more l bs1 bs' t1 t' -> line_read ks more l bs bs' t t'.
Proof.
  intros Hs Eh Ei Hw Hsh [R W I S H X O Z]. pose proof (st_echo _ _ Hs) as Ee. rewrite Ee in *. split; [done|lia|done|by transitivity t1|by rewrite <- Eh|by rewrite <- Ei|done|].
  intros Hq He. destruct (Hsh Hq He) as [E Hq']. by rewrite (Z Hq' He), <- string_app_assoc, E, string_app_assoc.
Qed.

Lemma rounds_ok fuel : forall ks bs t l more,
  all_spelled ks -> remainder t +:+ joined bs = text ks +:+ cr +:+ more -> (String.length (remainder t) <= inBuf)%nat -> (weight bs < fuel)%nat ->
  editing t -> line t = l.1 ++ l.2 -> pos t = List.length l.1 -> pasteActive t = false ->
  exists t' bs', line_rounds None fuel false (map inl bs) t = Ok (mkRead (of_runes ((typed ks l).1 ++ (typed ks l).2)) None, t', map inl bs') /\
    line_read ks more (of_runes ((typed ks l).1 ++ (typed ks l).2)) bs bs' t t'.
Proof.
  induction fuel as [|fuel IH]; intros ks bs t l more Hsp E Hr Hf Hok Hl Hp Hpaste; [lia|]. cbn [line_rounds].
  destruct (process_keys ks (remainder t) (joined bs) more (S (String.length (remainder t))) l t Hsp E) as (p & Ep & Hb); [lia|done..|].
  rewrite Ep. cbn [obind]. clear Ep. destruct Hb as [rest t' Er Hen|p ks' l' t' Hne Ep Hsp' Hlp Hed Ety Hq].
  - do 2 eexists. split; [reflexivity|]. apply (read_entered ks more bs t t' rest _ Hen Er). apply (f_equal String.length) in E. rewrite <- Er, !string_app_length in E. lia.
  - rewrite (stake_le inBuf p) by (unfold inBuf; lia). set (t1 := flush (set_remainder p t')). change (remainder t1) with p.
    destruct (read_pieces (inBuf - String.length p) bs) as (b & bs1 & -> & Ej & Hlb & Hw); [unfold inBuf; lia|done|]. cbv iota beta.
    destruct (IH ks' bs1 (set_remainder (p +:+ b) t1) l' more) as (t2 & bs2 & E2 & H2); [done| |cbn [remainder set_remainder]; rewrite string_app_length; unfold inBuf in *; lia|lia|exact (edited_editing _ _ _ _ Hed)|apply Hed|apply Hed|by rewrite <- Hpaste, <- (sm_paste _ _ (ed_frame _ _ _ _ Hed))|].
    + cbn [remainder set_remainder]. by rewrite string_app_assoc, Ej.
    + rewrite Ety in *. exists t2, bs2. split; [exact E2|]. pose proof (ed_frame _ _ _ _ Hed) as F.
      apply (line_read_after ks ks' more _ bs bs1 bs2 t (set_remainder (p +:+ b) t1) t2); [by destruct F; split|by apply F|by apply F|lia| |done].
      intros Hqu He. destruct (Hq Hqu) as [Hu Hq']. split; [|done]. change (shown (set_remainder (p +:+ b) t1)) with (shown t1). change (outBuf (set_remainder (p +:+ b) t1)) with "".
      unfold t1. rewrite flush_shown, string_app_nil_r. destruct (Hu He) as (<- & _). change (shown (set_remainder p t')) with (shown t'). unfold shown. by rewrite (sm_written _ _ F).
Qed.

(** ** The prompt *)

(** Text without escapes takes a column for each rune. *)
Definition no_escape (l : list Z) : Prop := Forall (fun r => r <> 27) l.

Lemma visual_plain l : no_escape l -> visualLength l = Z.of_nat (List.length l).
Proof.
  induction 1 as [|r l Hr Hl IH]; [done|]. unfold visualLength in *. cbn [visual_go List.length]. rewrite (proj2 (Z.eqb_neq _ _) Hr), IH. lia.
Qed.

Lemma rows_stand fuel : forall l t t', cursor_ok t -> no_escape l -> write_rows fuel l t = Ok t' ->
  cursorX t' = (cursorX t + Z.of_nat (List.length l)) mod termWidth t /\ cursorY t' = cursorY t + (cursorX t + Z.of_nat (List.length l)) / termWidth t.
Proof.
  induction fuel as [|fuel IH]; intros l t t' Hc Hne H; [done|]. pose proof Hc as (Hw & Hx & Hy). cbn [write_rows] in H. destruct l as [|r l].
  - injection H as <-. cbn [List.length]. rewrite Z.add_0_r, Z.mod_small, Z.div_small by lia. lia.
  - revert H. set (n := if termWidth t - cursorX t <? Z.of_nat (List.length (r :: l)) then termWidth t - cursorX t else Z.of_nat (List.length (r :: l))).
    assert (1 <= n <= Z.of_nat (List.length (r :: l)) /\ n <= termWidth t - cursorX t) as [Hn Hm] by (unfold n; cbn [List.length]; destruct (Z.ltb_spec (termWidth t - cursorX t) (Z.of_nat (S (List.length l)))); lia).
    destruct (Z.ltb_spec n 0); [lia|]. set (row := take (Z.to_nat n) (r :: l)). intros H1.
    assert (visualLength row = n) as Ev by (rewrite visual_plain by (by apply Forall_take); unfold row; rewrite length_take; lia).
    destruct (advance_cursor (visualLength row) (queue row t)) as (Hc' & Ex & Ey); [rewrite Ev; lia|done|]. rewrite Ev in *.
    destruct (advance_display n (queue row t)) as (F & _). pose proof (sm_width _ _ F) as Ew. change (termWidth (queue row t)) with (termWidth t) in *.
    change (cursorX (queue row t)) with (cursorX t) in *. change (cursorY (queue row t)) with (cursorY t) in *.
    destruct (IH _ _ _ Hc' ltac:(by apply Forall_drop) H1) as [-> ->]. rewrite Ex, Ey, Ew, length_drop.
    replace (cursorX t + Z.of_nat (List.length (r :: l))) with ((cursorX t + n) + Z.of_nat (List.length (r :: l) - Z.to_nat n)) by lia.
    split; [by rewrite Z.add_mod_idemp_l by lia|]. rewrite (Z.div_mod (cursorX t + n) (termWidth t)) at 3 by lia.
    rewrite <- (Z.add_assoc (_ * _)), (Z.mul_comm (termWidth t)), Z.div_add_l by lia. lia.
Qed.

(** What [readLine] starts from: the prompt has been written and the cursor is behind it. *)
Definition prompted (t t' : Terminal) : Prop :=
  display t t' /\ cursor_ok t' /\ (echo t = true -> stands 0 t').

Lemma write_prompt t : 0 < termWidth t -> (echo t = true -> no_escape (prompt t)) -> cursorX t = 0 -> cursorY t = 0 ->
  exists t', writeLine (prompt t) t = Ok t' /\ prompted t t'.
Proof.
  intros Hw Hp Hx Hy. assert (cursor_ok t) as Hc by (split; [done|lia]). destruct (writeLine_ok (prompt t) t Hc) as (t' & E & Hd & Hc'). exists t'.
  split; [done|]. split; [done|]. split; [done|]. intros He. specialize (Hp He). destruct (rows_stand _ _ _ _ Hc Hp E) as [Ex Ey]. destruct Hd as (F & _).
  unfold stands. rewrite (sm_prompt _ _ F), (sm_width _ _ F), visual_plain by done. rewrite Ex, Ey, Hx, Hy. by rewrite Z.add_0_l, Z.add_0_r.
Qed.

(** A terminal that can be asked for a line. *)
Record ready (t : Terminal) : Prop := mkReady {
  rd_idle : idle t;
  rd_width : 0 < termWidth t;
  rd_paste : pasteActive t = false;
  rd_prompt : echo t = true -> no_escape (prompt t);
}.

Lemma line_read_ready ks more l bs bs' t t' : ready t -> line_read ks more l bs bs' t t' -> ready t'.
Proof. intros [Hi Hw Hp Hn] [_ _ Hi' [Ep Ee Ea Ew _ _] _ _ _ _]. split; [done|by rewrite Ew|by rewrite Ea|by rewrite Ep, Ee]. Qed.

(** The line that the keys make. *)
Definition typed_line (ks : keystrokes) : string := let l := typed ks ([], []) in of_runes (l.1 ++ l.2).

(** What is written when the prompt appears. *)
Definition prompt_output (t : Terminal) : string := match writeLine (prompt t) t with Ok t' => outBuf t' | _ => "" end.

Lemma readLine_ok fuel ks bs t more : ready t -> all_spelled ks -> remainder t +:+ joined bs = text ks +:+ cr +:+ more -> (weight bs < fuel)%nat ->
  exists t' bs', readLine None fuel (map inl bs) t = Ok (mkRead (typed_line ks) None, t', map inl bs') /\
    line_read ks more (typed_line ks) bs bs' (set_out (prompt_output t) t) t'.
Proof.
  intros [(Hl & Hp & Hx & Hy & Hr) Hw Hpaste Hne] Hsp E Hf. unfold readLine, prompt_output. rewrite Hx, Hy. cbn [Z.eqb andb].
  destruct (write_prompt t Hw Hne Hx Hy) as (tp & -> & (F & L & P) & Hc & Hs). cbn [obind].
  change (pasteActive (flush tp)) with (pasteActive tp). rewrite (sm_paste _ _ F), Hpaste.
  destruct (rounds_ok fuel ks bs (flush tp) ([], []) more) as (t' & bs' & Er & H); [done|change (remainder (flush tp)) with (remainder tp); by rewrite (sm_remainder _ _ F)..|done| |by change (line (flush tp)) with (line tp); rewrite L|by change (pos (flush tp)) with (pos tp); rewrite P|by change (pasteActive (flush tp)) with (pasteActive tp); rewrite (sm_paste _ _ F)|].
  - split; [exact Hc|]. change (pos (flush tp)) with (pos tp). rewrite P, Hp. split; [lia|]. intros He. apply Hs. by rewrite <- (sm_echo _ _ F).
  - exists t', bs'. split; [exact Er|]. apply (line_read_after ks ks more _ bs bs bs' _ (flush tp)); [by destruct F; split|by apply F|by apply F|done| |done].
    intros Hq _. split; [|done]. rewrite flush_shown, string_app_nil_r. unfold shown. cbn [written set_out outBuf]. by rewrite (sm_written _ _ F).
Qed.

(** *** Keys on a terminal *)

(** The keys one after the other. *)
Fixpoint handle_keys (ks : list Z) (t : Terminal) : outcome Terminal :=
  match ks with [] => Ok t | k :: ks => let? '(t, _) := handleKey None k t in handle_keys ks t end.
(** The reference editor. *)
Definition edit_all (ks : list Z) (l : list Z * list Z) : list Z * list Z := fold_left (fun l k => edit k l.1 l.2) ks l.

Lemma keys_ok ks : forall l t, line t = l.1 ++ l.2 -> pos t = List.length l.1 -> editing t -> pasteActive t = false -> Forall edits ks ->
  exists t', handle_keys ks t = Ok t' /\ edited_to (edit_all ks l).1 (edit_all ks l).2 t t'.
Proof.
  induction ks as [|k ks IH]; intros l t Hl Hp Hok Hpaste Hks; [exists t; split; [done|]; by apply (stay_ok l.1 l.2 t Hl Hp Hok)|].
  apply Forall_cons in Hks as [Hk Hks]. cbn [handle_keys]. destruct (any_key l.1 l.2 t Hl Hp Hok k Hpaste Hk) as (t1 & -> & Ht1 & _). cbn [obind].
  destruct (IH (edit k l.1 l.2) t1) as (t' & E & Ht'); [apply Ht1|apply Ht1|by eapply edited_editing|by rewrite (sm_paste _ _ (ed_frame _ _ _ _ Ht1))|done|].
  exists t'. split; [exact E|]. by eapply edited_trans.
Qed.

(** Whatever keys edit the line - letters, the arrows, words, deletions - the terminal
    does to its line and its place what the reference editor does to the two parts of the
    line; nothing panics, and with echo the cursor stands on the screen at the place of
    the line behind the prompt. *)
Theorem keys_edit ks before after t :
  line t = before ++ after -> pos t = List.length before -> editing t -> pasteActive t = false -> Forall edits ks ->
  exists t', handle_keys ks t = Ok t' /\
    line t' = (edit_all ks (before, after)).1 ++ (edit_all ks (before, after)).2 /\ pos t' = List.length (edit_all ks (before, after)).1 /\
    0 <= cursorX t' < termWidth t /\ (echo t = true -> stands (pos t') t') /\ same_frame t t'.
Proof.
  intros Hl Hp Hok Hpaste Hks. destruct (keys_ok ks (before, after) t Hl Hp Hok Hpaste Hks) as (t' & E & [F L P (Hw & Hx & Hy) S]).
  exists t'. split; [exact E|]. split; [exact L|]. split; [exact P|]. split; [by rewrite <- (sm_width _ _ F)|]. split; [|done]. intros He. rewrite P. by apply S.
Qed.

(** *** Lines and passwords *)

Fixpoint ReadLines (n : nat) (fuel : nat) (chunks : list chunk) (t : Terminal) : outcome (list read_result * Terminal * list chunk) :=
  match n with
  | O => Ok ([], t, chunks)
  | S n =>
      let? '(r, t, chunks) := ReadLine None fuel chunks t in
      let? '(rs, t, chunks) := ReadLines n fuel chunks t in
      Ok (r :: rs, t, chunks)
  end.

(** Lines, each with a carriage return. *)
Definition texts (kss : list keystrokes) : string := foldr (fun ks s => text ks +:+ cr +:+ s) "" kss.

Definition lines_history (echoed : bool) (lines : list string) (h : stRingBuffer) : stRingBuffer :=
  if echoed then fold_left (fun h l => ring_Add l h) lines h else h.

(** C34: Lines are what was typed: however the bytes of the keys are cut into pieces, also
    in the middle of a rune or of an escape sequence, every call of ReadLine returns the line
    that the keys up to the next carriage return make, in order; what follows is kept for the
    next call, and with echo the history has the lines. The keys are those of [spelled]: runes
    that stand for themselves and the keys that move and delete; there is no completion
    callback, and no key that recalls the history, ends the input or begins a paste. *)
Theorem typed_lines_are_read fuel kss bs t more :
  ready t -> Forall all_spelled kss -> remainder t +:+ joined bs = texts kss +:+ more -> (weight bs < fuel)%nat ->
  exists t' bs', ReadLines (List.length kss) fuel (map inl bs) t = Ok (map (fun ks => mkRead (typed_line ks) None) kss, t', map inl bs') /\
    remainder t' +:+ joined bs' = more /\ ready t' /\ history t' = lines_history (echo t) (map typed_line kss) (history t).
Proof.
  revert bs t more. induction kss as [|ks kss IH]; intros bs t more Hr Hsp E Hf; cbn [List.length ReadLines].
  { exists t, bs. split; [done|]. split; [exact E|]. split; [done|]. by destruct (echo t). }
  apply Forall_cons in Hsp as [Hk Hsp]. change (texts (ks :: kss)) with (text ks +:+ cr +:+ texts kss) in E. rewrite !string_app_assoc in E.
  destruct (readLine_ok fuel ks bs t _ Hr Hk E Hf) as (t1 & bs1 & E1 & Hlr). unfold ReadLine. rewrite E1. cbn [obind].
  assert (ready t1) as Hr1 by (eapply line_read_ready; [|exact Hlr]; by destruct Hr; split). destruct Hlr as [R W _ S H _ _ _].
  destruct (IH bs1 t1 more Hr1 Hsp R ltac:(lia)) as (t' & bs' & -> & R' & Hr' & H'). cbn [obind]. exists t', bs'. split; [done|]. split; [done|]. split; [done|].
  rewrite H', (st_echo _ _ S), H. cbn [echo set_out history]. by destruct (echo t).
Qed.

(** What asking for a password writes: the prompt and the end of the line. *)
Definition password_output (p : string) (t : Terminal) : string := prompt_output (set_echo false (set_prompt (runes p) t)) +:+ crlf.

(** C35: A password is not shown: what is written until ReadPassword returns depends on the
    terminal and the prompt, not on the keys that were typed or on how many; the call returns
    the password, leaves the history as it was, and puts the prompt and the echo back. The keys
    are those of [spelled] but for Ctrl-K and Ctrl-L, which write even without echo, see
    [deleting_shows_length]; for the arrow up see [pending_password_shown]. *)
Theorem password_not_shown p fuel ks bs t more :
  ready t -> all_spelled ks -> quiet ks -> remainder t +:+ joined bs = text ks +:+ cr +:+ more -> (weight bs < fuel)%nat ->
  exists t' bs', ReadPassword None p fuel (map inl bs) t = Ok (mkRead (typed_line ks) None, t', map inl bs') /\
    shown t' = shown t +:+ password_output p t /\ history t' = history t /\ historyIndex t' = historyIndex t /\
    prompt t' = prompt t /\ echo t' = true /\ remainder t' +:+ joined bs' = more.
Proof.
  intros [Hi Hw Hpaste Hn] Hsp Hq E Hf. set (t0 := set_echo false (set_prompt (runes p) t)).
  destruct (readLine_ok fuel ks bs t0 more) as (t1 & bs1 & E1 & [R _ _ S H X _ Z]); [by split|done|done|done|].
  unfold ReadPassword, password_output. fold t0. rewrite E1. cbn [obind]. eexists _, bs1. split; [reflexivity|]. split_and!; try done.
  by apply (Z Hq eq_refl).
Qed.

(** ** Output of a program *)

(** The text with both bytes at the end of every line. *)
Fixpoint crlf_of (s : string) : string :=
  match s with "" => "" | String c s => if Ascii.eqb c "010" then crlf +:+ crlf_of s else String c (crlf_of s) end.

Lemma index_split c s : match index_byte c s with
  | Some i => stake i s +:+ String c (sdrop (S i) s) = s /\ lacks c (stake i s) = true /\ (i < String.length s)%nat
  | None => lacks c s = true end.
Proof.
  induction s as [|d s IH]; [done|]. cbn [index_byte]. destruct (Ascii.eqb_spec d c) as [->|Hne]; [cbn; by split_and!; [| |lia]|].
  destruct (index_byte c s) as [i|]; cbn [fmap option_fmap option_map]; rewrite ?lacks_cons, ?(proj2 (Ascii.eqb_neq _ _) Hne); [|done].
  destruct IH as (E & H & Hi). cbn [stake sdrop append String.length]. rewrite lacks_cons, (proj2 (Ascii.eqb_neq _ _) Hne), H. cbn [sdrop] in E. split_and!; [by f_equal|done|lia].
Qed.

Lemma crlf_lacks a b : lacks "010" a = true -> crlf_of (a +:+ b) = a +:+ crlf_of b.
Proof.
  induction a as [|c a IH]; intros H; [done|]. rewrite lacks_cons in H. apply andb_true_iff in H as [Hc H]. cbn [append crlf_of].
  destruct (Ascii.eqb c "010"); [done|]. by rewrite IH.
Qed.

(** A connection that takes whatever is written to it. *)
Definition takes_all (c_Write : list string -> string -> Z * error_) : Prop := forall before b, c_Write before b = (slen b, None).

Lemma write_shown c_Write b t : takes_all c_Write -> write c_Write b t = (slen b, None, set_written (written t ++ [b]) t).
Proof. intros H. unfold write. by rewrite H. Qed.

Lemma writeWithCRLF_ok c_Write fuel : takes_all c_Write -> forall buf n t, (String.length buf < fuel)%nat ->
  exists w, writeWithCRLF c_Write fuel buf n t = Ok (n + slen buf, None, set_written w t) /\ joined w = shown t +:+ crlf_of buf.
Proof.
  intros Hw. induction fuel as [|fuel IH]; intros buf n t Hf; [lia|]. cbn [writeWithCRLF]. destruct buf as [|c buf0] eqn:E.
  { exists (written t). split; [by rewrite Z.add_0_r; destruct t|by rewrite string_app_nil_r]. }
  rewrite <- E in *. pose proof (index_split "010" buf) as H. destruct (index_byte "010" buf) as [i|].
  - destruct H as (Eb & Hl & Hi). rewrite (write_shown _ _ _ Hw). cbv iota beta. rewrite (write_shown _ _ _ Hw). cbv iota beta.
    set (t2 := set_written _ (set_written _ t)). set (b1 := stake i buf) in *. set (b2 := sdrop (S i) buf) in *.
    assert (String.length b1 + S (String.length b2) = String.length buf)%nat as Hlen by (rewrite <- Eb, string_app_length; done).
    destruct (IH b2 (n + slen b1 + 1) t2) as (w & -> & Ew); [lia|]. exists w. split; [unfold slen; do 3 f_equal; lia|].
    rewrite Ew. unfold t2, shown. cbn [written set_written]. rewrite !joined_snoc. change (String "013" (String "010" "")) with crlf.
    rewrite <- Eb, crlf_lacks by done. cbn [crlf_of]. change (Ascii.eqb "010" "010") with true. cbv iota. by rewrite !string_app_assoc.
  - rewrite stake_all, sdrop_all, (write_shown _ _ _ Hw). cbv iota beta. destruct (IH "" (n + slen buf) (set_written (written t ++ [buf]) t)) as (w & -> & Ew); [cbn; rewrite E in Hf; cbn in Hf; lia|].
    exists w. split; [by rewrite Z.add_0_r|]. rewrite Ew. unfold shown. cbn [written set_written]. rewrite joined_snoc, string_app_nil_r.
    rewrite <- (string_app_nil_r buf) at 2. by rewrite crlf_lacks, string_app_nil_r.
Qed.

(** Output between two lines comes out whole: with both bytes at every end of a line, and
    the answer counts the bytes that were given. *)
Theorem output_has_crlf c_Write buf t : takes_all c_Write -> cursorX t = 0 -> cursorY t = 0 ->
  exists w, Write c_Write buf t = Ok (slen buf, None, set_written w t) /\ joined w = shown t +:+ crlf_of buf.
Proof.
  intros Hw Hx Hy. unfold Write. rewrite Hx, Hy. cbn [Z.eqb andb]. destruct (writeWithCRLF_ok c_Write (S (String.length buf)) Hw buf 0 t) as (w & -> & Ew); [lia|].
  by exists w.
Qed.

(** ** Examples *)

Definition demo_terminal : Terminal := NewTerminal "> ".
Definition demo_prompted : Terminal := set_cursor 2 0 0 demo_terminal.
Definition demo_first : keystrokes := [(97, "a"); (233, encode_valid 233); (keyLeft, String esc "[D"); (98, "b")].
Definition demo_second : keystrokes := [(120, "x"); (keyBackspace, String (byte 8) ""); (121, "y")].
Definition demo_input : string := texts [demo_first; demo_second].
(** The input cut in the middle of a rune and of an escape sequence. *)
Definition demo_pieces : list string := [stake 2 demo_input; stake 2 (sdrop 2 demo_input); sdrop 4 demo_input].

Lemma demo_spelled : Forall all_spelled [demo_first; demo_second].
Proof.
  repeat (apply List.Forall_cons || apply List.Forall_nil); cbn [fst snd].
  - by apply (spelled_rune 97).
  - by apply (spelled_rune 233).
  - apply (spelled_escape "[D"). cbn. tauto.
  - by apply (spelled_rune 98).
  - by apply (spelled_rune 120).
  - apply (spelled_control 8). cbn. tauto.
  - by apply (spelled_rune 121).
Qed.

Lemma demo_ready : ready demo_terminal.
Proof.
  split; [|done|done|].
  - split_and!; try done. cbn. lia.
  - intros _. unfold no_escape. repeat (apply List.Forall_cons || apply List.Forall_nil); done.
Qed.

Lemma keys_edit_witness :
  exists t', handle_keys [97; 233; keyLeft; 98] demo_prompted = Ok t' /\
    line t' = [97; 98] ++ [233] /\ pos t' = 2%nat /\ 0 <= cursorX t' < 80 /\ (true = true -> stands (pos t') t') /\ same_frame demo_prompted t'.
Proof.
  apply (keys_edit [97; 233; keyLeft; 98] [] [] demo_prompted); [done|done| |done|].
  - split; [by split_and!|]. split; [cbn; lia|]. intros _. by split.
  - repeat (apply List.Forall_cons || apply List.Forall_nil); by split_and!.
Defined.

Lemma typed_lines_are_read_witness :
  exists t' bs', ReadLines 2 20 (map inl demo_pieces) demo_terminal = Ok ([mkRead (of_runes [97; 98; 233]) None; mkRead "y" None], t', map inl bs') /\
    remainder t' +:+ joined bs' = "" /\ ready t' /\ history t' = lines_history true [of_runes [97; 98; 233]; "y"] (history demo_terminal).
Proof. apply (typed_lines_are_read 20 [demo_first; demo_second] demo_pieces demo_terminal ""); [exact demo_ready|exact demo_spelled|by vm_compute|by apply Nat.ltb_lt; vm_compute]. Defined.

Lemma demo_password : typed_line demo_first = of_runes [97; 98; 233] /\ password_output "Password: " demo_terminal = "Password: " +:+ crlf.
Proof. split; vm_compute; reflexivity. Qed.

Lemma password_not_shown_witness :
  exists t' bs', ReadPassword None "Password: " 20 (map inl [text demo_first +:+ cr]) demo_terminal = Ok (mkRead (typed_line demo_first) None, t', map inl bs') /\
    shown t' = shown demo_terminal +:+ password_output "Password: " demo_terminal /\ history t' = history demo_terminal /\ historyIndex t' = historyIndex demo_terminal /\
    prompt t' = prompt demo_terminal /\ echo t' = true /\ remainder t' +:+ joined bs' = "".
Proof.
  apply (password_not_shown "Password: " 20 demo_first [text demo_first +:+ cr] demo_terminal ""); [exact demo_ready| | |by vm_compute|by apply Nat.ltb_lt; vm_compute].
  - pose proof demo_spelled as H. by inversion H.
  - repeat (apply List.Forall_cons || apply List.Forall_nil); intros [H|H]; discriminate H.
Defined.

(** *** What goes wrong *)

(** The password that was being typed when the arrow up was pressed is kept among the lines,
    and the next ReadLine shows it: here [secret], arrow up and Enter at the prompt for the
    password, then arrow down at the prompt for a line. *)
Theorem pending_password_shown :
  exists t1 t2, readLine None 9 [inl (String "l" cr)] demo_terminal = Ok (mkRead "l" None, t1, []) /\
    ReadPassword None "Password: " 9 [inl ("secret" +:+ String esc "[A" +:+ cr)] t1 = Ok (mkRead "l" None, t2, []) /\
    exists t3, readLine None 9 [inl (String esc "[B" +:+ cr)] t2 = Ok (mkRead "secret" None, t3, []) /\
      shown t3 = shown t2 +:+ "> " +:+ "secret" +:+ crlf.
Proof. do 2 eexists. split; [vm_compute; reflexivity|]. split; [vm_compute; reflexivity|]. eexists. split; vm_compute; reflexivity. Qed.

(** Without echo, the key that deletes the rest of the line still writes a space for every
    rune that it deletes. *)
Theorem deleting_shows_length :
  exists t', ReadPassword None "Password: " 9 [inl ("secret" +:+ String (byte 1) (String (byte 11) cr))] demo_terminal = Ok (mkRead "" None, t', []) /\
    shown t' = "Password: " +:+ "      " +:+ crlf.
Proof. eexists. split; vm_compute; reflexivity. Qed.

(** The rune of an invalid encoding, also when it was typed, stops the loop like a key that
    is not complete: a line that has been entered behind it is not returned before there is
    more to read. *)
Theorem invalid_byte_holds_line fuel :
  readLine None fuel [inl (String (byte 255) cr)] demo_terminal = Blocked /\
  exists t' chunks', readLine None 9 [inl (String (byte 255) cr); inl "x"] demo_terminal = Ok (mkRead "" None, t', chunks') /\ remainder t' = "x".
Proof.
  split; [|do 2 eexists; split; vm_compute; reflexivity].
  destruct fuel as [|[|[|fuel]]]; vm_compute; reflexivity.
Qed.


(** An escape sequence without an end that fills the buffer. *)
Definition endless : string := String esc (foldr String "" (repeat ("0")%char 255)).

Lemma endless_rounds fuel : forall b chunks t, b <> "" -> remainder t = endless -> pasteActive t = false ->
  line_rounds None fuel false (inl b :: chunks) t = Blocked.
Proof.
  induction fuel as [|fuel IH]; intros b chunks t Hb Hr Hp; [done|]. cbn [line_rounds process]. rewrite Hr, Hp.
  assert (bytesToKey endless false = (RuneError, endless)) as -> by (vm_compute; reflexivity). cbv iota beta. rewrite Z.eqb_refl. cbn [obind].
  assert (stake inBuf endless = endless) as -> by (vm_compute; reflexivity). cbn [remainder set_remainder flush set_out set_written].
  assert ((inBuf - String.length endless)%nat = 0%nat) as -> by (vm_compute; reflexivity). destruct b as [|c b]; [done|]. cbn [c_Read String.length Nat.leb stake sdrop].
  apply IH; [done| |done]. cbn [remainder set_remainder]. apply string_app_nil_r.
Qed.

(** The buffer has no room for the end of an escape sequence of 256 bytes: from then on
    ReadLine reads nothing into no room for ever, though more has arrived. *)
Theorem endless_escape_spins fuel b chunks : b <> "" -> readLine None fuel (inl endless :: inl b :: chunks) demo_terminal = Blocked.
Proof.
  intros Hb. unfold readLine. destruct (writeLine (prompt demo_terminal) demo_terminal) as [t| | |] eqn:E; [|vm_compute in E; discriminate E..].
  assert (remainder t = "" /\ pasteActive t = false) as [Hr Hp] by (vm_compute in E; injection E as <-; by split).
  change ((cursorX demo_terminal =? 0) && (cursorY demo_terminal =? 0)) with true. cbn [obind]. clear E.
  destruct fuel as [|fuel]; [done|]. cbn [line_rounds process]. change (remainder (flush t)) with (remainder t). change (pasteActive (flush t)) with (pasteActive t). rewrite Hr, Hp.
  change (bytesToKey "" false) with (RuneError, ""). cbv iota beta. rewrite Z.eqb_refl. cbn [obind stake].
  change (c_Read (inBuf - String.length (remainder (flush (set_remainder "" (flush t))))) (inl endless :: inl b :: chunks)) with ((Ok (inl endless), inl b :: chunks) : outcome (string + string) * list chunk).
  cbv iota beta. by apply endless_rounds.
Qed.

Lemma endless_escape_spins_witness : "x" <> "" /\ readLine None 7 [inl endless; inl "x"] demo_terminal = Blocked.
Proof. split; [done|]. by apply (endless_escape_spins 7 "x" []). Defined.

Lemma output_has_crlf_witness :
  exists w, Write (fun _ b => (slen b, None)) (String "a" (String "010" "b")) demo_terminal = Ok (3, None, set_written w demo_terminal) /\
    joined w = shown demo_terminal +:+ crlf_of (String "a" (String "010" "b")).
Proof. by apply (output_has_crlf (fun _ b => (slen b, None)) (String "a" (String "010" "b")) demo_terminal). Defined.
