(* ===== verification/ServerSetup.v ===== *)
(** What sshego's server and client are set up with (server.go, sshutil.go, rsacrypt.go;
    [AddHostKey] of xendor/github.com/glycerine/xcryptossh/server.go): the algorithms of both
    ends, host keys, and keys from files. *)
From S2P Require Import Prelude.
From S2P Require Import GoStrings.
From S2P Require Import Wire.
From S2P Require Import Negotiate.
From S2P Require Import Kex.
From S2P Require Import Keys.
From S2P Require Import AuthorizedKeys.

(** ** Algorithms *)

Definition getCiphers : list string := [gcmCipherID].
Definition kexAlgoCurve25519SHA256 : string := "curve25519-sha256@libssh.org".

(** The algorithms of [SetTripleConfig] and of the configuration that SSHConnect makes. *)
Definition SetTripleConfig : Config := mkConfig 0 (Some [kexAlgoCurve25519SHA256]) (Some getCiphers) None.
Definition cliCfg : Config := mkConfig 0 None (Some getCiphers) None.

(** sshego's client and server always find common algorithms, whatever type the host key
    has: the exchange on Curve25519, AES-GCM in both directions, and the server's own key. *)
Theorem sshego_ends_agree cookie1 cookie2 cv sv ty : ty ∈ supportedHostKeyAlgos ->
  findAgreedAlgorithms (own_init cookie1 (newClientTransport (SetDefaults cliCfg) cv sv None))
    (own_init cookie2 (newServerTransport (SetDefaults SetTripleConfig) cv sv [ty])) =
  Ok (mkAlgs kexAlgoCurve25519SHA256 ty (mkDir gcmCipherID "hmac-sha2-256-etm@openssh.com" "none") (mkDir gcmCipherID "hmac-sha2-256-etm@openssh.com" "none")).
Proof.
  intros H. unfold supportedHostKeyAlgos in H. repeat (apply elem_of_cons in H as [->|H]; [vm_compute; reflexivity|]). by apply elem_of_nil in H.
Qed.

Section HostKeys.
Context {K : Type} (type_of : K -> string).

(** A key takes the place of the one of its type. *)
Fixpoint AddHostKey (key : K) (hostKeys : list K) : list K :=
  match hostKeys with
  | [] => [key]
  | k :: l => if (type_of k =? type_of key)%string then key :: l else k :: AddHostKey key l
  end.

Definition find_host_key (ty : string) (hostKeys : list K) : option K := List.find (fun k => (type_of k =? ty)%string) hostKeys.

Lemma added_types key l : map type_of (AddHostKey key l) = (if existsb (fun k => (type_of k =? type_of key)%string) l then map type_of l else map type_of l ++ [type_of key]).
Proof.
  induction l as [|k l IH]; [done|]. cbn [AddHostKey existsb map]. destruct (String.eqb_spec (type_of k) (type_of key)) as [E|]; cbn [orb map]; [by rewrite E|].
  rewrite IH. by destruct (existsb _ l).
Qed.

(** A server has one host key of each type, and it is the last that was added. *)
Theorem host_keys_by_type keys ty :
  NoDup (map type_of (fold_left (fun l k => AddHostKey k l) keys [])) /\
  find_host_key ty (fold_left (fun l k => AddHostKey k l) keys []) = find_host_key ty (rev keys).
Proof.
  induction keys as [|key keys [IH1 IH2]] using rev_ind; [split; [constructor|done]|]. rewrite fold_left_app, rev_unit. cbn [fold_left].
  set (l := fold_left (fun l k => AddHostKey k l) keys []) in *. split.
  - rewrite added_types. destruct (existsb _ l) eqn:E; [done|]. apply NoDup_app. split; [done|]. split; [|apply NoDup_singleton].
    intros x Hx [->|Hn]%elem_of_cons; [|by apply elem_of_nil in Hn]. apply list_elem_of_fmap in Hx as (k & Ek & Hk).
    assert (existsb (fun k => (type_of k =? type_of key)%string) l = true) as Ht; [|congruence]. apply existsb_exists. exists k. split; [by apply list_elem_of_In|].
    by apply String.eqb_eq.
  - unfold find_host_key in *. cbn [List.find]. destruct (String.eqb_spec (type_of key) ty) as [<-|Hne].
    + clear IH1 IH2. induction l as [|k l IH]; cbn [AddHostKey List.find]; [by rewrite String.eqb_refl|].
      destruct (String.eqb_spec (type_of k) (type_of key)) as [E|Hk]; cbn [List.find]; [by rewrite String.eqb_refl|].
      by rewrite (proj2 (String.eqb_neq _ _) Hk).
    + rewrite <- IH2. clear IH1 IH2. induction l as [|k l IH]; cbn [AddHostKey List.find]; [by rewrite (proj2 (String.eqb_neq _ _) Hne)|].
      destruct (String.eqb_spec (type_of k) (type_of key)) as [E|Hk]; cbn [List.find].
      * rewrite E. by rewrite (proj2 (String.eqb_neq _ _) Hne).
      * destruct (type_of k =? ty)%string; [done|exact IH].
Qed.
End HostKeys.

(** ** Keys from files *)

Section Files.
Context (ecMarshal : Z -> Z -> Z -> string) (ecUnmarshal : Z -> string -> option (Z * Z)).

(** [LoadPublicKeys] on the contents of the file: the map, also after an error. *)
Fixpoint load_keys (fuel : nat) (authorizedKeysBytes : string) (m : gset string) : gset string * outcome unit :=
  match fuel with
  | O => (m, Blocked)
  | S fuel =>
      if (authorizedKeysBytes =? "")%string then (m, Ok tt)
      else
        match ParseAuthorizedKey ecUnmarshal authorizedKeysBytes with
        | Ok (pubKey, _, _, rest) =>
            match KeyMarshal ecMarshal pubKey with
            | Ok b => load_keys fuel rest ({[b]} ∪ m)
            | Err e => (m, Err e) | Panic e => (m, Panic e) | Blocked => (m, Blocked)
            end
        | Err e => (m, Err ("failed Parsing public keys:  " +:+ e))
        | Panic e => (m, Panic e)
        | Blocked => (m, Blocked)
        end
  end.
Definition LoadPublicKeys (file : outcome string) (m : gset string) : gset string * outcome unit :=
  match file with
  | Ok b => load_keys (S (String.length b)) b m
  | Err e => (m, Err ("Failed to load authorized_keys, err: " +:+ e))
  | Panic e => (m, Panic e)
  | Blocked => (m, Blocked)
  end.

(** The lines of some keys. *)
Fixpoint key_lines (ks : list PublicKey) : outcome string :=
  match ks with
  | [] => Ok ""
  | k :: ks => let? line := MarshalAuthorizedKey ecMarshal k in let? rest := key_lines ks in Ok (line +:+ rest)
  end.

(** A file of the lines that MarshalAuthorizedKey writes is loaded: the map has the bytes
    of exactly these keys besides those it had. *)
Theorem written_keys_are_loaded ks text m :
  Forall (fun k => wf_key ecMarshal ecUnmarshal k /\ exists b, KeyMarshal ecMarshal k = Ok b /\ slen b < 2 ^ 32) ks -> key_lines ks = Ok text ->
  exists m', LoadPublicKeys (Ok text) m = (m', Ok tt) /\
    forall b, b ∈ m' <-> b ∈ m \/ exists k, k ∈ ks /\ KeyMarshal ecMarshal k = Ok b.
Proof.
  intros Hks. cbn [LoadPublicKeys]. assert (String.length text < S (String.length text))%nat as Hf by lia. revert Hf. generalize (S (String.length text)) as fuel.
  intros fuel. revert text m fuel. induction Hks as [|k ks (Hw & b & Hb & Hlb) Hks IH]; intros text m fuel Hf E; (destruct fuel as [|fuel]; [lia|]).
  - injection E as <-. exists m. split; [done|]. intros b. split; [by left|]. intros [H|(k & H & _)]; [done|by apply elem_of_nil in H].
  - cbn [key_lines] in E. apply obind_ok in E as (line & Hline & E). apply obind_ok in E as (rest & Hrest & [= <-]). cbn [load_keys].
    assert (line <> "") as Hne. { intros ->. unfold MarshalAuthorizedKey in Hline. apply obind_ok in Hline as (ty & _ & E). apply obind_ok in E as (b' & _ & [= E]). by destruct ty. }
    destruct (String.eqb_spec (line +:+ rest) "") as [E|_]; [by destruct line|].
    rewrite (marshalled_key_read ecMarshal ecUnmarshal k line rest Hw) by (done || (intros b' Hb'; congruence)). rewrite Hb.
    destruct (IH rest ({[b]} ∪ m) fuel) as (m' & -> & Hm); [|done|].
    + rewrite string_app_length in Hf. destruct line; [done|]. cbn in Hf. lia.
    + exists m'. split; [done|]. intros b'. rewrite Hm. rewrite elem_of_union, elem_of_singleton. split.
      * intros [[->|H]|(k' & H & H')]; [right; exists k; split; [by left|done]|by left|right; exists k'; split; [by right|done]].
      * intros [H|(k' & [->|H]%elem_of_cons & H')]; [left; by right|left; left; congruence|right; by exists k'].
Qed.
End Files.

(** An empty line or a comment after the last key makes the file be refused. *)
Theorem last_comment_refused : exists line, MarshalAuthorizedKey demo_ecMarshal demo_key = Ok line /\
  (LoadPublicKeys demo_ecMarshal demo_ecUnmarshal (Ok (line +:+ nl)) ∅).2 = Err "failed Parsing public keys:  ssh: no key found" /\
  (LoadPublicKeys demo_ecMarshal demo_ecUnmarshal (Ok (line +:+ "# no more" +:+ nl)) ∅).2 = Err "failed Parsing public keys:  ssh: no key found".
Proof. eexists. split; [reflexivity|]. split; vm_compute; reflexivity. Qed.

(** *** RSA keys with a password *)

Section Crypt.
(** A new key of so many bits as PEM and its line for authorized_keys, the reading of PEM, and
    whether a file can be written. *)
Context {Signer : Type} (gen_rsa : Z -> outcome (string * string)) (ParsePrivateKey : string -> outcome Signer) (can_write : string -> error_).

Definition WriteFile (path data : string) (files : gmap string string) : outcome (gmap string string) :=
  match can_write path with Some e => Err e | None => Ok (<[path := data]> files) end.

Definition GenRSAKeyPairCrypt (rsaFile : string) (bits : Z) (password : string) (files : gmap string string) : outcome (Signer * gmap string string) :=
  let? '(privBytes, pubBytes) := panicOn (gen_rsa bits) in
  let? sshPrivKey := panicOn (ParsePrivateKey privBytes) in
  if (rsaFile =? "")%string then Ok (sshPrivKey, files)
  else
    let? files := panicOn (WriteFile rsaFile privBytes files) in
    let? files := panicOn (WriteFile (rsaFile +:+ ".pub") pubBytes files) in
    Ok (sshPrivKey, files).

(** [LoadRSAPrivateKeyCrypt], and [LoadHostKey] with other words for its errors. *)
Definition LoadRSAPrivateKeyCrypt (path password : string) (files : gmap string string) : outcome Signer :=
  match files !! path with
  | None => Err ("got error 'open " +:+ path +:+ ": no such file or directory' trying to read path '" +:+ path +:+ "'")
  | Some buf =>
      match ParsePrivateKey buf with
      | Err e => Err ("got error '" +:+ e +:+ "' trying to parse private key from path '" +:+ path +:+ "'")
      | r => r
      end
  end.
Definition LoadHostKey (path : string) (files : gmap string string) : outcome Signer :=
  match files !! path with
  | None => Err ("Failed to load private key from path '" +:+ path +:+ "': open " +:+ path +:+ ": no such file or directory")
  | Some buf =>
      match ParsePrivateKey buf with
      | Err e => Err ("Failed to parse private key '" +:+ path +:+ "': " +:+ e)
      | r => r
      end
  end.

Lemma longer_path path : path <> path +:+ ".pub".
Proof. intros E. apply (f_equal String.length) in E. rewrite string_app_length in E. cbn in E. lia. Qed.

(** A key that was written with a password is read with any, and as a host key with none:
    the file is not encrypted. *)
Theorem password_opens_nothing path bits password password' files s files' :
  GenRSAKeyPairCrypt path bits password files = Ok (s, files') -> path <> "" ->
  LoadRSAPrivateKeyCrypt path password' files' = Ok s /\ LoadHostKey path files' = Ok s.
Proof.
  intros H Hp. unfold GenRSAKeyPairCrypt in H. apply obind_ok in H as ([priv pub] & _ & H). apply obind_ok in H as (s' & Hs & H). apply (proj1 (panicOn_ok _ _)) in Hs.
  destruct (String.eqb_spec path "") as [|_]; [done|]. apply obind_ok in H as (f1 & H1 & H). apply obind_ok in H as (f2 & H2 & [= <- <-]).
  apply (proj1 (panicOn_ok _ _)) in H1. apply (proj1 (panicOn_ok _ _)) in H2. unfold WriteFile in H1, H2. destruct (can_write path); [done|]. destruct (can_write _); [done|].
  injection H1 as <-. injection H2 as <-. unfold LoadRSAPrivateKeyCrypt, LoadHostKey.
  rewrite lookup_insert_ne by (apply not_eq_sym, longer_path). rewrite lookup_insert_eq. by rewrite Hs.
Qed.
End Crypt.

(** ** Witnesses *)

Lemma sshego_ends_agree_witness : "ssh-rsa" ∈ supportedHostKeyAlgos /\
  findAgreedAlgorithms (own_init demo_cookie (newClientTransport (SetDefaults cliCfg) "A" "B" None))
    (own_init demo_cookie (newServerTransport (SetDefaults SetTripleConfig) "A" "B" ["ssh-rsa"])) =
  Ok (mkAlgs kexAlgoCurve25519SHA256 "ssh-rsa" (mkDir gcmCipherID "hmac-sha2-256-etm@openssh.com" "none") (mkDir gcmCipherID "hmac-sha2-256-etm@openssh.com" "none")).
Proof.
  assert ("ssh-rsa" ∈ supportedHostKeyAlgos) as H by (unfold supportedHostKeyAlgos; set_solver).
  split; [exact H|]. apply (sshego_ends_agree demo_cookie demo_cookie "A" "B" "ssh-rsa" H).
Defined.

Lemma password_opens_nothing_witness :
  LoadRSAPrivateKeyCrypt (fun b => Ok b) "id" "another" (<["id.pub" := "public"]> {["id" := "private"]}) = Ok "private" /\
  LoadHostKey (fun b => Ok b) "id" (<["id.pub" := "public"]> {["id" := "private"]}) = Ok "private".
Proof.
  apply (password_opens_nothing (fun _ => Ok ("private", "public")) (fun b => Ok b) (fun _ => None) "id" 2048 "secret" "another" ∅); [reflexivity|discriminate].
Defined.

Definition demo_lines : string := match key_lines demo_ecMarshal [demo_key; demo_other] with Ok text => text | _ => "" end.

Lemma written_keys_are_loaded_witness :
  exists m', LoadPublicKeys demo_ecMarshal demo_ecUnmarshal (Ok demo_lines) ∅ = (m', Ok tt) /\
    forall b, b ∈ m' <-> b ∈ (∅ : gset string) \/ exists k, k ∈ [demo_key; demo_other] /\ KeyMarshal demo_ecMarshal k = Ok b.
Proof.
  apply (written_keys_are_loaded demo_ecMarshal demo_ecUnmarshal [demo_key; demo_other] demo_lines ∅).
  - repeat (apply List.Forall_cons || apply List.Forall_nil); (split; [exact I|]); eexists; (split; [vm_compute; reflexivity|]); reflexivity.
  - vm_compute. reflexivity.
Defined.
