(* ===== verification/Login.v ===== *)
(** The login of server.go with the keys of the ssh library: [Auth]'s loop, its
    parameters for keys replaced by what [Keys] and [AuthorizedKeys] model. *)
From S2P Require Import Prelude.
From S2P Require Import GoStrings.
From S2P Require Import Wire.
From S2P Require Import UserDb.
From S2P Require Import Auth.
From S2P Require Import Keys.
From S2P Require Import AuthorizedKeys.
Import AtomicUserMap.

Section Login.
Context (compare_hash : string -> string -> bool)
        (key_from_url : string -> outcome unit)
        (totp_validate : string -> string -> Z -> bool).
Context (ecMarshal : Z -> Z -> Z -> string) (ecUnmarshal : Z -> string -> option (Z * Z)).
Context (rsa_verify : Z -> Z -> string -> string -> error_)
        (dsa_verify : Z -> Z -> Z -> Z -> string -> Z -> Z -> bool)
        (ecdsa_verify : Z -> Z -> Z -> string -> Z -> Z -> bool)
        (ed25519_equation : string -> string -> string -> bool).
Context (encode_db encode_json : HostDbPersist -> string) (can_write : string -> bool).
Context (cfg : HostCfg).
Context (remoteAddr sessionID : string).
Abbreviation Verify := (Verify rsa_verify dsa_verify ecdsa_verify ed25519_equation).

(** The bytes of a key; those that [ParsePublicKey] returns have them. *)
Definition keyBytes (k : PublicKey) : string :=
  match KeyMarshal ecMarshal k with Ok b => b | _ => "" end.

(** rsa.go: the first key of the file. *)
Definition first_key (data : string) : outcome PublicKey :=
  let? '(k, _, _, _) := ParseAuthorizedKey ecUnmarshal data in Ok k.

Definition authenticate : list event -> HostDb -> PerAttempt * HostDb * outcome string :=
  serverAuthenticate compare_hash key_from_url totp_validate PublicKey keyBytes (ParsePublicKey ecUnmarshal) first_key
    Verify encode_db encode_json can_write cfg remoteAddr sessionID.

Abbreviation publickey_case := (publickey_case PublicKey keyBytes (ParsePublicKey ecUnmarshal) first_key
    Verify encode_db encode_json can_write cfg sessionID).
Abbreviation parse_pubkey := (parse_pubkey PublicKey (ParsePublicKey ecUnmarshal)).
Abbreviation method_case := (method_case compare_hash key_from_url totp_validate PublicKey keyBytes (ParsePublicKey ecUnmarshal) first_key
    Verify encode_db encode_json can_write cfg remoteAddr sessionID).
Abbreviation userAuthLoop := (userAuthLoop compare_hash key_from_url totp_validate PublicKey keyBytes (ParsePublicKey ecUnmarshal) first_key
    Verify encode_db encode_json can_write cfg remoteAddr sessionID).
Abbreviation key_matches := (key_matches PublicKey keyBytes first_key).

(** ** The key on file *)

Lemma keyBytes_read k : wf_key ecMarshal ecUnmarshal k -> slen (keyBytes k) < 2 ^ 32 -> ParsePublicKey ecUnmarshal (keyBytes k) = Ok k.
Proof.
  intros Hw. destruct (wf_readable _ _ _ Hw) as (ty & body & _ & Hk & _). unfold keyBytes. rewrite Hk. by apply (wf_read ecMarshal).
Qed.

(** rsa.go, [GenRSAKeyPair]: the public key file, with the email in place of the
    line's end. *)
Definition public_file (key : PublicKey) (email : string) : outcome string :=
  let? pubBytes := MarshalAuthorizedKey ecMarshal key in
  Ok (if (email =? "")%string then pubBytes
      else stake (String.length pubBytes - 1) pubBytes +:+ " " +:+ email +:+ nl).

Lemma public_file_read k email line :
  wf_key ecMarshal ecUnmarshal k -> slen (keyBytes k) < 2 ^ 32 -> comment_ok email = true ->
  public_file k email = Ok line -> first_key line = Ok k.
Proof.
  intros Hw Hl Hc H. unfold public_file in H. apply obind_ok in H as (pub & Hm & H). apply Ok_inj in H.
  unfold MarshalAuthorizedKey in Hm. apply obind_ok in Hm as (ty & Ht & Hm). apply obind_ok in Hm as (b & Hb & Hm).
  apply Ok_inj in Hm. assert (ParsePublicKey ecUnmarshal b = Ok k) as Hk.
  { apply (wf_read ecMarshal); [done..|]. unfold keyBytes in Hl. by rewrite Hb in Hl. }
  assert (line = (options_part [] +:+ key_text ty b email) +:+ nl) as ->.
  { subst line. unfold key_text, comment_part. cbn [options_part]. rewrite string_app_nil_l.
    set (text := ty +:+ " " +:+ Base64.encode b) in *.
    assert (pub = text +:+ nl) as -> by (subst pub; unfold text; by rewrite !string_app_assoc).
    destruct (email =? "")%string.
    - unfold text. rewrite string_app_nil_r. change (String " " (Base64.encode b)) with (" " +:+ Base64.encode b).
      rewrite !string_app_assoc. reflexivity.
    - rewrite string_app_length, Nat.add_sub, stake_app. unfold text.
      change (String " " (Base64.encode b +:+ String " " email)) with (" " +:+ (Base64.encode b +:+ (" " +:+ email))).
      rewrite !string_app_assoc. reflexivity. }
  unfold first_key. change nl with (String nl_byte "") at 1.
  rewrite (authorized_read ecUnmarshal [] ty b k email "" Hk); [done|by eapply type_name_spec, type_name|done..].
Qed.

Lemma key_on_file_matches user h k email line offered :
  wf_key ecMarshal ecUnmarshal k -> slen (keyBytes k) < 2 ^ 32 ->
  wf_key ecMarshal ecUnmarshal offered -> slen (keyBytes offered) < 2 ^ 32 -> comment_ok email = true ->
  public_file k email = Ok line -> files h !! PublicKeyPath user = Some line ->
  (key_matches user offered h = true <-> offered = k).
Proof.
  intros Hw Hl Hw' Hl' Hc Hm Hf. unfold Auth.key_matches, LoadRSAPublicKey. rewrite Hf.
  rewrite (public_file_read k email line) by done. rewrite String.eqb_eq. split; [|by intros ->]. intros He.
  pose proof (keyBytes_read k Hw Hl) as H1. rewrite He in H1. rewrite keyBytes_read in H1 by done. by injection H1.
Qed.

(** With the public key file that was written for a user, with the email
    or without, the server takes an offered key for that of the user exactly
    when it is the same key. *)
Theorem key_on_file user h k email line offered :
  wf_key ecMarshal ecUnmarshal k -> slen (keyBytes k) < 2 ^ 32 ->
  wf_key ecMarshal ecUnmarshal offered -> slen (keyBytes offered) < 2 ^ 32 -> comment_ok email = true ->
  public_file k email = Ok line -> files h !! PublicKeyPath user = Some line ->
  (key_matches user offered h = true <-> offered = k).
Proof. apply key_on_file_matches. Qed.

(** ** Requests with keys *)

Definition str (s : string) : string := field_bytes (VString s).
Definition signed_part_of (sig : option Signature) : string :=
  match sig with None => "" | Some s => str (signature_bytes (Some s)) end.

(** What a client sends: a query without a signature, or a signed request. *)
Definition key_payload (algo data : string) (sig : option Signature) : string :=
  String (byte (if sig then 1 else 0)) (str algo +:+ (str data +:+ signed_part_of sig)).
Definition key_request (user algo data : string) (sig : option Signature) : string :=
  Marshal userAuthRequestMsg [VString user; VString serviceSSH; VString "publickey"; VRest (key_payload algo data sig)].
Definition small_request (user algo data : string) (sig : option Signature) : Prop :=
  slen user + slen algo + slen data + slen (signed_part_of sig) < 2 ^ 31.

Lemma str_slen s : slen (str s) = 4 + slen s.
Proof. apply field_string_slen. Qed.
Lemma parse_str s rest : slen s + slen rest < 2 ^ 32 -> parseString (str s +:+ rest) = Some (s, rest).
Proof. apply parseString_field. Qed.

Lemma key_request_parsed user algo data sig :
  small_request user algo data sig ->
  parse_request (key_request user algo data sig) = Ok (mkRequest user serviceSSH "publickey" (key_payload algo data sig)).
Proof.
  unfold small_request. intros H. unfold parse_request, key_request.
  pose proof (slen_nonneg user). pose proof (slen_nonneg algo). pose proof (slen_nonneg data).
  rewrite Unmarshal_Marshal; [done|done|]. split; [by repeat constructor|].
  cbn [fields_bytes]. fold (str user) (str serviceSSH) (str "publickey"). rewrite !slen_app, !str_slen.
  change (field_bytes (VRest ?x)) with x. change (slen serviceSSH) with 14. change (slen "publickey") with 9. change (slen "") with 0.
  unfold key_payload. change (String ?c ?x) with (String c "" +:+ x). rewrite !slen_app, !str_slen. change (slen (String _ "")) with 1. lia.
Qed.

Lemma key_payload_parsed algo data key sig :
  small_request "" algo data sig -> isAcceptableAlgo algo = true -> ParsePublicKey ecUnmarshal data = Ok key ->
  parse_pubkey (key_payload algo data sig) = inr (negb (if sig then true else false), algo, data, key, signed_part_of sig).
Proof.
  unfold small_request. intros H Ha Hk. pose proof (slen_nonneg algo). pose proof (slen_nonneg data). pose proof (slen_nonneg (signed_part_of sig)).
  change (slen "") with 0 in H. unfold Auth.parse_pubkey, key_payload.
  rewrite parse_str by (rewrite slen_app, str_slen; lia). rewrite Ha. cbn [negb].
  rewrite parse_str by lia. rewrite Hk. by destruct sig.
Qed.

Lemma signed_part_parsed s :
  slen (signed_part_of (Some s)) < 2 ^ 31 -> parseSignature (signed_part_of (Some s)) = Some (s, "").
Proof.
  unfold signed_part_of. intros H. rewrite str_slen in H. unfold parseSignature.
  rewrite <- (string_app_nil_r (str _)), parse_str by (change (slen "") with 0; lia). by rewrite parse_signature by lia.
Qed.

(** What is signed for a request. *)
Definition signed_data (user algo data : string) : string :=
  buildDataSignedForAuth sessionID user serviceSSH "publickey" algo data.

Lemma key_case user now algo data key sig cache a h :
  small_request user algo data sig -> isAcceptableAlgo algo = true -> ParsePublicKey ecUnmarshal data = Ok key ->
  let req := mkRequest user serviceSSH "publickey" (key_payload algo data sig) in
  let '(cache', a', h', result) := candidate_of PublicKey keyBytes first_key encode_db encode_json can_write cfg req now data key cache a h in
  publickey_case req now cache a h =
    (cache', a', h',
     match sig with
     | None => match result with Ok _ => Continue | _ => judge result end
     | Some s =>
         if negb (isAcceptableAlgo (Format s)) then Judged (Some "no auth passed yet")
         else match Verify key (signed_data user algo data) s with
              | Ok _ => judge result
              | Err e => Return (Err e)
              | Panic m => Return (Panic m)
              | Blocked => Return Blocked
              end
     end).
Proof.
  intros Hs Ha Hk req. unfold Auth.publickey_case. unfold req at 2. cbn [req_Payload].
  assert (small_request "" algo data sig) as Hs' by (unfold small_request in *; pose proof (slen_nonneg user); change (slen "") with 0; lia).
  rewrite (key_payload_parsed algo data key sig) by done.
  destruct (candidate_of _ _ _ _ _ _ _ _ _ _ _ _ _ _) as [[[c' a'] h'] r]. destruct sig as [s|]; [|done]. cbn [negb].
  rewrite signed_part_parsed; [done|]. unfold small_request in Hs. pose proof (slen_nonneg user). pose proof (slen_nonneg algo).
  pose proof (slen_nonneg data). lia.
Qed.

(** One turn of the loop on a request with a key. *)
Lemma loop_key config ev evs n cache errs a h user algo data key sig :
  HasPublicKeyCallback config = true -> (MaxAuthTries config <=? n) && (0 <? MaxAuthTries config) = false ->
  ev_packet ev = key_request user algo data sig -> small_request user algo data sig ->
  isAcceptableAlgo algo = true -> ParsePublicKey ecUnmarshal data = Ok key ->
  let req := mkRequest user serviceSSH "publickey" (key_payload algo data sig) in
  let '(cache', a', h', v) := publickey_case req (ev_now ev) cache a h in
  userAuthLoop config (ev :: evs) n cache errs a h =
    match v with
    | Return r => (a', h', r)
    | Continue => userAuthLoop config evs n cache' errs a' h'
    | Judged None => (AuthLogCallback a' "publickey" None, h', Ok user)
    | Judged (Some e) => userAuthLoop config evs (n + 1) cache' (errs ++ [e]) a' h'
    end.
Proof.
  intros Hc Hn He Hs Ha Hk req. destruct (publickey_case req (ev_now ev) cache a h) as [[[c' a'] h'] v] eqn:E.
  cbn [Auth.userAuthLoop]. rewrite Hn, He, key_request_parsed by done. cbn [req_Service]. change (serviceSSH =? serviceSSH)%string with true.
  cbn [negb]. unfold Auth.method_case. fold req. cbn [req_Method req]. change (req_Method req) with "publickey". cbn [String.eqb Ascii.eqb Bool.eqb].
  rewrite Hc. cbn [negb]. rewrite E. destruct v as [r| |[e|]]; done.
Qed.

(** C36: Anyone who reaches the server can stop it before any login: a signed
    request with an Ed25519 key that is not 32 bytes long panics, for the key
    is verified whatever the verdict on it, and its length is never checked. *)
Theorem short_key_stops_server user kb blob ev evs h :
  let data := keyBytes (ED25519 kb) in
  let sig := mkSignature KeyAlgoED25519 blob in
  SkipRSA cfg = false -> slen kb <> 32 ->
  ev_packet ev = key_request user KeyAlgoED25519 data (Some sig) -> small_request user KeyAlgoED25519 data (Some sig) ->
  (authenticate (ev :: evs) h).2 = Panic ("ed25519: bad public key length: " +:+ itoa (slen kb)).
Proof.
  intros data sig Hcfg Hkb He Hs. unfold authenticate, serverAuthenticate, SetupAuthRequirements. rewrite Hcfg. cbn [negb].
  set (config := fullConf _). set (a0 := mkAttempt _ _).
  assert (ParsePublicKey ecUnmarshal data = Ok (ED25519 kb)) as Hk.
  { apply keyBytes_read; [exact I|]. fold data. unfold small_request in Hs. pose proof (slen_nonneg user).
    pose proof (slen_nonneg (signed_part_of (Some sig))). change (slen KeyAlgoED25519) with 11 in Hs. lia. }
  pose proof (loop_key config ev evs 0 [] [] a0 h user KeyAlgoED25519 data (ED25519 kb) (Some sig) eq_refl eq_refl He Hs eq_refl Hk) as HL.
  pose proof (key_case user (ev_now ev) KeyAlgoED25519 data (ED25519 kb) (Some sig) [] a0 h Hs eq_refl Hk) as HC.
  cbv zeta in HL, HC.
  destruct (candidate_of _ _ _ _ _ _ _ _ _ _ _ _ _ _) as [[[c' a'] h'] r]. rewrite HC in HL.
  assert (Verify (ED25519 kb) (signed_data user KeyAlgoED25519 data) sig = Panic ("ed25519: bad public key length: " +:+ itoa (slen kb))) as HV.
  { change (Verify (ED25519 kb) (signed_data user KeyAlgoED25519 data) sig)
      with (let? ok := ed25519_Verify ed25519_equation kb (signed_data user KeyAlgoED25519 data) blob in
            if ok : bool then Ok tt else Err "ssh: signature did not verify").
    unfold ed25519_Verify. destruct (Z.eqb_spec (slen kb) 32); [done|]. reflexivity. }
  rewrite HV in HL. change (negb (isAcceptableAlgo (Format sig))) with false in HL. cbv iota in HL. by rewrite HL.
Qed.

(** ** Logins by key alone *)

Definition key_only : bool := negb (SkipRSA cfg) && (SkipPassphrase cfg && SkipTOTP cfg).

(** A signed request of the user: the key that it offers has verified the signature
    over the session, the user, the algorithm and the key. *)
Definition signed_request (user : string) (ev : event) : Prop :=
  exists req algo data key rest sig,
    parse_request (ev_packet ev) = Ok req /\ req_User req = user /\ req_Method req = "publickey" /\
    parse_pubkey (req_Payload req) = inr (false, algo, data, key, rest) /\
    parseSignature rest = Some (sig, "") /\
    Verify key (buildDataSignedForAuth sessionID user (req_Service req) "publickey" algo data) sig = Ok tt.

Lemma key_case_signed req ev cache a h cache' a' h' :
  parse_request (ev_packet ev) = Ok req -> req_Method req = "publickey" ->
  publickey_case req (ev_now ev) cache a h = (cache', a', h', Judged None) -> signed_request (req_User req) ev.
Proof.
  intros HQ HM. unfold Auth.publickey_case.
  destruct (parse_pubkey (req_Payload req)) as [v|[[[[q algo] data] key] rest]] eqn:EP.
  { intros [= _ _ _ ->]. by apply parse_pubkey_verdict in EP as [? _]. }
  destruct (candidate_of _ _ _ _ _ _ _ _ _ _ _ _ _ _) as [[[c1 a1] h1] r1]. unfold bad_request.
  destruct q; [destruct (negb _); [done|]; by destruct r1 as [[]| | |]|].
  destruct (parseSignature rest) as [[sig [|? ?]]|] eqn:ES; try done.
  destruct (negb _); [done|]. destruct (Verify key _ sig) as [[]| | |] eqn:EV; try done. intros _.
  exists req, algo, data, key, rest, sig. rewrite HM in EV. by rewrite HM.
Qed.

Lemma key_loop_signed config evs n cache errs a h a' h' user :
  HasKeyboardInteractiveCallback config = false ->
  userAuthLoop config evs n cache errs a h = (a', h', Ok user) -> Exists (signed_request user) evs.
Proof.
  intros HK. revert n cache errs a h. induction evs as [|ev evs IH]; intros n cache errs a h; cbn [Auth.userAuthLoop].
  { by destruct (_ && _). }
  destruct (_ && _); [done|]. destruct (parse_request (ev_packet ev)) as [req|e|s|] eqn:EQ; try done.
  destruct (negb (_ =? serviceSSH)%string); [done|].
  destruct (method_case config ev req cache a h) as [[[c1 a1] h1] v] eqn:EM.
  assert (v = Judged None -> signed_request (req_User req) ev) as Hv.
  { intros ->. revert EM. unfold Auth.method_case. destruct (_ =? "none")%string; [done|]. destruct (_ =? "password")%string; [done|].
    destruct (_ =? "keyboard-interactive")%string; [by rewrite HK|].
    destruct (String.eqb_spec (req_Method req) "publickey"); [|done]. destruct (negb _); [done|]. by apply key_case_signed. }
  destruct v as [r| |[e|]].
  - intros [= <- <- ->]. revert EM. unfold Auth.method_case. destruct (_ =? "none")%string; [done|]. destruct (_ =? "password")%string; [done|].
    destruct (_ =? "keyboard-interactive")%string; [by rewrite HK|]. destruct (_ =? "publickey")%string; [|done]. destruct (negb _); [done|].
    unfold Auth.publickey_case. destruct (parse_pubkey (req_Payload req)) as [v|[[[[q algo] data] key] rest]] eqn:EP.
    { intros [= _ _ _ ->]. apply parse_pubkey_verdict in EP as [_ Hr]. by destruct (Hr user). }
    destruct (candidate_of _ _ _ _ _ _ _ _ _ _ _ _ _ _) as [[[c2 a2] h2] r2]. unfold bad_request.
    destruct q; [destruct (negb _); [done|]; by destruct r2 as [[]| | |]|].
    destruct (parseSignature rest) as [[sig [|? ?]]|]; try done. destruct (negb _); [done|].
    destruct (Verify key _ sig) as [[]| | |]; try done. by destruct r2 as [[]| | |].
  - intros H. right. by eapply IH.
  - destruct (negb _); [done|]. intros H. right. by eapply IH.
  - intros [= <- <- <-]. left. by apply Hv.
Qed.

(** C37: Where a key is the only factor, no one is logged in without a signed
    request in the user's name: a signature over this session, this user and
    the offered key, that this key has verified. *)
Theorem key_login_needs_signature evs h a h' user :
  key_only = true -> authenticate evs h = (a, h', Ok user) -> Exists (signed_request user) evs.
Proof.
  unfold key_only, authenticate, serverAuthenticate, SetupAuthRequirements. intros H. bool_prop.
  match goal with H : SkipPassphrase cfg = true, H' : SkipTOTP cfg = true |- _ => rewrite H, H' end.
  by apply key_loop_signed.
Qed.

(** Once both factors are noted, every key that a known user presents is accepted. *)
Lemma any_key_accepted user now key a h u :
  loginRE user = true -> Get2 (Users (Persist h)) user = Some u -> PublicKeyOK a = true -> OneTimeOK a = true ->
  exists a' h', PublicKeyCallback PublicKey keyBytes first_key encode_db encode_json can_write cfg user now key a h = (a', h', Ok tt).
Proof.
  intros HL HU HP HO. unfold PublicKeyCallback, ValidLogin. rewrite HL, HU.
  destruct (key_matches u key h); destruct a; cbn in *; subst; eauto.
Qed.

Lemma right_key_accepted user now k email line h u :
  key_only = true -> loginRE user = true -> Get2 (Users (Persist h)) user = Some u ->
  wf_key ecMarshal ecUnmarshal k -> slen (keyBytes k) < 2 ^ 32 ->
  comment_ok email = true -> public_file k email = Ok line -> files h !! PublicKeyPath u = Some line ->
  exists h' u', PublicKeyCallback PublicKey keyBytes first_key encode_db encode_json can_write cfg user now k
      (mkAttempt (SkipRSA cfg) (SkipPassphrase cfg && SkipTOTP cfg)) h = (mkAttempt true true, h', Ok tt) /\
    Get2 (Users (Persist h')) user = Some u'.
Proof.
  intros Hko HL HU Hw Hl Hc Hm Hf. unfold key_only in Hko. apply andb_true_iff in Hko as [_ Hki]. rewrite Hki.
  unfold PublicKeyCallback, ValidLogin. rewrite HL, HU.
  assert (key_matches u k h = true) as -> by (by apply (key_on_file_matches u h k email line k)).
  cbn [OneTimeOK PublicKeyOK andb]. eexists _, _. split; [reflexivity|].
  unfold lockit_save. rewrite save_persist. cbn [with_user with_users Persist Users]. by rewrite Get2_update, decide_True, HU by done.
Qed.

(** Where a key is the only factor, knowing the public key of a user is
    enough to log in as that user: a query with it, unsigned, is noted, and then
    any key of the client's own is accepted in the user's name. *)
Theorem login_with_anothers_key user u k email line own sig algo1 algo2 ev1 ev2 h :
  key_only = true -> loginRE user = true -> Get2 (Users (Persist h)) user = Some u ->
  wf_key ecMarshal ecUnmarshal k -> wf_key ecMarshal ecUnmarshal own ->
  comment_ok email = true -> public_file k email = Ok line -> files h !! PublicKeyPath u = Some line ->
  ev_packet ev1 = key_request user algo1 (keyBytes k) None -> small_request user algo1 (keyBytes k) None ->
  ev_packet ev2 = key_request user algo2 (keyBytes own) (Some sig) -> small_request user algo2 (keyBytes own) (Some sig) ->
  isAcceptableAlgo algo1 && isAcceptableAlgo algo2 && isAcceptableAlgo (Format sig) = true ->
  Verify own (signed_data user algo2 (keyBytes own)) sig = Ok tt ->
  (authenticate [ev1; ev2] h).2 = Ok user.
Proof.
  intros Hko HL HU Hw Hw2 Hc Hm Hf He1 Hs1 He2 Hs2 Ha HV. bool_prop.
  assert (forall algo d sg, small_request user algo d sg -> slen d < 2 ^ 32) as Hsz.
  { unfold small_request. intros algo d sg H'. pose proof (slen_nonneg user). pose proof (slen_nonneg algo). pose proof (slen_nonneg (signed_part_of sg)). lia. }
  destruct (right_key_accepted user (ev_now ev1) k email line h u) as (h1 & u1 & HC1 & HU1); try done; [by eapply Hsz|].
  unfold authenticate, serverAuthenticate, SetupAuthRequirements. assert (SkipRSA cfg = false) as Hrsa by (unfold key_only in Hko; by bool_prop).
  rewrite Hrsa in *. cbn [negb]. set (config := fullConf _).
  pose proof (keyBytes_read k Hw ltac:(by eapply Hsz)) as Hk1. pose proof (keyBytes_read own Hw2 ltac:(by eapply Hsz)) as Hk2.
  pose proof (loop_key config ev1 [ev2] 0 [] [] (mkAttempt false (SkipPassphrase cfg && SkipTOTP cfg)) h user algo1 (keyBytes k) k None eq_refl eq_refl He1 Hs1 ltac:(done) Hk1) as HL1.
  pose proof (key_case user (ev_now ev1) algo1 (keyBytes k) k None [] (mkAttempt false (SkipPassphrase cfg && SkipTOTP cfg)) h Hs1 ltac:(done) Hk1) as HK1.
  cbv zeta in HL1, HK1. unfold candidate_of in HK1. cbn [cache_get req_User] in HK1. rewrite HC1 in HK1. rewrite HK1 in HL1.
  rewrite HL1. clear HL1 HK1 HC1.
  set (cache := cache_add _ _).
  pose proof (loop_key config ev2 [] 0 cache [] (mkAttempt true true) h1 user algo2 (keyBytes own) own (Some sig) eq_refl eq_refl He2 Hs2 ltac:(done) Hk2) as HL2.
  pose proof (key_case user (ev_now ev2) algo2 (keyBytes own) own (Some sig) cache (mkAttempt true true) h1 Hs2 ltac:(done) Hk2) as HK2.
  cbv zeta in HL2, HK2. unfold candidate_of in HK2. cbn [req_User] in HK2. unfold cache at 1 in HK2. cbn [cache_add List.length Nat.ltb Nat.leb maxCachedPubKeys app cache_get] in HK2.
  destruct ((user =? user)%string && (keyBytes k =? keyBytes own)%string).
  - rewrite HV in HK2. match goal with H : isAcceptableAlgo (Format sig) = true |- _ => rewrite H in HK2 end.
    cbn [negb judge] in HK2. rewrite HK2 in HL2. by rewrite HL2.
  - destruct (any_key_accepted user (ev_now ev2) own (mkAttempt true true) h1 u1) as (a' & h' & HC2); try done.
    rewrite HC2 in HK2. rewrite HV in HK2. match goal with H : isAcceptableAlgo (Format sig) = true |- _ => rewrite H in HK2 end.
    cbn [negb judge] in HK2. rewrite HK2 in HL2. by rewrite HL2.
Qed.
End Login.

(** ** A server with one user *)

Definition key_cfg : HostCfg := mkHostCfg "/db" true true false 4096.
Definition demo_line : string := match public_file demo_ecMarshal demo_key "bob@b" with Ok s => s | _ => "" end.
Definition demo_user : User := match Get2 (Users (Persist demo_users)) "bob" with Some u => u | None => NewUser end.
Definition demo_host : HostDb := mkHostDb (Persist demo_users) {[PublicKeyPath demo_user := demo_line]}.
Definition demo_server : list event -> HostDb -> PerAttempt * HostDb * outcome string :=
  authenticate demo_check (fun _ => Ok tt) demo_validate demo_ecMarshal demo_ecUnmarshal (fun _ _ _ _ => None)
    (fun _ _ _ _ _ _ _ => false) (fun _ _ _ _ _ _ => false) demo_ed_verify demo_encode demo_encode (fun _ => true)
    key_cfg "10.0.0.1:9999" "session".
Definition demo_keyBytes : PublicKey -> string := keyBytes demo_ecMarshal.

(** The signature that a key of [demo_ed_verify] makes. *)
Definition demo_signature (seed user key : string) : Signature :=
  mkSignature KeyAlgoED25519
    (seed +:+ stake 31 (signed_data "session" user KeyAlgoED25519 key) +:+ String (byte 0) "").
Definition demo_event (user : string) (key : PublicKey) (sig : option Signature) : event :=
  mkEvent 1000 (key_request user KeyAlgoED25519 (demo_keyBytes key) sig) None None.

Lemma key_on_file_witness :
  key_matches PublicKey demo_keyBytes (first_key demo_ecUnmarshal) demo_user demo_key demo_host = true.
Proof.
  apply (key_on_file demo_ecMarshal demo_ecUnmarshal demo_user demo_host demo_key "bob@b" demo_line demo_key); try reflexivity; exact I.
Defined.

Lemma short_key_stops_server_witness :
  (demo_server [demo_event "nobody" (ED25519 "short") (Some (mkSignature KeyAlgoED25519 ""))] demo_host).2
    = Panic ("ed25519: bad public key length: " +:+ itoa 5).
Proof.
  apply (short_key_stops_server demo_check (fun _ => Ok tt) demo_validate demo_ecMarshal demo_ecUnmarshal (fun _ _ _ _ => None)
    (fun _ _ _ _ _ _ _ => false) (fun _ _ _ _ _ _ => false) demo_ed_verify demo_encode demo_encode (fun _ => true)
    key_cfg "10.0.0.1:9999" "session" "nobody" "short" ""); (reflexivity || discriminate).
Defined.

(** bob logs in with his key; someone else with another. *)
Definition bob_signs : event := demo_event "bob" demo_key (Some (demo_signature "0123456789abcdef0123456789abcdef" "bob" (demo_keyBytes demo_key))).
Definition other_signs : event := demo_event "bob" demo_other (Some (demo_signature "abcdefghijklmnopqrstuvwxyz012345" "bob" (demo_keyBytes demo_other))).

Lemma key_login_needs_signature_witness :
  Exists (signed_request demo_ecUnmarshal (fun _ _ _ _ => None) (fun _ _ _ _ _ _ _ => false) (fun _ _ _ _ _ _ => false)
    demo_ed_verify "session" "bob") [bob_signs].
Proof.
  apply (key_login_needs_signature demo_check (fun _ => Ok tt) demo_validate demo_ecMarshal demo_ecUnmarshal (fun _ _ _ _ => None)
    (fun _ _ _ _ _ _ _ => false) (fun _ _ _ _ _ _ => false) demo_ed_verify demo_encode demo_encode (fun _ => true)
    key_cfg "10.0.0.1:9999" "session" [bob_signs] demo_host (demo_server [bob_signs] demo_host).1.1 (demo_server [bob_signs] demo_host).1.2 "bob");
    vm_compute; reflexivity.
Defined.

Lemma login_with_anothers_key_witness :
  (demo_server [demo_event "bob" demo_key None; other_signs] demo_host).2 = Ok "bob".
Proof.
  apply (login_with_anothers_key demo_check (fun _ => Ok tt) demo_validate demo_ecMarshal demo_ecUnmarshal (fun _ _ _ _ => None)
    (fun _ _ _ _ _ _ _ => false) (fun _ _ _ _ _ _ => false) demo_ed_verify demo_encode demo_encode (fun _ => true)
    key_cfg "10.0.0.1:9999" "session" "bob" demo_user demo_key "bob@b" demo_line demo_other
    (demo_signature "abcdefghijklmnopqrstuvwxyz012345" "bob" (demo_keyBytes demo_other)) KeyAlgoED25519 KeyAlgoED25519);
    try exact I; vm_compute; reflexivity.
Defined.
