(* ===== verification/ClientAuth.v ===== *)
(** The client's side of a login (xendor/github.com/glycerine/xcryptossh/client_auth.go;
    sshutil.go: [helper] of kiCliHelp and the methods that SSHConnect hands to the
    library). The packets of the server are a list that the client reads one by
    one; what the client does is recorded in a trace. *)
From S2P Require Import Prelude.
From S2P Require Import GoStrings.
From S2P Require Import Wire.
From S2P Require Import Auth.
From S2P Require Import Keys.
From S2P Require Import AuthorizedKeys.

(** ** The connection

    [Tried] and [Signed] are no packets: they record that a method was begun and
    that a private key was used, and on what. *)
Inductive io_event :=
| Sent (packet : string)
| Received (packet : string)
| Tried (method : string)
| Signed (key : PublicKey) (data : string).

Record packetConn := mkPacketConn { trace : list io_event; incoming : list string }.

Definition log (e : io_event) (c : packetConn) : packetConn := mkPacketConn (trace c ++ [e]) (incoming c).

(** A callback of the program is asked at an instant: how much happened on the
    connection before. Its answer may depend on it as on a clock, a person or
    a random source. *)
Definition instant := nat.
Definition instant_of (c : packetConn) : instant := List.length (trace c).

(** ** Computations on a connection *)

Definition io (A : Type) : Type := packetConn -> outcome A * packetConn.

Definition ret {A} (a : A) : io A := fun c => (Ok a, c).
Definition lift {A} (m : outcome A) : io A := fun c => (m, c).
Definition fail {A} (e : string) : io A := lift (Err e).
Definition bind {A B} (m : io A) (k : A -> io B) : io B :=
  fun c =>
    match m c with
    | (Ok a, c) => k a c
    | (Err e, c) => (Err e, c)
    | (Panic s, c) => (Panic s, c)
    | (Blocked, c) => (Blocked, c)
    end.
(** A callback, asked now. *)
Definition ask {A} (cb : instant -> outcome A) : io A := fun c => (cb (instant_of c), c).
Definition note (e : io_event) : io unit := fun c => (Ok tt, log e c).

Declare Scope io_scope.
Notation "'let!' x := m 'in' k" := (bind m (fun x => k))
  (at level 10, x name, m at level 100, k at level 200) : io_scope.
Notation "'let!' ' p := m 'in' k" := (bind m (fun x => match x with p => k end))
  (at level 10, p strict pattern, m at level 100, k at level 200) : io_scope.
Notation "'do!' m 'in' k" := (bind m (fun _ => k))
  (at level 10, m at level 100, k at level 200) : io_scope.
#[local] Open Scope io_scope.

(** [readPacket]; at the end of the list the connection is closed. *)
Definition readPacket : io string :=
  fun c =>
    match incoming c with
    | [] => (Err EOF, c)
    | p :: ps => (Ok p, mkPacketConn (trace c ++ [Received p]) ps)
    end.

(** A loop that reads a packet in each round, until its body has a result. Each
    round takes a packet, so that their number bounds the rounds. *)
Fixpoint read_rounds {R} (fuel : nat) (body : string -> io (option R)) : io R :=
  match fuel with
  | O => fun c => (Blocked, c)
  | S fuel =>
      let! packet := readPacket in
      let! r := body packet in
      match r with Some r => ret r | None => read_rounds fuel body end
  end.
Definition read_loop {R} (body : string -> io (option R)) : io R :=
  fun c => read_rounds (S (List.length (incoming c))) body c.

(** [packet[0]]. *)
Definition first_byte (packet : string) : outcome Z :=
  match packet with "" => Panic "index out of range" | String c _ => Ok (val c) end.

(** ** Messages *)

Definition msgUserAuthFailure : Z := 51.
Definition msgUserAuthSuccess : Z := 52.
Definition msgUserAuthBanner : Z := 53.
Definition msgUserAuthPubKeyOk : Z := 60.
Definition msgUserAuthInfoRequest : Z := 60.
Definition msgUserAuthInfoResponse : Z := 61.
Definition serviceUserAuth : string := "ssh-userauth".

Definition passwordAuthMsg : msg_type := mkType "passwordAuthMsg" [50]
  [("User", KString); ("Service", KString); ("Method", KString); ("Reply", KBool); ("Password", KString)].
Definition publickeyAuthMsg : msg_type := mkType "publickeyAuthMsg" [50]
  [("User", KString); ("Service", KString); ("Method", KString); ("HasSig", KBool); ("Algoname", KString);
   ("PubKey", KBytes); ("Sig", KRest)].
Definition initiateMsg : msg_type := mkType "initiateMsg" [50]
  [("User", KString); ("Service", KString); ("Method", KString); ("Language", KString); ("Submethods", KString)].

(** ** Methods *)

(** A key pair: the public key, and signing with the private one. *)
Record Signer := mkSigner { PublicKey_of : PublicKey; Sign : instant -> string -> outcome Signature }.

(** A challenge is answered from the user name, the instruction, the questions
    and whether their answers may be shown. *)
Definition Challenger := instant -> string -> string -> list string -> list bool -> outcome (list string).

Inductive AuthMethod :=
| noneAuth
| passwordCallback (cb : instant -> outcome string)
| publicKeyCallback (cb : instant -> outcome (list Signer))
| KeyboardInteractiveChallenge (cb : Challenger)
| retryableAuthMethod (authMethod : AuthMethod) (maxTries : Z).

Definition Password (secret : string) : AuthMethod := passwordCallback (fun _ => Ok secret).
Definition PublicKeys (signers : list Signer) : AuthMethod := publicKeyCallback (fun _ => Ok signers).

Fixpoint method (a : AuthMethod) : string :=
  match a with
  | noneAuth => "none"
  | passwordCallback _ => "password"
  | publicKeyCallback _ => "publickey"
  | KeyboardInteractiveChallenge _ => "keyboard-interactive"
  | retryableAuthMethod a _ => method a
  end.

(** The result of a method: whether it succeeded, and the methods that the
    server suggests; [None] is a nil slice. *)
Definition auth_result := (bool * option (list string))%type.

Definition failure_methods (packet : string) : outcome (list string) :=
  let? vs := Unmarshal packet userAuthFailureMsg in
  match vs with [VNames methods; _] => Ok methods | _ => Panic "unreachable" end.

Fixpoint containsMethod (methods : list string) (method : string) : bool :=
  match methods with [] => false | m :: methods => (m =? method)%string || containsMethod methods method end.

(** *** The prompts of keyboard-interactive *)

Definition prompt_error : string := "ssh: prompt format error".
Definition extra_error : string := "ssh: extra data following keyboard-interactive pairs".
Definition answers_error : string := "ssh: not enough answers from keyboard-interactive callback".

(** The prompt/echo pairs, [n] of them. *)
Fixpoint parse_prompts (n : nat) (rest : string) : outcome (list string * list bool) :=
  match n with
  | O => if (rest =? "")%string then Ok ([], []) else Err extra_error
  | S n =>
      match parseString rest with
      | Some (prompt, String c rest) =>
          let? '(prompts, echos) := parse_prompts n rest in
          Ok (prompt :: prompts, negb (val c =? 0) :: echos)
      | _ => Err prompt_error
      end
  end.

Definition parse_info (packet : string) : outcome (string * string * list string * list bool) :=
  let? vs := Unmarshal packet userAuthInfoRequestMsg in
  match vs with
  | [VString user; VString instruction; _; VUint32 n; VRest rest] =>
      let? '(prompts, echos) := parse_prompts (Z.to_nat n) rest in
      Ok (user, instruction, prompts, echos)
  | _ => Panic "unreachable"
  end.

(** The packet with the answers. *)
Definition info_response (answers : list string) : string :=
  fold_left appendString answers
    (appendU32 (String (byte msgUserAuthInfoResponse) "") (to_uint32 (Z.of_nat (List.length answers)))).

Section ClientAuth.
(** The coordinates of a point of a curve as bytes; whether the transport takes a
    packet, after what was sent and received before. *)
Context (ecMarshal : Z -> Z -> Z -> string).
Context (write_err : list io_event -> string -> error_).
(** The order in which Go lists the keys of a map. *)
Context (range : gset string -> list string).
(** The identifier of the session, the user name. *)
Context (session user : string).

Definition writePacket (p : string) : io unit :=
  fun c => match write_err (trace c) p with Some e => (Err e, c) | None => (Ok tt, log (Sent p) c) end.

(** ** One request *)

Definition handleAuthResponse : io auth_result :=
  read_loop (fun packet =>
    let! t := lift (first_byte packet) in
    if t =? msgUserAuthBanner then ret None
    else if t =? msgUserAuthFailure then
      let! methods := lift (failure_methods packet) in ret (Some (false, Some methods))
    else if t =? msgUserAuthSuccess then ret (Some (true, None))
    else fail (unexpectedMessageError msgUserAuthSuccess t)).

Definition none_auth : io auth_result :=
  do! writePacket (Marshal userAuthRequestMsg [VString user; VString serviceSSH; VString "none"; VRest ""]) in
  handleAuthResponse.

Definition password_auth (cb : instant -> outcome string) : io auth_result :=
  let! pw := ask cb in
  do! writePacket (Marshal passwordAuthMsg
        [VString user; VString serviceSSH; VString "password"; VBool false; VString pw]) in
  handleAuthResponse.

Definition confirmKeyAck (key : PublicKey) : io bool :=
  let! pubKey := lift (KeyMarshal ecMarshal key) in
  let! algoname := lift (Type_ key) in
  read_loop (fun packet =>
    let! t := lift (first_byte packet) in
    if t =? msgUserAuthBanner then ret None
    else if t =? msgUserAuthPubKeyOk then
      let! vs := lift (Unmarshal packet userAuthPubKeyOkMsg) in
      match vs with
      | [VString algo; VBytes data] => ret (Some ((algo =? algoname)%string && (data =? pubKey)%string))
      | _ => lift (Panic "unreachable")
      end
    else if t =? msgUserAuthFailure then ret (Some false)
    else fail (unexpectedMessageError msgUserAuthSuccess t)).

Definition validateKey (key : PublicKey) : io bool :=
  let! pubKey := lift (KeyMarshal ecMarshal key) in
  let! algoname := lift (Type_ key) in
  do! writePacket (Marshal publickeyAuthMsg
        [VString user; VString serviceSSH; VString "publickey"; VBool false; VString algoname; VBytes pubKey; VRest ""]) in
  confirmKeyAck key.

(** A key that the server acknowledged: the signed request. *)
Definition sign_request (signer : Signer) : io auth_result :=
  let pub := PublicKey_of signer in
  let! pubKey := lift (KeyMarshal ecMarshal pub) in
  let! algoname := lift (Type_ pub) in
  let data := buildDataSignedForAuth session user serviceSSH "publickey" algoname pubKey in
  do! note (Signed pub data) in
  let! sign := ask (fun now => Sign signer now data) in
  do! writePacket (Marshal publickeyAuthMsg
        [VString user; VString serviceSSH; VString "publickey"; VBool true; VString algoname; VBytes pubKey;
         VRest (appendString "" (signature_bytes (Some sign)))]) in
  handleAuthResponse.

Fixpoint try_signers (signers : list Signer) (methods : option (list string)) : io auth_result :=
  match signers with
  | [] => ret (false, methods)
  | signer :: signers =>
      let! ok := validateKey (PublicKey_of signer) in
      if negb ok then try_signers signers methods
      else
        let! '(success, methods) := sign_request signer in
        if success || negb (containsMethod (default [] methods) "publickey") then ret (success, methods)
        else try_signers signers methods
  end.

Definition publickey_auth (cb : instant -> outcome (list Signer)) : io auth_result :=
  let! signers := ask cb in try_signers signers None.

Definition keyboard_auth (cb : Challenger) : io auth_result :=
  do! writePacket (Marshal initiateMsg
        [VString user; VString serviceSSH; VString "keyboard-interactive"; VString ""; VString ""]) in
  read_loop (fun packet =>
    let! t := lift (first_byte packet) in
    if t =? msgUserAuthBanner then ret None
    else if t =? msgUserAuthInfoRequest then
      let! '(u, instruction, prompts, echos) := lift (parse_info packet) in
      let! answers := ask (fun now => cb now u instruction prompts echos) in
      if negb (List.length answers =? List.length prompts)%nat then fail answers_error
      else do! writePacket (info_response answers) in ret None
    else if t =? msgUserAuthFailure then
      let! methods := lift (failure_methods packet) in ret (Some (false, Some methods))
    else if t =? msgUserAuthSuccess then ret (Some (true, None))
    else fail (unexpectedMessageError msgUserAuthInfoRequest t)).

(** The tries that are left, one at least; without a limit the loop ends only
    with a result. A round that reads nothing goes on for ever. *)
Fixpoint retry (tries : nat) (m : io auth_result) (r : auth_result) : io auth_result :=
  match tries with
  | O => ret r
  | S tries => let! '(ok, methods) := m in if ok then ret (ok, methods) else retry tries m (ok, methods)
  end.
Fixpoint retry_forever (fuel : nat) (m : io auth_result) : io auth_result :=
  match fuel with
  | O => fun c => (Blocked, c)
  | S fuel => let! '(ok, methods) := m in if ok then ret (ok, methods) else retry_forever fuel m
  end.

Fixpoint auth (a : AuthMethod) : io auth_result :=
  match a with
  | noneAuth => none_auth
  | passwordCallback cb => password_auth cb
  | publicKeyCallback cb => publickey_auth cb
  | KeyboardInteractiveChallenge cb => keyboard_auth cb
  | retryableAuthMethod a maxTries =>
      if maxTries <=? 0 then fun c => retry_forever (S (List.length (incoming c))) (auth a) c
      else retry (Z.to_nat maxTries) (auth a) (false, None)
  end.

(** ** All methods *)

(** The first configured method that is suggested and was not tried. *)
Fixpoint findNext (auths : list AuthMethod) (tried : gset string) (methods : option (list string)) : option AuthMethod :=
  match auths with
  | [] => None
  | a :: auths =>
      if bool_decide (method a ∈ tried) then findNext auths tried methods
      else if containsMethod (default [] methods) (method a) then Some a
      else findNext auths tried methods
  end.

Definition no_methods_remain (tried : gset string) : string :=
  "ssh: unable to authenticate, attempted methods [" +:+ join " " (range tried) +:+ "], no supported methods remain".

(** A method is tried once, so that the methods bound the rounds. *)
Fixpoint auth_rounds (fuel : nat) (auths : list AuthMethod) (a : AuthMethod) (tried : gset string)
    (lastMethods : option (list string)) : io unit :=
  match fuel with
  | O => fun c => (Blocked, c)
  | S fuel =>
      do! note (Tried (method a)) in
      let! '(ok, methods) := auth a in
      if ok then ret tt
      else
        let tried := {[method a]} ∪ tried in
        let methods := match methods with None => lastMethods | Some _ => methods end in
        match findNext auths tried methods with
        | Some a => auth_rounds fuel auths a tried methods
        | None => fail (no_methods_remain tried)
        end
  end.

Definition clientAuthenticate (auths : list AuthMethod) : io unit :=
  do! writePacket (Marshal serviceRequestMsg [VString serviceUserAuth]) in
  let! packet := readPacket in
  do! lift (Unmarshal packet serviceAcceptMsg) in
  auth_rounds (S (List.length auths)) auths noneAuth ∅ None.
End ClientAuth.

(** ** The methods of sshego's client *)

Section Client.
(** The one-time codes of the library: the key of a URL, its code at a time. The
    clock reads [clock i] at the instant [i]. *)
Context (key_from_url : string -> outcome unit) (GenerateCode : string -> Z -> outcome string) (clock : instant -> Z).

(** The answer of [helper] to a question. *)
Definition answer_question (passphrase toptUrl : string) (now : Z) (q : string) : outcome string :=
  if (q =? passwordChallenge)%string then Ok passphrase
  else if (q =? gauthChallenge)%string then
    let? _ := panicOn (key_from_url (TrimSpace toptUrl)) in
    panicOn (GenerateCode (TrimSpace toptUrl) now)
  else Panic ("unrecognized challenge: '" +:+ q +:+ "'").

Fixpoint answer_all (passphrase toptUrl : string) (now : Z) (questions : list string) : outcome (list string) :=
  match questions with
  | [] => Ok []
  | q :: questions =>
      let? a := answer_question passphrase toptUrl now q in
      let? l := answer_all passphrase toptUrl now questions in
      Ok (a :: l)
  end.

Definition helper (passphrase toptUrl : string) : Challenger :=
  fun now _ _ questions _ => answer_all passphrase toptUrl (clock now) questions.

(** SSHConnect: the key if there is a key file, the passphrase as a password and,
    with a one-time code, as the answer to a challenge. *)
Definition client_methods (privkey : option Signer) (passphrase toptUrl : string) : list AuthMethod :=
  (match privkey with Some k => [PublicKeys [k]] | None => [] end) ++
  (if (passphrase =? "")%string then [] else [Password passphrase]) ++
  (if (toptUrl =? "")%string then [] else [KeyboardInteractiveChallenge (helper passphrase toptUrl)]).
End Client.

(** ** What a computation does to the connection *)

Fixpoint received (l : list io_event) : list string :=
  match l with [] => [] | Received p :: l => p :: received l | _ :: l => received l end.
Fixpoint sent (l : list io_event) : list string :=
  match l with [] => [] | Sent p :: l => p :: sent l | _ :: l => sent l end.
Fixpoint tried_in (l : list io_event) : list string :=
  match l with [] => [] | Tried m :: l => m :: tried_in l | _ :: l => tried_in l end.

Lemma received_app l1 l2 : received (l1 ++ l2) = received l1 ++ received l2.
Proof. induction l1 as [|[] l1 IH]; simpl; by rewrite ?IH. Qed.
Lemma tried_in_app l1 l2 : tried_in (l1 ++ l2) = tried_in l1 ++ tried_in l2.
Proof. induction l1 as [|[] l1 IH]; simpl; by rewrite ?IH. Qed.

(** A packet went over the connection. *)
Definition packet_event (e : io_event) : Prop := match e with Sent _ | Received _ => True | _ => False end.
(** Anything but the start of a method. *)
Definition request_event (e : io_event) : Prop := match e with Tried _ => False | _ => True end.

(** From [c] to [c'] the events [new] happened; no packet was lost. *)
Definition moves (c : packetConn) (new : list io_event) (c' : packetConn) : Prop :=
  trace c' = trace c ++ new /\ incoming c = received new ++ incoming c'.

Lemma moves_refl c : moves c [] c.
Proof. split; [by rewrite app_nil_r|done]. Qed.
Lemma moves_trans c1 n1 c2 n2 c3 : moves c1 n1 c2 -> moves c2 n2 c3 -> moves c1 (n1 ++ n2) c3.
Proof.
  intros [E1 I1] [E2 I2]. split; [by rewrite E2, E1, app_assoc|]. by rewrite I1, I2, received_app, app_assoc.
Qed.

(** All that a computation adds to the trace satisfies [P]. *)
Definition emits (P : io_event -> Prop) {A} (m : io A) : Prop :=
  forall c, exists new, moves c new (m c).2 /\ Forall P new.

Lemma bind_eq {A B} (m : io A) (k : A -> io B) c :
  bind m k c = match (m c).1 with
               | Ok a => k a (m c).2
               | Err e => (Err e, (m c).2)
               | Panic s => (Panic s, (m c).2)
               | Blocked => (Blocked, (m c).2)
               end.
Proof. unfold bind. by destruct (m c) as [[] c']. Qed.

Section emits.
Context (P : io_event -> Prop).

Lemma emits_stay {A} (r : packetConn -> outcome A) : emits P (fun c => (r c, c)).
Proof. intros c. exists []. split; [apply moves_refl|done]. Qed.
Lemma emits_bind {A B} (m : io A) (k : A -> io B) :
  emits P m -> (forall a, emits P (k a)) -> emits P (bind m k).
Proof.
  intros Hm Hk c. rewrite bind_eq. destruct (Hm c) as (n1 & M1 & F1).
  destruct (m c).1 as [a| | |]; [|by exists n1..].
  destruct (Hk a (m c).2) as (n2 & M2 & F2). exists (n1 ++ n2). split; [by eapply moves_trans|by apply Forall_app].
Qed.
Lemma emits_note e : P e -> received [e] = [] -> emits P (note e).
Proof. intros He Hr c. exists [e]. split; [|by apply Forall_singleton]. split; [done|by rewrite Hr]. Qed.
Lemma emits_read : (forall p, P (Received p)) -> emits P readPacket.
Proof.
  intros H c. unfold readPacket. destruct (incoming c) as [|p ps] eqn:E.
  - exists []. split; [apply moves_refl|done].
  - exists [Received p]. split; [by split|by apply Forall_singleton].
Qed.
Lemma emits_write write_err p : P (Sent p) -> emits P (writePacket write_err p).
Proof.
  intros H c. unfold writePacket. destruct (write_err (trace c) p).
  - exists []. split; [apply moves_refl|done].
  - exists [Sent p]. split; [by split|by apply Forall_singleton].
Qed.
Lemma emits_rounds {R} fuel (body : string -> io (option R)) :
  (forall p, P (Received p)) -> (forall p, emits P (body p)) -> emits P (read_rounds fuel body).
Proof.
  intros Hp Hb. induction fuel as [|fuel IH]; simpl; [apply (emits_stay (fun _ => Blocked))|].
  apply emits_bind; [by apply emits_read|]. intros p. apply emits_bind; [done|]. intros [r|]; [|done].
  apply (emits_stay (fun _ => Ok r)).
Qed.
Lemma emits_loop {R} (body : string -> io (option R)) :
  (forall p, P (Received p)) -> (forall p, emits P (body p)) -> emits P (read_loop body).
Proof. intros Hp Hb c. by apply emits_rounds. Qed.
Lemma emits_fuel {A} (f : packetConn -> io A) : (forall c, emits P (f c)) -> emits P (fun c => f c c).
Proof. intros H c. apply H. Qed.
End emits.

Lemma emits_weaken (P Q : io_event -> Prop) {A} (m : io A) : (forall e, P e -> Q e) -> emits P m -> emits Q m.
Proof. intros H Hm c. destruct (Hm c) as (n & M & F). exists n. split; [done|by eapply Forall_impl]. Qed.

Ltac emits_step :=
  match goal with
  | |- emits _ (bind _ _) => apply emits_bind; [|intros ?]
  | |- emits _ readPacket => apply emits_read; done
  | |- emits _ (writePacket _ _) => apply emits_write; done
  | |- emits _ (note _) => apply emits_note; done
  | |- emits _ (read_loop _) => apply emits_loop; [done|intros ?]
  | |- emits _ (ret ?a) => apply (emits_stay _ (fun _ => Ok a))
  | |- emits _ (fail ?e) => apply (emits_stay _ (fun _ => Err e))
  | |- emits _ (lift ?m) => apply (emits_stay _ (fun _ => m))
  | |- emits _ (ask ?cb) => apply (emits_stay _ (fun c => cb (instant_of c)))
  | |- emits _ (match ?x with _ => _ end) => destruct x
  end.
Ltac emits := repeat emits_step.

(** ** Termination *)

(** A value or an error, provided that no packet of the server is empty. *)
Definition total {A} (m : io A) : Prop :=
  forall c, Forall (fun p => p <> "") (incoming c) -> returns (m c).1 (fun _ => True).
(** A value only after a packet of the server. *)
Definition consumes {A} (m : io A) : Prop :=
  forall c a, (m c).1 = Ok a -> (List.length (incoming (m c).2) < List.length (incoming c))%nat.

Lemma moves_incoming c new c' (P : string -> Prop) : moves c new c' -> Forall P (incoming c) -> Forall P (incoming c').
Proof. intros [_ ->] H. by apply Forall_app in H as [_ ?]. Qed.
Lemma moves_length c new c' : moves c new c' -> (List.length (incoming c') <= List.length (incoming c))%nat.
Proof. intros [_ ->]. rewrite length_app. lia. Qed.

Definition any_event (e : io_event) : Prop := True.

Lemma total_bind {A B} (m : io A) (k : A -> io B) :
  emits any_event m -> total m -> (forall a, total (k a)) -> total (bind m k).
Proof.
  intros Hg Hm Hk c Hc. rewrite bind_eq. specialize (Hm c Hc). destruct (Hg c) as (n & M & _).
  destruct (m c).1 as [a| | |]; try done. apply Hk. by eapply moves_incoming.
Qed.
Lemma total_lift {A} (m : outcome A) : returns m (fun _ => True) -> total (lift m).
Proof. by intros H c _. Qed.
Lemma total_ask {A} (cb : instant -> outcome A) : (forall i, returns (cb i) (fun _ => True)) -> total (ask cb).
Proof. intros H c _. apply H. Qed.
Lemma total_write write_err p : total (writePacket write_err p).
Proof. intros c _. unfold writePacket. by destruct (write_err (trace c) p). Qed.
Lemma total_read : total readPacket.
Proof. intros c _. unfold readPacket. by destruct (incoming c). Qed.

Lemma consumes_read : consumes readPacket.
Proof. intros c a. unfold readPacket. destruct (incoming c); simpl; [done|lia]. Qed.
Lemma consumes_bind_l {A B} (m : io A) (k : A -> io B) :
  consumes m -> (forall a, emits any_event (k a)) -> consumes (bind m k).
Proof.
  intros Hm Hk c b. rewrite bind_eq. specialize (Hm c). destruct (m c).1 as [a| | |]; try done. intros _.
  destruct (Hk a (m c).2) as (n & M & _). apply moves_length in M. specialize (Hm a eq_refl). lia.
Qed.
Lemma consumes_bind_r {A B} (m : io A) (k : A -> io B) :
  emits any_event m -> (forall a, consumes (k a)) -> consumes (bind m k).
Proof.
  intros Hm Hk c b. rewrite bind_eq. destruct (Hm c) as (n & M & _). apply moves_length in M.
  destruct (m c).1 as [a| | |]; try done. intros H. specialize (Hk a _ _ H). lia.
Qed.

Section rounds.
Context {R : Type} (body : string -> io (option R)).
Context (body_emits : forall p, emits any_event (body p)).

Lemma rounds_total fuel c :
  (forall p, p <> "" -> total (body p)) -> (List.length (incoming c) < fuel)%nat ->
  Forall (fun p => p <> "") (incoming c) -> returns (read_rounds fuel body c).1 (fun _ => True).
Proof.
  intros Hb. revert c. induction fuel as [|fuel IH]; intros c Hl Hc; [lia|]. cbn [read_rounds].
  rewrite bind_eq. unfold readPacket. destruct (incoming c) as [|p ps] eqn:E; [done|]. cbn [fst snd].
  apply Forall_cons in Hc as [Hp Hps]. rewrite bind_eq. set (c1 := mkPacketConn _ ps).
  specialize (Hb p Hp c1 Hps). destruct (body_emits p c1) as (n & M & _).
  destruct (body p c1).1 as [[r|]| | |]; try done. apply IH; [|by eapply moves_incoming].
  apply moves_length in M. simpl in *. lia.
Qed.
Lemma loop_total : (forall p, p <> "" -> total (body p)) -> total (read_loop body).
Proof. intros Hb c Hc. apply rounds_total; [done|lia|done]. Qed.

Lemma rounds_consume fuel : consumes (read_rounds fuel body).
Proof.
  destruct fuel as [|fuel]; [by intros c a|]. simpl. apply consumes_bind_l; [apply consumes_read|]. intros p.
  emits; [done|]. by apply emits_rounds.
Qed.
Lemma loop_consumes : consumes (read_loop body).
Proof. intros c a. apply rounds_consume. Qed.
End rounds.

Lemma retry_forever_total m fuel c :
  emits any_event m -> total m -> consumes m -> (List.length (incoming c) < fuel)%nat ->
  Forall (fun p => p <> "") (incoming c) -> returns (retry_forever fuel m c).1 (fun _ => True).
Proof.
  intros Hg Ht Hm. revert c. induction fuel as [|fuel IH]; intros c Hl Hc; [lia|]. cbn [retry_forever].
  rewrite bind_eq. specialize (Ht c Hc). specialize (Hm c). destruct (Hg c) as (n & M & _).
  destruct (m c).1 as [[[] ms]| | |]; try done. specialize (Hm _ eq_refl).
  apply IH; [lia|by eapply moves_incoming].
Qed.

Section Properties.
Context (ecMarshal : Z -> Z -> Z -> string).
Context (write_err : list io_event -> string -> error_).
Context (range : gset string -> list string).
Context (session user : string).
Abbreviation handleAuthResponse := handleAuthResponse.
Abbreviation auth := (auth ecMarshal write_err session user).
Abbreviation sign_request := (sign_request ecMarshal write_err session user).
Abbreviation validateKey := (validateKey ecMarshal write_err user).
Abbreviation try_signers := (try_signers ecMarshal write_err session user).
Abbreviation auth_rounds := (auth_rounds ecMarshal write_err range session user).
Abbreviation clientAuthenticate := (clientAuthenticate ecMarshal write_err range session user).

Section emitted.
Context (P : io_event -> Prop) (packets : forall e, packet_event e -> P e).
Lemma P_sent p : P (Sent p).
Proof. by apply packets. Qed.
Lemma P_received p : P (Received p).
Proof. by apply packets. Qed.
Hint Resolve P_sent P_received : core.

Lemma emits_response : emits P handleAuthResponse.
Proof. unfold ClientAuth.handleAuthResponse. emits. Qed.
Lemma emits_confirm key : emits P (confirmKeyAck ecMarshal key).
Proof. unfold confirmKeyAck. emits. Qed.
Lemma emits_validate key : emits P (validateKey key).
Proof. unfold ClientAuth.validateKey. emits. apply emits_confirm. Qed.
Lemma emits_sign signer : (forall k d, P (Signed k d)) -> emits P (sign_request signer).
Proof. intros H. unfold ClientAuth.sign_request. emits. apply emits_response. Qed.
Lemma emits_signers signers methods : (forall k d, P (Signed k d)) -> emits P (try_signers signers methods).
Proof.
  intros H. revert methods. induction signers as [|s l IH]; intros methods; cbn [ClientAuth.try_signers]; [emits|].
  apply emits_bind; [apply emits_validate|]. intros []; cbn [negb]; [|done]. apply emits_bind; [by apply emits_sign|].
  intros [ok ms]. by destruct (_ || _); [emits|].
Qed.
Lemma emits_retry n m r : emits P m -> emits P (retry n m r).
Proof.
  intros Hm. revert r. induction n as [|n IH]; intros r; cbn [retry]; [emits|]. apply emits_bind; [done|].
  intros [[] ms]; [emits|done].
Qed.
Lemma emits_retry_forever n m : emits P m -> emits P (retry_forever n m).
Proof.
  intros Hm. induction n as [|n IH]; cbn [retry_forever]; [apply (emits_stay _ (fun _ => Blocked))|].
  apply emits_bind; [done|]. intros [[] ms]; [emits|done].
Qed.
Lemma emits_keyboard cb : emits P (keyboard_auth write_err user cb).
Proof. unfold keyboard_auth. emits. Qed.
Lemma emits_auth a : (forall k d, P (Signed k d)) -> emits P (auth a).
Proof.
  intros H. induction a as [|cb|cb|cb|a IH n]; cbn [ClientAuth.auth].
  - unfold none_auth. emits. apply emits_response.
  - unfold password_auth. emits. apply emits_response.
  - unfold publickey_auth. emits. by apply emits_signers.
  - apply emits_keyboard.
  - destruct (n <=? 0); [|by apply emits_retry].
    apply (emits_fuel _ (fun c => retry_forever (S (List.length (incoming c))) (auth a))). intros c. by apply emits_retry_forever.
Qed.
End emitted.

Lemma any_packet e : packet_event e -> any_event e.
Proof. done. Qed.
Hint Resolve any_packet : core.

(** *** Every method returns *)

Definition good_key (k : PublicKey) : Prop := (exists b, KeyMarshal ecMarshal k = Ok b) /\ (exists t, Type_ k = Ok t).
Definition good_signer (s : Signer) : Prop :=
  good_key (PublicKey_of s) /\ forall i d, returns (Sign s i d) (fun _ => True).

(** Callbacks return, and nothing is tried without limit that may have no key
    to try. *)
Fixpoint good_method (a : AuthMethod) : Prop :=
  match a with
  | noneAuth => True
  | passwordCallback cb => forall i, returns (cb i) (fun _ => True)
  | publicKeyCallback cb => forall i, returns (cb i) (Forall good_signer)
  | KeyboardInteractiveChallenge cb => forall i u s qs es, returns (cb i u s qs es) (fun _ => True)
  | retryableAuthMethod a n => good_method a /\ (n <= 0 -> method a <> "publickey")
  end.

Lemma returns_weaken {A} (m : outcome A) (P Q : A -> Prop) : (forall a, P a -> Q a) -> returns m P -> returns m Q.
Proof. destruct m; simpl; auto. Qed.

(** The fields of a message of a known type. *)
Ltac fields H :=
  unfold fields_of in H; cbn in H;
  repeat (let v := fresh "v" in let Hv := fresh "Hv" in
          apply Forall2_cons_inv_l in H as (v & ? & Hv & H & ->); cbn in Hv; destruct v; try discriminate Hv; clear Hv);
  apply Forall2_nil_inv_l in H as ->.

Lemma failure_methods_returns p : returns (failure_methods p) (fun _ => True).
Proof. unfold failure_methods. eapply returns_bind; [by apply Unmarshal_fields|]. intros vs H. by fields H. Qed.
Lemma parse_prompts_returns n rest : returns (parse_prompts n rest) (fun _ => True).
Proof.
  revert rest. induction n as [|n IH]; intros rest; cbn [parse_prompts]; [by case_match|].
  destruct (parseString rest) as [[p [|c r]]|]; [done| |done]. by eapply returns_bind; [apply IH|intros [? ?]].
Qed.
Lemma parse_info_returns p : returns (parse_info p) (fun _ => True).
Proof.
  unfold parse_info. eapply returns_bind; [by apply Unmarshal_fields|]. intros vs H. fields H.
  eapply returns_bind; [apply parse_prompts_returns|by intros [? ?]].
Qed.
Lemma pubkey_ok_returns p :
  returns (Unmarshal p userAuthPubKeyOkMsg) (fun vs => exists algo data, vs = [VString algo; VBytes data]).
Proof. eapply returns_weaken; [|by apply Unmarshal_fields]. intros vs H. fields H. by eexists _, _. Qed.

Lemma total_first_byte p : p <> "" -> total (lift (first_byte p)).
Proof. intros H. apply total_lift. by destruct p. Qed.
Lemma total_lift_bind {A B} (m : outcome A) (k : A -> io B) (P : A -> Prop) :
  returns m P -> (forall a, P a -> total (k a)) -> total (bind (lift m) k).
Proof. intros Hm Hk c Hc. rewrite bind_eq. cbn [lift fst snd]. destruct m; try done. by apply Hk. Qed.
Lemma total_ask_bind {A B} (cb : instant -> outcome A) (k : A -> io B) (P : A -> Prop) :
  (forall i, returns (cb i) P) -> (forall a, P a -> total (k a)) -> total (bind (ask cb) k).
Proof. intros Hm Hk c Hc. by apply (total_lift_bind (cb (instant_of c)) k P). Qed.
Ltac total_step :=
  match goal with
  | |- total (bind (lift (Unmarshal _ userAuthPubKeyOkMsg)) _) =>
      eapply total_lift_bind; [apply pubkey_ok_returns|intros ? (? & ? & ->)]
  | |- total (bind _ _) => apply total_bind; [| |intros ?]
  | |- emits _ _ => emits; done
  | |- total (writePacket _ _) => apply total_write
  | |- total (lift (first_byte _)) => by apply total_first_byte
  | |- total (lift (failure_methods _)) => apply total_lift, failure_methods_returns
  | |- total (lift (parse_info _)) => apply total_lift, parse_info_returns
  | |- total (read_loop _) => apply loop_total; [intros ?; emits; done|intros ? ?]
  | |- total (if ?x then _ else _) => destruct x
  | |- total (let '(_, _) := ?x in _) => destruct x
  | |- total (ret _) => done
  | |- total (lift (Ok _)) => done
  | |- total (note _) => done
  | |- total (fail _) => done
  end.
Ltac total := repeat total_step.

Lemma response_total : total handleAuthResponse.
Proof. unfold ClientAuth.handleAuthResponse. total. Qed.
Lemma response_consumes : consumes handleAuthResponse.
Proof. apply loop_consumes. intros p. emits. Qed.

Lemma confirm_total key : good_key key -> total (confirmKeyAck ecMarshal key).
Proof.
  intros ([b Hb] & [t Ht]). unfold confirmKeyAck. rewrite Hb, Ht. total.
Qed.
Lemma validate_total key : good_key key -> total (validateKey key).
Proof.
  intros Hk. pose proof Hk as ([b Hb] & [t Ht]). unfold ClientAuth.validateKey. rewrite Hb, Ht. total. by apply confirm_total.
Qed.
Lemma sign_total s : good_signer s -> total (sign_request s).
Proof.
  intros [([b Hb] & [t Ht]) Hs]. unfold ClientAuth.sign_request. rewrite Hb, Ht. total.
  - by apply total_ask.
  - apply response_total.
Qed.
Lemma signers_total l methods : Forall good_signer l -> total (try_signers l methods).
Proof.
  intros Hl. revert methods. induction Hl as [|s l Hs Hl IH]; intros methods; cbn [ClientAuth.try_signers]; [done|].
  apply total_bind; [by apply emits_validate|by apply validate_total, Hs|]. intros []; cbn [negb]; [|done].
  apply total_bind; [by apply emits_sign|by apply sign_total|]. intros [ok ms]. by destruct (_ || _).
Qed.
Lemma keyboard_total cb : good_method (KeyboardInteractiveChallenge cb) -> total (keyboard_auth write_err user cb).
Proof.
  intros Hcb. unfold keyboard_auth. total. by apply total_ask.
Qed.

Lemma retry_total n m r : emits any_event m -> total m -> total (retry n m r).
Proof.
  intros Hg Hm. revert r. induction n as [|n IH]; intros r; cbn [retry]; [done|].
  apply total_bind; [done..|]. by intros [[] ms].
Qed.

Lemma auth_emits a : emits any_event (auth a).
Proof. by apply emits_auth. Qed.

Lemma auth_consumes a : method a <> "publickey" -> consumes (auth a).
Proof.
  induction a as [|cb|cb|cb|a IH n]; cbn [method ClientAuth.auth]; intros Hm; try done.
  - apply consumes_bind_r; [emits|intros _; apply response_consumes].
  - do 2 (apply consumes_bind_r; [emits|intros ?]). apply response_consumes.
  - apply consumes_bind_r; [emits|intros _]. apply loop_consumes. intros p. emits.
  - specialize (IH Hm). destruct (Z.leb_spec n 0).
    + intros c r. cbn [retry_forever]. refine (consumes_bind_l _ _ IH _ c r). intros [[] ms]; [emits|].
      apply emits_retry_forever, auth_emits.
    + replace (Z.to_nat n) with (S (Z.to_nat (n - 1))) by lia. cbn [retry].
      apply consumes_bind_l; [done|]. intros [[] ms]; [emits|]. apply emits_retry, auth_emits.
Qed.

Lemma auth_total a : good_method a -> total (auth a).
Proof.
  induction a as [|cb|cb|cb|a IH n]; cbn [ClientAuth.auth]; intros Hm.
  - unfold none_auth. total; apply response_total.
  - unfold password_auth. total; [by apply total_ask|apply response_total].
  - unfold publickey_auth. eapply total_ask_bind; [exact Hm|]. intros l Hl. by apply signers_total.
  - by apply keyboard_total.
  - destruct Hm as [Hm Hn]. destruct (Z.leb_spec n 0) as [H0|H0].
    + intros c Hc. apply retry_forever_total; [apply auth_emits|by apply IH|by apply auth_consumes, Hn|lia|done].
    + apply retry_total; [apply auth_emits|by apply IH].
Qed.
(** *** Each method once *)

Definition untried (tried : gset string) (auths : list AuthMethod) : nat :=
  List.length (filter (fun a => method a ∉ tried) auths).

Lemma findNext_spec auths tried methods a :
  findNext auths tried methods = Some a ->
  a ∈ auths /\ method a ∉ tried /\ containsMethod (default [] methods) (method a) = true.
Proof.
  induction auths as [|b auths IH]; cbn [findNext]; [done|]. case_bool_decide as Hb.
  - intros (? & ? & ?)%IH. split_and!; [by right|done..].
  - destruct (containsMethod (default [] methods) (method b)) eqn:E.
    + intros H; injection H as <-. split_and!; [by left|exact Hb|exact E].
    + intros (? & ? & ?)%IH. split_and!; [by right|done..].
Qed.

Lemma untried_mono tried tried' auths : tried ⊆ tried' -> (untried tried' auths <= untried tried auths)%nat.
Proof.
  intros Hs. unfold untried. induction auths as [|a l IH]; [done|]. rewrite !filter_cons.
  repeat case_decide; simpl; try lia. set_solver.
Qed.
Lemma untried_less tried auths a :
  a ∈ auths -> method a ∉ tried -> (untried ({[method a]} ∪ tried) auths < untried tried auths)%nat.
Proof.
  intros Ha Ht. induction auths as [|b l IH]; [by apply not_elem_of_nil in Ha|].
  pose proof (untried_mono tried ({[method a]} ∪ tried) l ltac:(set_solver)) as Hm. unfold untried in *. rewrite !filter_cons.
  apply elem_of_cons in Ha as [<-|Ha].
  - rewrite decide_False by set_solver. rewrite decide_True by done. simpl. lia.
  - specialize (IH Ha). repeat case_decide; simpl; try lia. set_solver.
Qed.

Lemma rounds_return fuel auths a tried last c :
  Forall good_method auths -> good_method a -> (untried ({[method a]} ∪ tried) auths < fuel)%nat ->
  Forall (fun p => p <> "") (incoming c) -> returns (auth_rounds fuel auths a tried last c).1 (fun _ => True).
Proof.
  intros Hgs. revert a tried last c. induction fuel as [|fuel IH]; intros a tried last c Hg Hf Hc; [lia|].
  cbn [ClientAuth.auth_rounds]. rewrite bind_eq. cbn [note fst snd]. rewrite bind_eq.
  pose proof (auth_total a Hg (log (Tried (method a)) c) Hc) as Ht.
  destruct (auth_emits a (log (Tried (method a)) c)) as (n & M & _).
  destruct (auth a _).1 as [[[] methods]| | |]; try done.
  destruct (findNext auths _ _) as [a'|] eqn:E; [|done]. apply findNext_spec in E as (Ha & Hn & _).
  apply IH; [by eapply Forall_forall in Ha|pose proof (untried_less _ _ _ Ha Hn); lia|by eapply moves_incoming].
Qed.

(** C25: With callbacks that return, and no unlimited tries of a method that may
    have no keys, the client's login ends with success or an error, whatever
    packets the server sends, as long as none is empty: it neither panics nor
    goes on for ever. *)
Theorem client_returns auths c :
  Forall good_method auths -> Forall (fun p => p <> "") (incoming c) ->
  returns (clientAuthenticate auths c).1 (fun _ => True).
Proof.
  intros Hg. revert c. change (ClientAuth.total (clientAuthenticate auths)). unfold ClientAuth.clientAuthenticate. total.
  - apply total_read.
  - eapply total_lift, returns_weaken; [|by apply Unmarshal_fields]. done.
  - intros c Hc. apply rounds_return; [done..| |done]. unfold untried. pose proof (length_filter (fun b => method b ∉ ({[method noneAuth]} ∪ ∅ : gset string)) auths). lia.
Qed.

(** *** Signatures *)

(** Before every use of a private key, its public key was acknowledged, by the
    packet just received; what is signed is this session's login with it. *)
Definition acknowledges (k : PublicKey) (data ack : string) : Prop :=
  exists algo pk, KeyMarshal ecMarshal k = Ok pk /\ Type_ k = Ok algo /\
    Unmarshal ack userAuthPubKeyOkMsg = Ok [VString algo; VBytes pk] /\
    data = buildDataSignedForAuth session user serviceSSH "publickey" algo pk.
Definition acked (tr : list io_event) : Prop :=
  forall t1 k data t2, tr = t1 ++ Signed k data :: t2 ->
    exists t0 ack, t1 = t0 ++ [Received ack] /\ acknowledges k data ack.

(** Keeping a property of the trace. *)
Definition keeps (I : list io_event -> Prop) {A} (m : io A) : Prop := forall c, I (trace c) -> I (trace (m c).2).

Lemma keeps_bind I {A B} (m : io A) (k : A -> io B) : keeps I m -> (forall a, keeps I (k a)) -> keeps I (bind m k).
Proof. intros Hm Hk c Hc. rewrite bind_eq. specialize (Hm c Hc). destruct (m c).1; try done. by apply Hk. Qed.
Lemma keeps_emits I P {A} (m : io A) :
  emits P m -> (forall tr e, I tr -> P e -> I (tr ++ [e])) -> keeps I m.
Proof.
  intros Hm HI c Hc. destruct (Hm c) as (new & [-> _] & F). clear Hm. revert Hc. generalize (trace c).
  induction F as [|e new He F IH]; intros tr Ht; [by rewrite app_nil_r|].
  change (e :: new) with ([e] ++ new). rewrite app_assoc. apply IH. by apply HI.
Qed.

Lemma snoc_split {A} (l : list A) e l1 x l2 :
  l ++ [e] = l1 ++ x :: l2 -> (l = l1 /\ e = x /\ l2 = []) \/ exists l2', l2 = l2' ++ [e] /\ l = l1 ++ x :: l2'.
Proof.
  destruct l2 as [|y l2 _] using rev_ind; intros H.
  - apply app_inj_tail in H as [-> ->]. by left.
  - right. change (l1 ++ x :: l2 ++ [y]) with (l1 ++ (x :: l2) ++ [y]) in H. rewrite app_assoc in H.
    apply app_inj_tail in H as [-> ->]. by exists l2.
Qed.

Lemma acked_snoc tr e : acked tr -> (forall k d, e <> Signed k d) -> acked (tr ++ [e]).
Proof.
  intros H He t1 k d t2 Ht. apply snoc_split in Ht as [(_ & E & _)|(l & _ & E)]; [by destruct (He k d)|by apply H in E].
Qed.
Lemma acked_sign tr k d ack : acked (tr ++ [Received ack]) -> acknowledges k d ack -> acked ((tr ++ [Received ack]) ++ [Signed k d]).
Proof.
  intros H Ha t1 k' d' t2 Ht. apply snoc_split in Ht as [(<- & [= <- <-] & _)|(l & _ & E)]; [by exists tr, ack|by apply H in E].
Qed.

Lemma packets_acked {A} (m : io A) : emits packet_event m -> keeps acked m.
Proof. intros H. eapply keeps_emits; [exact H|]. intros tr [] Ht He; try done; by apply acked_snoc. Qed.

Definition no_event (e : io_event) : Prop := False.
Lemma emits_nothing {A} (m : io A) c : emits no_event m -> (m c).2 = c.
Proof.
  intros H. destruct (H c) as (n & [E1 E2] & F). destruct n as [|e n]; [|by apply Forall_cons in F as [[] _]].
  rewrite app_nil_r in E1. destruct (m c).2, c. simpl in *. by subst.
Qed.

(** The result of a loop came with the packet just received. *)
Lemma rounds_last {R} fuel (body : string -> io (option R)) c r :
  (forall p, emits no_event (body p)) -> (read_rounds fuel body c).1 = Ok r ->
  exists t0 p, trace (read_rounds fuel body c).2 = t0 ++ [Received p] /\ exists c', (body p c').1 = Ok (Some r).
Proof.
  intros Hb. revert c. induction fuel as [|fuel IH]; intros c; [done|]. cbn [read_rounds].
  rewrite bind_eq. unfold readPacket. destruct (incoming c) as [|p ps]; [done|]. cbn [fst snd]. rewrite bind_eq.
  rewrite (emits_nothing (body p)) by done. destruct (body p _).1 as [[r'|]| | |] eqn:E; [|apply IH|done..].
  intros [= ->]. exists (trace c), p. split; [done|]. by eexists.
Qed.

Lemma validate_acked key c :
  (validateKey key c).1 = Ok true ->
  exists t0 ack algo pk, trace (validateKey key c).2 = t0 ++ [Received ack] /\
    KeyMarshal ecMarshal key = Ok pk /\ Type_ key = Ok algo /\ Unmarshal ack userAuthPubKeyOkMsg = Ok [VString algo; VBytes pk].
Proof.
  unfold ClientAuth.validateKey, confirmKeyAck. destruct (KeyMarshal ecMarshal key) as [pk| | |], (Type_ key) as [algo| | |]; try done.
  rewrite bind_eq. cbn [lift fst snd]. rewrite bind_eq. cbn [lift fst snd]. rewrite bind_eq.
  destruct (writePacket _ _ c).1; try done. rewrite bind_eq. cbn [lift fst snd]. rewrite bind_eq. cbn [lift fst snd].
  set (c1 := (writePacket _ _ c).2). clearbody c1. unfold read_loop. intros H.
  apply rounds_last in H as (t0 & p & -> & c' & H); [|intros p; emits].
  exists t0, p, algo, pk. split_and!; try done. revert H. rewrite bind_eq. cbn [lift fst snd].
  destruct (first_byte p) as [t| | |]; try done. destruct (t =? _); [done|]. destruct (t =? msgUserAuthPubKeyOk).
  - rewrite bind_eq. cbn [lift fst snd]. pose proof (pubkey_ok_returns p) as Hr.
    destruct (Unmarshal p _) as [vs| | |]; try done. destruct Hr as (al & da & ->). intros [= E]. by bool_prop.
  - by destruct (t =? _).
Qed.

Lemma sign_keeps s c t0 ack algo pk :
  acked (trace c) -> trace c = t0 ++ [Received ack] ->
  KeyMarshal ecMarshal (PublicKey_of s) = Ok pk -> Type_ (PublicKey_of s) = Ok algo ->
  Unmarshal ack userAuthPubKeyOkMsg = Ok [VString algo; VBytes pk] -> acked (trace (sign_request s c).2).
Proof.
  intros Hc Ht Hm Hy Hu. unfold ClientAuth.sign_request. rewrite Hm, Hy. rewrite bind_eq. cbn [lift fst snd].
  rewrite bind_eq. cbn [lift fst snd]. rewrite bind_eq. cbn [note fst snd]. match goal with |- acked (trace (?m ?c).2) => assert (keeps acked m) as HK end.
  { apply packets_acked. emits. by apply emits_response. }
  apply HK. unfold log. cbn [trace]. rewrite Ht in *. apply acked_sign; [done|]. by exists algo, pk.
Qed.

Lemma signers_keep l methods : keeps acked (try_signers l methods).
Proof.
  revert methods. induction l as [|s l IH]; intros methods; cbn [ClientAuth.try_signers]; [by intros c|].
  intros c Hc. rewrite bind_eq. assert (keeps acked (validateKey (PublicKey_of s))) as HV by by apply packets_acked, emits_validate.
  specialize (HV c Hc). pose proof (validate_acked (PublicKey_of s) c) as HA.
  destruct (validateKey _ c).1 as [[]| | |]; cbn [negb]; try done; [|by apply IH].
  destruct (HA eq_refl) as (t0 & ack & algo & pk & Ht & Hm & Hy & Hu).
  pose proof (sign_keeps s _ t0 ack algo pk HV Ht Hm Hy Hu) as HS. rewrite bind_eq.
  destruct (sign_request s _).1 as [[ok ms]| | |]; try done. destruct (_ || _); [done|]. by apply IH.
Qed.

Lemma retry_keeps I n m r : keeps I m -> keeps I (retry n m r).
Proof.
  intros Hm. revert r. induction n as [|n IH]; intros r; cbn [retry]; [by intros c|].
  apply keeps_bind; [done|]. intros [[] ms]; [by intros c|done].
Qed.
Lemma retry_forever_keeps I n m : keeps I m -> keeps I (retry_forever n m).
Proof.
  intros Hm. induction n as [|n IH]; cbn [retry_forever]; [by intros c|]. apply keeps_bind; [done|]. intros [[] ms]; [by intros c|done].
Qed.

Lemma auth_acked a : keeps acked (auth a).
Proof.
  induction a as [|cb|cb|cb|a IH n]; cbn [ClientAuth.auth].
  - apply packets_acked. unfold none_auth. emits. by apply emits_response.
  - apply packets_acked. unfold password_auth. emits. by apply emits_response.
  - unfold publickey_auth. apply keeps_bind; [by intros c|]. intros l. apply signers_keep.
  - by apply packets_acked, emits_keyboard.
  - destruct (n <=? 0); [|by apply retry_keeps]. intros c. by apply retry_forever_keeps.
Qed.

Lemma rounds_acked fuel auths a tried last : keeps acked (auth_rounds fuel auths a tried last).
Proof.
  revert a tried last. induction fuel as [|fuel IH]; intros a tried last; cbn [ClientAuth.auth_rounds]; [by intros c|].
  apply keeps_bind; [intros c Hc; by apply acked_snoc|]. intros _. apply keeps_bind; [apply auth_acked|].
  intros [[] ms]; [by intros c|]. by destruct (findNext _ _ _); [|intros c].
Qed.

Lemma client_keeps_acked auths : keeps acked (clientAuthenticate auths).
Proof.
  apply keeps_bind; [apply packets_acked; emits|]. intros _.
  apply keeps_bind; [apply packets_acked; emits|]. intros p. apply keeps_bind; [by intros c|]. intros _. apply rounds_acked.
Qed.

(** C11: Whatever the server sends, the client uses a private key only right after
    the server acknowledged its public key, algorithm and bytes alike, and it
    signs nothing but the login of this user, with this key, in this session. *)
Theorem signs_only_acknowledged auths ins : acked (trace (clientAuthenticate auths (mkPacketConn [] ins)).2).
Proof. apply client_keeps_acked. by intros []. Qed.

(** *** Suggestions *)

(** The list of methods [ms] came in a failure message. *)
Definition suggested (tr : list io_event) (ms : list string) : Prop :=
  exists p, Received p ∈ tr /\ failure_methods p = Ok ms.
Definition suggests (m : io auth_result) : Prop :=
  forall c ok ms, (m c).1 = Ok (ok, Some ms) -> suggested (trace (m c).2) ms.

Lemma suggested_app tr new ms : suggested tr ms -> suggested (tr ++ new) ms.
Proof. intros (p & Hp & E). exists p. split; [|done]. apply elem_of_app. by left. Qed.
Lemma suggested_moves c new c' ms : moves c new c' -> suggested (trace c) ms -> suggested (trace c') ms.
Proof. intros [-> _]. apply suggested_app. Qed.

Lemma suggests_bind {A} (m : io A) (k : A -> io auth_result) : (forall a, suggests (k a)) -> suggests (bind m k).
Proof. intros Hk c ok ms. rewrite bind_eq. destruct (m c).1; try done. apply Hk. Qed.

Lemma rounds_from {R} fuel (body : string -> io (option R)) c r :
  (forall p, emits any_event (body p)) -> (read_rounds fuel body c).1 = Ok r ->
  exists p c', Received p ∈ trace (read_rounds fuel body c).2 /\ (body p c').1 = Ok (Some r).
Proof.
  intros Hb. revert c. induction fuel as [|fuel IH]; intros c; [done|]. cbn [read_rounds].
  rewrite bind_eq. unfold readPacket. destruct (incoming c) as [|p ps]; [done|]. cbn [fst snd]. rewrite bind_eq.
  set (c1 := mkPacketConn _ ps). destruct (Hb p c1) as (n & [T _] & _).
  destruct (body p c1).1 as [[r'|]| | |] eqn:E; [|apply IH|done..].
  intros [= ->]. exists p, c1. split; [|done]. cbn [ret snd]. rewrite T. cbn [trace c1].
  apply elem_of_app. left. apply elem_of_app. right. by left.
Qed.

(** A body that answers with methods has them from a failure message. *)
Lemma loop_suggests (body : string -> io (option auth_result)) :
  (forall p, emits any_event (body p)) ->
  (forall p c ok ms, (body p c).1 = Ok (Some (ok, Some ms)) -> failure_methods p = Ok ms) -> suggests (read_loop body).
Proof. intros Hb Hr c ok ms H. apply rounds_from in H as (p & c' & Hp & H); [|done]. exists p. split; [done|by eapply Hr]. Qed.

Lemma response_suggests : suggests handleAuthResponse.
Proof.
  apply loop_suggests; [intros p; emits|]. intros p c ok ms. rewrite bind_eq. cbn [lift fst snd].
  destruct (first_byte p) as [t| | |]; try done. destruct (t =? _); [done|]. destruct (t =? msgUserAuthFailure).
  - rewrite bind_eq. cbn [lift fst snd]. destruct (failure_methods p); try done. by intros [= _ ->].
  - by destruct (t =? _).
Qed.
Lemma keyboard_suggests cb : suggests (keyboard_auth write_err user cb).
Proof.
  apply suggests_bind. intros _. apply loop_suggests; [intros p; emits|]. intros p c ok ms. rewrite bind_eq. cbn [lift fst snd].
  destruct (first_byte p) as [t| | |]; try done. destruct (t =? _); [done|]. destruct (t =? msgUserAuthInfoRequest).
  { rewrite bind_eq. cbn [lift fst snd]. destruct (parse_info p) as [[[[? ?] ?] ?]| | |]; try done. rewrite bind_eq. cbn [ask fst snd].
    destruct (cb _ _ _ _ _); try done. destruct (negb _); [done|]. rewrite bind_eq. by destruct (writePacket _ _ _).1. }
  destruct (t =? msgUserAuthFailure).
  - rewrite bind_eq. cbn [lift fst snd]. destruct (failure_methods p); try done. by intros [= _ ->].
  - by destruct (t =? _).
Qed.
Lemma sign_suggests s : suggests (sign_request s).
Proof. do 5 (apply suggests_bind; intros ?). apply response_suggests. Qed.

Lemma signers_suggest l methods c ok ms :
  (try_signers l methods c).1 = Ok (ok, Some ms) -> methods = Some ms \/ suggested (trace (try_signers l methods c).2) ms.
Proof.
  revert methods c. induction l as [|s l IH]; intros methods c; cbn [ClientAuth.try_signers]; [cbn; intros [= _ ->]; by left|].
  rewrite bind_eq. destruct (validateKey _ c).1 as [[]| | |]; cbn [negb]; try done; [|apply IH].
  rewrite bind_eq. pose proof (sign_suggests s (validateKey (PublicKey_of s) c).2) as HS.
  set (r := sign_request s _) in *. destruct r.1 as [[ok' ms']| | |]; try done. destruct (_ || _) eqn:E.
  - cbn. intros [= -> ->]. right. by eapply HS.
  - intros H. right. pose proof H as H'. apply IH in H' as [->|H']; [|done].
    destruct (emits_signers any_event any_packet l (Some ms) ltac:(done) r.2) as (n & M & _). eapply suggested_moves; [done|]. by eapply HS.
Qed.

Lemma retry_suggests n m r : emits any_event m -> suggests m -> (r.2 = None \/ n <> O) -> suggests (retry n m r).
Proof.
  intros Hg Hm. revert r. enough (forall c ok ms r, (retry n m r c).1 = Ok (ok, Some ms) -> (n = O /\ r.2 = Some ms) \/ suggested (trace (retry n m r c).2) ms) as H.
  { intros r Hr c ok ms E. apply H in E as [[-> E]|E]; [|done]. destruct Hr as [Hr|Hr]; [by rewrite Hr in E|done]. }
  induction n as [|n IH]; intros c ok ms r; cbn [retry]; [intros [= ->]; by left|]. rewrite bind_eq. intros H. right. revert H.
  pose proof (Hm c) as HS. destruct (m c).1 as [[ok' ms']| | |]; try done. specialize (HS ok').
  destruct ok'; [cbn; intros [= _ ->]; by apply HS|].
  intros H. pose proof H as H'. apply IH in H' as [[-> E]|H']; [|done]. cbn in E |- *. subst. by apply HS.
Qed.
Lemma retry_forever_suggests n m : suggests m -> suggests (retry_forever n m).
Proof.
  intros Hm. induction n as [|n IH]; intros c ok ms; cbn [retry_forever]; [done|]. rewrite bind_eq. pose proof (Hm c) as HS.
  destruct (m c).1 as [[ok' ms']| | |]; try done. destruct ok'; [cbn; intros [= _ ->]; by eapply HS|]. apply IH.
Qed.

Lemma auth_suggests a : suggests (auth a).
Proof.
  induction a as [|cb|cb|cb|a IH n]; cbn [ClientAuth.auth].
  - apply suggests_bind. intros _. apply response_suggests.
  - do 2 (apply suggests_bind; intros ?). apply response_suggests.
  - apply suggests_bind. intros l c ok ms H. by apply signers_suggest in H as [|].
  - apply keyboard_suggests.
  - destruct (n <=? 0); [|by apply retry_suggests; [apply auth_emits| |left]]. intros c. by apply retry_forever_suggests.
Qed.

(** *** The order of methods *)

(** A method is begun at most once; "none" first, any other after a failure
    message that suggests it, and only if it is configured. *)
Definition orderly (auths : list AuthMethod) (tr : list io_event) : Prop :=
  NoDup (tried_in tr) /\
  forall t1 m t2, tr = t1 ++ Tried m :: t2 ->
    m = "none" \/ exists a ms, a ∈ auths /\ method a = m /\ suggested t1 ms /\ m ∈ ms.

Lemma containsMethod_spec methods m : containsMethod methods m = true -> m ∈ methods.
Proof.
  induction methods as [|x l IH]; cbn [containsMethod]; [done|]. intros [H|H]%orb_true_iff; [|right; by apply IH].
  apply String.eqb_eq in H as ->. by left.
Qed.
Lemma orderly_requests auths tr new :
  orderly auths tr -> Forall request_event new -> orderly auths (tr ++ new) /\ tried_in (tr ++ new) = tried_in tr.
Proof.
  intros H F. revert tr H. induction F as [|e new He F IH]; intros tr H; [by rewrite app_nil_r|].
  change (e :: new) with ([e] ++ new). rewrite app_assoc. assert (tried_in (tr ++ [e]) = tried_in tr) as E.
  { rewrite tried_in_app. destruct e; try done; simpl; by rewrite app_nil_r. }
  rewrite <- E. apply IH. destruct H as [Hn Ho]. split; [by rewrite E|]. intros t1 m t2 Ht.
  apply snoc_split in Ht as [(_ & -> & _)|(l & _ & ->)]; [done|]. by eapply Ho.
Qed.

Lemma rounds_orderly fuel auths a (tried : gset string) last c :
  orderly auths (trace c) -> list_to_set (tried_in (trace c)) = tried -> method a ∉ tried ->
  (method a = "none" \/ exists ms, a ∈ auths /\ suggested (trace c) ms /\ method a ∈ ms) ->
  (forall ms, last = Some ms -> suggested (trace c) ms) ->
  orderly auths (trace (auth_rounds fuel auths a tried last c).2).
Proof.
  revert a tried last c. induction fuel as [|fuel IH]; intros a tried last c Ho Ht Ha Hm Hl; [done|].
  cbn [ClientAuth.auth_rounds]. rewrite bind_eq. cbn [note fst snd]. set (c1 := log (Tried (method a)) c).
  assert (tried_in (trace c1) = tried_in (trace c) ++ [method a]) as Ht1 by by (cbn; rewrite tried_in_app).
  assert (orderly auths (trace c1)) as Ho1.
  { destruct Ho as [Hn Ho]. split.
    - rewrite Ht1. apply NoDup_app. split_and!; [done| |apply NoDup_singleton]. intros x Hx ->%list_elem_of_singleton.
      apply Ha. rewrite <- Ht. by apply elem_of_list_to_set.
    - intros t1 m t2 E. apply snoc_split in E as [(<- & [= <-] & _)|(l & _ & E)]; [|by eapply Ho].
      destruct Hm as [?|(ms & ? & ? & ?)]; [by left|right]. by exists a, ms. }
  rewrite bind_eq. destruct (emits_auth request_event ltac:(by intros []) a ltac:(done) c1) as (new & M & F).
  pose proof (auth_suggests a c1) as HS. destruct (orderly_requests auths (trace c1) new Ho1 F) as [Ho2 Ht2].
  pose proof M as [ET _]. rewrite <- ET in Ho2, Ht2.
  assert (suggested (trace c1) = suggested (trace c ++ [Tried (method a)])) as Ec1 by done.
  destruct (auth a c1).1 as [[[] methods]| | |]; try done.
  set (ms' := match methods with None => last | Some _ => methods end).
  assert (forall ms, ms' = Some ms -> suggested (trace (auth a c1).2) ms) as Hs.
  { intros ms E. unfold ms' in E. destruct methods as [l|].
    - injection E as ->. by eapply HS.
    - eapply suggested_moves; [done|]. by apply suggested_app, Hl. }
  destruct (findNext auths _ ms') as [a'|] eqn:E; [|done]. apply findNext_spec in E as (Ha' & Hn' & Hc').
  apply IH; [done| |done| |done].
  - rewrite Ht2, Ht1, list_to_set_app_L, Ht. simpl. set_solver.
  - right. destruct ms' as [ms|]; [|done]. exists ms. split_and!; [done|by apply Hs|by apply containsMethod_spec].
Qed.

(** The client tries "none" first and then each configured method at most once,
    and only one that a failure message of the server named before: a passphrase
    or a key goes to no server that did not ask for that method. *)
Theorem methods_in_order auths ins : orderly auths (trace (clientAuthenticate auths (mkPacketConn [] ins)).2).
Proof.
  unfold ClientAuth.clientAuthenticate. assert (forall tr, Forall packet_event tr -> orderly auths tr /\ tried_in tr = []) as H0.
  { intros tr F. apply (orderly_requests auths [] tr); [|eapply Forall_impl; [exact F|by intros []]].
    split; [apply NoDup_nil_2|]. by intros [] ? ?. }
  set (start := mkPacketConn [] ins). rewrite bind_eq.
  set (w := writePacket _ _). assert (emits packet_event w) as E1 by (unfold w; emits).
  destruct (E1 start) as (n1 & [T1 _] & F1). pose proof (proj1 (H0 n1 F1)) as O1. cbn [trace start app] in T1. rewrite <- T1 in O1.
  destruct (w start).1; try done.
  rewrite bind_eq. assert (emits packet_event readPacket) as E2 by emits.
  destruct (E2 (w start).2) as (n2 & [T2 _] & F2). rewrite T1 in T2. cbn [trace start app] in *.
  assert (Forall packet_event (n1 ++ n2)) as F by by apply Forall_app. rewrite <- T2 in F. set (c2 := (readPacket (w start).2).2) in *.
  apply H0 in F as [Ho Ht]. destruct (readPacket _).1; try done. rewrite bind_eq. cbn [lift fst snd].
  destruct (Unmarshal _ _); try done. apply rounds_orderly; [done|by rewrite Ht|set_solver|by left|done].
Qed.

End Properties.

(** ** A concrete client *)

Definition demo_signer : Signer := mkSigner demo_key (fun _ data => Ok (mkSignature KeyAlgoED25519 (stake 8 data))).
Definition demo_code : string -> Z -> outcome string := fun _ _ => Ok "123456".
Definition demo_range (s : gset string) : list string := elements s.

(** Without a secret for one-time codes, no challenge is answered. *)
Definition demo_plain_methods : list AuthMethod :=
  client_methods (fun _ => Ok tt) demo_code (fun _ => 0) (Some demo_signer) "beer" "".

Lemma client_returns_witness :
  returns (clientAuthenticate demo_ecMarshal (fun _ _ => None) demo_range "session" "bob" demo_plain_methods
             (mkPacketConn [] [Marshal serviceAcceptMsg [VString serviceUserAuth];
                Marshal userAuthFailureMsg [VNames ["publickey"; "keyboard-interactive"]; VBool false]; "?"])).1 (fun _ => True).
Proof.
  apply (client_returns demo_ecMarshal (fun _ _ => None) demo_range "session" "bob" demo_plain_methods).
  - apply Forall_cons_2; [|apply Forall_cons_2; [|apply Forall_nil_2]].
    + intros i. apply Forall_cons_2; [|apply Forall_nil_2]. split; [|intros ? ?; exact I]. split; eexists; reflexivity.
    + intros i. exact I.
  - repeat (apply Forall_cons_2; [discriminate|]). apply Forall_nil_2.
Defined.
