(* ===== verification/ClientConn.v ===== *)
(** A client's connection as a whole (xendor/github.com/glycerine/xcryptossh/client.go,
    connection.go): the versions, the first exchange of keys with the check of the host key,
    the login, and what ends without a connection. *)
From S2P Require Import Prelude.
From S2P Require Import GoStrings.
From S2P Require Import Wire.
From S2P Require Import Negotiate.
From S2P Require Import Transport.
From S2P Require Import Kex.
From S2P Require Import Auth.
From S2P Require Import Keys.
From S2P Require Import AuthorizedKeys.
From S2P Require Import ClientAuth.

(** ** Configuration *)

(** A callback is told the name that was dialled, the address of the other end and its key. *)
Definition HostKeyCallback : Type := string -> string -> PublicKey -> outcome unit.

(** [Halt]: whether a halter is given. *)
Record ClientConfig := mkClientConfig {
  Config_ : Config;
  Halt : bool;
  User : string;
  Auth_ : list AuthMethod;
  HostKeyCallback_ : option HostKeyCallback;
  ClientVersion : string;
  HostKeyAlgorithms : option (list string);
}.

Definition packageVersion : string := "SSH-2.0-Go".
Definition ErrShutDown : string := "ssh: shutting down.".

Definition InsecureIgnoreHostKey : HostKeyCallback := fun _ _ _ => Ok tt.

Section FixedKey.
Context (ecMarshal : Z -> Z -> Z -> string).
(** [fixedHostKey.check]. *)
Definition FixedHostKey (f : option PublicKey) : HostKeyCallback := fun hostname remote key =>
  match f with
  | None => Err "ssh: required host key was nil"
  | Some f =>
      let? k := KeyMarshal ecMarshal key in
      let? m := KeyMarshal ecMarshal f in
      if negb (k =? m)%string then Err "ssh: host key mismatch" else Ok tt
  end.
End FixedKey.

(** ** The other end and the system *)

(** The bytes that arrive until the end of the server's version and the answer to the write
    of ours; whether the client is told to stop meanwhile; the answers to packets; the random
    bytes of our first message; the server's first packet; the cryptography and packets of the
    exchange, of which the callback is not used; the packets of the login. *)
Record peer := mkPeer {
  stream_ : string;
  write_version : error_;
  stopped : bool;
  pushes : string -> error_;
  cookie : string;
  first_packet : outcome string;
  crypto : exchange PublicKey;
  login : list string;
}.

(** The exchange with the callback of the configuration. *)
Definition with_callback (cb : PublicKey -> outcome unit) (x : exchange PublicKey) : exchange PublicKey :=
  mkExchange PublicKey (Kex.skipped _ x) (Kex.kex_Server _ x) (Kex.kex_Client _ x) (Kex.ParsePublicKey _ x) (Kex.Verify _ x) cb (Kex.newPacketCipher _ x) (Kex.answer _ x).

(** The first exchange: [kexLoop] sends our message, [readOnePacket] takes the server's and
    waits for the result, which it hands to [waitSession]. After our message could not be sent
    the server's is answered with that error. *)
Definition first_exchange (cb : PublicKey -> outcome unit) (s : peer) (t : handshakeTransport) : handshakeTransport * outcome string :=
  let '(t, _, res) := sendKexInit (pushes s) (cookie s) t in
  match res, first_packet s with
  | Ok err, Ok p =>
      let t := recordWriteError err t in
      match readOnePacket true p t with
      | (t, StartKex p) =>
          match writeError t with
          | Some e => (t, Err e)
          | None =>
              match enterKeyExchange (pushes s) (with_callback cb (crypto s)) p t with
              | (t, _, Ok _) =>
                  match finish_kex (pushes s) false None t with
                  | Ok (t, _) => read_after_kex true None t
                  | Err e => (t, Err e) | Panic e => (t, Panic e) | Blocked => (t, Blocked)
                  end
              | (t, _, res) => (t, let? _ := res in Ok "")
              end
          end
      | (t, Deliver p) => (t, Ok p)
      | (t, ReadFails e) => (t, Err e)
      end
  | Ok _, Err e => (t, Err e)
  | Ok _, Panic e => (t, Panic e)
  | Ok _, Blocked => (t, Blocked)
  | res, _ => (t, let? _ := res in Ok "")
  end.

Definition waitSession (packet : outcome string) : outcome unit :=
  let? p := packet in
  let? t := ClientAuth.first_byte p in
  if negb (t =? 21) then Err "ssh: first packet should be msgNewKeys" else Ok tt.

(** ** The connection *)

(** What a connection knows. *)
Record connection := mkConnection {
  c_user : string;
  c_sessionID : string;
  c_clientVersion : string;
  c_serverVersion : string;
  c_transport : handshakeTransport;
}.

Section ClientConn.
Context (ecMarshal : Z -> Z -> Z -> string).
(** Whether a packet of the login is taken, and the order of the keys of a map in Go. *)
Context (write_err : list io_event -> string -> error_).
Context (range : gset string -> list string).

(** [clientHandshake]: the connection, and what happened in the login. *)
Definition clientHandshake (dialAddress remote : string) (config : ClientConfig) (cb : HostKeyCallback) (s : peer) : outcome connection * list io_event :=
  let cv := if (ClientVersion config =? "")%string then packageVersion else ClientVersion config in
  let '(_, _, sv) := exchangeVersions cv (stream_ s) (write_version s) in
  match sv with
  | Ok sv =>
      if stopped s then (Err ErrShutDown, [])
      else
        let t := newClientTransport (Config_ config) cv sv (HostKeyAlgorithms config) in
        let '(t, packet) := first_exchange (cb dialAddress remote) s t in
        match waitSession packet with
        | Ok _ =>
            let session := default "" (sessionID t) in
            let '(res, c) := clientAuthenticate ecMarshal write_err range session (User config) (Auth_ config) (mkPacketConn [] (login s)) in
            (let? _ := res in Ok (mkConnection (User config) session cv sv t), trace c)
        | res => (let? _ := res in Blocked, [])
        end
  | res => (let? _ := res in Blocked, [])
  end.

(** [SetDefaults] on the embedded configuration, which also makes a halter where
    there is none: the check for a missing one below never fails. *)
Definition with_defaults (c : ClientConfig) : ClientConfig :=
  mkClientConfig (SetDefaults (Config_ c)) (if Halt c then Halt c else true) (User c) (Auth_ c) (HostKeyCallback_ c) (ClientVersion c) (HostKeyAlgorithms c).

(** [NewClientConn]: the connection, whether the socket was closed, the events of the login. *)
Definition NewClientConn (addr remote : string) (config : ClientConfig) (s : peer) : outcome connection * bool * list io_event :=
  let fullConf := with_defaults config in
  match HostKeyCallback_ fullConf with
  | None => (Err "ssh: must specify HostKeyCallback", true, [])
  | Some cb =>
      if negb (Halt fullConf) then (Err "ssh: config must provide Halt", true, [])
      else
        match clientHandshake addr remote fullConf cb s with
        | (Err e, tr) => (Err ("ssh: handshake failed: " +:+ e), true, tr)
        | (res, tr) => (res, false, tr)
        end
  end.

(** [ssh_Dial] up to the start of the goroutines of the client. *)
Definition ssh_Dial (dialled : outcome string) (addr : string) (config : ClientConfig) (s : peer) : outcome connection :=
  let? remote := dialled in (NewClientConn addr remote config s).1.1.
End ClientConn.

(** ** A login succeeds on the server's word *)

Definition welcomed (tr : list io_event) : Prop := exists p, Received p ∈ tr /\ ClientAuth.first_byte p = Ok msgUserAuthSuccess.

Lemma welcomed_moves c new c' : moves c new c' -> welcomed (trace c) -> welcomed (trace c').
Proof. intros [-> _] (p & Hp & E). exists p. split; [|done]. apply elem_of_app. by left. Qed.

(** A method that reports success has read the server's message. *)
Definition on_word (m : io auth_result) : Prop := forall c ms, (m c).1 = Ok (true, ms) -> welcomed (trace (m c).2).

Lemma on_word_bind {A} (m : io A) (k : A -> io auth_result) : (forall a, on_word (k a)) -> on_word (bind m k).
Proof. intros Hk c ms. rewrite bind_eq. destruct (m c).1; try done. apply Hk. Qed.

Lemma loop_on_word (body : string -> io (option auth_result)) :
  (forall p, emits any_event (body p)) ->
  (forall p c ms, (body p c).1 = Ok (Some (true, ms)) -> ClientAuth.first_byte p = Ok msgUserAuthSuccess) -> on_word (read_loop body).
Proof. intros Hb Hr c ms H. apply rounds_from in H as (p & c' & Hp & H); [|done]. exists p. split; [done|by eapply Hr]. Qed.

Section OnWord.
Context (ecMarshal : Z -> Z -> Z -> string).
Context (write_err : list io_event -> string -> error_).
Context (session user : string).

Lemma response_on_word : on_word handleAuthResponse.
Proof.
  apply loop_on_word; [intros p; emits|]. intros p c ms. rewrite bind_eq. cbn [lift fst snd].
  destruct (ClientAuth.first_byte p) as [t| | |]; try done. destruct (t =? _); [done|]. destruct (t =? msgUserAuthFailure).
  - rewrite bind_eq. cbn [lift fst snd]. by destruct (failure_methods p).
  - destruct (Z.eqb_spec t msgUserAuthSuccess) as [->|]; done.
Qed.

Lemma keyboard_on_word cb : on_word (keyboard_auth write_err user cb).
Proof.
  apply on_word_bind. intros _. apply loop_on_word; [intros p; emits|]. intros p c ms. rewrite bind_eq. cbn [lift fst snd].
  destruct (ClientAuth.first_byte p) as [t| | |]; try done. destruct (t =? _); [done|]. destruct (t =? msgUserAuthInfoRequest).
  { rewrite bind_eq. cbn [lift fst snd]. destruct (parse_info p) as [[[[? ?] ?] ?]| | |]; try done. rewrite bind_eq. cbn [ask fst snd].
    destruct (cb _ _ _ _ _); try done. destruct (negb _); [done|]. rewrite bind_eq. by destruct (writePacket _ _ _).1. }
  destruct (t =? msgUserAuthFailure).
  - rewrite bind_eq. cbn [lift fst snd]. by destruct (failure_methods p).
  - destruct (Z.eqb_spec t msgUserAuthSuccess) as [->|]; done.
Qed.

Lemma signers_on_word l methods : on_word (try_signers ecMarshal write_err session user l methods).
Proof.
  revert methods. induction l as [|s l IH]; intros methods; cbn [ClientAuth.try_signers]; [by intros c|].
  apply on_word_bind. intros [|]; cbn [negb]; [|apply IH]. intros c ms. rewrite bind_eq.
  assert (on_word (sign_request ecMarshal write_err session user s)) as HS by (do 5 (apply on_word_bind; intros ?); apply response_on_word).
  specialize (HS c). destruct (sign_request _ _ _ _ s c) as [res c']. cbn [fst snd] in *. destruct res as [[ok ms']| | |]; try done.
  destruct (ok || _) eqn:E; [|apply IH]. cbn. intros [= -> ->]. by eapply HS.
Qed.

Lemma retry_on_word n m r : r.1 = false -> on_word m -> on_word (retry n m r).
Proof.
  intros Hr Hm. revert r Hr. induction n as [|n IH]; intros r Hr; cbn [retry]; [intros c ms [= E]; by rewrite E in Hr|].
  intros c ms. rewrite bind_eq. specialize (Hm c). destruct (m c) as [res c']. cbn [fst snd] in *. destruct res as [[ok ms']| | |]; try done.
  destruct ok; [cbn; intros [= ->]; by eapply Hm|]. by apply IH.
Qed.

Lemma retry_forever_on_word n m : on_word m -> on_word (retry_forever n m).
Proof.
  intros Hm. induction n as [|n IH]; intros c ms; cbn [retry_forever]; [done|]. rewrite bind_eq. specialize (Hm c).
  destruct (m c) as [res c']. cbn [fst snd] in *. destruct res as [[ok ms']| | |]; try done. destruct ok; [cbn; intros [= ->]; by eapply Hm|]. apply IH.
Qed.

Lemma auth_on_word a : on_word (ClientAuth.auth ecMarshal write_err session user a).
Proof.
  induction a as [|cb|cb|cb|a IH n]; cbn [ClientAuth.auth].
  - apply on_word_bind. intros _. apply response_on_word.
  - do 2 (apply on_word_bind; intros ?). apply response_on_word.
  - apply on_word_bind. intros l. apply signers_on_word.
  - apply keyboard_on_word.
  - destruct (n <=? 0); [|by apply retry_on_word]. intros c. by apply retry_forever_on_word.
Qed.

Lemma rounds_on_word range fuel auths : forall a tried last c,
  (auth_rounds ecMarshal write_err range session user fuel auths a tried last c).1 = Ok tt ->
  welcomed (trace (auth_rounds ecMarshal write_err range session user fuel auths a tried last c).2).
Proof.
  induction fuel as [|fuel IH]; intros a tried last c; cbn [ClientAuth.auth_rounds]; [done|]. rewrite bind_eq. cbn [note fst snd]. rewrite bind_eq.
  pose proof (auth_on_word a (log (Tried (method a)) c)) as Ha. destruct (ClientAuth.auth _ _ _ _ a _) as [res c']. cbn [fst snd] in *.
  destruct res as [[ok ms]| | |]; try done. destruct ok; [intros _; by eapply Ha|]. destruct (findNext _ _ _); [apply IH|done].
Qed.

(** A client that is logged in was told so. *)
Lemma client_on_word range auths c : (clientAuthenticate ecMarshal write_err range session user auths c).1 = Ok tt ->
  welcomed (trace (clientAuthenticate ecMarshal write_err range session user auths c).2).
Proof.
  unfold clientAuthenticate. rewrite bind_eq. destruct (writePacket _ _ _).1; try done. rewrite bind_eq. destruct (readPacket _).1; try done.
  rewrite bind_eq. cbn [lift fst snd]. destruct (Unmarshal _ serviceAcceptMsg); try done. apply rounds_on_word.
Qed.
End OnWord.

(** ** What a connection stands on *)

Lemma finish_keeps pushes t t' sent : finish_kex pushes false None t = Ok (t', sent) -> sessionID t' = sessionID t.
Proof. unfold finish_kex. destruct (mu t); [done|]. destruct (push_all _ _ _). by intros [= <- _]. Qed.

Lemma own_kept pushes cookie t t' sent err :
  sendKexInit pushes cookie t = (t', sent, Ok err) -> sentInit t = None -> writeError t = None ->
  forall p t2, readOnePacket true p (recordWriteError err t') = (t2, StartKex p) -> writeError t2 = None ->
  exists own, sentInit t2 = Some (own, Marshal kexInitMsg (init_values own)) /\ isServer t2 = isServer t /\
    Kex.clientVersion t2 = Kex.clientVersion t /\ Kex.serverVersion t2 = Kex.serverVersion t /\ sessionID t2 = sessionID t.
Proof.
  intros H Hs Hw p t2 Hr Hw2. unfold sendKexInit in H. destruct (mu t); [done|]. rewrite Hs in H. destruct (pushes _) eqn:Ep; injection H as <- _ <-.
  - exfalso. revert Hr Hw2. unfold recordWriteError. rewrite Hw. unfold readOnePacket, requestKeyExchange. repeat case_match; intros [= <-]; try done.
  - revert Hr Hw2. unfold readOnePacket, requestKeyExchange. change (recordWriteError None ?t) with (match writeError t with None => t | Some _ => t end).
    destruct (writeError _); repeat case_match; intros [= <-]; try done; intros _; eexists; by split_and!.
Qed.

(** The server's key as a client's first exchange checked it. *)
Record trusted (x : exchange PublicKey) (cb : PublicKey -> outcome unit) (magics : handshakeMagics) (session : string) : Prop := mkTrusted {
  tr_proof : exists a result key sig,
    (Kex.kex_Client _ x (kex a) magics).2 = Ok result /\ Kex.ParsePublicKey _ x (HostKey result) = Ok key /\
    parseSignatureBody (Signature_ result) = Some (sig, "") /\ Kex.Verify _ x key (H_ result) sig = Ok tt /\
    cb key = Ok tt /\ session = H_ result;
}.

Lemma read_first p t t' i : readOnePacket true p t = (t', i) -> i = StartKex p \/ exists e, i = ReadFails e.
Proof. unfold readOnePacket. destruct (Kex.first_byte p =? 20); cbn [andb negb]; intros [= _ <-]; [by left|right; by eexists]. Qed.

Lemma first_exchange_ok cb s t t' packet :
  isServer t = false -> sentInit t = None -> writeError t = None -> sessionID t = None ->
  first_exchange cb s t = (t', Ok packet) ->
  exists p own session, first_packet s = Ok p /\ sessionID t' = Some session /\
    trusted (crypto s) cb (mkMagics (Kex.clientVersion t) (Kex.serverVersion t) (Marshal kexInitMsg (init_values own)) p) session.
Proof.
  intros Hs Hi Hw Hid H. unfold first_exchange in H. destruct (sendKexInit _ _ t) as [[t1 sent] res] eqn:E1.
  destruct res as [err| | |]; [|done..]. destruct (first_packet s) as [p| | |]; [|done..].
  destruct (readOnePacket true p (recordWriteError err t1)) as [t2 i] eqn:E2. destruct i as [q|e|q]; [|done|].
  { by destruct (read_first _ _ _ _ E2) as [|[]]. }
  assert (q = p) as -> by (destruct (read_first _ _ _ _ E2) as [[= ->]|[]]; done).
  destruct (writeError t2) eqn:Ew; [done|]. destruct (own_kept _ _ _ _ _ _ E1 Hi Hw p t2 E2 Ew) as (own & Eown & Es & Ecv & Esv & Eid).
  destruct (enterKeyExchange _ _ p t2) as [[t3 sent3] res3] eqn:E3. destruct res3 as [[]| | |]; [|done..].
  destruct (finish_kex _ false None t3) as [[t4 sent4]| | |] eqn:E4; [|done..]. injection H as <- _.
  apply exchange_trusted in E3 as (oi & own' & magics & a & result & key & sig & Ek & _ & Hk & Hp & Hsig & Hv & Hcb & _ & Hsess); [|by rewrite Es].
  exists p, own, (H_ result). split; [done|]. split; [change (sessionID (resetReadThresholds t4)) with (sessionID t4); by rewrite (finish_keeps _ _ _ _ E4), Hsess, Eid, Hid|].
  split. exists a, result, key, sig. split_and!; try done. unfold kex_inputs in Ek. apply obind_ok in Ek as (vs & _ & Ek). rewrite Eown, Es, Hs in Ek.
  injection Ek as _ _ _ <-. by rewrite <- Ecv, <- Esv.
Qed.

Lemma waited packet : waitSession packet = Ok tt -> exists p, packet = Ok p.
Proof. destruct packet; [by eexists|done..]. Qed.

Lemma halter_made (b : bool) : (if b then b else true) = true.
Proof. by destruct b. Qed.

Lemma connection_checked ecMarshal write_err range addr remote config s c closed tr :
  NewClientConn ecMarshal write_err range addr remote config s = (Ok c, closed, tr) ->
  closed = false /\ welcomed tr /\ acked ecMarshal (c_sessionID c) (c_user c) tr /\ c_user c = User config /\
  exists cb own packet, HostKeyCallback_ config = Some cb /\ first_packet s = Ok packet /\
    trusted (crypto s) (cb addr remote)
      (mkMagics (c_clientVersion c) (c_serverVersion c) (Marshal kexInitMsg (init_values own)) packet) (c_sessionID c).
Proof.
  unfold NewClientConn. cbn [with_defaults HostKeyCallback_ Halt]. destruct (HostKeyCallback_ config) as [cb|]; [|done]. rewrite halter_made. cbn [negb].
  destruct (clientHandshake _ _ _ _ _ _ _ _) as [res tr'] eqn:E. destruct res as [c'| | |]; [|done..]. intros [= <- <- <-].
  unfold clientHandshake in E. destruct (exchangeVersions _ _ _) as [[out r'] [sv| | |]]; [|done..]. destruct (stopped s); [done|].
  cbn [Config_ with_defaults HostKeyAlgorithms User Auth_ ClientVersion] in E.
  set (cv := if (ClientVersion config =? "")%string then packageVersion else ClientVersion config) in *.
  destruct (first_exchange _ s _) as [t packet] eqn:Ex. destruct (waitSession packet) as [[]| | |] eqn:Ewt; [|done..].
  destruct (waited packet Ewt) as [p ->]. apply first_exchange_ok in Ex as (q & own & session & Eq & Eid & Ht); [|done..].
  destruct (clientAuthenticate _ _ _ _ _ _ _) as [res1 c1] eqn:Ec. destruct res1 as [[]| | |]; [|done..]. injection E as <- <-. rewrite Eid in *. cbn [default c_sessionID c_user c_clientVersion c_serverVersion].
  pose proof (client_on_word ecMarshal write_err session (User config) range (Auth_ config) (mkPacketConn [] (login s))) as Hw.
  pose proof (client_keeps_acked ecMarshal write_err range session (User config) (Auth_ config) (mkPacketConn [] (login s))) as Hk.
  cbn in Ec. rewrite Ec in Hw, Hk. cbn [fst snd] in *. split; [done|]. split; [by apply Hw|]. split; [apply Hk; by intros []|]. split; [done|].
  exists cb, own, q. split; [done|]. split; [done|]. exact Ht.
Qed.

(** C23: A connection stands on its checks: NewClientConn answers with one only when the
    configuration has a callback, which accepted the server's key for the name that was
    dialled; that key signed the hash of the first exchange, and the hash was computed with
    both versions and both first messages as this end knows them; the session is named by
    the hash; the server declared the login successful; and every use of a private key in the
    login came after the server's acknowledgement and signed this session and user. The socket
    stays open. *)
Theorem connection_is_trusted ecMarshal write_err range addr remote config s c closed tr :
  NewClientConn ecMarshal write_err range addr remote config s = (Ok c, closed, tr) ->
  closed = false /\ welcomed tr /\ acked ecMarshal (c_sessionID c) (c_user c) tr /\ c_user c = User config /\
  exists cb own packet, HostKeyCallback_ config = Some cb /\ first_packet s = Ok packet /\
    trusted (crypto s) (cb addr remote)
      (mkMagics (c_clientVersion c) (c_serverVersion c) (Marshal kexInitMsg (init_values own)) packet) (c_sessionID c).
Proof. apply connection_checked. Qed.

(** Without a connection the socket is closed: every error of NewClientConn, also a
    missing callback, closes it. *)
Theorem failed_connection_is_closed ecMarshal write_err range addr remote config s :
  match NewClientConn ecMarshal write_err range addr remote config s with
  | (Err _, closed, _) => closed = true
  | (_, closed, _) => closed = false
  end.
Proof.
  unfold NewClientConn. destruct (HostKeyCallback_ _) as [cb|]; [|done]. destruct (negb _); [done|].
  by destruct (clientHandshake _ _ _ _ _ _ _ _) as [[] tr].
Qed.

(** Dialling with a fixed key ends in a connection only to a server whose key has the
    same bytes and signed the exchange. *)
Theorem fixed_key_is_dialled ecMarshal write_err range remote addr f config s c :
  HostKeyCallback_ config = Some (FixedHostKey ecMarshal f) -> ssh_Dial ecMarshal write_err range (Ok remote) addr config s = Ok c ->
  exists k key bytes sig, f = Some k /\ KeyMarshal ecMarshal k = Ok bytes /\ KeyMarshal ecMarshal key = Ok bytes /\
    Kex.Verify _ (crypto s) key (c_sessionID c) sig = Ok tt.
Proof.
  intros Hcb. unfold ssh_Dial. cbn [obind]. destruct (NewClientConn _ _ _ _ _ _ _) as [[res closed] tr] eqn:E. cbn [fst]. intros ->.
  apply connection_checked in E as (_ & _ & _ & _ & cb & own & packet & Ecb & _ & [(a & result & key & sig & _ & _ & _ & Hv & Hk & ->)]).
  rewrite Hcb in Ecb. injection Ecb as <-. unfold FixedHostKey in Hk. destruct f as [f|]; [|done].
  apply obind_ok in Hk as (b1 & E1 & Hk). apply obind_ok in Hk as (b2 & E2 & Hk). destruct (String.eqb_spec b1 b2) as [->|]; [|done]. by exists f, key, b2, sig.
Qed.

(** ** Examples *)

Definition demo_callback : HostKeyCallback := FixedHostKey demo_ecMarshal (Some demo_key).
Definition demo_client_config (cb : option HostKeyCallback) : ClientConfig :=
  mkClientConfig (mkConfig 0 None None None) true "bob" [] cb "" None.
(** A server with the key [host]. *)
Definition demo_peer (host : PublicKey) : peer :=
  mkPeer ("SSH-2.0-B" +:+ String "013" (String "010" "")) None false accepts demo_cookie (Ok (init_packet demo_server))
    (mkExchange PublicKey (Ok "") (fun _ _ _ => ([], Err "not a server"))
      (fun _ _ => ([], Ok (mkResult "hash" "host key" (appendString (appendString "" "fmt") "sig"))))
      (fun _ => Ok host)
      (fun _ h sg => if (h =? "hash")%string && (Blob sg =? "sig")%string then Ok tt else Err "bad signature")
      (fun _ => Err "unused") (fun _ _ => Ok tt) (Ok (String (byte 21) "")))
    [Marshal serviceAcceptMsg [VString serviceUserAuth]; String (byte 52) ""].
#[local] Notation demo_connect host :=
  (NewClientConn demo_ecMarshal (fun _ _ => None) demo_range "host:22" "10.0.0.1:22" (demo_client_config (Some demo_callback)) (demo_peer host)).

(** With the key it is fixed to the client connects, with another it does not. *)
Example demo_connects : (c_sessionID <$> match (demo_connect demo_key).1.1 with Ok c => Some c | _ => None end) = Some "hash" /\
  (demo_connect demo_other).1 = (Err "ssh: handshake failed: ssh: host key mismatch", true).
Proof. split; vm_compute; reflexivity. Qed.

Lemma connection_is_trusted_witness :
  exists c tr, demo_connect demo_key = (Ok c, false, tr) /\ welcomed tr /\ acked demo_ecMarshal (c_sessionID c) (c_user c) tr /\ c_user c = "bob".
Proof.
  destruct (demo_connect demo_key) as [[res closed] tr] eqn:E.
  assert (exists c, res = Ok c) as [c ->].
  { pose proof (proj1 demo_connects) as H. rewrite E in H. cbn [fst] in H. destruct res as [c| | |]; [by exists c|discriminate H..]. }
  destruct (connection_is_trusted demo_ecMarshal (fun _ _ => None) demo_range "host:22" "10.0.0.1:22" (demo_client_config (Some demo_callback)) (demo_peer demo_key) c closed tr E)
    as (-> & Hw & Ha & Hu & _).
  exists c, tr. split; [reflexivity|]. split; [exact Hw|]. split; [exact Ha|exact Hu].
Defined.

Lemma fixed_key_is_dialled_witness :
  exists c key bytes sig, ssh_Dial demo_ecMarshal (fun _ _ => None) demo_range (Ok "10.0.0.1:22") "host:22" (demo_client_config (Some demo_callback)) (demo_peer demo_key) = Ok c /\
    KeyMarshal demo_ecMarshal demo_key = Ok bytes /\ KeyMarshal demo_ecMarshal key = Ok bytes /\ Kex.Verify _ (crypto (demo_peer demo_key)) key (c_sessionID c) sig = Ok tt.
Proof.
  destruct (ssh_Dial demo_ecMarshal (fun _ _ => None) demo_range (Ok "10.0.0.1:22") "host:22" (demo_client_config (Some demo_callback)) (demo_peer demo_key)) as [c| | |] eqn:E.
  - destruct (fixed_key_is_dialled demo_ecMarshal (fun _ _ => None) demo_range "10.0.0.1:22" "host:22" (Some demo_key) (demo_client_config (Some demo_callback)) (demo_peer demo_key) c eq_refl E)
      as (k & key & bytes & sig & [= <-] & Hk & Hkey & Hv).
    exists c, key, bytes, sig. split; [reflexivity|]. split; [exact Hk|]. split; [exact Hkey|exact Hv].
  - exfalso. revert E. vm_compute. discriminate.
  - exfalso. revert E. vm_compute. discriminate.
  - exfalso. revert E. vm_compute. discriminate.
Defined.
