(* ===== verification/Conversation.v ===== *)
(** Both sides of a login: what the server of [Auth] and [Login] writes while it
    serves the requests (server.go: [KeyboardInteractiveCallback];
    xendor/github.com/glycerine/xcryptossh/server.go: [serverHandshake],
    [serverAuthenticate], [Challenge]), composed with the client of [ClientAuth]. *)
From S2P Require Import Prelude.
From S2P Require Import GoStrings.
From S2P Require Import Wire.
From S2P Require Import UserDb.
From S2P Require Import Auth.
From S2P Require Import Keys.
From S2P Require Import AuthorizedKeys.
From S2P Require Import Login.
From S2P Require Import ClientAuth.
Import AtomicUserMap.

(** ** Packets of the server *)

Definition accept_packet : string := Marshal serviceAcceptMsg [VString serviceUserAuth].
Definition success_packet : string := String (byte 52) "".
Definition disconnect_packet : string :=
  Marshal disconnectMsg [VUint32 2; VString "too many authentication failures"; VString ""].
Definition failure_packet (config : ServerConfig) : string :=
  Marshal userAuthFailureMsg
    [VNames ((if HasPublicKeyCallback config then ["publickey"] else []) ++
             (if HasKeyboardInteractiveCallback config then ["keyboard-interactive"] else [])); VBool false].
Definition pubkey_ok_packet (algo data : string) : string := Marshal userAuthPubKeyOkMsg [VString algo; VBytes data].

(** The prompts of [Challenge], and the packet that it sends. *)
Fixpoint prompts_of (questions : list string) (echos : list bool) : string :=
  match questions, echos with
  | q :: questions, e :: echos => appendBool (appendString "" q) e +:+ prompts_of questions echos
  | _, _ => ""
  end.
Definition info_request (instruction : string) (questions : list string) (echos : list bool) : string :=
  Marshal userAuthInfoRequestMsg
    [VString ""; VString instruction; VString ""; VUint32 (to_uint32 (Z.of_nat (List.length questions)));
     VRest (prompts_of questions echos)].

(** ** Challenges arrive, and so do their answers *)

Lemma prompts_cons q e questions echos :
  prompts_of (q :: questions) (e :: echos) =
  field_bytes (VString q) +:+ String (byte (if e : bool then 1 else 0)) (prompts_of questions echos).
Proof. cbn [prompts_of]. unfold appendBool. rewrite string_app_assoc. by destruct e. Qed.

Lemma parse_prompts_of questions echos :
  List.length questions = List.length echos -> slen (prompts_of questions echos) < 2 ^ 32 ->
  parse_prompts (List.length questions) (prompts_of questions echos) = Ok (questions, echos).
Proof.
  revert echos. induction questions as [|q questions IH]; intros [|e echos] Hl Hs; try done.
  rewrite prompts_cons in *. cbn [List.length parse_prompts].
  set (tail := prompts_of questions echos) in *.
  change (String ?c tail) with (String c "" +:+ tail) in *. rewrite !slen_app, field_string_slen in Hs.
  pose proof (slen_nonneg q). pose proof (slen_nonneg tail). change (slen (String _ "")) with 1 in Hs.
  rewrite parseString_field by (rewrite slen_app; change (slen (String _ "")) with 1; lia). cbn [String.append].
  unfold tail in *. injection Hl as Hl. rewrite IH by (done || lia). by destruct e.
Qed.

Lemma info_request_read instruction questions echos :
  List.length questions = List.length echos -> Z.of_nat (List.length questions) < 2 ^ 32 ->
  slen instruction + slen (prompts_of questions echos) < 2 ^ 31 ->
  parse_info (info_request instruction questions echos) = Ok ("", instruction, questions, echos).
Proof.
  intros Hl Hn Hs. pose proof (slen_nonneg instruction). pose proof (slen_nonneg (prompts_of questions echos)).
  unfold parse_info, info_request. rewrite to_uint32_id by (unfold in_uint32; lia).
  rewrite Unmarshal_Marshal; [|done|].
  - cbn [obind]. rewrite Nat2Z.id, parse_prompts_of by (done || lia). done.
  - split; [repeat constructor; simpl; unfold in_uint32; lia|]. cbn [fields_bytes].
    rewrite !slen_app. change (field_bytes (VRest ?x)) with x. change (slen (field_bytes (VUint32 _))) with (slen (be_bytes 4 (Z.of_nat (List.length questions)))).
    rewrite slen_be_bytes, !field_string_slen. change (slen "") with 0. lia.
Qed.

Fixpoint answers_bytes (answers : list string) : string :=
  match answers with [] => "" | a :: answers => field_bytes (VString a) +:+ answers_bytes answers end.

Lemma info_response_eq answers :
  info_response answers = String (byte 61) (be_bytes 4 (to_uint32 (Z.of_nat (List.length answers))) +:+ answers_bytes answers).
Proof.
  unfold info_response. assert (forall acc, fold_left appendString answers acc = acc +:+ answers_bytes answers) as ->.
  { induction answers as [|a l IH]; intros acc; cbn [fold_left answers_bytes]; [by rewrite string_app_nil_r|].
    rewrite IH. change (appendString acc a) with (marshalField acc (VString a)). by rewrite marshalField_app, string_app_assoc. }
  unfold appendU32. by rewrite string_app_assoc.
Qed.

Lemma answers_parsed answers :
  slen (answers_bytes answers) < 2 ^ 32 -> parse_answers (List.length answers) (answers_bytes answers) = Ok answers.
Proof.
  induction answers as [|a l IH]; intros Hs; [done|]. cbn [answers_bytes List.length parse_answers] in *.
  rewrite slen_app, field_string_slen in Hs. pose proof (slen_nonneg a). pose proof (slen_nonneg (answers_bytes l)).
  rewrite parseString_field by lia. rewrite IH by lia. done.
Qed.

Lemma answers_arrive questions echos answers :
  List.length questions = List.length echos -> List.length answers = List.length questions ->
  Z.of_nat (List.length questions) < 2 ^ 32 -> slen (answers_bytes answers) < 2 ^ 32 ->
  Challenge questions echos (Some (info_response answers)) = Ok answers.
Proof.
  intros Hl Ha Hn Hs. unfold Challenge. rewrite Hl, Nat.eqb_refl. cbn [negb]. rewrite info_response_eq.
  rewrite val_byte. change (61 mod 256 =? 61) with true. cbn [negb].
  rewrite to_uint32_id, parseUint32_be by (unfold in_uint32; lia).
  rewrite <- Hl, <- Ha, Z.eqb_refl. cbn [negb]. rewrite Nat2Z.id. by apply answers_parsed.
Qed.

(** Through the wire, the client's callback is asked exactly what the server
    asks, echo flags included, and the server gets exactly what it answers,
    whatever the questions, the answers and the bytes in them. *)
Theorem challenge_roundtrip instruction questions echos answers :
  List.length questions = List.length echos -> List.length answers = List.length questions ->
  Z.of_nat (List.length questions) < 2 ^ 32 ->
  slen instruction + slen (prompts_of questions echos) < 2 ^ 31 -> slen (answers_bytes answers) < 2 ^ 32 ->
  parse_info (info_request instruction questions echos) = Ok ("", instruction, questions, echos) /\
  Challenge questions echos (Some (info_response answers)) = Ok answers.
Proof. intros. split; [by apply info_request_read|by apply answers_arrive]. Qed.

(** ** The server, with what it reads and writes

    The connection is that of [ClientAuth], seen from the other end: [incoming] is
    what the client sends. *)

#[local] Open Scope io_scope.

Section Server.
Context (compare_hash : string -> string -> bool)
        (key_from_url : string -> outcome unit)
        (totp_validate : string -> string -> Z -> bool).
Context (ecMarshal : Z -> Z -> Z -> string) (ecUnmarshal : Z -> string -> option (Z * Z)).
Context (rsa_verify : Z -> Z -> string -> string -> error_)
        (dsa_verify : Z -> Z -> Z -> Z -> string -> Z -> Z -> bool)
        (ecdsa_verify : Z -> Z -> Z -> string -> Z -> Z -> bool)
        (ed25519_equation : string -> string -> string -> bool).
Context (encode_db encode_json : HostDbPersist -> string) (can_write : string -> bool).
Context (cfg : HostCfg).
Context (remoteAddr sessionID : string).
(** How Go prints a time. *)
Context (show_time : Z -> string).
(** Whether the transport takes a packet, and the clock, by the packets of the
    client that are still to be read. *)
Context (write_err : list io_event -> string -> error_) (clock : nat -> Z).
Abbreviation keyBytes := (keyBytes ecMarshal).
Abbreviation first_key := (first_key ecUnmarshal).
Abbreviation Verify := (Verify rsa_verify dsa_verify ecdsa_verify ed25519_equation).
Abbreviation parse_pubkey := (parse_pubkey PublicKey (ParsePublicKey ecUnmarshal)).
Abbreviation publickey_case := (publickey_case PublicKey keyBytes (ParsePublicKey ecUnmarshal) first_key
    Verify encode_db encode_json can_write cfg sessionID).
Abbreviation method_case := (method_case compare_hash key_from_url totp_validate PublicKey keyBytes (ParsePublicKey ecUnmarshal) first_key
    Verify encode_db encode_json can_write cfg remoteAddr sessionID).
Abbreviation userAuthLoop := (userAuthLoop compare_hash key_from_url totp_validate PublicKey keyBytes (ParsePublicKey ecUnmarshal) first_key
    Verify encode_db encode_json can_write cfg remoteAddr sessionID).
Abbreviation check_answers := (check_answers compare_hash key_from_url totp_validate cfg).
Abbreviation KeyboardInteractiveCallback := (KeyboardInteractiveCallback compare_hash key_from_url totp_validate encode_db encode_json can_write cfg remoteAddr).
Abbreviation NoteLogin := (NoteLogin encode_db encode_json can_write cfg remoteAddr).
Abbreviation writePacket := (writePacket write_err).

Definition now_of (c : packetConn) : Z := clock (List.length (incoming c)).

Definition last_login (user : User) : string :=
  "last login was at " +:+ show_time (LastLoginTime user) +:+ ", from '" +:+ LastLoginAddr user +:+ "'".

(** [Challenge]: asks, and takes the next packet for the answer. *)
Definition challenge (instruction : string) (questions : list string) (echos : list bool) : io (list string) :=
  if negb (List.length questions =? List.length echos)%nat
  then fail "ssh: echos and questions must have equal length"
  else
    do! writePacket (info_request instruction questions echos) in
    let! packet := readPacket in
    lift (Challenge questions echos (Some packet)).

(** [KeyboardInteractiveCallback] with its challenges; the result of the second
    is not looked at. *)
Definition KeyboardInteractive (mylogin : string) (a : PerAttempt) (h : HostDb) (c : packetConn)
  : PerAttempt * HostDb * outcome unit * packetConn :=
  let now := now_of c in
  if SkipPassphrase cfg && SkipTOTP cfg
  then (a, h, Panic "should not be in the KeyboardInteractiveCallback at all!", c)
  else
    let '(chal, echoAnswers, totpIdx) := challenges cfg in
    match challenge ("login for " +:+ mylogin +:+ ":") chal echoAnswers c with
    | (Ok ans, c) =>
        match Get2 (Users (Persist h)) mylogin with
        | None => (a, h, Err keyFail, c)
        | Some user =>
            match check_answers user ans totpIdx now with
            | Ok (user, ok) =>
                let h := with_user mylogin (fun _ => user) h in
                if negb ok then (a, h, Err keyFail, c)
                else
                  let a := mkAttempt (PublicKeyOK a) true in
                  if negb (PublicKeyOK a) then (a, h, Err keyFail, c)
                  else
                    match challenge (last_login user) [] [] c with
                    | (Panic s, c) => (a, h, Panic s, c)
                    | (_, c) => (a, NoteLogin mylogin now h, Ok tt, c)
                    end
            | Err e => (a, h, Err e, c)
            | Panic s => (a, h, Panic s, c)
            | Blocked => (a, h, Blocked, c)
            end
        end
    | (Err _, c) => (a, h, Err keyFail, c)
    | (Panic s, c) => (a, h, Panic s, c)
    | (Blocked, c) => (a, h, Blocked, c)
    end.

(** The key of an accepted query goes back to the client. *)
Definition accept_query (req : userAuthRequest) (c : packetConn) : verdict * packetConn :=
  match parse_pubkey (req_Payload req) with
  | inl v => (v, c)
  | inr (_, algo, pubKeyData, _, _) =>
      match writePacket (pubkey_ok_packet algo pubKeyData) c with
      | (Ok _, c) => (Continue, c)
      | (Err e, c) => (Return (Err e), c)
      | (Panic s, c) => (Return (Panic s), c)
      | (Blocked, c) => (Return Blocked, c)
      end
  end.

(** The switch on the method of a request. *)
Definition server_method (config : ServerConfig) (req : userAuthRequest)
    (cache : list cachedPubKey) (a : PerAttempt) (h : HostDb) (c : packetConn)
  : list cachedPubKey * PerAttempt * HostDb * verdict * packetConn :=
  let m := req_Method req in
  if (m =? "keyboard-interactive")%string && HasKeyboardInteractiveCallback config then
    let '(a, h, r, c) := KeyboardInteractive (req_User req) a h c in
    (cache, a, h, judge r, c)
  else if (m =? "publickey")%string && HasPublicKeyCallback config then
    let '(cache, a, h, v) := publickey_case req (now_of c) cache a h in
    match v with
    | Continue => let '(v, c) := accept_query req c in (cache, a, h, v, c)
    | _ => (cache, a, h, v, c)
    end
  else
    (cache, a, h, Judged (Some
      (if (m =? "none")%string then "no auth passed yet"
       else if (m =? "password")%string then "ssh: password auth not configured"
       else if (m =? "keyboard-interactive")%string then "ssh: keyboard-interactive auth not configubred"
       else if (m =? "publickey")%string then "ssh: publickey auth not configured"
       else "ssh: unknown method " +:+ dq +:+ m +:+ dq)), c).

(** The result of the login, [r] unless the write fails. *)
Definition written_result (p : string) (r : outcome string) (c : packetConn) : outcome string * packetConn :=
  match writePacket p c with
  | (Ok _, c) => (r, c)
  | (Err e, c) => (Err e, c)
  | (Panic s, c) => (Panic s, c)
  | (Blocked, c) => (Blocked, c)
  end.

(** [serverAuthenticate]: a round reads a packet at least. *)
Fixpoint serve (fuel : nat) (config : ServerConfig) (authFailures : Z)
    (cache : list cachedPubKey) (authErrs : list string) (a : PerAttempt) (h : HostDb) (c : packetConn)
  : PerAttempt * HostDb * outcome string * packetConn :=
  match fuel with
  | O => (a, h, Blocked, c)
  | S fuel =>
      if (MaxAuthTries config <=? authFailures) && (0 <? MaxAuthTries config)
      then let '(r, c) := written_result disconnect_packet (Err too_many) c in (a, h, r, c)
      else
        match readPacket c with
        | (Ok packet, c) =>
            match parse_request packet with
            | Ok req =>
                if negb (req_Service req =? serviceSSH)%string
                then (a, h, Err ("ssh: client attempted to negotiate for unknown service: " +:+ req_Service req), c)
                else
                  let '(cache, a, h, v, c) := server_method config req cache a h c in
                  match v with
                  | Return r => (a, h, r, c)
                  | Continue => serve fuel config authFailures cache authErrs a h c
                  | Judged authErr =>
                      let authFailures :=
                        if (req_Method req =? "none")%string && (authFailures =? 0) then authFailures - 1 else authFailures in
                      let a := AuthLogCallback a (req_Method req) authErr in
                      match authErr with
                      | None => let '(r, c) := written_result success_packet (Ok (req_User req)) c in (a, h, r, c)
                      | Some e =>
                          if negb (HasPublicKeyCallback config || HasKeyboardInteractiveCallback config)
                          then (a, h, Err ("ssh: no authentication methods configured but " +:+
                                           "NoClientAuth is also false"), c)
                          else
                            match writePacket (failure_packet config) c with
                            | (Ok _, c) => serve fuel config (authFailures + 1) cache (authErrs ++ [e]) a h c
                            | (Err e, c) => (a, h, Err e, c)
                            | (Panic s, c) => (a, h, Panic s, c)
                            | (Blocked, c) => (a, h, Blocked, c)
                            end
                      end
                  end
            | Err e => (a, h, Err e, c)
            | Panic s => (a, h, Panic s, c)
            | Blocked => (a, h, Blocked, c)
            end
        | (_, c) => (a, h, Err ("[" +:+ join ", " authErrs +:+ "]"), c)
        end
  end.

(** The request for the service, and its answer. *)
Definition service_accepted : io unit :=
  let! packet := readPacket in
  let! vs := lift (Unmarshal packet serviceRequestMsg) in
  match vs with
  | [VString service] =>
      if negb (service =? serviceUserAuth)%string
      then fail ("ssh: requested service '" +:+ service +:+ "' before authenticating")
      else writePacket accept_packet
  | _ => lift (Panic "unreachable")
  end.

(** [serverHandshake] after the keys are exchanged, on the packets of a client;
    with what the server wrote. *)
Definition handshake_run (ps : list string) (h : HostDb) : PerAttempt * HostDb * outcome string * packetConn :=
  let '(a, config) := SetupAuthRequirements cfg in
  match service_accepted (mkPacketConn [] ps) with
  | (Ok _, c) => serve (S (List.length (incoming c))) (fullConf config) 0 [] [] a h c
  | (Err e, c) => (a, h, Err e, c)
  | (Panic s, c) => (a, h, Panic s, c)
  | (Blocked, c) => (a, h, Blocked, c)
  end.
Definition serverHandshake (ps : list string) (h : HostDb) : PerAttempt * HostDb * outcome string * list string :=
  let '(r, c) := handshake_run ps h in (r, sent (trace c)).

(** *** It is the authentication of [Auth] *)

(** The packets of a request: itself, and those that its challenges took. *)
Definition event_packets (ev : event) : list string :=
  ev_packet ev :: option_list (ev_answer ev) ++ option_list (ev_ack ev).

Lemma write_reads_nothing p c r c' : writePacket p c = (r, c') -> incoming c' = incoming c.
Proof. unfold ClientAuth.writePacket. by destruct (write_err (trace c) p); intros [= <- <-]. Qed.

Lemma write_fails p c r c' :
  writePacket p c = (r, c') -> r = Ok tt \/ exists e, r = Err e /\ write_err (trace c) p = Some e.
Proof. unfold ClientAuth.writePacket. destruct (write_err (trace c) p); intros [= <- <-]; eauto. Qed.

Lemma challenge_replied i q e c r c' :
  challenge i q e c = (r, c') ->
  exists reply, incoming c = option_list reply ++ incoming c' /\ (r = Challenge q e reply \/ reply = None /\ exists x, r = Err x).
Proof.
  unfold challenge, Challenge. destruct (negb _) eqn:El; [intros [= <- <-]; exists None; eauto|]. rewrite bind_eq.
  destruct (writePacket _ c) as [rw c1] eqn:Ew. pose proof (write_reads_nothing _ _ _ _ Ew) as Hi.
  destruct (write_fails _ _ _ _ Ew) as [->|(x & -> & _)].
  - rewrite bind_eq. unfold readPacket, lift. cbn [fst snd]. rewrite <- Hi. destruct (incoming c1) as [|p ps] eqn:E; cbn [fst snd incoming]; intros [= <- <-].
    + exists None. split; [by rewrite E|]. by left.
    + exists (Some p). split; [done|]. left. by destruct p.
  - intros [= <- <-]. exists None. split; [by rewrite Hi|]. eauto.
Qed.

Lemma Challenge_none q e : exists x, Challenge q e None = Err x.
Proof. unfold Challenge. destruct (negb _); by eexists. Qed.

Lemma keyboard_is_callback mylogin p a h c a' h' r c' :
  KeyboardInteractive mylogin a h c = (a', h', r, c') ->
  exists answer ack, incoming c = (option_list answer ++ option_list ack) ++ incoming c' /\
    KeyboardInteractiveCallback mylogin (mkEvent (now_of c) p answer ack) a h = (a', h', r).
Proof.
  unfold KeyboardInteractive, Auth.KeyboardInteractiveCallback. cbn [ev_now ev_answer ev_ack].
  destruct (_ && _); [intros [= <- <- <- <-]; by exists None, None|]. destruct (challenges cfg) as [[chal echo] idx].
  destruct (challenge _ chal echo c) as [r1 c1] eqn:E1. apply challenge_replied in E1 as (answer & Hi & E1).
  assert (forall x, r1 = Err x -> exists y, Challenge chal echo answer = Err y) as HE.
  { intros x ->. destruct E1 as [<-|[-> _]]; [by eexists|apply Challenge_none]. }
  assert (forall l : list string, option_list answer ++ l = (option_list answer ++ option_list None) ++ l) as Hn by (intros l; by rewrite app_nil_r).
  destruct r1 as [ans|x|s|]; [|destruct (HE x eq_refl) as [y Hy]; intros [= <- <- <- <-]; exists answer, None; by rewrite <- Hn, Hy|..].
  all: destruct E1 as [E1|(_ & y & [=])].
  2,3: intros [= <- <- <- <-]; exists answer, None; by rewrite <- Hn, <- E1.
  destruct (Get2 _ _) as [user|]; [|intros [= <- <- <- <-]; exists answer, None; by rewrite <- Hn, <- E1].
  destruct (check_answers _ _ _ _) as [[user' [|]]|x|s|] eqn:EC; cbn [negb PublicKeyOK];
    [|intros [= <- <- <- <-]; exists answer, None; by rewrite <- Hn, <- E1, EC..].
  destruct (PublicKeyOK a) eqn:EP; cbn [negb]; [|intros [= <- <- <- <-]; exists answer, None; by rewrite <- Hn, <- E1, EC].
  destruct (challenge _ [] [] c1) as [r2 c2] eqn:E2. apply challenge_replied in E2 as (ack & Hi2 & E2).
  assert (match Challenge [] [] ack with Panic s => r2 = Panic s | _ => forall s, r2 <> Panic s end) as H2.
  { destruct E2 as [->|(-> & x & ->)]; [|by intros s]. destruct (Challenge [] [] ack); by intros. }
  intros H. exists answer, ack. rewrite <- E1, EC, Hi, Hi2, app_assoc.
  destruct (Challenge [] [] ack) as [?|?|s|]; [| |subst r2; by injection H as <- <- <- <-|].
  all: destruct r2 as [?|?|s|]; [| |by destruct (H2 s)|]; by injection H as <- <- <- <-.
Qed.

Lemma accept_query_spec req c v c' : accept_query req c = (v, c') ->
  incoming c' = incoming c /\
  forall x, parse_pubkey (req_Payload req) = inr x -> v = Continue \/ exists e, v = Return (Err e) /\ exists l p, write_err l p = Some e.
Proof.
  unfold accept_query. destruct (parse_pubkey _) as [v1|[[[[q algo] data] key] rest]]; [by intros [= <- <-]|].
  destruct (writePacket _ c) as [rw c1] eqn:Ew. pose proof (write_reads_nothing _ _ _ _ Ew) as Hi.
  destruct (write_fails _ _ _ _ Ew) as [->|(e & -> & He)]; intros [= <- <-]; split; [done|by left|done|]. right. eauto.
Qed.

(** A failed write is the only way to another result. *)
Definition write_failed (e : string) : Prop := exists l p, write_err l p = Some e.
Definition same_verdict (v v' : verdict) : Prop := v = v' \/ v' = Continue /\ exists e, v = Return (Err e) /\ write_failed e.

Lemma method_is_case config p req cache a h c cache' a' h' v c' :
  server_method config req cache a h c = (cache', a', h', v, c') ->
  exists answer ack v', incoming c = (option_list answer ++ option_list ack) ++ incoming c' /\
    method_case config (mkEvent (now_of c) p answer ack) req cache a h = (cache', a', h', v') /\ same_verdict v v'.
Proof.
  unfold server_method, Auth.method_case. cbn [ev_now].
  destruct (String.eqb_spec (req_Method req) "keyboard-interactive") as [->|Hk]; cbn [andb].
  - change ("keyboard-interactive" =? "none")%string with false. change ("keyboard-interactive" =? "password")%string with false.
    change ("keyboard-interactive" =? "keyboard-interactive")%string with true. change ("keyboard-interactive" =? "publickey")%string with false. cbn [andb].
    destruct (HasKeyboardInteractiveCallback config); cbn [negb]; [|intros [= <- <- <- <- <-]; exists None, None; eexists; split; [done|]; split; [done|by left]].
    destruct (KeyboardInteractive _ a h c) as [[[a1 h1] r1] c1] eqn:E. apply (keyboard_is_callback _ p) in E as (answer & ack & Hi & E).
    intros [= <- <- <- <- <-]. exists answer, ack. eexists. rewrite E. split; [done|]. split; [done|by left].
  - destruct (String.eqb_spec (req_Method req) "publickey") as [->|Hp]; cbn [andb].
    + change ("publickey" =? "none")%string with false. change ("publickey" =? "password")%string with false.
      destruct (HasPublicKeyCallback config); cbn [negb andb]; [|intros [= <- <- <- <- <-]; exists None, None; eexists; split; [done|]; split; [done|by left]].
      unfold Auth.publickey_case.
      destruct (parse_pubkey (req_Payload req)) as [v1|[[[[q algo] data] key] rest]] eqn:Ep.
      { destruct v1; try (intros [= <- <- <- <- <-]; exists None, None; eexists; split; [done|]; split; [done|by left]).
        destruct (accept_query req c) as [v2 c2] eqn:Eq. unfold accept_query in Eq. rewrite Ep in Eq. injection Eq as <- <-.
        intros [= <- <- <- <- <-]; exists None, None; eexists; split; [done|]; split; [done|by left]. }
      destruct (candidate_of _ _ _ _ _ _ _ _ _ _ _ _ _ _) as [[[cache1 a1] h1] result].
      match goal with |- match ?x with _ => _ end = _ -> _ => set (v1 := x) end.
      intros H. exists None, None, v1. cbn [option_list app].
      assert (v1 = Continue \/ (v1 <> Continue /\ (cache1, a1, h1, v1, c) = (cache', a', h', v, c'))) as [Hc|[_ [= <- <- <- <- <-]]].
      { destruct v1; [right|left|right]; done. }
      * rewrite Hc in H |- *. destruct (accept_query req c) as [v2 c2] eqn:Eq. injection H as <- <- <- <- <-.
        apply accept_query_spec in Eq as (Hi & Hv). split; [done|]. split; [done|]. destruct (Hv _ Ep) as [->|(e & -> & He)]; [by left|].
        right. split; [done|]. exists e. split; [done|exact He].
      * split; [done|]. split; [done|by left].
    + intros [= <- <- <- <- <-]. exists None, None.
      destruct (_ =? "none")%string; [|destruct (_ =? "password")%string];
        (eexists; split; [done|]; split; [done|by left]).
Qed.

Lemma written_result_spec p r c r' c' : written_result p r c = (r', c') ->
  incoming c' = incoming c /\ (r' = r \/ exists e, r' = Err e /\ write_failed e).
Proof.
  unfold written_result. destruct (writePacket p c) as [rw c1] eqn:Ew. pose proof (write_reads_nothing _ _ _ _ Ew) as Hi.
  destruct (write_fails _ _ _ _ Ew) as [->|(e & -> & He)]; intros [= <- <-]; (split; [done|]); [by left|]. right. exists e. split; [done|by eexists _, _].
Qed.

(** What the server decides on a client's packets is what [Auth] decides on some
    requests, made of just the packets that the server read, in order, at times of
    the server's clock; or else the error of a failed write. Users and files are in any case those of [Auth]. *)
Definition read_as (c : packetConn) (evs : list event) (c' : packetConn) : Prop :=
  incoming c = flat_map event_packets evs ++ incoming c' /\ Forall (fun ev => exists n, ev_now ev = clock n) evs.
Definition decides (fuel : nat) (config : ServerConfig) : Prop :=
  forall n cache errs a h c r c', (List.length (incoming c) < fuel)%nat -> serve fuel config n cache errs a h c = (r, c') ->
  exists evs, read_as c evs c' /\
    let r' := userAuthLoop config evs n cache errs a h in
    r.1 = r'.1 /\ (r.2 = r'.2 \/ exists e, r.2 = Err e /\ write_failed e).

Lemma loop_empty config n cache errs a h : (userAuthLoop config [] n cache errs a h).1 = (a, h).
Proof. cbn [Auth.userAuthLoop]. by destruct (_ && _). Qed.

Lemma read_none c c' : incoming c' = incoming c -> read_as c [] c'.
Proof. intros E. split; [by rewrite E|by apply Forall_nil]. Qed.

Lemma serve_decides fuel config : decides fuel config.
Proof.
  induction fuel as [|fuel IH]; intros n cache errs a h c r c' Hf H; [lia|]. cbn [serve] in H.
  destruct (_ && _) eqn:Et.
  { exists []. cbn [flat_map Auth.userAuthLoop app]. rewrite Et. destruct (written_result _ _ c) as [r1 c1] eqn:Ew.
    apply written_result_spec in Ew as [Hi Hr]. injection H as <- <-. split; [by apply read_none|]. split; [done|exact Hr]. }
  unfold readPacket in H. destruct (incoming c) as [|packet ps] eqn:Ei.
  { injection H as <- <-. exists []. cbn [Auth.userAuthLoop]. rewrite Et. split; [by apply read_none|]. split; [done|by left]. }
  set (c1 := mkPacketConn (trace c ++ [Received packet]) ps) in *. cbn [List.length] in Hf.
  assert (read_as c [mkEvent (clock 0) packet None None] c1) as Hone by (split; [by rewrite Ei|apply Forall_singleton; by eexists]).
  destruct (parse_request packet) as [req|e|s|] eqn:Ep;
    [|injection H as <- <-; exists [mkEvent (clock 0) packet None None]; split; [exact Hone|]; cbn [Auth.userAuthLoop ev_packet];
      rewrite Et, Ep; split; [done|by left]..].
  destruct (negb (req_Service req =? _)%string) eqn:Es.
  { injection H as <- <-. exists [mkEvent (clock 0) packet None None]. split; [exact Hone|]. cbn [Auth.userAuthLoop ev_packet]. rewrite Et, Ep, Es. split; [done|by left]. }
  destruct (server_method config req cache a h c1) as [[[[cache1 a1] h1] v] c2] eqn:Em.
  apply (method_is_case _ packet) in Em as (answer & ack & v' & Hi & Em & Hv). set (ev := mkEvent (now_of c1) packet answer ack) in *.
  assert (forall evs c3, read_as c2 evs c3 -> read_as c (ev :: evs) c3) as Happ.
  { intros evs c3 [E Hc]. split; [|apply Forall_cons; split; [by eexists|exact Hc]]. rewrite Ei. cbn [flat_map]. rewrite <- app_assoc, <- E. unfold ev, event_packets. cbn [ev_packet ev_answer ev_ack app]. f_equal. exact Hi. }
  assert (List.length (incoming c2) < fuel)%nat as Hf2.
  { change (incoming c1) with ps in Hi. rewrite Hi, length_app in Hf. lia. }
  assert (forall evs, userAuthLoop config (ev :: evs) n cache errs a h =
    match v' with
    | Return r => (a1, h1, r)
    | Continue => userAuthLoop config evs n cache1 errs a1 h1
    | Judged authErr =>
        let n' := if (req_Method req =? "none")%string && (n =? 0) then n - 1 else n in
        let a2 := AuthLogCallback a1 (req_Method req) authErr in
        match authErr with
        | None => (a2, h1, Ok (req_User req))
        | Some e =>
            if negb (HasPublicKeyCallback config || HasKeyboardInteractiveCallback config)
            then (a2, h1, Err ("ssh: no authentication methods configured but " +:+ "NoClientAuth is also false"))
            else userAuthLoop config evs (n' + 1) cache1 (errs ++ [e]) a2 h1
        end
    end) as Hloop.
  { intros evs. cbn [Auth.userAuthLoop]. rewrite Et. change (ev_packet ev) with packet. rewrite Ep, Es, Em. done. }
  clear Em.
  destruct v as [r1| |[e|]].
  - injection H as <- <-. exists [ev]. split; [by apply Happ, read_none|]. rewrite Hloop. destruct Hv as [<-|(-> & e & [= ->] & He)]; [split; [done|by left]|].
    split; [symmetry; apply loop_empty|]. right. by exists e.
  - destruct Hv as [<-|(_ & e & [=] & _)]. destruct (IH _ _ _ _ _ _ _ _ Hf2 H) as (evs & E & Hr). exists (ev :: evs). split; [by apply Happ|]. by rewrite Hloop.
  - destruct Hv as [<-|(_ & x & [=] & _)]. destruct (negb (_ || _)) eqn:Eh.
    { injection H as <- <-. exists [ev]. split; [by apply Happ, read_none|]. rewrite Hloop. split; [done|by left]. }
    destruct (writePacket _ c2) as [rw c3] eqn:Ew. pose proof (write_reads_nothing _ _ _ _ Ew) as Hi3.
    destruct (write_fails _ _ _ _ Ew) as [->|(x & -> & Hx)].
    + rewrite <- Hi3 in Hf2. destruct (IH _ _ _ _ _ _ _ _ Hf2 H) as (evs & E & Hr). exists (ev :: evs). unfold read_as in E. rewrite Hi3 in E. split; [by apply Happ|]. by rewrite Hloop.
    + injection H as <- <-. exists [ev]. split; [by apply Happ, read_none|]. rewrite Hloop. split; [symmetry; apply loop_empty|]. right. exists x. split; [done|by eexists _, _].
  - destruct Hv as [<-|(_ & x & [=] & _)]. destruct (written_result _ _ c2) as [r3 c3] eqn:Ew. apply written_result_spec in Ew as [Hi3 Hr].
    injection H as <- <-. exists [ev]. split; [by apply Happ, read_none|]. rewrite Hloop. split; [done|exact Hr].
Qed.

Abbreviation authenticate := (authenticate compare_hash key_from_url totp_validate ecMarshal ecUnmarshal rsa_verify dsa_verify ecdsa_verify
    ed25519_equation encode_db encode_json can_write cfg remoteAddr sessionID).


(** The login touches no more than [Auth] allows. *)
Lemma handshake_frame ps h : frame cfg h (handshake_run ps h).1.1.2.
Proof.
  unfold handshake_run. destruct (SetupAuthRequirements cfg) as [a config].
  destruct (service_accepted _) as [[?|?|?|] c1]; [|apply frame_refl..].
  destruct (serve _ _ _ _ _ _ _ c1) as [r c2] eqn:Es.
  destruct (serve_decides _ _ _ _ _ _ _ _ _ _ (Nat.lt_succ_diag_r _) Es) as (evs & _ & Hr & _).
  cbn [fst]. rewrite Hr. destruct (userAuthLoop _ _ _ _ _ _ _) as [[a' h'] r'] eqn:HS. apply loop_sound in HS as [HF _]; [exact HF|].
  intros e He. by apply elem_of_nil in He.
Qed.
End Server.

(** ** Running the client *)

Section Run.
Context (ecMarshal : Z -> Z -> Z -> string).
Context (range : gset string -> list string).
Context (session user : string).
(** Every packet is taken. *)
Abbreviation no_err := (fun (_ : list io_event) (_ : string) => @None string).

Lemma bind_ok {A B} (m : io A) (k : A -> io B) c a c' : m c = (Ok a, c') -> bind m k c = k a c'.
Proof. intros H. unfold bind. by rewrite H. Qed.
Lemma read_some tr p ps : readPacket (mkPacketConn tr (p :: ps)) = (Ok p, mkPacketConn (tr ++ [Received p]) ps).
Proof. done. Qed.
Lemma loop_some {R} (body : string -> io (option R)) tr p ps r c :
  body p (mkPacketConn (tr ++ [Received p]) ps) = (Ok (Some r), c) -> read_loop body (mkPacketConn tr (p :: ps)) = (Ok r, c).
Proof.
  intros H. unfold read_loop. cbn [List.length incoming read_rounds]. rewrite (bind_ok readPacket _ _ _ _ (read_some tr p ps)).
  by rewrite (bind_ok _ _ _ _ _ H).
Qed.
Lemma loop_none {R} (body : string -> io (option R)) tr p ps tr' :
  body p (mkPacketConn (tr ++ [Received p]) ps) = (Ok None, mkPacketConn tr' ps) ->
  read_loop body (mkPacketConn tr (p :: ps)) = read_loop body (mkPacketConn tr' ps).
Proof.
  intros H. unfold read_loop. cbn [List.length incoming]. set (n := List.length ps). cbn [read_rounds].
  rewrite (bind_ok readPacket _ _ _ _ (read_some tr p ps)). by rewrite (bind_ok _ _ _ _ _ H).
Qed.

Definition both_methods : list string := ["publickey"; "keyboard-interactive"].
Definition fail_both : string := failure_packet (mkServerConfig true true 6).
Lemma fail_both_read : failure_methods fail_both = Ok both_methods.
Proof. vm_compute. reflexivity. Qed.

Lemma response_failure tr ps :
  handleAuthResponse (mkPacketConn tr (fail_both :: ps)) =
  (Ok (false, Some both_methods), mkPacketConn (tr ++ [Received fail_both]) ps).
Proof. apply loop_some. reflexivity. Qed.

Definition none_packet : string :=
  Marshal userAuthRequestMsg [VString user; VString serviceSSH; VString "none"; VRest ""].
Definition query_packet (algo data : string) : string :=
  Marshal publickeyAuthMsg
    [VString user; VString serviceSSH; VString "publickey"; VBool false; VString algo; VBytes data; VRest ""].
Definition initiate_packet : string :=
  Marshal initiateMsg [VString user; VString serviceSSH; VString "keyboard-interactive"; VString ""; VString ""].

Lemma run_none tr ps :
  none_auth no_err user (mkPacketConn tr (fail_both :: ps)) =
  (Ok (false, Some both_methods), mkPacketConn ((tr ++ [Sent none_packet]) ++ [Received fail_both]) ps).
Proof. unfold none_auth. erewrite bind_ok by reflexivity. apply response_failure. Qed.

Lemma run_query signer algo data tr ps :
  KeyMarshal ecMarshal (PublicKey_of signer) = Ok data -> Type_ (PublicKey_of signer) = Ok algo ->
  auth ecMarshal no_err session user (PublicKeys [signer]) (mkPacketConn tr (fail_both :: ps)) =
  (Ok (false, None), mkPacketConn ((tr ++ [Sent (query_packet algo data)]) ++ [Received fail_both]) ps).
Proof.
  intros Hm Ht. cbn [auth PublicKeys]. unfold publickey_auth. erewrite bind_ok by reflexivity. cbn [try_signers].
  erewrite (bind_ok _ _ _ false); [reflexivity|]. unfold validateKey, confirmKeyAck. rewrite Hm, Ht. do 5 (erewrite bind_ok by reflexivity).
  apply loop_some. reflexivity.
Qed.

Lemma first_info i q e : first_byte (info_request i q e) = Ok 60.
Proof. reflexivity. Qed.

Lemma run_keyboard cb tr instruction1 instruction2 answers questions echos :
  parse_info (info_request instruction1 questions echos) = Ok ("", instruction1, questions, echos) ->
  parse_info (info_request instruction2 [] []) = Ok ("", instruction2, [], []) ->
  (forall now, cb now "" instruction1 questions echos = Ok (answers now)) ->
  (forall now, List.length (answers now) = List.length questions) ->
  (forall now, cb now "" instruction2 [] [] = Ok []) ->
  exists now, keyboard_auth no_err user cb (mkPacketConn tr [info_request instruction1 questions echos; info_request instruction2 [] []; success_packet]) =
  (Ok (true, None),
   mkPacketConn ((((((tr ++ [Sent initiate_packet]) ++ [Received (info_request instruction1 questions echos)]) ++
                   [Sent (info_response (answers now))]) ++ [Received (info_request instruction2 [] [])]) ++
                 [Sent (info_response [])]) ++ [Received success_packet]) []).
Proof.
  intros H1 H2 Hcb1 Hn Hcb2. eexists. unfold keyboard_auth. erewrite bind_ok by reflexivity.
  unfold log. cbn [trace incoming]. erewrite loop_none.
  2: { cbv beta. rewrite first_info. erewrite bind_ok by reflexivity. cbn [Z.eqb msgUserAuthBanner msgUserAuthInfoRequest Pos.eqb].
       rewrite H1. erewrite bind_ok by reflexivity. cbv beta iota. erewrite bind_ok by (unfold ask; by rewrite Hcb1).
       rewrite Hn, Nat.eqb_refl. cbn [negb]. erewrite bind_ok by reflexivity. reflexivity. }
  erewrite loop_none.
  2: { cbv beta. rewrite first_info. erewrite bind_ok by reflexivity. cbn [Z.eqb msgUserAuthBanner msgUserAuthInfoRequest Pos.eqb].
       rewrite H2. erewrite bind_ok by reflexivity. cbv beta iota. erewrite bind_ok by (unfold ask; by rewrite Hcb2).
       cbn [List.length Nat.eqb negb]. erewrite bind_ok by reflexivity. reflexivity. }
  erewrite loop_some by reflexivity. reflexivity.
Qed.
End Run.

(** ** Login with two factors *)

(** Any request but for keys, as the server reads it. *)
Lemma request_parsed user m payload :
  slen user + slen m + slen payload < 2 ^ 31 ->
  parse_request (Marshal userAuthRequestMsg [VString user; VString serviceSSH; VString m; VRest payload]) =
  Ok (mkRequest user serviceSSH m payload).
Proof.
  intros H. unfold parse_request. rewrite Unmarshal_Marshal; [done|done|]. split; [by repeat constructor|].
  cbn [fields_bytes]. rewrite !slen_app, !field_string_slen. change (field_bytes (VRest ?x)) with x.
  change (slen serviceSSH) with 14. change (slen "") with 0. lia.
Qed.

Lemma query_is_request user algo data : query_packet user algo data = key_request user algo data None.
Proof.
  unfold query_packet, key_request, key_payload. rewrite !(Marshal_eq _ _ 50 []) by done.
  cbn [fields_bytes signed_part_of]. rewrite !field_VBytes. unfold str. by rewrite !string_app_nil_r.
Qed.
Lemma initiate_is_request user :
  initiate_packet user =
  Marshal userAuthRequestMsg [VString user; VString serviceSSH; VString "keyboard-interactive"; VRest (str "" +:+ str "")].
Proof. unfold initiate_packet. by rewrite !(Marshal_eq _ _ 50 []). Qed.

Section TwoFactor.
Context (compare_hash : string -> string -> bool)
        (key_from_url : string -> outcome unit)
        (totp_validate : string -> string -> Z -> bool)
        (GenerateCode : string -> Z -> outcome string).
Context (ecMarshal : Z -> Z -> Z -> string) (ecUnmarshal : Z -> string -> option (Z * Z)).
Context (rsa_verify : Z -> Z -> string -> string -> error_)
        (dsa_verify : Z -> Z -> Z -> Z -> string -> Z -> Z -> bool)
        (ecdsa_verify : Z -> Z -> Z -> string -> Z -> Z -> bool)
        (ed25519_equation : string -> string -> string -> bool).
Context (encode_db encode_json : HostDbPersist -> string) (can_write : string -> bool).
Context (cfg : HostCfg).
Context (remoteAddr sessionID : string) (show_time : Z -> string).
Context (range : gset string -> list string).
(** The clocks of the server and of the client. *)
Context (server_clock : nat -> Z) (client_clock : instant -> Z).
Abbreviation keyBytes := (keyBytes ecMarshal).
Abbreviation first_key := (first_key ecUnmarshal).
Abbreviation serve := (serve compare_hash key_from_url totp_validate ecMarshal ecUnmarshal rsa_verify dsa_verify ecdsa_verify
  ed25519_equation encode_db encode_json can_write cfg remoteAddr sessionID show_time (fun _ _ => None) server_clock).
Abbreviation serverHandshake := (serverHandshake compare_hash key_from_url totp_validate ecMarshal ecUnmarshal rsa_verify dsa_verify
  ecdsa_verify ed25519_equation encode_db encode_json can_write cfg remoteAddr sessionID show_time (fun _ _ => None) server_clock).
Abbreviation PublicKeyCallback := (PublicKeyCallback PublicKey keyBytes first_key encode_db encode_json can_write cfg).
Abbreviation publickey_case := (publickey_case PublicKey keyBytes (ParsePublicKey ecUnmarshal) first_key
    (Verify rsa_verify dsa_verify ecdsa_verify ed25519_equation) encode_db encode_json can_write cfg sessionID).
Abbreviation check_answers := (check_answers compare_hash key_from_url totp_validate cfg).
Abbreviation config := (mkServerConfig true true 6).

(** All three requirements of the configuration. *)
Definition two_factor : Prop := SkipRSA cfg = false /\ SkipPassphrase cfg = false /\ SkipTOTP cfg = false.

Lemma two_factor_challenges : two_factor -> challenges cfg = ([passwordChallenge; gauthChallenge], [false; true], 1%nat).
Proof. intros (_ & H1 & H2). unfold challenges. by rewrite H1, H2. Qed.

Lemma serve_none fuel user n errs a h tr ps :
  slen user < 2 ^ 30 -> n < 6 ->
  serve (S fuel) config n [] errs a h (mkPacketConn tr (none_packet user :: ps)) =
  serve fuel config ((if n =? 0 then n - 1 else n) + 1) [] (errs ++ ["no auth passed yet"]) a h
    (mkPacketConn ((tr ++ [Received (none_packet user)]) ++ [Sent fail_both]) ps).
Proof.
  intros Hu Hn. cbn [Conversation.serve MaxAuthTries]. destruct (Z.leb_spec 6 n); [lia|]. cbn [andb readPacket incoming].
  unfold none_packet at 1. rewrite request_parsed by (change (slen "none") with 4; change (slen "") with 0; lia).
  reflexivity.
Qed.

(** The query for the key on file is noted and refused. *)
Lemma query_noted user now k h u :
  loginRE user = true -> Get2 (Users (Persist h)) user = Some u ->
  key_matches PublicKey keyBytes first_key u k h = true ->
  exists h' seen, PublicKeyCallback user now k (mkAttempt false false) h = (mkAttempt true false, h', Err (unknown user)) /\
    Get2 (Users (Persist h')) user = Some (set_SeenPubKey seen u).
Proof.
  intros HL HU HK. unfold Auth.PublicKeyCallback, ValidLogin. rewrite HL, HU, HK. cbn [OneTimeOK PublicKeyOK andb].
  eexists _, _. split; [reflexivity|]. unfold lockit_save. rewrite save_persist. cbn [with_user with_users Persist Users].
  by rewrite Get2_update, decide_True, HU by done.
Qed.

Lemma serve_query fuel user n errs h u k algo tr ps :
  n < 6 ->
  small_request user algo (keyBytes k) None -> isAcceptableAlgo algo = true -> wf_key ecMarshal ecUnmarshal k ->
  loginRE user = true -> Get2 (Users (Persist h)) user = Some u -> key_matches PublicKey keyBytes first_key u k h = true ->
  exists h' seen cache, Get2 (Users (Persist h')) user = Some (set_SeenPubKey seen u) /\
    serve (S fuel) config n [] errs (mkAttempt false false) h (mkPacketConn tr (query_packet user algo (keyBytes k) :: ps)) =
    serve fuel config (n + 1) cache (errs ++ [unknown user]) (mkAttempt true false) h'
      (mkPacketConn ((tr ++ [Received (query_packet user algo (keyBytes k))]) ++ [Sent fail_both]) ps).
Proof.
  intros Hn Hs Ha Hw HL HU HK. set (now := server_clock (List.length ps)).
  destruct (query_noted user now k h u HL HU HK) as (h' & seen & HC & HU').
  assert (ParsePublicKey ecUnmarshal (keyBytes k) = Ok k) as Hk.
  { apply keyBytes_read; [done|]. unfold small_request in Hs. pose proof (slen_nonneg user). pose proof (slen_nonneg algo).
    pose proof (slen_nonneg (signed_part_of None)). lia. }
  exists h', seen, [(user, keyBytes k, Err (unknown user))]. split; [done|].
  assert (Hm : publickey_case (mkRequest user serviceSSH "publickey" (key_payload algo (keyBytes k) None)) now [] (mkAttempt false false) h =
    ([(user, keyBytes k, Err (unknown user))], mkAttempt true false, h', Judged (Some (unknown user)))).
  { pose proof (key_case ecMarshal ecUnmarshal rsa_verify dsa_verify ecdsa_verify ed25519_equation encode_db encode_json can_write cfg
      sessionID user now algo (keyBytes k) k None [] (mkAttempt false false) h Hs Ha Hk) as HK'.
    cbv zeta in HK'. unfold candidate_of in HK'. cbn [cache_get req_User] in HK'. rewrite HC in HK'. exact HK'. }
  cbn [Conversation.serve MaxAuthTries]. destruct (Z.leb_spec 6 n); [lia|]. cbn [andb readPacket incoming].
  rewrite query_is_request, key_request_parsed by done. cbn [req_Service]. change (serviceSSH =? serviceSSH)%string with true. cbn [negb].
  unfold server_method. cbn [req_Method req_User String.eqb Ascii.eqb Bool.eqb HasKeyboardInteractiveCallback HasPublicKeyCallback andb].
  unfold now_of. cbn [incoming]. fold now. rewrite Hm. reflexivity.
Qed.

(** What the server needs to restore and to check a user's one-time code. *)
Definition restorable (u : User) (url : string) : Prop :=
  totp_url u = Some url /\ (oneTime u = None -> key_from_url (TOTPorig u) = Ok tt).

Lemma answers_checked u seen url pass code now :
  two_factor -> restorable u url -> MatchingHashAndPw compare_hash u pass = true ->
  0 < slen code -> totp_validate code url now = true ->
  exists u', check_answers (set_SeenPubKey seen u) [pass; code] 1 now = Ok (u', true) /\ last_login show_time u' = last_login show_time u.
Proof.
  intros (_ & H1 & H2) [Hu Hk] Hp Hc Hv. unfold Auth.check_answers. rewrite H1, H2. cbn [index lookup list_lookup obind orb].
  assert (MatchingHashAndPw compare_hash (set_SeenPubKey seen u) pass = true) as -> by by destruct u.
  assert (exists u', RestoreTotp key_from_url (set_SeenPubKey seen u) = Ok u' /\ oneTime u' = Some url /\ last_login show_time u' = last_login show_time u) as (u' & -> & Ho & Hl).
  { unfold RestoreTotp, totp_url in *. destruct u as [? ? ? ? ? ? ? ? ? ? ? orig one]. cbn [oneTime TOTPorig set_SeenPubKey] in *.
    destruct one as [url'|]; [simplify_eq; by eexists|]. destruct (orig =? "")%string; [done|]. simplify_eq.
    rewrite Hk by done. by eexists. }
  exists u'. split; [|done]. cbn [obind index]. change (index [pass; code] 1) with (Ok code). cbn [obind].
  destruct (Z.ltb_spec 0 (slen code)); [|lia]. rewrite Ho. cbn [IsValid obind]. by rewrite Hv.
Qed.
Definition login_for (user : string) : string := "login for " +:+ user +:+ ":".
Definition questions_for (user : string) : string := info_request (login_for user) [passwordChallenge; gauthChallenge] [false; true].

Lemma serve_keyboard fuel user n cache errs h u seen url pass code tr :
  two_factor -> restorable u url -> MatchingHashAndPw compare_hash u pass = true ->
  0 < slen code -> totp_validate code url (server_clock 2) = true -> n < 6 ->
  slen user < 2 ^ 30 -> slen (answers_bytes [pass; code]) < 2 ^ 32 ->
  Get2 (Users (Persist h)) user = Some (set_SeenPubKey seen u) ->
  exists h', serve (S fuel) config n cache errs (mkAttempt true false) h
      (mkPacketConn tr [initiate_packet user; info_response [pass; code]; info_response []]) =
    (mkAttempt true true, h', Ok user, mkPacketConn ((((((tr ++ [Received (initiate_packet user)]) ++ [Sent (questions_for user)]) ++
       [Received (info_response [pass; code])]) ++ [Sent (info_request (last_login show_time u) [] [])]) ++ [Received (info_response [])]) ++ [Sent success_packet]) []).
Proof.
  intros H2 Hr Hp Hc Hv Hn Hu Hs HU.
  destruct (answers_checked u seen url pass code (server_clock 2) H2 Hr Hp Hc Hv) as (u' & HC & HL).
  assert (Challenge [passwordChallenge; gauthChallenge] [false; true] (Some (info_response [pass; code])) = Ok [pass; code]) as HA by by apply answers_arrive.
  pose proof (two_factor_challenges H2) as HQ. pose proof H2 as (_ & Hsp & Hst).
  eexists. cbn [Conversation.serve MaxAuthTries]. destruct (Z.leb_spec 6 n); [lia|]. cbn [andb readPacket incoming].
  rewrite initiate_is_request, request_parsed by (change (slen "keyboard-interactive") with 20; change (slen (str "" +:+ str "")) with 8; lia).
  cbn [req_Service]. change (serviceSSH =? serviceSSH)%string with true. cbn [negb].
  unfold server_method. cbn [req_Method req_User String.eqb Ascii.eqb Bool.eqb HasKeyboardInteractiveCallback andb].
  unfold KeyboardInteractive, now_of. cbn [incoming List.length]. rewrite Hsp, Hst, HQ. cbn [andb].
  assert (forall i q e tr p ps, List.length q = List.length e -> challenge (fun _ _ => None) i q e (mkPacketConn tr (p :: ps)) =
    (Challenge q e (Some p), mkPacketConn ((tr ++ [Sent (info_request i q e)]) ++ [Received p]) ps)) as Hch.
  { intros i q e tr' p ps Hl. unfold challenge. rewrite Hl, Nat.eqb_refl. reflexivity. }
  rewrite Hch, HA by done. rewrite HU, HC. cbn [negb PublicKeyOK]. rewrite Hch by done. rewrite HL. reflexivity.
Qed.

Lemma questions_size : slen (prompts_of [passwordChallenge; gauthChallenge] [false; true]) = 47.
Proof. vm_compute. reflexivity. Qed.
Lemma accept_read : Unmarshal accept_packet serviceAcceptMsg = Ok [VString serviceUserAuth].
Proof. vm_compute. reflexivity. Qed.

Lemma service_read : Unmarshal (Marshal serviceRequestMsg [VString serviceUserAuth]) serviceRequestMsg = Ok [VString serviceUserAuth].
Proof. vm_compute. reflexivity. Qed.

(** The client's side, with what the server writes. *)
Lemma client_run user signer algo pass toptUrl code last :
  KeyMarshal ecMarshal (PublicKey_of signer) = Ok (keyBytes (PublicKey_of signer)) -> Type_ (PublicKey_of signer) = Ok algo ->
  toptUrl <> "" -> (forall i, answer_question key_from_url GenerateCode pass toptUrl (client_clock i) gauthChallenge = Ok (code i)) ->
  slen user < 2 ^ 30 -> slen last < 2 ^ 30 ->
  exists i tr, clientAuthenticate ecMarshal (fun _ _ => None) range sessionID user
      (client_methods key_from_url GenerateCode client_clock (Some signer) pass toptUrl)
      (mkPacketConn [] [accept_packet; fail_both; fail_both; questions_for user; info_request last [] []; success_packet]) =
    (Ok tt, mkPacketConn tr []) /\
    sent tr = [Marshal serviceRequestMsg [VString serviceUserAuth]; none_packet user;
               query_packet user algo (keyBytes (PublicKey_of signer)); initiate_packet user; info_response [pass; code i]; info_response []] /\
    forall k d, Signed k d ∉ tr.
Proof.
  intros Hm Ht Hn Hcode Hu Hl. set (auths := client_methods _ _ _ _ _ _). set (cb := helper key_from_url GenerateCode client_clock pass toptUrl).
  assert (forall tried, bool_decide ("publickey" ∈ tried) = false -> findNext auths tried (Some both_methods) = Some (PublicKeys [signer])) as F1.
  { intros tried E. unfold auths, client_methods. cbn [app findNext method PublicKeys]. by rewrite E. }
  assert (forall tried, bool_decide ("publickey" ∈ tried) = true -> bool_decide ("keyboard-interactive" ∈ tried) = false ->
    findNext auths tried (Some both_methods) = Some (KeyboardInteractiveChallenge cb)) as F2.
  { intros tried E E'. unfold auths, client_methods. apply String.eqb_neq in Hn as ->. cbn [app findNext method PublicKeys]. rewrite E.
    destruct (pass =? "")%string; cbn [app findNext method Password]; [by rewrite E'|]. destruct (bool_decide ("password" ∈ tried)); by rewrite E'. }
  assert (exists n, List.length auths = S (S n)) as [n Hlen].
  { unfold auths, client_methods. apply String.eqb_neq in Hn as ->. destruct (pass =? "")%string; by eexists. }
  unfold clientAuthenticate. rewrite Hlen. do 2 (erewrite bind_ok by reflexivity). rewrite accept_read. erewrite bind_ok by reflexivity.
  cbn [auth_rounds]. erewrite bind_ok by reflexivity. erewrite bind_ok by apply run_none. cbv beta iota zeta. cbn [method].
  rewrite F1 by (apply bool_decide_eq_false; set_solver). erewrite bind_ok by reflexivity.
  erewrite bind_ok by (by apply run_query). cbv beta iota zeta. cbn [method PublicKeys]. rewrite F2 by (apply bool_decide_eq_false || apply bool_decide_eq_true; set_solver).
  erewrite bind_ok by reflexivity. cbn [auth].
  unfold log. cbn [trace incoming]. match goal with |- context [bind (keyboard_auth _ _ _) _ (mkPacketConn ?tr _)] =>
    destruct (run_keyboard user cb tr (login_for user) last (fun i => [pass; code i]) [passwordChallenge; gauthChallenge] [false; true]) as [i Hrun]
  end.
  - apply info_request_read; [done..|]. unfold login_for. rewrite !slen_app, questions_size.
    change (slen "login for ") with 10. change (slen ":") with 1. lia.
  - apply info_request_read; [done..|]. change (slen (prompts_of [] [])) with 0. lia.
  - intros now. unfold cb, helper. cbn [answer_all]. rewrite Hcode. reflexivity.
  - done.
  - done.
  - erewrite bind_ok by exact Hrun. eexists i, _. split; [reflexivity|]. split; [reflexivity|]. set_solver.
Qed.

Lemma two_factor_run user u signer algo email line pass toptUrl url code h :
  two_factor -> loginRE user = true -> Get2 (Users (Persist h)) user = Some u ->
  wf_key ecMarshal ecUnmarshal (PublicKey_of signer) -> Type_ (PublicKey_of signer) = Ok algo -> isAcceptableAlgo algo = true ->
  comment_ok email = true -> public_file ecMarshal (PublicKey_of signer) email = Ok line -> files h !! PublicKeyPath u = Some line ->
  small_request user algo (keyBytes (PublicKey_of signer)) None ->
  restorable u url -> MatchingHashAndPw compare_hash u pass = true -> toptUrl <> "" ->
  (forall i, answer_question key_from_url GenerateCode pass toptUrl (client_clock i) gauthChallenge = Ok (code i) /\
             0 < slen (code i) < 2 ^ 30 /\ forall n, totp_validate (code i) url (server_clock n) = true) ->
  slen user < 2 ^ 30 -> slen pass < 2 ^ 30 -> slen (last_login show_time u) < 2 ^ 30 ->
  exists packets tr h',
    clientAuthenticate ecMarshal (fun _ _ => None) range sessionID user
      (client_methods key_from_url GenerateCode client_clock (Some signer) pass toptUrl) (mkPacketConn [] packets) =
      (Ok tt, mkPacketConn tr []) /\
    serverHandshake (sent tr) h = (mkAttempt true true, h', Ok user, packets) /\
    (forall k d, Signed k d ∉ tr).
Proof.
  intros H2 HL HU Hw Ht Ha Hc Hf Hp Hs Hr Hpw Hurl Hcode Hu Hpass Hlast.
  set (k := PublicKey_of signer) in *.
  assert (slen (keyBytes k) < 2 ^ 32) as Hk.
  { unfold small_request in Hs. pose proof (slen_nonneg user). pose proof (slen_nonneg algo). pose proof (slen_nonneg (signed_part_of None)). lia. }
  assert (KeyMarshal ecMarshal k = Ok (keyBytes k)) as Hm.
  { destruct (wf_readable _ _ _ Hw) as (ty & body & _ & Hb & _). unfold Login.keyBytes. by rewrite Hb. }
  destruct (client_run user signer algo pass toptUrl code (last_login show_time u) Hm Ht Hurl (fun i => proj1 (Hcode i)) Hu Hlast)
    as (i & tr & Hrun & Hsent & Hsig). fold k in Hsent.
  destruct (Hcode i) as (_ & [Hc0 Hc1] & Hv).
  assert (key_matches PublicKey keyBytes first_key u k h = true) as HK by by apply (key_on_file_matches _ _ u h k email line k).
  pose proof (slen_nonneg pass). assert (slen (answers_bytes [pass; code i]) < 2 ^ 32) as Hsz.
  { cbn [answers_bytes]. rewrite !slen_app, !field_string_slen. change (slen "") with 0. lia. }
  set (sent_by_server := fun tr => [Received (Marshal serviceRequestMsg [VString serviceUserAuth]); Sent accept_packet] ++ tr).
  destruct (serve_query 4 user 0 ["no auth passed yet"] h u k algo
    (sent_by_server [Received (none_packet user); Sent fail_both]) [initiate_packet user; info_response [pass; code i]; info_response []]) as (h1 & seen & cache & HU1 & Hq); try done.
  destruct (serve_keyboard 3 user 1 cache (["no auth passed yet"] ++ [unknown user]) h1 u seen url pass (code i)
    (sent_by_server [Received (none_packet user); Sent fail_both; Received (query_packet user algo (keyBytes k)); Sent fail_both])) as (h2 & Hk2); try done.
  exists [accept_packet; fail_both; fail_both; questions_for user; info_request (last_login show_time u) [] []; success_packet], tr, h2.
  split; [exact Hrun|]. split; [|exact Hsig].
  unfold Conversation.serverHandshake, handshake_run, SetupAuthRequirements. pose proof H2 as (Hrsa & Hsp & Hst). rewrite Hsent, Hrsa, Hsp, Hst.
  cbn [andb negb]. change (fullConf (mkServerConfig true true 0)) with config.
  match goal with |- context [service_accepted ?w ?c] => change (service_accepted w c) with
    (Ok tt : outcome unit, mkPacketConn (sent_by_server []) [none_packet user; query_packet user algo (keyBytes k); initiate_packet user; info_response [pass; code i]; info_response []]) end.
  cbv iota beta. cbn [incoming List.length]. rewrite (serve_none _ user) by done. change ((if 0 =? 0 then 0 - 1 else 0) + 1) with 0. cbn [app] in Hq, Hk2 |- *.
  unfold sent_by_server in *. cbn [app] in Hq, Hk2 |- *. rewrite Hq. change (0 + 1) with 1. rewrite Hk2. reflexivity.
Qed.

(** The login that the program is made for succeeds: sshego's client, with the
    key on file, the passphrase and the secret of the one-time codes, against
    sshego's server that asks for all of them. What the client sends makes the
    server accept the user, and what the server writes on the way is what the
    client reads, to the last packet. On the way the private key is never used:
    the server refuses the query for the key, as long as the code is missing, and
    never asks for a signature. *)
Theorem two_factor_login user u signer algo email line pass toptUrl url code h :
  two_factor -> loginRE user = true -> Get2 (Users (Persist h)) user = Some u ->
  wf_key ecMarshal ecUnmarshal (PublicKey_of signer) -> Type_ (PublicKey_of signer) = Ok algo -> isAcceptableAlgo algo = true ->
  comment_ok email = true -> public_file ecMarshal (PublicKey_of signer) email = Ok line -> files h !! PublicKeyPath u = Some line ->
  small_request user algo (keyBytes (PublicKey_of signer)) None ->
  restorable u url -> MatchingHashAndPw compare_hash u pass = true -> toptUrl <> "" ->
  (forall i, answer_question key_from_url GenerateCode pass toptUrl (client_clock i) gauthChallenge = Ok (code i) /\
             0 < slen (code i) < 2 ^ 30 /\ forall n, totp_validate (code i) url (server_clock n) = true) ->
  slen user < 2 ^ 30 -> slen pass < 2 ^ 30 -> slen (last_login show_time u) < 2 ^ 30 ->
  exists packets tr h',
    clientAuthenticate ecMarshal (fun _ _ => None) range sessionID user
      (client_methods key_from_url GenerateCode client_clock (Some signer) pass toptUrl) (mkPacketConn [] packets) =
      (Ok tt, mkPacketConn tr []) /\
    serverHandshake (sent tr) h = (mkAttempt true true, h', Ok user, packets) /\
    (forall k d, Signed k d ∉ tr).
Proof. apply two_factor_run. Qed.
End TwoFactor.

(** ** What a server can ask *)

Section Unknown.
Context (key_from_url : string -> outcome unit) (GenerateCode : string -> Z -> outcome string) (client_clock : instant -> Z).

(** A server stops the client with one question that is neither of the two that
    sshego's server asks, "Password: " say: the callback panics. *)
Theorem unknown_challenge_panics user pass toptUrl q echo tr ps :
  q <> passwordChallenge -> q <> gauthChallenge -> slen q < 2 ^ 30 ->
  (keyboard_auth (fun _ _ => None) user (helper key_from_url GenerateCode client_clock pass toptUrl)
     (mkPacketConn tr (info_request "" [q] [echo] :: ps))).1 = Panic ("unrecognized challenge: '" +:+ q +:+ "'").
Proof.
  intros H1 H2 Hs. unfold keyboard_auth. erewrite bind_ok by reflexivity. unfold log. cbn [trace incoming].
  unfold read_loop. cbn [List.length incoming read_rounds]. erewrite bind_ok by apply read_some. rewrite bind_eq. cbv beta.
  rewrite first_info. erewrite bind_ok by reflexivity. cbn [Z.eqb msgUserAuthBanner msgUserAuthInfoRequest Pos.eqb].
  assert (parse_info (info_request "" [q] [echo]) = Ok ("", "", [q], [echo])) as ->.
  { apply info_request_read; [done..|]. rewrite prompts_cons, slen_app, field_string_slen. cbn [prompts_of].
    change (slen (String _ "")) with 1. change (slen "") with 0. lia. }
  erewrite bind_ok by reflexivity. cbv beta iota. rewrite bind_eq. unfold ask, helper. cbn [answer_all fst snd].
  unfold answer_question. apply String.eqb_neq in H1 as ->, H2 as ->. reflexivity.
Qed.
End Unknown.

(** ** Concrete runs *)

Definition demo_client_methods : list AuthMethod :=
  client_methods (fun _ => Ok tt) demo_code (fun _ => 0) (Some demo_signer) "beer" "otpauth://totp/bob".
Definition demo_client : list string -> outcome unit * packetConn := fun packets =>
  clientAuthenticate demo_ecMarshal (fun _ _ => None) demo_range "session" "bob" demo_client_methods (mkPacketConn [] packets).

(** A server that asks for a signature gets one, after its acknowledgement. *)
Example demo_signed :
  let ack := pubkey_ok_packet KeyAlgoED25519 (demo_keyBytes demo_key) in
  let run := demo_client [accept_packet; fail_both; ack; success_packet] in
  run.1 = Ok tt /\
  bool_decide (ack ∈ received (trace run.2)) && existsb (fun e => match e with Signed _ _ => true | _ => false end) (trace run.2) = true.
Proof. vm_compute. split; reflexivity. Qed.

Lemma challenge_roundtrip_witness :
  Challenge [passwordChallenge; gauthChallenge] [false; true] (Some (info_response ["be,er"; ""])) = Ok ["be,er"; ""].
Proof.
  apply (proj2 (challenge_roundtrip "login for bob:" [passwordChallenge; gauthChallenge] [false; true] ["be,er"; ""]
    eq_refl eq_refl eq_refl eq_refl eq_refl)).
Defined.

Lemma unknown_challenge_panics_witness :
  (keyboard_auth (fun _ _ => None) "bob" (helper (fun _ => Ok tt) demo_code (fun _ => 0) "beer" "otpauth://totp/bob")
     (mkPacketConn [] [info_request "" ["Password: "] [false]])).1 = Panic "unrecognized challenge: 'Password: '".
Proof. apply (unknown_challenge_panics (fun _ => Ok tt) demo_code (fun _ => 0)); [discriminate|discriminate|reflexivity]. Defined.

Definition demo_show (t : Z) : string := itoa t.
Definition demo_handshake (ps : list string) : PerAttempt * HostDb * outcome string * packetConn :=
  handshake_run demo_check (fun _ => Ok tt) demo_validate demo_ecMarshal demo_ecUnmarshal (fun _ _ _ _ => None)
    (fun _ _ _ _ _ _ _ => false) (fun _ _ _ _ _ _ => false) demo_ed_verify demo_encode demo_encode (fun _ => true)
    demo_cfg "10.0.0.1:9999" "session" demo_show (fun _ _ => None) (fun _ => 2000)
    (Marshal serviceRequestMsg [VString serviceUserAuth] :: ps) demo_host.

(** What follows a challenge is taken for its answer, and an answer that follows
    nothing ends the login. *)
Example stray_packets :
  let run := demo_handshake [initiate_packet "bob"; none_packet "bob"; info_response []; none_packet "bob"] in
  run.1.2 = Err "ssh: unexpected message type 61 (expected one of [50])" /\ incoming run.2 = [none_packet "bob"] /\
  sent (trace run.2) = [accept_packet; questions_for "bob"; fail_both].
Proof. vm_compute. split_and!; reflexivity. Qed.


Lemma two_factor_login_witness :
  exists packets tr h',
    demo_client packets = (Ok tt, mkPacketConn tr []) /\
    serverHandshake demo_check (fun _ => Ok tt) demo_validate demo_ecMarshal demo_ecUnmarshal (fun _ _ _ _ => None)
      (fun _ _ _ _ _ _ _ => false) (fun _ _ _ _ _ _ => false) demo_ed_verify demo_encode demo_encode (fun _ => true)
      demo_cfg "10.0.0.1:9999" "session" demo_show (fun _ _ => None) (fun _ => 2000) (sent tr) demo_host =
      (mkAttempt true true, h', Ok "bob", packets) /\
    (forall k d, Signed k d ∉ tr).
Proof.
  apply (two_factor_login demo_check (fun _ => Ok tt) demo_validate demo_code demo_ecMarshal demo_ecUnmarshal (fun _ _ _ _ => None)
      (fun _ _ _ _ _ _ _ => false) (fun _ _ _ _ _ _ => false) demo_ed_verify demo_encode demo_encode (fun _ => true)
      demo_cfg "10.0.0.1:9999" "session" demo_show demo_range (fun _ => 2000) (fun _ => 0)
      "bob" demo_user demo_signer KeyAlgoED25519 "bob@b" demo_line "beer" "otpauth://totp/bob" (TOTPorig demo_user) (fun _ => "123456") demo_host).
  14: { intros i. split; [reflexivity|]. split; [split; reflexivity|intros n; reflexivity]. }
  all: try (vm_compute; reflexivity).
  all: try discriminate.
  all: try exact I.
  - split; [reflexivity|split; reflexivity].
  - split; [vm_compute; reflexivity|intros _; reflexivity].
Defined.
