(* ===== verification/Connect.v ===== *)
(** The program's two ends together: sshego's client, configured as [SSHConnect] does, with a
    server that is set up and asks for all factors as sshego's does. *)
From S2P Require Import Prelude.
From S2P Require Import GoStrings.
From S2P Require Import Wire.
From S2P Require Import UserDb.
From S2P Require Import Auth.
From S2P Require Import Keys.
From S2P Require Import AuthorizedKeys.
From S2P Require Import Negotiate.
From S2P Require Import Transport.
From S2P Require Import Kex.
From S2P Require Import ServerSetup.
From S2P Require Import Login.
From S2P Require Import ClientAuth.
From S2P Require Import ClientConn.
From S2P Require Import Conversation.

(** ** The first exchange with an honest server *)

Lemma read_frame first p t t' i : readOnePacket first p t = (t', i) ->
  sentInit t' = sentInit t /\ isServer t' = isServer t /\ Kex.clientVersion t' = Kex.clientVersion t /\ Kex.serverVersion t' = Kex.serverVersion t /\
  writeError t' = writeError t /\ mu t' = mu t /\ sessionID t' = sessionID t.
Proof. unfold readOnePacket, requestKeyExchange. repeat case_match; intros [= <- _]; by split_and!. Qed.

Definition newkeys : string := String (byte 21) "".

(** A new transport of a client. *)
Record fresh (t : handshakeTransport) : Prop := mkFresh {
  fr_role : isServer t = false;
  fr_init : sentInit t = None;
  fr_error : writeError t = None;
  fr_mu : mu t = false;
  fr_session : sessionID t = None;
}.

Section Honest.
Context (cb : PublicKey -> outcome unit) (s : peer) (t : handshakeTransport) (other : kexInit) (a : algorithms) (result : kexResult) (sent : list string).
Abbreviation own := (own_init (cookie s) t).
Abbreviation packet_of := (fun m => Marshal kexInitMsg (init_values m)).
Hypothesis Hfresh : fresh t.
Hypothesis Hpush : forall p, pushes s p = None.
Hypothesis Hfirst : first_packet s = Ok (packet_of other).
Hypothesis Htyped : typed_msg kexInitMsg (init_values other).
Hypothesis Hguess : FirstKexFollows other = false.
Hypothesis Hagree : findAgreedAlgorithms own other = Ok a.
Hypothesis Hkex : offers supportedKexAlgos (kex a) = true.
Hypothesis Hclient : Kex.client (with_callback cb (crypto s)) a (mkMagics (Kex.clientVersion t) (Kex.serverVersion t) (packet_of own) (packet_of other)) = (sent, Ok result).
Hypothesis Hciphers : forall b d, Kex.newPacketCipher _ (crypto s) b d = Ok tt.
Hypothesis Hanswer : Kex.answer _ (crypto s) = Ok newkeys.

Lemma honest_switch t2 : switch_keys (pushes s) (with_callback cb (crypto s)) a t2 = ([newkeys], Ok tt).
Proof.
  unfold switch_keys, prepareKeyChange. cbn [with_callback Kex.newPacketCipher]. rewrite !Hciphers. cbn [obind]. rewrite Hpush.
  cbn [with_callback Kex.answer]. rewrite Hanswer. reflexivity.
Qed.

Lemma honest_enter t2 : sentInit t2 = Some (own, packet_of own) -> isServer t2 = false -> sessionID t2 = None ->
  Kex.clientVersion t2 = Kex.clientVersion t -> Kex.serverVersion t2 = Kex.serverVersion t ->
  exists t3 sent3, enterKeyExchange (pushes s) (with_callback cb (crypto s)) (packet_of other) t2 = (t3, sent3, Ok tt) /\ mu t3 = mu t2 /\ sessionID t3 = Some (H_ result).
Proof.
  intros Hi Hs Hid Hcv Hsv. unfold enterKeyExchange, kex_inputs. rewrite Unmarshal_Marshal by done. cbn [obind]. rewrite init_of_init_values, Hi, Hs, Hagree.
  unfold choose_kex, guessed_wrong. rewrite Hguess. cbn [obind]. rewrite Hkex.
  change (isServer (set_agreed (Some a) t2)) with (isServer t2). rewrite Hs, Hcv, Hsv, Hclient. rewrite honest_switch.
  do 2 eexists. split; [reflexivity|]. split; [done|]. cbn. by rewrite Hid.
Qed.

Lemma honest_finish t3 : mu t3 = false -> exists t4 sent4, finish_kex (pushes s) false None t3 = Ok (t4, sent4) /\ sessionID t4 = sessionID t3.
Proof.
  intros Hm. unfold finish_kex. rewrite Hm. destruct (push_all _ _ _). do 2 eexists. split; [reflexivity|done].
Qed.

Lemma honest_exchange_ends : exists t', first_exchange cb s t = (t', Ok newkeys) /\ sessionID t' = Some (H_ result).
Proof.
  destruct Hfresh as [Hs Hi He Hm Hid]. unfold first_exchange, sendKexInit. rewrite Hm, Hi, Hpush, Hfirst. cbv beta iota zeta.
  set (t1 := set_sentInit (Some (own, packet_of own)) t).
  assert (recordWriteError None t1 = t1) as -> by (unfold recordWriteError; by destruct (writeError t1)).
  destruct (readOnePacket true (packet_of other) t1) as [t2 i] eqn:Er. destruct (read_frame _ _ _ _ _ Er) as (F1 & F2 & F3 & F4 & F5 & F6 & F7).
  destruct (read_first _ _ _ _ Er) as [->|[e ->]]; [|].
  - rewrite F5. change (writeError t1) with (writeError t). rewrite He.
    destruct (honest_enter t2) as (t3 & sent3 & -> & Hm3 & Hid3); [done|by rewrite F2|by rewrite F7|by rewrite F3|by rewrite F4|].
    destruct (honest_finish t3) as (t4 & sent4 & -> & Hid4); [by rewrite Hm3, F6|]. eexists. split; [reflexivity|].
    change (sessionID (resetReadThresholds t4)) with (sessionID t4). by rewrite Hid4.
  - exfalso. revert Er. unfold readOnePacket. rewrite (Marshal_eq kexInitMsg (init_values other) 20 []) by done.
    change (Kex.first_byte (String (byte 20) ?x) =? 20) with true. repeat case_match; discriminate.
Qed.
End Honest.

(** ** sshego's ends *)

Definition server_version : string := "SSH-2.0-OpenSSH_6.9".
Definition server_transport (ty : string) : handshakeTransport := newServerTransport (SetDefaults SetTripleConfig) packageVersion server_version [ty].
Definition client_transport : handshakeTransport := newClientTransport (SetDefaults cliCfg) packageVersion server_version None.
(** The first message of the server with a host key of type [ty]. *)
Definition server_init (cookie ty : string) : kexInit := own_init cookie (server_transport ty).

Lemma server_init_typed cookie ty : String.length cookie = 16%nat -> ty ∈ supportedHostKeyAlgos -> typed_msg kexInitMsg (init_values (server_init cookie ty)).
Proof.
  intros Hc H. do 16 (destruct cookie as [|? cookie]; [discriminate Hc|]). destruct cookie; [|discriminate Hc]. clear Hc.
  unfold supportedHostKeyAlgos in H. repeat (apply elem_of_cons in H as [->|H]; [|]); [..|by apply elem_of_nil in H].
  all: (split; [|vm_compute; reflexivity]); repeat (apply Forall2_cons; split); try (apply Forall2_nil; exact I); try exact I; try (vm_compute; reflexivity).
  all: try (vm_compute; split; congruence).
  all: (split; [vm_compute; congruence|]); vm_compute; repeat constructor.
Qed.

Section Connect.
Context (compare_hash : string -> string -> bool)
        (key_from_url : string -> outcome unit)
        (totp_validate : string -> string -> Z -> bool)
        (GenerateCode : string -> Z -> outcome string).
Context (ecMarshal : Z -> Z -> Z -> string) (ecUnmarshal : Z -> string -> option (Z * Z)).
Context (rsa_verify : Z -> Z -> string -> string -> error_)
        (dsa_verify : Z -> Z -> Z -> Z -> string -> Z -> Z -> bool)
        (ecdsa_verify : Z -> Z -> Z -> string -> Z -> Z -> bool)
        (ed25519_equation : string -> string -> string -> bool).
Context (encode_db encode_json : HostDbPersist -> string) (can_write : string -> bool).
Context (cfg : HostCfg).
Context (remoteAddr : string) (show_time : Z -> string).
Context (range : gset string -> list string).
(** The clocks of the server and of the client. *)
Context (server_clock : nat -> Z) (client_clock : instant -> Z).

(** What SSHConnect configures, with the callback of [KnownHosts] or another. *)
Definition ssh_config (user : string) (methods : list AuthMethod) (cb : HostKeyCallback) : ClientConfig :=
  mkClientConfig cliCfg true user methods (Some cb) "" None.

(** sshego's server as the client meets it: its version, its first message, the exchange and
    the packets of the login. *)
Definition ssh_server (cookie cookie' ty : string) (x : exchange PublicKey) (packets : list string) : peer :=
  mkPeer (server_version +:+ String "013" (String "010" "")) None false (fun _ => None) cookie
    (Ok (Marshal kexInitMsg (init_values (server_init cookie' ty)))) x packets.

(** What both ends hash of what they sent in the clear, and the algorithms they agree on. *)
Definition ssh_magics (cookie cookie' ty : string) : handshakeMagics :=
  mkMagics packageVersion server_version (Marshal kexInitMsg (init_values (own_init cookie client_transport)))
    (Marshal kexInitMsg (init_values (server_init cookie' ty))).
Definition ssh_algorithms (ty : string) : algorithms :=
  let d := mkDir gcmCipherID "hmac-sha2-256-etm@openssh.com" "none" in mkAlgs kexAlgoCurve25519SHA256 ty d d.

Lemma ssh_first_exchange cb cookie cookie' ty x packets sent result :
  String.length cookie' = 16%nat -> ty ∈ supportedHostKeyAlgos ->
  Kex.client (with_callback cb x) (ssh_algorithms ty) (ssh_magics cookie cookie' ty) = (sent, Ok result) ->
  (forall b d, Kex.newPacketCipher _ x b d = Ok tt) -> Kex.answer _ x = Ok newkeys ->
  exists t', first_exchange cb (ssh_server cookie cookie' ty x packets) client_transport = (t', Ok newkeys) /\ sessionID t' = Some (H_ result).
Proof.
  intros Hc Hty Hk Hci Ha.
  apply (honest_exchange_ends cb (ssh_server cookie cookie' ty x packets) client_transport (server_init cookie' ty) (ssh_algorithms ty) result sent); try done.
  - by apply server_init_typed.
  - by apply sshego_ends_agree.
Qed.

(** C3: The program connects. sshego's client, configured as SSHConnect does with the key on
    file, the passphrase and the one-time codes, meets sshego's server that asks for all of
    them and has a host key of any type. When the exchange on Curve25519 that both agree on
    gives a result which the client's callback accepts, NewClientConn ends with a connection:
    the server's login, for the session that the exchange names, accepts the user on what the
    client sends, and writes what the client reads. *)
Theorem sshego_connects addr remote cb cookie cookie' ty x sent_kex result user u signer algo email line pass toptUrl url code h :
  String.length cookie' = 16%nat -> ty ∈ supportedHostKeyAlgos ->
  Kex.client (with_callback (cb addr remote) x) (ssh_algorithms ty) (ssh_magics cookie cookie' ty) = (sent_kex, Ok result) ->
  (forall b d, Kex.newPacketCipher _ x b d = Ok tt) -> Kex.answer _ x = Ok newkeys ->
  two_factor cfg -> loginRE user = true -> AtomicUserMap.Get2 (Users (Persist h)) user = Some u ->
  wf_key ecMarshal ecUnmarshal (PublicKey_of signer) -> Type_ (PublicKey_of signer) = Ok algo -> isAcceptableAlgo algo = true ->
  comment_ok email = true -> public_file ecMarshal (PublicKey_of signer) email = Ok line -> files h !! PublicKeyPath u = Some line ->
  small_request user algo (keyBytes ecMarshal (PublicKey_of signer)) None ->
  restorable key_from_url u url -> MatchingHashAndPw compare_hash u pass = true -> toptUrl <> "" ->
  (forall i, answer_question key_from_url GenerateCode pass toptUrl (client_clock i) gauthChallenge = Ok (code i) /\
             0 < slen (code i) < 2 ^ 30 /\ forall n, totp_validate (code i) url (server_clock n) = true) ->
  slen user < 2 ^ 30 -> slen pass < 2 ^ 30 -> slen (last_login show_time u) < 2 ^ 30 ->
  exists packets tr h' c,
    NewClientConn ecMarshal (fun _ _ => None) range addr remote
      (ssh_config user (client_methods key_from_url GenerateCode client_clock (Some signer) pass toptUrl) cb) (ssh_server cookie cookie' ty x packets) =
      (Ok c, false, tr) /\
    c_user c = user /\ c_sessionID c = H_ result /\ c_serverVersion c = server_version /\
    serverHandshake compare_hash key_from_url totp_validate ecMarshal ecUnmarshal rsa_verify dsa_verify ecdsa_verify ed25519_equation
      encode_db encode_json can_write cfg remoteAddr (H_ result) show_time (fun _ _ => None) server_clock (ClientAuth.sent tr) h = (mkAttempt true true, h', Ok user, packets).
Proof.
  intros Hc Hty Hk Hci Han H2 HL HU Hw Ht Ha Hcm Hf Hp Hs Hr Hpw Hurl Hcode Hu Hpass Hlast.
  destruct (two_factor_run compare_hash key_from_url totp_validate GenerateCode ecMarshal ecUnmarshal rsa_verify dsa_verify ecdsa_verify ed25519_equation
    encode_db encode_json can_write cfg remoteAddr (H_ result) show_time range server_clock client_clock user u signer algo email line pass toptUrl url code h
    H2 HL HU Hw Ht Ha Hcm Hf Hp Hs Hr Hpw Hurl Hcode Hu Hpass Hlast) as (packets & tr & h' & Hrun & Hserve & _).
  destruct (ssh_first_exchange (cb addr remote) cookie cookie' ty x packets sent_kex result Hc Hty Hk Hci Han) as (t' & Ex & Hid).
  exists packets, tr, h'. eexists. split; [|split; [|split; [|split; [|exact Hserve]]]].
  - set (p := ssh_server cookie cookie' ty x packets) in *.
    assert (exchangeVersions packageVersion (stream_ p) (write_version p) = (packageVersion +:+ String "013" nl, "", Ok server_version)) as Ev by (vm_compute; reflexivity).
    unfold NewClientConn. cbn [with_defaults ssh_config HostKeyCallback_ Halt negb]. unfold clientHandshake. cbn [with_defaults ssh_config ClientVersion Config_ HostKeyAlgorithms User Auth_].
    change (if ("" =? "")%string then packageVersion else "") with packageVersion. rewrite Ev. cbv iota beta. change (stopped p) with false. cbv iota zeta. fold client_transport.
    rewrite Ex. change (waitSession (Ok newkeys)) with (Ok tt : outcome unit). cbv iota beta. rewrite Hid. cbn [default id]. change (login p) with packets. rewrite Hrun. cbn [obind trace]. reflexivity.
  - done.
  - done.
  - done.
Qed.
End Connect.

(** ** A concrete connection *)

Definition demo_crypto : exchange PublicKey := crypto (demo_peer demo_key).
Definition demo_result : kexResult := mkResult "hash" "host key" (appendString (appendString "" "fmt") "sig").

Lemma sshego_connects_witness :
  exists packets tr h' c,
    NewClientConn demo_ecMarshal (fun _ _ => None) demo_range "host:22" "10.0.0.1:22"
      (ssh_config "bob" (client_methods (fun _ => Ok tt) demo_code (fun _ => 0) (Some demo_signer) "beer" "otpauth://totp/bob") demo_callback)
      (ssh_server demo_cookie demo_cookie "ssh-ed25519" demo_crypto packets) = (Ok c, false, tr) /\
    c_user c = "bob" /\ c_sessionID c = H_ demo_result /\ c_serverVersion c = server_version /\
    serverHandshake demo_check (fun _ => Ok tt) demo_validate demo_ecMarshal demo_ecUnmarshal (fun _ _ _ _ => None)
      (fun _ _ _ _ _ _ _ => false) (fun _ _ _ _ _ _ => false) demo_ed_verify demo_encode demo_encode (fun _ => true)
      demo_cfg "10.0.0.1:9999" (H_ demo_result) demo_show (fun _ _ => None) (fun _ => 2000) (ClientAuth.sent tr) demo_host =
      (mkAttempt true true, h', Ok "bob", packets).
Proof.
  apply (sshego_connects demo_check (fun _ => Ok tt) demo_validate demo_code demo_ecMarshal demo_ecUnmarshal (fun _ _ _ _ => None)
      (fun _ _ _ _ _ _ _ => false) (fun _ _ _ _ _ _ => false) demo_ed_verify demo_encode demo_encode (fun _ => true)
      demo_cfg "10.0.0.1:9999" demo_show demo_range (fun _ => 2000) (fun _ => 0)
      "host:22" "10.0.0.1:22" demo_callback demo_cookie demo_cookie "ssh-ed25519" demo_crypto [] demo_result
      "bob" demo_user demo_signer KeyAlgoED25519 "bob@b" demo_line "beer" "otpauth://totp/bob" (TOTPorig demo_user) (fun _ => "123456") demo_host).
  19: { intros i. split; [reflexivity|]. split; [split; reflexivity|intros n; reflexivity]. }
  2: { unfold supportedHostKeyAlgos. set_solver. }
  4: { reflexivity. }
  3: { intros b d. reflexivity. }
  all: try (vm_compute; reflexivity).
  all: try discriminate.
  all: try exact I.
  - split; [reflexivity|split; reflexivity].
  - split; [vm_compute; reflexivity|intros _; reflexivity].
Defined.
