(* ===== verification/Esshd.v ===== *)
(** The server as a whole (server.go: [Esshd.Start], [CommandRecv.Start],
    [PerConnection], [Stop]; listen.go: [Listen] and [Accept]): the goroutine that
    accepts connections, logs clients in one after the other and carries out the
    commands, and the goroutine that receives commands, which meet in Go channels
    without a buffer. *)
From S2P Require Import Prelude.
From S2P Require Import GoStrings.
From S2P Require Import Config.
From S2P Require Import Wire.
From S2P Require Import UserDb.
From S2P Require Import UserMgt.
From S2P Require Import Auth.
From S2P Require Import Keys.
From S2P Require Import AuthorizedKeys.
From S2P Require Import Login.
From S2P Require Import Conversation.
Import AtomicUserMap.

(** ** What the accept loop needs of a login *)

Definition is_user (l : string) (h : HostDb) : Prop := is_Some (Get2 (Users (Persist h)) l).

(** [PerConnection] on a connection: the database afterwards, and the user that is
    logged in. It adds and removes no user. *)
Class Logins (Conn : Type) := {
  per_connection : Conn -> HostDb -> HostDb * outcome string;
  per_connection_users : forall c h l, is_user l (per_connection c h).1 <-> is_user l h;
}.

(** ** The goroutines *)

(** Where the accept loop is: accepting, in a handshake that does not end, sending
    the reply to a command, returned. *)
Inductive server_state := Accepting | Handshaking | ReplyUser (u : User) | ReplyDone (ok : bool) | Gone.

(** Where the receiver of commands is: accepting, sending the request of the
    connection [id], waiting for the reply to it, returned. *)
Inductive receiver_state := Idle | Requesting (id : nat) (cmd : command) | Waiting (id : nat) (cmd : command) | Exited.

Section Server.
Context {Conn : Type} `{Logins Conn} {Signer : Type}.
Context (scrypt_hash : string -> string) (new_totp : string -> string -> outcome (string * string))
        (gen_rsa : Z -> string -> outcome (string * string)).
Context (encode_db encode_json : HostDbPersist -> string).
Context (MarshalMsg : User -> string) (UnmarshalMsg : string -> outcome User) (can_write can_remove : string -> bool).
Context (cfg : HostCfg).

Abbreviation serve_add := (serve_add scrypt_hash new_totp gen_rsa encode_db encode_json can_write cfg).
Abbreviation serve_del := (serve_del encode_db encode_json can_write can_remove cfg).
Abbreviation read_command := (read_command UnmarshalMsg).

(** The accept loop's own state, and the clients that it serves, by user. *)
Record Esshd := mkEsshd { db : HostDb; HostKey : Signer; srv : server_state; logins : list (Conn * string) }.

(** What the select finds when no connection came for a second. *)
Inductive pending := ReqStop | AddUserToDatabase (u : User) | DelUserReq (u : User) | UpdateHostKey (k : Signer) | Nothing.

Definition poll (p : pending) (e : Esshd) : outcome Esshd :=
  match p with
  | ReqStop => Ok (mkEsshd (db e) (HostKey e) Gone (logins e))
  | AddUserToDatabase u => let? '(h, u) := serve_add u (db e) in Ok (mkEsshd h (HostKey e) (ReplyUser u) (logins e))
  | DelUserReq u => let? '(h, ok) := serve_del u (db e) in Ok (mkEsshd h (HostKey e) (ReplyDone ok) (logins e))
  | UpdateHostKey k => Ok (mkEsshd (db e) k (srv e) (logins e))
  | Nothing => Ok e
  end.

(** A connection that was accepted. The error of [PerConnection] is not looked at. *)
Definition connect (c : Conn) (e : Esshd) : outcome Esshd :=
  let '(h, r) := per_connection c (db e) in
  match r with
  | Ok u => Ok (mkEsshd h (HostKey e) (srv e) (logins e ++ [(c, u)]))
  | Err _ => Ok (mkEsshd h (HostKey e) (srv e) (logins e))
  | Panic s => Panic s
  | Blocked => Ok (mkEsshd h (HostKey e) Handshaking (logins e))
  end.

(** *** Both goroutines *)

(** A command that was carried out, and what is to be written to its connection. *)
Record answered := mkAnswered { a_id : nat; a_cmd : command; a_reply : string }.

(** [stop]: the halter was told to stop; [arrived]: the connections to the command
    port so far; [carried]: the commands carried out; [replies]: what was written
    to which connection. *)
Record system := mkSystem {
  esshd : Esshd;
  rcv : receiver_state;
  stop : bool;
  arrived : nat;
  carried : list answered;
  replies : list (nat * string);
}.

Definition set_esshd (e : Esshd) (s : system) : system := mkSystem e (rcv s) (stop s) (arrived s) (carried s) (replies s).
Definition set_rcv (r : receiver_state) (s : system) : system := mkSystem (esshd s) r (stop s) (arrived s) (carried s) (replies s).

Definition reply_add (u : User) : string := NewUserReply +:+ MarshalMsg u.
Definition reply_del (ok : bool) : string := if ok then DelUserReplyOK else DelUserReplyFailed.

(** A reply goes to the connection that waits; the accept loop goes on. *)
Definition deliver_reply (id : nat) (text : string) (s : system) : system :=
  let e := esshd s in
  mkSystem (mkEsshd (db e) (HostKey e) Accepting (logins e)) Idle (stop s) (arrived s) (carried s) (replies s ++ [(id, text)]).

Inductive sys_step : system -> system -> Prop :=
(** A connection to the command port: a command, or something that is not one. *)
| step_command s n stream cmd :
    rcv s = Idle -> read_command n stream = Some cmd ->
    sys_step s (mkSystem (esshd s) (Requesting (arrived s) cmd) (stop s) (S (arrived s)) (carried s) (replies s))
| step_no_command s n stream :
    rcv s = Idle -> read_command n stream = None ->
    sys_step s (mkSystem (esshd s) Idle (stop s) (S (arrived s)) (carried s) (replies s))
(** The request meets the select of the accept loop. *)
| step_add s id u e u' :
    rcv s = Requesting id (CmdAdd u) -> srv (esshd s) = Accepting ->
    poll (AddUserToDatabase u) (esshd s) = Ok e -> srv e = ReplyUser u' ->
    sys_step s (mkSystem e (Waiting id (CmdAdd u)) (stop s) (arrived s) (carried s ++ [mkAnswered id (CmdAdd u) (reply_add u')]) (replies s))
| step_del s id u e ok :
    rcv s = Requesting id (CmdDel u) -> srv (esshd s) = Accepting ->
    poll (DelUserReq u) (esshd s) = Ok e -> srv e = ReplyDone ok ->
    sys_step s (mkSystem e (Waiting id (CmdDel u)) (stop s) (arrived s) (carried s ++ [mkAnswered id (CmdDel u) (reply_del ok)]) (replies s))
(** After ten seconds the receiver goes on to wait for the reply. *)
| step_undelivered s id cmd : rcv s = Requesting id cmd -> sys_step s (set_rcv (Waiting id cmd) s)
(** The reply meets the receiver, which waits for the Go channel of its command. *)
| step_reply_add s id u u' :
    rcv s = Waiting id (CmdAdd u) -> srv (esshd s) = ReplyUser u' -> sys_step s (deliver_reply id (reply_add u') s)
| step_reply_del s id u ok :
    rcv s = Waiting id (CmdDel u) -> srv (esshd s) = ReplyDone ok -> sys_step s (deliver_reply id (reply_del ok) s)
(** A client connects; another host key is set. *)
| step_connect s c e : srv (esshd s) = Accepting -> connect c (esshd s) = Ok e -> sys_step s (set_esshd e s)
| step_host_key s k e : srv (esshd s) = Accepting -> poll (UpdateHostKey k) (esshd s) = Ok e -> sys_step s (set_esshd e s)
(** [Stop]: both goroutines return where they look at it. *)
| step_stop s : sys_step s (mkSystem (esshd s) (rcv s) true (arrived s) (carried s) (replies s))
| step_gone s e :
    stop s = true -> srv (esshd s) <> Handshaking -> srv (esshd s) <> Gone -> poll ReqStop (esshd s) = Ok e -> sys_step s (set_esshd e s)
| step_exit s : srv (esshd s) = Gone -> sys_step s (set_rcv Exited s).

Definition started (h : HostDb) (k : Signer) : system := mkSystem (mkEsshd h k Accepting []) Idle false 0 [] [].

(** ** What the users are, and who gets which reply *)

(** A name is one of a user after some commands. *)
Fixpoint user_after (cmds : list command) (l : string) (first : Prop) : Prop :=
  match cmds with
  | [] => first
  | CmdAdd u :: cmds => user_after cmds l (l = MyLogin u \/ first)
  | CmdDel u :: cmds => user_after cmds l (first /\ ~ (l = MyLogin u /\ loginRE l = true))
  end.

(** The reply that is under way. *)
Definition under_way (s : system) : list (nat * string) :=
  match rcv s, srv (esshd s) with
  | Waiting id (CmdAdd _), ReplyUser u => [(id, reply_add u)]
  | Waiting id (CmdDel _), ReplyDone ok => [(id, reply_del ok)]
  | _, _ => []
  end.

(** What the accept loop is to send, someone waits for, unless both are stopped. *)
Definition meets (s : system) : Prop :=
  match srv (esshd s) with
  | ReplyUser _ => exists id u, rcv s = Waiting id (CmdAdd u)
  | ReplyDone _ => exists id u, rcv s = Waiting id (CmdDel u)
  | _ => True
  end.

Record inv (h0 : HostDb) (s : system) : Prop := mkInv {
  inv_users : forall l, is_user l (db (esshd s)) <-> user_after (map a_cmd (carried s)) l (is_user l h0);
  inv_meets : meets s;
  inv_replies : exists lost, map (fun a => (a_id a, a_reply a)) (carried s) = replies s ++ under_way s ++ lost /\
    (srv (esshd s) <> Gone -> lost = []);
}.

Lemma user_after_iff cmds l (P Q : Prop) : P <-> Q -> user_after cmds l P <-> user_after cmds l Q.
Proof. revert P Q. induction cmds as [|[u|u] cmds IH]; intros P Q HPQ; cbn [user_after]; [done|apply IH; tauto..]. Qed.

Lemma user_after_app a b l P : user_after (a ++ b) l P = user_after b l (user_after a l P).
Proof. revert P. induction a as [|[u|u] a IH]; intros P; cbn [user_after app]; done. Qed.

Lemma serve_add_users u h h' u' l : serve_add u h = Ok (h', u') -> is_user l h' <-> l = MyLogin u \/ is_user l h.
Proof.
  unfold UserMgt.serve_add. intros H1. apply obind_ok in H1 as ([h1 r] & (v & _ & _ & _ & Hk)%finish_users & H1).
  apply obind_ok in H1 as (_ & _ & H1). destruct (Get2 (Users (Persist h1)) (MyLogin u)); [|done]. injection H1 as <- <-.
  unfold is_user. rewrite Hk. case_decide as E; [subst l; by split; [left|]|]. split; [by right|by intros [->|]].
Qed.

Lemma serve_del_users u h h' ok l : serve_del u h = Ok (h', ok) -> is_user l h' <-> is_user l h /\ ~ (l = MyLogin u /\ loginRE l = true).
Proof.
  unfold UserMgt.serve_del. intros H1. assert (h' = (DelUser encode_db encode_json can_write can_remove cfg (MyLogin u) h).1) as ->.
  { destruct (DelUser _ _ _ _ _ _ h) as [h1 r]. by destruct r; try done; injection H1 as <- _. }
  clear H1. unfold is_user. destruct (loginRE (MyLogin u)) eqn:HL.
  - destruct (Get2 (Users (Persist h)) (MyLogin u)) as [v|] eqn:HG.
    + rewrite (del_users encode_db encode_json can_write cfg can_remove _ h v HL HG), Get2_Del.
      case_decide as E; [subst l; split; [by intros [? ?]|tauto]|]. split; [intros Hu; split; [exact Hu|by intros [-> _]]|by intros [Hu _]].
    + unfold DelUser, ValidLogin. rewrite HL, HG. cbn [fst]. split; [|tauto]. intros Hu. split; [done|]. intros [-> _]. rewrite HG in Hu. by destruct Hu.
  - unfold DelUser, ValidLogin. rewrite HL. cbn [fst]. split; [|tauto]. intros Hu. split; [done|]. intros [-> HL2]. congruence.
Qed.

Lemma connect_users c e e' l : connect c e = Ok e' -> is_user l (db e') <-> is_user l (db e).
Proof.
  unfold connect. pose proof (per_connection_users c (db e) l) as HP. destruct (per_connection c (db e)) as [h r]. cbn [fst] in HP.
  intros H1. destruct r; try done; by injection H1 as <-.
Qed.

Lemma connect_state c e e' : connect c e = Ok e' -> srv e = Accepting -> srv e' = Accepting \/ srv e' = Handshaking.
Proof. unfold connect. destruct (per_connection c (db e)) as [h r]. intros H1 H2. destruct r; try done; injection H1 as <-; cbn [srv]; rewrite ?H2; auto. Qed.

Lemma inv_started h k : inv h (started h k).
Proof. split; [done|done|]. by exists []. Qed.

Lemma under_way_none s : srv (esshd s) = Accepting \/ srv (esshd s) = Handshaking \/ srv (esshd s) = Gone -> under_way s = [].
Proof. unfold under_way. intros [-> | [-> | ->]]; destruct (rcv s) as [| |id [u|u]|]; done. Qed.

(** A step that carries out nothing, with the goroutines where no reply is due. *)
Lemma inv_quiet h0 s s' :
  inv h0 s -> carried s' = carried s -> replies s' = replies s ->
  (forall l, is_user l (db (esshd s')) <-> is_user l (db (esshd s))) ->
  (srv (esshd s') = Accepting \/ srv (esshd s') = Handshaking \/ srv (esshd s') = Gone) ->
  (srv (esshd s') <> Gone -> srv (esshd s) = Accepting) -> inv h0 s'.
Proof.
  intros [I1 I2 (lost & I3 & I4)] Hc Hr Hu Hs Hg. split.
  - intros l. rewrite Hc, Hu. apply I1.
  - unfold meets. by destruct Hs as [-> | [-> | ->]].
  - rewrite Hc, Hr, (under_way_none s') by done. exists (under_way s ++ lost). split; [done|].
    intros Hn. specialize (Hg Hn). rewrite (under_way_none s), I4 by (rewrite ?Hg; auto). done.
Qed.

(** The receiver moves on while nothing is due to it. *)
Lemma inv_receiver h0 s s' :
  inv h0 s -> match rcv s with Waiting _ _ => False | _ => True end -> esshd s' = esshd s -> carried s' = carried s -> replies s' = replies s -> inv h0 s'.
Proof.
  intros [I1 I2 (lost & I3 & I4)] Hw He Hc Hr.
  assert (srv (esshd s) = Accepting \/ srv (esshd s) = Handshaking \/ srv (esshd s) = Gone) as Hs.
  { unfold meets in I2. destruct (srv (esshd s)); auto; destruct I2 as (i & v & I2); by rewrite I2 in Hw. }
  split.
  - intros l. rewrite He, Hc. apply I1.
  - unfold meets. rewrite He. by destruct Hs as [-> | [-> | ->]].
  - exists lost. rewrite He, Hc, Hr, (under_way_none s') by by rewrite He. split; [|exact I4]. by rewrite (under_way_none s) in I3.
Qed.

Lemma step_carries h0 s id cmd e text :
  inv h0 s -> srv (esshd s) = Accepting ->
  (forall l, is_user l (db e) <-> user_after [cmd] l (is_user l (db (esshd s)))) ->
  let s' := mkSystem e (Waiting id cmd) (stop s) (arrived s) (carried s ++ [mkAnswered id cmd text]) (replies s) in
  meets s' -> under_way s' = [(id, text)] -> inv h0 s'.
Proof.
  intros [I1 I2 (lost & I3 & I4)] Ha Hu s' Hm Hw. split; [|done|].
  - intros l. cbn [esshd carried s']. rewrite map_app, user_after_app, Hu. cbn [map a_cmd].
    by apply (user_after_iff [cmd]).
  - exists []. split; [|done]. rewrite Hw. cbn [carried replies s']. rewrite map_app, I3, (under_way_none s), I4 by (rewrite ?Ha; auto).
    by rewrite !app_nil_r.
Qed.

Lemma inv_sys_step h0 s s' : sys_step s s' -> inv h0 s -> inv h0 s'.
Proof.
  intros HS I. destruct HS as [s n stream cmd Hr Hc|s n stream Hr Hc|s id u e u' Hr Ha Hp He|s id u e ok Hr Ha Hp He|s id cmd Hr
    |s id u u' Hr He|s id u ok Hr He|s c e Ha Hc|s k e Ha Hp|s|s e Hst Hn1 Hn2 Hp|s Hg].
  - apply (inv_receiver h0 s); try done. by rewrite Hr.
  - apply (inv_receiver h0 s); try done. by rewrite Hr.
  - cbn [poll] in Hp. apply obind_ok in Hp as ([h v] & Hv & [= <-]). cbn [srv] in He. injection He as ->.
    apply (step_carries h0 s id (CmdAdd u)); [done..| | |done].
    + intros l. cbn [db user_after]. by apply (serve_add_users u _ _ u').
    + by exists id, u.
  - cbn [poll] in Hp. apply obind_ok in Hp as ([h v] & Hv & [= <-]). cbn [srv] in He. injection He as ->.
    apply (step_carries h0 s id (CmdDel u)); [done..| | |done].
    + intros l. cbn [db user_after]. by apply (serve_del_users u _ _ ok).
    + by exists id, u.
  - apply (inv_receiver h0 s); try done. by rewrite Hr.
  - destruct I as [I1 I2 (lost & I3 & I4)]. split; [exact I1|done|]. exists lost. unfold under_way in *. rewrite Hr, He in I3. cbn [rcv deliver_reply replies carried].
    rewrite <- app_assoc. split; [exact I3|]. intros _. apply I4. by rewrite He.
  - destruct I as [I1 I2 (lost & I3 & I4)]. split; [exact I1|done|]. exists lost. unfold under_way in *. rewrite Hr, He in I3. cbn [rcv deliver_reply replies carried].
    rewrite <- app_assoc. split; [exact I3|]. intros _. apply I4. by rewrite He.
  - apply (inv_quiet h0 s); try done.
    + intros l. by apply (connect_users c).
    + destruct (connect_state c (esshd s) e Hc Ha); auto.
  - injection Hp as <-. apply (inv_quiet h0 s); try done. by left.
  - destruct I as [I1 I2 I3]. by split.
  - injection Hp as <-. apply (inv_quiet h0 s); try done. by right; right.
  - apply (inv_quiet h0 s); try done. by right; right.
Qed.

(** A connection to the command port is served once. *)
Record one_each (s : system) : Prop := mkOneEach {
  one_nodup : NoDup (map a_id (carried s));
  one_past : Forall (fun a => (a_id a < arrived s)%nat) (carried s);
  one_new : forall id cmd, rcv s = Requesting id cmd -> (id < arrived s)%nat /\ id ∉ map a_id (carried s);
}.

Lemma one_each_carry s e id cmd cmd' text :
  one_each s -> rcv s = Requesting id cmd ->
  one_each (mkSystem e (Waiting id cmd') (stop s) (arrived s) (carried s ++ [mkAnswered id cmd text]) (replies s)).
Proof.
  intros [O1 O2 O3] Hr. destruct (O3 _ _ Hr) as [Hid Hn]. split; cbn [carried arrived rcv]; [| |done].
  - rewrite map_app. apply NoDup_app. split_and!; [done| |apply NoDup_singleton]. intros x Hx ->%list_elem_of_singleton. done.
  - apply Forall_app. split; [done|]. by apply Forall_singleton.
Qed.

Lemma one_each_step s s' : one_each s -> sys_step s s' -> one_each s'.
Proof.
  intros HO HS. destruct HS; try (by eapply one_each_carry);
    destruct HO as [O1 O2 O3]; split; cbn [carried arrived rcv set_esshd set_rcv deliver_reply]; try done;
    try (eapply Forall_impl; [exact O2|]; simpl; lia).
  intros id cmd' [= <- <-]. split; [lia|]. intros ([i c t] & E & Hin)%list_elem_of_fmap.
  rewrite Forall_forall in O2. specialize (O2 _ Hin). simpl in *. lia.
Qed.


(** ** Where the server stands still *)

Lemma undelivered_step s s' id cmd :
  rcv s = Waiting id cmd \/ rcv s = Exited ->
  (forall u, srv (esshd s) <> ReplyUser u) -> (forall ok, srv (esshd s) <> ReplyDone ok) -> sys_step s s' ->
  (rcv s' = Waiting id cmd \/ rcv s' = Exited) /\
  (forall u, srv (esshd s') <> ReplyUser u) /\ (forall ok, srv (esshd s') <> ReplyDone ok) /\ carried s' = carried s /\ replies s' = replies s.
Proof.
  intros Hr Hu Hd HS. destruct HS as [s n stream c Hr' Hc|s n stream Hr' Hc|s i u e u' Hr' Ha Hp He|s i u e ok Hr' Ha Hp He|s i c Hr'
    |s i u u' Hr' He|s i u ok Hr' He|s c e Ha Hc|s k e Ha Hp|s|s e Hst Hn1 Hn2 Hp|s Hg];
    try (destruct Hr; congruence); try (by exfalso; eapply Hu); try (by exfalso; eapply Hd); cbn [rcv esshd carried replies set_esshd set_rcv].
  - destruct (connect_state c (esshd s) e Hc Ha) as [E|E]; rewrite E; done.
  - injection Hp as <-. cbn [srv]. done.
  - done.
  - injection Hp as <-. done.
  - split; [by right|done].
Qed.

(** A command that the accept loop did not take within ten seconds, because it was
    busy with a connection, leaves the receiver waiting for a reply that no one
    will send: no later command is carried out or answered. *)
Theorem undelivered_command_hangs s s' id cmd :
  rcv s = Waiting id cmd -> srv (esshd s) = Accepting \/ srv (esshd s) = Handshaking -> rtc sys_step s s' ->
  (rcv s' = Waiting id cmd \/ rcv s' = Exited) /\ carried s' = carried s /\ replies s' = replies s.
Proof.
  intros Hr Hs HS. assert ((rcv s' = Waiting id cmd \/ rcv s' = Exited) /\
    (forall u, srv (esshd s') <> ReplyUser u) /\ (forall ok, srv (esshd s') <> ReplyDone ok) /\ carried s' = carried s /\ replies s' = replies s) as (H1 & _ & _ & H2 & H3); [|done].
  apply (rtc_invariant sys_step (fun x => (rcv x = Waiting id cmd \/ rcv x = Exited) /\
    (forall u, srv (esshd x) <> ReplyUser u) /\ (forall ok, srv (esshd x) <> ReplyDone ok) /\ carried x = carried s /\ replies x = replies s) s s'); [|exact HS|].
  - intros a b (A1 & A2 & A3 & A4 & A5) Hab. destruct (undelivered_step a b id cmd A1 A2 A3 Hab) as (B1 & B2 & B3 & B4 & B5). split_and!; congruence || done.
  - split_and!; auto; destruct Hs as [-> | ->]; done.
Qed.

(** A client that connects and says nothing keeps the accept loop for ever: no one
    else is logged in, no command is carried out, and Stop is not noticed. *)
Theorem silent_client_blocks_server s s' :
  srv (esshd s) = Handshaking -> rtc sys_step s s' ->
  srv (esshd s') = Handshaking /\ logins (esshd s') = logins (esshd s) /\ carried s' = carried s.
Proof.
  intros Hs HS. apply (rtc_invariant sys_step (fun x => srv (esshd x) = Handshaking /\ logins (esshd x) = logins (esshd s) /\ carried x = carried s) s s'); [|exact HS|done].
  intros a b (A1 & A2 & A3) Hab.
  destruct Hab; cbn [esshd carried set_esshd set_rcv deliver_reply] in *; congruence || done.
Qed.
End Server.

(** ** A server as a net.Listener *)

Section Listener.
Context {Conn : Type} `{Logins Conn}.

Definition shutting_down : string := "shutting down".

(** What [Accept] meets: no connection for a second, with the halters told to stop or
    not; or a connection, and after its login the channel that its client opens to
    port 1, a stop, or nothing. *)
Inductive after_login := PortOneChannel (ch : nat) | Stopped | NothingMore.
Inductive attempt := NoConnection (stopped : bool) | Connection (c : Conn) (next : after_login).

Fixpoint BasicListener_Accept (l : list attempt) (h : HostDb) : HostDb * outcome nat :=
  match l with
  | [] => (h, Blocked)
  | NoConnection stopped :: l => if stopped : bool then (h, Err shutting_down) else BasicListener_Accept l h
  | Connection c next :: l =>
      let '(h, r) := per_connection c h in
      match r with
      | Ok _ =>
          match next with
          | PortOneChannel ch => (h, Ok ch)
          | Stopped => (h, Err shutting_down)
          | NothingMore => (h, Blocked)
          end
      | Err e => (h, Err e)
      | Panic s => (h, Panic s)
      | Blocked => (h, Blocked)
      end
  end.

(** A channel that Accept returns belongs to a client that is logged in; but the
    first client that fails to log in ends it with an error, and one that opens no
    channel to port 1 keeps it waiting. *)
Theorem basic_accept_spec l h :
  let '(h', r) := BasicListener_Accept l h in
  match r with
  | Ok ch => exists idle c u l', l = repeat (NoConnection false) idle ++ Connection c (PortOneChannel ch) :: l' /\ per_connection c h = (h', Ok u)
  | Err e => e = shutting_down \/ exists idle c next l', l = repeat (NoConnection false) idle ++ Connection c next :: l' /\ per_connection c h = (h', Err e)
  | _ => True
  end.
Proof.
  induction l as [|[stopped|c next] l IH]; [done| |].
  - cbn [BasicListener_Accept]. destruct stopped; [by left|]. destruct (BasicListener_Accept l h) as [h' [ch|e|t|]]; [| |done..].
    + destruct IH as (idle & c & u & l' & -> & Hc). by exists (S idle), c, u, l'.
    + destruct IH as [->|(idle & c & next & l' & -> & Hc)]; [by left|]. right. by exists (S idle), c, next, l'.
  - cbn [BasicListener_Accept]. destruct (per_connection c h) as [h' r] eqn:Hc. destruct r as [u|e|t|]; [|right; by exists 0%nat, c, next, l|done..].
    destruct next as [ch| |]; [by exists 0%nat, c, u, l|by left|done].
Qed.
End Listener.

(** *** Listening *)

(** The network and the address that net.Listen gets, in [Esshd.Start] too. *)
Definition listen_args (a : AddrHostPort) : string * string :=
  (if (UnixDomainPath a =? "")%string then "tcp" else "unix", Config.Addr a).

Definition BasicServer_Listen (net_listen : string * string -> error_) (laddr : string) (a : AddrHostPort) : AddrHostPort * error_ :=
  let '(a, e) := ParseAddr (set_Addr laddr a) in
  match e with
  | Some e => (a, Some e)
  | None =>
      (a, match net_listen (listen_args a) with
          | Some e => Some ("failed to listen for connection on " +:+ Config.Addr a +:+ ": " +:+ e)
          | None => None
          end)
  end.

(** It listens on the address that was given; a port that is none is an error before
    anything is listened on. *)
Theorem basic_listen_spec net_listen host (port : N) a :
  plain_host host = true -> Z.of_N port < 65536 -> UnixDomainPath a = "" ->
  let laddr := host +:+ ":" +:+ pretty port in
  (BasicServer_Listen net_listen laddr a).2 = None <-> net_listen ("tcp", laddr) = None.
Proof.
  intros Hh Hp Hu laddr. unfold BasicServer_Listen. rewrite (parse_addr_host_port (set_Addr laddr a) host port Hh Hp) by (by destruct a).
  destruct a. cbn in Hu. subst. cbn. destruct (net_listen _); naive_solver.
Qed.

(** The path of a socket of the file system is read, and not listened on: the address
    is still the host, a colon and the path. *)
Example unix_path_not_listened_on :
  listen_args (ParseAddr (blank_addr "esshd" "localhost:/tmp/sock")).1 = ("unix", "localhost:/tmp/sock").
Proof. vm_compute. reflexivity. Qed.

(** [WaitUntilAddrAvailable]: whether the address is bound, at each try; the sleeps
    until it is not, or -1. *)
Fixpoint WaitUntilAddrAvailable (bound : list bool) (i : Z) : Z :=
  match bound with
  | [] => -1
  | true :: bound => WaitUntilAddrAvailable bound (i + 1)
  | false :: _ => i
  end.

(** [Stop]: [done] is that the accept loop returned and said so. *)
Definition Stop (done_ : bool) (addr xport : list bool) : outcome unit :=
  if negb done_ then Blocked
  else if WaitUntilAddrAvailable (take 100 addr) 0 =? -1 then Err "esshd never stopped; after 10 seconds of waits"
  else if WaitUntilAddrAvailable (take 100 xport) 0 =? -1 then Err "xport bound never stopped from old esshd; after 10 seconds of waits"
  else Ok tt.

Lemma wait_spec bound i : 0 <= i -> WaitUntilAddrAvailable bound i = -1 <-> Forall (fun b => b = true) bound.
Proof.
  revert i. induction bound as [|[] bound IH]; intros i Hi; cbn [WaitUntilAddrAvailable].
  - split; [intros _; apply Forall_nil_2|done].
  - rewrite IH by lia. rewrite Forall_cons. tauto.
  - split; [lia|]. intros Hf. apply Forall_cons in Hf as [? _]. done.
Qed.

(** A stop succeeds exactly when the accept loop returned and both addresses were
    free at one of a hundred looks. *)
Theorem stop_spec done_ addr xport :
  Stop done_ addr xport = Ok tt <-> done_ = true /\ false ∈ take 100 addr /\ false ∈ take 100 xport.
Proof.
  assert (forall l, WaitUntilAddrAvailable l 0 = -1 <-> false ∉ l) as Hw.
  { intros l. rewrite wait_spec by done. rewrite Forall_forall. split; [intros Hf Hin; by specialize (Hf _ Hin)|]. by intros Hn [] Hin. }
  unfold Stop. destruct done_; cbn [negb]; [|naive_solver].
  destruct (Z.eqb_spec (WaitUntilAddrAvailable (take 100 addr) 0) (-1)) as [E|E]; [apply Hw in E; naive_solver|].
  destruct (Z.eqb_spec (WaitUntilAddrAvailable (take 100 xport) 0) (-1)) as [E'|E']; [apply Hw in E'; naive_solver|].
  rewrite Hw in E, E'. apply dec_stable in E, E'. naive_solver.
Qed.

(** ** Clients on the wire *)

Section Wire.
Context (compare_hash : string -> string -> bool) (key_from_url : string -> outcome unit) (totp_validate : string -> string -> Z -> bool).
Context (ecMarshal : Z -> Z -> Z -> string) (ecUnmarshal : Z -> string -> option (Z * Z)).
Context (rsa_verify : Z -> Z -> string -> string -> error_) (dsa_verify : Z -> Z -> Z -> Z -> string -> Z -> Z -> bool)
        (ecdsa_verify : Z -> Z -> Z -> string -> Z -> Z -> bool) (ed25519_equation : string -> string -> string -> bool).
Context (encode_db encode_json : HostDbPersist -> string) (can_write : string -> bool) (cfg : HostCfg) (show_time : Z -> string).

(** A client: one that never sends anything, one that fails in the exchange of
    versions and keys, or one whose packets after it are given, up to its end, with
    the errors of writing to it. *)
Inductive client := Silent | NoKeys (e : string) | Speaks (remoteAddr sessionID : string) (write_err : list ClientAuth.io_event -> string -> error_) (clock : nat -> Z) (packets : list string).

Definition PerConnection (c : client) (h : HostDb) : HostDb * outcome string :=
  match c with
  | Silent => (h, Blocked)
  | NoKeys e => (h, Err e)
  | Speaks remoteAddr sessionID write_err clock packets =>
      let '(_, h, r, _) := serverHandshake compare_hash key_from_url totp_validate ecMarshal ecUnmarshal rsa_verify dsa_verify ecdsa_verify
        ed25519_equation encode_db encode_json can_write cfg remoteAddr sessionID show_time write_err clock packets h in (h, r)
  end.

Lemma serverHandshake_frame remoteAddr sessionID write_err clock packets h :
  frame cfg h (serverHandshake compare_hash key_from_url totp_validate ecMarshal ecUnmarshal rsa_verify dsa_verify ecdsa_verify
    ed25519_equation encode_db encode_json can_write cfg remoteAddr sessionID show_time write_err clock packets h).1.1.2.
Proof.
  unfold serverHandshake.
  match goal with |- context [handshake_run ?x1 ?x2 ?x3 ?x4 ?x5 ?x6 ?x7 ?x8 ?x9 ?y1 ?y2 ?y3 ?y4 ?y5 ?y6 ?y7 ?y8 ?y9 packets h] =>
    pose proof (handshake_frame x1 x2 x3 x4 x5 x6 x7 x8 x9 y1 y2 y3 y4 y5 y6 y7 y8 y9 packets h) as HF;
    destruct (handshake_run x1 x2 x3 x4 x5 x6 x7 x8 x9 y1 y2 y3 y4 y5 y6 y7 y8 y9 packets h) as [r c] end.
  exact HF.
Qed.

Lemma PerConnection_users c h l : is_user l (PerConnection c h).1 <-> is_user l h.
Proof.
  destruct c as [|e|ra si write_err clock packets]; [done|done|]. unfold PerConnection.
  pose proof (serverHandshake_frame ra si write_err clock packets h) as [HF _]. destruct (serverHandshake _ _ _ _ _ _ _ _ _ _ _ _ _ _ _ _ _ _ _ _) as [[[a' h'] r] out].
  cbn [fst snd] in *. unfold is_user. specialize (HF l). destruct (Get2 (Users (Persist h')) l), (Get2 (Users (Persist h)) l); try done.
Qed.

#[export] Instance wire_logins : Logins client := { per_connection := PerConnection; per_connection_users := PerConnection_users }.
End Wire.

(** ** A concrete server *)

Definition demo_clients : Logins client :=
  wire_logins (fun _ _ => false) (fun _ => Ok tt) (fun _ _ _ => false) (fun _ _ _ => "") (fun _ _ => None) (fun _ _ _ _ => None)
    (fun _ _ _ _ _ _ _ => false) (fun _ _ _ _ _ _ => false) (fun _ _ _ => false) demo_encode demo_encode (fun _ => true) demo_cfg itoa.
Definition bob_deleted : User := deleted_user "bob".
Definition demo_after : HostDb := match serve_del demo_encode demo_encode (fun _ => true) (fun _ => true) demo_cfg bob_deleted demo_db_bob with Ok (h, _) => h | _ => demo_db_bob end.
Definition demo_step : @system client string -> @system client string -> Prop :=
  @sys_step client demo_clients string demo_hash demo_totp demo_rsa demo_encode demo_encode wire unwire (fun _ => true) (fun _ => true) demo_cfg.

(** A client fails, then a command deletes bob. *)
Lemma demo_life :
  rtc demo_step (started demo_db_bob "key")
    (mkSystem (mkEsshd demo_after "key" Accepting []) Idle false 1 [mkAnswered 0 (CmdDel bob_deleted) DelUserReplyOK] [(0%nat, DelUserReplyOK)]).
Proof.
  eapply rtc_l; [eapply (step_connect _ _ _ _ _ _ _ _ _ _ _ (NoKeys "EOF")); reflexivity|].
  eapply rtc_l; [eapply (step_command _ _ _ _ _ _ _ _ _ _ _ 12 (DelUserCmd +:+ wire bob_deleted) (CmdDel bob_deleted)); vm_compute; reflexivity|].
  eapply rtc_l; [eapply (step_del _ _ _ _ _ _ _ _ _ _ _ 0 bob_deleted _ true); vm_compute; reflexivity|].
  eapply rtc_l; [eapply (step_reply_del _ _ _ _ _ _ _ _ _ _ _ 0 bob_deleted true); vm_compute; reflexivity|].
  match goal with |- rtc _ ?x ?y => assert (x = y) as -> by (vm_compute; reflexivity) end. apply rtc_refl.
Qed.

